(* ===== verification/_CoqProject ===== *)
-Q . S2P
Prelude.v
Segs.v
Types.v
Spinlock.v
Strings.v
Printf.v
Kalloc.v
Sched.v
Console.v
Vm.v
Apic.v
Uvm.v
Kvm.v
Ide.v
Bio.v
Blocks.v
Bytes.v
Log.v
Fs.v
Bitmap.v
Inode.v
Content.v
Dir.v
Mkfs.v
Condev.v
Pipe.v
File.v
Proc.v
Usermem.v
Exec.v
Sysfile.v
Sysproc.v
Grep.v
Umalloc.v
Sh.v
Usys.v
Runcmd.v
Boot.v
Utils.v
Usertests.v
X86.v
Asm.v
Trapasm.v
Stubs.v
Mmu.v
Entry.v
Main.v
Startup.v
