(* ===== verification/Prelude.v ===== *)
(** A verification of xv6: the x86 teaching kernel in the CSE460 fork, with its
    boot loader, its shell and user programs, and the program that builds its
    disk image. The sources are under src/Xv6/.

    * The program and its model

    xv6 is a kernel in C. From below: physical pages (kalloc.c) and page tables
    (vm.c); spin locks, sleep and wakeup and the scheduler (spinlock.c, proc.c,
    sleeplock.c); a disk driver (ide.c, or memide.c in its place), a cache of
    disk blocks (bio.c), a redo log that makes groups of writes atomic (log.c),
    and on it the file system (fs.c); pipes, the console and open files (pipe.c,
    console.c, file.c); the system calls, reached through trap and syscall
    (trap.c, syscall.c, sysfile.c, sysproc.c, exec.c). User programs run on
    these calls. mkfs.c writes the first file system on the host. The boot block
    (bootasm.S, bootmain.c) loads the kernel, entry.S and main.c start it, and
    entryother.S the other CPUs; trapasm.S, swtch.S, usys.S and initcode.S are
    the assembly code between processes and kernel.

    The embedding is shallow. A C function is a Rocq function of the same name in
    the monad [M S] of this file: it takes the state [S] of its component and
    ends in an [outcome], [Ret] with its result, [Panic], [Fault] (an access that
    C leaves undefined), [NoFuel], or [Switch], when the thread gives up the CPU
    in swtch and waits to be resumed in a state that others have changed. The
    kernel's global variables are the record [kernel] of Types.v and [K] is the
    monad over it. An [int] or [uint] is a [Z] whose wrap-around is written out
    ([u32], [i32], [uadd], [usub]); memory is a function from addresses to bytes;
    a disk block is a list of bytes, and the structures that the code lays over
    it are read and written byte by byte (Bytes.v).

    The assembly files are lists of instructions. X86.v is the processor that
    runs them, with its segments, its descriptor tables and paging; a theorem
    about them takes their text as it lies in memory. The kernel of the C files
    and the processor meet in the page tables and descriptor tables, which are
    the same bytes of memory to both, and in the trap frames and contexts on the
    stacks. User programs are trees of system calls (Usys.v).

    What the sources only call is an argument: the linker's symbols and the size
    of the image ([Platform]), what devices answer ([Hardware], [BootDisk]), the
    device switch ([Devsw]), what sbrk gives a process ([Process] in Umalloc.v),
    and, for the shell, whether the kernel lets a file be opened, a program run
    or a process be made ([Kernel] in Usys.v). The two disk drivers are instances
    of one class [DiskDriver]; the layers above are proved against [SyncDisk],
    what a driver promises them.

    * The files

    - Prelude.v, this file: outcomes, the monad, record update ([s <| f := v |>]),
      machine integers, the tactics [run] and [sst] that execute a program.
    - Segs.v: segment and gate descriptors (mmu.h).
    - Types.v: constants, structures and the kernel state (param.h, mmu.h,
      memlayout.h, fs.h, stat.h, proc.h, buf.h, file.h, sleeplock.h).
    - Spinlock.v: acquire, release, holding, pushcli, popcli at three levels:
      one CPU ([Module Machine]), every interleaving of the memory accesses of
      several CPUs ([Module Interleave]), and the set of held locks that the
      rest of the kernel uses.
    - Strings.v, Printf.v: string.c, the strings of ulib.c, cprintf and printf.
    - Kalloc.v: kalloc, kfree, freerange on the list threaded through the pages.
    - Sched.v: sched, sleep, wakeup and sleep locks.
    - Console.v, Condev.v: console.c, kbd.c, uart.c.
    - Vm.v: the code of vm.c. Uvm.v: what it does to the memory a process sees.
      Kvm.v: whole address spaces, built, copied and given back.
    - Apic.v: lapic.c, ioapic.c, picirq.c, mp.c over a history of port accesses.
    - Ide.v: ide.c and memide.c. Bio.v: bio.c. Blocks.v: blocks as the layers
      above see them, with one current contents each. Log.v: log.c.
    - Fs.v: the code of fs.c. Bitmap.v, Inode.v, Content.v, Dir.v: its bitmap,
      inodes, file contents and directories, each as what it represents.
    - Mkfs.v: mkfs.c, and its image as the kernel reads it.
    - Pipe.v, File.v, Proc.v: pipe.c, file.c, proc.c.
    - Usermem.v: user memory and the fetching of arguments (syscall.c). Exec.v,
      Sysfile.v, Sysproc.v: exec.c, sysfile.c, sysproc.c, syscall and trap.
    - Grep.v, Umalloc.v: grep and match of grep.c, and umalloc.c.
    - Sh.v: the parser of sh.c. Usys.v: programs as trees of system calls, and
      what the calls do to the descriptors of a process. Runcmd.v: the rest of
      sh.c. Utils.v: the small programs, from cat.c to init.c, and main of grep.c.
      Usertests.v: the test programs usertests.c, stressfs.c, forktest.c, foo.c
      and vid.c.
    - Boot.v: bootmain.c, and the descriptor tables that seginit (vm.c) and
      tvinit (trap.c) fill.
    - X86.v: the processor. Asm.v: assembly text, and swtch.S. Trapasm.v:
      trapasm.S and what vectors.pl prints. Stubs.v: usys.S and initcode.S.
      Mmu.v: the translation of addresses. Entry.v: bootasm.S, entry.S and
      entryother.S, with asm.h.
    - Main.v: main.c, and the initialisers that only it calls. Startup.v: what
      they establish.

    * What the theorems show

    Storage. A crash after any prefix of the disk writes of commit recovers to
    all or none of a transaction, and recovery may itself crash and be repeated
    (Log.v). balloc and bfree implement a set of free blocks; an inode written
    is the inode read; readi returns what writei wrote, through blocks allocated
    on the way; dirlookup and dirlink implement a finite map from names (Bitmap.v,
    Inode.v, Content.v, Dir.v). The interrupt-driven driver has the effect of the
    memory disk (Ide.v). The image of mkfs is such a file system, with the files
    it was given (Mkfs.v).

    Memory. The page allocator implements a pool of pages; growing, shrinking and
    copying an address space do what they say to the memory of the process, or
    undo what they did when memory runs out; copyout and the fetching of
    arguments stay within the address space (Kalloc.v, Uvm.v, Kvm.v, Usermem.v).
    On the page table of a process the processor lets user code reach the frames
    of that process and nothing else (Mmu.v).
    malloc and free implement an arena of disjoint blocks (Umalloc.v).

    Concurrency. Mutual exclusion of spin locks in every interleaving, and the
    step from the machine to the held set; no lost wakeup; sleep locks exclude;
    a pipe is a bounded queue and delivers what is written (Spinlock.v, Sched.v,
    Pipe.v). The scheduler picks the first process of the best priority, and
    never one of worse priority while a better one can run (Proc.v).

    User level. The parser of the shell decides its grammar, and the shell runs
    what a line means, each program with its three descriptors and no stray end
    of a pipe (Sh.v, Runcmd.v). grep finds the occurrences of a pattern, wc
    counts, printed numbers read back (Grep.v, Utils.v, Printf.v). The tests of
    usertests keep their processes and descriptors apart, three of them with
    exceptions that the theorem names (Usertests.v).

    Between user code and kernel. A trap saves the state of the interrupted code
    in the frame that trap gets, and trapret restores what the frame then holds;
    swtch goes on where the other context left off; the stub of a system call
    enters the kernel with its number and returns its result; the first user
    code calls exec (Trapasm.v, Asm.v, Stubs.v).

    Start. The boot block gets from real mode to bootmain, the loader leaves every
    segment of the kernel in place, entry.S gets to main with paging on, and
    entryother.S to mpenter; main gets to the scheduler with every CPU started,
    every page free or in one use and the first process ready to run, and mpenter
    gets there on the other CPUs (Entry.v, Boot.v, Startup.v). The CPU reads from
    the descriptor tables what the kernel means (Boot.v).

    A theorem that says that code returns exhibits the result; it does not assume
    that the run ends.

    * Fuel and bounds

    A loop over a table, a list or the bytes of a block recurses on what is left
    of it. A loop whose bound is arithmetic has a fuel that its caller computes
    from the arguments (the blocks of a read or write, the pages of a range, the
    tokens of a line, the sectors of a segment); the theorems show that it is
    enough. A loop that sleeps or polls until others act has the fuel of
    [Platform], and theorems about it assume at most that it is positive or
    larger than the process table; loops of user programs that read to the end
    of their input have a fuel argument, and the theorems ask for one turn for
    each piece of input. Sizes are those of the sources: 1000 blocks, 30 of them
    for the log, 200 inodes, files of 140 blocks, 64 processes.

    * Not modelled

    - The lock names and call stacks kept for debugging, the loops in which
      panic prints them, and microdelay, which is empty.
    - Of the processor: the limits of segments, which are flat, cached
      translations, and the accessed and dirty bits, which the kernel never reads.
    - That the machine code of the C files computes what their text says: the
      compiler's output is not under src/. Where assembly calls C the theorems
      about it end, or take what the C function leaves as a hypothesis.
    - Runs of all CPUs together above the level of the locks: a thread that gives
      way finds the state changed as its theorem says others may change it.
    - The floating-point loop of foo.c, which only takes time.
    - The build: Makefile, kernel.ld, sign.pl, printpcs.
    - Weak memory: the interleavings of Spinlock.v are sequentially consistent,
      as the xchg and the fences of the code make them. *)

From Stdlib Require Export ZArith Lia String.
From stdpp Require Export base list gmap.
From stdpp Require Export strings.

#[global] Open Scope Z_scope.

Set Default Goal Selector "!".

(** ** Outcomes and the kernel-thread monad

    A C function that runs in state [S] ends in one of five ways.  [Switch]
    is a call of [swtch]: the thread gives the CPU away in state [s] and
    continues with [k] in whatever state it is resumed in. *)

Inductive outcome (S A : Type) : Type :=
| Ret (a : A) (s : S)
| Panic (msg : string) (s : S)
| Fault
| NoFuel
| Switch (s : S) (k : S → outcome S A).

Arguments Ret {S A} a s.
Arguments Panic {S A} msg s.
Arguments Fault {S A}.
Arguments NoFuel {S A}.
Arguments Switch {S A} s k.

Definition M (S A : Type) : Type := S → outcome S A.

Fixpoint obind {S A B} (o : outcome S A) (k : A → M S B) : outcome S B :=
  match o with
  | Ret a s => k a s
  | Panic msg s => Panic msg s
  | Fault => Fault
  | NoFuel => NoFuel
  | Switch s r => Switch s (λ s', obind (r s') k)
  end.

#[export] Instance M_ret S : MRet (M S) := λ A a s, Ret a s.
#[export] Instance M_bind S : MBind (M S) := λ A B k m s, obind (m s) k.

Definition panic {S A} (msg : string) : M S A := λ s, Panic msg s.
Definition fault {S A} : M S A := λ _, Fault.
Definition nofuel {S A} : M S A := λ _, NoFuel.
Definition gets {S A} (f : S → A) : M S A := λ s, Ret (f s) s.
Definition modify {S} (f : S → S) : M S unit := λ s, Ret tt (f s).

(** Reading through a pointer that may be null or out of range. *)
Definition deref {S A} (o : option A) : M S A :=
  match o with Some a => mret a | None => fault end.

Definition when {S} (b : bool) (m : M S unit) : M S unit :=
  if b then m else mret tt.

(** [for(x in l) body]: run [body] on each element in order. *)
Fixpoint for_each {S A} (l : list A) (body : A → M S unit) : M S unit :=
  match l with
  | [] => mret tt
  | x :: l' => body x;; for_each l' body
  end.

(** ** Total correctness: [wp m s Q] says that [m] run from [s] returns,
    without panic, fault or context switch, in a result satisfying [Q]. *)

Definition wp {S A} (m : M S A) (s : S) (Q : A → S → Prop) : Prop :=
  match m s with Ret a s' => Q a s' | _ => False end.

Section wp.
Context {S A B : Type}.
Implicit Types (m : M S A) (k : A → M S B).

Lemma wp_ret_intro (a : A) (s : S) (Q : A → S → Prop) : Q a s → wp (mret a) s Q.
Proof. done. Qed.

Lemma wp_bind m k s (Q : B → S → Prop) :
  wp m s (λ a s', wp (k a) s' Q) → wp (m ≫= k) s Q.
Proof.
  unfold wp, mbind, M_bind. by destruct (m s) eqn:E; cbn.
Qed.

Lemma wp_bind_inv m k s (Q : B → S → Prop) :
  wp (m ≫= k) s Q → (∃ a s', m s = Ret a s') → wp m s (λ a s', wp (k a) s' Q).
Proof. unfold wp, mbind, M_bind. by intros H (a & s' & E); rewrite E in *. Qed.

Lemma wp_mono m s (Q R : A → S → Prop) :
  wp m s Q → (∀ a s', Q a s' → R a s') → wp m s R.
Proof. unfold wp. destruct (m s); naive_solver. Qed.

Lemma wp_run m s (Q : A → S → Prop) : wp m s Q ↔ ∃ a s', m s = Ret a s' ∧ Q a s'.
Proof. unfold wp. split; [destruct (m s); naive_solver|]. by intros (a & s' & -> & HQ). Qed.

Lemma bind_run m k s a s' : m s = Ret a s' → (m ≫= k) s = k a s'.
Proof. unfold mbind, M_bind. by intros ->. Qed.

Lemma bind_switch m k s s1 r :
  m s = Switch s1 r → (m ≫= k) s = Switch s1 (λ s', obind (r s') k).
Proof. unfold mbind, M_bind. by intros ->. Qed.

Lemma bind_panic m k s msg s' : m s = Panic msg s' → (m ≫= k) s = Panic msg s'.
Proof. unfold mbind, M_bind. by intros ->. Qed.

Lemma wp_eq m s a s' (Q : A → S → Prop) : m s = Ret a s' → Q a s' → wp m s Q.
Proof. unfold wp. by intros ->. Qed.
End wp.

(** [post R Q o]: however the environment resumes the thread at its switches
    (any state related by [R] to the one it left the CPU in), if it returns it
    does so in a result satisfying [Q], and it does not panic or fault. *)
Fixpoint post {S A} (R : S → S → Prop) (Q : A → S → Prop) (o : outcome S A) : Prop :=
  match o with
  | Ret a s => Q a s
  | Switch s k => ∀ s', R s s' → post R Q (k s')
  | NoFuel => True
  | Panic _ _ | Fault => False
  end.

Lemma post_bind {S A B} R (Q : B → S → Prop) (o : outcome S A) (k : A → M S B) :
  post R (λ a s, post R Q (k a s)) o → post R Q (obind o k).
Proof. induction o; cbn; naive_solver. Qed.

Lemma post_mono {S A} R (Q Q' : A → S → Prop) (o : outcome S A) :
  (∀ a s, Q a s → Q' a s) → post R Q o → post R Q' o.
Proof. intros HQ. induction o; cbn; naive_solver. Qed.

(** ** Machine integers *)

Definition u8 (x : Z) : Z := x mod 2 ^ 8.
Definition u16 (x : Z) : Z := x mod 2 ^ 16.
Definition u32 (x : Z) : Z := x mod 2 ^ 32.

Definition sgn (w x : Z) : Z :=
  let y := x mod 2 ^ w in if y <? 2 ^ (w - 1) then y else y - 2 ^ w.
Definition i8 (x : Z) : Z := sgn 8 x.
Definition i16 (x : Z) : Z := sgn 16 x.
Definition i32 (x : Z) : Z := sgn 32 x.

(** Unsigned C arithmetic on [uint]. *)
Definition uadd (x y : Z) : Z := u32 (x + y).
Definition usub (x y : Z) : Z := u32 (x - y).

Definition is_u8 (x : Z) : Prop := 0 ≤ x < 2 ^ 8.
Definition is_u16 (x : Z) : Prop := 0 ≤ x < 2 ^ 16.
Definition is_u32 (x : Z) : Prop := 0 ≤ x < 2 ^ 32.
Definition is_i16 (x : Z) : Prop := - 2 ^ 15 ≤ x < 2 ^ 15.
Definition is_i32 (x : Z) : Prop := - 2 ^ 31 ≤ x < 2 ^ 31.

Lemma u32_small x : is_u32 x → u32 x = x.
Proof. apply Z.mod_small. Qed.

Lemma u32_range x : is_u32 (u32 x).
Proof. apply Z.mod_pos_bound. lia. Qed.

Lemma u32_idem x : u32 (u32 x) = u32 x.
Proof. apply u32_small, u32_range. Qed.

Lemma i32_small x : is_i32 x → i32 x = x.
Proof.
  unfold is_i32, i32, sgn. intros H. change (32 - 1) with 31.
  destruct (decide (0 ≤ x)).
  - rewrite Z.mod_small by lia. destruct (Z.ltb_spec x (2 ^ 31)); lia.
  - rewrite <- (Z_mod_plus_full x 1), Z.mod_small by lia.
    destruct (Z.ltb_spec (x + 1 * 2 ^ 32) (2 ^ 31)); lia.
Qed.

Lemma i32_range x : is_i32 (i32 x).
Proof.
  unfold is_i32, i32, sgn. change (32 - 1) with 31.
  pose proof (Z.mod_pos_bound x (2 ^ 32) ltac:(lia)).
  destruct (Z.ltb_spec (x mod 2 ^ 32) (2 ^ 31)); lia.
Qed.

Lemma u32_add_l x y : u32 (u32 x + y) = u32 (x + y).
Proof. unfold u32. apply Zplus_mod_idemp_l. Qed.

Lemma u32_add_r x y : u32 (x + u32 y) = u32 (x + y).
Proof. unfold u32. apply Zplus_mod_idemp_r. Qed.

Lemma u32_sub_l x y : u32 (u32 x - y) = u32 (x - y).
Proof. unfold u32. apply Zminus_mod_idemp_l. Qed.

Lemma u32_sub_r x y : u32 (x - u32 y) = u32 (x - y).
Proof. unfold u32. apply Zminus_mod_idemp_r. Qed.

(** Reduction modulo [2^32] does not change the residue modulo a power of two. *)
Lemma u32_mod_pow2 x k : 0 ≤ k ≤ 32 → u32 x mod 2 ^ k = x mod 2 ^ k.
Proof.
  intros Hk. unfold u32. apply Z.mod_mod_divide.
  exists (2 ^ (32 - k)). rewrite <- Z.pow_add_r by lia. f_equal; lia.
Qed.

(** ** Lists updated by index *)

Lemma list_alter_same {A} (f g : A → A) (l : list A) i :
  (∀ x, l !! i = Some x → f x = g x) → alter f i l = alter g i l.
Proof.
  intros H. apply list_eq. intros k. rewrite !list_lookup_alter. case_decide; [|done]. subst k.
  destruct (l !! i) eqn:E; cbn; [by rewrite (H _ eq_refl)|done].
Qed.

Lemma list_alter_id_lookup {A} (f : A → A) (l : list A) i :
  (∀ x, l !! i = Some x → f x = x) → alter f i l = l.
Proof. intros H. rewrite (list_alter_same f (λ x, x) l i H). by apply list_alter_id. Qed.

(** ** Automation *)

Create HintDb xv6 discriminated.
Create Rewrite HintDb xv6_words.
#[export] Hint Resolve u32_range i32_range : xv6.
#[export] Hint Rewrite u32_idem u32_add_l u32_add_r u32_sub_l u32_sub_r : xv6_words.

(** Turn the boolean tests of the code into propositions. *)
Ltac bool_cases :=
  repeat match goal with
  | |- context [?x =? ?y] => destruct (Z.eqb_spec x y)
  | |- context [?x <? ?y] => destruct (Z.ltb_spec x y)
  | |- context [?x <=? ?y] => destruct (Z.leb_spec x y)
  end.

Ltac bool_hyps :=
  repeat match goal with
  | H : (_ =? _) = true |- _ => apply Z.eqb_eq in H
  | H : (_ =? _) = false |- _ => apply Z.eqb_neq in H
  | H : (_ <? _) = true |- _ => apply Z.ltb_lt in H
  | H : (_ <? _) = false |- _ => apply Z.ltb_ge in H
  | H : (_ <=? _) = true |- _ => apply Z.leb_le in H
  | H : (_ <=? _) = false |- _ => apply Z.leb_gt in H
  | H : (_ && _)%bool = true |- _ => apply andb_true_iff in H as [? ?]
  | H : (_ || _)%bool = false |- _ => apply orb_false_iff in H as [? ?]
  | H : negb _ = true |- _ => apply negb_true_iff in H
  | H : negb _ = false |- _ => apply negb_false_iff in H
  end.

(** Step through a monadic body under [wp]. *)
Ltac wp_unfold := unfold wp, mbind, M_bind, mret, M_ret, gets, modify, deref, when; cbn.
Ltac wp_seq H := apply wp_bind; eapply wp_mono; [apply H|].

(** Step through [(m ≫= k) s]: [run] when [m] is a primitive, [run_by tac]
    when [tac] proves the equation [m s = Ret a s']. *)
Ltac run := erewrite bind_run by reflexivity; cbv beta.
Tactic Notation "run_by" tactic3(t) := erewrite bind_run by t; cbv beta.

(** ** Record update

    [s <| f := v |>] is the C assignment [s->f = v]; [eta R] lists the fields
    of the record [R], from which [build_setter] derives each field's setter. *)

Class Settable (R : Type) := eta : R → R.
Class Setter {R T : Type} (proj : R → T) := set : (T → T) → R → R.
Arguments set {R T} proj {_} f r.

Ltac build_setter :=
  match goal with
  | |- @Setter ?R ?T ?p =>
      let i := constr:(_ : Settable R) in
      let e := eval hnf in (@eta R i) in
      let e' := eval pattern p in e in
      match e' with ?g _ => exact (λ f, g (λ r, f (p r))) end
  end.

Notation "s <| f := v |>" := (set f (λ _, v) s)
  (at level 1, left associativity, f at level 0, format "s  <| f  :=  v |>").
Notation "s <| f ::= g |>" := (set f g s)
  (at level 1, left associativity, f at level 0, format "s  <| f  ::=  g |>").

(** Compute projections of updated records without unfolding the updates: each
    step rewrites with an equation proved for an arbitrary record. *)
Ltac is_field p := let _ := constr:(_ : Setter p) in idtac.
Ltac field_eq E p R T q i :=
  first
  [ constr_eq p q; assert (E : ∀ f0 s0, p (@set R T q i f0 s0) = f0 (p s0)) by reflexivity
  | assert (E : ∀ f0 s0, p (@set R T q i f0 s0) = p s0) by reflexivity ].
Ltac sst :=
  cbv beta;
  repeat (match goal with
  | |- context [?p (@set ?R ?T ?q ?i ?f ?s)] =>
      is_field p; let E := fresh "E" in field_eq E p R T q i; rewrite (E f s); clear E
  end; cbv beta).
Ltac sst_in H :=
  cbv beta in H;
  repeat (match type of H with
  | context [?p (@set ?R ?T ?q ?i ?f ?s)] =>
      is_field p; let E := fresh "E" in field_eq E p R T q i; rewrite (E f s) in H; clear E
  end; cbv beta in H).
