(* ===== verification/Segs.v ===== *)
(** Segment and gate descriptors (mmu.h): their bit-fields, the macros that fill
    them, and what the CPU reads from the double words they make up. *)

From S2P Require Import Prelude.

Module Descriptors.

(** Assignment to a bit-field of [w] bits. *)
Definition bits (w v : Z) : Z := v mod 2 ^ w.

Record segdesc := mkSegdesc {
  lim_15_0 : Z; base_15_0 : Z; base_23_16 : Z; sd_type : Z; sd_s : Z; sd_dpl : Z; sd_p : Z;
  lim_19_16 : Z; avl : Z; sd_rsv1 : Z; db : Z; sd_g : Z; base_31_24 : Z
}.

Definition SEG (type base lim dpl : Z) : segdesc :=
  mkSegdesc (bits 16 (Z.land (Z.shiftr lim 12) 65535)) (bits 16 (Z.land base 65535))
    (bits 8 (Z.land (Z.shiftr base 16) 255)) (bits 4 type) 1 (bits 2 dpl) 1
    (bits 4 (Z.shiftr lim 28)) 0 0 1 1 (bits 8 (Z.shiftr base 24)).

Definition SEG16 (type base lim dpl : Z) : segdesc :=
  mkSegdesc (bits 16 (Z.land lim 65535)) (bits 16 (Z.land base 65535))
    (bits 8 (Z.land (Z.shiftr base 16) 255)) (bits 4 type) 1 (bits 2 dpl) 1
    (bits 4 (Z.shiftr lim 16)) 0 0 1 0 (bits 8 (Z.shiftr base 24)).

(** [d.s = 0]. *)
Definition clear_s (d : segdesc) : segdesc :=
  mkSegdesc (lim_15_0 d) (base_15_0 d) (base_23_16 d) (sd_type d) 0 (sd_dpl d) (sd_p d) (lim_19_16 d) (avl d) (sd_rsv1 d) (db d) (sd_g d) (base_31_24 d).

Record gatedesc := mkGatedesc {
  off_15_0 : Z; gd_cs : Z; gd_args : Z; gd_rsv1 : Z; gd_type : Z; gd_s : Z; gd_dpl : Z; gd_p : Z; off_31_16 : Z
}.

Definition STS_T32A : Z := 9.
Definition STS_IG32 : Z := 14.
Definition STS_TG32 : Z := 15.

Definition SETGATE (istrap : bool) (sel off d : Z) : gatedesc :=
  mkGatedesc (bits 16 (Z.land off 65535)) (bits 16 sel) 0 0 (if istrap then STS_TG32 else STS_IG32) 0 (bits 2 d) 1 (bits 16 (Z.shiftr off 16)).

Definition STA_X : Z := 8.
Definition STA_R : Z := 2.
Definition STA_W : Z := 2.

(** The operand of lgdt and lidt: three words in memory. *)
Definition lgdt (p size : Z) : list Z := [u16 (size - 1); u16 p; u16 (Z.shiftr p 16)].
Definition lidt (p size : Z) : list Z := [u16 (size - 1); u16 p; u16 (Z.shiftr p 16)].

(** ** What the CPU reads

    The bit-fields of a struct lie in a double word from its low end on. *)
Fixpoint pack (l : list (Z * Z)) : Z := match l with [] => 0 | (w, v) :: l' => v + 2 ^ w * pack l' end.

Definition seg_bits (d : segdesc) : list (Z * Z) :=
       [(16, lim_15_0 d); (16, base_15_0 d); (8, base_23_16 d); (4, sd_type d); (1, sd_s d); (2, sd_dpl d); (1, sd_p d);
        (4, lim_19_16 d); (1, avl d); (1, sd_rsv1 d); (1, db d); (1, sd_g d); (8, base_31_24 d)].
Definition gate_bits (d : gatedesc) : list (Z * Z) :=
       [(16, off_15_0 d); (16, gd_cs d); (5, gd_args d); (3, gd_rsv1 d); (4, gd_type d); (1, gd_s d); (2, gd_dpl d); (1, gd_p d); (16, off_31_16 d)].
Definition seg_word (d : segdesc) : Z := pack (seg_bits d).
Definition gate_word (d : gatedesc) : Z := pack (gate_bits d).

(** Every field holds a value of its width. *)
Definition typed (l : list (Z * Z)) : Prop := Forall (λ p, 0 < p.1 ∧ 0 ≤ p.2 < 2 ^ p.1) l.

(** Bits [o] to [o + w - 1], as the manual of the processor numbers them. *)
Definition field (o w x : Z) : Z := (x / 2 ^ o) mod 2 ^ w.
Definition seg_base (x : Z) : Z := field 16 24 x + 2 ^ 24 * field 56 8 x.
Definition seg_limit (x : Z) : Z :=
  let l := field 0 16 x + 2 ^ 16 * field 48 4 x in if field 55 1 x =? 1 then l * 4096 + 4095 else l.
Definition gate_offset (x : Z) : Z := field 0 16 x + 2 ^ 16 * field 48 16 x.

Lemma pack_field l1 w v l2 : typed l1 → 0 < w → 0 ≤ v < 2 ^ w →
  field (foldr (λ p a, p.1 + a) 0 l1) w (pack (l1 ++ (w, v) :: l2)) = v.
Proof.
  intros H Hw Hv. unfold field. induction H as [|[w0 v0] l1 [H1 H2] HF IH]; cbn [foldr app pack fst snd] in *.
  - rewrite Z.div_1_r, Z.mul_comm, Z_mod_plus_full. by apply Z.mod_small.
  - assert (0 ≤ foldr (λ p a, p.1 + a) 0 l1) by (clear -HF; induction HF as [|p l [? _] _ IH]; cbn; lia).
    rewrite Z.pow_add_r, <- Z.div_div by (lia || (apply Z.pow_nonzero; lia)). rewrite (Z.mul_comm (2 ^ w0)), Z.div_add by (apply Z.pow_nonzero; lia).
    rewrite (Z.div_small v0) by done. by rewrite Z.add_0_l.
Qed.

Lemma bits_range w v : 0 < w → 0 ≤ bits w v < 2 ^ w.
Proof. intros Hw. apply Z.mod_pos_bound. by apply Z.pow_pos_nonneg; lia. Qed.

Lemma pack_range l : typed l → 0 ≤ pack l < 2 ^ foldr (λ p a, p.1 + a) 0 l.
Proof.
  induction 1 as [|[w v] l [Hw Hv] HF IH]; cbn [pack foldr fst snd] in *; [done|].
  assert (0 ≤ foldr (λ p a, p.1 + a) 0 l) by (clear -HF; induction HF as [|p l [? _] _ IH]; cbn; lia).
  rewrite Z.pow_add_r by lia. assert (0 < 2 ^ w) by (apply Z.pow_pos_nonneg; lia). nia.
Qed.

Lemma pack_read l k w v : typed l → l !! k = Some (w, v) → field (foldr (λ p a, p.1 + a) 0 (take k l)) w (pack l) = v.
Proof.
  intros Ht Hk. rewrite <- (take_drop_middle _ _ _ Hk) at 2. pose proof (Forall_lookup_1 _ _ _ _ Ht Hk) as [H1 H2].
  apply pack_field; [by apply Forall_take|done|done].
Qed.

(** A field that the struct splits in two. *)
Lemma field_split o w1 w2 x : 0 ≤ o → 0 < w1 → 0 < w2 → field o (w1 + w2) x = field o w1 x + 2 ^ w1 * field (o + w1) w2 x.
Proof.
  intros Ho H1 H2. unfold field. assert (0 < 2 ^ w1) by (apply Z.pow_pos_nonneg; lia). assert (0 < 2 ^ w2) by (apply Z.pow_pos_nonneg; lia).
  rewrite Z.pow_add_r, Z.rem_mul_r, Z.div_div, <- Z.pow_add_r by (lia || (apply Z.pow_nonzero; lia) || (apply Z.pow_pos_nonneg; lia)). done.
Qed.

(** A gate that SETGATE fills. *)
Lemma gate_typed istrap sel off d : typed (gate_bits (SETGATE istrap sel off d)).
Proof.
  unfold typed, gate_bits, SETGATE. cbn [off_15_0 gd_cs gd_args gd_rsv1 gd_type gd_s gd_dpl gd_p off_31_16].
  repeat (constructor; cbn [fst snd]; [split; [lia|]; try (apply bits_range; lia); try (destruct istrap); done|]). done.
Qed.

Lemma gate_reads istrap sel off d : is_u32 off → is_u16 sel → 0 ≤ d < 4 →
  let x := gate_word (SETGATE istrap sel off d) in
  0 ≤ x < 2 ^ 64 ∧ gate_offset x = off ∧ field 16 16 x = sel ∧ field 40 4 x = (if istrap then STS_TG32 else STS_IG32) ∧ field 44 1 x = 0 ∧ field 45 2 x = d ∧ field 47 1 x = 1.
Proof.
  intros Ho Hs Hd x. pose proof (gate_typed istrap sel off d) as Ht.
  assert (Hf := λ k w v, pack_read _ k w v Ht). fold x in Hf.
  split; [apply (pack_range _ Ht)|]. split_and!.
  - unfold gate_offset. rewrite (Hf 0%nat 16 _ eq_refl : field 0 16 x = _), (Hf 8%nat 16 _ eq_refl : field 48 16 x = _). unfold SETGATE, bits. cbn [off_15_0 off_31_16].
    change 65535 with (Z.ones 16). rewrite Z.land_ones, Z.shiftr_div_pow2, Z.mod_mod by lia. unfold is_u32 in Ho.
    pose proof (Z.div_mod off (2 ^ 16)). rewrite (Z.mod_small (off / 2 ^ 16)) by (split; [apply Z.div_pos; lia|apply Z.div_lt_upper_bound; lia]). lia.
  - rewrite (Hf 1%nat 16 _ eq_refl : field 16 16 x = _). unfold SETGATE, bits. cbn [gd_cs]. by apply Z.mod_small.
  - exact (Hf 4%nat 4 _ eq_refl).
  - exact (Hf 5%nat 1 _ eq_refl).
  - rewrite (Hf 6%nat 2 _ eq_refl : field 45 2 x = _). unfold SETGATE, bits. cbn [gd_dpl]. by apply Z.mod_small.
  - exact (Hf 7%nat 1 _ eq_refl).
Qed.

(** A segment that SEG describes: the limit counts pages. *)
Lemma seg_typed type base lim dpl : typed (seg_bits (SEG type base lim dpl)).
Proof.
  unfold typed, seg_bits, SEG. cbn [lim_15_0 base_15_0 base_23_16 sd_type sd_s sd_dpl sd_p lim_19_16 avl sd_rsv1 db sd_g base_31_24].
  repeat (constructor; cbn [fst snd]; [split; [lia|]; try (apply bits_range; lia); done|]). done.
Qed.

Lemma seg_reads type base lim dpl : is_u32 base → is_u32 lim → 0 ≤ type < 16 → 0 ≤ dpl < 4 →
  let x := seg_word (SEG type base lim dpl) in
  0 ≤ x < 2 ^ 64 ∧ seg_base x = base ∧ seg_limit x = lim / 4096 * 4096 + 4095 ∧ field 40 4 x = type ∧ field 44 1 x = 1 ∧ field 45 2 x = dpl ∧ field 47 1 x = 1.
Proof.
  intros Hb Hl Hty Hd x. unfold is_u32 in Hb, Hl. pose proof (seg_typed type base lim dpl) as Ht. assert (Hf := λ k w v, pack_read _ k w v Ht). fold x in Hf.
  assert (Hs : ∀ v a b, 0 ≤ v < 2 ^ 32 → 0 ≤ a → 0 ≤ b → a + b = 32 → 0 ≤ v / 2 ^ a < 2 ^ b).
  { intros v a b Hv Ha Hb' Hab. assert (0 < 2 ^ a) by (by apply Z.pow_pos_nonneg). split; [apply Z.div_pos; lia|]. apply Z.div_lt_upper_bound; [done|]. rewrite <- Z.pow_add_r, Hab by lia. lia. }
  split; [apply (pack_range _ Ht)|]. split_and!.
  - unfold seg_base. change 24 with (16 + 8) at 1. rewrite field_split by lia.
    rewrite (Hf 1%nat 16 _ eq_refl : field 16 16 x = _), (Hf 2%nat 8 _ eq_refl : field (16 + 16) 8 x = _), (Hf 12%nat 8 _ eq_refl : field 56 8 x = _).
    unfold SEG, bits. cbn [base_15_0 base_23_16 base_31_24]. change 65535 with (Z.ones 16). change 255 with (Z.ones 8).
    rewrite !Z.land_ones, !Z.shiftr_div_pow2, !Z.mod_mod by lia. rewrite (Z.mod_small (base / 2 ^ 24)) by (apply (Hs base 24 8); lia).
    pose proof (Z.div_mod base (2 ^ 16)). pose proof (Z.div_mod (base / 2 ^ 16) (2 ^ 8)) as D2. rewrite Z.div_div in D2 by lia. change (2 ^ 16 * 2 ^ 8) with (2 ^ 24) in *. lia.
  - unfold seg_limit. rewrite (Hf 11%nat 1 _ eq_refl : field 55 1 x = _), (Hf 0%nat 16 _ eq_refl : field 0 16 x = _), (Hf 7%nat 4 _ eq_refl : field 48 4 x = _).
    unfold SEG, bits. cbn [sd_g lim_15_0 lim_19_16]. change 65535 with (Z.ones 16). rewrite Z.land_ones, !Z.shiftr_div_pow2, Z.mod_mod by lia. change (1 =? 1) with true. cbv iota.
    rewrite (Z.mod_small (lim / 2 ^ 28)) by (apply (Hs lim 28 4); lia). pose proof (Z.div_mod (lim / 2 ^ 12) (2 ^ 16)) as D. rewrite Z.div_div in D by lia.
    change (2 ^ 12 * 2 ^ 16) with (2 ^ 28) in D. change 4096 with (2 ^ 12). lia.
  - rewrite (Hf 3%nat 4 _ eq_refl : field 40 4 x = _). by apply Z.mod_small.
  - exact (Hf 4%nat 1 _ eq_refl).
  - rewrite (Hf 5%nat 2 _ eq_refl : field 45 2 x = _). by apply Z.mod_small.
  - exact (Hf 6%nat 1 _ eq_refl).
Qed.

Lemma fill_length {A} (f : nat → A) s : ∀ l, length (foldl (λ l i, <[i := f i]> l) l s) = length l.
Proof. induction s as [|j s IH]; intros l; [done|]. cbn [foldl]. by rewrite IH, length_insert. Qed.

Lemma fill_lookup {A} (f : nat → A) n : ∀ l i, (n <= length l)%nat →
  foldl (λ l i, <[i := f i]> l) l (seq 0 n) !! i = if decide (i < n)%nat then Some (f i) else l !! i.
Proof.
  induction n as [|n IH]; intros l i Hl; [by rewrite decide_False by lia|]. rewrite seq_S, foldl_app. cbn [foldl Nat.add].
  destruct (decide (i = n)) as [->|Hne]; [rewrite decide_True by lia; apply list_lookup_insert_eq; rewrite fill_length; lia|]. rewrite list_lookup_insert_ne by done. rewrite IH by lia.
  destruct (decide (i < n)%nat); [by rewrite decide_True by lia|by rewrite decide_False by lia].
Qed.

End Descriptors.
