(* ===== verification/Types.v ===== *)
(** The data model: the constants of param.h, mmu.h, memlayout.h, fs.h, stat.h
    and fcntl.h, the structures of proc.h, buf.h, file.h, fs.h, sleeplock.h,
    log.c, pipe.c and x86.h, and the record of the kernel's global variables.

    A pointer into a fixed table ([ptable.proc], [icache.inode],
    [ftable.file], [bcache.buf]) is the index of its entry, a nullable one an
    [option nat]; a pointer to a page obtained from [kalloc] is its kernel
    virtual address, a [Z] with 0 for null.  An [int] that only holds 0 and 1
    is a [bool]. *)

From S2P Require Import Prelude Segs.

(** ** Constants *)

Definition NPROC : nat := 64.
Definition KSTACKSIZE : Z := 4096.
Definition NOFILE : nat := 16.
Definition NFILE : nat := 100.
Definition NINODE : nat := 50.
Definition NDEV : Z := 10.
Definition ROOTDEV : Z := 1.
Definition MAXARG : Z := 32.
Definition MAXOPBLOCKS : Z := 10.
Definition LOGSIZE : Z := MAXOPBLOCKS * 3.
Definition NBUF : nat := Z.to_nat (MAXOPBLOCKS * 3).
Definition FSSIZE : Z := 1000.

Definition ROOTINO : Z := 1.
Definition BSIZE : Z := 512.
Definition NDIRECT : Z := 12.
Definition NINDIRECT : Z := BSIZE / 4.
Definition MAXFILE : Z := NDIRECT + NINDIRECT.
(** [sizeof(struct dinode)]: four shorts, the size and thirteen addresses. *)
Definition DINODESZ : Z := 64.
Definition IPB : Z := BSIZE / DINODESZ.
Definition BPB : Z := BSIZE * 8.
Definition DIRSIZ : Z := 14.
(** [sizeof(struct dirent)]: a [ushort] and [DIRSIZ] characters. *)
Definition DIRENTSZ : Z := 16.

Definition T_DIR : Z := 1.
Definition T_FILE : Z := 2.
Definition T_DEV : Z := 3.

Definition O_RDONLY : Z := 0.
Definition O_WRONLY : Z := 1.
Definition O_RDWR : Z := 2.
Definition O_CREATE : Z := 512.

Definition B_VALID : Z := 2.
Definition B_DIRTY : Z := 4.

Definition EXTMEM : Z := 1048576.
Definition PHYSTOP : Z := 234881024.
Definition DEVSPACE : Z := 4261412864.
Definition KERNBASE : Z := 2147483648.
Definition KERNLINK : Z := KERNBASE + EXTMEM.
Definition PGSIZE : Z := 4096.
Definition PTE_P : Z := 1.
Definition PTE_W : Z := 2.
Definition PTE_U : Z := 4.

Definition DPL_USER : Z := 3.
Definition SEG_KCODE : Z := 1.
Definition SEG_KDATA : Z := 2.
Definition SEG_UCODE : Z := 3.
Definition SEG_UDATA : Z := 4.
Definition SEG_TSS : Z := 5.
Definition NSEGS : nat := 6.
Definition FL_IF : Z := 512.

Definition CONSOLE : Z := 1.

(** ** What the build and the machine supply

    [fuel] bounds how often a loop that sleeps is re-entered; the [sym_]
    fields are addresses the linker assigns ([end], [data], [forkret],
    [trapret], [cpus], [idt], [vectors], [mpenter], [entrypgdir]), [fs_img_size]
    is the size of the file-system image linked in for memide.c and
    [entryother_img] the image of entryother.S. *)
Class Platform := {
  fuel : nat;
  sym_end : Z;
  sym_data : Z;
  sym_forkret : Z;
  sym_trapret : Z;
  fs_img_size : Z;
  sym_cpus : Z;
  sym_idt : Z;
  sym_vectors : nat → Z;
  sym_mpenter : Z;
  sym_entrypgdir : Z;
  entryother_img : list Z;
}.

(** What kernel.ld guarantees of the symbols: the kernel is linked at
    [KERNLINK], its data starts on a page boundary and it ends below the
    physical memory the kernel uses. *)
Class PlatformOk (P : Platform) : Prop := {
  data_aligned : sym_data mod PGSIZE = 0;
  link_data : KERNLINK < sym_data;
  data_end : sym_data < sym_end;
  end_phystop : sym_end < KERNBASE + PHYSTOP;
}.

(** ** Locks and sleep channels *)

(** The spin locks of the kernel.  The last two are the [lk] fields of the
    sleep locks of buffers and inodes, [LPipe p] the lock of the pipe at [p]. *)
Inductive lockid :=
| LPtable | LTicks | LCons | LKmem | LBcache | LIcache | LFtable | LLog | LIde
| LPipe (p : Z)
| LBuf (i : nat)
| LInode (i : nat).

#[export] Instance lockid_eq_dec : EqDecision lockid.
Proof. solve_decision. Defined.

(** What a process can sleep on: [void *chan] is the address of an object. *)
Inductive chan :=
| ChProc (i : nat)
| ChTicks
| ChLog
| ChInput
| ChPipeR (p : Z)
| ChPipeW (p : Z)
| ChBufLock (i : nat)
| ChInodeLock (i : nat)
| ChBuf (i : nat).

#[export] Instance chan_eq_dec : EqDecision chan.
Proof. solve_decision. Defined.

(** A sleep lock; its [lk] field is one of the [lockid]s above. *)
Record sleeplock := mkSleeplock { sl_locked : bool; sl_pid : Z }.
#[export] Instance eta_sleeplock : Settable sleeplock :=
  λ s, mkSleeplock (sl_locked s) (sl_pid s).
#[export] Instance set_sl_locked : Setter sl_locked. Proof. build_setter. Defined.
#[export] Instance set_sl_pid : Setter sl_pid. Proof. build_setter. Defined.

(** ** Processes *)

Inductive procstate := UNUSED | EMBRYO | SLEEPING | RUNNABLE | RUNNING | ZOMBIE.

#[export] Instance procstate_eq_dec : EqDecision procstate.
Proof. solve_decision. Defined.

(** The registers of [struct trapframe] (x86.h) the kernel's C code uses. *)
Record trapframe := mkTrapframe {
  tf_eax : Z; tf_trapno : Z; tf_err : Z; tf_eip : Z; tf_cs : Z; tf_ds : Z; tf_es : Z;
  tf_ss : Z; tf_eflags : Z; tf_esp : Z }.
#[export] Instance eta_trapframe : Settable trapframe :=
  λ t, mkTrapframe (tf_eax t) (tf_trapno t) (tf_err t) (tf_eip t) (tf_cs t) (tf_ds t)
         (tf_es t) (tf_ss t) (tf_eflags t) (tf_esp t).
#[export] Instance set_tf_eax : Setter tf_eax. Proof. build_setter. Defined.
#[export] Instance set_tf_trapno : Setter tf_trapno. Proof. build_setter. Defined.
#[export] Instance set_tf_err : Setter tf_err. Proof. build_setter. Defined.
#[export] Instance set_tf_eip : Setter tf_eip. Proof. build_setter. Defined.
#[export] Instance set_tf_cs : Setter tf_cs. Proof. build_setter. Defined.
#[export] Instance set_tf_ds : Setter tf_ds. Proof. build_setter. Defined.
#[export] Instance set_tf_es : Setter tf_es. Proof. build_setter. Defined.
#[export] Instance set_tf_ss : Setter tf_ss. Proof. build_setter. Defined.
#[export] Instance set_tf_eflags : Setter tf_eflags. Proof. build_setter. Defined.
#[export] Instance set_tf_esp : Setter tf_esp. Proof. build_setter. Defined.

Definition tf_zero : trapframe := mkTrapframe 0 0 0 0 0 0 0 0 0 0.

Record context := mkContext { c_edi : Z; c_esi : Z; c_ebx : Z; c_ebp : Z; c_eip : Z }.

(** [struct proc].  The trap frame and the context live at the top of the
    process's own kernel stack page and are kept here by value. *)
Record proc := mkProc {
  sz : Z;
  pgdir : Z;
  kstack : Z;
  state : procstate;
  pid : Z;
  parent : option nat;
  tf : trapframe;
  p_context : context;
  p_chan : option chan;
  killed : bool;
  ofile : list (option nat);
  cwd : option nat;
  name : list Z;
  priority : Z;
  start_ticks : Z;
  uid : Z;
  gid : Z }.
#[export] Instance eta_proc : Settable proc :=
  λ p, mkProc (sz p) (pgdir p) (kstack p) (state p) (pid p) (parent p) (tf p)
         (p_context p) (p_chan p) (killed p) (ofile p) (cwd p) (name p) (priority p)
         (start_ticks p) (uid p) (gid p).
#[export] Instance set_sz : Setter sz. Proof. build_setter. Defined.
#[export] Instance set_pgdir : Setter pgdir. Proof. build_setter. Defined.
#[export] Instance set_kstack : Setter kstack. Proof. build_setter. Defined.
#[export] Instance set_state : Setter state. Proof. build_setter. Defined.
#[export] Instance set_pid : Setter pid. Proof. build_setter. Defined.
#[export] Instance set_parent : Setter parent. Proof. build_setter. Defined.
#[export] Instance set_tf : Setter tf. Proof. build_setter. Defined.
#[export] Instance set_p_context : Setter p_context. Proof. build_setter. Defined.
#[export] Instance set_p_chan : Setter p_chan. Proof. build_setter. Defined.
#[export] Instance set_killed : Setter killed. Proof. build_setter. Defined.
#[export] Instance set_ofile : Setter ofile. Proof. build_setter. Defined.
#[export] Instance set_cwd : Setter cwd. Proof. build_setter. Defined.
#[export] Instance set_name : Setter name. Proof. build_setter. Defined.
#[export] Instance set_priority : Setter priority. Proof. build_setter. Defined.
#[export] Instance set_start_ticks : Setter start_ticks. Proof. build_setter. Defined.
#[export] Instance set_uid : Setter uid. Proof. build_setter. Defined.
#[export] Instance set_gid : Setter gid. Proof. build_setter. Defined.

(** A slot of the zero-initialised process table. *)
Definition proc_zero : proc :=
  mkProc 0 0 0 UNUSED 0 None tf_zero (mkContext 0 0 0 0 0) None false
    (replicate NOFILE None) None (replicate 16 0) 0 0 0 0.

(** ** Buffers, log, inodes, files, pipes *)

(** [struct buf].  [prev] and [next] thread the MRU list through indices;
    index [NBUF] is [bcache.head]. *)
Record buf := mkBuf {
  b_flags : Z; b_dev : Z; b_blockno : Z; b_lock : sleeplock; b_refcnt : Z;
  b_prev : nat; b_next : nat; b_qnext : option nat; b_data : list Z }.
#[export] Instance eta_buf : Settable buf :=
  λ b, mkBuf (b_flags b) (b_dev b) (b_blockno b) (b_lock b) (b_refcnt b)
         (b_prev b) (b_next b) (b_qnext b) (b_data b).
#[export] Instance set_b_flags : Setter b_flags. Proof. build_setter. Defined.
#[export] Instance set_b_dev : Setter b_dev. Proof. build_setter. Defined.
#[export] Instance set_b_blockno : Setter b_blockno. Proof. build_setter. Defined.
#[export] Instance set_b_lock : Setter b_lock. Proof. build_setter. Defined.
#[export] Instance set_b_refcnt : Setter b_refcnt. Proof. build_setter. Defined.
#[export] Instance set_b_prev : Setter b_prev. Proof. build_setter. Defined.
#[export] Instance set_b_next : Setter b_next. Proof. build_setter. Defined.
#[export] Instance set_b_qnext : Setter b_qnext. Proof. build_setter. Defined.
#[export] Instance set_b_data : Setter b_data. Proof. build_setter. Defined.

(** [struct log] with its [struct logheader lh] spliced in. *)
Record log := mkLog {
  l_start : Z; l_size : Z; l_outstanding : Z; l_committing : bool; l_dev : Z;
  lh_n : Z; lh_block : list Z }.
#[export] Instance eta_log : Settable log :=
  λ l, mkLog (l_start l) (l_size l) (l_outstanding l) (l_committing l) (l_dev l)
         (lh_n l) (lh_block l).
#[export] Instance set_l_start : Setter l_start. Proof. build_setter. Defined.
#[export] Instance set_l_size : Setter l_size. Proof. build_setter. Defined.
#[export] Instance set_l_outstanding : Setter l_outstanding. Proof. build_setter. Defined.
#[export] Instance set_l_committing : Setter l_committing. Proof. build_setter. Defined.
#[export] Instance set_l_dev : Setter l_dev. Proof. build_setter. Defined.
#[export] Instance set_lh_n : Setter lh_n. Proof. build_setter. Defined.
#[export] Instance set_lh_block : Setter lh_block. Proof. build_setter. Defined.

Record superblock := mkSuperblock {
  sb_size : Z; sb_nblocks : Z; sb_ninodes : Z; sb_nlog : Z; sb_logstart : Z;
  sb_inodestart : Z; sb_bmapstart : Z }.

(** [struct dinode], an inode as stored on disk. *)
Record dinode := mkDinode {
  d_type : Z; d_major : Z; d_minor : Z; d_nlink : Z; d_size : Z; d_addrs : list Z }.

Record inode := mkInode {
  i_dev : Z; i_inum : Z; i_ref : Z; i_lock : sleeplock; i_valid : bool;
  i_type : Z; i_major : Z; i_minor : Z; i_nlink : Z; i_size : Z; i_addrs : list Z;
  i_uid : Z; i_gid : Z; i_mode : Z }.
#[export] Instance eta_inode : Settable inode :=
  λ i, mkInode (i_dev i) (i_inum i) (i_ref i) (i_lock i) (i_valid i) (i_type i) (i_major i)
         (i_minor i) (i_nlink i) (i_size i) (i_addrs i) (i_uid i) (i_gid i) (i_mode i).
#[export] Instance set_i_dev : Setter i_dev. Proof. build_setter. Defined.
#[export] Instance set_i_inum : Setter i_inum. Proof. build_setter. Defined.
#[export] Instance set_i_ref : Setter i_ref. Proof. build_setter. Defined.
#[export] Instance set_i_lock : Setter i_lock. Proof. build_setter. Defined.
#[export] Instance set_i_valid : Setter i_valid. Proof. build_setter. Defined.
#[export] Instance set_i_type : Setter i_type. Proof. build_setter. Defined.
#[export] Instance set_i_major : Setter i_major. Proof. build_setter. Defined.
#[export] Instance set_i_minor : Setter i_minor. Proof. build_setter. Defined.
#[export] Instance set_i_nlink : Setter i_nlink. Proof. build_setter. Defined.
#[export] Instance set_i_size : Setter i_size. Proof. build_setter. Defined.
#[export] Instance set_i_addrs : Setter i_addrs. Proof. build_setter. Defined.
#[export] Instance set_i_uid : Setter i_uid. Proof. build_setter. Defined.
#[export] Instance set_i_gid : Setter i_gid. Proof. build_setter. Defined.
#[export] Instance set_i_mode : Setter i_mode. Proof. build_setter. Defined.

(** [struct stat]. *)
Record stat := mkStat {
  st_type : Z; st_dev : Z; st_ino : Z; st_nlink : Z; st_size : Z;
  st_uid : Z; st_gid : Z; st_mode : Z }.

Inductive filetype := FD_NONE | FD_PIPE | FD_INODE.

#[export] Instance filetype_eq_dec : EqDecision filetype.
Proof. solve_decision. Defined.

Record file := mkFile {
  f_type : filetype; f_ref : Z; f_readable : bool; f_writable : bool;
  f_pipe : Z; f_ip : option nat; f_off : Z }.
#[export] Instance eta_file : Settable file :=
  λ f, mkFile (f_type f) (f_ref f) (f_readable f) (f_writable f) (f_pipe f) (f_ip f) (f_off f).
#[export] Instance set_f_type : Setter f_type. Proof. build_setter. Defined.
#[export] Instance set_f_ref : Setter f_ref. Proof. build_setter. Defined.
#[export] Instance set_f_readable : Setter f_readable. Proof. build_setter. Defined.
#[export] Instance set_f_writable : Setter f_writable. Proof. build_setter. Defined.
#[export] Instance set_f_pipe : Setter f_pipe. Proof. build_setter. Defined.
#[export] Instance set_f_ip : Setter f_ip. Proof. build_setter. Defined.
#[export] Instance set_f_off : Setter f_off. Proof. build_setter. Defined.

Record pipe := mkPipe {
  pi_data : list Z; pi_nread : Z; pi_nwrite : Z; pi_readopen : bool; pi_writeopen : bool }.
#[export] Instance eta_pipe : Settable pipe :=
  λ p, mkPipe (pi_data p) (pi_nread p) (pi_nwrite p) (pi_readopen p) (pi_writeopen p).
#[export] Instance set_pi_data : Setter pi_data. Proof. build_setter. Defined.
#[export] Instance set_pi_nread : Setter pi_nread. Proof. build_setter. Defined.
#[export] Instance set_pi_nwrite : Setter pi_nwrite. Proof. build_setter. Defined.
#[export] Instance set_pi_readopen : Setter pi_readopen. Proof. build_setter. Defined.
#[export] Instance set_pi_writeopen : Setter pi_writeopen. Proof. build_setter. Defined.

(** ** The console *)

(** The variables of console.c ([cons.locking], [panicked] and the [input]
    ring), of uart.c ([uart]) and of kbd.c ([shift]), and the devices behind
    them: the bytes sent to and waiting at the serial port, the bytes waiting
    at the keyboard controller, the CGA cursor and text memory. *)
Record console := mkConsole {
  cs_locking : bool; cs_panicked : bool;
  in_buf : list Z; in_r : Z; in_w : Z; in_e : Z;
  has_uart : bool; uart_out : list Z; uart_in : list Z;
  kb_shift : Z; kb_in : list Z;
  crt_pos : Z; crt : list Z }.
#[export] Instance eta_console : Settable console :=
  λ c, mkConsole (cs_locking c) (cs_panicked c) (in_buf c) (in_r c) (in_w c) (in_e c)
         (has_uart c) (uart_out c) (uart_in c) (kb_shift c) (kb_in c) (crt_pos c) (crt c).
#[export] Instance set_cs_locking : Setter cs_locking. Proof. build_setter. Defined.
#[export] Instance set_cs_panicked : Setter cs_panicked. Proof. build_setter. Defined.
#[export] Instance set_in_buf : Setter in_buf. Proof. build_setter. Defined.
#[export] Instance set_in_r : Setter in_r. Proof. build_setter. Defined.
#[export] Instance set_in_w : Setter in_w. Proof. build_setter. Defined.
#[export] Instance set_in_e : Setter in_e. Proof. build_setter. Defined.
#[export] Instance set_has_uart : Setter has_uart. Proof. build_setter. Defined.
#[export] Instance set_uart_out : Setter uart_out. Proof. build_setter. Defined.
#[export] Instance set_uart_in : Setter uart_in. Proof. build_setter. Defined.
#[export] Instance set_kb_shift : Setter kb_shift. Proof. build_setter. Defined.
#[export] Instance set_kb_in : Setter kb_in. Proof. build_setter. Defined.
#[export] Instance set_crt_pos : Setter crt_pos. Proof. build_setter. Defined.
#[export] Instance set_crt : Setter crt. Proof. build_setter. Defined.

(** ** The kernel *)

(** An access to an I/O port ([outb], [outw], [inb]) or to a memory-mapped device
    register. *)
Inductive ioev :=
| OutB (port v : Z)
| OutW (port v : Z)
| InB (port v : Z)
| OutM (addr v : Z)
| InM (addr v : Z).

(** The descriptor tables and the registers that refer to them. [k_idt] is the
    table of trap.c and [started] holds [cpus[i].started]; the rest is of the CPU
    that runs: its number, its [gdt], the fields of its task state segment that
    the kernel sets besides [esp0], and the operands that gdtr, idtr and tr were
    loaded with. *)
Record cputab := mkCputab {
  k_idt : list Descriptors.gatedesc;
  started : list bool;
  cpu_no : nat;
  cpu_gdt : list Descriptors.segdesc;
  ts_ss0 : Z;
  ts_iomb : Z;
  cpu_gdtr : list Z;
  cpu_idtr : list Z;
  cpu_tr : Z }.
#[export] Instance eta_cputab : Settable cputab :=
  λ c, mkCputab (k_idt c) (started c) (cpu_no c) (cpu_gdt c) (ts_ss0 c) (ts_iomb c) (cpu_gdtr c) (cpu_idtr c) (cpu_tr c).
#[export] Instance set_k_idt : Setter k_idt. Proof. build_setter. Defined.
#[export] Instance set_started : Setter started. Proof. build_setter. Defined.
#[export] Instance set_cpu_no : Setter cpu_no. Proof. build_setter. Defined.
#[export] Instance set_cpu_gdt : Setter cpu_gdt. Proof. build_setter. Defined.
#[export] Instance set_ts_ss0 : Setter ts_ss0. Proof. build_setter. Defined.
#[export] Instance set_ts_iomb : Setter ts_iomb. Proof. build_setter. Defined.
#[export] Instance set_cpu_gdtr : Setter cpu_gdtr. Proof. build_setter. Defined.
#[export] Instance set_cpu_idtr : Setter cpu_idtr. Proof. build_setter. Defined.
#[export] Instance set_cpu_tr : Setter cpu_tr. Proof. build_setter. Defined.

(** The kernel's global variables and the hardware it drives.  [held] lists
    the spin locks held by the CPU that runs (see Spinlock.v); [curproc] is
    [mycpu()->proc], [cr3] and [ts_esp0] that CPU's page-table register and
    the kernel stack pointer of its task state segment; [mem] is the memory above [KERNBASE], byte by byte;
    [ide_reg] is the drive and sector the IDE controller is working on,
    [ide_err] whether its status register reports an error; [disk] holds the
    blocks by drive and number and [dtrace] the history of the block writes,
    oldest first; [fork_first] is the static variable [first] of forkret.  [iolog] is the
    history of the port and register accesses of the drivers in Apic.v,
    [lapic] and [ioapicid] are the globals of lapic.c and mp.c and [apicids]
    holds [cpus[i].apicid] for the [ncpu] processors found. *)
Record kernel := mkKernel {
  held : list lockid;
  curproc : option nat;
  ptable : list proc;
  nextpid : Z;
  initproc : option nat;
  ticks : Z;
  freelist : Z;
  use_lock : bool;
  mem : Z → Z;
  kpgdir : Z;
  cr3 : Z;
  ts_esp0 : Z;
  bcache : list buf;
  idequeue : option nat;
  havedisk1 : bool;
  ide_reg : Z * Z;
  ide_err : bool;
  disk : gmap (Z * Z) (list Z);
  dtrace : list (Z * Z * list Z);
  klog : log;
  sb : superblock;
  icache : list inode;
  ftable : list file;
  pipes : gmap Z pipe;
  kcons : console;
  fork_first : bool;
  iolog : list ioev;
  lapic : Z;
  ioapicid : Z;
  apicids : list Z;
  ktab : cputab }.
#[export] Instance eta_kernel : Settable kernel :=
  λ k, mkKernel (held k) (curproc k) (ptable k) (nextpid k) (initproc k) (ticks k)
         (freelist k) (use_lock k) (mem k) (kpgdir k) (cr3 k) (ts_esp0 k) (bcache k) (idequeue k)
         (havedisk1 k) (ide_reg k) (ide_err k) (disk k) (dtrace k) (klog k) (sb k) (icache k) (ftable k)
         (pipes k) (kcons k) (fork_first k) (iolog k) (lapic k) (ioapicid k) (apicids k) (ktab k).
#[export] Instance set_held : Setter held. Proof. build_setter. Defined.
#[export] Instance set_curproc : Setter curproc. Proof. build_setter. Defined.
#[export] Instance set_ptable : Setter ptable. Proof. build_setter. Defined.
#[export] Instance set_nextpid : Setter nextpid. Proof. build_setter. Defined.
#[export] Instance set_initproc : Setter initproc. Proof. build_setter. Defined.
#[export] Instance set_ticks : Setter ticks. Proof. build_setter. Defined.
#[export] Instance set_freelist : Setter freelist. Proof. build_setter. Defined.
#[export] Instance set_use_lock : Setter use_lock. Proof. build_setter. Defined.
#[export] Instance set_mem : Setter mem. Proof. build_setter. Defined.
#[export] Instance set_kpgdir : Setter kpgdir. Proof. build_setter. Defined.
#[export] Instance set_cr3 : Setter cr3. Proof. build_setter. Defined.
#[export] Instance set_ts_esp0 : Setter ts_esp0. Proof. build_setter. Defined.
#[export] Instance set_bcache : Setter bcache. Proof. build_setter. Defined.
#[export] Instance set_idequeue : Setter idequeue. Proof. build_setter. Defined.
#[export] Instance set_havedisk1 : Setter havedisk1. Proof. build_setter. Defined.
#[export] Instance set_ide_reg : Setter ide_reg. Proof. build_setter. Defined.
#[export] Instance set_ide_err : Setter ide_err. Proof. build_setter. Defined.
#[export] Instance set_disk : Setter disk. Proof. build_setter. Defined.
#[export] Instance set_dtrace : Setter dtrace. Proof. build_setter. Defined.
#[export] Instance set_klog : Setter klog. Proof. build_setter. Defined.
#[export] Instance set_sb : Setter sb. Proof. build_setter. Defined.
#[export] Instance set_icache : Setter icache. Proof. build_setter. Defined.
#[export] Instance set_ftable : Setter ftable. Proof. build_setter. Defined.
#[export] Instance set_pipes : Setter pipes. Proof. build_setter. Defined.
#[export] Instance set_kcons : Setter kcons. Proof. build_setter. Defined.
#[export] Instance set_fork_first : Setter fork_first. Proof. build_setter. Defined.
#[export] Instance set_iolog : Setter iolog. Proof. build_setter. Defined.
#[export] Instance set_lapic : Setter lapic. Proof. build_setter. Defined.
#[export] Instance set_ioapicid : Setter ioapicid. Proof. build_setter. Defined.
#[export] Instance set_apicids : Setter apicids. Proof. build_setter. Defined.
#[export] Instance set_ktab : Setter ktab. Proof. build_setter. Defined.

Lemma kernel_ext s s' :
  held s = held s' → curproc s = curproc s' → ptable s = ptable s' → nextpid s = nextpid s' →
  initproc s = initproc s' → ticks s = ticks s' → freelist s = freelist s' → use_lock s = use_lock s' →
  mem s = mem s' → kpgdir s = kpgdir s' → cr3 s = cr3 s' → ts_esp0 s = ts_esp0 s' →
  bcache s = bcache s' → idequeue s = idequeue s' → havedisk1 s = havedisk1 s' → ide_reg s = ide_reg s' →
  ide_err s = ide_err s' → disk s = disk s' → dtrace s = dtrace s' → klog s = klog s' →
  sb s = sb s' → icache s = icache s' → ftable s = ftable s' → pipes s = pipes s' →
  kcons s = kcons s' → fork_first s = fork_first s' → iolog s = iolog s' → lapic s = lapic s' →
  ioapicid s = ioapicid s' → apicids s = apicids s' → ktab s = ktab s' →
  s = s'.
Proof. destruct s, s'; cbn; intros; by subst. Qed.

(** Equality of kernel states, field by field; the fields that agree after
    computing the updates are discharged. *)
Ltac kext := apply kernel_ext; sst; try reflexivity.

Abbreviation K A := (M kernel A).

(** The kernel's variables as the boot loader leaves them: everything in the
    BSS is zero, [nextpid] is 1. *)
Definition sleeplock_zero : sleeplock := mkSleeplock false 0.
Definition buf_zero : buf := mkBuf 0 0 0 sleeplock_zero 0 0 0 None (replicate (Z.to_nat BSIZE) 0).
Definition inode_zero : inode :=
  mkInode 0 0 0 sleeplock_zero false 0 0 0 0 0 (replicate (Z.to_nat (NDIRECT + 1)) 0) 0 0 0.
Definition file_zero : file := mkFile FD_NONE 0 false false 0 None 0.
Definition log_zero : log := mkLog 0 0 0 false 0 0 (replicate (Z.to_nat LOGSIZE) 0).
Definition console_zero : console :=
  mkConsole false false (replicate 128 0) 0 0 0 false [] [] 0 [] 0 (replicate 2000 0).
Definition cputab_zero : cputab :=
  mkCputab (replicate 256 (Descriptors.mkGatedesc 0 0 0 0 0 0 0 0 0)) (replicate 8 false) 0
    (replicate NSEGS (Descriptors.mkSegdesc 0 0 0 0 0 0 0 0 0 0 0 0 0)) 0 0 [] [] 0.
Definition kernel_zero : kernel :=
  mkKernel [] None (replicate NPROC proc_zero) 1 None 0 0 false (λ _, 0) 0 0 0
    (replicate (S NBUF) buf_zero) None false (0, 0) false ∅ [] log_zero (mkSuperblock 0 0 0 0 0 0 0)
    (replicate NINODE inode_zero) (replicate NFILE file_zero) ∅ console_zero true [] 0 0 [] cputab_zero.

(** Concrete builds, for evaluating the model: [n] is the fuel, [img] the size
    of the image. *)
Definition plat (n : nat) (img : Z) : Platform :=
  Build_Platform n (KERNBASE + 1134592) (KERNBASE + 1081344) (KERNBASE + 1060000) (KERNBASE + 1070000) img
    (KERNBASE + 1090000) (KERNBASE + 1100000) (λ i, KERNBASE + 1050000 + 8 * (Z.of_nat i mod 256)) (KERNBASE + 1061000)
    (KERNBASE + 1085440) [].
Definition plat0 : Platform := plat 8 512000.

#[export] Instance plat0_ok : PlatformOk plat0.
Proof. by split; vm_compute. Qed.
