(* ===== verification/Spinlock.v ===== *)
(** Spin locks (spinlock.c, and mycpu of proc.c).

    [Module Machine] models the code at the level of CPUs: the interrupt flag,
    [ncli]/[intena], the [locked] word and the [cpu] field of each lock.  Its
    step relation interleaves the CPUs at the granularity of the atomic [xchg]
    and the individual stores of [acquire] and [release]; mutual exclusion and
    the exactness of [holding] are invariants of that relation.

    The rest of the kernel runs against the interface at the end of the file:
    [acquire], [release] and [holding] on the set of locks held by the running
    CPU, which [spinlock_refines] justifies. *)

From stdpp Require Import functions.
From S2P Require Import Prelude Types.

Module Machine.

(** The fields of [struct cpu] that locking uses, with the interrupt flag of
    the CPU's eflags register. *)
Record cpu := mkCpu { apicid : Z; ncli : Z; intena : bool; fl_if : bool }.
#[export] Instance eta_cpu : Settable cpu :=
  λ c, mkCpu (apicid c) (ncli c) (intena c) (fl_if c).
#[export] Instance set_ncli : Setter ncli. Proof. build_setter. Defined.
#[export] Instance set_intena : Setter intena. Proof. build_setter. Defined.
#[export] Instance set_fl_if : Setter fl_if. Proof. build_setter. Defined.

(** [struct spinlock] less its debugging fields [name] and [pcs]. *)
Record spinlock := mkSpinlock { locked : bool; lcpu : option nat }.
#[export] Instance eta_spinlock : Settable spinlock :=
  λ l, mkSpinlock (locked l) (lcpu l).
#[export] Instance set_locked : Setter locked. Proof. build_setter. Defined.
#[export] Instance set_lcpu : Setter lcpu. Proof. build_setter. Defined.

Record machine := mkMachine { cpus : list cpu; locks : lockid → spinlock }.
#[export] Instance eta_machine : Settable machine :=
  λ m, mkMachine (cpus m) (locks m).
#[export] Instance set_cpus : Setter cpus. Proof. build_setter. Defined.
#[export] Instance set_locks : Setter locks. Proof. build_setter. Defined.

Abbreviation MM A := (M machine A).

(** Every operation below runs on the CPU with index [me] in [cpus]. *)

Definition readeflags_if (me : nat) : MM bool :=
  c ← gets (λ m, cpus m !! me);
  c ← deref c;
  mret (fl_if c).

Definition upd_cpu (i : nat) (f : cpu → cpu) : MM unit :=
  modify (λ m, m <| cpus ::= alter f i |>).

Definition cli (me : nat) : MM unit := upd_cpu me (λ c, c <| fl_if := false |>).
Definition sti (me : nat) : MM unit := upd_cpu me (λ c, c <| fl_if := true |>).

(** The loop of [mycpu] over [cpus]. *)
Fixpoint find_apicid (cs : list cpu) (i : nat) (apic : Z) : option nat :=
  match cs with
  | [] => None
  | c :: cs' => if apicid c =? apic then Some i else find_apicid cs' (S i) apic
  end.

Definition mycpu (me : nat) : MM nat :=
  i ← readeflags_if me;
  if (i : bool) then panic "mycpu called with interrupts enabled
"
  else
    c ← gets (λ m, cpus m !! me);
    c ← deref c;
    r ← gets (λ m, find_apicid (cpus m) 0 (apicid c));
    match r with Some j => mret j | None => panic "unknown apicid
" end.

Definition getcpu (i : nat) : MM cpu := c ← gets (λ m, cpus m !! i); deref c.

Definition pushcli (me : nat) : MM unit :=
  eflags ← readeflags_if me;
  cli me;;
  i ← mycpu me;
  c ← getcpu i;
  when (ncli c =? 0) (upd_cpu i (λ c, c <| intena := eflags |>));;
  upd_cpu i (λ c, c <| ncli ::= λ n, n + 1 |>).

Definition popcli (me : nat) : MM unit :=
  f ← readeflags_if me;
  if (f : bool) then panic "popcli - interruptible"
  else
    i ← mycpu me;
    upd_cpu i (λ c, c <| ncli ::= λ n, n - 1 |>);;
    c ← getcpu i;
    if ncli c <? 0 then panic "popcli"
    else when ((ncli c =? 0) && intena c)%bool (sti me).

Definition spin_holding (me : nat) (lk : lockid) : MM bool :=
  l ← gets (λ m, locks m lk);
  if locked l then i ← mycpu me; mret (bool_decide (lcpu l = Some i)) else mret false.

(** [xchg(&lk->locked, 1)]. *)
Definition xchg_locked (lk : lockid) : MM bool :=
  old ← gets (λ m, locked (locks m lk));
  modify (λ m, m <| locks ::= λ ls, <[lk := (ls lk) <| locked := true |>]> ls |>);;
  mret old.

(** [while(xchg(&lk->locked, 1) != 0)], re-tried [n] times. *)
Fixpoint spin (n : nat) (lk : lockid) : MM unit :=
  match n with
  | O => nofuel
  | S n' => r ← xchg_locked lk; if (r : bool) then spin n' lk else mret tt
  end.

Definition spin_initlock (lk : lockid) : MM unit :=
  modify (λ m, m <| locks ::= λ ls, <[lk := mkSpinlock false None]> ls |>).

Definition spin_acquire (n : nat) (me : nat) (lk : lockid) : MM unit :=
  pushcli me;;
  h ← spin_holding me lk;
  if (h : bool) then panic "acquire"
  else
    spin n lk;;
    i ← mycpu me;
    modify (λ m, m <| locks ::= λ ls, <[lk := (ls lk) <| lcpu := Some i |>]> ls |>).

Definition spin_release (me : nat) (lk : lockid) : MM unit :=
  h ← spin_holding me lk;
  if (h : bool) then
    modify (λ m, m <| locks ::= λ ls, <[lk := (ls lk) <| lcpu := None |>]> ls |>);;
    modify (λ m, m <| locks ::= λ ls, <[lk := (ls lk) <| locked := false |>]> ls |>);;
    popcli me
  else panic "release".

(** ** pushcli and popcli nest *)

(** The APIC ids in [cpus] are distinct, as mpinit records them. *)
Definition apics_ok (m : machine) : Prop := NoDup (apicid <$> cpus m).

Lemma find_apicid_self cs i j c :
  NoDup (apicid <$> cs) → cs !! i = Some c → find_apicid cs j (apicid c) = Some (j + i)%nat.
Proof.
  revert i j. induction cs as [|d cs IH]; intros i j Hnd Hi; [done|].
  cbn in *. apply NoDup_cons in Hnd as [Hni Hnd]. destruct i as [|i]; cbn in Hi.
  - simplify_eq. rewrite Z.eqb_refl. f_equal. lia.
  - destruct (Z.eqb_spec (apicid d) (apicid c)) as [E|E].
    + exfalso. apply Hni. rewrite E. apply list_elem_of_fmap. exists c. split; [done|].
      by apply list_elem_of_lookup_2 with i.
    + rewrite (IH i (S j)) by done. f_equal. lia.
Qed.

Lemma readeflags_run m me c : cpus m !! me = Some c → readeflags_if me m = Ret (fl_if c) m.
Proof. intros Hc. unfold readeflags_if. run. by rewrite Hc. Qed.

Lemma getcpu_run m me c : cpus m !! me = Some c → getcpu me m = Ret c m.
Proof. intros Hc. unfold getcpu. run. by rewrite Hc. Qed.

Lemma mycpu_run m me c :
  apics_ok m → cpus m !! me = Some c → fl_if c = false → mycpu me m = Ret me m.
Proof.
  intros Ha Hc Hif. unfold mycpu. run_by (by apply readeflags_run).
  rewrite Hif. run. rewrite Hc. run. run. by rewrite (find_apicid_self _ me 0 c).
Qed.

Lemma apics_ok_alter m me f :
  (∀ c, apicid (f c) = apicid c) → apics_ok m → apics_ok (m <| cpus ::= alter f me |>).
Proof.
  unfold apics_ok. intros Hf Hm. sst. replace (apicid <$> alter f me (cpus m)) with (apicid <$> cpus m); [done|].
  apply list_eq. intros i. rewrite !list_lookup_fmap, list_lookup_alter.
  case_decide; subst; [|done]. destruct (cpus m !! i); cbn; by rewrite ?Hf.
Qed.

(** [set_cpu m me c]: the machine after the running CPU's record became [c]. *)
Definition set_cpu (m : machine) (me : nat) (c : cpu) : machine :=
  m <| cpus ::= <[me := c]> |>.

Lemma alter_set m me c f :
  cpus m !! me = Some c → m <| cpus ::= alter f me |> = set_cpu m me (f c).
Proof.
  intros H. unfold set_cpu, set, set_cpus. cbn. f_equal.
  apply list_eq. intros i. rewrite list_lookup_alter, list_lookup_insert.
  case_decide; subst; [|case_decide; naive_solver].
  rewrite H. cbn. rewrite decide_True; [done|]. split; [done|]. by eapply lookup_lt_Some.
Qed.

Lemma set_cpu_lookup m me c d : cpus m !! me = Some d → cpus (set_cpu m me c) !! me = Some c.
Proof. intros H. cbn. apply list_lookup_insert_eq. by eapply lookup_lt_Some. Qed.

Lemma set_cpu_twice m me c d : set_cpu (set_cpu m me c) me d = set_cpu m me d.
Proof. unfold set_cpu, set, set_cpus. cbn. f_equal. apply list_insert_insert_eq. Qed.

Lemma set_cpu_id m me c : cpus m !! me = Some c → set_cpu m me c = m.
Proof.
  intros H. unfold set_cpu, set, set_cpus. destruct m; cbn in *. f_equal.
  by apply list_insert_id.
Qed.

Lemma set_cpu_apics m me c d :
  apics_ok m → cpus m !! me = Some c → apicid d = apicid c → apics_ok (set_cpu m me d).
Proof.
  intros Ha Hc Hd. rewrite <- (set_cpu_id m me c) in Ha by done.
  unfold apics_ok in *. cbn in *. by rewrite list_fmap_insert, Hd, <- list_fmap_insert.
Qed.

Lemma upd_cpu_run m me c f :
  cpus m !! me = Some c → upd_cpu me f m = Ret tt (set_cpu m me (f c)).
Proof. intros H. unfold upd_cpu. wp_unfold. by rewrite <- (alter_set m me c f). Qed.

(** The state [pushcli] leaves the CPU in. *)
Definition pushed (c : cpu) : cpu :=
  mkCpu (apicid c) (ncli c + 1) (if ncli c =? 0 then fl_if c else intena c) false.

Lemma pushcli_run m me c :
  apics_ok m → cpus m !! me = Some c → pushcli me m = Ret tt (set_cpu m me (pushed c)).
Proof.
  intros Ha Hc. unfold pushcli. run_by (by apply readeflags_run).
  unfold cli. run_by (by apply upd_cpu_run).
  run_by (eapply mycpu_run; [by eapply set_cpu_apics|by eapply set_cpu_lookup|done]).
  run_by (eapply getcpu_run; by eapply set_cpu_lookup).
  unfold pushed, when. cbn [ncli set set_fl_if]. destruct (ncli c =? 0).
  - run_by (eapply upd_cpu_run; by eapply set_cpu_lookup). rewrite set_cpu_twice.
    erewrite upd_cpu_run by (by eapply set_cpu_lookup). by rewrite set_cpu_twice.
  - run. erewrite upd_cpu_run by (by eapply set_cpu_lookup). by rewrite set_cpu_twice.
Qed.

(** The state [popcli] leaves the CPU in when it does not panic. *)
Definition popped (c : cpu) : cpu :=
  mkCpu (apicid c) (ncli c - 1) (intena c) ((ncli c - 1 =? 0) && intena c).

Lemma popcli_run m me c :
  apics_ok m → cpus m !! me = Some c → fl_if c = false → 0 < ncli c →
  popcli me m = Ret tt (set_cpu m me (popped c)).
Proof.
  intros Ha Hc Hif Hn. unfold popcli. run_by (by apply readeflags_run). rewrite Hif.
  run_by (by eapply mycpu_run). run_by (by apply upd_cpu_run).
  run_by (eapply getcpu_run; by eapply set_cpu_lookup).
  unfold popped, when. sst. destruct (Z.ltb_spec (ncli c - 1) 0); [lia|].
  destruct (ncli c - 1 =? 0), (intena c) eqn:Ei; cbn [andb]; unfold sti.
  1: erewrite upd_cpu_run by (by eapply set_cpu_lookup); rewrite set_cpu_twice.
  all: unfold mret, M_ret; by destruct c; cbn in *; subst.
Qed.

(** [popcli] panics, rather than enabling interrupts, when it is not matched. *)
Lemma popcli_unmatched m me c :
  apics_ok m → cpus m !! me = Some c → ncli c ≤ 0 →
  ∃ msg s, popcli me m = Panic msg s.
Proof.
  intros Ha Hc Hn. unfold popcli. run_by (by apply readeflags_run).
  destruct (fl_if c) eqn:Hif; [eexists _, _; done|].
  run_by (by eapply mycpu_run). run_by (by apply upd_cpu_run).
  run_by (eapply getcpu_run; by eapply set_cpu_lookup).
  sst. destruct (Z.ltb_spec (ncli c - 1) 0); [|lia]. eexists _, _; done.
Qed.

(** A sequence of pushcli ([true]) and popcli ([false]) calls. *)
Fixpoint cli_seq (me : nat) (w : list bool) : MM unit :=
  match w with
  | [] => mret tt
  | b :: w' => (if b then pushcli me else popcli me);; cli_seq me w'
  end.

(** Matched sequences, the calls locking and unlocking make. *)
Inductive balanced : list bool → Prop :=
| bal_nil : balanced []
| bal_wrap w : balanced w → balanced (true :: w ++ [false])
| bal_app v w : balanced v → balanced w → balanced (v ++ w).

Definition cpu_wf (c : cpu) : Prop := 0 ≤ ncli c ∧ (0 < ncli c → fl_if c = false).

(** [c'] differs from [c] at most in an [intena] that is dead because [ncli] is 0. *)
Definition cli_same (c c' : cpu) : Prop :=
  apicid c' = apicid c ∧ ncli c' = ncli c ∧ fl_if c' = fl_if c
  ∧ (0 < ncli c → intena c' = intena c).

(** Every call of a matched sequence returns, and the sequence leaves the
    nesting depth and the interrupt flag as it found them. *)
Lemma cli_seq_balanced me w :
  balanced w → ∀ m c rest, apics_ok m → cpus m !! me = Some c → cpu_wf c →
  ∃ c', cli_seq me (w ++ rest) m = cli_seq me rest (set_cpu m me c') ∧ cli_same c c'.
Proof.
  induction 1 as [|w Hw IH|v w Hv IHv Hw IHw]; intros m c rest Ha Hc [Hn Hoff].
  - exists c. rewrite set_cpu_id by done. unfold cli_same. naive_solver.
  - cbn [cli_seq app]. run_by (by apply pushcli_run). rewrite <- app_assoc.
    destruct (IH (set_cpu m me (pushed c)) (pushed c) ([false] ++ rest)) as (c1 & -> & H1).
    { by eapply set_cpu_apics. } { by eapply set_cpu_lookup. }
    { unfold cpu_wf, pushed; cbn. split; [lia|done]. }
    destruct H1 as (H1a & H1n & H1f & H1i). cbn in *. rewrite set_cpu_twice.
    run_by (eapply popcli_run; [by eapply set_cpu_apics|by eapply set_cpu_lookup|done|lia]).
    rewrite set_cpu_twice. eexists. split; [done|]. unfold cli_same, popped. cbn.
    rewrite H1a, H1n, H1i by lia. split_and!; [done|lia| |].
    + destruct (Z.eqb_spec (ncli c + 1 - 1) 0), (Z.eqb_spec (ncli c) 0); cbn; try lia; [done|].
      by rewrite Hoff by lia.
    + intros. destruct (Z.eqb_spec (ncli c) 0); [lia|done].
  - rewrite <- app_assoc.
    destruct (IHv m c (w ++ rest)) as (c1 & -> & H1a & H1n & H1f & H1i); [done..|].
    destruct (IHw (set_cpu m me c1) c1 rest) as (c2 & -> & H2a & H2n & H2f & H2i).
    { by eapply set_cpu_apics. } { by eapply set_cpu_lookup. }
    { split; [lia|]. intros. rewrite H1f. apply Hoff. lia. }
    rewrite set_cpu_twice. exists c2. split; [done|]. unfold cli_same.
    rewrite H2a, H2n, H2f. split_and!; [done..|]. intros. rewrite H2i, H1i by lia. done.
Qed.

(** Pushcli and popcli are matched: any balanced sequence of calls returns
    without panic, leaves [ncli] where it was and restores the CPU's interrupt
    flag, whether interrupts were on or off before it. *)
Theorem cli_balanced_restores me w m c :
  balanced w → apics_ok m → cpus m !! me = Some c → cpu_wf c →
  ∃ c', cli_seq me w m = Ret tt (set_cpu m me c')
        ∧ ncli c' = ncli c ∧ fl_if c' = fl_if c.
Proof.
  intros Hw Ha Hc Hwf.
  destruct (cli_seq_balanced me w Hw m c [] Ha Hc Hwf) as (c' & E & Hs).
  rewrite app_nil_r in E. exists c'. split; [exact E|]. unfold cli_same in Hs. naive_solver.
Qed.

Lemma cli_balanced_restores_witness :
  ∃ c', cli_seq 0 [true; true; false; true; false; false]
          (mkMachine [mkCpu 7 0 false true] (λ _, mkSpinlock false None))
        = Ret tt (set_cpu (mkMachine [mkCpu 7 0 false true] (λ _, mkSpinlock false None)) 0 c')
        ∧ ncli c' = 0 ∧ fl_if c' = true.
Proof.
  apply (cli_balanced_restores 0 _ _ (mkCpu 7 0 false true)).
  - apply (bal_wrap [true; false; true; false]), (bal_app [true; false] [true; false]);
      apply (bal_wrap []); constructor.
  - apply (bool_decide_unpack _). vm_compute. exact I.
  - reflexivity.
  - split; [vm_compute; discriminate|]. intros H. vm_compute in H. discriminate H.
Defined.

End Machine.

(** ** Interleaving the CPUs *)

Module Interleave.
Import Machine.

(** Where a CPU is inside [acquire(lk)] or [release(lk)]: [AcqCpu] and
    [RelCpu] have read [locked] as set and are about to read [lk->cpu] in
    [holding]; [Spin] is at the [xchg]; [Got] has won it and must still store
    [lk->cpu]; [Rel] has cleared [lk->cpu] and must still clear [locked]. *)
Inductive pc :=
| Out
| AcqCpu (lk : lockid) | Spin (lk : lockid) | Got (lk : lockid)
| RelCpu (lk : lockid) | Rel (lk : lockid)
| PanicAcq (lk : lockid) | PanicRel (lk : lockid).

(** [inside c lk]: CPU [c] has returned from [acquire(lk)] and has not yet
    passed the check of the matching [release(lk)]. *)
Record istate := mkI {
  ilocks : lockid → spinlock;
  ipc : nat → pc;
  inside : nat → lockid → bool }.

Definition goto (s : istate) (c : nat) (p : pc) : istate :=
  mkI (ilocks s) (<[c := p]> (ipc s)) (inside s).
Definition store (s : istate) (lk : lockid) (l : spinlock) : istate :=
  mkI (<[lk := l]> (ilocks s)) (ipc s) (inside s).
Definition mark (s : istate) (c : nat) (lk : lockid) (b : bool) : istate :=
  mkI (ilocks s) (ipc s) (<[c := <[lk := b]> (inside s c)]> (inside s)).

(** One memory access of one CPU. *)
Inductive istep : istate → istate → Prop :=
| acq_free s c lk :
    ipc s c = Out → locked (ilocks s lk) = false → istep s (goto s c (Spin lk))
| acq_locked s c lk :
    ipc s c = Out → locked (ilocks s lk) = true → istep s (goto s c (AcqCpu lk))
| acq_other s c lk :
    ipc s c = AcqCpu lk → lcpu (ilocks s lk) ≠ Some c → istep s (goto s c (Spin lk))
| acq_panic s c lk :
    ipc s c = AcqCpu lk → lcpu (ilocks s lk) = Some c → istep s (goto s c (PanicAcq lk))
| acq_xchg s c lk :
    ipc s c = Spin lk →
    istep s (goto (store s lk ((ilocks s lk) <| locked := true |>)) c
               (if locked (ilocks s lk) then Spin lk else Got lk))
| acq_setcpu s c lk :
    ipc s c = Got lk →
    istep s (mark (goto (store s lk ((ilocks s lk) <| lcpu := Some c |>)) c Out) c lk true)
| rel_free s c lk :
    ipc s c = Out → locked (ilocks s lk) = false → istep s (goto s c (PanicRel lk))
| rel_locked s c lk :
    ipc s c = Out → locked (ilocks s lk) = true → istep s (goto s c (RelCpu lk))
| rel_other s c lk :
    ipc s c = RelCpu lk → lcpu (ilocks s lk) ≠ Some c → istep s (goto s c (PanicRel lk))
| rel_clear s c lk :
    ipc s c = RelCpu lk → lcpu (ilocks s lk) = Some c →
    istep s (mark (goto (store s lk ((ilocks s lk) <| lcpu := None |>)) c (Rel lk)) c lk false)
| rel_unlock s c lk :
    ipc s c = Rel lk →
    istep s (goto (store s lk ((ilocks s lk) <| locked := false |>)) c Out).

Definition iinit : istate := mkI (λ _, mkSpinlock false None) (λ _, Out) (λ _ _, false).

(** The states the machine can be in. *)
Inductive ireach : istate → Prop :=
| ireach_init : ireach iinit
| ireach_step s s' : ireach s → istep s s' → ireach s'.

(** CPU [c] owns the word [locked] of [lk]. *)
Definition possess (s : istate) (c : nat) (lk : lockid) : Prop :=
  inside s c lk = true ∨ ipc s c = Got lk ∨ ipc s c = Rel lk.

Record lock_inv (s : istate) (lk : lockid) : Prop := {
  li_one : ∀ c d, possess s c lk → possess s d lk → c = d;
  li_locked : ∀ c, possess s c lk → locked (ilocks s lk) = true;
  li_cpu : ∀ c, lcpu (ilocks s lk) = Some c ↔ inside s c lk = true;
  li_out : ∀ c, inside s c lk = true → ipc s c ≠ Got lk ∧ ipc s c ≠ Rel lk;
  li_pa : ∀ c, ipc s c = PanicAcq lk → inside s c lk = true;
  li_pr : ∀ c, ipc s c = PanicRel lk → inside s c lk = false }.

Lemma lock_inv_init lk : lock_inv iinit lk.
Proof. split; unfold possess; cbn; intros; destruct_or?; try done; by split. Qed.

(** A step that leaves a lock's words, its owner and the interesting program
    points alone preserves its invariant. *)
Lemma lock_inv_frame s s' lk :
  ilocks s' lk = ilocks s lk → (∀ c, inside s' c lk = inside s c lk) →
  (∀ c p, p ∈ [Got lk; Rel lk; PanicAcq lk; PanicRel lk] → ipc s' c = p ↔ ipc s c = p) →
  lock_inv s lk → lock_inv s' lk.
Proof.
  intros Hl Hi Hp [H1 H2 H3 H4 H5 H6].
  assert (Hg : ∀ c, ipc s' c = Got lk ↔ ipc s c = Got lk) by (intros; apply Hp; set_solver).
  assert (Hr : ∀ c, ipc s' c = Rel lk ↔ ipc s c = Rel lk) by (intros; apply Hp; set_solver).
  assert (Ha : ∀ c, ipc s' c = PanicAcq lk ↔ ipc s c = PanicAcq lk)
    by (intros; apply Hp; set_solver).
  assert (Hb : ∀ c, ipc s' c = PanicRel lk ↔ ipc s c = PanicRel lk)
    by (intros; apply Hp; set_solver).
  unfold possess in *. split; unfold possess; intros c.
  - intros d. rewrite !Hi, !Hg, !Hr. apply H1.
  - rewrite !Hi, !Hg, !Hr, Hl. apply H2.
  - rewrite Hi, Hl. apply H3.
  - rewrite Hi, Hg, Hr. apply H4.
  - rewrite Hi, Ha. apply H5.
  - rewrite Hi, Hb. apply H6.
Qed.

(** The lock's words and program points as a function of one lock: what a
    step that touches [lk] on CPU [c] has to establish. *)
Lemma lock_inv_update s s' c lk :
  (∀ d, d ≠ c → inside s' d lk = inside s d lk ∧ ipc s' d = ipc s d) →
  lock_inv s lk →
  (possess s' c lk → ∀ d, d ≠ c → ¬ possess s d lk) →
  (locked (ilocks s' lk) = false → locked (ilocks s lk) = false ∨ possess s c lk) →
  (possess s' c lk → locked (ilocks s' lk) = true) →
  (lcpu (ilocks s' lk) = Some c ↔ inside s' c lk = true) →
  (∀ d, d ≠ c → lcpu (ilocks s' lk) = Some d ↔ lcpu (ilocks s lk) = Some d) →
  (inside s' c lk = true → ipc s' c ≠ Got lk ∧ ipc s' c ≠ Rel lk) →
  (ipc s' c = PanicAcq lk → inside s' c lk = true) →
  (ipc s' c = PanicRel lk → inside s' c lk = false) →
  lock_inv s' lk.
Proof.
  intros Hd [H1 H2 H3 H4 H5 H6] Hx Hl Hl' Hc Hcd Ho Ha Hb.
  assert (Hp : ∀ d, d ≠ c → possess s' d lk ↔ possess s d lk).
  { intros d Hne. unfold possess. by destruct (Hd d Hne) as [-> ->]. }
  split.
  - intros d e Pd Pe. destruct (decide (d = c)) as [->|Nd], (decide (e = c)) as [->|Ne].
    + done.
    + apply Hp in Pe; [|done]. by destruct (Hx Pd e Ne).
    + apply Hp in Pd; [|done]. by destruct (Hx Pe d Nd).
    + apply Hp in Pd, Pe; [|done..]. by apply H1.
  - intros d Pd. destruct (decide (d = c)) as [->|Nd]; [by apply Hl'|].
    apply Hp in Pd; [|done]. destruct (locked (ilocks s' lk)) eqn:E; [done|].
    pose proof (H2 d Pd). destruct (Hl eq_refl) as [E'|Pc]; [congruence|].
    by destruct Nd; apply H1.
  - intros d. destruct (decide (d = c)) as [->|Nd]; [done|].
    destruct (Hd d Nd) as [-> _]. by rewrite Hcd.
  - intros d. destruct (decide (d = c)) as [->|Nd]; [done|].
    destruct (Hd d Nd) as [-> ->]. apply H4.
  - intros d. destruct (decide (d = c)) as [->|Nd]; [done|].
    destruct (Hd d Nd) as [-> ->]. apply H5.
  - intros d. destruct (decide (d = c)) as [->|Nd]; [done|].
    destruct (Hd d Nd) as [-> ->]. apply H6.
Qed.

(** Evaluate the updated functions of a step at the CPU and lock it touches. *)
Ltac istep_simpl :=
  unfold possess; cbn; rewrite ?fn_lookup_insert; cbn; rewrite ?fn_lookup_insert; cbn.
Ltac istep_other :=
  intros d Hd; cbn; rewrite ?fn_lookup_insert_ne by congruence; done.

(** A step of CPU [c] on the lock [l] does not concern another lock. *)
Lemma lock_inv_elsewhere s s' c l lk :
  l ≠ lk → ilocks s' lk = ilocks s lk → (∀ d, inside s' d lk = inside s d lk) →
  (∀ d, d ≠ c → ipc s' d = ipc s d) →
  (∀ p, p ∈ [Got lk; Rel lk; PanicAcq lk; PanicRel lk] → ipc s c ≠ p ∧ ipc s' c ≠ p) →
  lock_inv s lk → lock_inv s' lk.
Proof.
  intros Hne Hl Hi Hd Hp. apply lock_inv_frame; [done..|].
  intros d p Hin. destruct (decide (d = c)) as [->|Nd]; [|by rewrite Hd].
  destruct (Hp p Hin). tauto.
Qed.

Ltac istep_elsewhere s c l :=
  apply (lock_inv_elsewhere s _ c l); [done| | | | |done];
  [cbn; by rewrite ?fn_lookup_insert_ne
  |intros d; cbn; try (destruct (decide (d = c)) as [->|]; rewrite ?fn_lookup_insert;
                       rewrite ?fn_lookup_insert_ne by done); done
  |intros d Hd; cbn; by rewrite ?fn_lookup_insert_ne by congruence
  |intros p Hin; cbn; rewrite ?fn_lookup_insert;
   repeat (apply elem_of_cons in Hin as [->|Hin]; [split; try case_match; congruence|]);
   by apply elem_of_nil in Hin].

(** The side conditions of [lock_inv_update] on concrete program points, for
    the step of CPU [c] on [lk] in [s]. *)
Ltac istep_solve s c lk H1 H2 H3 H4 :=
  pose proof (H2 c) as H2c; pose proof (proj1 (H3 c)) as H3c; pose proof (proj2 (H3 c)) as H3c';
  pose proof (H4 c) as H4c; unfold possess in H2c;
  try destruct (locked (ilocks s lk)) eqn:?;
  intros; destruct_or?; try congruence; try (split; congruence); try tauto;
  try (match goal with
       | Hd : ?d ≠ c |- ¬ _ =>
           intros Hpd; apply Hd; apply H1; [exact Hpd|unfold possess; tauto]
       end);
  try (match goal with
       | Hd : ?d ≠ c |- ¬ _ => intros Hpd; specialize (H2 d Hpd); congruence
       end);
  try (match goal with
       | Hd : ?d ≠ c |- _ ↔ _ =>
           split; [congruence|]; intros Hcd; apply H3 in Hcd;
           exfalso; apply Hd, H1; unfold possess; tauto
       end);
  destruct (inside s c lk) eqn:?; try tauto;
  try (exfalso; lapply H2c; [congruence|tauto]).

Lemma lock_inv_step s s' : (∀ lk, lock_inv s lk) → istep s s' → ∀ lk, lock_inv s' lk.
Proof.
  intros Hinv Hst lk. pose proof (Hinv lk) as HI. pose proof HI as [H1 H2 H3 H4 H5 H6].
  destruct Hst as [s c l Hp Hl|s c l Hp Hl|s c l Hp Hl|s c l Hp Hl|s c l Hp|s c l Hp
    |s c l Hp Hl|s c l Hp Hl|s c l Hp Hl|s c l Hp Hl|s c l Hp];
    (destruct (decide (l = lk)) as [->|Hne]; [|istep_elsewhere s c l]);
    apply (lock_inv_update s _ c lk); try istep_other; try done; istep_simpl;
    istep_solve s c lk H1 H2 H3 H4.
Qed.

Lemma ireach_inv s : ireach s → ∀ lk, lock_inv s lk.
Proof. induction 1; [apply lock_inv_init|by eapply lock_inv_step]. Qed.

(** C3: mutual exclusion.  In every reachable interleaving of the CPUs, two
    CPUs that are both between the return of [acquire(lk)] and the matching
    [release(lk)] are the same CPU. *)
Theorem spinlock_mutual_exclusion s c d lk :
  ireach s → inside s c lk = true → inside s d lk = true → c = d.
Proof. intros Hr Hc Hd. apply (li_one s lk); unfold possess; auto using ireach_inv. Qed.

(** Two CPUs take turns on one lock. *)
Definition turns : istate :=
  let s1 := goto iinit 0%nat (Spin LLog) in
  let s2 := goto (store s1 LLog ((ilocks s1 LLog) <| locked := true |>)) 0%nat (Got LLog) in
  let s3 := mark (goto (store s2 LLog ((ilocks s2 LLog) <| lcpu := Some 0%nat |>)) 0%nat Out)
              0%nat LLog true in
  goto s3 1%nat (AcqCpu LLog).

Lemma turns_reach : ireach turns.
Proof.
  unfold turns; cbv zeta.
  eapply ireach_step; [|apply (acq_locked _ 1%nat LLog); reflexivity].
  eapply ireach_step; [|apply (acq_setcpu _ 0%nat LLog); reflexivity].
  eapply ireach_step; [|apply (acq_xchg (goto iinit 0%nat (Spin LLog)) 0%nat LLog); reflexivity].
  eapply ireach_step; [|apply (acq_free _ 0%nat LLog); reflexivity].
  constructor.
Qed.

Lemma spinlock_mutual_exclusion_witness : inside turns 0%nat LLog = true ∧ 0%nat = 0%nat.
Proof.
  split; [reflexivity|].
  exact (spinlock_mutual_exclusion turns 0 0 LLog turns_reach eq_refl eq_refl).
Defined.

(** C28: [holding] is exact.  The panics of [acquire] and [release] happen only
    on a CPU that already holds, respectively does not hold, the lock; and
    outside the two functions [locked && lk->cpu == mycpu()] is true exactly on
    the CPU that holds the lock, whatever the other CPUs are doing. *)
Theorem spinlock_holding_exact s c lk :
  ireach s →
  (ipc s c = PanicAcq lk → inside s c lk = true)
  ∧ (ipc s c = PanicRel lk → inside s c lk = false)
  ∧ (locked (ilocks s lk) = true ∧ lcpu (ilocks s lk) = Some c ↔ inside s c lk = true).
Proof.
  intros Hr. destruct (ireach_inv s Hr lk) as [H1 H2 H3 H4 H5 H6].
  split_and!; [apply H5|apply H6|]. rewrite H3. split; [tauto|].
  intros Hi. split; [|done]. apply (H2 c). by left.
Qed.

Lemma spinlock_holding_exact_witness :
  (locked (ilocks turns LLog) = true ∧ lcpu (ilocks turns LLog) = Some 0%nat)
  ∧ inside turns 1%nat LLog = false.
Proof.
  split; [|reflexivity].
  apply (proj2 (proj2 (spinlock_holding_exact turns 0 LLog turns_reach))). reflexivity.
Defined.

End Interleave.

(** ** The interface the kernel's C code runs against *)

Fixpoint remove_lock (lk : lockid) (h : list lockid) : list lockid :=
  match h with
  | [] => []
  | x :: h' => if decide (x = lk) then h' else x :: remove_lock lk h'
  end.

Definition holding (lk : lockid) : K bool := gets (λ s, bool_decide (lk ∈ held s)).

(** A critical section of another CPU on the same lock is over before
    [acquire] returns, so between two switches a thread sees [held] change
    only through its own calls. *)
Definition acquire (lk : lockid) : K unit :=
  h ← holding lk;
  if (h : bool) then panic "acquire" else modify (λ s, s <| held ::= cons lk |>).

Definition release (lk : lockid) : K unit :=
  h ← holding lk;
  if (h : bool) then modify (λ s, s <| held ::= remove_lock lk |>) else panic "release".

Lemma remove_lock_elem lk x h : NoDup h → x ∈ remove_lock lk h ↔ x ∈ h ∧ x ≠ lk.
Proof.
  induction 1 as [|y h Hy Hnd IH]; cbn; [set_solver|].
  case_decide; subst; [set_solver|]. set_solver.
Qed.

Lemma remove_lock_NoDup lk h : NoDup h → NoDup (remove_lock lk h).
Proof.
  induction 1 as [|y h Hy Hnd IH]; cbn; [constructor|].
  case_decide; [done|]. apply NoDup_cons. split; [|done].
  rewrite remove_lock_elem by done. tauto.
Qed.

Lemma remove_lock_length lk h : lk ∈ h → length h = S (length (remove_lock lk h)).
Proof.
  induction h as [|y h IH]; cbn; [set_solver|]. intros Hin.
  case_decide; [done|]. cbn. f_equal. apply IH. set_solver.
Qed.

Lemma acquire_run lk s : lk ∉ held s → acquire lk s = Ret tt (s <| held ::= cons lk |>).
Proof. intros H. unfold acquire, holding. run. by rewrite bool_decide_false. Qed.

Lemma release_run lk s : lk ∈ held s → release lk s = Ret tt (s <| held ::= remove_lock lk |>).
Proof. intros H. unfold release, holding. run. by rewrite bool_decide_true. Qed.

Lemma remove_lock_cons lk h : remove_lock lk (lk :: h) = h.
Proof. cbn. by rewrite decide_True. Qed.

(** A lock taken only under a condition, and its release. *)
Lemma when_lock_run (b : bool) (s : kernel) lk :
  (b = true → lk ∉ held s) →
  ∃ h, when b (acquire lk) s = Ret tt (s <| held := h |>)
     ∧ ∀ s', held s' = h → when b (release lk) s' = Ret tt (s' <| held := held s |>).
Proof.
  destruct b; cbn [when]; intros H.
  - exists (lk :: held s). split.
    + rewrite acquire_run by auto. by destruct s.
    + intros s' Hs'. rewrite release_run by (rewrite Hs'; set_solver). f_equal.
      unfold set, set_held. cbn. rewrite Hs'. by rewrite remove_lock_cons.
  - exists (held s). split; [by destruct s|]. intros s' <-. by destruct s'.
Qed.

#[export] Hint Rewrite remove_lock_cons : xv6_words.

(** The CPU-level state [m] implements the held set [h] on the CPU [me]. *)
Definition lock_rel (me : nat) (m : Machine.machine) (h : list lockid) : Prop :=
  Machine.apics_ok m ∧ NoDup h ∧
  (∃ c, Machine.cpus m !! me = Some c ∧ Machine.ncli c = Z.of_nat (length h)
        ∧ (h ≠ [] → Machine.fl_if c = false)) ∧
  (∀ lk, lk ∈ h ↔ Machine.locked (Machine.locks m lk) = true
                  ∧ Machine.lcpu (Machine.locks m lk) = Some me).

Section Refinement.
Import Machine.
Context (me : nat).

Lemma spin_holding_run m (h : list lockid) lk c :
  apics_ok m → cpus m !! me = Some c → fl_if c = false →
  (lk ∈ h ↔ locked (locks m lk) = true ∧ lcpu (locks m lk) = Some me) →
  spin_holding me lk m = Ret (bool_decide (lk ∈ h)) m.
Proof.
  intros Ha Hc Hif Hh. unfold spin_holding. run.
  destruct (locked (locks m lk)) eqn:E.
  - run_by (by eapply mycpu_run). unfold mret, M_ret. f_equal.
    apply bool_decide_ext. rewrite Hh. tauto.
  - unfold mret, M_ret. f_equal. symmetry. apply bool_decide_false. rewrite Hh. by intros [? _].
Qed.

Lemma spin_run n lk m :
  locked (locks m lk) = false →
  spin (S n) lk m
  = Ret tt (m <| locks ::= λ ls, <[lk := (ls lk) <| locked := true |>]> ls |>).
Proof.
  intros Hf. cbn [spin]. run_by (unfold xchg_locked; run; run; reflexivity).
  by rewrite Hf.
Qed.

(** The kernel-level [acquire] is refined by spinlock.c: on a CPU whose
    state implements the held set, and with the lock not held elsewhere, the
    code of [acquire] returns in a state that implements the new held set,
    interrupts off and [ncli] one higher; and it panics with the same message
    exactly when the lock is already held by this CPU. *)
Lemma acquire_refines n lk s m :
  lock_rel me m (held s) → (0 < n)%nat →
  (lk ∉ held s → locked (locks m lk) = false) →
  match acquire lk s with
  | Ret _ s' => ∃ m', spin_acquire n me lk m = Ret tt m' ∧ lock_rel me m' (held s')
  | Panic msg _ => ∃ m', spin_acquire n me lk m = Panic msg m'
  | _ => False
  end.
Proof.
  intros (Ha & Hnd & (c & Hc & Hn & Hif) & Hl) Hpos Hfree.
  assert (Hap : apics_ok (set_cpu m me (pushed c))) by (by eapply set_cpu_apics).
  assert (Hcp : cpus (set_cpu m me (pushed c)) !! me = Some (pushed c))
    by (by eapply set_cpu_lookup).
  assert (Hacq : spin_acquire n me lk m =
    (if bool_decide (lk ∈ held s) then panic "acquire" else
      spin n lk;; i ← mycpu me;
      modify (λ m, m <| locks ::= λ ls, <[lk := (ls lk) <| lcpu := Some i |>]> ls |>))
      (set_cpu m me (pushed c))).
  { unfold spin_acquire. run_by (by apply pushcli_run).
    run_by (eapply (spin_holding_run _ (held s)); [done..|]; exact (Hl lk)). done. }
  rewrite Hacq. destruct (decide (lk ∈ held s)) as [Hin|Hni].
  - unfold acquire, holding. run. rewrite bool_decide_true by done. by eexists.
  - rewrite acquire_run, bool_decide_false by done. destruct n as [|n]; [lia|].
    run_by (apply spin_run; by apply Hfree).
    run_by (eapply mycpu_run; [exact Hap|exact Hcp|done]).
    eexists. split; [done|].
    split_and!; [exact Hap|by apply NoDup_cons|exists (pushed c); split_and!|].
    + exact Hcp.
    + cbn. lia.
    + done.
    + intros lk'. sst. destruct (decide (lk = lk')) as [<-|Hne].
      * rewrite !fn_lookup_insert. cbn. set_solver.
      * rewrite !fn_lookup_insert_ne by done. rewrite elem_of_cons. rewrite (Hl lk'). naive_solver.
Qed.

(** The machine after both stores of [release], before its [popcli]. *)
Lemma spin_release_run m (h : list lockid) lk c :
  apics_ok m → cpus m !! me = Some c → fl_if c = false → 0 < ncli c →
  (lk ∈ h ↔ locked (locks m lk) = true ∧ lcpu (locks m lk) = Some me) →
  spin_release me lk m =
    if bool_decide (lk ∈ h) then
      Ret tt (set_cpu (mkMachine (cpus m)
        (<[lk := mkSpinlock false None]> (<[lk := (locks m lk) <| lcpu := None |>]> (locks m))))
        me (popped c))
    else Panic "release" m.
Proof.
  intros Ha Hc Hif Hn Hh. unfold spin_release.
  run_by (by eapply spin_holding_run).
  case_bool_decide; [|done]. run. run.
  erewrite popcli_run; [|exact Ha|exact Hc|done|done].
  unfold set, set_locks. cbn. by rewrite fn_lookup_insert.
Qed.

(** The kernel-level [release] is refined by spinlock.c: if the CPU's state
    implements a non-empty held set, the code of [release] clears the lock's
    words, returns in a state that implements the smaller held set, and turns
    interrupts on only when no lock is left; it panics with the same message
    exactly when this CPU does not hold the lock. *)
Lemma release_refines lk s m :
  lock_rel me m (held s) → held s ≠ [] →
  match release lk s with
  | Ret _ s' => ∃ m', spin_release me lk m = Ret tt m' ∧ lock_rel me m' (held s')
  | Panic msg _ => ∃ m', spin_release me lk m = Panic msg m'
  | _ => False
  end.
Proof.
  intros (Ha & Hnd & (c & Hc & Hn & Hif) & Hl) Hne.
  assert (Hpos : 0 < ncli c) by (destruct (held s); cbn in *; [done|lia]).
  rewrite (spin_release_run m (held s) lk c) by (try done; auto).
  destruct (decide (lk ∈ held s)) as [Hin|Hni].
  - rewrite release_run, bool_decide_true by done. eexists; split; [done|].
    pose proof (remove_lock_length lk (held s) Hin).
    split_and!; [by eapply set_cpu_apics|by apply remove_lock_NoDup| |].
    + exists (popped c). split_and!; [by eapply set_cpu_lookup|cbn; lia|].
      intros Hne'. cbn. destruct (Z.eqb_spec (ncli c - 1) 0); [|done].
      destruct (remove_lock lk (held s)) eqn:E; sst_in Hne'; [congruence|]. cbn in *. lia.
    + intros lk'. unfold set_cpu. sst. cbn [locks]. rewrite remove_lock_elem by done.
      destruct (decide (lk = lk')) as [<-|Hd].
      * rewrite fn_lookup_insert. cbn. naive_solver.
      * rewrite !fn_lookup_insert_ne by done. rewrite Hl. naive_solver.
  - unfold release, holding. run. rewrite !bool_decide_false by done. by eexists.
Qed.

End Refinement.

(** One CPU with interrupts on that holds nothing, and the CPU after it has
    acquired the log lock. *)
Definition mach0 : Machine.machine :=
  Machine.mkMachine [Machine.mkCpu 3 0 false true] (λ _, Machine.mkSpinlock false None).

Lemma mach0_rel : lock_rel 0 mach0 [].
Proof.
  split_and!; [by apply (bool_decide_unpack _); vm_compute|constructor| |].
  - eexists. by split_and!.
  - intros lk. cbn. split; [set_solver|]. by intros [? _].
Qed.

Definition mach1 : Machine.machine :=
  Machine.mkMachine [Machine.mkCpu 3 1 true false]
    (λ lk, if decide (lk = LLog) then Machine.mkSpinlock true (Some 0%nat)
           else Machine.mkSpinlock false None).

Lemma mach1_rel : lock_rel 0 mach1 [LLog].
Proof.
  split_and!; [by apply (bool_decide_unpack _); vm_compute|apply NoDup_singleton| |].
  - eexists. by split_and!.
  - intros lk. cbn. rewrite list_elem_of_singleton. case_decide; naive_solver.
Qed.

