(* ===== verification/Strings.v ===== *)
(** Byte strings in memory (string.c, ulib.c, and the string instructions of
    x86.h).

    A memory maps an address to a byte; a routine takes the memory it starts
    in and returns the memory it leaves, byte by byte in the order of the code,
    so that overlapping arguments behave as they do in C.  A pointer range is
    assumed not to wrap around the address space. *)

From S2P Require Import Prelude.

Abbreviation memory := (Z → Z).

Definition upd (m : memory) (a v : Z) : memory := λ x, if x =? a then v else m x.

(** ** x86.h *)

(** [rep stosb]: [n] times store the low byte of [v]. *)
Fixpoint stosb (n : nat) (m : memory) (a v : Z) : memory :=
  match n with
  | O => m
  | S n' => stosb n' (upd m a (u8 v)) (a + 1) v
  end.

(** [rep stosl]: [n] times store the little-endian word [v]. *)
Definition store32 (m : memory) (a v : Z) : memory :=
  upd (upd (upd (upd m a (u8 v)) (a + 1) (u8 (v / 2 ^ 8)))
        (a + 2) (u8 (v / 2 ^ 16))) (a + 3) (u8 (v / 2 ^ 24)).

(** A 32-bit load. *)
Definition load32 (m : memory) (a : Z) : Z :=
  m a + m (a + 1) * 2 ^ 8 + m (a + 2) * 2 ^ 16 + m (a + 3) * 2 ^ 24.

Fixpoint stosl (n : nat) (m : memory) (a v : Z) : memory :=
  match n with
  | O => m
  | S n' => stosl n' (store32 m a v) (a + 4) v
  end.

(** ** string.c *)

Definition memset (m : memory) (dst c n : Z) : memory :=
  if ((Z.rem (i32 dst) 4 =? 0) && (n mod 4 =? 0))%bool then
    let c := Z.land c 255 in
    stosl (Z.to_nat (n / 4)) m dst
      (Z.lor (Z.lor (Z.lor (Z.shiftl c 24) (Z.shiftl c 16)) (Z.shiftl c 8)) c)
  else stosb (Z.to_nat n) m dst c.

Fixpoint memcmp_loop (n : nat) (m : memory) (s1 s2 : Z) : Z :=
  match n with
  | O => 0
  | S n' => if negb (m s1 =? m s2) then m s1 - m s2 else memcmp_loop n' m (s1 + 1) (s2 + 1)
  end.
Definition memcmp (m : memory) (v1 v2 n : Z) : Z := memcmp_loop (Z.to_nat n) m v1 v2.

(** [while(n-- > 0) *--d = *--s]. *)
Fixpoint copy_down (n : nat) (m : memory) (d s : Z) : memory :=
  match n with
  | O => m
  | S n' => copy_down n' (upd m (d - 1) (m (s - 1))) (d - 1) (s - 1)
  end.

(** [while(n-- > 0) *d++ = *s++]. *)
Fixpoint copy_up (n : nat) (m : memory) (d s : Z) : memory :=
  match n with
  | O => m
  | S n' => copy_up n' (upd m d (m s)) (d + 1) (s + 1)
  end.

Definition memmove (m : memory) (dst src n : Z) : memory :=
  if ((src <? dst) && (dst <? src + n))%bool
  then copy_down (Z.to_nat n) m (dst + n) (src + n)
  else copy_up (Z.to_nat n) m dst src.

Definition memcpy (m : memory) (dst src n : Z) : memory := memmove m dst src n.

Fixpoint strncmp_loop (n : nat) (m : memory) (p q : Z) : Z :=
  match n with
  | O => 0
  | S n' =>
      if (negb (m p =? 0) && (m p =? m q))%bool then strncmp_loop n' m (p + 1) (q + 1)
      else m p - m q
  end.
Definition strncmp (m : memory) (p q n : Z) : Z := strncmp_loop (Z.to_nat n) m p q.

(** [while(n-- > 0 && ( *s++ = *t++) != 0)]: the memory, [s] and the remaining
    count when the loop ends. *)
Fixpoint strncpy_copy (n : nat) (m : memory) (s t : Z) : memory * Z * nat :=
  match n with
  | O => (m, s, O)
  | S n' =>
      let c := m t in
      if c =? 0 then (upd m s c, s + 1, n') else strncpy_copy n' (upd m s c) (s + 1) (t + 1)
  end.

Definition strncpy (m : memory) (s t n : Z) : memory :=
  let '(m, s, r) := strncpy_copy (Z.to_nat n) m s t in stosb r m s 0.

Definition safestrcpy (m : memory) (s t n : Z) : memory :=
  if n <=? 0 then m
  else let '(m, s, _) := strncpy_copy (Z.to_nat (n - 1)) m s t in upd m s 0.

(** The count of [strlen], [None] when no NUL is met within [f] bytes. *)
Fixpoint strlen_loop (f : nat) (m : memory) (s n : Z) : option Z :=
  match f with
  | O => None
  | S f' => if m (s + n) =? 0 then Some n else strlen_loop f' m s (n + 1)
  end.
Definition strlen (f : nat) (m : memory) (s : Z) : option Z := strlen_loop f m s 0.

(** ** ulib.c *)

Fixpoint strcpy (f : nat) (m : memory) (s t : Z) : option memory :=
  match f with
  | O => None
  | S f' =>
      let c := m t in
      if c =? 0 then Some (upd m s c) else strcpy f' (upd m s c) (s + 1) (t + 1)
  end.

Fixpoint strcmp (f : nat) (m : memory) (p q : Z) : option Z :=
  match f with
  | O => None
  | S f' =>
      if (negb (m p =? 0) && (m p =? m q))%bool then strcmp f' m (p + 1) (q + 1)
      else Some (m p - m q)
  end.

Fixpoint strchr (f : nat) (m : memory) (s c : Z) : option (option Z) :=
  match f with
  | O => None
  | S f' =>
      if m s =? 0 then Some None
      else if m s =? u8 c then Some (Some s) else strchr f' m (s + 1) c
  end.

Definition umemset (m : memory) (dst c n : Z) : memory := stosb (Z.to_nat n) m dst c.

(** [n*10 + *s++ - '0'] on [int]. *)
Fixpoint atoi_loop (f : nat) (m : memory) (s n : Z) : option Z :=
  match f with
  | O => None
  | S f' =>
      if ((48 <=? m s) && (m s <=? 57))%bool then atoi_loop f' m (s + 1) (i32 (n * 10 + m s - 48))
      else Some n
  end.
Definition atoi (f : nat) (m : memory) (s : Z) : option Z := atoi_loop f m s 0.

Definition umemmove (m : memory) (vdst vsrc n : Z) : memory := copy_up (Z.to_nat n) m vdst vsrc.

(** ** Stores *)

Lemma upd_same m a v : upd m a v a = v.
Proof. unfold upd. by rewrite Z.eqb_refl. Qed.

Lemma upd_other m a v x : x ≠ a → upd m a v x = m x.
Proof. unfold upd. intros. by destruct (Z.eqb_spec x a). Qed.

#[export] Hint Rewrite upd_same : xv6_words.

Lemma store32_other m a v x : x < a ∨ a + 4 ≤ x → store32 m a v x = m x.
Proof. intros H. unfold store32. by rewrite !upd_other by lia. Qed.

Lemma load_store32 m a v : load32 (store32 m a v) a = u32 v.
Proof.
  unfold load32, store32, upd, u8, u32.
  repeat (bool_cases; try lia).
  pose proof (Z_div_mod_eq_full v (2 ^ 8)). pose proof (Z_div_mod_eq_full v (2 ^ 32)).
  pose proof (Z_div_mod_eq_full (v / 2 ^ 8) (2 ^ 8)) as H1.
  pose proof (Z_div_mod_eq_full (v / 2 ^ 16) (2 ^ 8)) as H2.
  pose proof (Z_div_mod_eq_full (v / 2 ^ 24) (2 ^ 8)) as H3.
  rewrite Z.div_div, <- Z.pow_add_r in H1, H2, H3 by lia.
  change (8 + 8) with 16 in *. change (16 + 8) with 24 in *. change (24 + 8) with 32 in *. lia.
Qed.

Lemma load32_ext m m' a : (∀ x, a ≤ x < a + 4 → m x = m' x) → load32 m a = load32 m' a.
Proof. intros H. unfold load32. by rewrite !H by lia. Qed.

Lemma load_store32_other m a b v : b + 4 ≤ a ∨ a + 4 ≤ b → load32 (store32 m a v) b = load32 m b.
Proof. intros H. apply load32_ext. intros x Hx. apply store32_other. lia. Qed.

Lemma stosb_spec n m a v x :
  stosb n m a v x = if ((a <=? x) && (x <? a + Z.of_nat n))%bool then u8 v else m x.
Proof.
  revert m a. induction n as [|n IH]; intros m a; cbn [stosb].
  - bool_cases; cbn; (done || lia).
  - rewrite IH. unfold upd. bool_cases; cbn; (done || lia).
Qed.

(** The word [memset] stores has the byte [c] in all four places. *)
Lemma memset_word c k :
  let w := Z.lor (Z.lor (Z.lor (Z.shiftl (Z.land c 255) 24) (Z.shiftl (Z.land c 255) 16))
                   (Z.shiftl (Z.land c 255) 8)) (Z.land c 255) in
  0 ≤ k < 4 → u8 (w / 2 ^ (8 * k)) = u8 c.
Proof.
  intros w Hk. unfold u8, w. rewrite <- Z.shiftr_div_pow2, <- !Z.land_ones by lia.
  apply Z.bits_inj'. intros i Hi. rewrite !Z.land_spec, Z.shiftr_spec, !Z.lor_spec by done.
  destruct (decide (i < 8)) as [Hlt|Hge].
  - rewrite Z.ones_spec_low by lia. rewrite !andb_true_r.
    assert (Hb : ∀ j, Z.testbit (Z.land c 255) j = (bool_decide (0 ≤ j < 8) && Z.testbit c j)%bool).
    { intros j. rewrite Z.land_spec. change 255 with (Z.ones 8).
      destruct (decide (0 ≤ j < 8)).
      - rewrite bool_decide_true, Z.ones_spec_low by lia. by rewrite andb_true_r.
      - rewrite bool_decide_false by done. destruct (decide (j < 0)).
        + by rewrite !Z.testbit_neg_r by lia.
        + rewrite Z.ones_spec_high by lia. by rewrite andb_false_r. }
    destruct (decide (k = 0)), (decide (k = 1)), (decide (k = 2)), (decide (k = 3)); try lia;
      subst k; rewrite !Z.shiftl_spec, !Hb by lia; repeat case_bool_decide; try lia; cbn;
      rewrite ?orb_false_r; f_equal; lia.
  - by rewrite Z.ones_spec_high, !andb_false_r by lia.
Qed.

Lemma stosl_spec n m a v c x :
  (∀ k, 0 ≤ k < 4 → u8 (v / 2 ^ (8 * k)) = u8 c) →
  stosl n m a v x = if ((a <=? x) && (x <? a + 4 * Z.of_nat n))%bool then u8 c else m x.
Proof.
  intros Hv. revert m a. induction n as [|n IH]; intros m a; cbn [stosl].
  - bool_cases; cbn; (done || lia).
  - rewrite IH. unfold store32, upd.
    pose proof (Hv 0 ltac:(lia)) as H0. pose proof (Hv 1 ltac:(lia)) as H1.
    pose proof (Hv 2 ltac:(lia)) as H2. pose proof (Hv 3 ltac:(lia)) as H3.
    change (8 * 1) with 8 in H1. change (8 * 2) with 16 in H2. change (8 * 3) with 24 in H3.
    change (2 ^ (8 * 0)) with 1 in H0. rewrite Z.div_1_r in H0. rewrite H0, H1, H2, H3.
    bool_cases; cbn; (done || lia).
Qed.

Lemma memset_bytes m dst c n x :
  0 ≤ n →
  memset m dst c n x = if ((dst <=? x) && (x <? dst + n))%bool then u8 c else m x.
Proof.
  intros Hn. unfold memset. destruct (Z.rem (i32 dst) 4 =? 0); cbn [andb];
    [destruct (Z.eqb_spec (n mod 4) 0) as [E|_]|].
  - rewrite (stosl_spec _ _ _ _ c) by (apply memset_word).
    rewrite Z2Nat.id by (apply Z.div_pos; lia). pose proof (Z_div_mod_eq_full n 4).
    replace (4 * (n / 4)) with n by lia. done.
  - by rewrite stosb_spec, Z2Nat.id by done.
  - by rewrite stosb_spec, Z2Nat.id by done.
Qed.

(** ** Copies *)

(** Copying upwards is right unless the destination starts inside the source. *)
Lemma copy_up_spec n m d s x :
  d ≤ s ∨ s + Z.of_nat n ≤ d →
  copy_up n m d s x = if ((d <=? x) && (x <? d + Z.of_nat n))%bool then m (s + (x - d)) else m x.
Proof.
  revert m d s. induction n as [|n IH]; intros m d s H; cbn [copy_up].
  - bool_cases; cbn; (done || lia).
  - rewrite IH by lia. unfold upd. bool_cases; cbn; subst; try lia; try done; f_equal; lia.
Qed.

(** Copying downwards is right unless the source starts inside the destination. *)
Lemma copy_down_spec n m d s x :
  s ≤ d ∨ d ≤ s - Z.of_nat n →
  copy_down n m d s x
  = if ((d - Z.of_nat n <=? x) && (x <? d))%bool then m (s - (d - x)) else m x.
Proof.
  revert m d s. induction n as [|n IH]; intros m d s H; cbn [copy_down].
  - bool_cases; cbn; (done || lia).
  - rewrite IH by lia. unfold upd. bool_cases; cbn; subst; try lia; try done; f_equal; lia.
Qed.

Lemma memmove_bytes m dst src n x :
  0 ≤ n →
  memmove m dst src n x
  = if ((dst <=? x) && (x <? dst + n))%bool then m (src + (x - dst)) else m x.
Proof.
  intros Hn. unfold memmove.
  destruct ((src <? dst) && (dst <? src + n))%bool eqn:E.
  - bool_hyps. rewrite copy_down_spec by lia. rewrite Z2Nat.id by done.
    bool_cases; cbn; try lia; try done; f_equal; lia.
  - apply andb_false_iff in E. rewrite copy_up_spec, Z2Nat.id; [done|lia|].
    destruct E as [E|E]; apply Z.ltb_ge in E; lia.
Qed.

(** The user-level memmove of ulib.c copies upwards only: it is right when the
    destination does not start inside the source... *)
Lemma umemmove_spec m dst src n x :
  0 ≤ n → dst ≤ src ∨ src + n ≤ dst →
  umemmove m dst src n x
  = if ((dst <=? x) && (x <? dst + n))%bool then m (src + (x - dst)) else m x.
Proof.
  intros Hn H. unfold umemmove. rewrite copy_up_spec; rewrite Z2Nat.id by done; done.
Qed.

(** Otherwise it is not a memmove: for a copy to a higher address
    inside the source it smears the first byte, unlike the kernel's memmove. *)
Theorem umemmove_overlap_differs :
  ∃ m dst src n x, 0 ≤ n ∧ umemmove m dst src n x ≠ memmove m dst src n x.
Proof. exists (λ a, a mod 256), 1001, 1000, 2, 1002. split; [lia|]. vm_compute. discriminate. Qed.

(** ** Strings *)

(** The [n] bytes at [p]. *)
Definition bytes_at (m : memory) (p : Z) (n : nat) : list Z := (λ i, m (p + Z.of_nat i)) <$> seq 0 n.

Lemma bytes_at_S m p n : bytes_at m p (S n) = m p :: bytes_at m (p + 1) n.
Proof.
  unfold bytes_at. cbn [seq fmap list_fmap]. f_equal; [f_equal; lia|].
  rewrite <- fmap_S_seq, <- list_fmap_compose. apply list_fmap_ext.
  intros i y Hy. cbn. f_equal. lia.
Qed.

Lemma bytes_at_lookup m p n i :
  (i < n)%nat → bytes_at m p n !! i = Some (m (p + Z.of_nat i)).
Proof. intros Hi. unfold bytes_at. by rewrite list_lookup_fmap, lookup_seq_lt. Qed.

Lemma length_bytes_at m p n : length (bytes_at m p n) = n.
Proof. unfold bytes_at. by rewrite length_fmap, length_seq. Qed.

Lemma bytes_at_ext m m' p p' n :
  (∀ i, (i < n)%nat → m (p + Z.of_nat i) = m' (p' + Z.of_nat i)) →
  bytes_at m p n = bytes_at m' p' n.
Proof.
  intros H. unfold bytes_at. apply list_fmap_ext. intros k i Hi.
  apply lookup_seq in Hi as [-> Hi]. apply H. lia.
Qed.

(** Memset fills the [n] bytes at [dst] with the low byte of [c], by words
    when the pointer and the length are multiples of four and by bytes
    otherwise, and changes no other byte. *)
Theorem memset_spec m dst c n :
  0 ≤ n →
  bytes_at (memset m dst c n) dst (Z.to_nat n) = replicate (Z.to_nat n) (u8 c)
  ∧ ∀ x, x < dst ∨ dst + n ≤ x → memset m dst c n x = m x.
Proof.
  intros Hn. split.
  - apply list_eq. intros i. destruct (decide (i < Z.to_nat n)%nat) as [Hi|Hi].
    + rewrite bytes_at_lookup, lookup_replicate_2, memset_bytes by done.
      bool_cases; cbn; (done || lia).
    + rewrite !lookup_ge_None_2; rewrite ?length_replicate, ?length_bytes_at; (done || lia).
  - intros x Hx. rewrite memset_bytes by done. bool_cases; cbn; (done || lia).
Qed.

Lemma memset_spec_witness :
  bytes_at (memset (λ _, 7) 4096 511 4) 4096 4 = [255; 255; 255; 255]
  ∧ bytes_at (memset (λ _, 7) 4097 511 3) 4097 3 = [255; 255; 255].
Proof.
  split.
  - apply (proj1 (memset_spec (λ _, 7) 4096 511 4 ltac:(lia))).
  - apply (proj1 (memset_spec (λ _, 7) 4097 511 3 ltac:(lia))).
Defined.

(** Memmove leaves at [dst] the [n] bytes that were at [src] before the
    call, however the two ranges overlap, and changes no other byte. *)
Theorem memmove_spec m dst src n :
  0 ≤ n →
  bytes_at (memmove m dst src n) dst (Z.to_nat n) = bytes_at m src (Z.to_nat n)
  ∧ ∀ x, x < dst ∨ dst + n ≤ x → memmove m dst src n x = m x.
Proof.
  intros Hn. split.
  - apply bytes_at_ext. intros i Hi. rewrite memmove_bytes by done.
    bool_cases; cbn; try lia. f_equal. lia.
  - intros x Hx. rewrite memmove_bytes by done. bool_cases; cbn; (done || lia).
Qed.

Lemma memmove_spec_witness :
  bytes_at (memmove (λ a, a mod 256) 1002 1000 10) 1002 10 = bytes_at (λ a, a mod 256) 1000 10.
Proof. apply (proj1 (memmove_spec (λ a, a mod 256) 1002 1000 10 ltac:(lia))). Defined.

(** A NUL-terminated string: [l] without its terminator. *)
Definition cstr (m : memory) (p : Z) (l : list Z) : Prop :=
  Forall (λ c, c ≠ 0) l ∧ bytes_at m p (length l) = l ∧ m (p + Z.of_nat (length l)) = 0.

Lemma cstr_nil m p : cstr m p [] ↔ m p = 0.
Proof.
  unfold cstr. cbn. rewrite Z.add_0_r. split; [naive_solver|]. intros. by split_and!.
Qed.

Lemma cstr_cons m p c l : cstr m p (c :: l) ↔ m p = c ∧ c ≠ 0 ∧ cstr m (p + 1) l.
Proof.
  unfold cstr. cbn [length]. rewrite bytes_at_S, Forall_cons.
  replace (p + Z.of_nat (S (length l))) with (p + 1 + Z.of_nat (length l)) by lia.
  split; [intros ([] & [=] & ?)|intros (? & ? & ? & ? & ?)]; by rewrite ?H0; split_and!; congruence.
Qed.

(** strlen finds the NUL, given enough bytes to look at. *)
Lemma strlen_spec f m s l :
  cstr m s l → (length l < f)%nat → strlen f m s = Some (Z.of_nat (length l)).
Proof.
  unfold strlen. intros Hl Hf.
  enough (∀ n, strlen_loop f m (s - n) n = Some (n + Z.of_nat (length l))) as H.
  { specialize (H 0). by rewrite Z.sub_0_r in H. }
  revert s f Hl Hf. induction l as [|c l IH]; intros s f Hl Hf n; (destruct f as [|f]; [cbn in Hf; lia|]).
  - apply cstr_nil in Hl. cbn. replace (s - n + n) with s by lia. rewrite Hl. cbn. f_equal; lia.
  - apply cstr_cons in Hl as (Hc & Hne & Hl). cbn [strlen_loop]. replace (s - n + n) with s by lia.
    destruct (Z.eqb_spec (m s) 0); [congruence|].
    replace (s - n) with (s + 1 - (n + 1)) by lia.
    rewrite IH; [|done|cbn in Hf; lia]. f_equal. cbn [length]. lia.
Qed.

(** What strncmp compares: the string at [p] cut at its NUL and at [n] bytes. *)
Fixpoint cut (n : nat) (m : memory) (p : Z) : list Z :=
  match n with
  | O => []
  | S n' => if m p =? 0 then [] else m p :: cut n' m (p + 1)
  end.

(** Strncmp (and so namecmp, which compares file names) returns 0 exactly
    when the two strings, cut at their NUL and at [n] characters, are equal. *)
Theorem strncmp_eq_iff m p q n :
  strncmp m p q n = 0 ↔ cut (Z.to_nat n) m p = cut (Z.to_nat n) m q.
Proof.
  unfold strncmp. generalize (Z.to_nat n). clear n. intros n. revert p q.
  induction n as [|n IH]; intros p q; cbn; [done|].
  destruct (Z.eqb_spec (m p) 0) as [Hp|Hp], (Z.eqb_spec (m q) 0) as [Hq|Hq],
    (Z.eqb_spec (m p) (m q)) as [E|E]; cbn; try congruence;
    try (split; intros; first [done|lia|congruence|exfalso; lia]).
  rewrite IH, E. split; congruence.
Qed.

(** ** Bounded copies *)

(** The copy loop shared by strncpy and safestrcpy, for a source string that
    the destination does not overlap. *)
Lemma strncpy_copy_spec n m s t l :
  cstr m t l → s + Z.of_nat n ≤ t ∨ t + Z.of_nat (length l) < s →
  let k := Nat.min n (S (length l)) in
  ∃ m', strncpy_copy n m s t = (m', s + Z.of_nat k, (n - k)%nat)
    ∧ (∀ x, m' x = if ((s <=? x) && (x <? s + Z.of_nat k))%bool then m (t + (x - s)) else m x).
Proof.
  revert m s t l. induction n as [|n IH]; intros m s t l Hl Hd k.
  - exists m. cbn. rewrite Z.add_0_r. split; [done|]. intros x. bool_cases; cbn; (done || lia).
  - cbn [strncpy_copy]. destruct l as [|c l].
    + apply cstr_nil in Hl. rewrite Hl. cbn [Z.eqb]. eexists. split.
      { subst k. cbn. repeat apply (f_equal2 pair); (done || lia). }
      intros x. unfold upd. subst k. cbn. bool_cases; cbn; subst; try lia; try done.
      rewrite <- Hl. f_equal. lia.
    + apply cstr_cons in Hl as (Hc & Hne & Hl). destruct (Z.eqb_spec (m t) 0); [congruence|].
      cbn [length] in Hd.
      assert (Hl' : cstr (upd m s (m t)) (t + 1) l).
      { destruct Hl as (H1 & H2 & H3). split_and!; [done| |].
        - rewrite <- H2 at 2. unfold bytes_at. apply list_fmap_ext. intros i y Hy.
          apply lookup_seq in Hy. apply upd_other. lia.
        - rewrite upd_other by lia. done. }
      destruct (IH (upd m s (m t)) (s + 1) (t + 1) l Hl') as (m' & -> & Hm'); [lia|].
      exists m'. split; [subst k; cbn; repeat apply (f_equal2 pair); (done || lia)|].
      intros x. rewrite Hm'. unfold upd. subst k. cbn [length].
      bool_cases; cbn; subst; try lia; try done; f_equal; lia.
Qed.

(** The first [k] bytes of the string at [t], NUL included, as stored at [s]. *)
Definition copied (m : memory) (s t : Z) (k : nat) (x : Z) : Z :=
  if ((s <=? x) && (x <? s + Z.of_nat k))%bool then m (t + (x - s)) else m x.

(** Strncpy writes exactly the [n] bytes at [s]: the source string up to and
    including its NUL when it fits, padded with NULs, or its first [n] bytes
    without a terminator when it does not.  This is how dirlink lays out the
    name of a directory entry. *)
Theorem strncpy_spec m s t n l x :
  cstr m t l → 0 ≤ n → s + n ≤ t ∨ t + Z.of_nat (length l) < s →
  strncpy m s t n x =
    if ((s <=? x) && (x <? s + n))%bool
    then if x - s <? Z.of_nat (length l) then m (t + (x - s)) else 0
    else m x.
Proof.
  intros Hl Hn Hd. unfold strncpy.
  destruct (strncpy_copy_spec (Z.to_nat n) m s t l Hl) as (m' & E & Hm'); [lia|].
  rewrite E, stosb_spec, Hm'. destruct Hl as (_ & _ & Hz).
  bool_cases; cbn; try lia; try done. rewrite <- Hz. f_equal. lia.
Qed.

(** Safestrcpy always leaves a NUL-terminated string in the [n] bytes at
    [s], the source cut to [n - 1] characters, and writes nothing outside them. *)
Theorem safestrcpy_spec m s t n l :
  cstr m t l → 0 < n → s + n ≤ t ∨ t + Z.of_nat (length l) < s →
  cstr (safestrcpy m s t n) s (take (Z.to_nat (n - 1)) l)
  ∧ (∀ x, x < s ∨ s + n ≤ x → safestrcpy m s t n x = m x).
Proof.
  intros Hl Hn Hd. unfold safestrcpy. destruct (Z.leb_spec n 0); [lia|].
  destruct (strncpy_copy_spec (Z.to_nat (n - 1)) m s t l Hl) as (m' & -> & Hm'); [lia|].
  destruct Hl as (Hnz & Hb & Hz). split.
  - split_and!; [by apply Forall_take| |].
    + apply list_eq. intros i. rewrite length_take.
      destruct (decide (i < Z.to_nat (n - 1) `min` length l)%nat) as [Hi|Hi].
      * rewrite bytes_at_lookup, lookup_take_lt by lia.
        pose proof (bytes_at_lookup m t (length l) i ltac:(lia)) as Hli.
        rewrite Hb in Hli. rewrite Hli. unfold upd. rewrite Hm'.
        bool_cases; cbn; try lia. do 2 f_equal. lia.
      * rewrite !lookup_ge_None_2; [done|..]; rewrite ?length_take, ?length_bytes_at; lia.
    + unfold upd. rewrite length_take, Hm'.
      destruct (Z.eqb_spec (s + Z.of_nat (Z.to_nat (n - 1) `min` length l))
        (s + Z.of_nat (Z.to_nat (n - 1) `min` S (length l)))); [done|].
      bool_cases; cbn; try lia. rewrite <- Hz. f_equal. lia.
  - intros x Hx. unfold upd. rewrite Hm'. bool_cases; cbn; try lia; try done.
Qed.

(** A memory holding the bytes [l] at [p] and zeros elsewhere. *)
Definition mem_of (p : Z) (l : list Z) : memory :=
  λ x, if p <=? x then default 0 (l !! Z.to_nat (x - p)) else 0.

(** "sh" at 100: copied into a 14-byte name and into a 2-byte buffer. *)
Lemma strncpy_spec_witness : strncpy (mem_of 100 [115; 104]) 10 100 14 12 = 0.
Proof.
  refine (strncpy_spec (mem_of 100 [115; 104]) 10 100 14 [115; 104] 12 _ _ _); [|lia|lia].
  split_and!; [|reflexivity|reflexivity]. repeat constructor; discriminate.
Defined.

Lemma safestrcpy_spec_witness : cstr (safestrcpy (mem_of 100 [115; 104]) 10 100 2) 10 [115].
Proof.
  refine (proj1 (safestrcpy_spec (mem_of 100 [115; 104]) 10 100 2 [115; 104] _ _ _)); [|lia|lia].
  split_and!; [|reflexivity|reflexivity]. repeat constructor; discriminate.
Defined.
