(* ===== verification/Printf.v ===== *)
(** Formatted output (printint and printf of printf.c, printint and the format
    loop of cprintf in console.c), as the sequence of characters handed to
    [putc] respectively [consputc]. *)

From S2P Require Import Prelude.

(** The characters of a string literal. *)
Definition chars (s : string) : list Z :=
  (λ c, Z.of_N (Ascii.N_of_ascii c)) <$> String.list_ascii_of_string s.

(** A variadic argument: a word, or a string pointer ([None] when null). *)
Inductive arg := AInt (x : Z) | AStr (s : option (list Z)).

(** "0123456789abcdef" and "0123456789ABCDEF". *)
Definition digits_lower (d : Z) : Z := if d <? 10 then 48 + d else 97 + (d - 10).
Definition digits_upper (d : Z) : Z := if d <? 10 then 48 + d else 65 + (d - 10).

(** The [do ... while((x /= base) != 0)] loop: the digits in the order they are
    put into [buf], lowest first.  Thirty-two rounds are enough for a [uint] in
    any base. *)
Fixpoint digit_loop (f : nat) (digits : Z → Z) (x base : Z) : list Z :=
  match f with
  | O => []
  | S f' =>
      digits (x mod base) ::
        (if negb (x / base =? 0) then digit_loop f' digits (x / base) base else [])
  end.

(** [buf] when the loop of printint is over, the sign last. *)
Definition printint_buf (digits : Z → Z) (xx base : Z) (sign : bool) : list Z :=
  let neg := (sign && (xx <? 0))%bool in
  let x := if neg then u32 (- xx) else u32 xx in
  digit_loop 32 digits x base ++ (if neg then [45] else []).

(** [while(--i >= 0) consputc(buf[i])]. *)
Definition printint_chars (digits : Z → Z) (xx base : Z) (sign : bool) : list Z :=
  rev (printint_buf digits xx base sign).

(** console.c. *)
Definition kprintint (xx base : Z) (sign : bool) : list Z := printint_chars digits_lower xx base sign.
(** printf.c. *)
Definition uprintint (xx base : Z) (sgn : bool) : list Z := printint_chars digits_upper xx base sgn.

Definition str_chars (s : option (list Z)) : list Z := default (chars "(null)") s.

(** The conversions of cprintf; [None] when the argument is missing or is of
    the wrong kind, which C leaves undefined. *)
Definition kconv (c : Z) (args : list arg) : option (list Z * list arg) :=
  if c =? 100 then
    match args with AInt x :: a => Some (kprintint (i32 x) 10 true, a) | _ => None end
  else if (c =? 120) || (c =? 112) then
    match args with AInt x :: a => Some (kprintint (i32 x) 16 false, a) | _ => None end
  else if c =? 115 then
    match args with AStr s :: a => Some (str_chars s, a) | _ => None end
  else if c =? 37 then Some ([37], args)
  else Some ([37; c], args).

(** The format loop of cprintf on the characters of [fmt]. *)
Fixpoint kformat (fmt : list Z) (args : list arg) : option (list Z) :=
  match fmt with
  | [] => Some []
  | c :: fmt' =>
      if negb (c =? 37) then (c ::.) <$> kformat fmt' args
      else match fmt' with
           | [] => Some []
           | c' :: fmt'' =>
               '(out, args') ← kconv c' args;
               (out ++.) <$> kformat fmt'' args'
           end
  end.

(** The conversions of the user-level printf, which also knows [%c]. *)
Definition uconv (c : Z) (args : list arg) : option (list Z * list arg) :=
  if c =? 100 then
    match args with AInt x :: a => Some (uprintint (i32 x) 10 true, a) | _ => None end
  else if (c =? 120) || (c =? 112) then
    match args with AInt x :: a => Some (uprintint (i32 x) 16 false, a) | _ => None end
  else if c =? 115 then
    match args with AStr s :: a => Some (str_chars s, a) | _ => None end
  else if c =? 99 then
    match args with AInt x :: a => Some ([u8 x], a) | _ => None end
  else if c =? 37 then Some ([37], args)
  else Some ([37; c], args).

(** The loop of printf with its [state] variable ([true] after a '%'). *)
Fixpoint uformat (pct : bool) (fmt : list Z) (args : list arg) : option (list Z) :=
  match fmt with
  | [] => Some []
  | c :: fmt' =>
      if negb pct then
        if c =? 37 then uformat true fmt' args else (c ::.) <$> uformat false fmt' args
      else
        '(out, args') ← uconv c args;
        (out ++.) <$> uformat false fmt' args'
  end.

(** ** Numbers print correctly *)

(** Reading a digit string back, most significant digit first. *)
Definition digit_val (c : Z) : Z :=
  if c <? 58 then c - 48 else if c <? 71 then c - 55 else c - 87.
Definition read_digits (base : Z) (l : list Z) : Z :=
  foldl (λ n c, n * base + digit_val c) 0 l.
Definition read_int (base : Z) (l : list Z) : Z :=
  match l with
  | 45 :: l' => - read_digits base l'
  | _ => read_digits base l
  end.

Definition digits_ok (digits : Z → Z) : Prop :=
  ∀ d, 0 ≤ d < 16 → digit_val (digits d) = d ∧ digits d ≠ 45.

Lemma digits_lower_ok : digits_ok digits_lower.
Proof. intros d Hd. unfold digit_val, digits_lower. bool_cases; lia. Qed.
Lemma digits_upper_ok : digits_ok digits_upper.
Proof. intros d Hd. unfold digit_val, digits_upper. bool_cases; lia. Qed.

Lemma read_digits_snoc base l c :
  read_digits base (l ++ [c]) = read_digits base l * base + digit_val c.
Proof. unfold read_digits. by rewrite foldl_app. Qed.

(** [2^k] bounds what is left to print, so the loop ends by itself. *)
Lemma digit_loop_read f digits x base :
  digits_ok digits → 2 ≤ base ≤ 16 → 0 ≤ x < 2 ^ Z.of_nat f →
  read_digits base (rev (digit_loop f digits x base)) = x.
Proof.
  intros Hd Hb. revert x. induction f as [|f IH]; intros x Hx.
  - cbn in Hx. cbn. lia.
  - cbn [digit_loop]. cbn [rev]. rewrite read_digits_snoc.
    pose proof (Z.mod_pos_bound x base ltac:(lia)) as Hm.
    destruct (Hd (x mod base) ltac:(lia)) as [-> _].
    pose proof (Z_div_mod_eq_full x base) as Hx'.
    destruct (Z.eqb_spec (x / base) 0) as [E|E]; cbn [negb].
    + cbn. rewrite E in Hx'. lia.
    + rewrite IH; [lia|]. split; [apply Z.div_pos; lia|].
      apply Z.div_lt_upper_bound; [lia|].
      rewrite Nat2Z.inj_succ, Z.pow_succ_r in Hx by lia. nia.
Qed.

Lemma digit_loop_nonempty f digits x base : digit_loop (S f) digits x base ≠ [].
Proof. done. Qed.

Lemma digit_loop_no_sign f digits x base c :
  digits_ok digits → 2 ≤ base ≤ 16 → 0 ≤ x → c ∈ digit_loop f digits x base → c ≠ 45.
Proof.
  intros Hd Hb. revert x. induction f as [|f IH]; intros x Hx; cbn [digit_loop]; [set_solver|].
  pose proof (Z.mod_pos_bound x base ltac:(lia)).
  rewrite elem_of_cons. intros [->|Hin]; [apply Hd; lia|].
  destruct (negb _); [|set_solver]. eapply IH; [|exact Hin]. apply Z.div_pos; lia.
Qed.

Lemma read_int_pos base l : (∀ c, c ∈ l → c ≠ 45) → read_int base l = read_digits base l.
Proof.
  intros H. destruct l as [|c l]; [done|]. unfold read_int.
  assert (c ≠ 45) by (apply H; set_solver). repeat case_match; (done || lia).
Qed.

(** Numbers print correctly.  The characters printint emits for an [int]
    printed signed read back as the number itself, INT_MIN included, and those
    for a number printed unsigned read back as its unsigned value, in both the
    kernel's and the user library's version and any base up to sixteen. *)
Theorem printint_reads_back digits xx base sign :
  digits ∈ [digits_lower; digits_upper] → is_i32 xx → 2 ≤ base ≤ 16 →
  read_int base (printint_chars digits xx base sign) = if sign then xx else u32 xx.
Proof.
  intros Hdig Hx Hb.
  assert (Hd : digits_ok digits).
  { apply elem_of_cons in Hdig as [->|Hdig]; [apply digits_lower_ok|].
    apply list_elem_of_singleton in Hdig as ->. apply digits_upper_ok. }
  unfold printint_chars, printint_buf. unfold is_i32 in Hx.
  assert (Hpos : ∀ y, is_u32 y →
    read_int base (rev (digit_loop 32 digits y base)) = y).
  { intros y Hy. rewrite read_int_pos; [by apply digit_loop_read|].
    intros c Hc. eapply (digit_loop_no_sign 32 digits y base); [done|done|apply Hy|].
    by apply list_elem_of_In, in_rev, list_elem_of_In. }
  destruct sign, (Z.ltb_spec xx 0); cbn [andb].
  - rewrite rev_app_distr. cbn [rev app read_int].
    rewrite digit_loop_read; [|done|done|apply u32_range].
    unfold u32. rewrite Z.mod_small by lia. lia.
  - rewrite app_nil_r, Hpos by apply u32_range. apply u32_small. unfold is_u32. lia.
  - rewrite app_nil_r. apply Hpos, u32_range.
  - rewrite app_nil_r. apply Hpos, u32_range.
Qed.

Lemma printint_reads_back_witness :
  read_int 10 (kprintint (-2147483648) 10 true) = -2147483648.
Proof.
  refine (printint_reads_back digits_lower (-2147483648) 10 true _ _ _);
    [left|unfold is_i32; lia|lia].
Defined.

Lemma digit_loop_length f digits x base k :
  2 ≤ base → (0 < k)%nat → 0 ≤ x < base ^ Z.of_nat k →
  (length (digit_loop f digits x base) ≤ k)%nat.
Proof.
  intros Hb. revert x k. induction f as [|f IH]; intros x k Hk Hx; cbn; [lia|].
  destruct (Z.eqb_spec (x / base) 0) as [E|E]; cbn; [lia|].
  destruct k as [|k]; [lia|]. rewrite Nat2Z.inj_succ, Z.pow_succ_r in Hx by lia.
  assert (x / base < base ^ Z.of_nat k) by (apply Z.div_lt_upper_bound; lia).
  assert (0 ≤ x / base) by (apply Z.div_pos; lia).
  destruct k as [|k]; [cbn in *; lia|].
  apply le_n_S. apply IH; [lia|lia].
Qed.

(** Printint does not overrun its 16-byte buffer in the two bases the
    kernel and the library use, ten (signed, at most eleven characters) and
    sixteen (unsigned, at most eight). *)
Theorem printint_fits_buf digits xx base sign :
  (base = 10 ∧ sign = true) ∨ (base = 16 ∧ sign = false) →
  (length (printint_buf digits xx base sign) ≤ 16)%nat.
Proof.
  unfold printint_buf. rewrite length_app.
  assert (∀ y b k, 2 ≤ b → (0 < k)%nat → 2 ^ 32 ≤ b ^ Z.of_nat k →
            (length (digit_loop 32 digits (u32 y) b) ≤ k)%nat) as H.
  { intros y b k Hb Hk Hp. apply digit_loop_length; [done|done|].
    pose proof (u32_range y) as Hr. unfold is_u32 in Hr. lia. }
  intros [[-> ->]|[-> ->]]; cbn [andb].
  - pose proof (H (- xx) 10 10%nat ltac:(lia) ltac:(lia) ltac:(vm_compute; discriminate)).
    pose proof (H xx 10 10%nat ltac:(lia) ltac:(lia) ltac:(vm_compute; discriminate)).
    destruct (xx <? 0); cbn [length]; lia.
  - pose proof (H xx 16 8%nat ltac:(lia) ltac:(lia) ltac:(vm_compute; discriminate)).
    cbn [length]. lia.
Qed.

Lemma printint_fits_buf_witness :
  (length (printint_buf digits_lower (-2147483648) 10 true) ≤ 16)%nat.
Proof. apply printint_fits_buf. left. split; reflexivity. Defined.

(** ** The two printfs agree *)

(** A format both printfs treat alike: every '%' is followed by d, s, % or by a
    character neither knows. *)
Fixpoint plain_format (fmt : list Z) : bool :=
  match fmt with
  | [] => true
  | c :: fmt' =>
      if c =? 37 then
        match fmt' with
        | [] => true
        | c' :: fmt'' =>
            negb ((c' =? 120) || (c' =? 112) || (c' =? 99)) && plain_format fmt''
        end
      else plain_format fmt'
  end.

Lemma digits_same f x :
  0 ≤ x → digit_loop f digits_lower x 10 = digit_loop f digits_upper x 10.
Proof.
  revert x. induction f as [|f IH]; intros x Hx; [done|]. cbn [digit_loop].
  pose proof (Z.mod_pos_bound x 10 ltac:(lia)).
  unfold digits_lower at 1, digits_upper at 1. destruct (Z.ltb_spec (x mod 10) 10); [|lia].
  f_equal. destruct (negb _); [|done]. apply IH, Z.div_pos; lia.
Qed.

Lemma conv_same c args :
  negb ((c =? 120) || (c =? 112) || (c =? 99)) = true → kconv c args = uconv c args.
Proof.
  intros [[Hx Hp]%orb_false_iff Hc]%negb_true_iff%orb_false_iff.
  unfold kconv, uconv. rewrite Hx, Hp, Hc. cbn [orb].
  destruct (c =? 100); [|done]. destruct args as [|[x|] a]; try done.
  unfold kprintint, uprintint, printint_chars, printint_buf. cbn [andb].
  by rewrite !digits_same by (case_match; apply u32_range).
Qed.

(** On formats without %x, %p and %c the kernel's cprintf and the user
    library's printf emit the same characters, although one walks the format
    with an index and the other with a state variable. *)
Theorem printf_agree fmt args :
  plain_format fmt = true → kformat fmt args = uformat false fmt args.
Proof.
  remember (length fmt) as n eqn:Hn. revert fmt args Hn.
  induction n as [n IH] using lt_wf_ind. intros fmt args Hn Hp.
  destruct fmt as [|c fmt]; [done|]. cbn [kformat uformat plain_format negb] in *.
  destruct (c =? 37) eqn:E; cbn [negb].
  - destruct fmt as [|c' fmt]; [done|]. apply andb_true_iff in Hp as [Hc Hp].
    cbn [uformat negb].
    rewrite conv_same by done. destruct (uconv c' args) as [[out a]|]; cbn; [|done].
    by rewrite (IH (length fmt)) by (cbn in *; (lia || done)).
  - by rewrite (IH (length fmt)) by (cbn in *; (lia || done)).
Qed.

Lemma printf_agree_witness :
  kformat (chars "pid %d: %s%%") [AInt 7; AStr (Some (chars "sh"))]
  = uformat false (chars "pid %d: %s%%") [AInt 7; AStr (Some (chars "sh"))].
Proof. apply printf_agree. reflexivity. Defined.
