(* ===== verification/Kalloc.v ===== *)
(** The physical page allocator (kalloc.c): the free list threaded through the
    first word of every free page. *)

From S2P Require Import Prelude Types Strings Spinlock.

(** memlayout.h: addresses are [uint]s. *)
Definition V2P (a : Z) : Z := usub a KERNBASE.
Definition P2V (a : Z) : Z := uadd a KERNBASE.

(** mmu.h, on [uint]s. *)
Definition PGROUNDUP (x : Z) : Z := Z.land (uadd x (PGSIZE - 1)) (2 ^ 32 - PGSIZE).
Definition PGROUNDDOWN (x : Z) : Z := Z.land x (2 ^ 32 - PGSIZE).

(** [*(uint* )a = v] and [*(uint* )a] on kernel memory. *)
Definition load (a : Z) : K Z := gets (λ s, load32 (mem s) a).
Definition store (a v : Z) : K unit := modify (λ s, s <| mem ::= λ m, store32 m a v |>).

(** ** Rounding *)

Lemma land_page_mask x : is_u32 x → Z.land x (2 ^ 32 - PGSIZE) = x - x mod PGSIZE.
Proof.
  intros Hx. change (2 ^ 32 - PGSIZE) with (Z.ldiff (Z.ones 32) (Z.ones 12)).
  assert (Z.land x (Z.ldiff (Z.ones 32) (Z.ones 12)) = Z.ldiff (Z.land x (Z.ones 32)) (Z.ones 12)) as ->.
  { apply Z.bits_inj'. intros i _. by rewrite Z.land_spec, !Z.ldiff_spec, Z.land_spec, andb_assoc. }
  rewrite Z.land_ones, Z.ldiff_ones_r, Z.shiftl_mul_pow2, Z.shiftr_div_pow2 by lia.
  rewrite (Z.mod_small x) by apply Hx. change PGSIZE with (2 ^ 12).
  pose proof (Z_div_mod_eq_full x (2 ^ 12)). lia.
Qed.

Lemma PGROUNDDOWN_spec x : is_u32 x → PGROUNDDOWN x = x - x mod PGSIZE.
Proof. apply land_page_mask. Qed.

(** The least multiple of the page size that is not below [x]. *)
Lemma PGROUNDUP_spec x :
  0 ≤ x → x + PGSIZE ≤ 2 ^ 32 →
  PGROUNDUP x mod PGSIZE = 0 ∧ x ≤ PGROUNDUP x < x + PGSIZE.
Proof.
  unfold PGSIZE. intros H0 H1. unfold PGROUNDUP, uadd.
  assert (is_u32 (x + (PGSIZE - 1))) by (unfold is_u32, PGSIZE; lia).
  rewrite u32_small, land_page_mask by done. unfold PGSIZE.
  pose proof (Z_div_mod_eq_full (x + (4096 - 1)) 4096) as Hd.
  pose proof (Z.mod_pos_bound (x + (4096 - 1)) 4096 ltac:(lia)).
  split; [|lia]. rewrite Hd at 1.
  replace (_ - _) with (((x + (4096 - 1)) / 4096) * 4096) by lia. apply Z_mod_mult.
Qed.

Lemma PGROUNDUP_aligned x : is_u32 x → x mod PGSIZE = 0 → PGROUNDUP x = x.
Proof.
  unfold is_u32. intros Hx Ha. pose proof (Z_div_mod_eq_full x PGSIZE) as E. unfold PGSIZE in *.
  destruct (PGROUNDUP_spec x) as [Hm Hb]; [lia|unfold PGSIZE; lia|]. unfold PGSIZE in *.
  pose proof (Z_div_mod_eq_full (PGROUNDUP x) 4096). lia.
Qed.

Section Kalloc.
Context {P : Platform}.

Definition kfree (v : Z) : K unit :=
  if (negb (v mod PGSIZE =? 0) || (v <? sym_end) || (PHYSTOP <=? V2P v))%bool
  then panic "kfree" else
  modify (λ s, s <| mem ::= λ m, memset m v 1 PGSIZE |>);;
  lk ← gets use_lock;
  when lk (acquire LKmem);;
  fl ← gets freelist;
  store v fl;;
  modify (λ s, s <| freelist := v |>);;
  lk ← gets use_lock;
  when lk (release LKmem).

Definition kalloc : K Z :=
  lk ← gets use_lock;
  when lk (acquire LKmem);;
  r ← gets freelist;
  when (negb (r =? 0)) (n ← load r; modify (λ s, s <| freelist := n |>));;
  lk ← gets use_lock;
  when lk (release LKmem);;
  mret r.

(** [for(; p + PGSIZE <= vend; p += PGSIZE) kfree(p)]. *)
Fixpoint freerange_loop (n : nat) (p vend : Z) : K unit :=
  if uadd p PGSIZE <=? vend then
    match n with
    | O => nofuel
    | S n' => kfree p;; freerange_loop n' (uadd p PGSIZE) vend
    end
  else mret tt.

(** One round per page of the address space is enough. *)
Definition freerange (vstart vend : Z) : K unit :=
  freerange_loop (Z.to_nat (2 ^ 32 / PGSIZE)) (PGROUNDUP vstart) vend.

Definition kinit1 (vstart vend : Z) : K unit :=
  modify (λ s, s <| use_lock := false |>);;
  freerange vstart vend.

Definition kinit2 (vstart vend : Z) : K unit :=
  freerange vstart vend;;
  modify (λ s, s <| use_lock := true |>).

(** ** The free list *)

(** A page the allocator manages. *)
Definition page_ok (v : Z) : Prop := v mod PGSIZE = 0 ∧ sym_end ≤ v < KERNBASE + PHYSTOP.

(** [r] heads the chain of the pages [ps]. *)
Fixpoint chain (m : memory) (r : Z) (ps : list Z) : Prop :=
  match ps with
  | [] => r = 0
  | p :: ps' => r = p ∧ chain m (load32 m p) ps'
  end.

Definition free_inv (s : kernel) (ps : list Z) : Prop :=
  chain (mem s) (freelist s) ps ∧ NoDup ps ∧ Forall page_ok ps.

(** The kmem lock can be taken. *)
Definition kmem_ok (s : kernel) : Prop := use_lock s = true → LKmem ∉ held s.

Context {PO : PlatformOk P}.

Lemma page_ok_range v : page_ok v → KERNLINK < v < 2 ^ 32 ∧ v mod PGSIZE = 0.
Proof.
  intros (Ha & Hlo & Hhi). pose proof link_data. pose proof data_end.
  unfold KERNBASE, PHYSTOP, KERNLINK in *. lia.
Qed.

Lemma page_ok_nz v : page_ok v → v ≠ 0.
Proof. intros H%page_ok_range. unfold KERNLINK, KERNBASE, EXTMEM in *. lia. Qed.

Lemma page_apart p q : page_ok p → page_ok q → p ≠ q → p + PGSIZE ≤ q ∨ q + PGSIZE ≤ p.
Proof.
  intros (Hp & _) (Hq & _) Hne. unfold PGSIZE in *.
  pose proof (Z_div_mod_eq_full p 4096). pose proof (Z_div_mod_eq_full q 4096). lia.
Qed.

Lemma chain_ext m m' r ps :
  (∀ p x, p ∈ ps → p ≤ x < p + 4 → m x = m' x) → chain m r ps → chain m' r ps.
Proof.
  revert r. induction ps as [|p ps IH]; intros r H; [done|]. cbn. intros [-> Hc].
  split; [done|]. rewrite <- (load32_ext m m') by (intros; apply (H p); set_solver).
  apply IH; [|done]. intros q x Hq. apply H. set_solver.
Qed.

(** Writes outside the free pages do not disturb the free list. *)
Lemma free_inv_ext s s' ps :
  free_inv s ps → freelist s' = freelist s →
  (∀ p x, p ∈ ps → p ≤ x < p + PGSIZE → mem s x = mem s' x) → free_inv s' ps.
Proof.
  intros (Hc & Hnd & Hok) Hf Hm. split; [|done]. rewrite Hf.
  eapply chain_ext; [|done]. intros p x Hp Hx. apply (Hm p); [done|]. unfold PGSIZE. lia.
Qed.

(** The state kfree leaves. *)
Definition kfreed (s : kernel) (v : Z) : kernel :=
  s <| mem := store32 (memset (mem s) v 1 PGSIZE) v (freelist s) |> <| freelist := v |>.

Lemma kfree_run s v : kmem_ok s → page_ok v → kfree v s = Ret tt (kfreed s v).
Proof.
  intros Hl Hv. pose proof Hv as (Ha & Hlo & Hhi). apply page_ok_range in Hv as [Hv _].
  unfold kfree. rewrite Ha. cbn [Z.eqb negb orb]. destruct (Z.ltb_spec v sym_end); [lia|].
  unfold V2P, usub. rewrite u32_small
    by (unfold is_u32, KERNLINK, KERNBASE, EXTMEM in *; lia).
  destruct (Z.leb_spec PHYSTOP (v - KERNBASE)); [lia|]. cbn [orb]. run. run. sst.
  destruct (when_lock_run (use_lock s) (s <| mem ::= λ m, memset m v 1 PGSIZE |>) LKmem)
    as (h & Ha' & Hr); [done|].
  rewrite (bind_run _ _ _ _ _ Ha'). cbv beta. run. unfold store. run. run. run. sst.
  rewrite Hr by done. f_equal.
Qed.

(** Freeing a page that is not on the list pushes it. *)
Lemma kfree_push s v ps :
  page_ok v → free_inv s ps → v ∉ ps → free_inv (kfreed s v) (v :: ps).
Proof.
  intros Hv (Hc & Hnd & Hok) Hn. split_and!; [|by constructor|by constructor].
  cbn. split; [done|]. rewrite load_store32.
  assert (Hfl : u32 (freelist s) = freelist s).
  { apply u32_small. destruct ps as [|p ps]; cbn in Hc; [rewrite Hc; unfold is_u32; lia|].
    destruct Hc as [-> _]. apply Forall_cons in Hok as [Hp%page_ok_range _].
    unfold is_u32, KERNLINK, KERNBASE, EXTMEM in *. lia. }
  rewrite Hfl. eapply chain_ext; [|exact Hc].
  intros p x Hp Hx. rewrite Forall_forall in Hok.
  pose proof (page_apart p v (Hok p Hp) Hv ltac:(set_solver)) as Hap. unfold PGSIZE in Hap.
  rewrite store32_other, memset_bytes by (unfold PGSIZE; lia).
  unfold PGSIZE. bool_cases; cbn; (done || lia).
Qed.

Lemma kalloc_run s ps :
  kmem_ok s → free_inv s ps →
  kalloc s = match ps with
             | [] => Ret 0 s
             | p :: ps' => Ret p (s <| freelist := load32 (mem s) p |>)
             end.
Proof.
  intros Hl (Hc & _ & Hok). unfold kalloc. run.
  destruct (when_lock_run (use_lock s) s LKmem Hl) as (h & Ha & Hr).
  rewrite (bind_run _ _ _ _ _ Ha). cbv beta. run. sst.
  destruct ps as [|p ps]; cbn in Hc.
  - rewrite Hc. cbn [Z.eqb negb when]. run. run. sst.
    erewrite bind_run; [|apply Hr; reflexivity].
    by destruct s.
  - destruct Hc as [-> _]. apply Forall_cons in Hok as [Hp%page_ok_nz _].
    destruct (Z.eqb_spec p 0); [done|]. cbn [negb when]. unfold load.
    erewrite bind_run; [|run; reflexivity]. cbv beta. run. sst.
    erewrite bind_run; [|apply Hr; reflexivity]. by destruct s.
Qed.

Lemma kalloc_pop s p ps :
  free_inv s (p :: ps) → page_ok p ∧ p ∉ ps ∧ free_inv (s <| freelist := load32 (mem s) p |>) ps.
Proof.
  intros ((_ & Hc) & [Hn Hnd]%NoDup_cons & [Hp Hok]%Forall_cons). by split_and!.
Qed.
(** ** Initialisation *)

Lemma freerange_loop_run n p vend s ps :
  kmem_ok s → free_inv s ps → p mod PGSIZE = 0 → sym_end ≤ p → p ≤ KERNBASE + PHYSTOP →
  vend ≤ KERNBASE + PHYSTOP →
  (vend - p) / PGSIZE ≤ Z.of_nat n → (∀ q, q ∈ ps → q < p ∨ vend < q + PGSIZE) →
  ∃ s' qs, freerange_loop n p vend s = Ret tt s' ∧ free_inv s' (qs ++ ps)
    ∧ s' = s <| mem := mem s' |> <| freelist := freelist s' |>
    ∧ (∀ x, x < p ∨ vend ≤ x → mem s' x = mem s x)
    ∧ ∀ q, q ∈ qs ↔ q mod PGSIZE = 0 ∧ p ≤ q ∧ q + PGSIZE ≤ vend.
Proof.
  pose proof link_data. pose proof data_end. pose proof end_phystop.
  revert p s ps. induction n as [|n IH]; intros p s ps Hl Hinv Ha Hlo Hhi Hv Hn Hps;
    cbn [freerange_loop]; unfold uadd;
    (rewrite u32_small by (unfold is_u32, KERNLINK, KERNBASE, EXTMEM, PHYSTOP, PGSIZE in *; lia));
    destruct (Z.leb_spec (p + PGSIZE) vend) as [Hle|Hgt].
  - exfalso. assert (1 ≤ (vend - p) / PGSIZE) by (apply Z.div_le_lower_bound; unfold PGSIZE in *; lia).
    lia.
  - exists s, []. split; [done|]. split; [done|]. split; [by destruct s|]. split; [done|].
    intros q. rewrite elem_of_nil. unfold PGSIZE in *. split; [done|]. intros (? & ? & ?). lia.
  - assert (Hp : page_ok p) by (unfold PGSIZE in Hle; split; [done|lia]).
    rewrite (bind_run _ _ _ _ _ (kfree_run s p Hl Hp)). cbv beta.
    destruct (IH (p + PGSIZE) (kfreed s p) (p :: ps)) as (s' & qs & Hrun & Hinv' & Hs' & Hmem & Hqs).
    + exact Hl.
    + apply kfree_push; [done|done|]. intros [Hq|Hq]%Hps; lia.
    + rewrite Z.add_mod, Ha by done. by vm_compute.
    + unfold PGSIZE; lia.
    + unfold PGSIZE in *; lia.
    + done.
    + replace (vend - (p + PGSIZE)) with (vend - p + (-1) * PGSIZE) by lia.
      rewrite Z.div_add by done. lia.
    + intros q [->|Hq]%elem_of_cons; [unfold PGSIZE; lia|].
      destruct (Hps q Hq); [unfold PGSIZE; lia|by right].
    + exists s', (qs ++ [p]). split; [exact Hrun|]. rewrite <- app_assoc. split; [done|].
      split; [rewrite Hs'; by destruct s|]. split.
      { intros x Hx. rewrite Hmem by (unfold PGSIZE in *; lia). unfold kfreed. sst.
        rewrite store32_other, memset_bytes by (unfold PGSIZE in *; lia). unfold PGSIZE in *. bool_cases; cbn; (done || lia). }
      intros q. rewrite elem_of_app, Hqs, list_elem_of_singleton.
      split; [intros [(? & ? & ?)| ->]; unfold PGSIZE in *; lia|]. intros (Hm & Hq1 & Hq2).
      destruct (decide (q = p)) as [->|]; [by right|left].
      unfold PGSIZE in *. pose proof (Z_div_mod_eq_full p 4096).
      pose proof (Z_div_mod_eq_full q 4096). lia.
  - exists s, []. split; [done|]. split; [done|]. split; [by destruct s|]. split; [done|].
    intros q. rewrite elem_of_nil. unfold PGSIZE in *. split; [done|]. intros (? & ? & ?). lia.
Qed.

(** freerange puts on the free list exactly the whole pages between
    [vstart] and [vend], each once, changes no memory outside the range, and
    terminates. *)
Lemma freerange_run vstart vend s ps :
  kmem_ok s → free_inv s ps → sym_end ≤ vstart ≤ vend → vend ≤ KERNBASE + PHYSTOP →
  (∀ q, q ∈ ps → q + PGSIZE ≤ vstart ∨ vend ≤ q) →
  ∃ s' qs, freerange vstart vend s = Ret tt s' ∧ free_inv s' (qs ++ ps) ∧ s' = s <| mem := mem s' |> <| freelist := freelist s' |>
    ∧ (∀ x, x < vstart ∨ vend ≤ x → mem s' x = mem s x)
    ∧ ∀ q, q ∈ qs ↔ q mod PGSIZE = 0 ∧ vstart ≤ q ∧ q + PGSIZE ≤ vend.
Proof.
  intros Hl Hinv Hvs Hve Hps. unfold freerange.
  pose proof link_data. pose proof data_end. pose proof end_phystop.
  destruct (PGROUNDUP_spec vstart) as [Ha Hb];
    [unfold KERNLINK, KERNBASE, EXTMEM, PHYSTOP, PGSIZE in *; lia..|].
  assert (KERNBASE + PHYSTOP = (KERNBASE + PHYSTOP) / PGSIZE * PGSIZE) as Htop by reflexivity.
  destruct (freerange_loop_run (Z.to_nat (2 ^ 32 / PGSIZE)) (PGROUNDUP vstart) vend s ps)
    as (s' & qs & Hrun & Hinv' & Hrest & Hmem & Hqs); [done..|lia| |done| | |].
  - pose proof (Z_div_mod_eq_full (PGROUNDUP vstart) PGSIZE). unfold PGSIZE in *. lia.
  - rewrite Z2Nat.id by (vm_compute; discriminate). apply Z.div_le_mono; [done|].
    unfold KERNLINK, KERNBASE, EXTMEM, PHYSTOP, PGSIZE in *; lia.
  - intros q Hq. destruct (Hps q Hq) as [|]; [|unfold PGSIZE; lia].
    unfold PGSIZE in *. lia.
  - exists s', qs. split; [done|]. split; [done|]. split; [done|]. split; [intros x Hx; apply Hmem; lia|]. intros q. rewrite Hqs.
    split; [intros; lia|]. intros (Hm & Hq1 & Hq2). split_and!; [done| |done].
    unfold PGSIZE in *. pose proof (Z_div_mod_eq_full (PGROUNDUP vstart) 4096).
    pose proof (Z_div_mod_eq_full q 4096). lia.
Qed.

(** ** What the allocator promises

    The abstract allocator keeps a set of free and a set of used pages and the
    contents of the used ones.  Its clients allocate, free what they use, and
    write into pages they use. *)

Record pool := mkPool { free : gset Z; used : gset Z; content : Z → Z }.

Inductive client_op := OpAlloc | OpFree (v : Z) | OpWrite (a b : Z).

Definition page_of (a : Z) : Z := a - a mod PGSIZE.

Inductive pool_step (q : pool) : client_op → Z → pool → Prop :=
| step_empty : free q = ∅ → pool_step q OpAlloc 0 q
| step_alloc p c :
    p ∈ free q → p ∉ used q → p ≠ 0 → (∀ x, page_of x ∈ used q → c x = content q x) →
    pool_step q OpAlloc p (mkPool (free q ∖ {[p]}) ({[p]} ∪ used q) c)
| step_free v c :
    v ∈ used q → (∀ x, page_of x ∈ used q ∖ {[v]} → c x = content q x) →
    pool_step q (OpFree v) 0 (mkPool ({[v]} ∪ free q) (used q ∖ {[v]}) c)
| step_write a b :
    page_of a ∈ used q → pool_step q (OpWrite a b) 0 (mkPool (free q) (used q) (upd (content q) a b)).

Definition client_legal (q : pool) (o : client_op) : Prop :=
  match o with
  | OpAlloc => True
  | OpFree v => v ∈ used q
  | OpWrite a _ => page_of a ∈ used q
  end.

(** The kernel's side: the two routines, and a store by the client. *)
Definition client_exec (o : client_op) : K Z :=
  match o with
  | OpAlloc => kalloc
  | OpFree v => kfree v;; mret 0
  | OpWrite a b => modify (λ s, s <| mem ::= λ m, upd m a b |>);; mret 0
  end.

Definition pool_rel (s : kernel) (q : pool) : Prop :=
  kmem_ok s
  ∧ (∃ ps, free_inv s ps ∧ free q = list_to_set ps)
  ∧ free q ## used q
  ∧ (∀ p, p ∈ used q → page_ok p)
  ∧ (∀ x, page_of x ∈ used q → mem s x = content q x).

Lemma page_of_in p x : page_ok p → page_of x = p ↔ p ≤ x < p + PGSIZE.
Proof.
  intros [Hp _]. unfold page_of, PGSIZE in *.
  pose proof (Z_div_mod_eq_full p 4096). pose proof (Z_div_mod_eq_full x 4096).
  pose proof (Z.mod_pos_bound x 4096). lia.
Qed.

Lemma kfreed_mem s v x : page_ok v → page_of x ≠ v → mem (kfreed s v) x = mem s x.
Proof.
  intros Hv Hx. rewrite (page_of_in v x Hv) in Hx. unfold kfreed. sst. unfold PGSIZE in Hx.
  rewrite store32_other, memset_bytes by (unfold PGSIZE; lia). unfold PGSIZE.
  bool_cases; cbn; (done || lia).
Qed.

(** C4: kalloc and kfree implement the abstract allocator.  Every operation a
    client may do returns; kalloc hands out a page that was free and in
    nobody's use, or null exactly when none is left; a freed page becomes free
    again; the contents of pages in use are changed only by their users, whose
    writes in turn do not damage the free list. *)
Theorem kalloc_refines s q o :
  pool_rel s q → client_legal q o →
  ∃ r s' q', client_exec o s = Ret r s' ∧ pool_step q o r q' ∧ pool_rel s' q'.
Proof.
  intros (Hl & (ps & Hinv & Hfree) & Hdis & Hused & Hcont) Hleg.
  destruct o as [|v|a b]; cbn [client_exec client_legal] in *.
  - rewrite (kalloc_run s ps) by done. destruct ps as [|p ps].
    + exists 0, s, q. split_and!; [done|by constructor; rewrite Hfree|].
      split_and!; [done| |done..]. by exists [].
    + apply kalloc_pop in Hinv as (Hp & Hpn & Hinv). eexists p, _, _. split_and!; [done| |].
      * apply (step_alloc q p (mem s)); [set_solver..|by apply page_ok_nz|done].
      * split_and!; [done| |cbn; set_solver| |done].
        -- exists ps. split; [done|]. cbn. rewrite Hfree. apply set_eq. set_solver.
        -- cbn. intros x [->%elem_of_singleton|Hx]%elem_of_union; auto.
  - assert (Hv := Hused v Hleg). rewrite (bind_run _ _ _ _ _ (kfree_run s v Hl Hv)).
    eexists 0, _, _. split_and!; [done| |].
    + apply (step_free q v (mem (kfreed s v))); [done|].
      intros x Hx. rewrite kfreed_mem by set_solver. apply Hcont. set_solver.
    + split_and!; [done| |cbn; set_solver|cbn; set_solver|done].
      exists (v :: ps). split; [apply kfree_push; [done..|set_solver]|]. cbn. by rewrite Hfree.
  - run. eexists 0, _, _. split_and!; [done|by apply (step_write q a b)|].
    split_and!; [done| |done|done|].
    + exists ps. split; [|done]. apply free_inv_ext with (s := s); [done|done|].
      intros p x Hp Hx. sst. rewrite upd_other; [done|]. intros ->.
      destruct Hinv as (_ & _ & Hok). rewrite Forall_forall in Hok.
      apply (page_of_in p a (Hok p Hp)) in Hx. rewrite Hx in Hleg. set_solver.
    + intros x Hx. sst. cbn. unfold upd. case_match; [done|by apply Hcont].
Qed.
End Kalloc.

(** The allocator over two pages in the middle of memory. *)
Definition two_pages : kernel :=
  kernel_zero <| freelist := KERNBASE + 8388608 |>
    <| mem := store32 (λ _, 0) (KERNBASE + 8388608) (KERNBASE + 12582912) |>.

Lemma two_pages_free : free_inv (P := plat0) two_pages [KERNBASE + 8388608; KERNBASE + 12582912].
Proof.
  split; [by vm_compute|]. split.
  - apply NoDup_cons. split; [by apply not_elem_of_cons; split; [|apply not_elem_of_nil]|].
    apply NoDup_singleton.
  - repeat constructor; by vm_compute.
Qed.

Lemma kalloc_refines_witness :
  ∃ r s' q', client_exec (P := plat0) OpAlloc two_pages = Ret r s'
    ∧ pool_step (mkPool {[KERNBASE + 8388608; KERNBASE + 12582912]} ∅ (λ _, 0)) OpAlloc r q'
    ∧ pool_rel (P := plat0) s' q'.
Proof.
  apply kalloc_refines; [|done]. split; [done|]. split.
  - eexists. split; [apply two_pages_free|]. cbn. set_solver.
  - split; [set_solver|]. split; [set_solver|]. intros x Hx. cbn in Hx. set_solver.
Defined.
