(* ===== verification/Sched.v ===== *)
(** Sleep, wakeup and the switch to the scheduler (proc.c: myproc, sched,
    yield, sleep, wakeup1, wakeup; swtch.S), and sleep locks (sleeplock.c).

    A thread that calls [swtch] leaves the CPU: its outcome is [Switch s k]
    with the kernel state [s] the scheduler continues in and the thread's
    continuation [k], which the scheduler later applies to the state in which
    it resumes the thread. *)

From S2P Require Import Prelude Types Spinlock.

(** ** The process table *)

Definition getproc (i : nat) : K proc := p ← gets (λ s, ptable s !! i); deref p.
Definition upd_proc (i : nat) (f : proc → proc) : K unit :=
  modify (λ s, s <| ptable ::= alter f i |>).

(** [myproc()]: the pushcli/popcli around the read of [c->proc] are matched. *)
Definition myproc : K (option nat) := gets curproc.

(** [myproc()->field]: a dereference of the current process. *)
Definition curproc_idx : K nat := p ← myproc; deref p.

(** ** Switching *)

Definition swtch : K unit := λ s, Switch s (λ s', Ret tt s').

(** [mycpu()->ncli] is the number of held locks and interrupts are on only if
    it is zero ([lock_rel] in Spinlock.v); the save and restore of [intena]
    around the switch is per-CPU state the kernel record does not keep. *)
Definition sched : K unit :=
  p ← curproc_idx;
  h ← holding LPtable;
  if negb h then panic "sched ptable.lock" else
  hl ← gets held;
  if negb (length hl =? 1)%nat then panic "sched locks" else
  pr ← getproc p;
  if bool_decide (state pr = RUNNING) then panic "sched running" else
  if bool_decide (hl = []) then panic "sched interruptible" else
  swtch.

Definition yield : K unit :=
  acquire LPtable;;
  p ← curproc_idx;
  upd_proc p (λ p, p <| state := RUNNABLE |>);;
  sched;;
  release LPtable.

Definition sleep (ch : chan) (lk : lockid) : K unit :=
  p ← myproc;
  match p with
  | None => panic "sleep"
  | Some p =>
      when (negb (bool_decide (lk = LPtable))) (acquire LPtable;; release lk);;
      upd_proc p (λ p, p <| p_chan := Some ch |> <| state := SLEEPING |>);;
      sched;;
      upd_proc p (λ p, p <| p_chan := None |>);;
      when (negb (bool_decide (lk = LPtable))) (release LPtable;; acquire lk)
  end.

(** The loop body of [wakeup1]. *)
Definition wake_one (ch : chan) (p : proc) : proc :=
  if (bool_decide (state p = SLEEPING) && bool_decide (p_chan p = Some ch))%bool
  then p <| state := RUNNABLE |> else p.

Definition wakeup1 (ch : chan) : K unit := modify (λ s, s <| ptable ::= fmap (wake_one ch) |>).

Definition wakeup (ch : chan) : K unit :=
  acquire LPtable;;
  wakeup1 ch;;
  release LPtable.

(** ** What they do *)

Lemma getproc_run s i p : ptable s !! i = Some p → getproc i s = Ret p s.
Proof. intros H. unfold getproc. run. by rewrite H. Qed.

Lemma curproc_idx_run s p : curproc s = Some p → curproc_idx s = Ret p s.
Proof. intros H. unfold curproc_idx, myproc. run. by rewrite H. Qed.

Lemma wakeup_run ch s :
  LPtable ∉ held s → wakeup ch s = Ret tt (s <| ptable ::= fmap (wake_one ch) |>).
Proof.
  intros H. unfold wakeup. run_by (by apply acquire_run). run.
  by rewrite release_run by (sst; set_solver).
Qed.

(** Some sleepers have been made runnable and nothing else has happened. *)
Definition woken (ps ps' : list proc) : Prop :=
  Forall2 (λ p p', p' = p ∨ (state p = SLEEPING ∧ p' = p <| state := RUNNABLE |>)) ps ps'.

Lemma woken_refl ps : woken ps ps.
Proof. apply Forall_Forall2_diag, Forall_true. by left. Qed.

Lemma woken_trans ps1 ps2 ps3 : woken ps1 ps2 → woken ps2 ps3 → woken ps1 ps3.
Proof.
  intros H1 H2. eapply Forall2_trans; [|exact H1|exact H2]. intros p1 p2 p3 [->|[Hs ->]] [->|[Hs' ->]]; auto.
Qed.

Lemma woken_wake ch ps : woken ps (wake_one ch <$> ps).
Proof.
  induction ps as [|p ps IH]; cbn; constructor; [|exact IH]. unfold wake_one.
  destruct (bool_decide (state p = SLEEPING)) eqn:E; cbn [andb]; [|by left].
  apply bool_decide_eq_true in E. destruct (bool_decide (p_chan p = Some ch)); auto.
Qed.

Lemma woken_lookup ps ps' i p :
  woken ps ps' → ps !! i = Some p →
  ∃ p', ps' !! i = Some p' ∧ (p' = p ∨ (state p = SLEEPING ∧ p' = p <| state := RUNNABLE |>)).
Proof. intros H Hp. eapply Forall2_lookup_l in H as (p' & ? & ?); eauto. Qed.

Lemma sched_run s p pr :
  curproc s = Some p → ptable s !! p = Some pr → state pr ≠ RUNNING → held s = [LPtable] →
  sched s = Switch s (λ s', Ret tt s').
Proof.
  intros Hc Hp Hs Hh. unfold sched. run_by (by apply curproc_idx_run). unfold holding. run.
  rewrite bool_decide_true by (rewrite Hh; set_solver). cbn [negb]. run.
  rewrite Hh. cbn [length Nat.eqb negb].
  run_by (by apply getproc_run). rewrite bool_decide_false by done.
  by rewrite bool_decide_false.
Qed.

(** The state in which [sleep] leaves the CPU: [p] sleeps on [ch] and the only
    lock held is [ptable.lock]. *)
Definition asleep (s : kernel) (p : nat) (ch : chan) : kernel :=
  s <| held := [LPtable] |>
    <| ptable ::= alter (λ p, p <| p_chan := Some ch |> <| state := SLEEPING |>) p |>.

(** [sleep] with the condition lock [lk] held (and nothing else): it hands over
    to the scheduler with [ptable.lock] in place of [lk]; resumed with
    [ptable.lock] held it clears [p_chan] and returns holding [lk] again. *)
Lemma sleep_run ch lk s p pr :
  curproc s = Some p → ptable s !! p = Some pr → held s = [lk] →
  ∃ k, sleep ch lk s = Switch (asleep s p ch) k ∧
       (∀ s', held s' = [LPtable] →
          k s' = Ret tt (s' <| ptable ::= alter (λ p, p <| p_chan := None |>) p |>
                            <| held := [lk] |>)).
Proof.
  intros Hc Hp Hh. unfold sleep. unfold myproc at 1. run. rewrite Hc.
  assert (Hlook : ∀ h, ptable (s <| held := h |>
      <| ptable ::= alter (λ p, p <| p_chan := Some ch |> <| state := SLEEPING |>) p |>) !! p
      = Some (pr <| p_chan := Some ch |> <| state := SLEEPING |>)).
  { intros h. sst. rewrite list_lookup_alter, decide_True by done. by rewrite Hp. }
  assert (Hin : (when (negb (bool_decide (lk = LPtable))) (acquire LPtable;; release lk)) s
                = Ret tt (s <| held := [LPtable] |>)).
  { case_bool_decide as Hlk; cbn [negb when].
    - subst lk. unfold mret, M_ret. f_equal. destruct s; cbn in *. by subst.
    - unfold when. run_by (apply acquire_run; rewrite Hh; set_solver).
      rewrite release_run by (sst; rewrite Hh; set_solver). f_equal.
      unfold set, set_held. cbn. rewrite Hh. cbn.
      rewrite decide_False by congruence. by rewrite decide_True. }
  rewrite (bind_run _ _ _ _ _ Hin). cbv beta. run.
  eexists. split.
  { erewrite bind_switch; [reflexivity|].
    eapply sched_run; [exact Hc|apply Hlook| |reflexivity]. done. }
  intros s' Hh'. cbn [obind]. run.
  case_bool_decide as Hlk; cbn [negb when].
  - subst lk. unfold mret, M_ret. f_equal. destruct s'; cbn in *. by subst.
  - unfold when. run_by (apply release_run; sst; rewrite Hh'; set_solver).
    rewrite acquire_run by (sst; rewrite Hh'; cbn; set_solver). f_equal.
    unfold set, set_held, set_ptable. cbn. rewrite Hh'. cbn. by rewrite decide_True.
Qed.


Definition one_proc : kernel :=
  kernel_zero <| curproc := Some 0%nat |> <| held := [LLog] |>
    <| ptable ::= alter (λ p, p <| state := RUNNING |> <| pid := 1 |>) 0%nat |>.


(** Wakeup makes RUNNABLE exactly the processes SLEEPING on the channel and
    changes nothing else in the kernel. *)
Theorem wakeup_exact ch s :
  LPtable ∉ held s →
  ∃ s', wakeup ch s = Ret tt s' ∧ s' = s <| ptable := ptable s' |>
  ∧ length (ptable s') = length (ptable s)
  ∧ ∀ i p p', ptable s !! i = Some p → ptable s' !! i = Some p' →
      p' = p <| state := state p' |>
      ∧ state p' = (if decide (state p = SLEEPING ∧ p_chan p = Some ch) then RUNNABLE else state p).
Proof.
  intros Hn. rewrite wakeup_run by done. eexists. split; [done|]. split; [by destruct s|].
  sst. split; [by rewrite length_fmap|]. intros i p p' Hp Hp'.
  rewrite list_lookup_fmap, Hp in Hp'. cbn in Hp'. simplify_eq.
  unfold wake_one. repeat case_bool_decide; case_decide; destruct p; cbn in *; naive_solver.
Qed.

Lemma wakeup_exact_witness : ∃ s', wakeup ChTicks kernel_zero = Ret tt s'.
Proof.
  destruct (wakeup_exact ChTicks kernel_zero ltac:(apply not_elem_of_nil)) as (s' & H & _).
  exists s'. exact H.
Defined.

(** ** Sleep locks *)

(** The sleep locks of the kernel: one per buffer and one per inode. *)
Inductive slid := SLBuf (i : nat) | SLInode (i : nat).

(** The spin lock [lk->lk] inside a sleep lock, and its address as a channel. *)
Definition sl_lk (l : slid) : lockid := match l with SLBuf i => LBuf i | SLInode i => LInode i end.
Definition sl_chan (l : slid) : chan :=
  match l with SLBuf i => ChBufLock i | SLInode i => ChInodeLock i end.

Definition sl_get (l : slid) (s : kernel) : option sleeplock :=
  match l with
  | SLBuf i => b_lock <$> bcache s !! i
  | SLInode i => i_lock <$> icache s !! i
  end.
Definition sl_set (l : slid) (v : sleeplock) (s : kernel) : kernel :=
  match l with
  | SLBuf i => s <| bcache ::= alter (λ b, b <| b_lock := v |>) i |>
  | SLInode i => s <| icache ::= alter (λ n, n <| i_lock := v |>) i |>
  end.

Definition read_sl (l : slid) : K sleeplock := v ← gets (sl_get l); deref v.

Definition initsleeplock (l : slid) : K unit := modify (sl_set l (mkSleeplock false 0)).

Section Sleeplock.
Context {P : Platform}.

(** [while (lk->locked) sleep(lk, &lk->lk)]. *)
Fixpoint acquiresleep_wait (n : nat) (l : slid) : K unit :=
  v ← read_sl l;
  if sl_locked v then
    match n with
    | O => nofuel
    | S n' => sleep (sl_chan l) (sl_lk l);; acquiresleep_wait n' l
    end
  else mret tt.

Definition acquiresleep (l : slid) : K unit :=
  acquire (sl_lk l);;
  acquiresleep_wait fuel l;;
  p ← curproc_idx;
  pr ← getproc p;
  modify (sl_set l (mkSleeplock true (pid pr)));;
  release (sl_lk l).

Definition releasesleep (l : slid) : K unit :=
  acquire (sl_lk l);;
  modify (sl_set l (mkSleeplock false 0));;
  wakeup (sl_chan l);;
  release (sl_lk l).

Definition holdingsleep (l : slid) : K bool :=
  acquire (sl_lk l);;
  v ← read_sl l;
  release (sl_lk l);;
  mret (sl_locked v).

Lemma sl_lk_neq l : sl_lk l ≠ LPtable.
Proof. by destruct l. Qed.

Lemma sl_set_held l v s : held (sl_set l v s) = held s.
Proof. by destruct l. Qed.

Lemma sl_set_get l v s : is_Some (sl_get l s) → sl_get l (sl_set l v s) = Some v.
Proof.
  destruct l as [i|i]; cbn; intros [x Hx]; rewrite list_lookup_alter, decide_True by done;
    by apply fmap_Some in Hx as (? & -> & _).
Qed.

Lemma held_cons_remove lk s : s <| held ::= cons lk |> <| held ::= remove_lock lk |> = s.
Proof. unfold set, set_held. destruct s; cbn. f_equal. by rewrite decide_True. Qed.

Lemma sl_set_held_comm l v f s : sl_set l v (s <| held ::= f |>) = (sl_set l v s) <| held ::= f |>.
Proof. by destruct l. Qed.

(** A free sleep lock is taken at once. *)
Lemma acquiresleep_run l s v p pr :
  sl_get l s = Some v → sl_locked v = false → sl_lk l ∉ held s →
  curproc s = Some p → ptable s !! p = Some pr →
  acquiresleep l s = Ret tt (sl_set l (mkSleeplock true (pid pr)) s).
Proof.
  intros Hg Hf Hn Hc Hp. unfold acquiresleep. run_by (by apply acquire_run).
  assert (Hw : acquiresleep_wait fuel l (s <| held ::= cons (sl_lk l) |>)
               = Ret tt (s <| held ::= cons (sl_lk l) |>)).
  { destruct fuel; cbn [acquiresleep_wait]; unfold read_sl;
      (run_by (run; replace (sl_get l _) with (Some v) by (by destruct l); reflexivity));
      by rewrite Hf. }
  rewrite (bind_run _ _ _ _ _ Hw). run_by (by apply curproc_idx_run).
  run_by (by apply getproc_run). run. rewrite sl_set_held_comm.
  rewrite release_run by (sst; rewrite sl_set_held; set_solver). by rewrite held_cons_remove.
Qed.

Lemma releasesleep_run l s :
  sl_lk l ∉ held s → LPtable ∉ held s →
  releasesleep l s = Ret tt ((sl_set l (mkSleeplock false 0) s)
                               <| ptable ::= fmap (wake_one (sl_chan l)) |>).
Proof.
  intros Hn Hpt. unfold releasesleep. run_by (by apply acquire_run). run.
  rewrite sl_set_held_comm. pose proof (sl_lk_neq l).
  run_by (apply wakeup_run; sst; rewrite sl_set_held; set_solver).
  rewrite release_run by (sst; rewrite sl_set_held; set_solver). f_equal.
  exact (held_cons_remove (sl_lk l) ((sl_set l (mkSleeplock false 0) s)
           <| ptable ::= fmap (wake_one (sl_chan l)) |>)).
Qed.

Lemma holdingsleep_run l s v :
  sl_get l s = Some v → sl_lk l ∉ held s → holdingsleep l s = Ret (sl_locked v) s.
Proof.
  intros Hg Hn. unfold holdingsleep. run_by (by apply acquire_run).
  unfold read_sl. run_by (run; replace (sl_get l _) with (Some v) by (by destruct l); reflexivity).
  run_by (apply release_run; sst; set_solver). by rewrite held_cons_remove.
Qed.

(** How the scheduler resumes the thread of process [p]: with [ptable.lock]
    held, [p] current again and its table slot and sleep lock still there. *)
Definition resumed (l : slid) (p : nat) (s s' : kernel) : Prop :=
  held s' = [LPtable] ∧ curproc s' = Some p ∧ is_Some (ptable s' !! p)
  ∧ is_Some (sl_get l s').

Lemma sleep_post l p s (Q : unit → kernel → Prop) :
  curproc s = Some p → is_Some (ptable s !! p) → held s = [sl_lk l] →
  (∀ s', held s' = [sl_lk l] → curproc s' = Some p → is_Some (ptable s' !! p) →
         is_Some (sl_get l s') → Q tt s') →
  post (resumed l p) Q (sleep (sl_chan l) (sl_lk l) s).
Proof.
  intros Hc [pr Hp] Hh HQ. destruct (sleep_run (sl_chan l) (sl_lk l) s p pr Hc Hp Hh) as (k & -> & Hk).
  cbn. intros s' (Hh' & Hc' & [pr' Hp'] & Hs'). rewrite Hk by done. cbn. apply HQ.
  - done.
  - done.
  - sst. rewrite list_lookup_alter, decide_True, Hp' by done. cbn. by eexists.
  - by destruct l.
Qed.

Lemma acquiresleep_wait_post n l p s (Q : unit → kernel → Prop) :
  curproc s = Some p → is_Some (ptable s !! p) → held s = [sl_lk l] → is_Some (sl_get l s) →
  (∀ s' v, held s' = [sl_lk l] → curproc s' = Some p → is_Some (ptable s' !! p) →
           sl_get l s' = Some v → sl_locked v = false → Q tt s') →
  post (resumed l p) Q (acquiresleep_wait n l s).
Proof.
  revert s. induction n as [|n IH]; intros s Hc Hp Hh [v Hv] HQ; cbn [acquiresleep_wait];
    (erewrite bind_run by (unfold read_sl; run; rewrite Hv; reflexivity));
    (destruct (sl_locked v) eqn:E; [|cbn; by eapply HQ]).
  - done.
  - apply post_bind. apply sleep_post; [done..|].
    intros s' Hh' Hc' Hp' Hs'. by apply IH.
Qed.

(** Mutual exclusion of sleep locks.  However often the caller of
    acquiresleep is put to sleep and resumed, it returns only from a state in
    which the lock is free: it then marks the lock taken with the caller's pid
    and has released the inner spin lock. *)
Theorem acquiresleep_excludes l p s :
  curproc s = Some p → is_Some (ptable s !! p) → held s = [] → is_Some (sl_get l s) →
  post (resumed l p)
    (λ _ s', held s' = [] ∧ ∃ s0 v pr, sl_get l s0 = Some v ∧ sl_locked v = false
       ∧ ptable s0 !! p = Some pr ∧ s' = sl_set l (mkSleeplock true (pid pr)) (s0 <| held := [] |>))
    (acquiresleep l s).
Proof.
  intros Hc Hp Hh Hs. unfold acquiresleep.
  erewrite bind_run by (apply acquire_run; rewrite Hh; set_solver).
  apply post_bind. apply acquiresleep_wait_post with (p := p); [done|done|by sst; rewrite Hh|by destruct l|].
  intros s' v Hh' Hc' [pr Hp'] Hv Hf. erewrite bind_run by (by apply curproc_idx_run).
  erewrite bind_run by (by apply getproc_run). run.
  rewrite release_run by (rewrite sl_set_held, Hh'; set_solver). cbn [post].
  split; [sst; rewrite sl_set_held, Hh'; cbn; by rewrite decide_True|].
  exists s', v, pr. split_and!; [done..|].
  destruct l; unfold set, set_held; cbn; rewrite Hh'; cbn; by rewrite decide_True.
Qed.

End Sleeplock.

Lemma acquiresleep_excludes_witness :
  post (resumed (SLInode 2) 0)
    (λ _ s', held s' = [] ∧ ∃ s0 v pr, sl_get (SLInode 2) s0 = Some v ∧ sl_locked v = false
       ∧ ptable s0 !! 0%nat = Some pr
       ∧ s' = sl_set (SLInode 2) (mkSleeplock true (pid pr)) (s0 <| held := [] |>))
    (acquiresleep (P := plat0) (SLInode 2) (one_proc <| held := [] |>)).
Proof. apply acquiresleep_excludes; vm_compute; eauto. Defined.
