(* ===== verification/Console.v ===== *)
(** The console: output to the serial port and the CGA screen (uart.c and
    cgaputc, consputc, cprintf of console.c), the input ring filled by
    consoleintr, the keyboard driver (kbd.c, kbd.h), and the debugging output
    of procdump (proc.c) with getcallerpcs (spinlock.c).

    A device register that is only polled has no state: reading the serial
    port's status until the transmitter is ready leaves nothing behind. *)

From S2P Require Import Prelude Types Strings Spinlock Printf Kalloc Sched.

Definition upd_cons (f : console → console) : K unit := modify (λ s, s <| kcons ::= f |>).

(** ** Output *)

(** [outb(COM1+0, c)], when there is a serial port. *)
Definition uartputc (c : Z) : K unit :=
  u ← gets (λ s, has_uart (kcons s));
  if negb u then mret tt else upd_cons (λ k, k <| uart_out ::= λ o, o ++ [u8 c] |>).

Definition BACKSPACE : Z := 256.
Definition CRTSIZE : Z := 25 * 80.

(** [crt[pos] = v]. *)
Definition crt_put (pos v : Z) : K unit :=
  l ← gets (λ s, length (crt (kcons s)));
  if ((0 <=? pos) && (pos <? Z.of_nat l))%bool
  then upd_cons (λ k, k <| crt ::= <[Z.to_nat pos := v]> |>) else fault.

(** [memmove(crt, crt+80, sizeof(crt[0])*23*80)]. *)
Definition crt_scroll (l : list Z) : list Z := take (23 * 80) (drop 80 l) ++ drop (23 * 80) l.
(** [memset(crt+pos, 0, sizeof(crt[0])*(24*80 - pos))] for [pos <= 24*80]. *)
Definition crt_clear (pos : nat) (l : list Z) : list Z :=
  take pos l ++ replicate (24 * 80 - pos) 0 ++ drop (24 * 80) l.

(** The second half of cgaputc: scroll, set the cursor, show it. *)
Definition cga_finish (pos : Z) : K unit :=
  if ((pos <? 0) || (25 * 80 <? pos))%bool then panic "pos under/overflow" else
  pos ← (if 24 <=? pos / 80 then
           upd_cons (λ k, k <| crt ::= crt_scroll |>);;
           upd_cons (λ k, k <| crt ::= crt_clear (Z.to_nat (pos - 80)) |>);;
           mret (pos - 80)
         else mret pos);
  upd_cons (λ k, k <| crt_pos := u8 (Z.shiftr pos 8) * 2 ^ 8 + u8 pos |>);;
  crt_put pos (Z.lor 32 1792).

Definition cgaputc (c : Z) : K unit :=
  pos ← gets (λ s, crt_pos (kcons s));
  pos ← (if c =? 10 then mret (pos + (80 - pos mod 80))
         else if c =? BACKSPACE then mret (if 0 <? pos then pos - 1 else pos)
         else (crt_put pos (Z.lor (Z.land c 255) 1792);; mret (pos + 1)));
  cga_finish pos.

(** After a panic on another CPU consputc spins for ever. *)
Definition consputc (c : Z) : K unit :=
  p ← gets (λ s, cs_panicked (kcons s));
  if (p : bool) then nofuel else
  (if c =? BACKSPACE then uartputc 8;; uartputc 32;; uartputc 8 else uartputc c);;
  cgaputc c.

Definition cprintf (fmt : option (list Z)) (args : list arg) : K unit :=
  locking ← gets (λ s, cs_locking (kcons s));
  when locking (acquire LCons);;
  match fmt with
  | None => panic "null fmt"
  | Some fmt =>
      out ← deref (kformat fmt args);
      for_each out consputc;;
      when locking (release LCons)
  end.

(** ** Input *)

Definition INPUT_BUF : Z := 128.

(** [input.buf[i % INPUT_BUF]], a [char]. *)
Definition in_at (k : console) (i : Z) : Z := default 0 (in_buf k !! Z.to_nat (i mod INPUT_BUF)).

(** The loop of ^U. *)
Fixpoint kill_line (n : nat) : K unit :=
  k ← gets kcons;
  if (negb (in_e k =? in_w k) && negb (in_at k (usub (in_e k) 1) =? 10))%bool then
    match n with
    | O => nofuel
    | S n' =>
        upd_cons (λ k, k <| in_e ::= λ e, usub e 1 |>);;
        consputc BACKSPACE;;
        kill_line n'
    end
  else mret tt.

Definition CTRL (x : Z) : Z := x - 64.

(** [input.buf[input.e++ % INPUT_BUF] = c]. *)
Definition stored (c : Z) (k : console) : console :=
  k <| in_buf ::= <[Z.to_nat (in_e k mod INPUT_BUF) := i8 c]> |> <| in_e ::= λ e, uadd e 1 |>.

(** The default case for an accepted character. *)
Definition cons_store (c : Z) : K unit :=
  upd_cons (stored c);;
  consputc c;;
  k ← gets kcons;
  when ((c =? 10) || (c =? CTRL 68) || (in_e k =? uadd (in_r k) INPUT_BUF))%bool
    (upd_cons (λ k, k <| in_w := in_e k |>);; wakeup ChInput).

(** One round of the loop of consoleintr on the character [c]; the result says
    whether to dump the process table later. *)
Definition cons_char (c : Z) : K bool :=
  if c =? CTRL 80 then mret true
  else if c =? CTRL 85 then kill_line (Z.to_nat INPUT_BUF);; mret false
  else if ((c =? CTRL 72) || (c =? 127))%bool then
    k ← gets kcons;
    when (negb (in_e k =? in_w k))
      (upd_cons (λ k, k <| in_e ::= λ e, usub e 1 |>);; consputc BACKSPACE);;
    mret false
  else
    k ← gets kcons;
    when (negb (c =? 0) && (usub (in_e k) (in_r k) <? INPUT_BUF))%bool
      (cons_store (if c =? 13 then 10 else c));;
    mret false.

(** [while((c = getc()) >= 0)]: at most [n] characters. *)
Fixpoint cons_loop (n : nat) (getc : K Z) (dump : bool) : K bool :=
  c ← getc;
  if 0 <=? c then
    match n with
    | O => nofuel
    | S n' => d ← cons_char c; cons_loop n' getc (dump || d)
    end
  else mret dump.

(** ** The process listing *)

(** spinlock.c: the return addresses of the frames above [v], ten at most and
    padded with zeros. *)
Fixpoint callerpcs_loop (n : nat) (m : memory) (ebp : Z) : list Z :=
  match n with
  | O => []
  | S n' =>
      if ((ebp =? 0) || (ebp <? KERNBASE) || (ebp =? 2 ^ 32 - 1))%bool then replicate n 0
      else load32 m (ebp + 4) :: callerpcs_loop n' m (load32 m ebp)
  end.
Definition getcallerpcs (m : memory) (v : Z) : list Z := callerpcs_loop 10 m (usub v 8).

Definition state_name (st : procstate) : string :=
  match st with
  | UNUSED => "unused" | EMBRYO => "embryo" | SLEEPING => "sleep "
  | RUNNABLE => "runble" | RUNNING => "run   " | ZOMBIE => "zombie"
  end.

(** The characters of [p->name] up to its NUL. *)
Fixpoint c_string (l : list Z) : list Z :=
  match l with
  | [] => []
  | c :: l' => if c =? 0 then [] else c :: c_string l'
  end.

Definition cprint (fmt : string) (args : list arg) : K unit := cprintf (Some (chars fmt)) args.

(** [for(i=0; i<10 && pc[i] != 0; i++) cprintf(" %p", pc[i])]. *)
Fixpoint print_pcs (pcs : list Z) : K unit :=
  match pcs with
  | [] => mret tt
  | pc :: pcs' => if pc =? 0 then mret tt else cprint " %p" [AInt pc];; print_pcs pcs'
  end.

(** The line procdump prints for a process, [ppid] in the sixth column. *)
Definition procdump_line (now : Z) (p : proc) (ppid : Z) : K unit :=
  let elapsed := usub now (start_ticks p) in
  cprint "%d	%s	%s	%d	%d	%d	%d.%d seconds	%d bytes	"
    [AInt (pid p); AStr (Some (chars (state_name (state p)))); AStr (Some (c_string (name p)));
     AInt (uid p); AInt (gid p); AInt ppid; AInt (elapsed / 1000); AInt (elapsed mod 1000);
     AInt (sz p)].

Definition procdump1 (i : nat) : K unit :=
  p ← getproc i;
  if bool_decide (state p = UNUSED) then mret tt else
  now ← gets ticks;
  (if pid p <=? 1 then procdump_line now p (pid p)
   else q ← deref (parent p); pp ← getproc q; procdump_line now p (pid pp));;
  when (bool_decide (state p = SLEEPING))
    (m ← gets mem; print_pcs (getcallerpcs m (uadd (c_ebp (p_context p)) 8)));;
  cprintf (Some [10]) [].

Definition procdump : K unit :=
  cprintf (Some ([10] ++ chars "PID	State	Name	UID 	GID 	PPID 	Elapsed		Size		 PCs" ++ [10])) [];;
  for_each (seq 0 NPROC) procdump1.

Definition consoleintr (n : nat) (getc : K Z) : K unit :=
  acquire LCons;;
  dump ← cons_loop n getc false;
  release LCons;;
  when dump procdump.

(** ** Devices that feed it *)

Definition uartgetc : K Z :=
  k ← gets kcons;
  if negb (has_uart k) then mret (-1) else
  match uart_in k with
  | [] => mret (-1)
  | c :: l => upd_cons (λ k, k <| uart_in := l |>);; mret c
  end.

(** One round per byte that waits at the port. *)
Definition uartintr : K unit :=
  n ← gets (λ s, length (uart_in (kcons s)));
  consoleintr n uartgetc.

(** kbd.h *)
Definition SHIFT : Z := 1.
Definition CTL : Z := 2.
Definition ALT : Z := 4.
Definition CAPSLOCK : Z := 8.
Definition NUMLOCK : Z := 16.
Definition SCROLLLOCK : Z := 32.
Definition E0ESC : Z := 64.

(** A 256-entry table from its positional and its designated initialisers. *)
Definition table (l : list Z) (des : list (Z * Z)) (i : Z) : Z :=
  match list_find (λ d, d.1 = i) des with
  | Some (_, (_, v)) => v
  | None => default 0 (l !! Z.to_nat i)
  end.

Definition shiftcode : Z → Z :=
  table [] [(29, CTL); (42, SHIFT); (54, SHIFT); (56, ALT); (157, CTL); (184, ALT)].
Definition togglecode : Z → Z := table [] [(58, CAPSLOCK); (69, NUMLOCK); (70, SCROLLLOCK)].

Definition special_keys : list (Z * Z) :=
  [(200, 226); (208, 227); (201, 230); (209, 231); (203, 228); (205, 229); (151, 224);
   (207, 225); (210, 232); (211, 233)].

(** Rows of the maps as strings, [NO] as zero. *)
Definition normalmap : Z → Z :=
  table
    ([0; 27] ++ chars "1234567890-=" ++ [8; 9] ++ chars "qwertyuiop[]" ++ [10; 0]
     ++ chars "asdfghjkl;'`" ++ [0; 92] ++ chars "zxcvbnm,./" ++ [0] ++ chars "*" ++ [0; 32]
     ++ replicate 13 0 ++ chars "789-456+1230.")
    ([(156, 10); (181, 47)] ++ special_keys).
Definition shiftmap : Z → Z :=
  table
    ([0; 27] ++ chars "!@#$%^&*()_+" ++ [8; 9] ++ chars "QWERTYUIOP{}" ++ [10; 0]
     ++ chars "ASDFGHJKL:" ++ [34] ++ chars "~" ++ [0] ++ chars "|ZXCVBNM<>?" ++ [0] ++ chars "*"
     ++ [0; 32] ++ replicate 13 0 ++ chars "789-456+1230.")
    ([(156, 10); (181, 47)] ++ special_keys).
Definition ctlmap : Z → Z :=
  table
    (replicate 16 0 ++ (CTRL <$> chars "QWERTYUIOP") ++ [0; 0; 13; 0]
     ++ (CTRL <$> chars "ASDFGHJKL") ++ [0; 0; 0; 0] ++ (u8 <$> (CTRL <$> [92; 90; 88; 67; 86; 66; 78; 77]))
     ++ [0; 0] ++ [u8 (CTRL 47)])
    ([(156, 13); (181, u8 (CTRL 47))] ++ special_keys).

Definition charcode (i : Z) : Z → Z :=
  if i =? 0 then normalmap else if i =? 1 then shiftmap else ctlmap.

(** kbdgetc on a scan code: the character (0 for none) and the new [shift]. *)
Definition kbd_code (shift data : Z) : Z * Z :=
  if data =? 224 then (0, Z.lor shift E0ESC)
  else if negb (Z.land data 128 =? 0) then
    let data := if negb (Z.land shift E0ESC =? 0) then data else Z.land data 127 in
    (0, Z.land shift (2 ^ 32 - 1 - Z.lor (shiftcode data) E0ESC))
  else
    let '(data, shift) :=
      if negb (Z.land shift E0ESC =? 0)
      then (Z.lor data 128, Z.land shift (2 ^ 32 - 1 - E0ESC)) else (data, shift) in
    let shift := Z.lor shift (shiftcode data) in
    let shift := Z.lxor shift (togglecode data) in
    let c := charcode (Z.land shift (Z.lor CTL SHIFT)) data in
    let c :=
      if negb (Z.land shift CAPSLOCK =? 0) then
        if ((97 <=? c) && (c <=? 122))%bool then c + (65 - 97)
        else if ((65 <=? c) && (c <=? 90))%bool then c + (97 - 65) else c
      else c in
    (c, shift).

Definition kbdgetc : K Z :=
  k ← gets kcons;
  match kb_in k with
  | [] => mret (-1)
  | data :: l =>
      let '(c, sh) := kbd_code (kb_shift k) data in
      upd_cons (λ k, k <| kb_in := l |> <| kb_shift := sh |>);;
      mret c
  end.

Definition kbdintr : K unit :=
  n ← gets (λ s, length (kb_in (kcons s)));
  consoleintr n kbdgetc.

(** ** Output is safe and complete *)

Definition cons_ok (k : console) : Prop :=
  cs_panicked k = false ∧ length (crt k) = 2000%nat ∧ 0 ≤ crt_pos k < 24 * 80.

(** Only the output devices differ. *)
Definition out_only (k k' : console) : Prop :=
  k' = k <| uart_out := uart_out k' |> <| crt := crt k' |> <| crt_pos := crt_pos k' |>.

Lemma out_only_refl k : out_only k k.
Proof. by destruct k. Qed.

Lemma out_only_trans k1 k2 k3 : out_only k1 k2 → out_only k2 k3 → out_only k1 k3.
Proof. unfold out_only. intros -> ->. by destruct k1. Qed.

Lemma set_kcons_kcons f g (s : kernel) :
  s <| kcons ::= f |> <| kcons ::= g |> = s <| kcons ::= λ k, g (f k) |>.
Proof. done. Qed.

Lemma set_kcons_ext f g (s : kernel) :
  f (kcons s) = g (kcons s) → s <| kcons ::= f |> = s <| kcons ::= g |>.
Proof. unfold set, set_kcons. cbn. by intros ->. Qed.

Lemma set_kcons_id (s : kernel) : s <| kcons := kcons s |> = s.
Proof. by destruct s. Qed.

Lemma crt_put_run s pos v :
  0 ≤ pos < Z.of_nat (length (crt (kcons s))) →
  crt_put pos v s = Ret tt (s <| kcons ::= λ k, k <| crt ::= <[Z.to_nat pos := v]> |> |>).
Proof. intros H. unfold crt_put. run. bool_cases; cbn; (done || lia). Qed.

Lemma length_crt_scroll l : length l = 2000%nat → length (crt_scroll l) = 2000%nat.
Proof. intros H. unfold crt_scroll. rewrite length_app, length_take, !length_drop. lia. Qed.

Lemma length_crt_clear p l :
  length l = 2000%nat → (p ≤ 24 * 80)%nat → length (crt_clear p l) = 2000%nat.
Proof.
  intros H Hp. unfold crt_clear.
  rewrite !length_app, length_take, length_replicate, length_drop. lia.
Qed.

Lemma crt_pos_bytes q : 0 ≤ q < 24 * 80 → u8 (Z.shiftr q 8) * 2 ^ 8 + u8 q = q.
Proof.
  intros Hq. unfold u8. rewrite Z.shiftr_div_pow2, (Z.mod_small (q / 2 ^ 8)) by
    (split; [apply Z.div_pos; lia|apply Z.div_lt_upper_bound; lia] || lia).
  pose proof (Z_div_mod_eq_full q (2 ^ 8)). lia.
Qed.

Lemma cga_finish_run pos s :
  cs_panicked (kcons s) = false → length (crt (kcons s)) = 2000%nat → 0 ≤ pos ≤ 24 * 80 →
  ∃ k', cga_finish pos s = Ret tt (s <| kcons := k' |>) ∧ cons_ok k'
        ∧ out_only (kcons s) k' ∧ uart_out k' = uart_out (kcons s).
Proof.
  intros Hp Hl Hpos. unfold cga_finish.
  pose proof (Z_div_mod_eq_full pos 80). pose proof (Z.mod_pos_bound pos 80 ltac:(lia)).
  destruct (Z.ltb_spec pos 0); [lia|]. destruct (Z.ltb_spec (25 * 80) pos); [lia|]. cbn [orb].
  destruct (Z.leb_spec 24 (pos / 80)) as [H24|H24].
  - run_by (run; run; reflexivity). unfold upd_cons. run.
    assert (Hlen : length (crt_clear (Z.to_nat (pos - 80)) (crt_scroll (crt (kcons s)))) = 2000%nat)
      by (apply length_crt_clear; [by apply length_crt_scroll|lia]).
    rewrite crt_put_run by (sst; rewrite Hlen; lia). rewrite crt_pos_bytes by lia.
    eexists. split; [reflexivity|]. split_and!; [|unfold out_only; sst; by destruct (kcons s)|done].
    split_and!; [exact Hp|sst; by rewrite length_insert|sst; lia|sst; lia].
  - run. unfold upd_cons. run. rewrite crt_put_run by (sst; lia). rewrite crt_pos_bytes by lia.
    eexists. split; [reflexivity|]. split_and!; [|unfold out_only; sst; by destruct (kcons s)|done].
    split_and!; [exact Hp|sst; by rewrite length_insert|sst; lia|sst; lia].
Qed.

(** The cursor never leaves the first 24 rows and the text memory is never
    written outside its 25 rows. *)
Lemma cgaputc_run c s :
  cons_ok (kcons s) →
  ∃ k', cgaputc c s = Ret tt (s <| kcons := k' |>) ∧ cons_ok k'
        ∧ out_only (kcons s) k' ∧ uart_out k' = uart_out (kcons s).
Proof.
  intros (Hp & Hl & Hpos). unfold cgaputc. run.
  pose proof (Z.mod_pos_bound (crt_pos (kcons s)) 80 ltac:(lia)).
  pose proof (Z_div_mod_eq_full (crt_pos (kcons s)) 80).
  destruct (c =? 10); [|destruct (c =? BACKSPACE)].
  - run. apply cga_finish_run; [done..|lia].
  - run. apply cga_finish_run; [done..|]. destruct (Z.ltb_spec 0 (crt_pos (kcons s))); lia.
  - run_by (erewrite bind_run by (apply crt_put_run; lia); reflexivity).
    match goal with |- context [cga_finish ?p ?s1] =>
      destruct (cga_finish_run p s1) as (k' & Hr & Hok & Ho & Hu) end.
    { done. } { sst. by rewrite length_insert. } { lia. }
    exists k'. split; [exact Hr|]. split; [done|]. split; [|done].
    eapply out_only_trans; [|exact Ho]. unfold out_only. sst. by destruct (kcons s).
Qed.

(** What consputc sends to the serial line. *)
Definition serial (c : Z) : list Z := if c =? BACKSPACE then [8; 32; 8] else [u8 c].
Definition wire (k : console) (l : list Z) : list Z := if has_uart k then l ≫= serial else [].

Lemma uartputc_run c s :
  uartputc c s
  = Ret tt (s <| kcons ::= λ k, k <| uart_out ::= λ o, o ++ (if has_uart k then [u8 c] else []) |> |>).
Proof.
  unfold uartputc. run. destruct (has_uart (kcons s)) eqn:E; cbn [negb].
  - unfold upd_cons, modify. f_equal. unfold set, set_kcons. cbn. by rewrite E.
  - unfold mret, M_ret. f_equal. rewrite <- (set_kcons_id s) at 1. apply set_kcons_ext.
    destruct (kcons s); unfold set, set_uart_out; cbn in *. subst. by rewrite app_nil_r.
Qed.

Lemma consputc_run c s :
  cons_ok (kcons s) →
  ∃ k', consputc c s = Ret tt (s <| kcons := k' |>) ∧ cons_ok k' ∧ out_only (kcons s) k'
        ∧ uart_out k' = uart_out (kcons s) ++ wire (kcons s) [c].
Proof.
  intros Hok. unfold consputc. run. rewrite (proj1 Hok).
  assert (Hs : (if c =? BACKSPACE then uartputc 8;; uartputc 32;; uartputc 8 else uartputc c) s
    = Ret tt (s <| kcons ::= λ k, k <| uart_out ::= λ o, o ++ wire (kcons s) [c] |> |>)).
  { unfold wire, serial. cbn [mbind list_bind]. destruct (c =? BACKSPACE).
    - rewrite (bind_run _ _ _ _ _ (uartputc_run _ _)). cbv beta.
      rewrite (bind_run _ _ _ _ _ (uartputc_run _ _)). rewrite uartputc_run, !set_kcons_kcons. f_equal.
      apply set_kcons_ext. destruct (kcons s) as [? ? ? ? ? ? []]; unfold set, set_uart_out; cbn;
        by rewrite <- ?app_assoc, ?app_nil_r.
    - by rewrite uartputc_run. }
  rewrite (bind_run _ _ _ _ _ Hs). cbv beta.
  destruct (cgaputc_run c (s <| kcons ::= λ k, k <| uart_out ::= λ o, o ++ wire (kcons s) [c] |> |>))
    as (k' & Hr & Hok' & Ho & Hu); [done|].
  exists k'. split; [by rewrite Hr|]. split; [done|]. split; [|done].
  eapply out_only_trans; [|exact Ho]. unfold out_only. sst. by destruct (kcons s).
Qed.

Lemma wire_out k k' l : out_only k k' → wire k' l = wire k l.
Proof. unfold out_only, wire. by intros ->. Qed.

Lemma wire_app k l1 l2 : wire k (l1 ++ l2) = wire k l1 ++ wire k l2.
Proof. unfold wire. destruct (has_uart k); [apply bind_app|done]. Qed.

Lemma puts_run l s :
  cons_ok (kcons s) →
  ∃ k', for_each l consputc s = Ret tt (s <| kcons := k' |>) ∧ cons_ok k' ∧ out_only (kcons s) k'
        ∧ uart_out k' = uart_out (kcons s) ++ wire (kcons s) l.
Proof.
  revert s. induction l as [|c l IH]; intros s Hok; cbn [for_each].
  - exists (kcons s). rewrite set_kcons_id. split_and!; [done..|apply out_only_refl|].
    unfold wire. destruct (has_uart _); by rewrite ?app_nil_r.
  - destruct (consputc_run c s Hok) as (k1 & H1 & Hok1 & Ho1 & Hu1).
    destruct (IH (s <| kcons := k1 |>)) as (k2 & H2 & Hok2 & Ho2 & Hu2); [done|].
    exists k2. rewrite (bind_run _ _ _ _ _ H1). split; [exact H2|]. split; [done|].
    split; [by eapply out_only_trans|]. change (c :: l) with ([c] ++ l).
    rewrite Hu2. sst. rewrite (wire_out _ _ _ Ho1), Hu1, wire_app. by rewrite <- app_assoc.
Qed.

(** The console lock can be taken where it is wanted. *)
Definition cons_free (s : kernel) : Prop := cs_locking (kcons s) = true → LCons ∉ held s.

Lemma cprintf_run fmt args out s :
  cons_ok (kcons s) → cons_free s → kformat fmt args = Some out →
  ∃ k', cprintf (Some fmt) args s = Ret tt (s <| kcons := k' |>) ∧ cons_ok k'
        ∧ out_only (kcons s) k' ∧ uart_out k' = uart_out (kcons s) ++ wire (kcons s) out.
Proof.
  intros Hok Hfree Hf. unfold cprintf. run.
  destruct (when_lock_run (cs_locking (kcons s)) s LCons Hfree) as (h & Ha & Hr).
  rewrite (bind_run _ _ _ _ _ Ha). cbv beta iota. rewrite Hf. run.
  destruct (puts_run out (s <| held := h |>)) as (k' & H1 & Hok1 & Ho1 & Hu1); [done|].
  exists k'. rewrite (bind_run _ _ _ _ _ H1). cbv beta. rewrite Hr by done.
  split_and!; [by destruct s|done..].
Qed.

(** ** The line discipline

    What a reader of the console is promised: the characters of the committed
    lines in order, and a line under edition that the user can still change. *)

Record line := mkLine { committed : list Z; editing : list Z }.

Definition cr_nl (c : Z) : Z := if c =? 13 then 10 else c.

Definition line_step (l : line) (c : Z) : line :=
  if c =? CTRL 80 then l
  else if c =? CTRL 85 then mkLine (committed l) []
  else if ((c =? CTRL 72) || (c =? 127))%bool then
    mkLine (committed l) (take (length (editing l) - 1) (editing l))
  else if (negb (c =? 0)
           && (Z.of_nat (length (committed l ++ editing l)) <? INPUT_BUF))%bool then
    let ed := editing l ++ [i8 (cr_nl c)] in
    if ((cr_nl c =? 10) || (cr_nl c =? CTRL 68)
        || (Z.of_nat (length (committed l ++ ed)) =? INPUT_BUF))%bool
    then mkLine (committed l ++ ed) [] else mkLine (committed l) ed
  else l.

(** The characters echoed. *)
Definition line_echo (l : line) (c : Z) : list Z :=
  if c =? CTRL 80 then []
  else if c =? CTRL 85 then replicate (length (editing l)) BACKSPACE
  else if ((c =? CTRL 72) || (c =? 127))%bool then
    match editing l with [] => [] | _ => [BACKSPACE] end
  else if (negb (c =? 0)
           && (Z.of_nat (length (committed l ++ editing l)) <? INPUT_BUF))%bool
  then [cr_nl c] else [].

(** [n] characters of the ring from index [r]. *)
Definition ring (k : console) (r : Z) (n : nat) : list Z :=
  (λ i, in_at k (r + Z.of_nat i)) <$> seq 0 n.

Definition line_rel (k : console) (l : line) : Prop :=
  length (in_buf k) = Z.to_nat INPUT_BUF
  ∧ (length (committed l ++ editing l) ≤ Z.to_nat INPUT_BUF)%nat
  ∧ is_u32 (in_r k)
  ∧ in_w k = uadd (in_r k) (Z.of_nat (length (committed l)))
  ∧ in_e k = uadd (in_r k) (Z.of_nat (length (committed l ++ editing l)))
  ∧ ring k (in_r k) (length (committed l ++ editing l)) = committed l ++ editing l
  ∧ 10 ∉ editing l.

Lemma in_at_u32 k i : in_at k (u32 i) = in_at k i.
Proof. unfold in_at. change INPUT_BUF with (2 ^ 7). by rewrite (u32_mod_pow2 i 7). Qed.

Lemma ring_snoc k r n : ring k r (S n) = ring k r n ++ [in_at k (r + Z.of_nat n)].
Proof. unfold ring. by rewrite seq_S, fmap_app. Qed.

Lemma ring_take k r n m : (n ≤ m)%nat → ring k r n = take n (ring k r m).
Proof. intros H. unfold ring. rewrite <- fmap_take, take_seq. f_equal. f_equal. lia. Qed.

(** Storing one character beyond the [n] in the ring keeps those. *)
Lemma ring_put k k' r n c :
  length (in_buf k) = Z.to_nat INPUT_BUF → (n < Z.to_nat INPUT_BUF)%nat → 
  in_buf k' = <[Z.to_nat ((r + Z.of_nat n) mod INPUT_BUF) := c]> (in_buf k) →
  ring k' r (S n) = ring k r n ++ [c].
Proof.
  intros Hl Hn Hk'. unfold INPUT_BUF in *.
  pose proof (λ i, Z.mod_pos_bound i 128 ltac:(lia)) as Hb. rewrite ring_snoc. f_equal.
  - unfold ring. apply list_fmap_ext. intros j i Hi. apply lookup_seq in Hi as [-> Hi].
    unfold in_at. rewrite Hk', list_lookup_insert_ne; [done|]. unfold INPUT_BUF. cbn.
    intros E%Z2Nat.inj; [|apply Hb..].
    pose proof (Z_div_mod_eq_full (r + Z.of_nat n) 128).
    pose proof (Z_div_mod_eq_full (r + Z.of_nat j) 128). lia.
  - unfold in_at, INPUT_BUF. rewrite Hk', list_lookup_insert_eq; [done|].
    specialize (Hb (r + Z.of_nat n)). lia.
Qed.

Lemma u32_add_inj r a b :
  0 ≤ a < 2 ^ 32 → 0 ≤ b < 2 ^ 32 → uadd r a = uadd r b → a = b.
Proof.
  unfold uadd, u32. intros Ha Hb H.
  pose proof (Z_div_mod_eq_full (r + a) (2 ^ 32)). pose proof (Z_div_mod_eq_full (r + b) (2 ^ 32)).
  lia.
Qed.

Lemma line_rel_empty k l :
  line_rel k l → (in_e k =? in_w k) = bool_decide (editing l = []).
Proof.
  intros (_ & Hmax & _ & Hw & He & _). rewrite He, Hw, length_app in *. unfold INPUT_BUF in *.
  destruct (Z.eqb_spec (uadd (in_r k) (Z.of_nat (length (committed l) + length (editing l))))
    (uadd (in_r k) (Z.of_nat (length (committed l))))) as [E|E].
  - apply u32_add_inj in E; [|lia..]. rewrite bool_decide_true; [done|]. apply nil_length_inv. lia.
  - rewrite bool_decide_false; [done|]. intros E'. apply E. rewrite E'. cbn. f_equal. lia.
Qed.

(** Taking the last character of the line under edition back. *)
Lemma line_rel_back k k' l ed c :
  line_rel k l → editing l = ed ++ [c] → in_buf k' = in_buf k → in_r k' = in_r k →
  in_w k' = in_w k → in_e k' = usub (in_e k) 1 → line_rel k' (mkLine (committed l) ed).
Proof.
  intros (Hb & Hmax & Hr & Hw & He & Hring & Hnl) Hed Hb' Hr' Hw' He'.
  rewrite Hed in *. rewrite app_assoc, length_app in *. cbn [length] in *.
  split_and!; cbn [committed editing]; rewrite ?Hb', ?Hr', ?Hw'; [done|lia|done|done| | |set_solver].
  - rewrite He', He. unfold usub, uadd. rewrite u32_sub_l. f_equal. lia.
  - replace (ring k' _ _) with (ring k (in_r k) (length (committed l ++ ed)))
      by (unfold ring, in_at; by rewrite Hb').
    rewrite (ring_take _ _ _ (length (committed l ++ ed) + 1)), Hring by lia.
    by rewrite take_app_length.
Qed.

Lemma last_char k l ed c :
  line_rel k l → editing l = ed ++ [c] → in_at k (usub (in_e k) 1) = c.
Proof.
  intros (_ & _ & _ & _ & He & Hring & _) Hed. rewrite Hed, app_assoc, length_app in *.
  rewrite Nat.add_1_r, ring_snoc in Hring. apply app_inj_tail in Hring as [_ <-].
  rewrite He. unfold usub, uadd. rewrite u32_sub_l, in_at_u32. f_equal. cbn [length]. lia.
Qed.

Lemma out_only_line k k' l : out_only k k' → line_rel k l → line_rel k' l.
Proof. unfold out_only. intros ->. done. Qed.

(** What input processing leaves alone. *)
Definition cons_frame (k k' : console) : Prop :=
  (cs_locking k', cs_panicked k', in_r k', has_uart k', uart_in k', kb_shift k', kb_in k')
  = (cs_locking k, cs_panicked k, in_r k, has_uart k, uart_in k, kb_shift k, kb_in k).

Lemma out_only_frame k k' : out_only k k' → cons_frame k k'.
Proof. unfold out_only. by intros ->. Qed.

Lemma wire_frame k k' l : cons_frame k k' → wire k' l = wire k l.
Proof. unfold cons_frame, wire. by intros [= _ _ _ -> _ _ _]. Qed.

Lemma cons_frame_kb k k' : cons_frame k k' → kb_shift k' = kb_shift k ∧ kb_in k' = kb_in k.
Proof. unfold cons_frame. by intros [= _ _ _ _ _ -> ->]. Qed.

(** [input.e--; consputc(BACKSPACE)]. *)
Lemma erase_run s l ed c :
  cons_ok (kcons s) → line_rel (kcons s) l → editing l = ed ++ [c] →
  ∃ k', (upd_cons (λ k, k <| in_e ::= λ e, usub e 1 |>);; consputc BACKSPACE) s
        = Ret tt (s <| kcons := k' |>)
    ∧ cons_ok k' ∧ line_rel k' (mkLine (committed l) ed) ∧ cons_frame (kcons s) k'
    ∧ uart_out k' = uart_out (kcons s) ++ wire (kcons s) [BACKSPACE].
Proof.
  intros Hok Hl Hed. unfold upd_cons. run.
  destruct (consputc_run BACKSPACE (s <| kcons ::= λ k, k <| in_e ::= λ e, usub e 1 |> |>))
    as (k' & Hr & Hok' & Ho & Hu); [done|].
  exists k'. split; [by rewrite Hr|]. split; [done|]. split; [|split; [|done]].
  - eapply out_only_line; [exact Ho|]. by eapply line_rel_back.
  - by apply out_only_frame in Ho.
Qed.

Lemma kill_line_run n s l :
  cons_ok (kcons s) → line_rel (kcons s) l → (length (editing l) ≤ n)%nat →
  ∃ k', kill_line n s = Ret tt (s <| kcons := k' |>)
    ∧ cons_ok k' ∧ line_rel k' (mkLine (committed l) []) ∧ cons_frame (kcons s) k'
    ∧ uart_out k' = uart_out (kcons s) ++ wire (kcons s) (replicate (length (editing l)) BACKSPACE).
Proof.
  revert s l. induction n as [|n IH]; intros s [co ed] Hok Hl Hn;
    cbn [kill_line committed editing] in *; run; rewrite (line_rel_empty _ _ Hl); cbn [editing].
  - destruct ed; [|cbn in Hn; lia]. cbn. exists (kcons s). rewrite set_kcons_id.
    split_and!; try done. unfold wire. destruct (has_uart _); by rewrite app_nil_r.
  - induction ed as [|c ed _] using rev_ind.
    + cbn. exists (kcons s). rewrite set_kcons_id.
      split_and!; try done. unfold wire. destruct (has_uart _); by rewrite app_nil_r.
    + rewrite bool_decide_false by (by destruct ed). rewrite (last_char _ _ ed c Hl) by done.
      assert (c ≠ 10) by (destruct Hl as (_ & _ & _ & _ & _ & _ & Hnl); cbn in Hnl; set_solver).
      destruct (Z.eqb_spec c 10); [done|]. cbn [negb andb].
      destruct (erase_run s _ ed c Hok Hl eq_refl) as (k1 & H1 & Hok1 & Hl1 & Hf1 & Hu1).
      rewrite length_app in *. cbn [length committed] in *.
      destruct (IH (s <| kcons := k1 |>) (mkLine co ed)) as (k2 & H2 & Hok2 & Hl2 & Hf2 & Hu2);
        [done|done|cbn; lia|].
      exists k2. split.
      { revert H1. unfold mbind at 1, M_bind at 1, upd_cons, modify. cbn [obind].
        intros H1. unfold mbind at 1, M_bind at 1. cbn [obind].
        erewrite bind_run by exact H1. exact H2. }
      split_and!; [done|done| |].
      * unfold cons_frame in *. sst_in Hf2. congruence.
      * rewrite Hu2. sst. rewrite (wire_frame _ _ _ Hf1), Hu1, <- app_assoc, <- wire_app.
        cbn [editing]. by rewrite Nat.add_1_r.
Qed.

Lemma i8_nl c : 0 ≤ c < 256 → i8 c = 10 → c = 10.
Proof.
  unfold i8, sgn. intros Hc. change (2 ^ 8) with 256. change (2 ^ (8 - 1)) with 128.
  rewrite Z.mod_small by lia. bool_cases; lia.
Qed.

Lemma line_rel_put k co ed c :
  line_rel k (mkLine co ed) → (length (co ++ ed) < Z.to_nat INPUT_BUF)%nat →
  in_e (stored c k) = uadd (in_r k) (Z.of_nat (length (co ++ ed ++ [i8 c])))
  ∧ (0 ≤ c < 256 → c ≠ 10 → line_rel (stored c k) (mkLine co (ed ++ [i8 c])))
  ∧ line_rel ((stored c k) <| in_w := in_e (stored c k) |>) (mkLine (co ++ ed ++ [i8 c]) []).
Proof.
  intros (Hb & Hmax & Hr & Hw & He & Hring & Hnl) Hlt. cbn [committed editing] in *.
  rewrite app_assoc. set (all := co ++ ed) in *.
  assert (Hlen : length (all ++ [i8 c]) = S (length all))
    by (rewrite length_app; cbn [length]; lia).
  assert (Hb' : length (in_buf (stored c k)) = Z.to_nat INPUT_BUF)
    by (unfold stored; sst; by rewrite length_insert).
  assert (He' : in_e (stored c k) = uadd (in_r k) (Z.of_nat (length (all ++ [i8 c])))).
  { unfold stored. sst. rewrite He, Hlen. unfold uadd. rewrite u32_add_l. f_equal. lia. }
  assert (Hring' : ring (stored c k) (in_r k) (length (all ++ [i8 c])) = all ++ [i8 c]).
  { rewrite Hlen, (ring_put k _ _ _ (i8 c)); [by rewrite Hring|done|done|].
    unfold stored. sst. rewrite He. unfold uadd. by rewrite (u32_mod_pow2 _ 7). }
  split; [done|]. split.
  - intros Hc Hc10. split_and!; cbn [committed editing]; rewrite ?(app_assoc co); try done.
    + fold all. lia.
    + rewrite not_elem_of_app, list_elem_of_singleton. split; [done|].
      intros E. symmetry in E. by apply i8_nl in E.
  - split_and!; cbn [committed editing]; rewrite ?app_nil_r; try done; try lia. set_solver.
Qed.

Definition commits (co ed : list Z) (d : Z) : bool :=
  (d =? 10) || (d =? CTRL 68) || (Z.of_nat (length (co ++ ed ++ [i8 d])) =? INPUT_BUF).

Lemma cons_store_run d s co ed :
  cons_ok (kcons s) → line_rel (kcons s) (mkLine co ed) → LPtable ∉ held s → 0 ≤ d < 256 →
  (length (co ++ ed) < Z.to_nat INPUT_BUF)%nat →
  ∃ k', cons_store d s
        = Ret tt (if commits co ed d
                  then s <| kcons := k' |> <| ptable ::= fmap (wake_one ChInput) |>
                  else s <| kcons := k' |>)
    ∧ cons_ok k' ∧ cons_frame (kcons s) k'
    ∧ line_rel k' (if commits co ed d then mkLine (co ++ ed ++ [i8 d]) []
                   else mkLine co (ed ++ [i8 d]))
    ∧ uart_out k' = uart_out (kcons s) ++ wire (kcons s) [d].
Proof.
  intros Hok Hl Hpt Hd Hlt.
  destruct (line_rel_put (kcons s) co ed d Hl Hlt) as (He & Hkeep & Hcommit).
  destruct (consputc_run d (s <| kcons ::= stored d |>)) as (k1 & H1 & Hok1 & Ho1 & Hu1); [done|].
  assert (Htest : (in_e k1 =? uadd (in_r k1) INPUT_BUF)
                  = (Z.of_nat (length (co ++ ed ++ [i8 d])) =? INPUT_BUF)).
  { rewrite Ho1. sst. rewrite He. change (in_r (stored d (kcons s))) with (in_r (kcons s)).
    rewrite app_assoc, length_app. cbn [length].
    destruct (Z.eqb_spec (Z.of_nat (length (co ++ ed) + 1)) INPUT_BUF) as [->|E]; [apply Z.eqb_refl|].
    apply Z.eqb_neq. intros E'. apply u32_add_inj in E'; [done|unfold INPUT_BUF in *; lia..]. }
  unfold cons_store, upd_cons. run. rewrite (bind_run _ _ _ _ _ H1). cbv beta. run. sst.
  rewrite Htest. fold (commits co ed d). destruct (commits co ed d) eqn:E; cbn [when].
  - run. rewrite wakeup_run by done. exists (k1 <| in_w := in_e k1 |>). split; [done|].
    split; [done|]. split; [|split].
    + apply out_only_frame in Ho1. exact Ho1.
    + rewrite Ho1. exact Hcommit.
    + exact Hu1.
  - exists k1. split; [done|]. split; [done|]. split; [|split].
    + apply out_only_frame in Ho1. exact Ho1.
    + eapply out_only_line; [exact Ho1|]. apply Hkeep; [done|].
      intros ->. by unfold commits in E.
    + exact Hu1.
Qed.

(** Readers are woken when text is committed. *)
Definition wake_readers (l l' : line) (s : kernel) : kernel :=
  if decide (committed l' = committed l) then s else s <| ptable ::= fmap (wake_one ChInput) |>.

Lemma wake_readers_same l ed s : wake_readers l (mkLine (committed l) ed) s = s.
Proof. unfold wake_readers. by rewrite decide_True. Qed.

Lemma cons_char_run c s l :
  cons_ok (kcons s) → line_rel (kcons s) l → LPtable ∉ held s → 0 ≤ c < 256 →
  ∃ k', cons_char c s
        = Ret (c =? CTRL 80) (wake_readers l (line_step l c) (s <| kcons := k' |>))
    ∧ cons_ok k' ∧ cons_frame (kcons s) k' ∧ line_rel k' (line_step l c)
    ∧ uart_out k' = uart_out (kcons s) ++ wire (kcons s) (line_echo l c).
Proof.
  intros Hok Hl Hpt Hc. unfold cons_char, line_step, line_echo. destruct l as [co ed].
  assert (Hnil : ∀ o : list Z, o = o ++ wire (kcons s) [])
    by (intros o; unfold wire; destruct (has_uart _); by rewrite app_nil_r).
  assert (Hlen : usub (in_e (kcons s)) (in_r (kcons s)) = Z.of_nat (length (co ++ ed))).
  { destruct Hl as (_ & Hmax & _ & _ & -> & _). cbn [committed editing] in *. unfold usub, uadd.
    rewrite u32_sub_l, u32_small; unfold is_u32, INPUT_BUF in *; lia. }
  destruct (c =? CTRL 80).
  { exists (kcons s). rewrite set_kcons_id. unfold wake_readers. by rewrite decide_True. }
  destruct (c =? CTRL 85).
  { destruct (kill_line_run (Z.to_nat INPUT_BUF) s _ Hok Hl) as (k' & Hr & Hok' & Hl' & Hf & Hu).
    { destruct Hl as (_ & Hm & _). rewrite length_app in Hm. lia. }
    exists k'. rewrite (bind_run _ _ _ _ _ Hr), wake_readers_same. by split_and!. }
  destruct ((c =? CTRL 72) || (c =? 127))%bool.
  { run. rewrite (line_rel_empty _ _ Hl). cbn [committed editing].
    induction ed as [|x ed _] using rev_ind.
    - cbn. exists (kcons s). rewrite set_kcons_id. unfold wake_readers. by rewrite decide_True.
    - rewrite bool_decide_false by (by destruct ed). cbn [negb when].
      destruct (erase_run s _ ed x Hok Hl eq_refl) as (k' & Hr & Hok' & Hl' & Hf & Hu).
      exists k'. unfold wake_readers. rewrite decide_True by done.
      rewrite (bind_run _ _ _ _ _ Hr), length_app, Nat.add_sub, take_app_length.
      split_and!; [done..|]. rewrite Hu. by destruct ed. }
  run. rewrite Hlen. cbn [committed editing]. fold (cr_nl c).
  destruct (negb (c =? 0) && _)%bool eqn:Hacc; cbn [when].
  - apply andb_true_iff in Hacc as [_ Hlt%Z.ltb_lt].
    assert (Hd : 0 ≤ cr_nl c < 256) by (unfold cr_nl; case_match; lia).
    destruct (cons_store_run (cr_nl c) s co ed Hok Hl Hpt Hd) as (k' & Hr & H2 & H3 & H4 & H5);
      [unfold INPUT_BUF in *; lia|].
    exists k'. rewrite (bind_run _ _ _ _ _ Hr). fold (commits co ed (cr_nl c)).
    split; [|done]. destruct (commits co ed (cr_nl c)).
    + unfold wake_readers. cbn [committed]. rewrite decide_False; [done|].
      intros E%(f_equal length). rewrite !length_app in E. cbn in E. lia.
    + unfold wake_readers. by rewrite decide_True.
  - run. exists (kcons s). rewrite set_kcons_id. unfold wake_readers. by rewrite decide_True.
Qed.

(** A blank console with a serial port. *)
Definition console0 : console := console_zero <| has_uart := true |>.

Lemma console0_line : line_rel console0 (mkLine [] []).
Proof.
  split_and!; try done; try (cbn; lia).
  apply not_elem_of_nil.
Qed.

(** ** The keyboard *)

Definition codes : list Z := Z.of_nat <$> seq 0 256.
Definition shifts : list Z := Z.of_nat <$> seq 0 128.

Lemma elem_of_range n x : x ∈ (Z.of_nat <$> seq 0 n) ↔ 0 ≤ x < Z.of_nat n.
Proof.
  rewrite list_elem_of_fmap. split.
  - intros (i & -> & Hi%elem_of_seq). lia.
  - intros H. exists (Z.to_nat x). rewrite elem_of_seq. lia.
Qed.

(** All 128 shift states and 256 scan codes, by evaluation. *)
Definition kbd_in_range (sh d : Z) : bool :=
  let '(c, sh') := kbd_code sh d in
  ((0 <=? c) && (c <? 256) && (0 <=? sh') && (sh' <? 128))%bool.

Lemma kbd_code_range sh d c sh' :
  0 ≤ sh < 128 → 0 ≤ d < 256 → kbd_code sh d = (c, sh') → 0 ≤ c < 256 ∧ 0 ≤ sh' < 128.
Proof.
  intros Hsh Hd E.
  assert (H : forallb (λ sh, forallb (kbd_in_range sh) codes) shifts = true) by (vm_compute; reflexivity).
  rewrite forallb_forall in H. specialize (H sh). rewrite forallb_forall in H.
  specialize (H (proj1 (list_elem_of_In _ _) (proj2 (elem_of_range 128 sh) Hsh)) d
                (proj1 (list_elem_of_In _ _) (proj2 (elem_of_range 256 d) Hd))).
  unfold kbd_in_range in H. rewrite E in H. bool_hyps. lia.
Qed.

Definition is_lower (c : Z) : bool := (97 <=? c) && (c <=? 122).

(** Whether a bit of the shift state is set. *)
Definition bit_on (sh b : Z) : bool := negb (Z.land sh b =? 0).

(** Letters.  With neither the control key nor an E0 prefix pending, a key
    whose normal character is a letter yields the capital exactly when one of
    shift and caps lock is on, and leaves the shift state as it was. *)
Theorem kbd_letter_case sh d :
  0 ≤ sh < 128 → 0 ≤ d < 128 → is_lower (normalmap d) = true →
  bit_on sh CTL = false → bit_on sh E0ESC = false →
  kbd_code sh d = (normalmap d - (if xorb (bit_on sh SHIFT) (bit_on sh CAPSLOCK) then 32 else 0), sh).
Proof.
  intros Hsh Hd Hl Hc He.
  assert (H : forallb (λ sh, forallb (λ d,
      negb (is_lower (normalmap d)) || bit_on sh CTL || bit_on sh E0ESC
      || bool_decide (kbd_code sh d
           = (normalmap d - (if xorb (bit_on sh SHIFT) (bit_on sh CAPSLOCK) then 32 else 0), sh)))%bool
      (Z.of_nat <$> seq 0 128)) shifts = true) by (vm_compute; reflexivity).
  rewrite forallb_forall in H. specialize (H sh). rewrite forallb_forall in H.
  specialize (H (proj1 (list_elem_of_In _ _) (proj2 (elem_of_range 128 sh) Hsh)) d
                (proj1 (list_elem_of_In _ _) (proj2 (elem_of_range 128 d) Hd))).
  rewrite Hl, Hc, He in H. by apply bool_decide_eq_true in H.
Qed.

Lemma kbd_letter_case_witness : kbd_code (Z.lor SHIFT NUMLOCK) 30 = (65, Z.lor SHIFT NUMLOCK).
Proof. apply (kbd_letter_case 17 30); (lia || reflexivity). Defined.

(** The characters a sequence of scan codes stands for. *)
Fixpoint kbd_decode (sh : Z) (ds : list Z) : list Z :=
  match ds with
  | [] => []
  | d :: ds' => (kbd_code sh d).1 :: kbd_decode (kbd_code sh d).2 ds'
  end.

Lemma line_step_grows l c : committed l `prefix_of` committed (line_step l c).
Proof.
  unfold line_step. repeat case_match; cbn; first [reflexivity|by apply prefix_app_r].
Qed.

Lemma line_steps_grow cs l : committed l `prefix_of` committed (foldl line_step l cs).
Proof.
  revert l. induction cs as [|c cs IH]; intros l; cbn; [reflexivity|].
  etrans; [apply line_step_grows|apply IH].
Qed.

Lemma wake_one_twice ch p : wake_one ch (wake_one ch p) = wake_one ch p.
Proof.
  unfold wake_one. destruct (bool_decide (state p = SLEEPING) && bool_decide (p_chan p = Some ch))%bool eqn:E;
    cbn [state]; by rewrite ?E.
Qed.

Lemma wake_twice ch (ps : list proc) : wake_one ch <$> (wake_one ch <$> ps) = wake_one ch <$> ps.
Proof.
  rewrite <- list_fmap_compose. apply list_fmap_ext. intros i p _. apply wake_one_twice.
Qed.

Lemma wake_readers_kcons l l' k s :
  (wake_readers l l' s) <| kcons := k |> = wake_readers l l' (s <| kcons := k |>).
Proof. unfold wake_readers. by case_decide. Qed.

Lemma wake_readers_trans l1 l2 l3 s :
  committed l1 `prefix_of` committed l2 → committed l2 `prefix_of` committed l3 →
  wake_readers l2 l3 (wake_readers l1 l2 s) = wake_readers l1 l3 s.
Proof.
  intros H12 H23. unfold wake_readers.
  destruct (decide (committed l2 = committed l1)) as [->|N]; [done|].
  destruct (decide (committed l3 = committed l2)) as [->|N2]; [by rewrite decide_False|].
  rewrite decide_False.
  - unfold set, set_ptable. cbn. by rewrite wake_twice.
  - intros E. rewrite E in H23. apply N. by apply (anti_symm prefix).
Qed.

Lemma kbdgetc_run s d ds :
  kb_in (kcons s) = d :: ds →
  kbdgetc s = Ret (kbd_code (kb_shift (kcons s)) d).1
    (s <| kcons ::= λ k, k <| kb_in := ds |> <| kb_shift := (kbd_code (kb_shift k) d).2 |> |>).
Proof.
  intros H. unfold kbdgetc. run. rewrite H. destruct (kbd_code _ _) as [c sh'] eqn:E.
  unfold upd_cons. run. unfold mret, M_ret. cbn [fst]. f_equal. apply set_kcons_ext. by rewrite E.
Qed.

(** Pending scan codes are consumed one by one, each as a character. *)
Lemma cons_loop_run ds s l :
  cons_ok (kcons s) → line_rel (kcons s) l → LPtable ∉ held s → 0 ≤ kb_shift (kcons s) < 128 →
  Forall is_u8 ds → kb_in (kcons s) = ds →
  CTRL 80 ∉ kbd_decode (kb_shift (kcons s)) ds →
  ∃ k', cons_loop (length ds) kbdgetc false s
        = Ret false (wake_readers l (foldl line_step l (kbd_decode (kb_shift (kcons s)) ds))
                       (s <| kcons := k' |>))
    ∧ cons_ok k' ∧ kb_in k' = []
    ∧ line_rel k' (foldl line_step l (kbd_decode (kb_shift (kcons s)) ds)).
Proof.
  revert s l. induction ds as [|d ds IH]; intros s l Hok Hl Hpt Hsh Hb Hin Hp;
    cbn [cons_loop length kbd_decode foldl] in *.
  - exists (kcons s). unfold kbdgetc. erewrite bind_run by (run; rewrite Hin; reflexivity).
    rewrite set_kcons_id. unfold wake_readers. by rewrite decide_True.
  - apply Forall_cons in Hb as [Hd Hb]. apply not_elem_of_cons in Hp as [Hp Hp'].
    rewrite (bind_run _ _ _ _ _ (kbdgetc_run s d ds Hin)). cbv beta.
    destruct (kbd_code (kb_shift (kcons s)) d) as [c sh] eqn:E. cbn [fst snd] in *.
    destruct (kbd_code_range _ _ _ _ Hsh Hd E) as [Hc Hsh'].
    destruct (Z.leb_spec 0 c); [|lia].
    set (s1 := s <| kcons ::= λ k, k <| kb_in := ds |> <| kb_shift := (kbd_code (kb_shift k) d).2 |> |>).
    assert (Hk1 : kb_shift (kcons s1) = sh) by (unfold s1; sst; by rewrite E).
    destruct (cons_char_run c s1 l Hok Hl Hpt Hc) as (k1 & H1 & Hok1 & Hf1 & Hl1 & _).
    rewrite (bind_run _ _ _ _ _ H1). cbv beta.
    destruct (Z.eqb_spec c (CTRL 80)); [done|]. cbn [orb].
    apply cons_frame_kb in Hf1 as [Hfs Hfi]. rewrite Hk1 in Hfs. change (kb_in k1 = ds) in Hfi.
    assert (Hks : kcons (wake_readers l (line_step l c) (s1 <| kcons := k1 |>)) = k1)
      by (unfold wake_readers; by case_decide).
    destruct (IH (wake_readers l (line_step l c) (s1 <| kcons := k1 |>)) (line_step l c))
      as (k2 & H2 & Hok2 & Hi2 & Hl2); try (rewrite Hks; congruence || done).
    + unfold wake_readers. by case_decide.
    + done.
    + rewrite Hks in *. rewrite Hfs in *. exists k2. split; [|done]. rewrite H2. f_equal.
      rewrite wake_readers_kcons. rewrite wake_readers_trans; [done|apply line_step_grows|apply line_steps_grow].
Qed.

(** C35: the line discipline.  A keyboard interrupt consumes all pending scan
    codes; each decoded character changes the committed text and the line under
    edition as [line_step] says (^U kills the line, backspace removes a
    character, newline, ^D and a full buffer commit the line, input beyond 128
    unread characters is dropped), and sleeping readers are woken exactly when
    text was committed.  The ring's indices may wrap around 2^32. *)
Theorem kbdintr_refines s l :
  cons_ok (kcons s) → line_rel (kcons s) l → LPtable ∉ held s → LCons ∉ held s →
  0 ≤ kb_shift (kcons s) < 128 → Forall is_u8 (kb_in (kcons s)) →
  CTRL 80 ∉ kbd_decode (kb_shift (kcons s)) (kb_in (kcons s)) →
  let l' := foldl line_step l (kbd_decode (kb_shift (kcons s)) (kb_in (kcons s))) in
  ∃ k', kbdintr s = Ret tt (wake_readers l l' (s <| kcons := k' |>))
    ∧ cons_ok k' ∧ kb_in k' = [] ∧ line_rel k' l'.
Proof.
  intros Hok Hl Hpt Hcl Hsh Hb Hp l'. unfold kbdintr. run. unfold consoleintr.
  run_by (by apply acquire_run).
  destruct (cons_loop_run (kb_in (kcons s)) (s <| held ::= cons LCons |>) l)
    as (k' & Hr & H); [done|done|sst; set_solver|done|done|done|done|].
  sst_in Hr. sst_in H. fold l' in Hr, H.
  exists k'. split; [|done]. erewrite bind_run by exact Hr. cbv beta.
  run_by (apply release_run; unfold wake_readers; case_decide; sst; set_solver).
  unfold when, mret, M_ret. f_equal. unfold wake_readers. case_decide.
  - exact (held_cons_remove LCons (s <| kcons := k' |>)).
  - exact (held_cons_remove LCons (s <| kcons := k' |> <| ptable ::= fmap (wake_one ChInput) |>)).
Qed.

(** Typing "k", backspace, "Ls" with shift for the capital, and return. *)
Definition typed : console :=
  console0 <| kb_in := [37; 165; 14; 142; 42; 38; 166; 170; 31; 159; 28] |>.

Lemma kbdintr_refines_witness :
  ∃ k', kbdintr (kernel_zero <| kcons := typed |>)
        = Ret tt (wake_readers (mkLine [] []) (mkLine [76; 115; 10] [])
                    (kernel_zero <| kcons := typed |> <| kcons := k' |>))
    ∧ line_rel k' (mkLine [76; 115; 10] []).
Proof.
  destruct (kbdintr_refines (kernel_zero <| kcons := typed |>) (mkLine [] []))
    as (k' & Hr & _ & _ & Hl).
  - by vm_compute.
  - apply console0_line.
  - apply not_elem_of_nil.
  - apply not_elem_of_nil.
  - by vm_compute.
  - repeat constructor; by vm_compute.
  - vm_compute. set_solver.
  - exists k'. split; [exact Hr|exact Hl].
Defined.
