(* ===== verification/Vm.v ===== *)
(** Virtual memory (vm.c): the two-level page tables in kernel memory, the
    mapping, growing, shrinking and copying of address spaces, and copyout.
    (loaduvm, which reads from an inode, is in Exec.v.) *)

From S2P Require Import Prelude Segs Types Strings Spinlock Printf Kalloc Sched Console.

(** ** mmu.h *)

Definition PDXSHIFT : Z := 22.
Definition PTXSHIFT : Z := 12.
Definition NPDENTRIES : Z := 1024.
Definition PDX (va : Z) : Z := Z.land (Z.shiftr va PDXSHIFT) 1023.
Definition PTX (va : Z) : Z := Z.land (Z.shiftr va PTXSHIFT) 1023.
Definition PGADDR (d t o : Z) : Z :=
  u32 (Z.lor (Z.lor (Z.shiftl d PDXSHIFT) (Z.shiftl t PTXSHIFT)) o).
Definition PTE_ADDR (pte : Z) : Z := Z.land pte (2 ^ 32 - 4096).
Definition PTE_FLAGS (pte : Z) : Z := Z.land pte 4095.

(** [pte & f]. *)
Definition has (pte f : Z) : bool := negb (Z.land pte f =? 0).

(** [*(uint* )p] through a pointer that may be null. *)
Definition load_ptr (a : Z) : K Z := if a =? 0 then fault else load a.

Section Vm.
Context {P : Platform}.

(** The address of the entry for [va], 0 if there is none. *)
Definition walkpgdir (pgdir va : Z) (alloc : bool) : K Z :=
  let pde := uadd pgdir (4 * PDX va) in
  v ← load pde;
  if has v PTE_P then mret (uadd (P2V (PTE_ADDR v)) (4 * PTX va))
  else if negb alloc then mret 0
  else
    pgtab ← kalloc;
    if pgtab =? 0 then mret 0 else
    modify (λ s, s <| mem ::= λ m, memset m pgtab 0 PGSIZE |>);;
    store pde (Z.lor (Z.lor (Z.lor (V2P pgtab) PTE_P) PTE_W) PTE_U);;
    mret (uadd pgtab (4 * PTX va)).

(** The loop of mappages; [n] rounds after this one are allowed. *)
Fixpoint mappages_loop (n : nat) (pgdir a last pa perm : Z) : K bool :=
  pte ← walkpgdir pgdir a true;
  if pte =? 0 then mret false else
  v ← load pte;
  if has v PTE_P then panic "remap" else
  store pte (Z.lor (Z.lor pa perm) PTE_P);;
  if a =? last then mret true
  else match n with
       | O => nofuel
       | S n' => mappages_loop n' pgdir (uadd a PGSIZE) last (uadd pa PGSIZE) perm
       end.

(** [true] for 0, [false] for -1. *)
Definition mappages (pgdir va size pa perm : Z) : K bool :=
  let a := PGROUNDDOWN va in
  let last := PGROUNDDOWN (usub (uadd va size) 1) in
  mappages_loop (Z.to_nat (usub last a / PGSIZE)) pgdir a last pa perm.

(** The loop of deallocuvm; every round advances [a] by a page at least. *)
Fixpoint deallocuvm_loop (n : nat) (pgdir a oldsz : Z) : K unit :=
  if a <? oldsz then
    match n with
    | O => nofuel
    | S n' =>
        pte ← walkpgdir pgdir a false;
        if pte =? 0 then
          deallocuvm_loop n' pgdir (uadd (usub (PGADDR (PDX a + 1) 0 0) PGSIZE) PGSIZE) oldsz
        else
          v ← load pte;
          when (has v PTE_P)
            (let pa := PTE_ADDR v in
             (if pa =? 0 then panic "kfree" else kfree (P2V pa));;
             store pte 0);;
          deallocuvm_loop n' pgdir (uadd a PGSIZE) oldsz
    end
  else mret tt.

Definition deallocuvm (pgdir oldsz newsz : Z) : K Z :=
  if oldsz <=? newsz then mret oldsz else
  let a := PGROUNDUP newsz in
  deallocuvm_loop (Z.to_nat ((oldsz - a) / PGSIZE + 1)) pgdir a oldsz;;
  mret newsz.

(** The last loop of freevm. *)
Definition freevm_tables (pgdir : Z) : K unit :=
  for_each (Z.of_nat <$> seq 0 (Z.to_nat NPDENTRIES)) (λ i,
    v ← load (uadd pgdir (4 * i));
    when (has v PTE_P) (kfree (P2V (PTE_ADDR v)))).

Definition freevm (pgdir : Z) : K unit :=
  if pgdir =? 0 then panic "freevm: no pgdir" else
  deallocuvm pgdir KERNBASE 0;;
  freevm_tables pgdir;;
  kfree pgdir.

(** [struct kmap kmap[]]: virt, phys_start, phys_end, perm. *)
Definition kmap : list (Z * Z * Z * Z) :=
  [ (KERNBASE, 0, EXTMEM, PTE_W);
    (KERNLINK, V2P KERNLINK, V2P sym_data, 0);
    (sym_data, V2P sym_data, PHYSTOP, PTE_W);
    (DEVSPACE, DEVSPACE, 0, PTE_W) ].

(** The loop over [kmap]; [false] when a mapping fails. *)
Fixpoint mapkernel (pgdir : Z) (ks : list (Z * Z * Z * Z)) : K bool :=
  match ks with
  | [] => mret true
  | (virt, ps, pe, perm) :: ks' =>
      ok ← mappages pgdir virt (usub pe ps) ps perm;
      if (ok : bool) then mapkernel pgdir ks' else mret false
  end.

Definition setupkvm : K Z :=
  pgdir ← kalloc;
  if pgdir =? 0 then mret 0 else
  modify (λ s, s <| mem ::= λ m, memset m pgdir 0 PGSIZE |>);;
  if DEVSPACE <? P2V PHYSTOP then panic "PHYSTOP too high" else
  ok ← mapkernel pgdir kmap;
  if (ok : bool) then mret pgdir else freevm pgdir;; mret 0.

Definition switchkvm : K unit := modify (λ s, s <| cr3 := V2P (kpgdir s) |>).

Definition kvmalloc : K unit :=
  d ← setupkvm;
  modify (λ s, s <| kpgdir := d |>);;
  switchkvm.

(** [&mycpu()->ts] and [mycpu()->gdt]: a [struct cpu] has 176 bytes. *)
Definition TSSIZE : Z := 104.
Definition ts_addr (n : nat) : Z := sym_cpus + 176 * Z.of_nat n + 8.
Definition gdt_addr (n : nat) : Z := ts_addr n + TSSIZE.

(** The task state segment of the CPU, its descriptor and the register. *)
Definition set_tss (t : cputab) : cputab :=
  t <| cpu_gdt ::= <[Z.to_nat SEG_TSS :=
         Descriptors.clear_s (Descriptors.SEG16 Descriptors.STS_T32A (ts_addr (cpu_no t)) (TSSIZE - 1) 0)]> |>
    <| ts_ss0 := Z.shiftl SEG_KDATA 3 |> <| ts_iomb := 65535 |> <| cpu_tr := Z.shiftl SEG_TSS 3 |>.

Definition switchuvm (p : option proc) : K unit :=
  match p with
  | None => panic "switchuvm: no process"
  | Some p =>
      if kstack p =? 0 then panic "switchuvm: no kstack" else
      if pgdir p =? 0 then panic "switchuvm: no pgdir" else
      modify (λ s, s <| ktab ::= set_tss |> <| ts_esp0 := uadd (kstack p) KSTACKSIZE |> <| cr3 := V2P (pgdir p) |>)
  end.

(** [memmove(dst, src, n)] from a kernel buffer holding [bs]. *)
Fixpoint put_bytes (m : memory) (a : Z) (bs : list Z) : memory :=
  match bs with
  | [] => m
  | b :: bs' => put_bytes (upd m a b) (a + 1) bs'
  end.

(** [init] holds the [sz] bytes of initcode. *)
Definition inituvm (pgdir : Z) (init : list Z) : K unit :=
  if PGSIZE <=? Z.of_nat (length init) then panic "inituvm: more than a page" else
  m ← kalloc;
  if m =? 0 then fault else
  modify (λ s, s <| mem ::= λ mm, memset mm m 0 PGSIZE |>);;
  mappages pgdir 0 PGSIZE (V2P m) (Z.lor PTE_W PTE_U);;
  modify (λ s, s <| mem ::= λ mm, put_bytes mm m init |>).

Fixpoint allocuvm_loop (n : nat) (pgdir a oldsz newsz : Z) : K Z :=
  if a <? newsz then
    match n with
    | O => nofuel
    | S n' =>
        m ← kalloc;
        if m =? 0 then
          cprintf (Some (chars "allocuvm out of memory" ++ [10])) [];;
          deallocuvm pgdir newsz oldsz;;
          mret 0
        else
          modify (λ s, s <| mem ::= λ mm, memset mm m 0 PGSIZE |>);;
          ok ← mappages pgdir a PGSIZE (V2P m) (Z.lor PTE_W PTE_U);
          if negb ok then
            cprintf (Some (chars "allocuvm out of memory (2)" ++ [10])) [];;
            deallocuvm pgdir newsz oldsz;;
            kfree m;;
            mret 0
          else allocuvm_loop n' pgdir (uadd a PGSIZE) oldsz newsz
    end
  else mret newsz.

Definition allocuvm (pgdir oldsz newsz : Z) : K Z :=
  if KERNBASE <=? newsz then mret 0 else
  if newsz <? oldsz then mret oldsz else
  let a := PGROUNDUP oldsz in
  allocuvm_loop (Z.to_nat ((newsz - a) / PGSIZE + 1)) pgdir a oldsz newsz.

Definition clearpteu (pgdir uva : Z) : K unit :=
  pte ← walkpgdir pgdir uva false;
  if pte =? 0 then panic "clearpteu" else
  v ← load pte;
  store pte (Z.land v (2 ^ 32 - 1 - PTE_U)).

(** The loop of copyuvm; [false] for [goto bad]. *)
Fixpoint copyuvm_loop (n : nat) (pgdir d i sz : Z) : K bool :=
  if i <? sz then
    match n with
    | O => nofuel
    | S n' =>
        pte ← walkpgdir pgdir i false;
        if pte =? 0 then panic "copyuvm: pte should exist" else
        v ← load pte;
        if negb (has v PTE_P) then panic "copyuvm: page not present" else
        let pa := PTE_ADDR v in
        let flags := PTE_FLAGS v in
        m ← kalloc;
        if m =? 0 then mret false else
        modify (λ s, s <| mem ::= λ mm, memmove mm m (P2V pa) PGSIZE |>);;
        ok ← mappages d i PGSIZE (V2P m) flags;
        if (ok : bool) then copyuvm_loop n' pgdir d (uadd i PGSIZE) sz else mret false
    end
  else mret true.

Definition copyuvm (pgdir sz : Z) : K Z :=
  d ← setupkvm;
  if d =? 0 then mret 0 else
  ok ← copyuvm_loop (Z.to_nat (sz / PGSIZE + 1)) pgdir d 0 sz;
  if (ok : bool) then mret d else freevm d;; mret 0.

(** The entry is read without a test for null. *)
Definition uva2ka (pgdir uva : Z) : K Z :=
  pte ← walkpgdir pgdir uva false;
  v ← load_ptr pte;
  if negb (has v PTE_P) then mret 0
  else if negb (has v PTE_U) then mret 0
  else mret (P2V (PTE_ADDR v)).

(** The loop of copyout on the bytes [bs] still to copy; [true] for 0. *)
Fixpoint copyout_loop (n : nat) (pgdir va : Z) (bs : list Z) : K bool :=
  match bs with
  | [] => mret true
  | _ =>
      match n with
      | O => nofuel
      | S n' =>
          let va0 := PGROUNDDOWN va in
          pa0 ← uva2ka pgdir va0;
          if pa0 =? 0 then mret false else
          let n := PGSIZE - (va - va0) in
          let n := if Z.of_nat (length bs) <? n then Z.of_nat (length bs) else n in
          modify (λ s, s <| mem ::= λ m, put_bytes m (uadd pa0 (va - va0)) (take (Z.to_nat n) bs) |>);;
          copyout_loop n' pgdir (uadd va0 PGSIZE) (drop (Z.to_nat n) bs)
      end
  end.

(** Every round but the first and the last copies a page. *)
Definition copyout (pgdir va : Z) (bs : list Z) : K bool :=
  copyout_loop (Z.to_nat (Z.of_nat (length bs) / PGSIZE + 2)) pgdir va bs.
End Vm.

(** ** Indices and entries *)

Lemma PDX_div va : is_u32 va → PDX va = va / 2 ^ 22.
Proof.
  intros Hva. unfold PDX, PDXSHIFT. change 1023 with (Z.ones 10).
  rewrite Z.land_ones, Z.shiftr_div_pow2 by lia. apply Z.mod_small.
  unfold is_u32 in Hva. split; [apply Z.div_pos; lia|apply Z.div_lt_upper_bound; lia].
Qed.

Lemma PTX_div va : is_u32 va → PTX va = (va / 2 ^ 12) mod 2 ^ 10.
Proof.
  intros Hva. unfold PTX, PTXSHIFT. change 1023 with (Z.ones 10).
  by rewrite Z.land_ones, Z.shiftr_div_pow2 by lia.
Qed.

(** The number of the page of [va] and its two indices. *)
Definition vpn (va : Z) : Z := va / PGSIZE.

Lemma vpn_split va : is_u32 va → vpn va = PDX va * 2 ^ 10 + PTX va.
Proof.
  intros Hva. rewrite PDX_div, PTX_div by done. unfold vpn. change PGSIZE with (2 ^ 12).
  replace (2 ^ 22) with (2 ^ 12 * 2 ^ 10) by reflexivity. rewrite <- Z.div_div by lia.
  pose proof (Z_div_mod_eq_full (va / 2 ^ 12) (2 ^ 10)). lia.
Qed.

Lemma PDX_range va : is_u32 va → 0 ≤ PDX va < 1024.
Proof.
  intros Hva. rewrite PDX_div by done. unfold is_u32 in Hva.
  split; [apply Z.div_pos; lia|apply Z.div_lt_upper_bound; lia].
Qed.

Lemma PTX_range va : is_u32 va → 0 ≤ PTX va < 1024.
Proof. intros Hva. rewrite PTX_div by done. apply Z.mod_pos_bound. lia. Qed.

Lemma vpn_inj va va' :
  is_u32 va → is_u32 va' → PDX va = PDX va' → PTX va = PTX va' → vpn va = vpn va'.
Proof. intros. rewrite !vpn_split by done. congruence. Qed.

Lemma PDX_vpn va va' : is_u32 va → is_u32 va' → vpn va = vpn va' → PDX va = PDX va' ∧ PTX va = PTX va'.
Proof.
  intros H H'. rewrite !vpn_split by done.
  pose proof (PTX_range va H). pose proof (PTX_range va' H'). lia.
Qed.

(** A page address with flags in its low bits. *)
Lemma lor_flags x f : x mod PGSIZE = 0 → 0 ≤ f < PGSIZE → Z.lor x f = x + f.
Proof.
  intros Hx Hf. rewrite <- Z.lxor_lor, <- Z.add_nocarry_lxor; [done| |].
  all: apply Z.bits_inj'; intros i Hi; rewrite Z.land_spec, Z.bits_0.
  all: destruct (decide (i < 12)) as [Hlt|Hge];
    [rewrite <- (Z.mod_pow2_bits_low x 12 i), (Hx : x mod 2 ^ 12 = 0), Z.bits_0 by lia; done|].
  all: rewrite <- (Z.mod_small f (2 ^ 12)), Z.mod_pow2_bits_high, andb_false_r by (unfold PGSIZE in *; lia); done.
Qed.

Lemma PTE_ADDR_flags x f :
  is_u32 (x + f) → x mod PGSIZE = 0 → 0 ≤ f < PGSIZE → PTE_ADDR (x + f) = x.
Proof.
  intros Hr Hx Hf. unfold PTE_ADDR. change 4096 with PGSIZE. rewrite land_page_mask by done.
  rewrite Z.add_mod, Hx, Z.add_0_l, Z.mod_mod, (Z.mod_small f) by (unfold PGSIZE in *; lia). lia.
Qed.

Lemma PTE_FLAGS_flags x f : x mod PGSIZE = 0 → 0 ≤ f < PGSIZE → PTE_FLAGS (x + f) = f.
Proof.
  intros Hx Hf. unfold PTE_FLAGS. change 4095 with (Z.ones 12). rewrite Z.land_ones by lia.
  change (2 ^ 12) with PGSIZE. rewrite Z.add_mod, Hx by done.
  rewrite Z.add_0_l, Z.mod_mod by done. by apply Z.mod_small.
Qed.

(** A flag bit of an entry is a flag bit of its low twelve bits. *)
Lemma has_flags x f b : x mod PGSIZE = 0 → 0 ≤ f < PGSIZE → 0 ≤ b < PGSIZE → has (x + f) b = has f b.
Proof.
  intros Hx Hf Hb. unfold has. f_equal. f_equal. rewrite <- (lor_flags x f) by done.
  rewrite Z.land_lor_distr_l. rewrite <- (Z.lor_0_l (Z.land f b)) at 2. f_equal.
  apply Z.bits_inj'; intros i Hi; rewrite Z.land_spec, Z.bits_0.
  destruct (decide (i < 12)) as [Hlt|Hge].
  - rewrite <- (Z.mod_pow2_bits_low x 12 i), (Hx : x mod 2 ^ 12 = 0), Z.bits_0 by lia. done.
  - by rewrite <- (Z.mod_small b (2 ^ 12)), Z.mod_pow2_bits_high, andb_false_r by (unfold PGSIZE in *; lia).
Qed.

(** ** The tables of an address space *)

Section VmProof.
Context {P : Platform} {PO : PlatformOk P}.

(** [tabs] gives, by directory index, the page of each second-level table. *)
Record pt_rep (m : memory) (pgdir : Z) (tabs : gmap Z Z) : Prop := {
  pt_root : page_ok pgdir;
  pt_tab : ∀ i t, tabs !! i = Some t → 0 ≤ i < 1024 ∧ page_ok t ∧ t ≠ pgdir;
  pt_inj : ∀ i j t, tabs !! i = Some t → tabs !! j = Some t → i = j;
  pt_pde : ∀ i, 0 ≤ i < 1024 →
    load32 m (pgdir + 4 * i) = match tabs !! i with Some t => V2P t + 7 | None => 0 end
}.

(** The entry that translates [va]; 0 where there is no table. *)
Definition entry (m : memory) (tabs : gmap Z Z) (va : Z) : Z :=
  match tabs !! PDX va with Some t => load32 m (t + 4 * PTX va) | None => 0 end.

Definition owns (pgdir : Z) (tabs : gmap Z Z) (p : Z) : Prop := p = pgdir ∨ ∃ i, tabs !! i = Some p.

Definition vm_inv (s : kernel) (pgdir : Z) (tabs : gmap Z Z) (ps : list Z) : Prop :=
  kmem_ok s ∧ free_inv s ps ∧ pt_rep (mem s) pgdir tabs ∧ (∀ p, p ∈ ps → ¬ owns pgdir tabs p).

Lemma V2P_page t : page_ok t → V2P t = t - KERNBASE ∧ V2P t mod PGSIZE = 0 ∧ 0 < V2P t < PHYSTOP.
Proof.
  intros Ht. pose proof (page_ok_range t Ht) as [Hr Ha]. destruct Ht as (_ & _ & Hhi).
  assert (V2P t = t - KERNBASE) as ->.
  { unfold V2P, usub. apply u32_small. unfold is_u32, KERNLINK, KERNBASE, EXTMEM in *. lia. }
  split; [done|]. split; [|unfold KERNLINK, EXTMEM in *; lia].
  rewrite Zminus_mod, Ha. by vm_compute.
Qed.

Lemma P2V_V2P t : page_ok t → P2V (V2P t) = t.
Proof.
  intros Ht. destruct (V2P_page t Ht) as (-> & _). apply page_ok_range in Ht as [Ht _].
  unfold P2V, uadd. rewrite u32_small; [lia|].
  unfold is_u32, KERNLINK, KERNBASE, EXTMEM in *. lia.
Qed.

(** A directory entry leads back to its table. *)
Lemma pde_table t : page_ok t → P2V (PTE_ADDR (V2P t + 7)) = t ∧ has (V2P t + 7) PTE_P = true.
Proof.
  intros Ht. destruct (V2P_page t Ht) as (Hv & Ha & Hr). split.
  - rewrite PTE_ADDR_flags; [by apply P2V_V2P| |done|done].
    unfold is_u32, PHYSTOP in *. lia.
  - rewrite has_flags; [done|done|done|done].
Qed.

Lemma table_slot t k : page_ok t → 0 ≤ k < 1024 → uadd t (4 * k) = t + 4 * k ∧ t + 4 * k ≠ 0.
Proof.
  intros (_ & Hlo & Hhi) Hk. pose proof link_data. pose proof data_end.
  split; [apply u32_small|]; unfold is_u32, KERNLINK, KERNBASE, EXTMEM, PHYSTOP in *; lia.
Qed.

(** The state after walkpgdir has put the free page [p] in directory slot [i]. *)
Definition with_table (s : kernel) (pgdir i p : Z) : kernel :=
  s <| freelist := load32 (mem s) p |>
    <| mem := store32 (memset (mem s) p 0 PGSIZE) (pgdir + 4 * i) (V2P p + 7) |>.

Lemma walkpgdir_run s pgdir tabs ps va alloc :
  vm_inv s pgdir tabs ps → is_u32 va →
  walkpgdir pgdir va alloc s =
    match tabs !! PDX va with
    | Some t => Ret (t + 4 * PTX va) s
    | None =>
        if alloc then
          match ps with
          | [] => Ret 0 s
          | p :: _ => Ret (p + 4 * PTX va) (with_table s pgdir (PDX va) p)
          end
        else Ret 0 s
    end.
Proof.
  intros (Hl & Hf & Hpt & _) Hva. pose proof (PDX_range va Hva) as Hi. pose proof (PTX_range va Hva) as Hk.
  unfold walkpgdir, load. run. rewrite (proj1 (table_slot _ _ (pt_root _ _ _ Hpt) Hi)).
  rewrite (pt_pde _ _ _ Hpt) by done. destruct (tabs !! PDX va) as [t|] eqn:E.
  - destruct (pt_tab _ _ _ Hpt _ _ E) as (_ & Ht & _). destruct (pde_table t Ht) as [-> ->].
    by rewrite (proj1 (table_slot _ _ Ht Hk)).
  - destruct alloc; cbn [negb]; [|done]. change (has 0 PTE_P) with false. cbv iota.
    destruct ps as [|p ps].
    + by erewrite bind_run by (apply (kalloc_run s []); done).
    + erewrite bind_run by (apply (kalloc_run s (p :: ps)); done). cbv beta.
      apply kalloc_pop in Hf as (Hp & _ & _). destruct (Z.eqb_spec p 0) as [->|_].
      { by apply page_ok_nz in Hp. }
      run. unfold store. run. rewrite (proj1 (table_slot _ _ Hp Hk)).
      destruct (V2P_page p Hp) as (_ & Ha & _).
      rewrite <- !Z.lor_assoc. rewrite (lor_flags (V2P p)) by done. done.
Qed.

(** Every word of a fresh table is zero. *)
Lemma load32_memset m p k : 0 ≤ k < 1024 → load32 (memset m p 0 PGSIZE) (p + 4 * k) = 0.
Proof.
  intros Hk. unfold load32. rewrite !memset_bytes by (unfold PGSIZE; lia).
  unfold PGSIZE. bool_cases; cbn [andb]; (done || lia).
Qed.

(** Words of one page are not touched by stores to another. *)
Lemma load32_memset_other m p q k :
  page_ok p → page_ok q → p ≠ q → 0 ≤ k < 1024 →
  load32 (memset m p 0 PGSIZE) (q + 4 * k) = load32 m (q + 4 * k).
Proof.
  intros Hp Hq Hne Hk. apply load32_ext. intros x Hx. rewrite memset_bytes by (unfold PGSIZE; lia).
  pose proof (page_apart p q Hp Hq Hne) as Hap. unfold PGSIZE in *.
  bool_cases; cbn; (done || lia).
Qed.

Lemma load32_store_page m p q i k v :
  page_ok p → page_ok q → 0 ≤ i < 1024 → 0 ≤ k < 1024 → (p ≠ q ∨ i ≠ k) →
  load32 (store32 m (p + 4 * i) v) (q + 4 * k) = load32 m (q + 4 * k).
Proof.
  intros Hp Hq Hi Hk Hne. apply load_store32_other. destruct (decide (p = q)) as [->|Hpq]; [lia|].
  pose proof (page_apart p q Hp Hq Hpq). unfold PGSIZE in *. lia.
Qed.

Lemma with_table_inv s pgdir tabs p ps i :
  vm_inv s pgdir tabs (p :: ps) → 0 ≤ i < 1024 → tabs !! i = None →
  vm_inv (with_table s pgdir i p) pgdir (<[i := p]> tabs) ps
  ∧ (∀ va, is_u32 va →
       entry (mem (with_table s pgdir i p)) (<[i := p]> tabs) va = entry (mem s) tabs va)
  ∧ (∀ x, page_of x ≠ p → page_of x ≠ pgdir → mem (with_table s pgdir i p) x = mem s x).
Proof.
  intros (Hl & Hf & Hpt & Hown) Hi Hnone. apply kalloc_pop in Hf as (Hp & Hpn & Hf).
  assert (Hroot := pt_root _ _ _ Hpt).
  assert (Hpd : p ≠ pgdir) by (intros ->; apply (Hown pgdir); [set_solver|by left]).
  assert (Hpt' : ∀ j t, tabs !! j = Some t → p ≠ t)
    by (intros j t Ht ->; apply (Hown t); [set_solver|right; eauto]).
  assert (Hframe : ∀ x, page_of x ≠ p → page_of x ≠ pgdir → mem (with_table s pgdir i p) x = mem s x).
  { intros x H1 H2. unfold with_table. sst. rewrite (page_of_in p x Hp) in H1.
    rewrite (page_of_in pgdir x Hroot) in H2. unfold PGSIZE in *.
    rewrite store32_other, memset_bytes by (unfold PGSIZE; lia). unfold PGSIZE.
    bool_cases; cbn; (done || lia). }
  split_and!; [| |done].
  - split_and!; [done| | |].
    + apply free_inv_ext with (s := s <| freelist := load32 (mem s) p |>); [done|done|].
      intros q x Hq Hx. sst. destruct Hf as (_ & _ & Hok). rewrite Forall_forall in Hok.
      apply (page_of_in q x (Hok q Hq)) in Hx. symmetry. apply Hframe.
      * rewrite Hx. by intros ->.
      * rewrite Hx. intros ->. apply (Hown pgdir); [set_solver|by left].
    + split; [done| | |].
      * intros j t [[-> ->]|[? Ht]]%lookup_insert_Some; [done|by eapply pt_tab].
      * intros j k t [[<- <-]|[Hj Ht]]%lookup_insert_Some [[<- E]|[Hk Ht']]%lookup_insert_Some.
        -- done.
        -- by apply Hpt' in Ht'.
        -- subst t. by apply Hpt' in Ht.
        -- by eapply pt_inj.
      * intros j Hj. unfold with_table. sst. destruct (decide (i = j)) as [->|Hij].
        -- rewrite load_store32, lookup_insert_eq. apply u32_small.
           destruct (V2P_page p Hp) as (_ & _ & ?). unfold is_u32, PHYSTOP in *. lia.
        -- rewrite load32_store_page, load32_memset_other, lookup_insert_ne by auto.
           by eapply pt_pde.
    + intros q Hq [->|[j [[-> ->]|[? Ht]]%lookup_insert_Some]]; [|done|].
      * apply (Hown pgdir); [set_solver|by left].
      * apply (Hown q); [set_solver|right; eauto].
  - intros va Hva. unfold entry, with_table. sst. destruct (decide (i = PDX va)) as [->|Hij].
    + rewrite lookup_insert_eq, Hnone. rewrite load32_store_page by (auto using PTX_range).
      apply load32_memset. by apply PTX_range.
    + rewrite lookup_insert_ne by done. destruct (tabs !! PDX va) as [t|] eqn:E; [|done].
      destruct (pt_tab _ _ _ Hpt _ _ E) as (_ & Ht & Htd).
      rewrite load32_store_page, load32_memset_other by (eauto using PTX_range). done.
Qed.

(** Writing the entry of [va]. *)
Lemma set_pte s pgdir tabs ps va t v :
  vm_inv s pgdir tabs ps → is_u32 va → tabs !! PDX va = Some t → is_u32 v →
  vm_inv (s <| mem ::= λ m, store32 m (t + 4 * PTX va) v |>) pgdir tabs ps
  ∧ (∀ va', is_u32 va' →
       entry (store32 (mem s) (t + 4 * PTX va) v) tabs va'
       = if vpn va' =? vpn va then v else entry (mem s) tabs va')
  ∧ (∀ x, page_of x ≠ t → store32 (mem s) (t + 4 * PTX va) v x = mem s x).
Proof.
  intros (Hl & Hf & Hpt & Hown) Hva E Hv. destruct (pt_tab _ _ _ Hpt _ _ E) as (Hi & Ht & Htd).
  pose proof (PTX_range va Hva) as Hk.
  assert (Hframe : ∀ x, page_of x ≠ t → store32 (mem s) (t + 4 * PTX va) v x = mem s x).
  { intros x Hx. rewrite (page_of_in t x Ht) in Hx. unfold PGSIZE in Hx.
    apply store32_other. lia. }
  split_and!; [| |done].
  - split_and!; [done| | |done].
    + apply free_inv_ext with (s := s); [done|done|]. intros q x Hq Hx. sst. symmetry. apply Hframe.
      destruct Hf as (_ & _ & Hok). rewrite Forall_forall in Hok.
      apply (page_of_in q x (Hok q Hq)) in Hx. rewrite Hx. intros ->.
      apply (Hown t Hq). right. eauto.
    + destruct Hpt as [Hroot Htab Hinj Hpde]. split; [done..|]. intros j Hj. sst.
      rewrite load32_store_page by auto. by apply Hpde.
  - intros va' Hva'. unfold entry. pose proof (PTX_range va' Hva').
    destruct (Z.eqb_spec (vpn va') (vpn va)) as [Heq|Hne].
    + destruct (PDX_vpn va' va Hva' Hva Heq) as [-> ->]. rewrite E, load_store32.
      by apply u32_small.
    + destruct (tabs !! PDX va') as [t'|] eqn:E'; [|done].
      destruct (pt_tab _ _ _ Hpt _ _ E') as (_ & Ht' & _).
      apply load32_store_page; [done..|]. destruct (decide (t = t')) as [->|]; [right|by left].
      intros Heq. apply Hne. apply vpn_inj; [done..| |congruence].
      by eapply (pt_inj _ _ _ Hpt).
Qed.

Lemma entry_load s tabs va t : tabs !! PDX va = Some t → load32 (mem s) (t + 4 * PTX va) = entry (mem s) tabs va.
Proof. intros E. unfold entry. by rewrite E. Qed.

(** What mappages leaves alone. *)
Record vm_step (s s' : kernel) (pgdir : Z) (tabs tabs' : gmap Z Z) (ps ps' : list Z) : Prop := {
  vs_inv : vm_inv s' pgdir tabs' ps';
  vs_grow : tabs ⊆ tabs';
  vs_new : ∀ i t, tabs' !! i = Some t → tabs !! i = Some t ∨ t ∈ ps;
  vs_free : ∃ us, ps = us ++ ps' ∧ (∀ t, t ∈ us → ∃ i, tabs' !! i = Some t);
  vs_frame : ∀ x, ¬ owns pgdir tabs' (page_of x) → mem s' x = mem s x;
  vs_rest : s' = s <| mem := mem s' |> <| freelist := freelist s' |>
}.

Lemma vm_step_trans s1 s2 s3 pgdir t1 t2 t3 p1 p2 p3 :
  vm_step s1 s2 pgdir t1 t2 p1 p2 → vm_step s2 s3 pgdir t2 t3 p2 p3 →
  vm_step s1 s3 pgdir t1 t3 p1 p3.
Proof.
  intros [I1 G1 N1 (u1 & -> & U1) F1 R1] [I2 G2 N2 (u2 & -> & U2) F2 R2]. split.
  - done.
  - by etrans.
  - intros i t Ht. destruct (N2 i t Ht) as [Ht2|]; [|set_solver].
    by apply N1.
  - exists (u1 ++ u2). rewrite app_assoc. split; [done|]. intros t [Ht|Ht]%elem_of_app; [|by auto].
    destruct (U1 t Ht) as [i Hi]. exists i. by eapply lookup_weaken.
  - intros x Hx. rewrite F2 by done. apply F1. intros [E|[i Hi]]; [apply Hx; by left|].
    apply Hx. right. exists i. by eapply lookup_weaken.
  - rewrite R2, R1. by destruct s1.
Qed.

(** The new tables are for addresses in [Q]. *)
Definition tables_for (tabs tabs' : gmap Z Z) (Q : Z → Prop) : Prop :=
  ∀ i, is_Some (tabs' !! i) → is_Some (tabs !! i) ∨ ∃ va, is_u32 va ∧ Q va ∧ i = PDX va.

Lemma tables_for_refl tabs Q : tables_for tabs tabs Q.
Proof. intros i Hi. by left. Qed.

Lemma tables_for_trans t1 t2 t3 (Q : Z → Prop) : tables_for t1 t2 Q → tables_for t2 t3 Q → tables_for t1 t3 Q.
Proof. intros H1 H2 i Hi. destruct (H2 i Hi) as [Hi2|]; [by apply H1|by right]. Qed.

Lemma tables_for_mono t1 t2 (Q Q' : Z → Prop) : (∀ va, is_u32 va → Q va → Q' va) → tables_for t1 t2 Q → tables_for t1 t2 Q'.
Proof. intros HQ H i Hi. destruct (H i Hi) as [|(va & Hu & Hv & ->)]; [by left|right; eauto]. Qed.

(** walkpgdir with [alloc]: either there is no memory for a table, or there is
    a table for [va] afterwards, and no entry has changed. *)
Lemma walk_alloc s pgdir tabs ps va :
  vm_inv s pgdir tabs ps → is_u32 va →
  (ps = [] ∧ tabs !! PDX va = None ∧ walkpgdir pgdir va true s = Ret 0 s) ∨
  (∃ s' tabs' ps' t, walkpgdir pgdir va true s = Ret (t + 4 * PTX va) s'
     ∧ tabs' !! PDX va = Some t ∧ page_ok t ∧ vm_step s s' pgdir tabs tabs' ps ps'
     ∧ (∀ va', is_u32 va' → entry (mem s') tabs' va' = entry (mem s) tabs va')
     ∧ tables_for tabs tabs' (λ v, vpn v = vpn va)).
Proof.
  intros Hinv Hva. pose proof (PDX_range va Hva) as Hi. rewrite (walkpgdir_run _ _ _ _ _ _ Hinv Hva).
  destruct (tabs !! PDX va) as [t|] eqn:E.
  - right. exists s, tabs, ps, t. destruct Hinv as (Hl & Hf & Hpt & Hown).
    destruct (pt_tab _ _ _ Hpt _ _ E) as (_ & Ht & _). split_and!; [done..| |done|apply tables_for_refl].
    split; [done|done|by left| |done|by destruct s]. exists []. split; [done|]. by intros ? ?%elem_of_nil.
  - destruct ps as [|p ps]; [left; done|right].
    destruct (with_table_inv s pgdir tabs p ps (PDX va) Hinv Hi E) as (Hinv' & Hent & Hfr).
    assert (Hp : page_ok p) by (by destruct Hinv as (_ & (?&?&_)%kalloc_pop & _)).
    exists (with_table s pgdir (PDX va) p), (<[PDX va := p]> tabs), ps, p.
    split_and!; [done|by rewrite lookup_insert_eq|done| |done|].
    2:{ intros i [t Ht]. apply lookup_insert_Some in Ht as [[<- _]|[_ Ht]]; [right; by exists va|by left]. }
    split.
    + done.
    + by apply insert_subseteq.
    + intros j t [[<- <-]|[? Ht]]%lookup_insert_Some; [right; by constructor|by left].
    + exists [p]. split; [done|]. intros t ->%list_elem_of_singleton. exists (PDX va).
      by rewrite lookup_insert_eq.
    + intros x Hx. apply Hfr; intros Hpx; apply Hx; [right|by left].
      exists (PDX va). by rewrite lookup_insert_eq, Hpx.
    + by destruct s.
Qed.

Lemma vpn_add a j : a mod PGSIZE = 0 → vpn (a + j * PGSIZE) = vpn a + j.
Proof. intros. unfold vpn. by rewrite Z.div_add. Qed.

Lemma vm_step_refl s pgdir tabs ps : vm_inv s pgdir tabs ps → vm_step s s pgdir tabs tabs ps ps.
Proof.
  intros H. split; [done|done|by left| |done|by destruct s].
  exists []. split; [done|]. by intros ? ?%elem_of_nil.
Qed.

(** Storing a present entry for the unmapped page [a]. *)
Lemma map_page s pgdir tabs ps a t v :
  vm_inv s pgdir tabs ps → is_u32 a → tabs !! PDX a = Some t → is_u32 v →
  vm_step s (s <| mem ::= λ m, store32 m (t + 4 * PTX a) v |>) pgdir tabs tabs ps ps
  ∧ ∀ va, is_u32 va → entry (mem (s <| mem ::= λ m, store32 m (t + 4 * PTX a) v |>)) tabs va
                      = if vpn va =? vpn a then v else entry (mem s) tabs va.
Proof.
  intros Hinv Ha Ht Hv. destruct (set_pte s pgdir tabs ps a t v Hinv Ha Ht Hv) as (Hinv' & Hent & Hfr).
  split; [|done]. split; [done|done|by left| | |by destruct s].
  - exists []. split; [done|]. by intros ? ?%elem_of_nil.
  - intros x Hx. sst. apply Hfr. intros Hpx. apply Hx. right. exists (PDX a). by rewrite Hpx.
Qed.

(** The pages [a], [a + PGSIZE], ... (as many as [k]) mapped to consecutive
    physical pages from [pa]. *)
Definition mapped (e e' : Z → Z) (a k pa perm : Z) : Prop :=
  ∀ va, is_u32 va →
    e' va = if ((vpn a <=? vpn va) && (vpn va <? vpn a + k))%bool
            then pa + (vpn va - vpn a) * PGSIZE + Z.lor perm PTE_P else e va.

Lemma pte_value pa perm :
  pa mod PGSIZE = 0 → 0 ≤ pa < 2 ^ 32 → 0 ≤ perm < PGSIZE →
  Z.lor (Z.lor pa perm) PTE_P = pa + Z.lor perm PTE_P
  ∧ 0 ≤ Z.lor perm PTE_P < PGSIZE ∧ is_u32 (pa + Z.lor perm PTE_P).
Proof.
  intros Ha Hpa Hperm.
  assert (Hf : 0 ≤ Z.lor perm PTE_P < PGSIZE).
  { split; [apply Z.lor_nonneg; unfold PTE_P; lia|].
    change PGSIZE with (2 ^ 12). apply Z.log2_lt_cancel. rewrite Z.log2_lor by (unfold PTE_P; lia).
    change (Z.log2 PTE_P) with 0. change (Z.log2 (2 ^ 12)) with 12.
    pose proof (Z.log2_nonneg perm). rewrite Z.max_l by done.
    destruct (decide (perm = 0)) as [->|]; [by vm_compute|]. apply Z.log2_lt_pow2; unfold PGSIZE in *; lia. }
  rewrite <- Z.lor_assoc, lor_flags by done. split_and!; [done|lia|lia|].
  unfold is_u32. unfold PGSIZE in *. pose proof (Z_div_mod_eq_full pa 4096). lia.
Qed.

(** One round of mappages, up to the test for the last page. *)
Lemma map_round pgdir a pa perm s tabs ps (k : K bool) :
  vm_inv s pgdir tabs ps → is_u32 a → pa mod PGSIZE = 0 → 0 ≤ pa < 2 ^ 32 → 0 ≤ perm < PGSIZE →
  has (entry (mem s) tabs a) PTE_P = false →
  let body := (pte ← walkpgdir pgdir a true;
               if pte =? 0 then mret false else
               v ← load pte;
               if has v PTE_P then panic "remap" else
               store pte (Z.lor (Z.lor pa perm) PTE_P);; k) in
  (ps = [] ∧ body s = Ret false s) ∨
  (∃ s' tabs' ps', body s = k s' ∧ vm_step s s' pgdir tabs tabs' ps ps'
     ∧ mapped (entry (mem s) tabs) (entry (mem s') tabs') a 1 pa perm ∧ tables_for tabs tabs' (λ v, vpn v = vpn a)).
Proof.
  intros Hinv Hau Hpa Hpar Hperm Hfree body. unfold body.
  destruct (walk_alloc s pgdir tabs ps a Hinv Hau)
    as [(-> & Hn & Hw)|(s1 & tabs1 & ps1 & t & Hw & Ht & Htok & Hstep & Hent & Hfor)].
  - left. by rewrite (bind_run _ _ _ _ _ Hw).
  - right. destruct (pte_value pa perm Hpa Hpar Hperm) as (Hv & Hvf & Hvu).
    destruct (table_slot t (PTX a) Htok (PTX_range a Hau)) as [_ Hnz%Z.eqb_neq].
    rewrite (bind_run _ _ _ _ _ Hw). cbv beta. rewrite Hnz.
    unfold load. run. rewrite (entry_load _ _ _ _ Ht), Hent, Hfree by done.
    unfold store. run. rewrite Hv.
    destruct (map_page s1 pgdir tabs1 ps1 a t _ (vs_inv _ _ _ _ _ _ _ Hstep) Hau Ht Hvu) as [Hm He].
    eexists _, tabs1, ps1. split; [done|]. split; [by eapply vm_step_trans|]. split; [|done].
    intros va Hva. rewrite He, Hent by done.
    destruct (Z.eqb_spec (vpn va) (vpn a)) as [->|]; bool_cases; cbn; (done || lia).
Qed.

Lemma mapped_0 e a pa perm : mapped e e a 0 pa perm.
Proof. intros va _. by destruct (Z.leb_spec (vpn a) (vpn va)), (Z.ltb_spec (vpn va) (vpn a + 0)); cbn; try lia. Qed.

Lemma mapped_S e1 e2 e3 a k pa perm :
  a mod PGSIZE = 0 → 0 ≤ k →
  mapped e1 e2 a 1 pa perm → mapped e2 e3 (a + PGSIZE) k (pa + PGSIZE) perm →
  mapped e1 e3 a (1 + k) pa perm.
Proof.
  intros Ha Hk H1 H2 va Hva. rewrite H2, H1 by done.
  assert (vpn (a + PGSIZE) = vpn a + 1) as -> by (rewrite <- (vpn_add a 1) by done; f_equal; lia).
  bool_cases; cbn; try lia; try done.
Qed.

Lemma mappages_loop_run pgdir perm n : ∀ a pa s tabs ps,
  vm_inv s pgdir tabs ps → a mod PGSIZE = 0 → pa mod PGSIZE = 0 → 0 ≤ perm < PGSIZE →
  0 ≤ a → a + Z.of_nat n * PGSIZE < 2 ^ 32 → 0 ≤ pa → pa + Z.of_nat n * PGSIZE < 2 ^ 32 →
  (∀ va, is_u32 va → vpn a ≤ vpn va ≤ vpn a + Z.of_nat n → has (entry (mem s) tabs va) PTE_P = false) →
  ∃ r s' tabs' ps' k,
    mappages_loop n pgdir a (a + Z.of_nat n * PGSIZE) pa perm s = Ret r s'
    ∧ vm_step s s' pgdir tabs tabs' ps ps'
    ∧ 0 ≤ k ≤ Z.of_nat n + 1 ∧ (if r : bool then k = Z.of_nat n + 1 else ps' = [] ∧ k ≤ Z.of_nat n)
    ∧ mapped (entry (mem s) tabs) (entry (mem s') tabs') a k pa perm
    ∧ tables_for tabs tabs' (λ v, vpn a ≤ vpn v ≤ vpn a + Z.of_nat n).
Proof.
  induction n as [|n IH]; intros a pa s tabs ps Hinv Ha Hpa Hperm Ha0 Halast Hpa0 Hplast Hfree;
    cbn [mappages_loop];
    (assert (Hau : is_u32 a) by (unfold is_u32, PGSIZE in *; lia));
    (assert (Hpar : 0 ≤ pa < 2 ^ 32) by (unfold PGSIZE in *; lia));
    (match goal with |- context [store _ _;; ?k] =>
       destruct (map_round pgdir a pa perm s tabs ps k Hinv Hau Hpa Hpar Hperm)
         as [[-> Hr]|(s1 & tabs1 & ps1 & Hr & Hs & Hm & Hf1)]; [apply Hfree; [done|lia]| |] end).
  - exists false, s, tabs, [], 0. rewrite Hr. split_and!; try done; try lia.
    + by apply vm_step_refl.
    + apply mapped_0.
    + apply tables_for_refl.
  - exists true, s1, tabs1, ps1, 1. rewrite Hr, Z.mul_0_l, Z.add_0_r, Z.eqb_refl. split_and!; try done. revert Hf1. apply tables_for_mono. lia.
  - exists false, s, tabs, [], 0. rewrite Hr. split_and!; try done; try lia.
    + by apply vm_step_refl.
    + apply mapped_0.
    + apply tables_for_refl.
  - rewrite Hr. unfold PGSIZE in Halast, Hplast. destruct (Z.eqb_spec a (a + Z.of_nat (S n) * PGSIZE)) as [E|_];
      [unfold PGSIZE in E; lia|].
    unfold uadd. rewrite !u32_small by (unfold is_u32, PGSIZE; lia).
    replace (a + Z.of_nat (S n) * PGSIZE) with (a + PGSIZE + Z.of_nat n * PGSIZE) by (unfold PGSIZE; lia).
    assert (Hvp : vpn (a + PGSIZE) = vpn a + 1)
      by (rewrite <- (vpn_add a 1) by done; f_equal; lia).
    destruct (IH (a + PGSIZE) (pa + PGSIZE) s1 tabs1 ps1) as (r & s2 & tabs2 & ps2 & k & Hr2 & Hs2 & Hk & Hrk & Hm2 & Hf2).
    + by destruct Hs.
    + by rewrite Z.add_mod, Ha by done.
    + by rewrite Z.add_mod, Hpa by done.
    + done.
    + unfold PGSIZE; lia.
    + unfold PGSIZE; lia.
    + unfold PGSIZE; lia.
    + unfold PGSIZE; lia.
    + intros va Hva Hr'. rewrite Hm by done.
      destruct (Z.leb_spec (vpn a) (vpn va)), (Z.ltb_spec (vpn va) (vpn a + 1)); cbn [andb]; try lia.
      apply Hfree; [done|lia].
    + exists r, s2, tabs2, ps2, (1 + k). rewrite Hr2. split_and!; [done|by eapply vm_step_trans|lia|lia| | |].
      * destruct r; [lia|]. destruct Hrk. split; [done|lia].
      * eapply mapped_S; (done || lia).
      * apply (tables_for_trans _ tabs1); [revert Hf1|revert Hf2]; apply tables_for_mono; lia.
Qed.

(** mappages of an unmapped range: the pages that the bytes [va] to
    [va + size - 1] touch are mapped, in order, to the physical pages from
    [pa]; it fails only when the free list is empty, and then a prefix of the
    range is mapped. *)
Lemma mappages_run pgdir va size pa perm s tabs ps :
  vm_inv s pgdir tabs ps → is_u32 va → 0 < size → va + size ≤ 2 ^ 32 →
  pa mod PGSIZE = 0 → 0 ≤ perm < PGSIZE → 0 ≤ pa →
  let n := vpn (va + size - 1) - vpn va in
  pa + n * PGSIZE < 2 ^ 32 →
  (∀ v, is_u32 v → vpn va ≤ vpn v ≤ vpn va + n → has (entry (mem s) tabs v) PTE_P = false) →
  ∃ r s' tabs' ps' k,
    mappages pgdir va size pa perm s = Ret r s'
    ∧ vm_step s s' pgdir tabs tabs' ps ps'
    ∧ 0 ≤ k ≤ n + 1 ∧ (if r : bool then k = n + 1 else ps' = [] ∧ k ≤ n)
    ∧ mapped (entry (mem s) tabs) (entry (mem s') tabs') va k pa perm
    ∧ tables_for tabs tabs' (λ v, vpn va ≤ vpn v ≤ vpn va + n).
Proof.
  intros Hinv Hva Hsz Hend Hpa Hperm Hpa0 n Hpn Hfree. unfold mappages.
  assert (Hl : is_u32 (va + size - 1)) by (unfold is_u32 in *; lia).
  assert (Hn0 : 0 ≤ n) by (unfold n, vpn, PGSIZE; pose proof (Z.div_le_mono va (va + size - 1) 4096); lia).
  replace (usub (uadd va size) 1) with (va + size - 1)
    by (unfold usub, uadd; rewrite u32_sub_l; by rewrite u32_small).
  rewrite !PGROUNDDOWN_spec by done.
  set (a := va - va mod PGSIZE). set (last := va + size - 1 - (va + size - 1) mod PGSIZE).
  assert (Ea : a = vpn va * PGSIZE)
    by (unfold a, vpn; pose proof (Z_div_mod_eq_full va PGSIZE); unfold PGSIZE in *; lia).
  assert (El : last = a + n * PGSIZE)
    by (rewrite Ea; unfold last, n, vpn; pose proof (Z_div_mod_eq_full (va + size - 1) PGSIZE);
        unfold PGSIZE in *; lia).
  assert (Hvpn : vpn a = vpn va) by (unfold vpn at 1; rewrite Ea; by apply Z.div_mul).
  assert (Hlast : last < 2 ^ 32)
    by (unfold last, is_u32 in *; pose proof (Z.mod_pos_bound (va + size - 1) PGSIZE ltac:(done)); lia).
  assert (Ha0 : 0 ≤ a).
  { rewrite Ea. unfold vpn, PGSIZE, is_u32 in *. pose proof (Z.div_pos va 4096). lia. }
  replace (usub last a) with (n * PGSIZE)
    by (unfold usub; rewrite u32_small by (unfold is_u32, PGSIZE in *; lia); lia).
  rewrite Z.div_mul by done. rewrite El.
  destruct (mappages_loop_run pgdir perm (Z.to_nat n) a pa s tabs ps) as (r & s' & tabs' & ps' & k & H);
    rewrite ?Z2Nat.id, ?Hvpn in * by done; try done.
  - rewrite Ea. by apply Z_mod_mult.
  - lia.
  - exists r, s', tabs', ps', k. unfold mapped in *. by rewrite Hvpn in H.
Qed.
End VmProof.
