(* ===== verification/Apic.v ===== *)
(** Interrupt controllers, the real-time clock and the discovery of
    processors (lapic.c, ioapic.c, picirq.c, mp.c).

    The devices answer a read as the machine decides, from the history of the
    accesses so far ([Hardware]); the kernel keeps that history in [iolog]. *)

From S2P Require Import Prelude Types Strings Printf Kalloc Spinlock Console Vm.

Class Hardware := {
  hw_inb : list ioev → Z → Z;
  hw_reg : list ioev → Z → Z
}.

(** The constants of traps.h, lapic.c and ioapic.c. *)
Definition T_IRQ0 : Z := 32.
Definition IRQ_TIMER : Z := 0.
Definition IRQ_KBD : Z := 1.
Definition IRQ_COM1 : Z := 4.
Definition IRQ_IDE : Z := 14.
Definition IRQ_ERROR : Z := 19.
Definition IRQ_SPURIOUS : Z := 31.

Definition LID : Z := 32 / 4.
Definition VER : Z := 48 / 4.
Definition TPR : Z := 128 / 4.
Definition EOI : Z := 176 / 4.
Definition SVR : Z := 240 / 4.
Definition LENABLE : Z := 256.
Definition ESR : Z := 640 / 4.
Definition ICRLO : Z := 768 / 4.
Definition LINIT : Z := 1280.
Definition STARTUP : Z := 1536.
Definition DELIVS : Z := 4096.
Definition ASSERT : Z := 16384.
Definition LEVEL : Z := 32768.
Definition BCAST : Z := 524288.
Definition ICRHI : Z := 784 / 4.
Definition TIMER : Z := 800 / 4.
Definition X1 : Z := 11.
Definition PERIODIC : Z := 131072.
Definition PCINT : Z := 832 / 4.
Definition LINT0 : Z := 848 / 4.
Definition LINT1 : Z := 864 / 4.
Definition LERROR : Z := 880 / 4.
Definition MASKED : Z := 65536.
Definition TICR : Z := 896 / 4.
Definition TDCR : Z := 992 / 4.

Definition IOAPIC : Z := 4273995776.
Definition REG_ID : Z := 0.
Definition REG_VER : Z := 1.
Definition REG_TABLE : Z := 16.
Definition INT_DISABLED : Z := 65536.

Definition CMOS_PORT : Z := 112.
Definition CMOS_RETURN : Z := 113.
Definition CMOS_STATA : Z := 10.
Definition CMOS_STATB : Z := 11.
Definition CMOS_UIP : Z := 128.

(** [struct rtcdate] of date.h. *)
Record rtcdate := mkRtcdate { second : Z; minute : Z; hour : Z; day : Z; month : Z; year : Z }.

#[export] Instance rtcdate_eq_dec : EqDecision rtcdate.
Proof. solve_decision. Defined.

Definition io (e : ioev) : K unit := modify (λ s, s <| iolog ::= λ l, l ++ [e] |>).
Definition outb (port v : Z) : K unit := io (OutB port (u8 v)).
Definition outm (addr v : Z) : K unit := io (OutM addr (u32 v)).

Section Apic.
Context {P : Platform} {H : Hardware}.

Definition inb (port : Z) : K Z :=
  l ← gets iolog;
  let v := u8 (hw_inb l port) in
  io (InB port v);;
  mret v.

Definition inm (addr : Z) : K Z :=
  l ← gets iolog;
  let v := u32 (hw_reg l addr) in
  io (InM addr v);;
  mret v.

(** ** lapic.c *)

(** [lapic[index]]. *)
Definition lapic_reg (index : Z) : K Z := base ← gets lapic; mret (uadd base (4 * index)).
Definition lapicr (index : Z) : K Z := a ← lapic_reg index; inm a.

Definition lapicw (index value : Z) : K unit :=
  a ← lapic_reg index;
  outm a value;;
  lapicr LID;;
  mret tt.

(** [while(lapic[ICRLO] & DELIVS)], polled [n] times at most. *)
Fixpoint wait_delivered (n : nat) : K unit :=
  v ← lapicr ICRLO;
  if Z.land v DELIVS =? 0 then mret tt else
  match n with O => nofuel | S n' => wait_delivered n' end.

Definition lapicinit : K unit :=
  base ← gets lapic;
  if base =? 0 then mret tt else
  lapicw SVR (Z.lor LENABLE (T_IRQ0 + IRQ_SPURIOUS));;
  lapicw TDCR X1;;
  lapicw TIMER (Z.lor PERIODIC (T_IRQ0 + IRQ_TIMER));;
  lapicw TICR 10000000;;
  lapicw LINT0 MASKED;;
  lapicw LINT1 MASKED;;
  v ← lapicr VER;
  when (4 <=? Z.land (Z.shiftr v 16) 255) (lapicw PCINT MASKED);;
  lapicw LERROR (T_IRQ0 + IRQ_ERROR);;
  lapicw ESR 0;;
  lapicw ESR 0;;
  lapicw EOI 0;;
  lapicw ICRHI 0;;
  lapicw ICRLO (Z.lor (Z.lor BCAST LINIT) LEVEL);;
  wait_delivered fuel;;
  lapicw TPR 0.

Definition lapicid : K Z :=
  base ← gets lapic;
  if base =? 0 then mret 0 else
  v ← lapicr LID;
  mret (Z.shiftr v 24).

Definition lapiceoi : K unit :=
  base ← gets lapic;
  when (negb (base =? 0)) (lapicw EOI 0).

(** lapicstartap; [wrv[i]] are 16-bit stores and microdelay does nothing. *)
Definition lapicstartap (apicid addr : Z) : K unit :=
  outb CMOS_PORT 15;;
  outb (CMOS_PORT + 1) 10;;
  let wrv := P2V (Z.lor (Z.shiftl 64 4) 103) in
  modify (λ s, s <| mem ::= λ m, put_bytes m wrv [0; 0; u8 (Z.shiftr addr 4); u8 (Z.shiftr addr 12)] |>);;
  lapicw ICRHI (Z.shiftl apicid 24);;
  lapicw ICRLO (Z.lor (Z.lor LINIT LEVEL) ASSERT);;
  lapicw ICRLO (Z.lor LINIT LEVEL);;
  for_each [0; 1] (λ _,
    lapicw ICRHI (Z.shiftl apicid 24);;
    lapicw ICRLO (Z.lor STARTUP (Z.shiftr addr 12))).

Definition cmos_read (reg : Z) : K Z :=
  outb CMOS_PORT reg;;
  inb CMOS_RETURN.

Definition fill_rtcdate : K rtcdate :=
  second ← cmos_read 0;
  minute ← cmos_read 2;
  hour ← cmos_read 4;
  day ← cmos_read 7;
  month ← cmos_read 8;
  year ← cmos_read 9;
  mret (mkRtcdate second minute hour day month year).

(** [for(;;)]: two equal readings with no update in progress between them;
    [n] bounds the attempts. *)
Fixpoint cmos_stable (n : nat) : K rtcdate :=
  match n with
  | O => nofuel
  | S n' =>
      t1 ← fill_rtcdate;
      a ← cmos_read CMOS_STATA;
      if negb (Z.land a CMOS_UIP =? 0) then cmos_stable n' else
      t2 ← fill_rtcdate;
      if bool_decide (t1 = t2) then mret t1 else cmos_stable n'
  end.

(** [CONV(x)]. *)
Definition bcd_conv (x : Z) : Z := Z.shiftr x 4 * 10 + Z.land x 15.
Definition conv_date (t : rtcdate) : rtcdate :=
  mkRtcdate (bcd_conv (second t)) (bcd_conv (minute t)) (bcd_conv (hour t))
    (bcd_conv (day t)) (bcd_conv (month t)) (bcd_conv (year t)).

Definition cmostime : K rtcdate :=
  sb ← cmos_read CMOS_STATB;
  let bcd := Z.land sb (Z.shiftl 1 2) =? 0 in
  t1 ← cmos_stable fuel;
  let t1 := if bcd then conv_date t1 else t1 in
  mret (mkRtcdate (second t1) (minute t1) (hour t1) (day t1) (month t1) (year t1 + 2000)).

(** ** ioapic.c *)

Definition ioapicread (reg : Z) : K Z :=
  outm IOAPIC reg;;
  inm (IOAPIC + 16).

Definition ioapicwrite (reg data : Z) : K unit :=
  outm IOAPIC reg;;
  outm (IOAPIC + 16) data.

Definition ioapicinit : K unit :=
  v ← ioapicread REG_VER;
  let maxintr := Z.land (Z.shiftr v 16) 255 in
  r ← ioapicread REG_ID;
  let id := Z.shiftr r 24 in
  want ← gets ioapicid;
  when (negb (id =? want))
    (cprintf (Some (chars "ioapicinit: id isn't equal to ioapicid; not a MP" ++ [10])) []);;
  for_each (Z.of_nat <$> seq 0 (Z.to_nat (maxintr + 1))) (λ i,
    ioapicwrite (REG_TABLE + 2 * i) (Z.lor INT_DISABLED (T_IRQ0 + i));;
    ioapicwrite (REG_TABLE + 2 * i + 1) 0).

Definition ioapicenable (irq cpunum : Z) : K unit :=
  ioapicwrite (REG_TABLE + 2 * irq) (T_IRQ0 + irq);;
  ioapicwrite (REG_TABLE + 2 * irq + 1) (Z.shiftl cpunum 24).

(** ** picirq.c *)

Definition picinit : K unit :=
  outb (32 + 1) 255;;
  outb (160 + 1) 255.

(** ** mp.c *)

(** [sum] in a [uchar]. *)
Definition sum (m : memory) (addr : Z) (len : nat) : Z := u8 (foldl Z.add 0 (bytes_at m addr len)).

Definition MPSIZE : Z := 16.
Definition MPCONFSIZE : Z := 44.
Definition MPPROCSIZE : Z := 20.
Definition MPIOAPICSIZE : Z := 8.
Definition NCPU : nat := 8.

(** The loop of mpsearch1 over the [n] positions that are left; memcmp with a
    literal is a comparison with its characters. *)
Fixpoint mpsearch1_loop (n : nat) (m : memory) (p : Z) : option Z :=
  match n with
  | O => None
  | S n' =>
      if (bool_decide (bytes_at m p 4 = chars "_MP_") && (sum m p (Z.to_nat MPSIZE) =? 0))%bool
      then Some p else mpsearch1_loop n' m (p + MPSIZE)
  end.

Definition mpsearch1 (m : memory) (a len : Z) : option Z :=
  mpsearch1_loop (Z.to_nat ((len + MPSIZE - 1) / MPSIZE)) m (P2V a).

Definition mpsearch (m : memory) : option Z :=
  let bda := P2V 1024 in
  let p := Z.shiftl (Z.lor (Z.shiftl (m (bda + 15)) 8) (m (bda + 14))) 4 in
  let first :=
    if negb (p =? 0) then mpsearch1 m p 1024
    else let p := Z.lor (Z.shiftl (m (bda + 20)) 8) (m (bda + 19)) * 1024 in mpsearch1 m (usub p 1024) 1024 in
  match first with
  | Some mp => Some mp
  | None => mpsearch1 m 983040 65536
  end.

(** The fields of [struct mp] and [struct mpconf] that are read. *)
Definition mp_physaddr (m : memory) (mp : Z) : Z := load32 m (mp + 4).
Definition mp_imcrp (m : memory) (mp : Z) : Z := m (mp + 12).
Definition conf_length (m : memory) (conf : Z) : Z := m (conf + 4) + Z.shiftl (m (conf + 5)) 8.
Definition conf_version (m : memory) (conf : Z) : Z := m (conf + 6).
Definition conf_lapicaddr (m : memory) (conf : Z) : Z := load32 m (conf + 36).

(** mpconfig: the table and the floating pointer. *)
Definition mpconfig (m : memory) : option (Z * Z) :=
  match mpsearch m with
  | None => None
  | Some mp =>
      if mp_physaddr m mp =? 0 then None else
      let conf := P2V (mp_physaddr m mp) in
      if negb (bool_decide (bytes_at m conf 4 = chars "PCMP")) then None else
      if (negb (conf_version m conf =? 1) && negb (conf_version m conf =? 4))%bool then None else
      if negb (sum m conf (Z.to_nat (conf_length m conf)) =? 0) then None else
      Some (conf, mp)
  end.

(** The loop of mpinit from [p] to [e].  The [break] of the default case leaves
    the switch and not the loop, and [p] stays where it is. *)
Fixpoint mpinit_loop (n : nat) (p e : Z) (ismp : bool) : K bool :=
  if p <? e then
    match n with
    | O => nofuel
    | S n' =>
        m ← gets mem;
        let t := m p in
        if t =? 0 then
          modify (λ s, if (length (apicids s) <? NCPU)%nat then s <| apicids ::= λ l, l ++ [m (p + 1)] |> else s);;
          mpinit_loop n' (p + MPPROCSIZE) e ismp
        else if t =? 2 then
          modify (λ s, s <| ioapicid := m (p + 1) |>);;
          mpinit_loop n' (p + MPIOAPICSIZE) e ismp
        else if ((t =? 1) || (t =? 3) || (t =? 4))%bool then
          mpinit_loop n' (p + 8) e ismp
        else mpinit_loop n' p e false
    end
  else mret ismp.

(** [n] bounds the number of table entries. *)
Definition mpinit (n : nat) : K unit :=
  m ← gets mem;
  match mpconfig m with
  | None => panic "Expect to run on an SMP"
  | Some (conf, mp) =>
      modify (λ s, s <| lapic := conf_lapicaddr m conf |>);;
      ismp ← mpinit_loop n (conf + MPCONFSIZE) (conf + conf_length m conf) true;
      if negb ismp then panic "Didn't find a suitable machine" else
      when (negb (mp_imcrp m mp =? 0))
        (outb 34 112;;
         v ← inb 35;
         outb 35 (Z.lor v 1))
  end.

(** ** console.c and uart.c *)

(** The device table [devsw] is in Condev.v. *)
Definition consoleinit : K unit :=
  upd_cons (λ k, k <| cs_locking := true |>);;
  ioapicenable IRQ_KBD 0.

Definition COM1 : Z := 1016.

Definition uartinit : K unit :=
  outb (COM1 + 2) 0;;
  outb (COM1 + 3) 128;;
  outb (COM1 + 0) (115200 / 9600);;
  outb (COM1 + 1) 0;;
  outb (COM1 + 3) 3;;
  outb (COM1 + 4) 0;;
  outb (COM1 + 1) 1;;
  st ← inb (COM1 + 5);
  if st =? 255 then mret tt else
  upd_cons (λ k, k <| has_uart := true |>);;
  inb (COM1 + 2);;
  inb (COM1 + 0);;
  ioapicenable IRQ_COM1 0;;
  for_each (chars "xv6..." ++ [10]) uartputc.
End Apic.
