(* ===== verification/Uvm.v ===== *)
(** The address spaces of processes: what allocuvm, deallocuvm, copyuvm,
    setupkvm, freevm and copyout of vm.c do to the memory a process sees.

    The user half of an address space is a finite map from page numbers to the
    frame that holds the page and its flags; its frames and tables belong to
    it alone. *)

From S2P Require Import Prelude Types Strings Spinlock Printf Kalloc Sched Console Vm.

Section Uvm.
Context {P : Platform} {PO : PlatformOk P}.

(** Number of user pages. *)
Definition NUPAGES : Z := KERNBASE / PGSIZE.

Record as_inv (s : kernel) (pgdir : Z) (tabs : gmap Z Z) (ps : list Z) (um : gmap Z (Z * Z)) : Prop := {
  as_vm : vm_inv s pgdir tabs ps;
  as_entry : ∀ va, 0 ≤ va < KERNBASE →
    entry (mem s) tabs va = match um !! vpn va with Some (f, fl) => V2P f + fl | None => 0 end;
  as_frame : ∀ v f fl, um !! v = Some (f, fl) →
    0 ≤ v < NUPAGES ∧ page_ok f ∧ 0 ≤ fl < PGSIZE ∧ has fl PTE_P = true
    ∧ f ∉ ps ∧ ¬ owns pgdir tabs f;
  as_inj : ∀ v v' f fl fl', um !! v = Some (f, fl) → um !! v' = Some (f, fl') → v = v'
}.

(** ** Frames *)

Lemma page_of_word t k x : page_ok t → 0 ≤ k < 1024 → t + 4 * k ≤ x < t + 4 * k + 4 → page_of x = t.
Proof. intros Ht Hk Hx. apply page_of_in; [done|]. unfold PGSIZE. lia. Qed.

Lemma owns_ok m pgdir tabs p : pt_rep m pgdir tabs → owns pgdir tabs p → page_ok p.
Proof. intros Hpt [->|[i Hi]]; [by eapply pt_root|]. by eapply pt_tab. Qed.

(** Tables and entries depend only on the pages of the tables. *)
Lemma entry_ext m m' pgdir tabs va :
  pt_rep m pgdir tabs → is_u32 va → (∀ x, owns pgdir tabs (page_of x) → m' x = m x) →
  entry m' tabs va = entry m tabs va.
Proof.
  intros Hpt Hva Hm. unfold entry. destruct (tabs !! PDX va) as [t|] eqn:E; [|done].
  apply load32_ext. intros x Hx. apply Hm. right. exists (PDX va).
  rewrite (page_of_word t (PTX va)); [done| |by apply PTX_range|done]. by eapply pt_tab.
Qed.

Lemma pt_rep_ext m m' pgdir tabs :
  pt_rep m pgdir tabs → (∀ x, owns pgdir tabs (page_of x) → m' x = m x) → pt_rep m' pgdir tabs.
Proof.
  intros Hpt Hm. destruct Hpt as [Hroot Htab Hinj Hpde]. split; [done..|]. intros i Hi.
  rewrite <- Hpde by done. apply load32_ext. intros x Hx. apply Hm. left.
  by apply (page_of_word pgdir i).
Qed.

(** A state that differs only in memory the allocator and the tables do not use. *)
Lemma vm_inv_ext s s' pgdir tabs ps :
  vm_inv s pgdir tabs ps → freelist s' = freelist s → use_lock s' = use_lock s → held s' = held s →
  (∀ x, owns pgdir tabs (page_of x) ∨ page_of x ∈ ps → mem s' x = mem s x) →
  vm_inv s' pgdir tabs ps.
Proof.
  intros (Hl & Hf & Hpt & Hown) Hfl Hul Hh Hm. split_and!; [|  | |done].
  - unfold kmem_ok. by rewrite Hul, Hh.
  - apply free_inv_ext with (s := s); [done|done|]. intros q x Hq Hx. symmetry. apply Hm. right.
    destruct Hf as (_ & _ & Hok). rewrite Forall_forall in Hok.
    by rewrite (proj2 (page_of_in q x (Hok q Hq)) Hx).
  - eapply pt_rep_ext; [done|]. intros x Hx. apply Hm. by left.
Qed.

(** Freeing a page that is neither free nor a table. *)
Lemma vm_inv_kfree s pgdir tabs ps f :
  vm_inv s pgdir tabs ps → page_ok f → f ∉ ps → ¬ owns pgdir tabs f →
  vm_inv (kfreed s f) pgdir tabs (f :: ps)
  ∧ (∀ va, is_u32 va → entry (mem (kfreed s f)) tabs va = entry (mem s) tabs va).
Proof.
  intros (Hl & Hf & Hpt & Hown) Hok Hn Ho.
  assert (Hm : ∀ x, owns pgdir tabs (page_of x) → mem (kfreed s f) x = mem s x).
  { intros x Hx. apply kfreed_mem; [done|]. intros E. by rewrite E in Hx. }
  split.
  - split_and!; [done|by apply kfree_push|by eapply pt_rep_ext|].
    intros q [->|Hq]%elem_of_cons; [done|by apply Hown].
  - intros va Hva. by eapply entry_ext.
Qed.

Lemma NUPAGES_vpn va : 0 ≤ va < KERNBASE ↔ 0 ≤ vpn va < NUPAGES.
Proof.
  unfold vpn, NUPAGES, KERNBASE, PGSIZE. change (2147483648 / 4096) with 524288.
  pose proof (Z_div_mod_eq_full va 4096). pose proof (Z.mod_pos_bound va 4096). lia.
Qed.

Lemma user_u32 va : 0 ≤ va < KERNBASE → is_u32 va.
Proof. unfold is_u32, KERNBASE. lia. Qed.

(** The entry of a user page. *)
Lemma user_entry f fl :
  page_ok f → 0 ≤ fl < PGSIZE →
  is_u32 (V2P f + fl) ∧ P2V (PTE_ADDR (V2P f + fl)) = f ∧ PTE_ADDR (V2P f + fl) = V2P f
  ∧ PTE_FLAGS (V2P f + fl) = fl ∧ ∀ b, 0 ≤ b < PGSIZE → has (V2P f + fl) b = has fl b.
Proof.
  intros Hf Hfl. destruct (V2P_page f Hf) as (_ & Ha & Hr).
  assert (is_u32 (V2P f + fl)) by (unfold is_u32, PHYSTOP, PGSIZE in *; lia).
  split_and!; [done|..].
  - rewrite PTE_ADDR_flags by done. by apply P2V_V2P.
  - by apply PTE_ADDR_flags.
  - by apply PTE_FLAGS_flags.
  - intros b Hb. by apply has_flags.
Qed.

(** ** Unmapping *)

(** Unmapping user page [v] and giving its frame back. *)
Lemma as_unmap s pgdir tabs ps um a f fl t :
  as_inv s pgdir tabs ps um → 0 ≤ a < KERNBASE → um !! vpn a = Some (f, fl) →
  tabs !! PDX a = Some t →
  let s' := (kfreed s f) <| mem ::= λ m, store32 m (t + 4 * PTX a) 0 |> in
  as_inv s' pgdir tabs (f :: ps) (delete (vpn a) um)
  ∧ (∀ va, is_u32 va → KERNBASE ≤ va → entry (mem s') tabs va = entry (mem s) tabs va)
  ∧ (∀ x, ¬ owns pgdir tabs (page_of x) → page_of x ≠ f → mem s' x = mem s x).
Proof.
  intros [Hvm Hent Hfr Hinj] Ha Hum Ht s'. assert (Hau := user_u32 a Ha).
  destruct (Hfr _ _ _ Hum) as (Hv & Hf & Hfl & HP & Hfn & Hfo).
  destruct (vm_inv_kfree s pgdir tabs ps f Hvm Hf Hfn Hfo) as [Hvm1 He1].
  destruct (set_pte (kfreed s f) pgdir tabs (f :: ps) a t 0 Hvm1 Hau Ht) as (Hvm2 & He2 & Hm2);
    [unfold is_u32; lia|].
  split_and!.
  - split; [done| | |].
    + intros va Hva. unfold s'. sst. rewrite He2, He1 by (by apply user_u32).
      destruct (Z.eqb_spec (vpn va) (vpn a)) as [->|Hne].
      * by rewrite lookup_delete_eq.
      * rewrite lookup_delete_ne by done. by apply Hent.
    + intros v f' fl' [Hne Hv']%lookup_delete_Some.
      destruct (Hfr _ _ _ Hv') as (? & ? & ? & ? & ? & ?). split_and!; try (done || lia).
      apply not_elem_of_cons. split; [|done]. intros ->. by apply Hne, (Hinj _ _ _ _ _ Hum Hv').
    + intros v v' f' fl1 fl2 [_ H1]%lookup_delete_Some [_ H2]%lookup_delete_Some. by eapply Hinj.
  - intros va Hva Hk. unfold s'. sst. rewrite He2, He1 by done.
    destruct (Z.eqb_spec (vpn va) (vpn a)) as [E|]; [|done].
    apply NUPAGES_vpn in Ha. rewrite <- E in Ha. apply NUPAGES_vpn in Ha. lia.
  - intros x Hx Hxf. unfold s'. sst. rewrite Hm2 by (intros Hxt; apply Hx; right; exists (PDX a); by rewrite Hxt).
    by apply kfreed_mem.
Qed.

(** Pages whose address lies in [a, b). *)
Definition in_range (a b : Z) (v : Z) : Prop := a ≤ v * PGSIZE < b.
#[local] Instance in_range_dec a b v : Decision (in_range a b v).
Proof. unfold in_range. apply _. Defined.

Definition drop_range (a b : Z) (um : gmap Z (Z * Z)) : gmap Z (Z * Z) :=
  filter (λ kv, ¬ in_range a b kv.1) um.

Lemma drop_range_lookup a b um v :
  drop_range a b um !! v = if decide (in_range a b v) then None else um !! v.
Proof.
  unfold drop_range. rewrite map_lookup_filter. case_decide as H; destruct (um !! v); cbn; try done.
  - by case_guard.
  - by case_guard.
Qed.

(** What deallocuvm leaves: the pages in range are gone, their frames free. *)
Record dealloc_post (s s' : kernel) (pgdir : Z) (tabs : gmap Z Z) (ps ps' : list Z)
    (um : gmap Z (Z * Z)) (a b : Z) : Prop := {
  da_inv : as_inv s' pgdir tabs ps' (drop_range a b um);
  da_free : ∀ p, p ∈ ps' ↔ p ∈ ps ∨ ∃ v fl, in_range a b v ∧ um !! v = Some (p, fl);
  da_kern : ∀ va, is_u32 va → KERNBASE ≤ va → entry (mem s') tabs va = entry (mem s) tabs va;
  da_mem : ∀ x, ¬ owns pgdir tabs (page_of x) → page_of x ∉ ps' → mem s' x = mem s x;
  da_rest : s' = s <| mem := mem s' |> <| freelist := freelist s' |>
}.

Lemma dealloc_none s pgdir tabs ps um a b :
  as_inv s pgdir tabs ps um → (∀ v, in_range a b v → um !! v = None) →
  dealloc_post s s pgdir tabs ps ps um a b.
Proof.
  intros Has Hnone. split; [| |done|done|by destruct s].
  - replace (drop_range a b um) with um; [done|]. apply map_eq. intros v. rewrite drop_range_lookup.
    case_decide; [by apply Hnone|done].
  - intros p. split; [by left|]. intros [Hp|(v & fl & Hr & Hv)]; [done|].
    rewrite Hnone in Hv; done.
Qed.

(** A round that unmaps nothing, then the rest. *)
Lemma dealloc_skip s s' pgdir tabs ps ps' um a a' b :
  (∀ v, in_range a b v → um !! v ≠ None → in_range a' b v) → (a ≤ a') →
  dealloc_post s s' pgdir tabs ps ps' um a' b → dealloc_post s s' pgdir tabs ps ps' um a b.
Proof.
  intros Hskip Hle [H1 H2 H3 H4 H5]. split; [| |done..].
  - replace (drop_range a b um) with (drop_range a' b um); [done|].
    apply map_eq. intros v. rewrite !drop_range_lookup.
    repeat case_decide; try done.
    + unfold in_range in *. lia.
    + destruct (um !! v) eqn:E; [|done]. exfalso. apply H, Hskip; [done|]. by rewrite E.
  - intros p. rewrite H2. split; (intros [|(v & fl & Hr & Hv)]; [by left|right]); exists v, fl.
    + unfold in_range in *. split; [lia|done].
    + split; [|done]. apply Hskip; [done|]. by rewrite Hv.
Qed.

Lemma vpn_aligned a : a mod PGSIZE = 0 → vpn a * PGSIZE = a.
Proof. intros Ha. unfold vpn. pose proof (Z_div_mod_eq_full a PGSIZE). unfold PGSIZE in *. lia. Qed.

Lemma in_range_next a b v : a mod PGSIZE = 0 → in_range a b v → v ≠ vpn a → in_range (a + PGSIZE) b v.
Proof.
  intros Ha Hr Hne. apply vpn_aligned in Ha. unfold in_range, PGSIZE in *. lia.
Qed.

(** The first address beyond the directory entry of [a]. *)
Lemma next_dir a :
  0 ≤ a < KERNBASE →
  uadd (usub (PGADDR (PDX a + 1) 0 0) PGSIZE) PGSIZE = (a / 2 ^ 22 + 1) * 2 ^ 22.
Proof.
  intros Ha. rewrite PDX_div by (by apply user_u32).
  assert (0 ≤ a / 2 ^ 22 < 512).
  { unfold KERNBASE in Ha. split; [apply Z.div_pos; lia|apply Z.div_lt_upper_bound; lia]. }
  unfold PGADDR, PDXSHIFT, PTXSHIFT, uadd, usub. rewrite Z.shiftl_0_l, !Z.lor_0_r.
  rewrite Z.shiftl_mul_pow2 by lia. rewrite u32_sub_l, u32_add_l.
  rewrite u32_small; [lia|]. unfold is_u32. lia.
Qed.

(** A round that unmaps the page of [a], then the rest. *)
Lemma dealloc_cons s s1 s' pgdir tabs ps ps' um a b f fl :
  a mod PGSIZE = 0 → a < b → um !! vpn a = Some (f, fl) →
  (∀ va, is_u32 va → KERNBASE ≤ va → entry (mem s1) tabs va = entry (mem s) tabs va) →
  (∀ x, ¬ owns pgdir tabs (page_of x) → page_of x ≠ f → mem s1 x = mem s x) →
  s1 = s <| mem := mem s1 |> <| freelist := freelist s1 |> →
  dealloc_post s1 s' pgdir tabs (f :: ps) ps' (delete (vpn a) um) (a + PGSIZE) b →
  dealloc_post s s' pgdir tabs ps ps' um a b.
Proof.
  intros Ha Hab Hum Hk Hm Hs1 [H1 H2 H3 H4 H5]. assert (Hva := vpn_aligned a Ha). split.
  - replace (drop_range a b um) with (drop_range (a + PGSIZE) b (delete (vpn a) um)); [done|].
    apply map_eq. intros v. rewrite !drop_range_lookup.
    destruct (decide (v = vpn a)) as [->|Hne].
    + rewrite lookup_delete_eq, (decide_True (P := in_range a b _)) by (unfold in_range; lia).
      by case_decide.
    + rewrite lookup_delete_ne by done. unfold in_range. repeat case_decide; try done.
      * unfold PGSIZE in *; lia.
      * unfold PGSIZE in *; lia.
  - intros p. rewrite H2. rewrite elem_of_cons. split.
    + intros [[->|Hp]|(v & fl' & Hr & [? Hv]%lookup_delete_Some)]; [right|by left|right].
      * exists (vpn a), fl. split; [unfold in_range; lia|done].
      * exists v, fl'. split; [unfold in_range, PGSIZE in *; lia|done].
    + intros [Hp|(v & fl' & Hr & Hv)]; [by left; right|].
      destruct (decide (v = vpn a)) as [->|Hne]; [left; left; congruence|right].
      exists v, fl'. split; [by apply in_range_next|]. by rewrite lookup_delete_ne.
  - intros va Hva' Hk'. by rewrite H3, Hk.
  - intros x Hx Hxp. rewrite H4 by done. apply Hm; [done|]. intros E. apply Hxp, H2. rewrite E. left. by constructor.
  - rewrite H5, Hs1. by destruct s.
Qed.

(** A directory slot without a table maps nothing. *)
Lemma no_table s pgdir tabs ps um a v :
  as_inv s pgdir tabs ps um → 0 ≤ a < KERNBASE → tabs !! PDX a = None →
  a ≤ v * PGSIZE < (a / 2 ^ 22 + 1) * 2 ^ 22 → um !! v = None.
Proof.
  intros Has Ha Ht Hv. destruct (um !! v) as [[f fl]|] eqn:E; [|done]. exfalso.
  destruct (as_frame _ _ _ _ _ Has _ _ _ E) as (Hvr & Hf & Hfl & _).
  assert (Hvp : vpn (v * PGSIZE) = v) by (unfold vpn; by apply Z.div_mul).
  assert (Hva : 0 ≤ v * PGSIZE < KERNBASE) by (apply NUPAGES_vpn; by rewrite Hvp).
  pose proof (as_entry _ _ _ _ _ Has _ Hva) as He. rewrite Hvp, E in He. unfold entry in He.
  assert (Hpdx : PDX (v * PGSIZE) = PDX a).
  { rewrite !PDX_div by (by apply user_u32). pose proof (Z_div_mod_eq_full a (2 ^ 22)).
    pose proof (Z.mod_pos_bound a (2 ^ 22) ltac:(lia)).
    symmetry. apply Z.div_unique with (r := v * PGSIZE - a / 2 ^ 22 * 2 ^ 22); lia. }
  rewrite Hpdx, Ht in He. destruct (V2P_page f Hf) as (_ & _ & ?). lia.
Qed.

Lemma deallocuvm_loop_run n pgdir b : ∀ a s tabs ps um,
  as_inv s pgdir tabs ps um → a mod PGSIZE = 0 → 0 ≤ a → b ≤ KERNBASE →
  b - a ≤ Z.of_nat n * PGSIZE →
  ∃ s' ps', deallocuvm_loop n pgdir a b s = Ret tt s' ∧ dealloc_post s s' pgdir tabs ps ps' um a b.
Proof.
  induction n as [|n IH]; intros a s tabs ps um Has Ha Ha0 Hb Hn; cbn [deallocuvm_loop];
    (destruct (Z.ltb_spec a b) as [Hlt|Hge];
     [|exists s, ps; split; [done|]; apply dealloc_none; [done|]; unfold in_range; lia]).
  { lia. }
  assert (Hau : 0 ≤ a < KERNBASE) by lia. assert (Hvm := as_vm _ _ _ _ _ Has).
  assert (Hent := as_entry _ _ _ _ _ Has a Hau).
  pose proof (walkpgdir_run s pgdir tabs ps a false Hvm (user_u32 a Hau)) as Hw.
  assert (Ha' : (a + PGSIZE) mod PGSIZE = 0) by (by rewrite Z.add_mod, Ha by done).
  destruct (tabs !! PDX a) as [t|] eqn:Ht; erewrite bind_run by exact Hw; cbv beta.
  - destruct Hvm as (Hl & Hf & Hpt & Hown). destruct (pt_tab _ _ _ Hpt _ _ Ht) as (_ & Htok & _).
    destruct (table_slot t (PTX a) Htok (PTX_range a (user_u32 a Hau))) as [_ Hnz%Z.eqb_neq].
    rewrite Hnz. unfold load. run. rewrite (entry_load _ _ _ _ Ht), Hent.
    unfold uadd. rewrite u32_small by (unfold is_u32, KERNBASE, PGSIZE in *; lia).
    destruct (um !! vpn a) as [[f fl]|] eqn:Hum.
    + destruct (as_frame _ _ _ _ _ Has _ _ _ Hum) as (_ & Hfok & Hfl & HP & _).
      destruct (user_entry f fl Hfok Hfl) as (_ & Hp2v & Hpa & _ & Hhas).
      rewrite Hhas, HP by done. rewrite Hpa. destruct (V2P_page f Hfok) as (_ & _ & Hpos).
      destruct (Z.eqb_spec (V2P f) 0); [lia|]. rewrite P2V_V2P by done.
      erewrite bind_run; [|cbn [when]; run_by (by apply kfree_run); reflexivity]. cbv beta.
      destruct (as_unmap s pgdir tabs ps um a f fl t Has Hau Hum Ht) as (Has' & Hk' & Hm').
      destruct (IH (a + PGSIZE) _ tabs (f :: ps) (delete (vpn a) um) Has') as (s' & ps' & Hr & Hpost);
        [done|unfold PGSIZE; lia|done|unfold PGSIZE in *; lia|].
      exists s', ps'. split; [exact Hr|]. eapply dealloc_cons; try done.
    + change (has 0 PTE_P) with false. cbn [when]. run.
      destruct (IH (a + PGSIZE) s tabs ps um Has) as (s' & ps' & Hr & Hpost);
        [done|unfold PGSIZE; lia|done|unfold PGSIZE in *; lia|].
      exists s', ps'. split; [exact Hr|]. eapply dealloc_skip; [| |exact Hpost]; [|unfold PGSIZE; lia].
      intros v Hv Hne. apply in_range_next; [done..|]. by intros ->.
  - rewrite next_dir by done. set (a' := (a / 2 ^ 22 + 1) * 2 ^ 22).
    assert (a + PGSIZE ≤ a').
    { unfold a', PGSIZE in *. pose proof (Z_div_mod_eq_full a (2 ^ 22)).
      pose proof (Z.mod_pos_bound a (2 ^ 22) ltac:(lia)). pose proof (Z_div_mod_eq_full a 4096). lia. }
    destruct (IH a' s tabs ps um Has) as (s' & ps' & Hr & Hpost);
      [|unfold PGSIZE in *; lia|done|unfold PGSIZE in *; lia|].
    { unfold a', PGSIZE. replace ((a / 2 ^ 22 + 1) * 2 ^ 22) with ((a / 2 ^ 22 + 1) * 2 ^ 10 * 4096) by lia.
      apply Z_mod_mult. }
    exists s', ps'. split; [exact Hr|]. eapply dealloc_skip; [| |exact Hpost]; [|unfold PGSIZE in *; lia].
    intros v Hv Hne. destruct (decide (v * PGSIZE < a')).
    + exfalso. apply Hne. eapply no_table; [done|done|done|]. unfold in_range in Hv. fold a'. lia.
    + unfold in_range in *. lia.
Qed.

Lemma deallocuvm_run pgdir oldsz newsz s tabs ps um :
  as_inv s pgdir tabs ps um → 0 ≤ newsz < oldsz → oldsz ≤ KERNBASE →
  ∃ s' ps', deallocuvm pgdir oldsz newsz s = Ret newsz s'
    ∧ dealloc_post s s' pgdir tabs ps ps' um (PGROUNDUP newsz) oldsz.
Proof.
  intros Has Hn Ho. unfold deallocuvm. destruct (Z.leb_spec oldsz newsz); [lia|].
  destruct (PGROUNDUP_spec newsz) as [Ha Hr]; [lia|unfold KERNBASE, PGSIZE in *; lia|].
  destruct (deallocuvm_loop_run (Z.to_nat ((oldsz - PGROUNDUP newsz) / PGSIZE + 1)) pgdir oldsz
    (PGROUNDUP newsz) s tabs ps um Has) as (s' & ps' & Hl & Hpost); [done|lia|done| |].
  { pose proof (Z_div_mod_eq_full (oldsz - PGROUNDUP newsz) PGSIZE).
    pose proof (Z.mod_pos_bound (oldsz - PGROUNDUP newsz) PGSIZE ltac:(done)).
    unfold PGSIZE in *. lia. }
  exists s', ps'. split; [|done]. by rewrite (bind_run _ _ _ _ _ Hl).
Qed.

(** ** Mapping *)

(** Taking a page from the free list, whatever it is then filled with. *)
Lemma as_take s s' pgdir tabs f ps um :
  as_inv s pgdir tabs (f :: ps) um →
  freelist s' = load32 (mem s) f → use_lock s' = use_lock s → held s' = held s →
  (∀ x, page_of x ≠ f → mem s' x = mem s x) →
  page_ok f ∧ f ∉ ps ∧ ¬ owns pgdir tabs f ∧ (∀ v fl, um !! v ≠ Some (f, fl))
  ∧ as_inv s' pgdir tabs ps um
  ∧ (∀ va, is_u32 va → entry (mem s') tabs va = entry (mem s) tabs va).
Proof.
  intros [(Hl & Hf & Hpt & Hown) Hent Hfr Hinj] Hfl Hul Hh Hm.
  apply kalloc_pop in Hf as (Hok & Hn & Hf).
  assert (Hfo : ¬ owns pgdir tabs f) by (apply Hown; by constructor).
  assert (Hm' : ∀ x, owns pgdir tabs (page_of x) → mem s' x = mem s x)
    by (intros x Hx; apply Hm; intros E; by rewrite E in Hx).
  assert (He : ∀ va, is_u32 va → entry (mem s') tabs va = entry (mem s) tabs va)
    by (intros va Hva; by eapply entry_ext).
  split_and!; try done.
  { intros v fl Hv. destruct (Hfr _ _ _ Hv) as (_ & _ & _ & _ & Hni & _).
    apply Hni. by constructor. }
  split; [|intros va Hva; rewrite He by (by apply user_u32); by apply Hent| |done].
  - split_and!; [unfold kmem_ok; by rewrite Hul, Hh| |by eapply pt_rep_ext|].
    + apply free_inv_ext with (s := s <| freelist := load32 (mem s) f |>); [done|done|].
      intros q x Hq Hx. sst. symmetry. apply Hm. destruct Hf as (_ & _ & Hoks).
      rewrite Forall_forall in Hoks. rewrite (proj2 (page_of_in q x (Hoks q Hq)) Hx).
      by intros ->.
    + intros p Hp. apply Hown. by constructor.
  - intros v f' fl Hv. destruct (Hfr _ _ _ Hv) as (? & ? & ? & ? & Hni & ?).
    split_and!; try (done || lia). intros Hin. apply Hni. by constructor.
Qed.

(** Mapping the frame [f] at the unmapped user page [a]. *)
Lemma one_table s s' pgdir tabs tabs' ps a :
  vm_inv s pgdir tabs ps → vm_step s s' pgdir tabs tabs' ps [] → is_u32 a → tables_for tabs tabs' (λ v, vpn a ≤ vpn v ≤ vpn a) →
  (length ps ≤ 1)%nat.
Proof.
  intros (_ & (_ & Hnd & _) & _ & Hown) [_ Hgr _ (us & Hps & Hus) _ _] Hau Hfor. rewrite app_nil_r in Hps. subst us.
  assert (Hone : ∀ t, t ∈ ps → tabs' !! PDX a = Some t).
  { intros t Ht. destruct (Hus t Ht) as [i Hi]. destruct (Hfor i) as [[t' Ht']|(va & Hu & Hv & ->)]; [by eauto| |].
    - exfalso. apply (Hown t Ht). right. exists i. rewrite Ht'. f_equal. pose proof (lookup_weaken _ _ _ _ Ht' Hgr). congruence.
    - by rewrite <- (proj1 (PDX_vpn va a Hu Hau ltac:(lia))). }
  destruct ps as [|t1 [|t2 ps]]; cbn; [lia..|]. exfalso.
  pose proof (Hone t1 ltac:(by left)) as E1. pose proof (Hone t2 ltac:(by right; left)) as E2. rewrite E1 in E2. injection E2 as ->.
  apply NoDup_cons in Hnd as [Hn _]. apply Hn. by left.
Qed.

Lemma as_map s pgdir tabs ps um a f perm :
  as_inv s pgdir tabs ps um → page_ok f → f ∉ ps → ¬ owns pgdir tabs f →
  (∀ v fl, um !! v ≠ Some (f, fl)) → 0 ≤ a < KERNBASE → a mod PGSIZE = 0 → um !! vpn a = None →
  0 ≤ perm < PGSIZE →
  ∃ r s' tabs' ps', mappages pgdir a PGSIZE (V2P f) perm s = Ret r s'
    ∧ vm_step s s' pgdir tabs tabs' ps ps'
    ∧ (∀ va, is_u32 va → KERNBASE ≤ va → entry (mem s') tabs' va = entry (mem s) tabs va)
    ∧ (if r : bool then as_inv s' pgdir tabs' ps' (<[vpn a := (f, Z.lor perm PTE_P)]> um)
       else ps' = [] ∧ (length ps ≤ 1)%nat ∧ as_inv s' pgdir tabs' ps' um).
Proof.
  intros [Hvm Hent Hfr Hinj] Hf Hfn Hfo Hfu Ha Haa Hum Hperm. assert (Hau := user_u32 a Ha).
  destruct (V2P_page f Hf) as (_ & Hfa & Hfp).
  assert (Hn : vpn (a + PGSIZE - 1) - vpn a = 0).
  { unfold vpn. replace (a + PGSIZE - 1) with (PGSIZE - 1 + a / PGSIZE * PGSIZE)
      by (pose proof (Z_div_mod_eq_full a PGSIZE); lia).
    rewrite Z.div_add by done. change ((PGSIZE - 1) / PGSIZE) with 0. lia. }
  destruct (mappages_run pgdir a PGSIZE (V2P f) perm s tabs ps)
    as (r & s' & tabs' & ps' & k & Hr & Hs & Hk & Hrk & Hm & Hfor); rewrite ?Hn; try done.
  { unfold KERNBASE, PGSIZE in *; lia. } { lia. } { unfold PHYSTOP in *; lia. }
  { intros v Hv Hvv. assert (Hve : vpn v = vpn a) by lia.
    rewrite Hent, Hve, Hum; [done|]. apply NUPAGES_vpn. rewrite Hve. by apply NUPAGES_vpn. }
  rewrite Hn in Hk, Hrk, Hfor. rewrite Z.add_0_r in Hfor. destruct (pte_value (V2P f) perm) as (_ & Hpf & _); [done|unfold PHYSTOP in *; lia|done|].
  exists r, s', tabs', ps'. split; [done|]. split; [done|].
  assert (Hin : ∀ v f' fl, um !! v = Some (f', fl) → f' ∉ ps' ∧ ¬ owns pgdir tabs' f').
  { intros v f' fl Hv. destruct (Hfr _ _ _ Hv) as (_ & _ & _ & _ & Hni & Hno). split.
    - destruct (vs_free _ _ _ _ _ _ _ Hs) as (us & -> & _). intros Hi. apply Hni, elem_of_app. by right.
    - intros [->|[i Hi]]; [apply Hno; by left|].
      destruct (vs_new _ _ _ _ _ _ _ Hs i f' Hi) as [Hi'|]; [apply Hno; right; eauto|done]. }
  split.
  { intros va Hva Hkv. rewrite Hm by done. destruct (Z.leb_spec (vpn a) (vpn va)), (Z.ltb_spec (vpn va) (vpn a + k));
      cbn [andb]; try done.
    exfalso. assert (Hve : vpn va = vpn a) by lia. apply NUPAGES_vpn in Ha. rewrite <- Hve in Ha.
    apply NUPAGES_vpn in Ha. lia. }
  destruct r.
  - split; [by destruct Hs| | |].
    + intros va Hva. rewrite Hm, Hrk by (by apply user_u32).
      destruct (decide (vpn va = vpn a)) as [->|Hne].
      * rewrite lookup_insert_eq. bool_cases; cbn; try lia.
      * rewrite lookup_insert_ne by done. rewrite <- Hent by done. bool_cases; cbn; (done || lia).
    + intros v f' fl [[<- [= <- <-]]|[Hne Hv]]%lookup_insert_Some.
      * apply NUPAGES_vpn in Ha. split_and!; try (done || lia).
        -- rewrite <- (has_flags 0) by done. unfold has. rewrite Z.add_0_l, Z.land_lor_distr_l.
           change (Z.land PTE_P PTE_P) with 1. destruct (Z.eqb_spec (Z.lor (Z.land perm PTE_P) 1) 0) as [E|]; [|done].
           apply Z.lor_eq_0_iff in E. lia.
        -- destruct (vs_free _ _ _ _ _ _ _ Hs) as (us & -> & _). intros Hi. apply Hfn, elem_of_app. by right.
        -- intros [->|[i Hi]]; [apply Hfo; by left|].
           destruct (vs_new _ _ _ _ _ _ _ Hs i f Hi) as [Hi'|]; [apply Hfo; right; eauto|done].
      * destruct (Hfr _ _ _ Hv) as (? & ? & ? & ? & _ & _). destruct (Hin _ _ _ Hv). split_and!; (done || lia).
    + intros v v' f' fl fl' [[<- E]|[Hne Hv]]%lookup_insert_Some [[<- E']|[Hne' Hv']]%lookup_insert_Some;
        [done| | |by eapply Hinj].
      * injection E as <- <-. by apply Hfu in Hv'.
      * injection E' as <- <-. by apply Hfu in Hv.
  - destruct Hrk as [-> Hk0]. split; [done|]. split; [by eapply one_table|]. split; [by destruct Hs| | |done].
    + intros va Hva. rewrite <- Hent, Hm by (done || by apply user_u32).
      bool_cases; cbn; (done || lia).
    + intros v f' fl Hv. destruct (Hfr _ _ _ Hv) as (? & ? & ? & ? & _ & _).
      destruct (Hin _ _ _ Hv). split_and!; (done || lia).
Qed.

(** ** Growing

    How an operation that takes memory changes an address space: nothing is
    lost, every page that was free is free, a table, a frame or one of the
    pages [lim] the caller holds in hand afterwards, and no byte changes
    outside pages that were free and the tables. *)
Record grow (s s' : kernel) (pgdir : Z) (tabs tabs' : gmap Z Z) (ps ps' : list Z)
    (um um' : gmap Z (Z * Z)) (lim : list Z) : Prop := {
  gr_inv : as_inv s' pgdir tabs' ps' um';
  gr_lim : ∀ p, p ∈ lim → page_ok p ∧ p ∉ ps' ∧ ¬ owns pgdir tabs' p ∧ (∀ v fl, um' !! v ≠ Some (p, fl));
  gr_tabs : tabs ⊆ tabs';
  gr_um : um ⊆ um';
  gr_free : ∀ p, p ∈ ps ↔ (p ∈ ps' ∨ p ∈ lim) ∨ (∃ i, tabs' !! i = Some p ∧ tabs !! i = None)
                          ∨ (∃ v fl, um' !! v = Some (p, fl) ∧ um !! v = None);
  gr_kern : ∀ va, is_u32 va → KERNBASE ≤ va → entry (mem s') tabs' va = entry (mem s) tabs va;
  gr_mem : ∀ x, page_of x ∉ ps → ¬ owns pgdir tabs (page_of x) → mem s' x = mem s x;
  gr_cons : cons_ok (kcons s) → cons_ok (kcons s');
  gr_lock : cs_locking (kcons s') = cs_locking (kcons s);
  gr_rest : s' = s <| mem := mem s' |> <| freelist := freelist s' |> <| kcons := kcons s' |>
}.

Lemma grow_refl s pgdir tabs ps um : as_inv s pgdir tabs ps um → grow s s pgdir tabs tabs ps ps um um [].
Proof.
  intros H. split; try done.
  - by intros p ?%elem_of_nil.
  - intros p. split; [by left; left|].
    intros [[?|?%elem_of_nil]|[(i & Hi & Hn)|(v & fl & Hv & Hn)]]; done || congruence.
  - by destruct s.
Qed.

(** Pages that are neither free, nor tables, nor frames stay so. *)
Lemma grow_outside s s' pgdir tabs tabs' ps ps' um um' p :
  grow s s' pgdir tabs tabs' ps ps' um um' [] → p ∉ ps → ¬ owns pgdir tabs p →
  (∀ v fl, um !! v ≠ Some (p, fl)) →
  p ∉ ps' ∧ ¬ owns pgdir tabs' p ∧ (∀ v fl, um' !! v ≠ Some (p, fl)).
Proof.
  intros [_ _ T U F _ _ _ _ _] Hp Ho Hu. split_and!.
  - intros H. apply Hp, F. by left; left.
  - intros [->|[i Hi]]; [apply Ho; by left|]. destruct (tabs !! i) as [q|] eqn:E.
    + apply Ho. right. exists i. pose proof (lookup_weaken _ _ _ _ E T). congruence.
    + apply Hp, F. right; left. eauto.
  - intros v fl Hv. destruct (um !! v) as [q|] eqn:E.
    + pose proof (lookup_weaken _ _ _ _ E U). apply (Hu v fl). congruence.
    + apply Hp, F. right; right. eauto.
Qed.

Lemma grow_trans s1 s2 s3 pgdir t1 t2 t3 p1 p2 p3 u1 u2 u3 lim :
  grow s1 s2 pgdir t1 t2 p1 p2 u1 u2 lim → grow s2 s3 pgdir t2 t3 p2 p3 u2 u3 [] →
  grow s1 s3 pgdir t1 t3 p1 p3 u1 u3 lim.
Proof.
  intros [I1 X1 T1 U1 F1 K1 M1 C1 L1 R1] G2. pose proof G2 as [I2 _ T2 U2 F2 K2 M2 C2 L2 R2]. split.
  - done.
  - intros p Hp. destruct (X1 p Hp) as (? & ? & ? & ?). split; [done|]. by eapply grow_outside.
  - by etrans.
  - by etrans.
  - intros p. rewrite F1, F2. split.
    + intros [[[[H|?%elem_of_nil]|[(i & Hi & Hn)|(v & fl & Hv & Hn)]]|H]|[(i & Hi & Hn)|(v & fl & Hv & Hn)]].
      * by left; left.
      * done.
      * right; left. exists i. split; [done|]. by eapply lookup_weaken_None.
      * right; right. exists v, fl. split; [done|]. by eapply lookup_weaken_None.
      * by left; right.
      * right; left. exists i. split; [by eapply lookup_weaken|done].
      * right; right. exists v, fl. split; [by eapply lookup_weaken|done].
    + intros [[H|H]|[(i & Hi & Hn)|(v & fl & Hv & Hn)]].
      * left. left. by left; left.
      * left. by right.
      * destruct (t2 !! i) as [q|] eqn:E.
        -- right; left. exists i. split; [|done].
           pose proof (lookup_weaken _ _ _ _ E T2). congruence.
        -- left; left; right; left. eauto.
      * destruct (u2 !! v) as [q|] eqn:E.
        -- right; right. exists v, fl. split; [|done].
           pose proof (lookup_weaken _ _ _ _ E U2). congruence.
        -- left; left; right; right. eauto.
  - intros va Hva Hk. by rewrite K2, K1.
  - intros x Hx Ho. rewrite M2; [by apply M1| |].
    + intros Hx2. apply Hx, F1. by left; left.
    + intros [E|[i Hi]]; [apply Ho; by left|]. destruct (t1 !! i) as [q|] eqn:E.
      * apply Ho. right. exists i. pose proof (lookup_weaken _ _ _ _ E T1). congruence.
      * apply Hx, F1. right; left. eauto.
  - auto.
  - congruence.
  - rewrite R2, R1. by destruct s1.
Qed.

(** Printing does not touch memory. *)
Lemma as_cons s k pgdir tabs ps um : as_inv s pgdir tabs ps um → as_inv (s <| kcons := k |>) pgdir tabs ps um.
Proof. intros [H1 H2 H3 H4]. by split. Qed.

Lemma cprintf_grow fmt out s pgdir tabs ps um :
  as_inv s pgdir tabs ps um → cons_ok (kcons s) → cons_free s → kformat fmt [] = Some out →
  ∃ s', cprintf (Some fmt) [] s = Ret tt s' ∧ grow s s' pgdir tabs tabs ps ps um um [].
Proof.
  intros Has Hc Hf Hk. destruct (cprintf_run fmt [] out s Hc Hf Hk) as (k' & Hr & Hok & Ho & _).
  eexists. split; [exact Hr|]. destruct (grow_refl s pgdir tabs ps um Has) as [? ? ? ? ? ? ? ? ? ?].
  split; try done.
  - by apply as_cons.
  - by rewrite Ho.
Qed.

(** Undoing growth: the new user pages go back to the free list. *)
Lemma grow_dealloc s s1 s2 pgdir tabs tabs1 ps ps1 ps2 um um1 a b lim :
  grow s s1 pgdir tabs tabs1 ps ps1 um um1 lim → dealloc_post s1 s2 pgdir tabs1 ps1 ps2 um1 a b →
  (∀ v fl, um1 !! v = Some fl → um !! v = None → in_range a b v) →
  (∀ v, in_range a b v → um !! v = None) →
  grow s s2 pgdir tabs tabs1 ps ps2 um um lim.
Proof.
  intros [I1 X1 T1 U1 F1 K1 M1 C1 L1 R1] [D1 D2 D3 D4 D5] Hnew Hold.
  assert (Hdrop : drop_range a b um1 = um).
  { apply map_eq. intros v. rewrite drop_range_lookup. case_decide as Hr; [by rewrite Hold|].
    destruct (um !! v) as [x|] eqn:E; [by eapply lookup_weaken|].
    destruct (um1 !! v) as [x|] eqn:E1; [|done]. exfalso. by apply Hr, (Hnew v x). }
  assert (Hps2 : ∀ p, p ∈ ps2 ↔ p ∈ ps1 ∨ (∃ v fl, um1 !! v = Some (p, fl) ∧ um !! v = None)).
  { intros p. rewrite D2. split; (intros [?|(v & fl & H1 & H2)]; [by left|right]); exists v, fl; auto.
    by split; [eapply Hnew|]. }
  split; try done.
  - by rewrite <- Hdrop.
  - intros p Hp. destruct (X1 p Hp) as (? & ? & ? & Hu). split_and!; [done| |done|].
    + rewrite Hps2. intros [?|(v & fl & Hv & _)]; [done|]. by apply Hu in Hv.
    + intros v fl Hv. apply (Hu v fl). by eapply lookup_weaken.
  - intros p. rewrite F1, Hps2. split.
    + intros [[?|?]|[?|?]]; [by left; left; left|by left; right|by right; left|by left; left; right].
    + intros [[[?|?]|?]|[?|(v & fl & Hv & Hn)]];
        [by left; left|by right; right|by left; right|by right; left|congruence].
  - intros va Hva Hk. by rewrite D3, K1.
  - intros x Hx Ho. rewrite D4; [by apply M1| |].
    + intros [E|[i Hi]]; [apply Ho; by left|]. destruct (tabs !! i) as [q|] eqn:E.
      * apply Ho. right. exists i. pose proof (lookup_weaken _ _ _ _ E T1). congruence.
      * apply Hx, F1. right; left. eauto.
    + rewrite Hps2. intros [Hx1|Hx1]; apply Hx, F1; [by left; left|by right; right].
  - intros H. rewrite D5. by apply C1.
  - rewrite D5. done.
  - rewrite D5, R1. by destruct s.
Qed.

(** Giving the page in hand back. *)
Lemma grow_kfree s s1 pgdir tabs tabs1 ps ps1 um um1 f :
  grow s s1 pgdir tabs tabs1 ps ps1 um um1 [f] →
  kfree f s1 = Ret tt (kfreed s1 f) ∧ grow s (kfreed s1 f) pgdir tabs tabs1 ps (f :: ps1) um um1 [].
Proof.
  intros [I1 X1 T1 U1 F1 K1 M1 C1 L1 R1].
  destruct (X1 f) as (Hf & Hn & Ho & Hu); [by constructor|].
  destruct (vm_inv_kfree s1 pgdir tabs1 ps1 f (as_vm _ _ _ _ _ I1) Hf Hn Ho) as [Hvm He].
  split; [apply kfree_run; [by destruct I1 as [[? _] _ _ _]|done]|].
  split; try done.
  - destruct I1 as [_ Hent Hfr Hinj]. split; [done| | |done].
    + intros va Hva. rewrite He by (by apply user_u32). by apply Hent.
    + intros v f' fl Hv. destruct (Hfr _ _ _ Hv) as (? & ? & ? & ? & ? & ?). split_and!; try (done || lia).
      apply not_elem_of_cons. split; [|done]. intros ->. by apply Hu in Hv.
  - by intros p ?%elem_of_nil.
  - intros p. rewrite F1, !elem_of_cons, !elem_of_nil. tauto.
  - intros va Hva Hk. by rewrite He, K1.
  - intros x Hx Hxo. rewrite kfreed_mem; [by apply M1|done|]. intros E. apply Hx, F1. rewrite E.
    left; right. by constructor.
  - rewrite R1. by destruct s.
Qed.

(** Taking a free page in hand. *)
Lemma grow_take s s' pgdir tabs f ps um :
  as_inv s pgdir tabs (f :: ps) um →
  s' = s <| mem := mem s' |> <| freelist := load32 (mem s) f |> →
  (∀ x, page_of x ≠ f → mem s' x = mem s x) →
  grow s s' pgdir tabs tabs (f :: ps) ps um um [f].
Proof.
  intros Has Hs' Hm.
  destruct (as_take s s' pgdir tabs f ps um Has) as (Hf & Hn & Ho & Hu & Has' & He); try done;
    try (by rewrite Hs').
  split; try done.
  - by intros p ->%list_elem_of_singleton.
  - intros p. rewrite elem_of_cons. split; [intros [->|?]; left; [right; by constructor|by left]|].
    intros [[?|?%list_elem_of_singleton]|[(i & Hi & Hn')|(v & fl & Hv & Hn')]]; auto; congruence.
  - auto.
  - intros x Hx _. apply Hm. intros E. apply Hx. rewrite E. by constructor.
  - rewrite Hs'. done.
  - rewrite Hs'. done.
  - rewrite Hs'. by destruct s.
Qed.

(** Mapping the page in hand: it becomes a frame, or memory for a table has run
    out and it is still in hand. *)
(** The pages a [vm_step] takes from the free list are the new tables. *)
Lemma vm_step_taken s s' pgdir tabs tabs' ps ps' p :
  vm_inv s pgdir tabs ps → vm_step s s' pgdir tabs tabs' ps ps' →
  p ∈ ps ↔ p ∈ ps' ∨ ∃ i, tabs' !! i = Some p ∧ tabs !! i = None.
Proof.
  intros (_ & _ & _ & Hown) [_ Hvg Hvn (us & Hus & Hut) _ _]. rewrite Hus, elem_of_app. split.
  - intros [Hp|]; [right|by left]. destruct (Hut p Hp) as [i Hi]. exists i. split; [done|].
    destruct (tabs !! i) as [q|] eqn:E; [|done]. exfalso.
    pose proof (lookup_weaken _ _ _ _ E Hvg). assert (q = p) as -> by congruence.
    apply (Hown p); [rewrite Hus; apply elem_of_app; by left|right; eauto].
  - intros [|(i & Hi & Hn)]; [by right|].
    destruct (Hvn i p Hi) as [|Hp]; [congruence|]. rewrite Hus in Hp. by apply elem_of_app in Hp.
Qed.

(** What is new in a map since the first of three, by the second. *)
Lemma new_since {A} (m m1 m2 : gmap Z A) (i : Z) (x : A) :
  m ⊆ m1 → m1 ⊆ m2 →
  m2 !! i = Some x ∧ m !! i = None ↔ (m2 !! i = Some x ∧ m1 !! i = None) ∨ (m1 !! i = Some x ∧ m !! i = None).
Proof.
  intros H H1. split.
  - intros [Hx Hn]. destruct (m1 !! i) as [y|] eqn:E; [|by left].
    right. pose proof (lookup_weaken _ _ _ _ E H1). split; [congruence|done].
  - intros [[Hx Hn]|[Hx Hn]]; (split; [|done || by eapply lookup_weaken_None]); [done|by eapply lookup_weaken].
Qed.

(** A [vm_step] in a growing address space: the page [f] in limbo is mapped, or
    stays there. *)
Lemma grow_step s s1 s2 pgdir tabs tabs1 tabs2 ps ps1 ps2 um um1 um2 f lim :
  grow s s1 pgdir tabs tabs1 ps ps1 um um1 [f] → vm_step s1 s2 pgdir tabs1 tabs2 ps1 ps2 →
  (∀ va, is_u32 va → KERNBASE ≤ va → entry (mem s2) tabs2 va = entry (mem s1) tabs1 va) →
  as_inv s2 pgdir tabs2 ps2 um2 → um1 ⊆ um2 →
  (∀ p, p = f ↔ p ∈ lim ∨ ∃ v fl, um2 !! v = Some (p, fl) ∧ um1 !! v = None) →
  (∀ p, p ∈ lim → ∀ v fl, um2 !! v ≠ Some (p, fl)) →
  grow s s2 pgdir tabs tabs2 ps ps2 um um2 lim.
Proof.
  intros [I1 X1 T1 U1 F1 K1 M1 C1 L1 R1] Hst Hk Has2 Hsub Hlim Hlu.
  assert (Hfree := λ p, vm_step_taken _ _ _ _ _ _ _ p (as_vm _ _ _ _ _ I1) Hst). destruct Hst as [_ Hvg Hvn _ Hvf Hvr].
  destruct (X1 f) as (Hf & Hfn & Hfo & Hfu); [by constructor|]. split; try done.
  - intros p Hp. assert (p = f) as -> by (apply Hlim; by left). split_and!; [done|..|by auto].
    + intros H. apply Hfn, Hfree. by left.
    + intros [->|[i Hi]]; [apply Hfo; by left|]. destruct (Hvn i f Hi) as [|]; [apply Hfo; right; eauto|done].
  - by etrans.
  - by etrans.
  - intros p. rewrite F1, Hfree, list_elem_of_singleton, Hlim.
    setoid_rewrite (λ i, new_since tabs tabs1 tabs2 i p T1 Hvg).
    setoid_rewrite (λ v fl, new_since um um1 um2 v (p, fl) U1 Hsub). clear. naive_solver.
  - intros va Hva Hkv. by rewrite Hk, K1.
  - intros x Hx Ho. rewrite F1, Hfree in Hx. rewrite Hvf, M1; [done|by rewrite F1, Hfree|done|].
    intros [E|[i Hi]]; [apply Ho; by left|]. destruct (tabs !! i) as [q|] eqn:E.
    + apply Ho. right. exists i. pose proof (lookup_weaken _ _ _ _ (lookup_weaken _ _ _ _ E T1) Hvg). congruence.
    + apply Hx. destruct (tabs1 !! i) eqn:E1; [right; left|left; left; right; eauto].
      exists i. pose proof (lookup_weaken _ _ _ _ E1 Hvg). split; [congruence|done].
  - rewrite Hvr. done.
  - rewrite Hvr. done.
  - rewrite Hvr, R1. by destruct s.
Qed.

Lemma grow_map s s1 pgdir tabs tabs1 ps ps1 um um1 f a perm :
  grow s s1 pgdir tabs tabs1 ps ps1 um um1 [f] → 0 ≤ a < KERNBASE → a mod PGSIZE = 0 →
  um1 !! vpn a = None → 0 ≤ perm < PGSIZE →
  ∃ r s2 tabs2 ps2, mappages pgdir a PGSIZE (V2P f) perm s1 = Ret r s2
    ∧ (∀ x, page_of x ∉ ps1 → ¬ owns pgdir tabs1 (page_of x) → mem s2 x = mem s1 x)
    ∧ (if r : bool then grow s s2 pgdir tabs tabs2 ps ps2 um (<[vpn a := (f, Z.lor perm PTE_P)]> um1) []
       else ps2 = [] ∧ (length ps1 ≤ 1)%nat ∧ grow s s2 pgdir tabs tabs2 ps ps2 um um1 [f]).
Proof.
  intros G Ha Haa Hum Hperm. destruct (gr_lim _ _ _ _ _ _ _ _ _ _ G f) as (Hf & Hfn & Hfo & Hfu); [by constructor|].
  destruct (as_map s1 pgdir tabs1 ps1 um1 a f perm (gr_inv _ _ _ _ _ _ _ _ _ _ G) Hf Hfn Hfo Hfu Ha Haa Hum Hperm)
    as (r & s2 & tabs2 & ps2 & Hr & Hst & Hk & Hres).
  exists r, s2, tabs2, ps2. split; [done|]. split.
  { intros x Hx Ho. apply (vs_frame _ _ _ _ _ _ _ Hst). intros [E|[i Hi]]; [apply Ho; by left|].
    destruct (vs_new _ _ _ _ _ _ _ Hst i _ Hi) as [Hi'|]; [apply Ho; right; eauto|done]. }
  destruct r.
  - apply (grow_step _ _ _ _ _ _ _ _ _ _ _ _ _ f [] G Hst Hk Hres); [by apply insert_subseteq| |].
    + intros p. rewrite elem_of_nil. split.
      * intros ->. right. exists (vpn a), (Z.lor perm PTE_P). by rewrite lookup_insert_eq.
      * intros [?|(v & fl & [[_ E]|[_ Hv]]%lookup_insert_Some & Hn)]; congruence || done.
    + by intros p ?%elem_of_nil.
  - destruct Hres as (-> & Hl & Has2). split; [done|]. split; [done|]. apply (grow_step _ _ _ _ _ _ _ _ _ _ _ _ _ f [f] G Hst Hk Has2); [done| |].
    + intros p. rewrite list_elem_of_singleton. split; [by left|].
      intros [?|(v & fl & Hv & Hn)]; [done|congruence].
    + by intros p ->%list_elem_of_singleton.
Qed.

(** ** allocuvm *)

(** The page [v] is mapped for user access to a frame of zeros. *)
Definition zero_page (s : kernel) (um : gmap Z (Z * Z)) (v : Z) : Prop :=
  ∃ f, um !! v = Some (f, Z.lor (Z.lor PTE_W PTE_U) PTE_P) ∧ ∀ x, page_of x = f → mem s x = 0.

(** The state after [kalloc] and [memset(mem, 0, PGSIZE)]. *)
Definition zeroed (s : kernel) (f : Z) : kernel :=
  s <| freelist := load32 (mem s) f |> <| mem ::= λ m, memset m f 0 PGSIZE |>.

Lemma zeroed_mem s f x : page_ok f → mem (zeroed s f) x = if decide (page_of x = f) then 0 else mem s x.
Proof.
  intros Hf. unfold zeroed. sst. rewrite memset_bytes by done.
  case_decide as E; rewrite (page_of_in f x Hf) in E; unfold PGSIZE in *; bool_cases; cbn; (done || lia).
Qed.

(** kalloc, and filling the page it returned with anything. *)
Lemma grow_fill s s1 s2 pgdir tabs tabs1 f ps ps1 um um1 :
  grow s s1 pgdir tabs tabs1 ps (f :: ps1) um um1 [] →
  s2 = s1 <| mem := mem s2 |> <| freelist := load32 (mem s1) f |> →
  (∀ x, page_of x ≠ f → mem s2 x = mem s1 x) →
  kalloc s1 = Ret f (s1 <| freelist := load32 (mem s1) f |>)
  ∧ page_ok f ∧ f ≠ 0 ∧ grow s s2 pgdir tabs tabs1 ps ps1 um um1 [f].
Proof.
  intros G Hs2 Hm2. assert (Has := gr_inv _ _ _ _ _ _ _ _ _ _ G).
  destruct (as_vm _ _ _ _ _ Has) as (Hl & Hf & _). rewrite (kalloc_run s1 (f :: ps1) Hl Hf).
  apply kalloc_pop in Hf as (Hok & _ & _). split_and!; [done|done|by apply page_ok_nz|].
  assert (grow s1 s2 pgdir tabs1 tabs1 (f :: ps1) ps1 um1 um1 [f]) as G1 by (by apply grow_take).
  destruct G as [I1 X1 T1 U1 F1 K1 M1 C1 L1 R1], G1 as [I2 X2 _ _ F2 K2 M2 C2 L2 R2].
  split; try done.
  - intros p. rewrite F1, F2, elem_of_nil. split.
    + intros [[[?|[(?&?&?)|(?&?&?&?)]]|?]|?]; [by left|congruence|congruence|done|by right].
    + intros [?|?]; [left; left; by left|by right].
  - intros va Hva Hk. by rewrite K2, K1.
  - intros x Hx Ho. rewrite M2; [by apply M1| |].
    + intros H. apply Hx, F1. by left; left.
    + intros [E|[i Hi]]; [apply Ho; by left|]. destruct (tabs !! i) as [q|] eqn:E.
      * apply Ho. right. exists i. pose proof (lookup_weaken _ _ _ _ E T1). congruence.
      * apply Hx, F1. right; left. eauto.
  - auto.
  - by rewrite L2.
  - rewrite R2, R1. by destruct s.
Qed.

Lemma grow_zeroed s s1 pgdir tabs tabs1 f ps ps1 um um1 :
  grow s s1 pgdir tabs tabs1 ps (f :: ps1) um um1 [] →
  kalloc s1 = Ret f (s1 <| freelist := load32 (mem s1) f |>)
  ∧ page_ok f ∧ f ≠ 0 ∧ grow s (zeroed s1 f) pgdir tabs tabs1 ps ps1 um um1 [f].
Proof.
  intros G. assert (Has := gr_inv _ _ _ _ _ _ _ _ _ _ G). destruct (as_vm _ _ _ _ _ Has) as (_ & Hf & _).
  apply kalloc_pop in Hf as (Hok & _ & _). apply grow_fill; [done|by destruct s1|].
  intros x Hx. rewrite zeroed_mem by done. by rewrite decide_False.
Qed.

(** The loop of allocuvm, after pages from [a0] up to [a] have been added. *)
Record adding (s s1 : kernel) (pgdir : Z) (tabs tabs1 : gmap Z Z) (ps ps1 : list Z)
    (um um1 : gmap Z (Z * Z)) (a0 a : Z) : Prop := {
  ad_grow : grow s s1 pgdir tabs tabs1 ps ps1 um um1 [];
  ad_new : ∀ v e, um1 !! v = Some e → um !! v = None → in_range a0 a v;
  ad_zero : ∀ v, in_range a0 a v → zero_page s1 um1 v
}.

Lemma adding_step s s1 s2 pgdir tabs tabs1 tabs2 ps f ps1 ps2 um um1 a0 a :
  adding s s1 pgdir tabs tabs1 ps (f :: ps1) um um1 a0 a → a mod PGSIZE = 0 → a0 ≤ a →
  a0 mod PGSIZE = 0 → um1 !! vpn a = None → page_ok f →
  (∀ x, page_of x ∉ ps1 → ¬ owns pgdir tabs1 (page_of x) → mem s2 x = mem (zeroed s1 f) x) →
  grow s s2 pgdir tabs tabs2 ps ps2 um (<[vpn a := (f, Z.lor (Z.lor PTE_W PTE_U) PTE_P)]> um1) [] →
  adding s s2 pgdir tabs tabs2 ps ps2 um (<[vpn a := (f, Z.lor (Z.lor PTE_W PTE_U) PTE_P)]> um1) a0 (a + PGSIZE).
Proof.
  intros [G1 Hnew Hz] Ha Hle Ha0 Hum Hf Hm G2. assert (Has := gr_inv _ _ _ _ _ _ _ _ _ _ G1).
  destruct (as_vm _ _ _ _ _ Has) as (Hl & Hfi & _ & Hown). apply kalloc_pop in Hfi as (_ & Hfn & _).
  assert (Hva := vpn_aligned a Ha). split; [done| |].
  - intros v e [[<- _]|[_ Hv]]%lookup_insert_Some Hn.
    + unfold in_range, PGSIZE in *. lia.
    + specialize (Hnew v e Hv Hn). unfold in_range, PGSIZE in *. lia.
  - intros v Hv. destruct (decide (v = vpn a)) as [->|Hne].
    + exists f. rewrite lookup_insert_eq. split; [done|]. intros x Hx. rewrite Hm.
      * rewrite zeroed_mem by done. by rewrite decide_True.
      * by rewrite Hx.
      * rewrite Hx. apply Hown. by constructor.
    + destruct (Hz v) as (f' & Hf' & Hx); [unfold in_range, PGSIZE in *; lia|].
      exists f'. rewrite lookup_insert_ne by done. split; [done|]. intros x Hxf.
      destruct (as_frame _ _ _ _ _ Has _ _ _ Hf') as (_ & _ & _ & _ & Hni & Hno).
      apply not_elem_of_cons in Hni as [Hff Hni]. rewrite Hm by (by rewrite Hxf).
      rewrite zeroed_mem, decide_False by (congruence || done). by apply Hx.
Qed.

Lemma grow_cons_free s s' pgdir tabs tabs' ps ps' um um' lim :
  grow s s' pgdir tabs tabs' ps ps' um um' lim → cons_free s → cons_free s'.
Proof. intros [_ _ _ _ _ _ _ _ L R] H. unfold cons_free in *. rewrite L, R. done. Qed.

(** The error exit of allocuvm: report, and take back what was added. *)
Lemma alloc_undo s s1 pgdir tabs tabs1 ps ps1 um um1 oldsz newsz a msg out lim :
  grow s s1 pgdir tabs tabs1 ps ps1 um um1 lim → 0 ≤ oldsz < newsz → newsz ≤ KERNBASE → a ≤ newsz →
  (∀ v e, um1 !! v = Some e → um !! v = None → in_range (PGROUNDUP oldsz) a v) →
  (∀ v, in_range (PGROUNDUP oldsz) newsz v → um !! v = None) →
  cons_ok (kcons s) → cons_free s → kformat msg [] = Some out →
  ∃ s2 ps2, (∀ k : K Z, (cprintf (Some msg) [];; deallocuvm pgdir newsz oldsz;; k) s1 = k s2)
    ∧ grow s s2 pgdir tabs tabs1 ps ps2 um um lim.
Proof.
  intros G Hsz Hns Ha Hnew Hold Hc Hcf Hmsg.
  destruct (cprintf_grow msg out s1 pgdir tabs1 ps1 um1) as (s2 & Hp & G2);
    [by destruct G|by eapply gr_cons|by eapply grow_cons_free|done|].
  assert (G12 := grow_trans _ _ _ _ _ _ _ _ _ _ _ _ _ _ G G2).
  destruct (deallocuvm_run pgdir newsz oldsz s2 tabs1 ps1 um1) as (s3 & ps3 & Hd & Hpost);
    [by destruct G12|done|done|].
  exists s3, ps3. split.
  - intros k. rewrite (bind_run _ _ _ _ _ Hp). cbv beta. by rewrite (bind_run _ _ _ _ _ Hd).
  - eapply grow_dealloc; [done|done| |done]. intros v e Hv Hn. specialize (Hnew v e Hv Hn).
    unfold in_range in *. lia.
Qed.

(** What allocuvm promises. *)
Definition alloc_post (s s' : kernel) (pgdir : Z) (tabs : gmap Z Z) (ps : list Z)
    (um : gmap Z (Z * Z)) (oldsz newsz r : Z) : Prop :=
  ∃ tabs' ps',
    (r = newsz ∧ ∃ um', adding s s' pgdir tabs tabs' ps ps' um um' (PGROUNDUP oldsz) newsz)
    ∨ (r = 0 ∧ grow s s' pgdir tabs tabs' ps ps' um um []).

(** The last page may reach beyond the new size. *)
Lemma in_range_end a0 a b v :
  a mod PGSIZE = 0 → b ≤ a → a < b + PGSIZE ∨ a = a0 → in_range a0 a v ↔ in_range a0 b v.
Proof. intros Ha Hle H. apply vpn_aligned in Ha. unfold in_range, PGSIZE in *. lia. Qed.

Lemma allocuvm_loop_run n s pgdir tabs ps um oldsz newsz :
  0 ≤ oldsz ≤ newsz → newsz < KERNBASE → cons_ok (kcons s) → cons_free s →
  (∀ v, in_range (PGROUNDUP oldsz) newsz v → um !! v = None) →
  ∀ a s1 tabs1 ps1 um1,
  adding s s1 pgdir tabs tabs1 ps ps1 um um1 (PGROUNDUP oldsz) a →
  a mod PGSIZE = 0 → PGROUNDUP oldsz ≤ a → a < newsz + PGSIZE ∨ a = PGROUNDUP oldsz →
  newsz - a ≤ Z.of_nat n * PGSIZE →
  ∃ r s', allocuvm_loop n pgdir a oldsz newsz s1 = Ret r s'
    ∧ alloc_post s s' pgdir tabs ps um oldsz newsz r.
Proof.
  intros Hsz Hns Hc Hcf Hold.
  destruct (PGROUNDUP_spec oldsz) as [Ha0 Hrup]; [lia|unfold KERNBASE, PGSIZE in *; lia|].
  induction n as [|n IH]; intros a s1 tabs1 ps1 um1 A Ha Hle Hend Hn; cbn [allocuvm_loop];
    pose proof A as [G Hnew Hz];
    (destruct (Z.ltb_spec a newsz) as [Hlt|Hge]; [|exists newsz, s1; split; [done|];
       exists tabs1, ps1; left; split; [done|]; exists um1; split; [done| |];
       [intros v e Hv He; apply (in_range_end _ a); [done..|by eapply Hnew]
       |intros v Hv; apply Hz; by apply (in_range_end _ a) in Hv]]).
  { lia. }
  assert (Has := gr_inv _ _ _ _ _ _ _ _ _ _ G).
  assert (Hum : um1 !! vpn a = None).
  { apply vpn_aligned in Ha. destruct (um1 !! vpn a) as [e|] eqn:E; [|done].
    assert (Hr : in_range (PGROUNDUP oldsz) newsz (vpn a)) by (unfold in_range; lia).
    specialize (Hnew _ _ E (Hold _ Hr)). unfold in_range in Hnew. lia. }
  assert (Hfail : ∀ v e, um1 !! v = Some e → um !! v = None → in_range (PGROUNDUP oldsz) a v) by done.
  destruct ps1 as [|f ps1].
  - destruct (as_vm _ _ _ _ _ Has) as (Hl & Hf & _).
    erewrite bind_run by (by apply (kalloc_run s1 [])). cbv beta. change (0 =? 0) with true. cbv iota.
    destruct (alloc_undo s s1 pgdir tabs tabs1 ps [] um um1 oldsz newsz a
      (chars "allocuvm out of memory" ++ [10]) (chars "allocuvm out of memory" ++ [10]) [])
      as (s2 & ps2 & Hu & G2); try done; try lia.
    rewrite Hu. exists 0, s2. split; [done|]. exists tabs1, ps2. by right.
  - destruct (grow_zeroed _ _ _ _ _ _ _ _ _ _ G) as (Hk & Hfok & Hf0 & G1).
    rewrite (bind_run _ _ _ _ _ Hk). cbv beta. apply Z.eqb_neq in Hf0 as ->. run.
    destruct (grow_map _ _ _ _ _ _ _ _ _ f a (Z.lor PTE_W PTE_U) G1) as (r & s2 & tabs2 & ps2 & Hr & Hm & Hg);
      [lia|done|done|done|].
    fold (zeroed s1 f). erewrite bind_run by exact Hr. cbv beta. destruct r; cbn [negb].
    + unfold uadd. rewrite u32_small by (unfold is_u32, KERNBASE, PGSIZE in *; lia).
      apply (IH _ _ tabs2 ps2 (<[vpn a := (f, Z.lor (Z.lor PTE_W PTE_U) PTE_P)]> um1));
        [by eapply adding_step|by rewrite Z.add_mod, Ha by done|unfold PGSIZE; lia|left; lia|unfold PGSIZE in *; lia].
    + destruct Hg as (_ & _ & Hg). destruct (alloc_undo s s2 pgdir tabs tabs2 ps ps2 um um1 oldsz newsz a
        (chars "allocuvm out of memory (2)" ++ [10]) (chars "allocuvm out of memory (2)" ++ [10]) [f])
        as (s3 & ps3 & Hu & G3); try done; try lia.
      rewrite Hu. destruct (grow_kfree _ _ _ _ _ _ _ _ _ _ G3) as [Hkf G4].
      rewrite (bind_run _ _ _ _ _ Hkf). eexists 0, _. split; [done|]. exists tabs2, (f :: ps3). by right.
Qed.


(** C17: deallocuvm.  Shrinking from [oldsz] to [newsz] unmaps exactly the pages
    from the one above [newsz] up to [oldsz], whatever parts of the range have
    page tables, puts their frames on the free list, changes no other mapping
    and no memory outside the page tables and the freed frames, and returns the
    new size; a request that does not shrink is a no-op that returns [oldsz]. *)
Theorem deallocuvm_spec pgdir oldsz newsz s tabs ps um :
  as_inv s pgdir tabs ps um → 0 ≤ newsz → oldsz ≤ KERNBASE →
  if oldsz <=? newsz then deallocuvm pgdir oldsz newsz s = Ret oldsz s
  else ∃ s' ps', deallocuvm pgdir oldsz newsz s = Ret newsz s'
         ∧ dealloc_post s s' pgdir tabs ps ps' um (PGROUNDUP newsz) oldsz.
Proof.
  intros Has Hn Ho. destruct (Z.leb_spec oldsz newsz) as [H|H].
  - unfold deallocuvm. apply Z.leb_le in H. by rewrite H.
  - apply deallocuvm_run; [done|lia|done].
Qed.

(** ** copyout *)

Lemma put_bytes_lookup bs : ∀ m a x,
  put_bytes m a bs x
  = if ((a <=? x) && (x <? a + Z.of_nat (length bs)))%bool then default 0 (bs !! Z.to_nat (x - a)) else m x.
Proof.
  induction bs as [|b bs IH]; intros m a x; cbn [put_bytes length].
  - bool_cases; cbn; (done || lia).
  - rewrite IH. unfold upd. destruct (decide (x = a)) as [->|Hne].
    + rewrite Z.eqb_refl, Z.sub_diag. bool_cases; cbn; (done || lia).
    + destruct (Z.eqb_spec x a); [done|].
      bool_cases; cbn [andb]; try lia; try done.
      replace (Z.to_nat (x - a)) with (S (Z.to_nat (x - (a + 1)))) by lia. done.
Qed.

(** The byte a user program reads at [va]. *)
Definition ubyte (m : memory) (um : gmap Z (Z * Z)) (va : Z) : option Z :=
  '(f, _) ← um !! vpn va; Some (m (f + va mod PGSIZE)).

(** The entry of a page the user may access. *)
Definition user_page (um : gmap Z (Z * Z)) (va : Z) : Prop :=
  ∃ f fl, um !! vpn va = Some (f, fl) ∧ has fl PTE_U = true.

Lemma uva2ka_run s pgdir tabs ps um va f fl :
  as_inv s pgdir tabs ps um → 0 ≤ va < KERNBASE → um !! vpn va = Some (f, fl) → has fl PTE_U = true →
  uva2ka pgdir va s = Ret f s.
Proof.
  intros Has Hva Hum HU. assert (Hent := as_entry _ _ _ _ _ Has va Hva). rewrite Hum in Hent.
  destruct (as_frame _ _ _ _ _ Has _ _ _ Hum) as (_ & Hf & Hfl & HP & _).
  destruct (user_entry f fl Hf Hfl) as (_ & Hp2v & _ & _ & Hhas).
  assert (Hvm := as_vm _ _ _ _ _ Has).
  pose proof (walkpgdir_run s pgdir tabs ps va false Hvm (user_u32 va Hva)) as Hw.
  destruct (tabs !! PDX va) as [t|] eqn:Ht.
  - destruct Hvm as (_ & _ & Hpt & _). destruct (pt_tab _ _ _ Hpt _ _ Ht) as (_ & Htok & _).
    destruct (table_slot t (PTX va) Htok (PTX_range va (user_u32 va Hva))) as [_ Hnz%Z.eqb_neq].
    unfold uva2ka. rewrite (bind_run _ _ _ _ _ Hw). cbv beta. unfold load_ptr. rewrite Hnz.
    unfold load. run. rewrite (entry_load _ _ _ _ Ht), Hent, !Hhas, HP, HU by done. cbn [negb].
    by rewrite Hp2v.
  - exfalso. unfold entry in Hent. rewrite Ht in Hent. destruct (V2P_page f Hf) as (_ & _ & ?). lia.
Qed.

Lemma page_of_offset f va : page_ok f → page_of (f + va mod PGSIZE) = f.
Proof. intros Hf. apply page_of_in; [done|]. pose proof (Z.mod_pos_bound va PGSIZE ltac:(done)). lia. Qed.

(** Writing into one user page. *)
Lemma as_write s pgdir tabs ps um va f fl bs :
  as_inv s pgdir tabs ps um → 0 ≤ va < KERNBASE → um !! vpn va = Some (f, fl) →
  va mod PGSIZE + Z.of_nat (length bs) ≤ PGSIZE →
  let m' := put_bytes (mem s) (f + va mod PGSIZE) bs in
  as_inv (s <| mem := m' |>) pgdir tabs ps um
  ∧ (∀ x, page_of x ≠ f → m' x = mem s x)
  ∧ (∀ va', ubyte m' um va'
       = if ((va <=? va') && (va' <? va + Z.of_nat (length bs)))%bool
         then bs !! Z.to_nat (va' - va) else ubyte (mem s) um va').
Proof.
  intros Has Hva Hum Hlen m'. destruct (as_frame _ _ _ _ _ Has _ _ _ Hum) as (_ & Hf & _ & _ & Hfn & Hfo).
  pose proof (Z.mod_pos_bound va PGSIZE ltac:(done)) as Hmod.
  assert (Hm : ∀ x, page_of x ≠ f → m' x = mem s x).
  { intros x Hx. unfold m'. rewrite put_bytes_lookup. rewrite (page_of_in f x Hf) in Hx.
    bool_cases; cbn; (done || lia). }
  split_and!; [|done|].
  - destruct Has as [Hvm Hent Hfr Hinj]. split; [| |done..].
    + eapply vm_inv_ext; [done..|]. intros x Hx. sst. apply Hm. intros E. rewrite E in Hx.
      destruct Hx; done.
    + intros va' Hva'. sst. rewrite <- Hent by done. destruct Hvm as (_ & _ & Hpt & _).
      eapply entry_ext; [done|by apply user_u32|]. intros x Hx. apply Hm. intros E. by rewrite E in Hx.
  - intros va'. unfold ubyte. pose proof (Z.mod_pos_bound va' PGSIZE ltac:(done)).
    pose proof (Z_div_mod_eq_full va PGSIZE) as Hd. pose proof (Z_div_mod_eq_full va' PGSIZE) as Hd'.
    destruct (decide (vpn va' = vpn va)) as [E|Hne].
    + rewrite E, Hum. cbn. unfold m'. rewrite put_bytes_lookup. unfold vpn in E. rewrite E in Hd'.
      destruct (Z.leb_spec va va'), (Z.ltb_spec va' (va + Z.of_nat (length bs))); cbn [andb];
        destruct (Z.leb_spec (f + va mod PGSIZE) (f + va' mod PGSIZE)),
          (Z.ltb_spec (f + va' mod PGSIZE) (f + va mod PGSIZE + Z.of_nat (length bs))); cbn [andb];
        try lia; try done.
      replace (f + va' mod PGSIZE - (f + va mod PGSIZE)) with (va' - va) by lia.
      destruct (bs !! Z.to_nat (va' - va)) eqn:Eb; [done|]. apply lookup_ge_None in Eb. lia.
    + replace ((va <=? va') && (va' <? va + Z.of_nat (length bs)))%bool with false.
      * destruct (um !! vpn va') as [[f' fl']|] eqn:E'; [|done]. cbn. f_equal. apply Hm.
        destruct (as_frame _ _ _ _ _ Has _ _ _ E') as (_ & Hf' & _). rewrite page_of_offset by done.
        intros ->. apply Hne. by eapply (as_inj _ _ _ _ _ Has).
      * symmetry. apply andb_false_iff. destruct (Z.leb_spec va va'); [right|by left].
        apply Z.ltb_ge. unfold vpn, PGSIZE in *. lia.
Qed.

(** ** inituvm *)

(** Filling a page that was free before. *)
Lemma grow_write s s1 d tabs tabs1 ps ps1 um um1 va f fl bs :
  grow s s1 d tabs tabs1 ps ps1 um um1 [] → 0 ≤ va < KERNBASE → um1 !! vpn va = Some (f, fl) → f ∈ ps →
  va mod PGSIZE + Z.of_nat (length bs) ≤ PGSIZE →
  grow s (s1 <| mem := put_bytes (mem s1) (f + va mod PGSIZE) bs |>) d tabs tabs1 ps ps1 um um1 [].
Proof.
  intros [I X T U F K M C L R] Hva Hum Hf Hlen. destruct (as_write s1 d tabs1 ps1 um1 va f fl bs I Hva Hum Hlen) as (Has & Hm & _).
  destruct (as_frame _ _ _ _ _ I _ _ _ Hum) as (_ & _ & _ & _ & _ & Hfo). split; try done.
  - intros v Hv Hk. rewrite <- (K v Hv Hk). destruct (as_vm _ _ _ _ _ I) as (_ & _ & Hpt & _).
    eapply entry_ext; [done..|]. intros x Hx. apply Hm. intros E. by rewrite E in Hx.
  - intros x Hx Ho. etransitivity; [apply Hm|by apply M]. intros E. by rewrite E in Hx.
  - rewrite R at 1. by destruct s.
Qed.

(** inituvm makes page 0 of an empty address space hold [init] and zeros. *)
Lemma inituvm_run s d tabs ps init :
  as_inv s d tabs ps ∅ → Z.of_nat (length init) < PGSIZE → (3 ≤ length ps)%nat →
  ∃ s' f tabs' ps', inituvm d init s = Ret tt s'
    ∧ grow s s' d tabs tabs' ps ps' ∅ {[0 := (f, Z.lor (Z.lor PTE_W PTE_U) PTE_P)]} []
    ∧ ∀ va, 0 ≤ va < PGSIZE → ubyte (mem s') {[0 := (f, Z.lor (Z.lor PTE_W PTE_U) PTE_P)]} va = Some (default 0 (init !! Z.to_nat va)).
Proof.
  intros Has Hlen Hps. destruct ps as [|f ps1]; [cbn in Hps; lia|]. cbn [length] in Hps.
  destruct (grow_zeroed _ _ _ _ _ _ _ _ _ _ (grow_refl _ _ _ _ _ Has)) as (Hk & Hfok & Hf0 & G1).
  unfold inituvm. destruct (Z.leb_spec PGSIZE (Z.of_nat (length init))); [lia|].
  rewrite (bind_run _ _ _ _ _ Hk). cbv beta. apply Z.eqb_neq in Hf0 as ->. run. fold (zeroed s f).
  destruct (grow_map _ _ _ _ _ _ _ _ _ f 0 (Z.lor PTE_W PTE_U) G1) as (r & s2 & tabs2 & ps2 & Hr & Hm & Hg); [done..|].
  erewrite bind_run by exact Hr. cbv beta. destruct r; [|destruct Hg as (_ & ? & _); lia].
  change (vpn 0) with 0 in Hg. rewrite insert_empty in Hg. set (um := {[0 := (f, Z.lor (Z.lor PTE_W PTE_U) PTE_P)]}) in *.
  assert (Hum : um !! vpn 0 = Some (f, Z.lor (Z.lor PTE_W PTE_U) PTE_P)) by apply lookup_singleton_eq.
  assert (Hl0 : 0 mod PGSIZE + Z.of_nat (length init) ≤ PGSIZE) by (change (0 mod PGSIZE) with 0; lia).
  pose proof (grow_write _ _ _ _ _ _ _ _ _ 0 f _ init Hg ltac:(done) Hum ltac:(by left) Hl0) as G3.
  destruct (as_write s2 d tabs2 ps2 um 0 f _ init (gr_inv _ _ _ _ _ _ _ _ _ _ Hg) ltac:(done) Hum Hl0) as (_ & _ & Hb).
  change (f + 0 mod PGSIZE) with (f + 0) in *. rewrite Z.add_0_r in *. eexists _, f, tabs2, ps2. split; [reflexivity|]. split; [exact G3|].
  intros va Hva. change (ubyte (put_bytes (mem s2) f init) um va = Some (default 0 (init !! Z.to_nat va))). rewrite Hb, Z.sub_0_r, Z.add_0_l.
  destruct (Z.leb_spec 0 va); [|lia]. cbn [andb]. destruct (Z.ltb_spec va (Z.of_nat (length init))).
  - destruct (init !! Z.to_nat va) eqn:E; [done|]. apply lookup_ge_None in E. lia.
  - rewrite (lookup_ge_None_2 init) by lia. unfold ubyte. replace (vpn va) with (vpn 0) by (unfold vpn; by rewrite !Z.div_small by lia).
    rewrite Hum. cbn. f_equal. destruct (gr_lim _ _ _ _ _ _ _ _ _ _ G1 f) as (_ & Hn & Ho & _); [by left|].
    assert (Ep : page_of (f + va mod PGSIZE) = f) by by apply page_of_offset.
    rewrite Hm by (by rewrite Ep). rewrite zeroed_mem by done. by rewrite decide_True.
Qed.

(** The frames that back the user addresses [va] to [va + len - 1]. *)
Definition backs (um : gmap Z (Z * Z)) (va len f : Z) : Prop :=
  ∃ v fl, va ≤ v < va + len ∧ um !! vpn v = Some (f, fl).

Lemma copyout_loop_run n pgdir : ∀ bs va s tabs ps um,
  as_inv s pgdir tabs ps um → 0 ≤ va → va + Z.of_nat (length bs) ≤ KERNBASE →
  (∀ v, va ≤ v < va + Z.of_nat (length bs) → user_page um v) →
  va mod PGSIZE + Z.of_nat (length bs) ≤ Z.of_nat n * PGSIZE →
  ∃ s', copyout_loop n pgdir va bs s = Ret true s' ∧ s' = s <| mem := mem s' |>
    ∧ as_inv s' pgdir tabs ps um
    ∧ (∀ x, ¬ backs um va (Z.of_nat (length bs)) (page_of x) → mem s' x = mem s x)
    ∧ (∀ va', ubyte (mem s') um va'
         = if ((va <=? va') && (va' <? va + Z.of_nat (length bs)))%bool
           then bs !! Z.to_nat (va' - va) else ubyte (mem s) um va').
Proof.
  induction n as [|n IH]; intros bs va s tabs ps um Has Hva Hend Hup Hn;
    (destruct bs as [|b0 bs0]; [exists s; split; [done|]; split; [by destruct s|]; split; [done|]; split; [done|];
       intros va'; cbn; bool_cases; cbn; (done || lia)|]).
  { cbn [length] in Hn. pose proof (Z.mod_pos_bound va PGSIZE ltac:(done)). lia. }
  cbn [copyout_loop]. set (bs := b0 :: bs0) in *.
  assert (Hlen : 0 < Z.of_nat (length bs)) by (cbn; lia).
  pose proof (Z.mod_pos_bound va PGSIZE ltac:(done)) as Hmod.
  destruct (Hup va) as (f & fl & Hum & HU); [lia|].
  assert (Hvu : 0 ≤ va < KERNBASE) by lia. assert (Hu32 := user_u32 va Hvu).
  rewrite PGROUNDDOWN_spec by done.
  assert (Hv0 : vpn (va - va mod PGSIZE) = vpn va).
  { unfold vpn. replace (va - va mod PGSIZE) with (va / PGSIZE * PGSIZE)
      by (pose proof (Z_div_mod_eq_full va PGSIZE); lia). by rewrite Z.div_mul. }
  erewrite bind_run; [|eapply uva2ka_run; [done| |by rewrite Hv0|done]]. 2: {
    apply NUPAGES_vpn. rewrite Hv0. by apply NUPAGES_vpn. }
  cbv beta. destruct (as_frame _ _ _ _ _ Has _ _ _ Hum) as (_ & Hf & _).
  destruct (Z.eqb_spec f 0) as [->|_]; [by apply page_ok_nz in Hf|].
  replace (va - (va - va mod PGSIZE)) with (va mod PGSIZE) by lia.
  set (k := if Z.of_nat (length bs) <? PGSIZE - va mod PGSIZE then Z.of_nat (length bs) else PGSIZE - va mod PGSIZE).
  assert (Hk : 0 < k ≤ Z.of_nat (length bs) ∧ va mod PGSIZE + k ≤ PGSIZE
               ∧ (k = Z.of_nat (length bs) ∨ va mod PGSIZE + k = PGSIZE)).
  { unfold k. destruct (Z.ltb_spec (Z.of_nat (length bs)) (PGSIZE - va mod PGSIZE)); lia. }
  replace (uadd f (va mod PGSIZE)) with (f + va mod PGSIZE); swap 1 2.
  { unfold uadd. rewrite u32_small; [done|]. destruct Hf as (Hfa & Hfl & Hfh). pose proof link_data. pose proof data_end.
    unfold is_u32, KERNLINK, KERNBASE, EXTMEM, PHYSTOP, PGSIZE in *. lia. }
  run. assert (Hkl : length (take (Z.to_nat k) bs) = Z.to_nat k) by (rewrite length_take; lia).
  destruct (as_write s pgdir tabs ps um va f fl (take (Z.to_nat k) bs) Has Hvu Hum) as (Has1 & Hm1 & Hb1);
    [rewrite Hkl; lia|]. rewrite Hkl, Z2Nat.id in Hb1 by lia.
  set (m1 := put_bytes (mem s) (f + va mod PGSIZE) (take (Z.to_nat k) bs)) in *.
  assert (Hbk : ∀ x, ¬ backs um va (Z.of_nat (length bs)) (page_of x) → page_of x ≠ f).
  { intros x Hx E. apply Hx. exists va, fl. rewrite E. split; [lia|done]. }
  destruct Hk as (Hk1 & Hk2 & [Hke|Hke]).
  - rewrite drop_ge by lia. replace (copyout_loop n pgdir _ []) with (mret (M := M kernel) true) by (by destruct n).
    eexists. split; [done|]. split; [by destruct s|]. split; [exact Has1|].
    split; [intros x Hx; apply Hm1; auto|]. intros va'. sst. fold m1. rewrite Hb1, Hke.
    bool_cases; cbn [andb]; try done. rewrite lookup_take_lt by lia. done.
  - assert (Hn' : uadd (va - va mod PGSIZE) PGSIZE = va + k)
      by (unfold uadd; rewrite u32_small by (unfold is_u32, KERNBASE, PGSIZE in *; lia); lia).
    rewrite Hn'. assert (Hdl : Z.of_nat (length (drop (Z.to_nat k) bs)) = Z.of_nat (length bs) - k)
      by (rewrite length_drop; lia).
    assert (Hal : (va + k) mod PGSIZE = 0).
    { replace (va + k) with ((va / PGSIZE + 1) * PGSIZE)
        by (pose proof (Z_div_mod_eq_full va PGSIZE); lia). by apply Z_mod_mult. }
    destruct (IH (drop (Z.to_nat k) bs) (va + k) _ tabs ps um Has1) as (s2 & Hr & Hs2 & Has2 & Hm2 & Hb2);
      rewrite ?Hdl; try lia.
    { intros v Hv. apply Hup. lia. }
    exists s2. split; [exact Hr|]. split; [rewrite Hs2; by destruct s|]. split; [done|].
    rewrite Hdl in Hm2, Hb2. sst_in Hm2. sst_in Hb2. split.
    + intros x Hx. rewrite Hm2; [by apply Hm1, Hbk|]. intros (v & fl' & Hv & Hv'). apply Hx.
      exists v, fl'. split; [lia|done].
    + intros va'. rewrite Hb2, Hb1. bool_cases; cbn [andb]; try lia; try done;
        first [by rewrite lookup_take_lt by lia|rewrite lookup_drop; f_equal; lia].
Qed.

(** C28: copyout.  Copying [bs] to the user address [va] of any address space
    whose pages there are present and user-accessible succeeds, whatever the
    alignment and length: reading the address space at [va] afterwards gives
    [bs], every other user address reads as before, and no memory outside the
    frames behind the destination changes. *)
Theorem copyout_spec pgdir va bs s tabs ps um :
  as_inv s pgdir tabs ps um → 0 ≤ va → va + Z.of_nat (length bs) ≤ KERNBASE →
  (∀ v, va ≤ v < va + Z.of_nat (length bs) → user_page um v) →
  ∃ s', copyout pgdir va bs s = Ret true s' ∧ s' = s <| mem := mem s' |>
    ∧ as_inv s' pgdir tabs ps um
    ∧ (∀ x, ¬ backs um va (Z.of_nat (length bs)) (page_of x) → mem s' x = mem s x)
    ∧ (∀ va', ubyte (mem s') um va'
         = if ((va <=? va') && (va' <? va + Z.of_nat (length bs)))%bool
           then bs !! Z.to_nat (va' - va) else ubyte (mem s) um va').
Proof.
  intros Has Hva Hend Hup. apply copyout_loop_run; [done..|].
  pose proof (Z.mod_pos_bound va PGSIZE ltac:(done)).
  pose proof (Z_div_mod_eq_full (Z.of_nat (length bs)) PGSIZE).
  pose proof (Z.mod_pos_bound (Z.of_nat (length bs)) PGSIZE ltac:(done)).
  pose proof (Z.div_pos (Z.of_nat (length bs)) PGSIZE). unfold PGSIZE in *. lia.
Qed.

(** Uva2ka, and with it copyout, reads through a null pointer when the
    address has no page table, instead of reporting an unmapped address. *)
Theorem uva2ka_null_deref pgdir va s tabs ps um :
  as_inv s pgdir tabs ps um → 0 ≤ va < KERNBASE → tabs !! PDX va = None → uva2ka pgdir va s = Fault.
Proof.
  intros Has Hva Ht. unfold uva2ka.
  pose proof (walkpgdir_run s pgdir tabs ps va false (as_vm _ _ _ _ _ Has) (user_u32 va Hva)) as Hw.
  rewrite Ht in Hw. by rewrite (bind_run _ _ _ _ _ Hw).
Qed.
End Uvm.

(** An empty address space with its directory at [root0], two pages free. *)
Definition root0 : Z := KERNBASE + 6291456.

Lemma two_pages_as :
  as_inv (P := plat0) two_pages root0 ∅ [KERNBASE + 8388608; KERNBASE + 12582912] ∅.
Proof.
  split; [|done|done|done]. split_and!.
  - done.
  - apply two_pages_free.
  - split; [by vm_compute|done|done|]. intros i Hi. rewrite lookup_empty.
    apply (load_store32_other (λ _, 0)). unfold root0, KERNBASE. lia.
  - intros p Hp [->|[i Hi]]; [|done].
    repeat apply elem_of_cons in Hp as [Hp|Hp]; [done|done|by apply elem_of_nil in Hp].
Qed.


Lemma uva2ka_null_deref_witness : uva2ka root0 4096 two_pages = Fault.
Proof.
  apply (uva2ka_null_deref (P := plat0) root0 4096 two_pages ∅ [KERNBASE + 8388608; KERNBASE + 12582912] ∅).
  - apply two_pages_as.
  - by vm_compute.
  - done.
Defined.

Lemma deallocuvm_spec_witness :
  ∃ s' ps', deallocuvm (P := plat0) root0 8192 0 two_pages = Ret 0 s'
    ∧ dealloc_post (P := plat0) two_pages s' root0 ∅ [KERNBASE + 8388608; KERNBASE + 12582912] ps' ∅
        (PGROUNDUP 0) 8192.
Proof.
  apply (deallocuvm_spec root0 8192 0 two_pages).
  - apply two_pages_as.
  - lia.
  - by vm_compute.
Defined.

(** An address space with one user page: its table is [tab0], its frame
    [frame0]. *)
Definition tab0 : Z := KERNBASE + 8388608.
Definition frame0 : Z := KERNBASE + 12582912.
Definition one_page : kernel :=
  kernel_zero <| mem := store32 (store32 (λ _, 0) root0 (V2P tab0 + 7)) tab0 (V2P frame0 + 7) |>.

Lemma one_page_as : as_inv (P := plat0) one_page root0 {[0 := tab0]} [] {[0 := (frame0, 7)]}.
Proof.
  assert (Htab : ∀ i t, ({[0 := tab0]} : gmap Z Z) !! i = Some t → i = 0 ∧ t = tab0)
    by (intros i t [<- <-]%lookup_singleton_Some; done).
  assert (Hum : ∀ v f fl, ({[0 := (frame0, 7)]} : gmap Z (Z * Z)) !! v = Some (f, fl) →
            v = 0 ∧ f = frame0 ∧ fl = 7)
    by (intros v f fl [<- [= <- <-]]%lookup_singleton_Some; done).
  split.
  - split_and!; [done| | |].
    + split; [done|]. split; [apply NoDup_nil_2|done].
    + split; [by vm_compute| | |].
      * intros i t [-> ->]%Htab. by vm_compute.
      * intros i j t [-> _]%Htab [-> _]%Htab. done.
      * intros i Hi. destruct (decide (i = 0)) as [->|Hne].
        -- rewrite lookup_singleton_eq. by vm_compute.
        -- rewrite lookup_singleton_ne by done. unfold one_page. sst.
           rewrite !load_store32_other by (unfold root0, tab0, KERNBASE; lia). done.
    + by intros p ?%elem_of_nil.
  - intros va Hva. unfold entry. assert (Hu := user_u32 va Hva).
    destruct (decide (PDX va = 0)) as [E|Hne].
    + rewrite E, lookup_singleton_eq. pose proof (vpn_split va Hu) as Hv. rewrite E in Hv.
      pose proof (PTX_range va Hu). destruct (decide (PTX va = 0)) as [E'|Hne'].
      * rewrite E' in *. rewrite Hv, lookup_singleton_eq. by vm_compute.
      * rewrite lookup_singleton_ne by lia. unfold one_page. sst.
        rewrite !load_store32_other by (unfold root0, tab0, KERNBASE; lia). done.
    + rewrite lookup_singleton_ne by done. rewrite lookup_singleton_ne; [done|].
      rewrite vpn_split by done. pose proof (PTX_range va Hu). pose proof (PDX_range va Hu). lia.
  - intros v f fl (-> & -> & ->)%Hum. split; [by vm_compute|]. split; [by vm_compute|].
    split; [by vm_compute|]. split; [by vm_compute|]. split; [apply not_elem_of_nil|].
    intros [E|[i [_ E]%Htab]]; by vm_compute in E.
  - intros v v' f fl fl' (-> & _)%Hum (-> & _)%Hum. done.
Qed.

(** Copying "hi" to address 4094, the last two bytes of the page. *)
Lemma copyout_spec_witness :
  ∃ s', copyout root0 4094 [104; 105] one_page = Ret true s'
    ∧ ubyte (mem s') {[0 := (frame0, 7)]} 4095 = Some 105.
Proof.
  destruct (copyout_spec (P := plat0) root0 4094 [104; 105] one_page {[0 := tab0]} [] {[0 := (frame0, 7)]})
    as (s' & Hr & _ & _ & _ & Hb).
  - apply one_page_as.
  - lia.
  - by vm_compute.
  - intros v Hv. exists frame0, 7. split; [|done]. assert (vpn v = 0) as ->; [|done].
    apply Z.div_small. unfold PGSIZE. cbn in Hv. lia.
  - exists s'. split; [exact Hr|]. exact (Hb 4095).
Defined.
