(* ===== verification/Kvm.v ===== *)
(** Whole address spaces (setupkvm, freevm and copyuvm of vm.c): building the
    kernel half of a page table, giving everything back, and copying a process. *)

From S2P Require Import Prelude Types Spinlock Strings Printf Kalloc Sched Console Vm Uvm.

Section Kvm.
Context {P : Platform} {PO : PlatformOk P}.

(** ** The kernel half *)

(** An entry of [kmap]: whole pages of virtual and of physical memory. *)
Definition region_size (r : Z * Z * Z * Z) : Z := let '(virt, ps, pe, perm) := r in usub pe ps.
Definition in_region (r : Z * Z * Z * Z) (va : Z) : Prop :=
  let '(virt, ps, pe, perm) := r in virt ≤ va < virt + region_size r.
Definition region_pte (r : Z * Z * Z * Z) (va : Z) : Z :=
  let '(virt, ps, pe, perm) := r in ps + (page_of va - virt) + Z.lor perm PTE_P.

Record region_ok (r : Z * Z * Z * Z) : Prop := {
  rg_virt : is_u32 r.1.1.1 ∧ r.1.1.1 mod PGSIZE = 0;
  rg_phys : 0 ≤ r.1.1.2 ∧ r.1.1.2 mod PGSIZE = 0;
  rg_size : 0 < region_size r ∧ region_size r mod PGSIZE = 0;
  rg_end : r.1.1.1 + region_size r ≤ 2 ^ 32 ∧ r.1.1.2 + region_size r ≤ 2 ^ 32;
  rg_perm : 0 ≤ r.2 < PGSIZE
}.

Lemma vpn_range va n v : va mod PGSIZE = 0 → n mod PGSIZE = 0 → 0 < n →
  vpn va ≤ vpn v < vpn va + (vpn (va + n - 1) - vpn va + 1) ↔ va ≤ v < va + n.
Proof.
  unfold vpn, PGSIZE. intros H1 H2 Hn.
  pose proof (Z_div_mod_eq_full va 4096). pose proof (Z_div_mod_eq_full n 4096). pose proof (Z_div_mod_eq_full v 4096).
  pose proof (Z_div_mod_eq_full (va + n - 1) 4096). pose proof (Z.mod_pos_bound v 4096). pose proof (Z.mod_pos_bound (va + n - 1) 4096).
  lia.
Qed.

Lemma vpn_page va v : va mod PGSIZE = 0 → (vpn v - vpn va) * PGSIZE = page_of v - va.
Proof.
  unfold vpn, page_of, PGSIZE. intros H. pose proof (Z_div_mod_eq_full va 4096). pose proof (Z_div_mod_eq_full v 4096). lia.
Qed.

(** One region: mappages maps all of it, or memory has run out in the middle. *)
Lemma map_region d r s tabs ps :
  vm_inv s d tabs ps → region_ok r → (∀ va, is_u32 va → in_region r va → has (entry (mem s) tabs va) PTE_P = false) →
  let '(virt, p0, pe, perm) := r in
  ∃ ok s' tabs' ps', mappages d virt (usub pe p0) p0 perm s = Ret ok s' ∧ vm_step s s' d tabs tabs' ps ps'
    ∧ (∀ va, is_u32 va → ¬ in_region r va → entry (mem s') tabs' va = entry (mem s) tabs va)
    ∧ (ok = true → ∀ va, is_u32 va → in_region r va → entry (mem s') tabs' va = region_pte r va)
    ∧ (ok = false → ps' = []) ∧ tables_for tabs tabs' (in_region r).
Proof.
  destruct r as [[[virt p0] pe] perm]. intros Hinv [[Hv Hva] [Hp Hpa] [Hs Hsa] [He Hpe] Hperm] Hfree.
  cbn [fst snd region_size] in *. set (n := usub pe p0) in *.
  assert (Hr : ∀ va, vpn virt ≤ vpn va < vpn virt + (vpn (virt + n - 1) - vpn virt + 1) ↔ in_region (virt, p0, pe, perm) va).
  { intros va. apply vpn_range; done. }
  assert (Hn : (vpn (virt + n - 1) - vpn virt) * PGSIZE = n - PGSIZE).
  { rewrite vpn_page by done. unfold page_of, PGSIZE in *. pose proof (Z_div_mod_eq_full virt 4096). pose proof (Z_div_mod_eq_full n 4096).
    pose proof (Z_div_mod_eq_full (virt + n - 1) 4096). pose proof (Z.mod_pos_bound (virt + n - 1) 4096). lia. }
  destruct (mappages_run d virt n p0 perm s tabs ps Hinv Hv) as (ok & s' & tabs' & ps' & k & Hrun & Hstep & Hk & Hok & Hm & Hfor); try done.
  { rewrite Hn. unfold PGSIZE. lia. }
  { intros v Hvu Hvr. apply Hfree; [done|]. apply Hr. lia. }
  exists ok, s', tabs', ps'. split; [done|]. split; [done|]. split; [|split; [|split; [by intros ->; destruct Hok|]]].
  - intros va Hu Hni. rewrite Hm by done. rewrite <- Hr in Hni.
    destruct (Z.leb_spec (vpn virt) (vpn va)), (Z.ltb_spec (vpn va) (vpn virt + k)); cbn [andb]; try done. lia.
  - intros -> va Hu Hin. rewrite Hm by done. apply Hr in Hin.
    destruct (Z.leb_spec (vpn virt) (vpn va)), (Z.ltb_spec (vpn va) (vpn virt + k)); cbn [andb]; try lia.
    unfold region_pte. by rewrite vpn_page.
  - revert Hfor. apply tables_for_mono. intros va _ H. apply Hr. lia.
Qed.

(** No address is in two of the regions. *)
Fixpoint regions_apart (ks : list (Z * Z * Z * Z)) : Prop :=
  match ks with
  | [] => True
  | r :: ks' => (∀ r' va, r' ∈ ks' → in_region r va → ¬ in_region r' va) ∧ regions_apart ks'
  end.

Lemma mapkernel_run d ks : ∀ s tabs ps,
  vm_inv s d tabs ps → Forall region_ok ks → regions_apart ks →
  (∀ va r, is_u32 va → r ∈ ks → in_region r va → has (entry (mem s) tabs va) PTE_P = false) →
  ∃ ok s' tabs' ps', mapkernel d ks s = Ret ok s' ∧ vm_step s s' d tabs tabs' ps ps'
    ∧ (∀ va, is_u32 va → (∀ r, r ∈ ks → ¬ in_region r va) → entry (mem s') tabs' va = entry (mem s) tabs va)
    ∧ (ok = true → ∀ va r, is_u32 va → r ∈ ks → in_region r va → entry (mem s') tabs' va = region_pte r va)
    ∧ (ok = false → ps' = []) ∧ tables_for tabs tabs' (λ va, ∃ r, r ∈ ks ∧ in_region r va).
Proof.
  induction ks as [|r ks IH]; intros s tabs ps Hinv Hok Hap Hfree.
  - exists true, s, tabs, ps. split; [done|]. split; [by apply vm_step_refl|]. split; [done|].
    split; [|split; [done|apply tables_for_refl]]. intros _ va r _ Hr. by apply elem_of_nil in Hr.
  - apply Forall_cons in Hok as [Hr Hok]. destruct Hap as [Ha Hap].
    pose proof (map_region d r s tabs ps Hinv Hr) as Hmap. destruct r as [[[virt p0] pe] perm].
    cbn [mapkernel]. set (r := (virt, p0, pe, perm)) in *. destruct Hmap as (ok & s1 & tabs1 & ps1 & Hr1 & Hs1 & Hout & Hin & Hnil & Hf1).
    { intros va Hu Hi. apply (Hfree va r); [done|by left|done]. }
    apply (tables_for_mono _ _ _ (λ va, ∃ r', r' ∈ r :: ks ∧ in_region r' va)) in Hf1; [|intros va _ Hi; exists r; split; [by left|done]].
    rewrite (bind_run _ _ _ _ _ Hr1). cbv beta. destruct ok.
    + destruct (IH s1 tabs1 ps1) as (ok & s2 & tabs2 & ps2 & Hr2 & Hs2 & Hout2 & Hin2 & Hnil2 & Hf2); [apply Hs1|done|done| |].
      { intros va r' Hu Hr' Hi. rewrite Hout; [|done|].
        - apply (Hfree va r'); [done|by right|done].
        - intros Hi'. by apply (Ha r' va). }
      exists ok, s2, tabs2, ps2. split; [done|]. split; [by eapply vm_step_trans|]. split; [|split; [|split; [done|]]].
      * intros va Hu Hno. rewrite Hout2, Hout; [done|done| |done|]; intros; apply Hno; [by left|by right].
      * intros -> va r' Hu [->|Hr']%elem_of_cons Hi; [|by apply Hin2].
        rewrite Hout2; [by apply Hin|done|]. intros r' Hr' Hi'. by apply (Ha r' va).
      * apply (tables_for_trans _ tabs1); [done|]. revert Hf2. apply tables_for_mono. intros va _ (r' & Hr' & Hi). exists r'. split; [by right|done].
    + exists false, s1, tabs1, ps1. split; [done|]. split; [done|]. split; [|split; [done|split; [by intros _; apply Hnil|done]]].
      intros va Hu Hno. apply Hout; [done|]. apply Hno. by left.
Qed.

(** The regions of [kmap], with the bounds of the kernel image. *)
Lemma kmap_sizes :
  region_size (KERNBASE, 0, EXTMEM, PTE_W) = EXTMEM
  ∧ region_size (KERNLINK, V2P KERNLINK, V2P sym_data, 0) = sym_data - KERNLINK
  ∧ region_size (sym_data, V2P sym_data, PHYSTOP, PTE_W) = KERNBASE + PHYSTOP - sym_data
  ∧ region_size (DEVSPACE, DEVSPACE, 0, PTE_W) = 2 ^ 32 - DEVSPACE
  ∧ V2P sym_data = sym_data - KERNBASE.
Proof.
  pose proof link_data. pose proof data_end. pose proof end_phystop.
  assert (Ed : V2P sym_data = sym_data - KERNBASE).
  { unfold V2P, usub. apply u32_small. unfold is_u32, KERNLINK, KERNBASE, EXTMEM, PHYSTOP in *. lia. }
  unfold region_size. rewrite Ed. split_and!; try done.
  - unfold usub. change (V2P KERNLINK) with EXTMEM. rewrite u32_small; unfold is_u32, KERNLINK, KERNBASE, EXTMEM, PHYSTOP in *; lia.
  - unfold usub. rewrite u32_small; unfold is_u32, KERNLINK, KERNBASE, EXTMEM, PHYSTOP in *; lia.
Qed.

Lemma kmap_ok : Forall region_ok kmap ∧ regions_apart kmap ∧ (∀ r va, r ∈ kmap → in_region r va → KERNBASE ≤ va).
Proof.
  pose proof link_data as H1. pose proof data_end as H2. pose proof end_phystop as H3. pose proof data_aligned as H4.
  destruct kmap_sizes as (E1 & E2 & E3 & E4 & Ed). unfold kmap. change (V2P KERNLINK) with EXTMEM in *.
  assert (Hm : ∀ x y, x mod PGSIZE = 0 → y mod PGSIZE = 0 → (x - y) mod PGSIZE = 0).
  { intros x y Hx Hy. by rewrite Zminus_mod, Hx, Hy. }
  unfold is_u32, KERNLINK, KERNBASE, EXTMEM, PHYSTOP, DEVSPACE in *. split_and!.
  - rewrite !Forall_cons, Forall_nil. split_and!; try done; split; cbn [fst snd]; rewrite ?E1, ?E2, ?E3, ?E4, ?Ed;
      split; unfold is_u32; first [lia|done|by apply Hm|split; [lia|lia]].
  - cbn [regions_apart]. split_and!; try done; intros r' va; rewrite ?elem_of_cons, ?elem_of_nil;
      intros Hr' Hi; repeat (destruct Hr' as [->|Hr']); try done; unfold in_region in *; rewrite ?E1, ?E2, ?E3, ?E4 in *; lia.
  - intros r va. rewrite !elem_of_cons, elem_of_nil. intros Hr Hi. repeat (destruct Hr as [->|Hr]); try done;
      unfold in_region in *; rewrite ?E1, ?E2, ?E3, ?E4 in *; lia.
Qed.

(** ** Giving pages back *)

(** The pages [Q] have gone to the free list; nothing else has changed. *)
Record freed (s s' : kernel) (ps ps' : list Z) (Q : Z → Prop) : Prop := {
  fd_lock : kmem_ok s';
  fd_inv : free_inv s' ps';
  fd_free : ∀ p, p ∈ ps' ↔ p ∈ ps ∨ Q p;
  fd_mem : ∀ x, page_of x ∉ ps' → mem s' x = mem s x;
  fd_rest : s' = s <| mem := mem s' |> <| freelist := freelist s' |>
}.

Lemma freed_refl s ps : kmem_ok s → free_inv s ps → freed s s ps ps (λ _, False).
Proof. intros Hk Hf. split; try done; [tauto|by destruct s]. Qed.

Lemma freed_trans s1 s2 s3 p1 p2 p3 (Q Q' : Z → Prop) :
  freed s1 s2 p1 p2 Q → freed s2 s3 p2 p3 Q' → freed s1 s3 p1 p3 (λ p, Q p ∨ Q' p).
Proof.
  intros [K1 I1 F1 M1 R1] [K2 I2 F2 M2 R2]. split; [done|done| | |].
  - intros p. rewrite F2, F1. tauto.
  - intros x Hx. rewrite M2 by done. apply M1. intros H. apply Hx, F2. by left.
  - rewrite R2, R1. by destruct s1.
Qed.

Lemma freed_equiv s s' ps ps' (Q Q' : Z → Prop) : (∀ p, Q p ↔ Q' p) → freed s s' ps ps' Q → freed s s' ps ps' Q'.
Proof. intros HQ [K1 I1 F1 M1 R1]. split; try done. intros p. by rewrite F1, HQ. Qed.

Lemma freed_one s ps v : kmem_ok s → free_inv s ps → page_ok v → v ∉ ps → freed s (kfreed s v) ps (v :: ps) (eq v).
Proof.
  intros Hk Hf Hv Hn. split; [done|by apply kfree_push| | |by destruct s].
  - intros p. rewrite elem_of_cons. split; [intros [->|?]; [by right|by left]|intros [?|<-]; [by right|by left]].
  - intros x Hx. apply kfreed_mem; [done|]. intros E. apply Hx. rewrite E. by left.
Qed.

Lemma pt_rep_root m m' d tabs : pt_rep m d tabs → (∀ x, page_of x = d → m' x = m x) → pt_rep m' d tabs.
Proof.
  intros [Hroot Htab Hinj Hpde] Hm. split; [done..|]. intros i Hi. rewrite <- Hpde by done.
  apply load32_ext. intros x Hx. apply Hm. by apply (page_of_word d i).
Qed.

(** The last loop of freevm. *)
Lemma free_tables_run d tabs l : ∀ s ps,
  kmem_ok s → free_inv s ps → pt_rep (mem s) d tabs → d ∉ ps → NoDup l → (∀ i, i ∈ l → 0 ≤ i < 1024) →
  (∀ i t, i ∈ l → tabs !! i = Some t → t ∉ ps) →
  ∃ s' ps', for_each l (λ i, v ← load (uadd d (4 * i)); when (has v PTE_P) (kfree (P2V (PTE_ADDR v)))) s = Ret tt s'
    ∧ freed s s' ps ps' (λ p, ∃ i, i ∈ l ∧ tabs !! i = Some p).
Proof.
  induction l as [|i l IH]; intros s ps Hk Hf Hpt Hd Hnd Hr Hn.
  - exists s, ps. split; [done|]. eapply freed_equiv; [|by apply freed_refl].
    intros p. split; [done|]. intros (i & Hi & _). by apply elem_of_nil in Hi.
  - apply NoDup_cons in Hnd as [Hil Hnd]. cbn [for_each].
    assert (Hi : 0 ≤ i < 1024) by (apply Hr; by left). destruct (table_slot d i (pt_root _ _ _ Hpt) Hi) as [-> _].
    assert (Hl : ∀ j t, j ∈ l → tabs !! j = Some t → ∀ t0, tabs !! i = Some t0 → t ≠ t0).
    { intros j t0 Hj Ht t1 Ht1 ->. apply Hil. by rewrite (pt_inj _ _ _ Hpt i j t1 Ht1 Ht). }
    assert (Hv : load (d + 4 * i) s = Ret (match tabs !! i with Some t => V2P t + 7 | None => 0 end) s).
    { rewrite <- (pt_pde _ _ _ Hpt i Hi). reflexivity. }
    destruct (tabs !! i) as [t0|] eqn:Ei.
    + destruct (pt_tab _ _ _ Hpt i t0 Ei) as (_ & Ht0 & Htd). destruct (pde_table t0 Ht0) as [Ea Eh].
      assert (Hn0 : t0 ∉ ps) by (by apply (Hn i); [left|]).
      assert (H1 := freed_one s ps t0 Hk Hf Ht0 Hn0).
      destruct (IH (kfreed s t0) (t0 :: ps)) as (s' & ps' & Hrun & Hfr); [done|apply H1| | |done| | |].
      { eapply pt_rep_root; [done|]. intros x Hx. apply kfreed_mem; [done|]. congruence. }
      { rewrite elem_of_cons. intros [E|E]; [by apply Htd|done]. }
      { intros j Hj. apply Hr. by right. }
      { intros j t1 Hj Ht1. rewrite elem_of_cons. intros [E|E].
        - by apply (Hl j t1 Hj Ht1 t0).
        - by apply (Hn j t1); [right|..]. }
      exists s', ps'. split.
      * erewrite bind_run; [exact Hrun|]. rewrite (bind_run _ _ _ _ _ Hv). cbv beta. rewrite Eh, Ea. cbn [when].
        by apply kfree_run.
      * eapply freed_equiv; [|eapply freed_trans; [exact H1|exact Hfr]]. intros p. split.
        -- intros [<-|(j & Hj & Hp)]; [exists i; split; [by left|done]|exists j; split; [by right|done]].
        -- intros (j & [->|Hj]%elem_of_cons & Hp); [left; congruence|right; eauto].
    + destruct (IH s ps) as (s' & ps' & Hrun & Hfr); [done|done|done|done|done| | |].
      { intros j Hj. apply Hr. by right. }
      { intros j t1 Hj. apply Hn. by right. }
      exists s', ps'. split.
      * erewrite bind_run; [exact Hrun|]. by rewrite (bind_run _ _ _ _ _ Hv).
      * eapply freed_equiv; [|exact Hfr]. intros p. split.
        -- intros (j & Hj & Hp). exists j. split; [by right|done].
        -- intros (j & [->|Hj]%elem_of_cons & Hp); [congruence|eauto].
Qed.

(** The pages of an address space: its tables and its frames. *)
Definition pages_of (d : Z) (tabs : gmap Z Z) (um : gmap Z (Z * Z)) (p : Z) : Prop :=
  owns d tabs p ∨ ∃ v fl, um !! v = Some (p, fl).

Lemma freevm_run s d tabs ps um :
  as_inv s d tabs ps um → ∃ s' ps', freevm d s = Ret tt s' ∧ freed s s' ps ps' (pages_of d tabs um).
Proof.
  intros Has. destruct (as_vm _ _ _ _ _ Has) as (Hk & Hf & Hpt & Hown).
  assert (Hd0 : d ≠ 0) by (apply page_ok_nz, (pt_root _ _ _ Hpt)).
  unfold freevm. destruct (Z.eqb_spec d 0); [done|].
  destruct (deallocuvm_run d KERNBASE 0 s tabs ps um Has) as (s1 & ps1 & Hr1 & [I1 F1 _ M1 R1]); [done|done|].
  rewrite (bind_run _ _ _ _ _ Hr1). cbv beta.
  destruct (as_vm _ _ _ _ _ I1) as (Hk1 & Hf1 & Hpt1 & Hown1).
  assert (Hd1 : d ∉ ps1) by (intros H; apply (Hown1 d H); by left).
  destruct (free_tables_run d tabs (Z.of_nat <$> seq 0 (Z.to_nat NPDENTRIES)) s1 ps1) as (s2 & ps2 & Hr2 & Hfr2); try done.
  { apply NoDup_fmap_2; [apply _|apply NoDup_seq]. }
  { intros i (j & -> & Hj%elem_of_seq)%list_elem_of_fmap. change (Z.to_nat NPDENTRIES) with 1024%nat in Hj. lia. }
  { intros i t0 _ Ht0 H. apply (Hown1 t0 H). right. eauto. }
  unfold freevm_tables. rewrite (bind_run _ _ _ _ _ Hr2). cbv beta.
  assert (Htab : ∀ p, (∃ i, i ∈ Z.of_nat <$> seq 0 (Z.to_nat NPDENTRIES) ∧ tabs !! i = Some p) ↔ ∃ i, tabs !! i = Some p).
  { intros p. split; [intros (i & _ & Hi); eauto|]. intros [i Hi]. exists i. split; [|done].
    destruct (pt_tab _ _ _ Hpt i p Hi) as (Hir & _ & _). apply list_elem_of_fmap. exists (Z.to_nat i).
    split; [lia|]. apply elem_of_seq. change (Z.to_nat NPDENTRIES) with 1024%nat. lia. }
  apply (freed_equiv _ _ _ _ _ _ Htab) in Hfr2. destruct Hfr2 as [K2 I2 F2 M2 R2].
  assert (Hd2 : d ∉ ps2).
  { rewrite F2. intros [H|[i Hi]]; [done|]. by destruct (pt_tab _ _ _ Hpt i d Hi) as (_ & _ & ?). }
  assert (Hfin := freed_one s2 ps2 d K2 I2 (pt_root _ _ _ Hpt) Hd2). destruct Hfin as [K3 I3 F3 M3 R3].
  exists (kfreed s2 d), (d :: ps2). split; [apply kfree_run; [done|apply Hpt]|]. split; [done|done| | |].
  - intros p. rewrite F3, F2, F1. unfold pages_of, owns. split.
    + intros [[[H|(v & fl & _ & H)]|H]|<-]; [by left|right; right; eauto|right; left; by right|right; left; by left].
    + intros [H|[[->|H]|(v & fl & H)]]; [by left; left; left|by right|by left; right|].
      left; left; right. exists v, fl. split; [|done]. destruct (as_frame _ _ _ _ _ Has v p fl H) as [Hv _].
      unfold in_range. change (PGROUNDUP 0) with 0. unfold NUPAGES in Hv. change (KERNBASE / PGSIZE) with 524288 in Hv.
      unfold PGSIZE, KERNBASE. lia.
  - intros x Hx. rewrite F3 in Hx. rewrite M3, M2, M1; [done| | | |].
    + intros [E|E]; apply Hx; [by right|left; by apply F2; right].
    + intros H. apply Hx. left. apply F2. by left.
    + intros H. apply Hx. by left.
    + rewrite F3. done.
  - rewrite R3, R2, R1. by destruct s.
Qed.

(** How many pages an address space can have. *)
Lemma size_keys {A} (m : gmap Z A) (n : Z) : 0 ≤ n → (∀ i x, m !! i = Some x → 0 ≤ i < n) → Z.of_nat (size m) ≤ n.
Proof.
  intros Hn Hm. assert (Hs : (map_to_list m).*1 ⊆+ seqZ 0 n).
  { apply NoDup_submseteq; [apply NoDup_fst_map_to_list|]. intros i ([j x] & -> & Hj%elem_of_map_to_list)%list_elem_of_fmap.
    apply elem_of_seqZ. specialize (Hm j x Hj). cbn. lia. }
  apply submseteq_length in Hs. rewrite length_fmap, length_map_to_list, length_seqZ in Hs. lia.
Qed.

Lemma pages_bound ps lim d (tabs : gmap Z Z) (um : gmap Z (Z * Z)) :
  NoDup ps → (∀ p, p ∈ ps → p ∈ lim ∨ pages_of d tabs um p) →
  (length ps ≤ length lim + 1 + size tabs + size um)%nat.
Proof.
  intros Hnd Hin. set (ts := (map_to_list tabs).*2). set (fs := ((map_to_list um).*2).*1).
  assert (Hs : ps ⊆+ lim ++ d :: ts ++ fs).
  { apply NoDup_submseteq; [done|]. intros p Hp. rewrite elem_of_app, elem_of_cons, elem_of_app.
    destruct (Hin p Hp) as [H|[[H|[i Hi]]|(v & fl & Hv)]]; [by left|by right; left|right; right; left|right; right; right].
    - apply list_elem_of_fmap. exists (i, p). split; [done|]. by apply elem_of_map_to_list.
    - apply list_elem_of_fmap. exists (p, fl). split; [done|]. apply list_elem_of_fmap. exists (v, (p, fl)).
      split; [done|]. by apply elem_of_map_to_list. }
  apply submseteq_length in Hs. rewrite length_app in Hs. cbn [length] in Hs. rewrite length_app in Hs. unfold ts, fs in Hs.
  rewrite !length_fmap, !length_map_to_list in Hs. lia.
Qed.

Lemma tables_bound m d tabs : pt_rep m d tabs → Z.of_nat (size tabs) ≤ 1024.
Proof. intros Hpt. apply size_keys; [lia|]. intros i x Hi. apply (pt_tab _ _ _ Hpt i x Hi). Qed.

Lemma frames_bound sz (um : gmap Z (Z * Z)) :
  0 ≤ sz → (∀ v e, um !! v = Some e → in_range 0 sz v) → Z.of_nat (size um) ≤ sz / PGSIZE + 1.
Proof.
  intros Hsz Hdom. pose proof (Z.div_pos sz PGSIZE Hsz ltac:(done)). apply size_keys; [lia|].
  intros v e Hv. specialize (Hdom v e Hv). unfold in_range in Hdom.
  pose proof (Z_div_mod_eq_full sz PGSIZE). pose proof (Z.mod_pos_bound sz PGSIZE ltac:(done)). unfold PGSIZE in *. lia.
Qed.

(** ** setupkvm *)

(** The half of an address space above KERNBASE: the regions of [kmap] and
    nothing else. *)
Definition kernel_half (m : memory) (tabs : gmap Z Z) : Prop :=
  (∀ va r, is_u32 va → r ∈ kmap → in_region r va → entry m tabs va = region_pte r va)
  ∧ (∀ va, is_u32 va → KERNBASE ≤ va → (∀ r, r ∈ kmap → ¬ in_region r va) → entry m tabs va = 0).

Lemma kernel_half_keep m m' tabs tabs' : kernel_half m tabs →
  (∀ va, is_u32 va → KERNBASE ≤ va → entry m' tabs' va = entry m tabs va) → kernel_half m' tabs'.
Proof.
  intros [H1 H2] He. split.
  - intros va r Hva Hr Hi. rewrite He; [by apply H1|done|]. by apply (proj2 (proj2 kmap_ok) r).
  - intros va Hva Hk Hn. rewrite He by done. by apply H2.
Qed.

(** There is a table for each 4 MB of them. *)
Lemma kernel_tables tabs : tables_for ∅ tabs (λ va, ∃ r, r ∈ kmap ∧ in_region r va) → Z.of_nat (size tabs) ≤ 64.
Proof.
  intros Hf. rewrite <- size_dom. unfold size, set_size. cbn.
  assert (Hsub : elements (dom tabs) ⊆+ seqZ 512 56 ++ seqZ 1016 8).
  { apply NoDup_submseteq; [apply NoDup_elements|]. intros i Hi%elem_of_elements. rewrite elem_of_app, !elem_of_seqZ.
    apply elem_of_dom in Hi. destruct (Hf i Hi) as [[? ?%lookup_empty_Some]|(va & Hu & (r & Hr & Hin) & ->)]; [done|].
    pose proof link_data. pose proof data_end. pose proof end_phystop. destruct kmap_sizes as (E1 & E2 & E3 & E4 & _).
    assert (Hva : KERNBASE ≤ va < KERNBASE + PHYSTOP ∨ DEVSPACE ≤ va < 2 ^ 32).
    { unfold kmap in Hr. rewrite !elem_of_cons, elem_of_nil in Hr. repeat (destruct Hr as [->|Hr]); try done; unfold in_region in Hin;
        rewrite ?E1, ?E2, ?E3, ?E4 in Hin; unfold KERNLINK, KERNBASE, EXTMEM, PHYSTOP, DEVSPACE in *; lia. }
    rewrite PDX_div by done. unfold KERNBASE, PHYSTOP, DEVSPACE in Hva. pose proof (Z.div_mod va (2 ^ 22) ltac:(done)).
    pose proof (Z.mod_pos_bound va (2 ^ 22) ltac:(done)). lia. }
  apply submseteq_length in Hsub. rewrite length_app, !length_seqZ in Hsub. lia.
Qed.

(** A new address space: the kernel half as [kmap] says, no user pages; its
    tables were free pages of [ps]. *)
Record fresh_dir (s s' : kernel) (d : Z) (tabs : gmap Z Z) (ps ps' : list Z) : Prop := {
  nd_inv : as_inv s' d tabs ps' ∅;
  nd_kern : kernel_half (mem s') tabs;
  nd_free : ∀ p, p ∈ ps ↔ p ∈ ps' ∨ owns d tabs p;
  nd_mem : ∀ x, page_of x ∉ ps → mem s' x = mem s x;
  nd_rest : s' = s <| mem := mem s' |> <| freelist := freelist s' |>;
  nd_size : Z.of_nat (size tabs) ≤ 64
}.

(** The page directory after [memset]. *)
Lemma new_root s d ps :
  kmem_ok s → free_inv s (d :: ps) →
  vm_inv (zeroed s d) d ∅ ps ∧ (∀ va, entry (mem (zeroed s d)) ∅ va = 0)
  ∧ (∀ x, page_of x ≠ d → mem (zeroed s d) x = mem s x) ∧ page_ok d ∧ d ∉ ps.
Proof.
  intros Hk Hf. apply kalloc_pop in Hf as (Hd & Hn & Hf).
  assert (Hm : ∀ x, page_of x ≠ d → mem (zeroed s d) x = mem s x).
  { intros x Hx. rewrite zeroed_mem by done. by rewrite decide_False. }
  split; [|done]. unfold vm_inv. split_and!; [done| | |].
  - apply free_inv_ext with (s := s <| freelist := load32 (mem s) d |>); [done|done|]. intros q x Hq Hx. symmetry.
    change (mem (zeroed s d) x = mem s x). apply Hm.
    assert (Hok : page_ok q) by (destruct Hf as (_ & _ & Hok); rewrite Forall_forall in Hok; by apply Hok).
    rewrite (proj2 (page_of_in q x Hok) Hx). by intros ->.
  - split; [done|by intros i t0 ?%lookup_empty_Some|by intros i j t0 ?%lookup_empty_Some|].
    intros i Hi. rewrite lookup_empty. unfold zeroed. sst. by apply load32_memset.
  - intros p Hp [->|[i Hi]]; [done|]. by apply lookup_empty_Some in Hi.
Qed.

Lemma fresh_as s s1 d tabs ps1 ps2 :
  vm_step s s1 d ∅ tabs ps1 ps2 → (∀ va, 0 ≤ va < KERNBASE → entry (mem s1) tabs va = 0) → as_inv s1 d tabs ps2 ∅.
Proof.
  intros Hs He. split; [apply Hs| | |].
  - intros va Hva. rewrite lookup_empty. by apply He.
  - by intros v f fl ?%lookup_empty_Some.
  - by intros v v' f fl fl' ?%lookup_empty_Some.
Qed.

Lemma step_pages s s1 d tabs ps1 ps2 :
  vm_step s s1 d ∅ tabs ps1 ps2 → ∀ p, p ∈ ps1 ↔ p ∈ ps2 ∨ ∃ i, tabs !! i = Some p.
Proof.
  intros [_ _ Hnew (us & -> & Hus) _ _] p. rewrite elem_of_app. split.
  - intros [H|H]; [right; by apply Hus|by left].
  - intros [H|[i Hi]]; [by right|]. destruct (Hnew i p Hi) as [H|H]; [by apply lookup_empty_Some in H|]. by apply elem_of_app in H.
Qed.

Lemma setupkvm_run s ps :
  kmem_ok s → free_inv s ps →
  ∃ r s' ps', setupkvm s = Ret r s'
    ∧ if decide (r = 0) then freed s s' ps ps' (λ _, False) ∧ Z.of_nat (length ps) ≤ 65
      else ∃ tabs, fresh_dir s s' r tabs ps ps'.
Proof.
  intros Hk Hf. unfold setupkvm. destruct ps as [|d ps1].
  { exists 0, s, []. split; [by rewrite (bind_run _ _ _ _ _ (kalloc_run s [] Hk Hf))|].
    rewrite decide_True by done. split; [by apply freed_refl|cbn; lia]. }
  rewrite (bind_run _ _ _ _ _ (kalloc_run s (d :: ps1) Hk Hf)). cbv beta.
  destruct (new_root s d ps1 Hk Hf) as (Hinv & He0 & Hm0 & Hd & Hdn). assert (Hd0 := page_ok_nz d Hd).
  destruct (Z.eqb_spec d 0); [done|]. run. change (DEVSPACE <? P2V PHYSTOP) with false. cbn match. fold (zeroed s d).
  destruct kmap_ok as (Hrok & Hap & Hhi).
  destruct (mapkernel_run d kmap (zeroed s d) ∅ ps1 Hinv Hrok Hap) as (ok & s1 & tabs & ps2 & Hr & Hs & Hout & Hin & Hnil & Hfor).
  { intros va r _ _ _. by rewrite He0. }
  rewrite (bind_run _ _ _ _ _ Hr). cbv beta.
  assert (Has : as_inv s1 d tabs ps2 ∅).
  { apply (fresh_as (zeroed s d) s1 d tabs ps1 ps2 Hs). intros va Hva. rewrite Hout; [apply He0|by apply user_u32|].
    intros r Hrk Hi. specialize (Hhi r va Hrk Hi). lia. }
  assert (Hpg := step_pages _ _ _ _ _ _ Hs). destruct Hs as [_ _ _ _ Hfr Hrest].
  assert (Hall : ∀ p, p ∈ d :: ps1 ↔ p ∈ ps2 ∨ owns d tabs p).
  { intros p. rewrite elem_of_cons, Hpg. unfold owns. tauto. }
  assert (Hmem : ∀ x, page_of x ∉ d :: ps1 → mem s1 x = mem s x).
  { intros x Hx. rewrite Hfr; [|intros Ho; apply Hx, Hall; by right]. apply Hm0. intros E. apply Hx. rewrite E. by left. }
  assert (Hres : s1 = s <| mem := mem s1 |> <| freelist := freelist s1 |>) by (rewrite Hrest at 1; by destruct s).
  destruct ok.
  - exists d, s1, ps2. split; [done|]. rewrite decide_False by done. exists tabs. split; try done; [|by apply kernel_tables]. split; [by apply Hin|].
    intros va Hu _ Hn. rewrite Hout by done. apply He0.
  - destruct (freevm_run s1 d tabs ps2 ∅ Has) as (s2 & ps3 & Hr2 & [K2 I2 F2 M2 R2]).
    rewrite (bind_run _ _ _ _ _ Hr2). exists 0, s2, ps3. split; [done|]. rewrite decide_True by done.
    assert (Hset : ∀ p, p ∈ ps3 ↔ p ∈ d :: ps1).
    { intros p. rewrite F2, Hall. unfold pages_of. split; [intros [?|[?|(v & fl & H)]]; [tauto|tauto|]|tauto].
      by apply lookup_empty_Some in H. }
    split.
    + split; [done|done|intros p; rewrite Hset; tauto| |rewrite R2, Hres; by destruct s].
      intros x Hx. rewrite M2 by done. apply Hmem. by rewrite <- Hset.
    + pose proof (kernel_tables tabs Hfor). rewrite Hnil in * by done.
      pose proof (pages_bound (d :: ps1) [] d tabs ∅ (proj1 (proj2 Hf))) as Hb. rewrite map_size_empty in Hb. cbn [length] in *.
      enough (S (length ps1) ≤ 0 + 1 + size tabs + 0)%nat by lia. apply Hb. intros p Hp. right. left.
      apply Hall in Hp as [Hp|Hp]; [by apply elem_of_nil in Hp|done].
Qed.

(** ** copyuvm *)

(** The pages of an address space are not free. *)
Lemma pages_not_free s pgdir tabs ps um p : as_inv s pgdir tabs ps um → pages_of pgdir tabs um p → p ∉ ps.
Proof.
  intros Has [H|(v & fl & H)] Hp.
  - destruct (as_vm _ _ _ _ _ Has) as (_ & _ & _ & Hown). by apply (Hown p).
  - by destruct (as_frame _ _ _ _ _ Has v p fl H) as (_ & _ & _ & _ & ? & _).
Qed.

(** An address space survives what happens outside its pages. *)
Lemma as_keep s s' pgdir tabs ps ps' um :
  as_inv s pgdir tabs ps um → kmem_ok s' → free_inv s' ps' → (∀ p, pages_of pgdir tabs um p → p ∉ ps') →
  (∀ x, pages_of pgdir tabs um (page_of x) → mem s' x = mem s x) → as_inv s' pgdir tabs ps' um.
Proof.
  intros Has Hk' Hf' Hn Hm. destruct (as_vm _ _ _ _ _ Has) as (Hk & Hf & Hpt & Hown).
  split; [split_and!; [done|done| |]| | |].
  - eapply pt_rep_ext; [done|]. intros x Hx. apply Hm. by left.
  - intros p Hp Ho. apply (Hn p); [by left|done].
  - intros va Hva. rewrite <- (as_entry _ _ _ _ _ Has) by done. eapply entry_ext; [done|by apply user_u32|].
    intros x Hx. apply Hm. by left.
  - intros v f fl Hv. destruct (as_frame _ _ _ _ _ Has v f fl Hv) as (? & ? & ? & ? & _ & ?).
    split_and!; try (done || lia). apply Hn. right. eauto.
  - apply Has.
Qed.

(** What happens in one address space leaves another that shares nothing with
    it but the free list as it is. *)
Lemma grow_other s s' d tabs0 tabs1 ps ps' um0 um1 lim pgdir tabs um :
  as_inv s pgdir tabs ps um → grow s s' d tabs0 tabs1 ps ps' um0 um1 lim →
  (∀ p, pages_of pgdir tabs um p → ¬ owns d tabs0 p) → as_inv s' pgdir tabs ps' um.
Proof.
  intros Has G Hsep. destruct (as_vm _ _ _ _ _ (gr_inv _ _ _ _ _ _ _ _ _ _ G)) as (Hk' & Hf' & _).
  apply (as_keep s s' pgdir tabs ps ps' um Has Hk' Hf').
  - intros p Hp Hp'. apply (pages_not_free _ _ _ _ _ p Has Hp), (gr_free _ _ _ _ _ _ _ _ _ _ G). by left; left.
  - intros x Hx. apply (gr_mem _ _ _ _ _ _ _ _ _ _ G); [by eapply pages_not_free|by apply Hsep].
Qed.

(** Page [v] of the address space [um1] is a copy of that of [um]. *)
Definition copied (m : memory) (um um1 : gmap Z (Z * Z)) (v : Z) : Prop :=
  ∃ f fl f', um !! v = Some (f, fl) ∧ um1 !! v = Some (f', fl) ∧ ∀ o, 0 ≤ o < PGSIZE → m (f' + o) = m (f + o).

(** The loop of copyuvm, after the pages below [a]. *)
Record copying (s0 s : kernel) (d : Z) (tabs0 tabs1 : gmap Z Z) (ps0 ps1 : list Z) (um um1 : gmap Z (Z * Z)) (a : Z) : Prop := {
  cp_grow : grow s0 s d tabs0 tabs1 ps0 ps1 ∅ um1 [];
  cp_dom : ∀ v e, um1 !! v = Some e → in_range 0 a v;
  cp_copy : ∀ v, in_range 0 a v → copied (mem s) um um1 v
}.

(** kalloc and [memmove(mem, P2V(pa), PGSIZE)]. *)
Definition filled (s : kernel) (f src : Z) : kernel :=
  s <| freelist := load32 (mem s) f |> <| mem ::= λ m, memmove m f src PGSIZE |>.

Lemma filled_mem s f src x :
  page_ok f → mem (filled s f src) x = if decide (page_of x = f) then mem s (src + (x - f)) else mem s x.
Proof.
  intros Hf. unfold filled. sst. rewrite memmove_bytes by done.
  case_decide as E; rewrite (page_of_in f x Hf) in E; unfold PGSIZE in *; bool_cases; cbn; (done || lia).
Qed.

Lemma lor_present fl : 0 ≤ fl → has fl PTE_P = true → Z.lor fl PTE_P = fl.
Proof.
  intros H0 H. apply Z.bits_inj. intros k. rewrite Z.lor_spec. destruct (Z.testbit PTE_P k) eqn:E; [|by rewrite orb_false_r].
  assert (k = 0) as ->.
  { destruct (Z.ltb_spec k 0); [by rewrite Z.testbit_neg_r in E|]. destruct (decide (k = 0)); [done|].
    change PTE_P with (2 ^ 0) in E. rewrite Z.pow2_bits_false in E by lia. done. }
  rewrite orb_true_r. symmetry. unfold has in H. destruct (Z.testbit fl 0) eqn:E0; [done|]. exfalso.
  assert (Hz : Z.land fl PTE_P = 0); [|by rewrite Hz in H].
  apply Z.bits_inj. intros k. rewrite Z.land_spec, Z.bits_0. destruct (decide (k = 0)) as [->|Hk]; [by rewrite E0|].
  apply andb_false_iff. right. change PTE_P with (2 ^ 0).
  destruct (Z.ltb_spec k 0); [by rewrite Z.testbit_neg_r|]. by rewrite Z.pow2_bits_false by lia.
Qed.

Lemma frame_byte f o : page_ok f → 0 ≤ o < PGSIZE → page_of (f + o) = f.
Proof. intros Hf Ho. apply page_of_in; [done|]. lia. Qed.

Lemma copying_step s0 s s2 d tabs0 tabs1 tabs2 ps0 f ps1 ps2 um um1 a f0 fl :
  copying s0 s d tabs0 tabs1 ps0 (f :: ps1) um um1 a → a mod PGSIZE = 0 → 0 ≤ a → um !! vpn a = Some (f0, fl) →
  page_ok f → (∀ v e, um !! v = Some e → page_ok e.1 ∧ e.1 ∉ f :: ps1 ∧ ¬ owns d tabs1 e.1) →
  (∀ x, page_of x ∉ ps1 → ¬ owns d tabs1 (page_of x) → mem s2 x = mem (filled s f f0) x) →
  grow s0 s2 d tabs0 tabs2 ps0 ps2 ∅ (<[vpn a := (f, fl)]> um1) [] →
  copying s0 s2 d tabs0 tabs2 ps0 ps2 um (<[vpn a := (f, fl)]> um1) (a + PGSIZE).
Proof.
  intros [G Hdom Hcp] Ha Ha0 Hum Hf Hpar Hm G2. assert (Has := gr_inv _ _ _ _ _ _ _ _ _ _ G).
  destruct (as_vm _ _ _ _ _ Has) as (_ & Hfi & _ & Hown). apply kalloc_pop in Hfi as (_ & Hfn & _).
  assert (Hva := vpn_aligned a Ha). split; [done| |].
  - intros v e [[<- _]|[_ Hv]]%lookup_insert_Some; [unfold in_range, PGSIZE in *; lia|].
    specialize (Hdom v e Hv). unfold in_range, PGSIZE in *. lia.
  - assert (Hkeep : ∀ p o, page_ok p → p ∉ f :: ps1 → ¬ owns d tabs1 p → 0 ≤ o < PGSIZE → mem s2 (p + o) = mem s (p + o)).
    { intros p o Hp Hn Ho Hr. apply not_elem_of_cons in Hn as [Hne Hn]. rewrite Hm by (by rewrite frame_byte).
      rewrite filled_mem by done. by rewrite decide_False by (by rewrite frame_byte). }
    intros v Hv. destruct (decide (v = vpn a)) as [->|Hne].
    + exists f0, fl, f. split; [done|]. rewrite lookup_insert_eq. split; [done|]. intros o Ho.
      destruct (Hpar _ _ Hum) as (Hp0 & Hn0 & Ho0). cbn [fst] in *. rewrite (Hkeep f0) by done.
      rewrite Hm; [|by rewrite frame_byte|rewrite frame_byte by done; apply Hown; by left].
      rewrite filled_mem by done. rewrite decide_True by (by apply frame_byte). f_equal. lia.
    + destruct (Hcp v) as (g & gl & g' & Hg & Hg' & Hsame); [unfold in_range, PGSIZE in *; lia|].
      exists g, gl, g'. rewrite lookup_insert_ne by done. split; [done|]. split; [done|]. intros o Ho.
      destruct (Hpar _ _ Hg) as (? & ? & ?). destruct (as_frame _ _ _ _ _ Has v g' gl Hg') as (_ & ? & _ & _ & ? & ?).
      cbn [fst] in *. rewrite !Hkeep by done. by apply Hsame.
Qed.

Section Copy.
Context (pgdir : Z) (tabs : gmap Z Z) (um : gmap Z (Z * Z)) (sz : Z).
Context (s0 : kernel) (d : Z) (tabs0 : gmap Z Z) (ps0 : list Z).
Context (H0 : as_inv s0 pgdir tabs ps0 um) (Hsep : ∀ p, pages_of pgdir tabs um p → ¬ owns d tabs0 p).
Context (Hsz : sz ≤ KERNBASE) (Hpres : ∀ v, in_range 0 sz v → is_Some (um !! v)).

(** Frames of the parent are never part of the copy. *)
Lemma parent_apart s tabs1 ps1 um1 lim :
  grow s0 s d tabs0 tabs1 ps0 ps1 ∅ um1 lim →
  ∀ v e, um !! v = Some e → page_ok e.1 ∧ e.1 ∉ ps1 ∧ ¬ owns d tabs1 e.1.
Proof.
  intros G v [f fl] Hv. cbn [fst]. destruct (as_frame _ _ _ _ _ H0 v f fl Hv) as (_ & Hok & _ & _ & Hni & _).
  assert (Hd : ¬ owns d tabs0 f) by (apply Hsep; right; eauto). split_and!; [done| |].
  - intros Hp. apply Hni, (gr_free _ _ _ _ _ _ _ _ _ _ G). by left; left.
  - intros [->|[i Hi]]; [apply Hd; by left|]. destruct (tabs0 !! i) as [q|] eqn:E.
    + pose proof (lookup_weaken _ _ _ _ E (gr_tabs _ _ _ _ _ _ _ _ _ _ G)). apply Hd. right. exists i. congruence.
    + apply Hni, (gr_free _ _ _ _ _ _ _ _ _ _ G). right; left. eauto.
Qed.

(** The entry the loop reads for the page at [a]. *)
Lemma copy_entry s ps a :
  as_inv s pgdir tabs ps um → 0 ≤ a < sz → a mod PGSIZE = 0 →
  ∃ f fl pte, um !! vpn a = Some (f, fl) ∧ walkpgdir pgdir a false s = Ret pte s ∧ pte ≠ 0 ∧ load pte s = Ret (V2P f + fl) s
    ∧ PTE_ADDR (V2P f + fl) = V2P f ∧ P2V (V2P f) = f ∧ PTE_FLAGS (V2P f + fl) = fl ∧ has (V2P f + fl) PTE_P = true
    ∧ 0 ≤ fl < PGSIZE ∧ Z.lor fl PTE_P = fl.
Proof.
  intros Has Ha Haa. assert (Hau : is_u32 a) by (apply user_u32; lia).
  destruct (Hpres (vpn a)) as [[f fl] Hv]; [unfold in_range; rewrite vpn_aligned by done; lia|].
  destruct (as_frame _ _ _ _ _ Has _ _ _ Hv) as (_ & Hf & Hfl & Hp & _). destruct (user_entry f fl Hf Hfl) as (_ & _ & E1 & E2 & E3).
  assert (Hent := as_entry _ _ _ _ _ Has a ltac:(lia)). rewrite Hv in Hent.
  destruct (as_vm _ _ _ _ _ Has) as (Hk & Hfi & Hpt & Hown). pose proof (walkpgdir_run s pgdir tabs ps a false (as_vm _ _ _ _ _ Has) Hau) as Hw.
  destruct (V2P_page f Hf) as (_ & _ & Hfp).
  destruct (tabs !! PDX a) as [t0|] eqn:Et; [|unfold entry in Hent; rewrite Et in Hent; lia].
  destruct (pt_tab _ _ _ Hpt _ _ Et) as (_ & Ht0 & _). destruct (table_slot t0 (PTX a) Ht0 (PTX_range a Hau)) as [_ Hnz].
  exists f, fl, (t0 + 4 * PTX a). split_and!; try done; try lia.
  - rewrite <- Hent, <- (entry_load s tabs a t0 Et). reflexivity.
  - by apply P2V_V2P.
  - by rewrite E3.
  - by apply lor_present; [lia|].
Qed.

Lemma copyuvm_loop_run n : ∀ a s tabs1 ps1 um1,
  copying s0 s d tabs0 tabs1 ps0 ps1 um um1 a → a mod PGSIZE = 0 → 0 ≤ a → a < sz + PGSIZE ∨ a = 0 →
  sz - a ≤ Z.of_nat n * PGSIZE →
  ∃ ok s' tabs2 ps2 um2 lim, copyuvm_loop n pgdir d a sz s = Ret ok s'
    ∧ grow s0 s' d tabs0 tabs2 ps0 ps2 ∅ um2 lim
    ∧ if ok : bool then lim = [] ∧ copying s0 s' d tabs0 tabs2 ps0 ps2 um um2 sz
      else (length lim ≤ 1)%nat ∧ ps2 = [] ∧ (∀ v e, um2 !! v = Some e → in_range 0 sz v).
Proof.
  induction n as [|n IH]; intros a s tabs1 ps1 um1 A Ha Ha0 Hend Hn; cbn [copyuvm_loop];
    (destruct (Z.ltb_spec a sz) as [Hlt|Hge]; [|exists true, s, tabs1, ps1, um1, []; destruct A as [G Hdom Hcp];
       split; [done|]; split; [done|]; split; [done|]; split; [done| |];
       [intros v e Hv; apply (in_range_end _ a); [done..|by eapply Hdom]
       |intros v Hv; apply Hcp; by apply (in_range_end _ a) in Hv]]).
  { lia. }
  assert (G := cp_grow _ _ _ _ _ _ _ _ _ _ A).
  assert (Has := grow_other _ _ _ _ _ _ _ _ _ _ _ _ _ H0 G Hsep).
  destruct (copy_entry s ps1 a Has ltac:(lia) Ha) as (f0 & fl & pte & Hv & Hw & Hp0 & Hld & Epa & Epv & Efl & Ehas & Hfl & Elor).
  rewrite (bind_run _ _ _ _ _ Hw). cbv beta. destruct (Z.eqb_spec pte 0); [done|].
  rewrite (bind_run _ _ _ _ _ Hld). cbv beta. rewrite Ehas. cbn [negb]. rewrite Epa, Efl. cbv zeta.
  assert (Hnone : um1 !! vpn a = None).
  { destruct (um1 !! vpn a) as [e|] eqn:E; [|done]. apply (cp_dom _ _ _ _ _ _ _ _ _ _ A) in E.
    unfold in_range in E. rewrite vpn_aligned in E by done. lia. }
  assert (Hd : ∀ v e, um1 !! v = Some e → in_range 0 sz v).
  { intros v e Hve. apply (cp_dom _ _ _ _ _ _ _ _ _ _ A) in Hve. unfold in_range in *. lia. }
  destruct ps1 as [|f ps1].
  - destruct (as_vm _ _ _ _ _ Has) as (Hk & Hf & _). rewrite (bind_run _ _ _ _ _ (kalloc_run s [] Hk Hf)). cbv beta.
    exists false, s, tabs1, [], um1, []. split; [done|]. split; [done|]. split; [cbn; lia|]. split; [done|exact Hd].
  - assert (Hok : page_ok f).
    { destruct (as_vm _ _ _ _ _ Has) as (_ & Hf & _). by apply kalloc_pop in Hf as (? & _). }
    destruct (grow_fill _ _ (filled s f f0) _ _ _ _ _ _ _ _ G) as (Hk & _ & Hf0 & G1); [by destruct s| |].
    { intros x Hx. rewrite filled_mem by done. by rewrite decide_False. }
    rewrite (bind_run _ _ _ _ _ Hk). cbv beta. destruct (Z.eqb_spec f 0); [done|]. run. rewrite Epv. fold (filled s f f0).
    destruct (grow_map _ _ _ _ _ _ _ _ _ f a fl G1) as (r & s2 & tabs2 & ps2 & Hr & Hm & Hg); [lia|done|done|done|].
    rewrite Elor in Hg. rewrite (bind_run _ _ _ _ _ Hr). cbv beta. destruct r.
    + unfold uadd. rewrite u32_small by (unfold is_u32, KERNBASE, PGSIZE in *; lia).
      apply (IH _ _ tabs2 ps2 (<[vpn a := (f, fl)]> um1));
        [|by rewrite Z.add_mod, Ha by done|unfold PGSIZE; lia|left; lia|unfold PGSIZE in *; lia].
      eapply copying_step; try done. by eapply parent_apart.
    + destruct Hg as (-> & _ & Hg). exists false, s2, tabs2, [], um1, [f]. split; [done|]. split; [done|]. split; [cbn; lia|]. split; [done|exact Hd].
Qed.
End Copy.

Lemma grow_pages s s' d tabs tabs' ps ps' um um' lim :
  grow s s' d tabs tabs' ps ps' um um' lim →
  ∀ p, p ∈ ps ∨ pages_of d tabs um p ↔ p ∈ ps' ∨ p ∈ lim ∨ pages_of d tabs' um' p.
Proof.
  intros [_ _ T U F _ _ _ _ _] p. rewrite F. unfold pages_of, owns. split.
  - intros [[[H|H]|[(i & Hi & _)|(v & fl & Hv & _)]]|[[H|[i Hi]]|(v & fl & Hv)]];
      [by left|by right; left|right; right; left; right; eauto|right; right; right; eauto|by right; right; left; left| |].
    + right; right; left; right. exists i. by eapply lookup_weaken.
    + right; right; right. exists v, fl. by eapply lookup_weaken.
  - intros [H|[H|[[H|[i Hi]]|(v & fl & Hv)]]];
      [by left; left; left|by left; left; right|by right; left; left| |].
    + destruct (tabs !! i) as [q|] eqn:E; [|left; right; left; eauto].
      pose proof (lookup_weaken _ _ _ _ E T). right; left; right. exists i. congruence.
    + destruct (um !! v) as [q|] eqn:E; [|left; right; right; eauto].
      pose proof (lookup_weaken _ _ _ _ E U). right; right. exists v, fl. congruence.
Qed.

(** The result of copyuvm. *)
Definition copy_post (s s' : kernel) (pgdir : Z) (tabs : gmap Z Z) (ps : list Z) (um : gmap Z (Z * Z)) (sz r : Z) : Prop :=
  (∀ x, page_of x ∉ ps → mem s' x = mem s x) ∧
  if decide (r = 0) then
    ∃ ps' leak, as_inv s' pgdir tabs ps' um ∧ (length leak ≤ 1)%nat ∧ (∀ p, p ∈ ps ↔ p ∈ ps' ∨ p ∈ leak)
    ∧ Z.of_nat (length ps) ≤ 1027 + sz / PGSIZE
  else
    ∃ tabs' ps' um', as_inv s' pgdir tabs ps' um ∧ as_inv s' r tabs' ps' um'
    ∧ (∀ v, in_range 0 sz v → copied (mem s') um um' v) ∧ (∀ v e, um' !! v = Some e → in_range 0 sz v)
    ∧ (∀ p, p ∈ ps ↔ p ∈ ps' ∨ pages_of r tabs' um' p)
    ∧ kernel_half (mem s') tabs'.

Lemma copy_undone s s' pgdir tabs ps ps' um sz leak :
  as_inv s pgdir tabs ps um → kmem_ok s' → free_inv s' ps' → (∀ x, page_of x ∉ ps → mem s' x = mem s x) →
  (length leak ≤ 1)%nat → (∀ p, p ∈ ps ↔ p ∈ ps' ∨ p ∈ leak) → Z.of_nat (length ps) ≤ 1027 + sz / PGSIZE →
  copy_post s s' pgdir tabs ps um sz 0.
Proof.
  intros Has K1 I1 Hm Hl Hset Hlen. split; [done|]. rewrite decide_True by done. exists ps', leak. split; [|done].
  apply (as_keep s s' pgdir tabs ps ps' um Has K1 I1).
  - intros p Hp Hp'. apply (pages_not_free _ _ _ _ _ p Has Hp), Hset. by left.
  - intros x Hx. apply Hm. by eapply pages_not_free.
Qed.

(** C10: copyuvm copies a process.  When it succeeds the new page table maps
    exactly the pages below [sz], with the flags of the parent, to frames of
    their own that hold the same bytes, and the kernel as [kmap] says; every
    page it took was free, so parent and child share no memory, and the parent
    is as it was.  It fails only when fewer pages are free than it could need,
    and then returns 0; the parent is as it was and everything is on the free
    list again, except at most one page: the frame just filled, when mappages
    found no memory for a page table, is not freed. *)
Theorem copyuvm_spec pgdir sz s tabs ps um :
  as_inv s pgdir tabs ps um → 0 ≤ sz ≤ KERNBASE → (∀ v, in_range 0 sz v → is_Some (um !! v)) →
  ∃ r s', copyuvm pgdir sz s = Ret r s' ∧ copy_post s s' pgdir tabs ps um sz r.
Proof.
  intros Has Hsz Hpres. destruct (as_vm _ _ _ _ _ Has) as (Hk & Hf & _).
  assert (Hnf : ∀ p, pages_of pgdir tabs um p → p ∉ ps) by (intros p; by eapply pages_not_free).
  destruct (setupkvm_run s ps Hk Hf) as (r & s1 & ps1 & Hr & Hres). unfold copyuvm. rewrite (bind_run _ _ _ _ _ Hr). cbv beta.
  destruct (Z.eqb_spec r 0) as [->|Hr0].
  { rewrite decide_True in Hres by done. destruct Hres as [[K1 I1 F1 M1 R1] Hlen].
    assert (Hset : ∀ p, p ∈ ps1 ↔ p ∈ ps) by (intros p; rewrite F1; tauto).
    exists 0, s1. split; [done|]. apply (copy_undone s s1 pgdir tabs ps ps1 um sz []); try done; [|cbn; lia| |].
    - intros x Hx. apply M1. by rewrite Hset.
    - intros p. rewrite Hset, elem_of_nil. tauto.
    - pose proof (Z.div_pos sz PGSIZE ltac:(lia) ltac:(done)). lia. }
  rewrite decide_False in Hres by done. destruct Hres as [tabs1 [N1 N2 N3 N4 N5]].
  destruct (as_vm _ _ _ _ _ N1) as (K1 & I1 & _).
  assert (Hp1 : as_inv s1 pgdir tabs ps1 um).
  { apply (as_keep s s1 pgdir tabs ps ps1 um Has K1 I1); [|intros x Hx; apply N4; auto].
    intros p Hp Hp'. apply (Hnf p Hp), N3. by left. }
  assert (Hsep : ∀ p, pages_of pgdir tabs um p → ¬ owns r tabs1 p).
  { intros p Hp Ho. apply (Hnf p Hp), N3. by right. }
  destruct (copyuvm_loop_run pgdir tabs um sz s1 r tabs1 ps1 Hp1 Hsep ltac:(lia) Hpres (Z.to_nat (sz / PGSIZE + 1)) 0 s1 tabs1 ps1 ∅)
    as (ok & s2 & tabs2 & ps2 & um2 & lim & Hr2 & G & Hok).
  { split; [by apply grow_refl|by intros v e ?%lookup_empty_Some|]. intros v Hv. unfold in_range in Hv. lia. }
  { done. } { lia. } { by right. }
  { pose proof (Z_div_mod_eq_full sz PGSIZE). pose proof (Z.mod_pos_bound sz PGSIZE ltac:(done)).
    pose proof (Z.div_pos sz PGSIZE ltac:(lia) ltac:(done)). unfold PGSIZE in *. lia. }
  rewrite (bind_run _ _ _ _ _ Hr2). cbv beta. assert (Hp2 := grow_other _ _ _ _ _ _ _ _ _ _ _ _ _ Hp1 G Hsep).
  assert (Hpg : ∀ p, p ∈ ps ↔ p ∈ ps2 ∨ p ∈ lim ∨ pages_of r tabs2 um2 p).
  { intros p. rewrite <- (grow_pages _ _ _ _ _ _ _ _ _ _ G), N3. unfold pages_of. split; [tauto|].
    intros [?|[?|(v & fl & H)]]; [tauto|tauto|]. by apply lookup_empty_Some in H. }
  assert (Hm2 : ∀ x, page_of x ∉ ps → mem s2 x = mem s x).
  { intros x Hx. rewrite N3 in Hx. rewrite (gr_mem _ _ _ _ _ _ _ _ _ _ G) by tauto. apply N4. rewrite N3. done. }
  destruct ok.
  - destruct Hok as [-> [_ Hdom Hcp]]. exists r, s2. split; [done|]. split; [done|]. rewrite decide_False by done.
    exists tabs2, ps2, um2. split; [done|]. split; [apply G|]. split; [done|]. split; [done|]. split.
    + intros p. rewrite Hpg, elem_of_nil. tauto.
    + apply (kernel_half_keep _ _ _ _ N2), G.
  - destruct (freevm_run s2 r tabs2 ps2 um2 (gr_inv _ _ _ _ _ _ _ _ _ _ G)) as (s3 & ps3 & Hr3 & [K3 I3 F3 M3 R3]).
    rewrite (bind_run _ _ _ _ _ Hr3). exists 0, s3. split; [done|]. destruct Hok as (Hlim & -> & Hdom).
    assert (Hset : ∀ p, p ∈ ps ↔ p ∈ ps3 ∨ p ∈ lim) by (intros p; rewrite Hpg, F3; tauto).
    apply (copy_undone s s3 pgdir tabs ps ps3 um sz lim); try done.
    + intros x Hx. rewrite M3; [by apply Hm2|]. intros H. apply Hx, Hset. by left.
    + destruct (as_vm _ _ _ _ _ (gr_inv _ _ _ _ _ _ _ _ _ _ G)) as (_ & _ & Hpt & _). pose proof (tables_bound _ _ _ Hpt).
      pose proof (frames_bound sz um2 ltac:(lia) Hdom). pose proof (pages_bound ps lim r tabs2 um2 (proj1 (proj2 Hf))) as Hb.
      enough (length ps ≤ length lim + 1 + size tabs2 + size um2)%nat by lia. apply Hb. intros p Hp. apply Hpg in Hp.
      rewrite elem_of_nil in Hp. tauto.
Qed.
End Kvm.

#[local] Existing Instance plat0.

(** The process of one page, with 2048 free pages. *)
Lemma much_memory :
  ∃ s ps, freerange_loop 2048 (KERNBASE + 16777216) (KERNBASE + 25165824) one_page = Ret tt s
    ∧ as_inv s root0 {[0 := tab0]} ps {[0 := (frame0, 7)]} ∧ 2048 ≤ Z.of_nat (length ps).
Proof.
  destruct (freerange_loop_run 2048 (KERNBASE + 16777216) (KERNBASE + 25165824) one_page []) as (s & qs & Hr & Hf & Hs & Hm & Hq).
  - done.
  - split; [done|]. split; [apply NoDup_nil_2|done].
  - done.
  - by vm_compute.
  - by vm_compute.
  - by vm_compute.
  - by vm_compute.
  - intros q Hq. by apply elem_of_nil in Hq.
  - rewrite app_nil_r in Hf. exists s, qs. split; [exact Hr|].
    assert (Hpg : ∀ p, pages_of root0 {[0 := tab0]} {[0 := (frame0, 7)]} p → p = root0 ∨ p = tab0 ∨ p = frame0).
    { intros p [[->|[i [_ <-]%lookup_singleton_Some]]|(v & fl & [_ [= <- _]]%lookup_singleton_Some)]; auto. }
    split.
    + apply (as_keep one_page s root0 {[0 := tab0]} [] qs {[0 := (frame0, 7)]} one_page_as); [by rewrite Hs|done| |].
      * intros p Hp%Hpg Hin. apply Hq in Hin as (_ & Hlo & _). unfold root0, tab0, frame0, KERNBASE in *. lia.
      * intros x Hx%Hpg. apply Hm. left. unfold page_of, PGSIZE in Hx. pose proof (Z.mod_pos_bound x 4096 ltac:(lia)).
        unfold root0, tab0, frame0, KERNBASE in *. lia.
    + assert (Hsub : (λ i, KERNBASE + 16777216 + 4096 * i) <$> seqZ 0 2048 ⊆+ qs).
      { apply NoDup_submseteq; [apply NoDup_fmap_2; [intros x y E; lia|apply NoDup_seqZ]|].
        intros p (i & -> & Hi%elem_of_seqZ)%list_elem_of_fmap. apply Hq. unfold PGSIZE, KERNBASE. split_and!; [|lia|lia].
        replace (2147483648 + 16777216 + 4096 * i) with ((528384 + i) * 4096) by lia. apply Z_mod_mult. }
      apply submseteq_length in Hsub. rewrite length_fmap, length_seqZ in Hsub. lia.
Qed.

Lemma copyuvm_spec_witness :
  ∃ s r s', freerange_loop 2048 (KERNBASE + 16777216) (KERNBASE + 25165824) one_page = Ret tt s
    ∧ copyuvm root0 4096 s = Ret r s' ∧ r ≠ 0.
Proof.
  destruct much_memory as (s & ps & Hs & Has & Hlen).
  destruct (copyuvm_spec root0 4096 s {[0 := tab0]} ps {[0 := (frame0, 7)]}) as (r & s' & Hr & _ & Hres).
  - exact Has.
  - unfold KERNBASE. lia.
  - intros v Hv. assert (v = 0) as -> by (unfold in_range, PGSIZE in Hv; lia). rewrite lookup_singleton_eq. by eexists.
  - exists s, r, s'. split; [exact Hs|]. split; [exact Hr|]. intros ->. rewrite decide_True in Hres by done.
    destruct Hres as (ps' & leak & _ & _ & _ & Hb). change (4096 / PGSIZE) with 1 in Hb. lia.
Defined.
