(* ===== verification/Ide.v ===== *)
(** The disk drivers: the IDE driver with its request queue and interrupt
    handler (ide.c) and the memory disk (memide.c), two implementations of the
    interface [DiskDriver] the buffer cache is linked against.

    A block write reaches the disk when the data is handed to the controller
    (outsl); a read takes the data of the sector the controller works on when
    its interrupt is served (insl). *)

From S2P Require Import Prelude Types Spinlock Sched.

(** ** Buffers *)

Definition getbuf (i : nat) : K buf := b ← gets (λ s, bcache s !! i); deref b.
Definition upd_buf (i : nat) (f : buf → buf) : K unit := modify (λ s, s <| bcache ::= alter f i |>).

Lemma getbuf_run s i b : bcache s !! i = Some b → getbuf i s = Ret b s.
Proof. intros H. unfold getbuf. run. by rewrite H. Qed.

(** [b->flags |= f] and [b->flags &= ~f]. *)
Definition set_flag (f : Z) (b : buf) : buf := b <| b_flags ::= λ x, Z.lor x f |>.
Definition clear_flag (f : Z) (b : buf) : buf := b <| b_flags ::= λ x, Z.land x (-1 - f) |>.

Definition is_valid (b : buf) : bool := negb (Z.land (b_flags b) B_VALID =? 0).
Definition is_dirty (b : buf) : bool := negb (Z.land (b_flags b) B_DIRTY =? 0).

(** [(b->flags & (B_VALID|B_DIRTY)) == B_VALID]: in sync with the disk. *)
Definition synced (b : buf) : bool := Z.land (b_flags b) (Z.lor B_VALID B_DIRTY) =? B_VALID.

(** The data of a block goes to the disk. *)
Definition disk_write (k : Z * Z) (d : list Z) : K unit :=
  modify (λ s, s <| disk ::= <[k := d]> |> <| dtrace ::= λ t, t ++ [(k, d)] |>).

(** What the buffer cache needs of a disk: [iderw] makes a locked buffer and
    the disk agree. *)
Class DiskDriver := iderw : nat → K unit.

(** ** memide.c *)

Module Memide.
Section Memide.
Context {P : Platform}.

(** ideinit sets [disksize] once at boot. *)
Definition disksize : Z := fs_img_size / BSIZE.

Definition ideintr : K unit := mret tt.

Definition iderw (i : nat) : K unit :=
  h ← holdingsleep (SLBuf i);
  if negb h then panic "iderw: buf not locked" else
  b ← getbuf i;
  if synced b then panic "iderw: nothing to do" else
  if negb (b_dev b =? 1) then panic "iderw: request not for disk 1" else
  if disksize <=? b_blockno b then panic "iderw: block out of range" else
  (if is_dirty b then
     upd_buf i (clear_flag B_DIRTY);;
     disk_write (1, b_blockno b) (b_data b)
   else
     d ← gets (λ s, disk s !! (1, b_blockno b));
     d ← deref d;
     upd_buf i (λ b, b <| b_data := d |>));;
  upd_buf i (set_flag B_VALID).

#[export] Instance driver : DiskDriver := iderw.
End Memide.
End Memide.

(** ** ide.c *)

Module Ide.
Section Ide.
Context {P : Platform}.

(** [idewait(checkerr)] once the disk is ready. *)
Definition idewait (checkerr : bool) : K bool :=
  e ← gets ide_err;
  mret (negb (checkerr && e)).

Definition idestart (b : option nat) : K unit :=
  match b with
  | None => panic "idestart"
  | Some i =>
      b ← getbuf i;
      if FSSIZE <=? b_blockno b then panic "incorrect blockno" else
      idewait false;;
      modify (λ s, s <| ide_reg := (Z.land (b_dev b) 1, b_blockno b) |>);;
      when (is_dirty b) (disk_write (Z.land (b_dev b) 1, b_blockno b) (b_data b))
  end.

Definition ideintr : K unit :=
  acquire LIde;;
  q ← gets idequeue;
  match q with
  | None => release LIde
  | Some i =>
      b ← getbuf i;
      modify (λ s, s <| idequeue := b_qnext b |>);;
      (if is_dirty b then mret tt else
       ok ← idewait true;
       when ok
         (r ← gets ide_reg;
          d ← gets (λ s, disk s !! r);
          d ← deref d;
          upd_buf i (λ b, b <| b_data := d |>)));;
      upd_buf i (set_flag B_VALID);;
      upd_buf i (clear_flag B_DIRTY);;
      wakeup (ChBuf i);;
      q ← gets idequeue;
      when (bool_decide (q ≠ None)) (idestart q);;
      release LIde
  end.

(** [for(pp=&idequeue; *pp; pp=&( *pp)->qnext)]: the last request, at most one
    round per buffer. *)
Fixpoint queue_last (n : nat) (i : nat) : K nat :=
  b ← getbuf i;
  match b_qnext b with
  | None => mret i
  | Some j => match n with O => nofuel | S n' => queue_last n' j end
  end.

(** [*pp = b]. *)
Definition enqueue (i : nat) : K unit :=
  q ← gets idequeue;
  match q with
  | None => modify (λ s, s <| idequeue := Some i |>)
  | Some h => l ← queue_last NBUF h; upd_buf l (λ b, b <| b_qnext := Some i |>)
  end.

(** [while((b->flags & (B_VALID|B_DIRTY)) != B_VALID) sleep(b, &idelock)]. *)
Fixpoint ide_wait (n : nat) (i : nat) : K unit :=
  b ← getbuf i;
  if synced b then mret tt
  else match n with
       | O => nofuel
       | S n' => sleep (ChBuf i) LIde;; ide_wait n' i
       end.

Definition iderw (i : nat) : K unit :=
  h ← holdingsleep (SLBuf i);
  if negb h then panic "iderw: buf not locked" else
  b ← getbuf i;
  if synced b then panic "iderw: nothing to do" else
  d1 ← gets havedisk1;
  if (negb (b_dev b =? 0) && negb d1)%bool then panic "iderw: ide disk 1 not present" else
  acquire LIde;;
  upd_buf i (λ b, b <| b_qnext := None |>);;
  enqueue i;;
  q ← gets idequeue;
  when (bool_decide (q = Some i)) (idestart q);;
  ide_wait fuel i;;
  release LIde.

#[export] Instance driver : DiskDriver := iderw.
End Ide.
End Ide.

(** ** Flags *)

Lemma clear_bits_id x f : 0 ≤ f → Z.land x f = 0 → Z.land x (-1 - f) = x.
Proof.
  intros Hf H. replace (-1 - f) with (Z.lnot f) by (unfold Z.lnot; lia).
  apply Z.bits_inj'. intros i Hi. rewrite Z.land_spec, Z.lnot_spec by done.
  apply (f_equal (λ y, Z.testbit y i)) in H. rewrite Z.land_spec, Z.bits_0 in H.
  destruct (Z.testbit x i), (Z.testbit f i); done.
Qed.

Lemma not_dirty_clear b : is_dirty b = false → clear_flag B_DIRTY b = b.
Proof.
  unfold is_dirty. intros H%negb_false_iff%Z.eqb_eq. unfold clear_flag, set, set_b_flags.
  rewrite clear_bits_id by (done || unfold B_DIRTY; lia). by destruct b.
Qed.

Lemma clear_set_comm b : clear_flag B_DIRTY (set_flag B_VALID b) = set_flag B_VALID (clear_flag B_DIRTY b).
Proof.
  unfold clear_flag, set_flag, set, set_b_flags. cbn [b_flags].
  rewrite Z.land_lor_distr_l. by change (Z.land B_VALID (-1 - B_DIRTY)) with B_VALID.
Qed.

(** Valid and not dirty. *)
Lemma synced_flags b : synced b = (is_valid b && negb (is_dirty b))%bool.
Proof.
  unfold synced, is_valid, is_dirty, B_VALID, B_DIRTY. rewrite negb_involutive.
  set (x := b_flags b). change (Z.lor 2 4) with 6.
  assert (H6 : Z.land x 6 = Z.lor (Z.land x 2) (Z.land x 4)) by (by rewrite <- Z.land_lor_distr_r).
  assert (H2 : Z.land x 2 = 0 ∨ Z.land x 2 = 2).
  { destruct (Z.testbit x 1) eqn:E; [right|left]; apply Z.bits_inj'; intros i Hi;
      rewrite Z.land_spec; (destruct (decide (i = 1)) as [->|]; [by rewrite E|]);
      change 2 with (2 ^ 1); rewrite ?(Z.pow2_bits_false 1 i), ?andb_false_r, ?Z.bits_0 by lia; done. }
  assert (H4 : Z.land x 4 = 0 ∨ Z.land x 4 = 4).
  { destruct (Z.testbit x 2) eqn:E; [right|left]; apply Z.bits_inj'; intros i Hi;
      rewrite Z.land_spec; (destruct (decide (i = 2)) as [->|]; [by rewrite E|]);
      change 4 with (2 ^ 2); rewrite ?(Z.pow2_bits_false 2 i), ?andb_false_r, ?Z.bits_0 by lia; done. }
  rewrite H6. destruct H2 as [-> | ->], H4 as [-> | ->]; done.
Qed.

Lemma set_valid_valid b : is_valid (set_flag B_VALID b) = true.
Proof.
  unfold is_valid, set_flag, set, set_b_flags. cbn [b_flags]. rewrite Z.land_lor_distr_l.
  destruct (Z.eqb_spec (Z.lor (Z.land (b_flags b) B_VALID) (Z.land B_VALID B_VALID)) 0) as [E|]; [|done].
  by apply Z.lor_eq_0_iff in E as [_ E].
Qed.

Lemma set_valid_dirty b : is_dirty (set_flag B_VALID b) = is_dirty b.
Proof.
  unfold is_dirty, set_flag, set, set_b_flags. cbn [b_flags]. rewrite Z.land_lor_distr_l.
  change (Z.land B_VALID B_DIRTY) with 0. by rewrite Z.lor_0_r.
Qed.

Lemma clear_dirty_clean b : is_dirty (clear_flag B_DIRTY b) = false.
Proof.
  unfold is_dirty, clear_flag, set, set_b_flags. cbn [b_flags]. rewrite <- Z.land_assoc.
  change (Z.land (-1 - B_DIRTY) B_DIRTY) with 0. by rewrite Z.land_0_r.
Qed.

Lemma clear_dirty_valid b : is_valid (clear_flag B_DIRTY b) = is_valid b.
Proof.
  unfold is_valid, clear_flag, set, set_b_flags. cbn [b_flags]. by rewrite <- Z.land_assoc.
Qed.

Lemma set_dirty_dirty b : is_dirty (set_flag B_DIRTY b) = true.
Proof.
  unfold is_dirty, set_flag, set, set_b_flags. cbn [b_flags]. rewrite Z.land_lor_distr_l.
  destruct (Z.eqb_spec (Z.lor (Z.land (b_flags b) B_DIRTY) (Z.land B_DIRTY B_DIRTY)) 0) as [E|]; [|done].
  by apply Z.lor_eq_0_iff in E as [_ E].
Qed.

Lemma set_dirty_valid b : is_valid (set_flag B_DIRTY b) = is_valid b.
Proof.
  unfold is_valid, set_flag, set, set_b_flags. cbn [b_flags]. rewrite Z.land_lor_distr_l.
  change (Z.land B_DIRTY B_VALID) with 0. by rewrite Z.lor_0_r.
Qed.

(** The buffer after a transfer: [d] is the block on the disk. *)
Definition transferred (d : list Z) (b : buf) : buf :=
  set_flag B_VALID (if is_dirty b then clear_flag B_DIRTY b else b <| b_data := d |>).

Lemma transferred_synced d b : synced (transferred d b) = true.
Proof.
  rewrite synced_flags. unfold transferred. rewrite set_valid_valid, set_valid_dirty. cbn [andb].
  destruct (is_dirty b) eqn:E; [by rewrite clear_dirty_clean|].
  change (is_dirty (b <| b_data := d |>)) with (is_dirty b). by rewrite E.
Qed.

(** ** What a transfer does *)

(** The effect of a transfer on a buffer and its block on the disk. *)
Definition transfer (s : kernel) (i : nat) (k : Z * Z) (b : buf) (d : list Z) : kernel :=
  let s := s <| bcache ::= alter (transferred d) i |> in
  if is_dirty b then s <| disk ::= <[k := b_data b]> |> <| dtrace ::= λ t, t ++ [(k, b_data b)] |> else s.

Lemma alter_twice {A} (f g : A → A) i (l : list A) : alter f i (alter g i l) = alter (f ∘ g) i l.
Proof.
  apply list_eq. intros j. rewrite !list_lookup_alter. repeat case_decide; try done.
  by destruct (l !! i).
Qed.

Lemma alter_ext_at {A} (f g : A → A) i (l : list A) x :
  l !! i = Some x → f x = g x → alter f i l = alter g i l.
Proof.
  intros Hx Hfg. apply list_eq. intros j. rewrite !list_lookup_alter.
  destruct (decide (i = j)) as [->|]; [|done]. rewrite Hx. cbn. by rewrite Hfg.
Qed.

Lemma set_bcache_ext f g (s : kernel) :
  f (bcache s) = g (bcache s) → s <| bcache ::= f |> = s <| bcache ::= g |>.
Proof. unfold set, set_bcache. by intros ->. Qed.

Section Drivers.
Context {P : Platform}.

(** The memory disk does the transfer at once. *)
Lemma memide_run s i b d :
  bcache s !! i = Some b → sl_locked (b_lock b) = true → LBuf i ∉ held s → synced b = false →
  b_dev b = 1 → b_blockno b < Memide.disksize → disk s !! (1, b_blockno b) = Some d →
  Memide.iderw i s = Ret tt (transfer s i (1, b_blockno b) b d).
Proof.
  intros Hb Hl Hh Hsy Hdev Hno Hd. unfold Memide.iderw.
  erewrite bind_run; [|apply (holdingsleep_run (SLBuf i) s (b_lock b)); [cbn; by rewrite Hb|done]].
  cbv beta. rewrite Hl. cbn [negb]. run_by (by apply getbuf_run). rewrite Hsy, Hdev.
  change (1 =? 1) with true. cbn [negb]. destruct (Z.leb_spec Memide.disksize (b_blockno b)); [lia|].
  unfold transfer. destruct (is_dirty b) eqn:E.
  - unfold upd_buf, disk_write. run_by (run; reflexivity). unfold modify. f_equal.
    rewrite (set_bcache_ext (alter (transferred d) i)
               (λ l, alter (set_flag B_VALID) i (alter (clear_flag B_DIRTY) i l))); [done|].
    rewrite alter_twice. eapply alter_ext_at; [done|]. unfold transferred, compose. by rewrite E.
  - run_by (run; rewrite Hd; run; reflexivity). unfold upd_buf, modify. f_equal.
    rewrite (set_bcache_ext (alter (transferred d) i)
               (λ l, alter (set_flag B_VALID) i (alter (λ b, b <| b_data := d |>) i l))); [done|].
    rewrite alter_twice. eapply alter_ext_at; [done|]. unfold transferred, compose. by rewrite E.
Qed.

(** The buffer that waits at the head of an otherwise empty queue. *)
Lemma idestart_run s i b :
  bcache s !! i = Some b → b_blockno b < FSSIZE →
  Ide.idestart (Some i) s
  = Ret tt (let k := (Z.land (b_dev b) 1, b_blockno b) in
            let s := s <| ide_reg := k |> in
            if is_dirty b then s <| disk ::= <[k := b_data b]> |> <| dtrace ::= λ t, t ++ [(k, b_data b)] |>
            else s).
Proof.
  intros Hb Hno. unfold Ide.idestart. run_by (by apply getbuf_run).
  destruct (Z.leb_spec FSSIZE (b_blockno b)); [lia|]. unfold Ide.idewait.
  erewrite bind_run by (run; reflexivity). cbv beta. run. by destruct (is_dirty b).
Qed.

(** ideintr with a single request in the queue. *)
Lemma ideintr_run s i b d :
  held s = [] → idequeue s = Some i → bcache s !! i = Some b → b_qnext b = None →
  ide_err s = false → (is_dirty b = false → disk s !! ide_reg s = Some d) →
  Ide.ideintr s
  = Ret tt (s <| idequeue := None |> <| bcache ::= alter (transferred d) i |>
              <| ptable ::= fmap (wake_one (ChBuf i)) |>).
Proof.
  intros Hh Hq Hb Hn He Hd. unfold Ide.ideintr.
  run_by (apply acquire_run; rewrite Hh; set_solver). run. sst. rewrite Hq.
  run_by (by apply getbuf_run). rewrite Hn. run.
  assert (Hread : (if is_dirty b then mret tt else
       ok ← Ide.idewait true;
       when ok (r ← gets ide_reg; d ← gets (λ s, disk s !! r); d ← deref d;
                upd_buf i (λ b, b <| b_data := d |>)))
      (s <| held ::= cons LIde |> <| idequeue := None |>)
    = Ret tt (s <| held ::= cons LIde |> <| idequeue := None |>
                <| bcache ::= alter (λ b, if is_dirty b then b else b <| b_data := d |>) i |>)).
  { destruct (is_dirty b) eqn:E.
    - unfold mret, M_ret. f_equal. rewrite (set_bcache_ext _ id); [by destruct s|].
      rewrite (alter_ext_at _ id i _ b); [by rewrite list_alter_id|done|by rewrite E].
    - unfold Ide.idewait. erewrite bind_run by (run; reflexivity). cbv beta. sst. rewrite He. cbn [andb negb when].
      run. sst. run. sst. rewrite Hd by done. run. unfold upd_buf, modify. f_equal.
      apply set_bcache_ext. eapply alter_ext_at; [done|]. by rewrite E. }
  rewrite (bind_run _ _ _ _ _ Hread). cbv beta. unfold upd_buf. run. run.
  run_by (apply wakeup_run; sst; rewrite Hh; set_solver). run. sst. cbn [negb]. 
  rewrite bool_decide_false by naive_solver. cbn [when]. run.
  rewrite release_run by (sst; set_solver). f_equal.
  rewrite (set_bcache_ext (alter (transferred d) i) (λ l, alter (clear_flag B_DIRTY) i
    (alter (set_flag B_VALID) i (alter (λ b, if is_dirty b then b else b <| b_data := d |>) i l)))).
  - exact (held_cons_remove LIde (s <| idequeue := None |> <| bcache ::= λ l, alter (clear_flag B_DIRTY) i
      (alter (set_flag B_VALID) i (alter (λ b, if is_dirty b then b else b <| b_data := d |>) i l)) |>
      <| ptable ::= fmap (wake_one (ChBuf i)) |>)).
  - sst. rewrite !alter_twice. eapply alter_ext_at; [done|]. unfold compose, transferred. rewrite clear_set_comm.
    f_equal. destruct (is_dirty b) eqn:E; [done|]. symmetry. apply not_dirty_clear. exact E.
Qed.

(** The state in which iderw puts its caller to sleep when the disk is idle:
    the buffer is the queue, and a write has been handed to the controller. *)
Definition issued (s : kernel) (i : nat) (b : buf) : kernel :=
  let k := (Z.land (b_dev b) 1, b_blockno b) in
  let s := s <| bcache ::= alter (λ b, b <| b_qnext := None |>) i |> <| idequeue := Some i |>
             <| ide_reg := k |> in
  if is_dirty b then s <| disk ::= <[k := b_data b]> |> <| dtrace ::= λ t, t ++ [(k, b_data b)] |> else s.

Lemma ide_issue s i b p pr :
  bcache s !! i = Some b → sl_locked (b_lock b) = true → held s = [] → synced b = false →
  b_dev b = 0 ∨ havedisk1 s = true → b_blockno b < FSSIZE → idequeue s = None →
  curproc s = Some p → ptable s !! p = Some pr → (0 < fuel)%nat →
  ∃ k, Ide.iderw i s = Switch (asleep (issued s i b) p (ChBuf i)) k
    ∧ ∀ s', held s' = [LPtable] → (∃ b', bcache s' !! i = Some b' ∧ synced b' = true) →
        k s' = Ret tt (s' <| ptable ::= alter (λ p, p <| p_chan := None |>) p |> <| held := [] |>).
Proof.
  intros Hb Hl Hh Hsy Hdev Hno Hq Hc Hp Hfuel. unfold Ide.iderw.
  erewrite bind_run; [|apply (holdingsleep_run (SLBuf i) s (b_lock b)); [cbn; by rewrite Hb|rewrite Hh; apply not_elem_of_nil]].
  cbv beta. rewrite Hl. cbn [negb]. run_by (by apply getbuf_run). rewrite Hsy. run.
  replace (negb (b_dev b =? 0) && negb (havedisk1 s))%bool with false
    by (destruct Hdev as [-> | ->]; [done|by rewrite andb_false_r]).
  run_by (apply acquire_run; rewrite Hh; apply not_elem_of_nil). unfold upd_buf. run.
  set (b1 := b <| b_qnext := None |>).
  assert (Hb1 : alter (λ b, b <| b_qnext := None |>) i (bcache s) !! i = Some b1)
    by (rewrite list_lookup_alter, decide_True, Hb by done; done).
  assert (Henq : Ide.enqueue i (s <| held ::= cons LIde |> <| bcache ::= alter (λ b, b <| b_qnext := None |>) i |>)
    = Ret tt (s <| held ::= cons LIde |> <| bcache ::= alter (λ b, b <| b_qnext := None |>) i |>
                <| idequeue := Some i |>)).
  { unfold Ide.enqueue. run. sst. by rewrite Hq. }
  rewrite (bind_run _ _ _ _ _ Henq). cbv beta. run. sst. rewrite bool_decide_true by done. cbn [when].
  erewrite bind_run by (apply idestart_run with (b := b1); [sst; exact Hb1|exact Hno]). cbv beta.
  set (s1 := if is_dirty b1 then _ else _).
  assert (Hs1 : s1 = (issued s i b) <| held := [LIde] |>).
  { unfold s1, issued. change (is_dirty b1) with (is_dirty b).
    destruct (is_dirty b); unfold set, set_held; cbn; by rewrite Hh. }
  rewrite Hs1. clear s1 Hs1.
  assert (Hiss : curproc (issued s i b) = Some p ∧ ptable (issued s i b) !! p = Some pr
                 ∧ bcache (issued s i b) !! i = Some b1).
  { unfold issued. by destruct (is_dirty b). }
  destruct Hiss as (Hc1 & Hp1 & Hbi).
  destruct (sleep_run (ChBuf i) LIde ((issued s i b) <| held := [LIde] |>) p pr) as (k & Hk & Hres); [done..|].
  destruct fuel as [|n] eqn:Ef; [lia|].
  assert (Hw : Ide.ide_wait (S n) i ((issued s i b) <| held := [LIde] |>)
     = Switch (asleep (issued s i b) p (ChBuf i)) (λ s', obind (k s') (λ _, Ide.ide_wait n i))).
  { cbn [Ide.ide_wait]. erewrite bind_run by (apply getbuf_run; sst; exact Hbi). cbv beta.
    change (synced b1) with (synced b). rewrite Hsy. erewrite bind_switch; [reflexivity|]. exact Hk. }
  erewrite bind_switch by exact Hw. eexists. split; [reflexivity|].
  intros s' Hh' (b' & Hb' & Hsy'). rewrite (Hres s' Hh'). cbn [obind].
  assert (Hw' : ∀ n, Ide.ide_wait n i (s' <| ptable ::= alter (λ p, p <| p_chan := None |>) p |> <| held := [LIde] |>)
    = Ret tt (s' <| ptable ::= alter (λ p, p <| p_chan := None |>) p |> <| held := [LIde] |>)).
  { intros m. destruct m; cbn [Ide.ide_wait]; (erewrite bind_run by (apply getbuf_run; sst; exact Hb'));
      cbv beta; by rewrite Hsy'. }
  rewrite Hw'. cbn [obind]. rewrite release_run by (sst; constructor). done.
Qed.


(** A failed read goes unnoticed.  When the controller reports an error the
    interrupt handler skips the data transfer but still marks the buffer valid,
    so its reader takes whatever the buffer held for the block's contents. *)
Theorem ideintr_ignores_error s i b :
  held s = [] → idequeue s = Some i → bcache s !! i = Some b → b_qnext b = None →
  ide_err s = true → is_dirty b = false →
  ∃ s' b', Ide.ideintr s = Ret tt s' ∧ bcache s' !! i = Some b'
    ∧ b_data b' = b_data b ∧ is_valid b' = true.
Proof.
  intros Hh Hq Hb Hn He Hd. unfold Ide.ideintr.
  run_by (apply acquire_run; rewrite Hh; apply not_elem_of_nil). run. sst. rewrite Hq.
  run_by (by apply getbuf_run). rewrite Hn, Hd. run.
  erewrite bind_run.
  2: { unfold Ide.idewait. erewrite bind_run by (run; reflexivity). cbv beta. sst. rewrite He. reflexivity. }
  cbv beta. unfold upd_buf. run. run.
  run_by (apply wakeup_run; sst; rewrite Hh; set_solver). run. sst.
  rewrite bool_decide_false by naive_solver. cbn [when]. run.
  rewrite release_run by (sst; constructor). eexists _, _. split; [done|]. sst.
  rewrite !list_lookup_alter, !decide_True, Hb by done. cbn [fmap option_fmap option_map].
  split; [done|]. split; [done|]. by rewrite clear_dirty_valid, set_valid_valid.
Qed.
End Drivers.

(** A process waiting for block 7, whose buffer it has locked. *)
Definition disk_wait : kernel :=
  one_proc <| held := [] |> <| havedisk1 := true |> <| disk := {[(1, 7) := replicate 512 9]} |>
    <| bcache ::= alter (λ b, b <| b_dev := 1 |> <| b_blockno := 7 |>
                                <| b_lock := mkSleeplock true 1 |>) 3%nat |>.

Definition wait_buf : buf :=
  buf_zero <| b_dev := 1 |> <| b_blockno := 7 |> <| b_lock := mkSleeplock true 1 |>.


Lemma ideintr_ignores_error_witness :
  ∃ s' b', Ide.ideintr (disk_wait <| idequeue := Some 3%nat |> <| ide_err := true |>) = Ret tt s'
    ∧ bcache s' !! 3%nat = Some b' ∧ b_data b' = b_data wait_buf ∧ is_valid b' = true.
Proof. apply (ideintr_ignores_error _ 3 wait_buf); reflexivity. Defined.
