(* ===== verification/Bio.v ===== *)
(** The buffer cache (bio.c): at most one cached copy of each block, kept in a
    doubly linked list in order of last use. *)

From stdpp Require Import functions.
From S2P Require Import Prelude Types Spinlock Sched Ide.

(** [&bcache.head]. *)
Definition head : nat := NBUF.

Definition binit : K unit :=
  upd_buf head (λ b, b <| b_prev := head |>);;
  upd_buf head (λ b, b <| b_next := head |>);;
  for_each (seq 0 NBUF) (λ i,
    h ← getbuf head;
    upd_buf i (λ b, b <| b_next := b_next h |>);;
    upd_buf i (λ b, b <| b_prev := head |>);;
    initsleeplock (SLBuf i);;
    upd_buf (b_next h) (λ b, b <| b_prev := i |>);;
    upd_buf head (λ b, b <| b_next := i |>)).

(** [for(b = bcache.head.next; b != &bcache.head; b = b->next)]: the buffer of
    the block, if it is cached. *)
Fixpoint bget_cached (n : nat) (i : nat) (dev blockno : Z) : K (option nat) :=
  if (i =? head)%nat then mret None else
  b ← getbuf i;
  if ((b_dev b =? dev) && (b_blockno b =? blockno))%bool then mret (Some i)
  else match n with
       | O => nofuel
       | S n' => bget_cached n' (b_next b) dev blockno
       end.

(** [for(b = bcache.head.prev; b != &bcache.head; b = b->prev)]: the least
    recently used buffer that can be recycled. *)
Fixpoint bget_unused (n : nat) (i : nat) : K (option nat) :=
  if (i =? head)%nat then mret None else
  b ← getbuf i;
  if ((b_refcnt b =? 0) && negb (is_dirty b))%bool then mret (Some i)
  else match n with
       | O => nofuel
       | S n' => bget_unused n' (b_prev b)
       end.

Section Bio.
Context {P : Platform} {D : DiskDriver}.

Definition bget (dev blockno : Z) : K nat :=
  acquire LBcache;;
  h ← getbuf head;
  c ← bget_cached NBUF (b_next h) dev blockno;
  match c with
  | Some i =>
      upd_buf i (λ b, b <| b_refcnt ::= λ r, uadd r 1 |>);;
      release LBcache;;
      acquiresleep (SLBuf i);;
      mret i
  | None =>
      h ← getbuf head;
      u ← bget_unused NBUF (b_prev h);
      match u with
      | Some i =>
          upd_buf i (λ b, b <| b_dev := dev |> <| b_blockno := blockno |> <| b_flags := 0 |>
                            <| b_refcnt := 1 |>);;
          release LBcache;;
          acquiresleep (SLBuf i);;
          mret i
      | None => panic "bget: no buffers"
      end
  end.

Definition bread (dev blockno : Z) : K nat :=
  i ← bget dev blockno;
  b ← getbuf i;
  when (negb (is_valid b)) (iderw i);;
  mret i.

Definition bwrite (i : nat) : K unit :=
  h ← holdingsleep (SLBuf i);
  if negb h then panic "bwrite" else
  upd_buf i (set_flag B_DIRTY);;
  iderw i.

(** Moving a buffer to the front of the list. *)
Definition move_front (i : nat) : K unit :=
  b ← getbuf i;
  upd_buf (b_next b) (λ x, x <| b_prev := b_prev b |>);;
  b ← getbuf i;
  upd_buf (b_prev b) (λ x, x <| b_next := b_next b |>);;
  h ← getbuf head;
  upd_buf i (λ x, x <| b_next := b_next h |>);;
  upd_buf i (λ x, x <| b_prev := head |>);;
  h ← getbuf head;
  upd_buf (b_next h) (λ x, x <| b_prev := i |>);;
  upd_buf head (λ x, x <| b_next := i |>).

Definition brelse (i : nat) : K unit :=
  h ← holdingsleep (SLBuf i);
  if negb h then panic "brelse" else
  releasesleep (SLBuf i);;
  acquire LBcache;;
  upd_buf i (λ b, b <| b_refcnt ::= λ r, usub r 1 |>);;
  b ← getbuf i;
  when (b_refcnt b =? 0) (move_front i);;
  release LBcache.
End Bio.

(** ** Doubly linked lists

    [path nx pv x l y]: following [nx] from [x] one meets the nodes [l] and
    then [y], and [pv] leads back. *)

Fixpoint path (nx pv : nat → nat) (x : nat) (l : list nat) (y : nat) : Prop :=
  match l with
  | [] => nx x = y ∧ pv y = x
  | z :: l' => nx x = z ∧ pv z = x ∧ path nx pv z l' y
  end.

Lemma path_app nx pv x l1 z l2 y :
  path nx pv x (l1 ++ z :: l2) y ↔ path nx pv x l1 z ∧ path nx pv z l2 y.
Proof.
  revert x. induction l1 as [|w l1 IH]; intros x; cbn; [tauto|]. rewrite IH. tauto.
Qed.

Lemma path_ext nx pv nx' pv' x l y :
  (∀ a, a = x ∨ a ∈ l → nx' a = nx a) → (∀ a, a = y ∨ a ∈ l → pv' a = pv a) →
  path nx pv x l y → path nx' pv' x l y.
Proof.
  revert x. induction l as [|z l IH]; intros x Hn Hp; cbn.
  - rewrite Hn, Hp by auto. done.
  - rewrite Hn, Hp by (auto; right; left). intros (? & ? & ?). split_and!; [done..|].
    apply IH; [| |done].
    + intros a [->|Ha]; apply Hn; right; [by left|by right].
    + intros a [->|Ha]; apply Hp; [by left|right; by right].
Qed.

(** Unlinking [i]. *)
Lemma path_remove nx pv x l1 i l2 y :
  NoDup (l1 ++ i :: l2) → x ∉ l1 ++ i :: l2 → y ∉ l1 ++ i :: l2 →
  path nx pv x (l1 ++ i :: l2) y →
  path (<[pv i := nx i]> nx) (<[nx i := pv i]> pv) x (l1 ++ l2) y.
Proof.
  revert x. induction l1 as [|w l1 IH]; intros x Hnd Hx Hy; cbn [app path].
  - intros (Hxi & Hix & Hp). apply NoDup_cons in Hnd as [Hi Hnd].
    apply not_elem_of_cons in Hx as [Hxi' Hx]. apply not_elem_of_cons in Hy as [Hyi Hy]. rewrite Hix.
    destruct l2 as [|z l2]; cbn [path] in *.
    + destruct Hp as [-> Hp]. by rewrite !fn_lookup_insert.
    + destruct Hp as (-> & Hz & Hp). rewrite !fn_lookup_insert. split_and!; [done..|].
      apply NoDup_cons in Hnd as [Hzl Hnd]. apply not_elem_of_cons in Hx as [Hxz Hx].
      apply not_elem_of_cons in Hy as [Hyz Hy].
      eapply path_ext; [| |exact Hp].
      * intros a [->|Ha]; apply fn_lookup_insert_ne; [done|]. by intros ->.
      * intros a [->|Ha]; apply fn_lookup_insert_ne; [done|]. by intros ->.
  - intros (Hxw & Hwx & Hp). apply NoDup_cons in Hnd as [Hw Hnd].
    apply not_elem_of_cons in Hx as [Hxw' Hx]. apply not_elem_of_cons in Hy as [Hyw Hy].
    pose proof Hp as Hp'. apply path_app in Hp' as [Hp1 Hp2].
    assert (Hpv : pv i = w ∨ pv i ∈ l1).
    { clear -Hp1. revert w Hp1. induction l1 as [|v l1 IH]; intros w; cbn; [intros [_ ->]; by left|].
      intros (_ & _ & H). destruct (IH v H) as [->|]; right; [by left|by right]. }
    assert (Hnx : nx i = y ∨ nx i ∈ l2).
    { destruct l2 as [|z l2]; cbn in Hp2; [left; by destruct Hp2|right]. destruct Hp2 as [-> _]. by left. }
    rewrite fn_lookup_insert_ne, fn_lookup_insert_ne.
    + split_and!; [done..|]. by apply IH.
    + intros E. destruct Hnx as [E'|E']; [congruence|]. apply Hw. rewrite <- E.
      apply elem_of_app. right. by right.
    + intros E. destruct Hpv as [E'|E']; [congruence|]. apply Hx. rewrite <- E. apply elem_of_app. by left.
Qed.

(** Linking [i] in after [h]. *)
Lemma path_insert nx pv h i l y :
  i ∉ l → i ≠ h → i ≠ y → h ∉ l → y ∉ l → NoDup l → path nx pv h l y →
  path (<[h := i]> (<[i := nx h]> nx)) (<[nx h := i]> (<[i := h]> pv)) h (i :: l) y.
Proof.
  intros Hi Hih Hiy Hh Hy Hnd. cbn [path]. rewrite fn_lookup_insert.
  destruct l as [|z l]; cbn [path].
  - intros [-> Hp]. by repeat (rewrite fn_lookup_insert || rewrite fn_lookup_insert_ne by congruence).
  - apply not_elem_of_cons in Hi as [Hiz Hi]. apply not_elem_of_cons in Hh as [Hhz Hh].
    apply not_elem_of_cons in Hy as [Hyz Hy]. apply NoDup_cons in Hnd as [Hz Hnd].
    intros (-> & Hzh & Hp). rewrite fn_lookup_insert.
    repeat (rewrite fn_lookup_insert || rewrite fn_lookup_insert_ne by congruence).
    split_and!; [done..|].
    eapply path_ext; [| |exact Hp].
    + intros a [->|Ha]; rewrite !fn_lookup_insert_ne; (congruence || by intros ->).
    + intros a [->|Ha]; rewrite !fn_lookup_insert_ne; (congruence || by intros ->).
Qed.

(** The links stored in the buffers. *)
Definition nxt (bc : list buf) (i : nat) : nat := default 0%nat (b_next <$> bc !! i).
Definition prv (bc : list buf) (i : nat) : nat := default 0%nat (b_prev <$> bc !! i).

(** The buffers in order of use, most recent first. *)
Definition dll (bc : list buf) (ord : list nat) : Prop :=
  length bc = S NBUF ∧ ord ≡ₚ seq 0 NBUF ∧ path (nxt bc) (prv bc) head ord head.

Lemma nxt_alter_keep bc i f a : (∀ b, b_next (f b) = b_next b) → nxt (alter f i bc) a = nxt bc a.
Proof.
  intros H. unfold nxt. rewrite list_lookup_alter. case_decide; subst; [|done].
  destruct (bc !! a); cbn; by rewrite ?H.
Qed.

Lemma prv_alter_keep bc i f a : (∀ b, b_prev (f b) = b_prev b) → prv (alter f i bc) a = prv bc a.
Proof.
  intros H. unfold prv. rewrite list_lookup_alter. case_decide; subst; [|done].
  destruct (bc !! a); cbn; by rewrite ?H.
Qed.

Lemma nxt_alter_set bc i v a :
  (i < length bc)%nat → nxt (alter (λ b, b <| b_next := v |>) i bc) a = <[i := v]> (nxt bc) a.
Proof.
  intros Hi. unfold nxt. rewrite list_lookup_alter. case_decide as E.
  - subst. rewrite fn_lookup_insert. by apply lookup_lt_is_Some in Hi as [b ->].
  - by rewrite fn_lookup_insert_ne.
Qed.

Lemma prv_alter_set bc i v a :
  (i < length bc)%nat → prv (alter (λ b, b <| b_prev := v |>) i bc) a = <[i := v]> (prv bc) a.
Proof.
  intros Hi. unfold prv. rewrite list_lookup_alter. case_decide as E.
  - subst. rewrite fn_lookup_insert. by apply lookup_lt_is_Some in Hi as [b ->].
  - by rewrite fn_lookup_insert_ne.
Qed.

(** Buffers that differ in their links only. *)
Definition same_buf (b b' : buf) : Prop := b' = b <| b_next := b_next b' |> <| b_prev := b_prev b' |>.

Lemma same_buf_refl b : same_buf b b.
Proof. by destruct b. Qed.

Lemma same_alter bc bc' i f :
  (∀ b, same_buf b (f b)) → Forall2 same_buf bc bc' → Forall2 same_buf bc (alter f i bc').
Proof.
  intros Hf H. apply Forall2_same_length_lookup. split.
  - rewrite length_alter. by eapply Forall2_length.
  - intros j b b' Hb Hb'. rewrite list_lookup_alter in Hb'. case_decide; subst.
    + apply fmap_Some in Hb' as (b0 & Hb0 & ->).
      pose proof (Forall2_lookup_lr _ _ _ _ _ _ H Hb Hb0) as Hs.
      specialize (Hf b0). unfold same_buf in *. rewrite Hf, Hs. by destruct b.
    + by eapply Forall2_lookup_lr.
Qed.

(** Elements of the list. *)
Lemma ord_elem bc ord i : dll bc ord → i ∈ ord ↔ (i < NBUF)%nat.
Proof. intros (_ & Hp & _). rewrite Hp, elem_of_seq. lia. Qed.

Lemma ord_nodup bc ord : dll bc ord → NoDup ord ∧ head ∉ ord.
Proof.
  intros Hd. split; [destruct Hd as (_ & Hp & _); rewrite Hp; apply NoDup_seq|].
  rewrite ord_elem by done. unfold head. lia.
Qed.

Lemma getbuf_lt s i :
  (i < length (bcache s))%nat → ∃ b, bcache s !! i = Some b ∧ getbuf i s = Ret b s
                                     ∧ b_next b = nxt (bcache s) i ∧ b_prev b = prv (bcache s) i.
Proof.
  intros [b Hb]%lookup_lt_is_Some. exists b. unfold nxt, prv. rewrite Hb.
  split_and!; try done. by apply getbuf_run.
Qed.

(** The neighbours of a node are on the list. *)
Lemma path_neighbours nx pv x l1 i l2 y :
  path nx pv x (l1 ++ i :: l2) y → (pv i = x ∨ pv i ∈ l1) ∧ (nx i = y ∨ nx i ∈ l2).
Proof.
  intros [Hp1 Hp2]%path_app. split.
  - clear Hp2. revert x Hp1. induction l1 as [|v l1 IH]; intros x; cbn; [intros [_ ->]; by left|].
    intros (_ & _ & H). destruct (IH v H) as [->|]; right; [by left|by right].
  - destruct l2 as [|z l2]; cbn in Hp2; [left; by destruct Hp2|right]. destruct Hp2 as [-> _]. by left.
Qed.

(** The cache with [i] taken out of the list ... *)
Definition unlinked (bc : list buf) (i : nat) : list buf :=
  alter (λ y, y <| b_next := nxt bc i |>) (prv bc i) (alter (λ y, y <| b_prev := prv bc i |>) (nxt bc i) bc).

(** ... and put behind the head. *)
Definition linked (bc : list buf) (i : nat) : list buf :=
  let y := nxt bc head in
  alter (λ z, z <| b_next := i |>) head (alter (λ z, z <| b_prev := i |>) y
    (alter (λ z, z <| b_prev := head |>) i (alter (λ z, z <| b_next := y |>) i bc))).

Lemma unlinked_length bc i : length (unlinked bc i) = length bc.
Proof. unfold unlinked. by rewrite !length_alter. Qed.

(** The assignments of brelse. *)
Lemma move_front_code s i :
  length (bcache s) = S NBUF → (i < NBUF)%nat → (nxt (bcache s) i < S NBUF)%nat → nxt (bcache s) i ≠ i →
  move_front i s = Ret tt (s <| bcache := linked (unlinked (bcache s) i) i |>).
Proof.
  intros Hlen Hi Hx Hxi. unfold move_front, upd_buf. set (bc := bcache s) in *.
  destruct (getbuf_lt s i) as (b & Hb & Hg & Hbn & Hbp); [fold bc; lia|].
  rewrite (bind_run _ _ _ _ _ Hg). cbv beta. fold bc in Hbn, Hbp. rewrite Hbn, Hbp. run.
  set (bc1 := alter (λ y, y <| b_prev := prv bc i |>) (nxt bc i) bc).
  destruct (getbuf_lt (s <| bcache := bc1 |>) i) as (b1 & _ & Hg1 & Hbn1 & Hbp1); [sst; unfold bc1; rewrite length_alter; lia|].
  sst_in Hbn1. sst_in Hbp1. unfold bc1 in Hbn1, Hbp1. rewrite nxt_alter_keep in Hbn1 by done.
  rewrite prv_alter_set, fn_lookup_insert_ne in Hbp1 by (done || lia).
  erewrite bind_run by exact Hg1. cbv beta. rewrite Hbn1, Hbp1. run. fold bc1.
  pose proof (unlinked_length bc i) as Hl2. set (bc2 := unlinked bc i) in *.
  destruct (getbuf_lt (s <| bcache := bc2 |>) head) as (h & _ & Hg2 & Hhn & _); [sst; unfold head; lia|].
  sst_in Hhn. erewrite bind_run by exact Hg2. cbv beta. rewrite Hhn. set (y := nxt bc2 head). run. run.
  set (bc4 := alter (λ z, z <| b_prev := head |>) i (alter (λ z, z <| b_next := y |>) i bc2)).
  assert (Hl4 : length bc4 = S NBUF) by (unfold bc4; rewrite !length_alter; lia).
  destruct (getbuf_lt (s <| bcache := bc4 |>) head) as (h' & _ & Hg4 & Hhn4 & _); [sst; unfold head; lia|].
  sst_in Hhn4. unfold bc4 in Hhn4. rewrite nxt_alter_keep, nxt_alter_set, fn_lookup_insert_ne in Hhn4 by (done || unfold head; lia).
  erewrite bind_run by exact Hg4. cbv beta. rewrite Hhn4. run. done.
Qed.

(** What the links become. *)
Lemma unlinked_links bc i a : (nxt bc i < length bc)%nat → (prv bc i < length bc)%nat →
  nxt (unlinked bc i) a = <[prv bc i := nxt bc i]> (nxt bc) a ∧ prv (unlinked bc i) a = <[nxt bc i := prv bc i]> (prv bc) a.
Proof.
  intros Hx Hp. unfold unlinked. split.
  - rewrite nxt_alter_set by (rewrite length_alter; lia). destruct (decide (a = prv bc i)) as [->|]; [by rewrite !fn_lookup_insert|].
    rewrite !fn_lookup_insert_ne by done. by rewrite nxt_alter_keep.
  - by rewrite prv_alter_keep, prv_alter_set by (done || lia).
Qed.

Lemma linked_links bc i a : length bc = S NBUF → (i < NBUF)%nat → (nxt bc head < S NBUF)%nat →
  nxt (linked bc i) a = <[head := i]> (<[i := nxt bc head]> (nxt bc)) a
  ∧ prv (linked bc i) a = <[nxt bc head := i]> (<[i := head]> (prv bc)) a.
Proof.
  intros Hl Hi Hy. unfold linked. split.
  - rewrite nxt_alter_set by (rewrite !length_alter; unfold head; lia). destruct (decide (a = head)) as [->|Ha]; [by rewrite !fn_lookup_insert|].
    rewrite !(fn_lookup_insert_ne _ head) by done. by rewrite nxt_alter_keep, nxt_alter_keep, nxt_alter_set by (done || lia).
  - rewrite prv_alter_keep, prv_alter_set by (done || (rewrite !length_alter; lia)).
    destruct (decide (a = nxt bc head)) as [->|Ha]; [by rewrite !fn_lookup_insert|]. rewrite !(fn_lookup_insert_ne _ (nxt bc head)) by done.
    rewrite prv_alter_set by (rewrite length_alter; lia). destruct (decide (a = i)) as [->|Ha']; [by rewrite !fn_lookup_insert|].
    rewrite !fn_lookup_insert_ne by done. by rewrite prv_alter_keep.
Qed.

Lemma linked_same bc i : Forall2 same_buf bc (linked (unlinked bc i) i).
Proof.
  unfold linked, unlinked. do 6 (apply same_alter; [intros []; done|]).
  apply Forall2_same_length_lookup. split; [done|]. intros j c c' Hc Hc'. rewrite Hc in Hc'. injection Hc' as <-. apply same_buf_refl.
Qed.

Lemma move_front_run s l1 i l2 :
  dll (bcache s) (l1 ++ i :: l2) →
  ∃ bc', move_front i s = Ret tt (s <| bcache := bc' |>)
    ∧ dll bc' (i :: l1 ++ l2) ∧ Forall2 same_buf (bcache s) bc'.
Proof.
  intros Hd. pose proof (ord_nodup _ _ Hd) as [Hnd Hh]. pose proof Hd as (Hlen & Hperm & Hpath).
  assert (Hin : ∀ a, a ∈ l1 ++ i :: l2 ↔ (a < NBUF)%nat) by (intros a; by eapply ord_elem).
  assert (Hi : (i < NBUF)%nat) by (apply Hin, elem_of_app; right; by left).
  apply NoDup_app in Hnd as HH. destruct HH as (Hnd1 & Hdisj & [Hil2 Hnd2]%NoDup_cons).
  assert (Hil1 : i ∉ l1) by (intros ?; apply (Hdisj i); [done|by left]). set (bc := bcache s) in *.
  assert (Hlt : ∀ a, a = head ∨ a ∈ l1 ++ l2 → (a < S NBUF)%nat ∧ a ≠ i).
  { intros a [->|Ha]; [unfold head; lia|]. split; [|intros ->; by apply elem_of_app in Ha as [?|?]].
    enough (a < NBUF)%nat by lia. apply Hin. apply elem_of_app in Ha as [?|?]; apply elem_of_app; [by left|right; by right]. }
  destruct (path_neighbours _ _ _ _ _ _ _ Hpath) as [Hpi Hni].
  assert (Hx : (nxt bc i < S NBUF)%nat ∧ nxt bc i ≠ i) by (apply Hlt; rewrite elem_of_app; tauto).
  assert (Hp : (prv bc i < S NBUF)%nat ∧ prv bc i ≠ i) by (apply Hlt; rewrite elem_of_app; tauto).
  assert (Hpath2 : path (nxt (unlinked bc i)) (prv (unlinked bc i)) head (l1 ++ l2) head).
  { eapply path_ext; [intros a _; apply unlinked_links; lia|intros a _; apply unlinked_links; lia|]. by apply path_remove. }
  assert (Hy : (nxt (unlinked bc i) head < S NBUF)%nat).
  { apply Hlt. destruct (l1 ++ l2) as [|z l]; cbn in Hpath2; [left; apply Hpath2|]. destruct Hpath2 as [-> _]. right. by left. }
  exists (linked (unlinked bc i) i). split_and!; [apply move_front_code; [done|done|apply Hx|apply Hx]| |apply linked_same]. split_and!.
  - unfold linked. rewrite !length_alter. by rewrite unlinked_length.
  - rewrite <- Hperm. apply Permutation_middle.
  - pose proof (unlinked_length bc i) as Hl2.
    eapply path_ext; [intros a _; apply linked_links; lia|intros a _; apply linked_links; lia|].
    apply (path_insert (nxt (unlinked bc i)) (prv (unlinked bc i)) head i (l1 ++ l2) head); try done.
    + by intros [?|?]%elem_of_app.
    + unfold head. lia.
    + unfold head. lia.
    + intros [H|H]%elem_of_app; apply Hh, elem_of_app; [by left|right; by right].
    + intros [H|H]%elem_of_app; apply Hh, elem_of_app; [by left|right; by right].
    + apply NoDup_app. split_and!; [done| |done]. intros a Ha Ha2. apply (Hdisj a Ha). by right.
Qed.

Lemma path_rev nx pv x l y : path nx pv x l y → path pv nx y (rev l) x.
Proof.
  revert x. induction l as [|z l IH]; intros x; cbn [path rev]; [tauto|].
  intros (H1 & H2 & H3). apply IH in H3.
  assert (Hsnoc : ∀ a l', path pv nx a l' z → path pv nx a (l' ++ [z]) x).
  { intros a l' Hp. apply path_app. by split. }
  by apply Hsnoc.
Qed.

(** The first element of [l] that satisfies [p]. *)
Fixpoint first_in (p : nat → bool) (l : list nat) : option nat :=
  match l with
  | [] => None
  | i :: l' => if p i then Some i else first_in p l'
  end.

Lemma first_in_Some p l i : first_in p l = Some i → i ∈ l ∧ p i = true.
Proof.
  induction l as [|j l IH]; cbn; [done|]. destruct (p j) eqn:E.
  - intros [= ->]. split; [by left|done].
  - intros [? ?]%IH. split; [by right|done].
Qed.

Lemma first_in_None p l : first_in p l = None ↔ ∀ i, i ∈ l → p i = false.
Proof.
  induction l as [|j l IH]; cbn.
  - split; [|done]. by intros _ i ?%elem_of_nil.
  - destruct (p j) eqn:E.
    + split; [done|]. intros H. rewrite H in E; [done|by left].
    + rewrite IH. split; [intros H i [->|Hi]%elem_of_cons; auto|]. intros H i Hi. apply H. by right.
Qed.

Definition key (b : buf) : Z * Z := (b_dev b, b_blockno b).

Definition has_key (bc : list buf) (k : Z * Z) (i : nat) : bool :=
  match bc !! i with Some b => ((b_dev b =? k.1) && (b_blockno b =? k.2))%bool | None => false end.

Definition reusable (bc : list buf) (i : nat) : bool :=
  match bc !! i with Some b => ((b_refcnt b =? 0) && negb (is_dirty b))%bool | None => false end.

Lemma has_key_spec bc k i b : bc !! i = Some b → has_key bc k i = bool_decide (key b = k).
Proof.
  intros Hb. unfold has_key, key. rewrite Hb. destruct k as [d n]. cbn.
  destruct (Z.eqb_spec (b_dev b) d), (Z.eqb_spec (b_blockno b) n); cbn; symmetry;
    (apply bool_decide_eq_true || apply bool_decide_eq_false); congruence.
Qed.

Lemma bget_cached_run s k l : ∀ n x,
  length (bcache s) = S NBUF → (∀ i, i ∈ l → (i < NBUF)%nat) → (length l ≤ n)%nat →
  path (nxt (bcache s)) (prv (bcache s)) x l head →
  bget_cached n (nxt (bcache s) x) k.1 k.2 s = Ret (first_in (has_key (bcache s) k) l) s.
Proof.
  induction l as [|i l IH]; intros n x Hlen Hlt Hn Hp.
  - cbn in Hp. destruct Hp as [-> _]. destruct n; cbn [bget_cached]; by rewrite Nat.eqb_refl.
  - destruct Hp as (-> & _ & Hp). destruct n as [|n]; [cbn in Hn; lia|]. cbn [bget_cached first_in].
    assert (Hi : (i < NBUF)%nat) by (apply Hlt; by left).
    destruct (Nat.eqb_spec i head); [unfold head in *; lia|].
    destruct (getbuf_lt s i) as (b & Hb & Hg & Hbn & _); [lia|].
    rewrite (bind_run _ _ _ _ _ Hg). cbv beta. unfold has_key at 1. rewrite Hb.
    destruct (_ && _)%bool; [done|]. rewrite Hbn. apply IH; [done| |cbn in Hn; lia|done].
    intros j Hj. apply Hlt. by right.
Qed.

Lemma bget_unused_run s l : ∀ n x,
  length (bcache s) = S NBUF → (∀ i, i ∈ l → (i < NBUF)%nat) → (length l ≤ n)%nat →
  path (prv (bcache s)) (nxt (bcache s)) x l head →
  bget_unused n (prv (bcache s) x) s = Ret (first_in (reusable (bcache s)) l) s.
Proof.
  induction l as [|i l IH]; intros n x Hlen Hlt Hn Hp.
  - cbn in Hp. destruct Hp as [-> _]. destruct n; cbn [bget_unused]; by rewrite Nat.eqb_refl.
  - destruct Hp as (-> & _ & Hp). destruct n as [|n]; [cbn in Hn; lia|]. cbn [bget_unused first_in].
    assert (Hi : (i < NBUF)%nat) by (apply Hlt; by left).
    destruct (Nat.eqb_spec i head); [unfold head in *; lia|].
    destruct (getbuf_lt s i) as (b & Hb & Hg & _ & Hbp); [lia|].
    rewrite (bind_run _ _ _ _ _ Hg). cbv beta. unfold reusable at 1. rewrite Hb.
    destruct (_ && _)%bool; [done|]. rewrite Hbp. apply IH; [done| |cbn in Hn; lia|done].
    intros j Hj. apply Hlt. by right.
Qed.

Lemma length_ord bc ord : dll bc ord → length ord = NBUF.
Proof. intros (_ & Hp & _). by rewrite Hp, length_seq. Qed.

(** What the two searches of bget find. *)
Lemma bget_searches s ord k :
  dll (bcache s) ord →
  (∃ h, getbuf head s = Ret h s ∧ b_next h = nxt (bcache s) head ∧ b_prev h = prv (bcache s) head)
  ∧ bget_cached NBUF (nxt (bcache s) head) k.1 k.2 s = Ret (first_in (has_key (bcache s) k) ord) s
  ∧ bget_unused NBUF (prv (bcache s) head) s = Ret (first_in (reusable (bcache s)) (rev ord)) s.
Proof.
  intros Hd. pose proof Hd as (Hlen & Hperm & Hpath).
  assert (Hlt : ∀ i, i ∈ ord → (i < NBUF)%nat) by (intros i; by apply (ord_elem _ _ i Hd)).
  pose proof (length_ord _ _ Hd). split_and!.
  - destruct (getbuf_lt s head) as (h & _ & ? & ? & ?); [unfold head; lia|]. eauto.
  - apply bget_cached_run; [done|done|lia|done].
  - apply bget_unused_run; [done| |rewrite length_rev; lia|by apply path_rev].
    intros i Hi%list_elem_of_In%in_rev%list_elem_of_In. by apply Hlt.
Qed.

(** ** The cache as its clients see it

    [view s k] is the contents of block [k]: that of its valid buffer, or what
    is on the disk. *)

Definition holds_block (bc : list buf) (k : Z * Z) (i : nat) : bool :=
  match bc !! i with Some b => bool_decide (key b = k) && is_valid b | None => false end.

Definition view (s : kernel) (k : Z * Z) : option (list Z) :=
  match first_in (holds_block (bcache s) k) (seq 0 NBUF) with
  | Some i => b_data <$> bcache s !! i
  | None => disk s !! k
  end.

(** The cache when the running thread holds the buffers [lk] and no other
    thread holds any. *)
Record bio_ok (s : kernel) (ord : list nat) (lk : gset nat) : Prop := {
  bo_dll : dll (bcache s) ord;
  bo_lk : ∀ i, i ∈ lk → (i < NBUF)%nat;
  bo_lock : ∀ i b, (i < NBUF)%nat → bcache s !! i = Some b →
    sl_locked (b_lock b) = bool_decide (i ∈ lk) ∧ b_refcnt b = (if decide (i ∈ lk) then 1 else 0);
  bo_uniq : ∀ i j b c, (i < NBUF)%nat → (j < NBUF)%nat → bcache s !! i = Some b → bcache s !! j = Some c →
    key b = key c → b_dev b ≠ 0 → i = j;
  bo_data : ∀ i b, (i < NBUF)%nat → bcache s !! i = Some b → length (b_data b) = Z.to_nat BSIZE;
  bo_dirty : ∀ i b, (i < NBUF)%nat → bcache s !! i = Some b → is_dirty b = true → is_valid b = true;
  bo_dev : ∀ i b, (i < NBUF)%nat → bcache s !! i = Some b → is_valid b = true → b_dev b ≠ 0;
  bo_sync : ∀ i b, (i < NBUF)%nat → bcache s !! i = Some b → i ∉ lk → is_valid b = true →
    is_dirty b = false → disk s !! key b = Some (b_data b)
}.

Lemma view_hit s ord lk i b :
  bio_ok s ord lk → (i < NBUF)%nat → bcache s !! i = Some b → is_valid b = true → b_dev b ≠ 0 →
  view s (key b) = Some (b_data b).
Proof.
  intros Hok Hi Hb Hv Hd. unfold view. destruct (first_in _ _) as [j|] eqn:E.
  - apply first_in_Some in E as [Hj%elem_of_seq Hh]. unfold holds_block in Hh.
    destruct (bcache s !! j) as [c|] eqn:Hc; [|done]. apply andb_true_iff in Hh as [Hk%bool_decide_eq_true _].
    assert (j = i) as ->.
    { symmetry. eapply (bo_uniq _ _ _ Hok); [done|lia|done|done|done|done]. }
    rewrite Hb in Hc. injection Hc as <-. done.
  - exfalso. rewrite first_in_None in E. specialize (E i). rewrite elem_of_seq in E.
    unfold holds_block in E. rewrite Hb, bool_decide_true, Hv in E by done. specialize (E ltac:(lia)). done.
Qed.

Lemma view_miss s k :
  (∀ i b, (i < NBUF)%nat → bcache s !! i = Some b → key b = k → is_valid b = false) →
  view s k = disk s !! k.
Proof.
  intros H. unfold view. destruct (first_in _ _) as [j|] eqn:E; [|done]. exfalso.
  apply first_in_Some in E as [Hj%elem_of_seq Hh]. unfold holds_block in Hh.
  destruct (bcache s !! j) as [c|] eqn:Hc; [|done]. apply andb_true_iff in Hh as [Hk%bool_decide_eq_true Hv].
  rewrite (H j c) in Hv; [done|lia|done|done].
Qed.

(** The view of a block is decided by the buffers with its key. *)
Lemma view_ext s s' k :
  (∀ i, (i < NBUF)%nat → holds_block (bcache s') k i = holds_block (bcache s) k i
        ∧ (holds_block (bcache s) k i = true → b_data <$> bcache s' !! i = b_data <$> bcache s !! i)) →
  ((∀ i, (i < NBUF)%nat → holds_block (bcache s) k i = false) → disk s' !! k = disk s !! k) →
  view s' k = view s k.
Proof.
  intros H Hd. unfold view.
  assert (E : first_in (holds_block (bcache s') k) (seq 0 NBUF) = first_in (holds_block (bcache s) k) (seq 0 NBUF)).
  { assert (Hs : ∀ i, i ∈ seq 0 NBUF → (i < NBUF)%nat) by (intros i ?%elem_of_seq; lia).
    induction (seq 0 NBUF) as [|i l IH]; [done|]. cbn.
    rewrite (proj1 (H i (Hs i ltac:(by left)))). case_match; [done|]. apply IH. intros j Hj. apply Hs. by right. }
  rewrite E. destruct (first_in (holds_block (bcache s) k) (seq 0 NBUF)) as [i|] eqn:E'.
  - apply first_in_Some in E' as [Hi%elem_of_seq Hh]. by apply (H i ltac:(lia)).
  - apply Hd. intros i Hi. rewrite first_in_None in E'. apply E', elem_of_seq. lia.
Qed.

(** A disk that answers at once, for the blocks below [nblocks] of disk 1. *)
Class SyncDisk (D : DiskDriver) := {
  nblocks : Z;
  iderw_sync : ∀ s i b d,
    bcache s !! i = Some b → sl_locked (b_lock b) = true → LBuf i ∉ held s → synced b = false →
    b_dev b = 1 → b_blockno b < nblocks → disk s !! (1, b_blockno b) = Some d →
    iderw i s = Ret tt (transfer s i (1, b_blockno b) b d)
}.

#[export] Instance memide_sync {P : Platform} : SyncDisk Memide.driver :=
  {| nblocks := Memide.disksize; iderw_sync := memide_run |}.

(** The running thread: a process, holding no spin lock. *)
Definition running (s : kernel) : Prop :=
  held s = [] ∧ ∃ p pr, curproc s = Some p ∧ ptable s !! p = Some pr.

(** A buffer that can be recycled. *)
Definition avail (s : kernel) (lk : gset nat) : Prop :=
  ∃ i b, (i < NBUF)%nat ∧ i ∉ lk ∧ bcache s !! i = Some b ∧ is_dirty b = false.

(** The block has a buffer. *)
Definition cached (s : kernel) (k : Z * Z) : Prop :=
  ∃ i b, (i < NBUF)%nat ∧ bcache s !! i = Some b ∧ key b = k.

Section Cache.
Context {P : Platform} {D : DiskDriver} {SD : SyncDisk D}.

(** Taking a reference and the sleep lock, on behalf of process [pid]. *)
Definition grab (pid : Z) (b : buf) : buf := b <| b_refcnt := 1 |> <| b_lock := mkSleeplock true pid |>.
(** Recycling a buffer for another block. *)
Definition recycle (k : Z * Z) (b : buf) : buf :=
  b <| b_dev := k.1 |> <| b_blockno := k.2 |> <| b_flags := 0 |> <| b_refcnt := 1 |>.

Lemma set_held_bcache h f g (s : kernel) :
  s <| held ::= h |> <| bcache ::= f |> <| held ::= g |> = s <| bcache ::= f |> <| held ::= λ x, g (h x) |>.
Proof. done. Qed.

Lemma acquiresleep_grab s i b f p pr :
  bcache s !! i = Some b → sl_locked (b_lock (f b)) = false → b_refcnt (f b) = 1 →
  held s = [] → curproc s = Some p → ptable s !! p = Some pr →
  acquiresleep (SLBuf i) (s <| bcache ::= alter f i |>)
  = Ret tt (s <| bcache ::= alter (grab (pid pr) ∘ f) i |>).
Proof.
  intros Hb Hl Hr Hh Hc Hp. rewrite (acquiresleep_run _ _ (b_lock (f b)) p pr).
  - f_equal. cbn [sl_set].
    rewrite (set_bcache_ext (alter (grab (pid pr) ∘ f) i)
      (λ l, alter (λ b, b <| b_lock := mkSleeplock true (pid pr) |>) i (alter f i l))); [done|].
    rewrite alter_twice. eapply alter_ext_at; [done|]. unfold compose, grab.
    destruct (f b) eqn:E; cbn in *. by subst.
  - cbn. sst. rewrite list_lookup_alter, decide_True, Hb by done. done.
  - done.
  - sst. rewrite Hh. apply not_elem_of_nil.
  - done.
  - done.
Qed.

Lemma bget_run s ord lk k :
  bio_ok s ord lk → running s → k.1 ≠ 0 → cached s k ∨ avail s lk →
  (∀ i b, i ∈ lk → bcache s !! i = Some b → key b ≠ k) →
  ∃ i b pid, (i < NBUF)%nat ∧ i ∉ lk ∧ bcache s !! i = Some b
    ∧ ((key b = k ∧ bget k.1 k.2 s = Ret i (s <| bcache ::= alter (grab pid) i |>))
       ∨ ((∀ j c, (j < NBUF)%nat → bcache s !! j = Some c → key c ≠ k) ∧ is_dirty b = false
          ∧ bget k.1 k.2 s = Ret i (s <| bcache ::= alter (grab pid ∘ recycle k) i |>))).
Proof.
  intros Hok (Hh & p & pr & Hc & Hp) Hdev Hav Hfree.
  assert (Hd := bo_dll _ _ _ Hok). set (s1 := s <| held ::= cons LBcache |>).
  destruct (bget_searches s1 ord k Hd) as ((h & Hg & Hhn & Hhp) & Hcached & Hunused).
  change (bcache s1) with (bcache s) in *.
  assert (Hacq : acquire LBcache s = Ret tt s1) by (apply acquire_run; rewrite Hh; apply not_elem_of_nil).
  assert (Hrel : ∀ f, release LBcache (s1 <| bcache ::= f |>) = Ret tt (s <| bcache ::= f |>)).
  { intros f. rewrite release_run by (unfold s1; sst; constructor). done. }
  unfold bget. rewrite (bind_run _ _ _ _ _ Hacq). cbv beta. rewrite (bind_run _ _ _ _ _ Hg). cbv beta.
  rewrite Hhn, (bind_run _ _ _ _ _ Hcached). cbv beta.
  destruct (first_in (has_key (bcache s) k) ord) as [i|] eqn:E.
  - apply first_in_Some in E as [Hi Hk]. apply (ord_elem _ _ _ Hd) in Hi.
    destruct (lookup_lt_is_Some_2 (bcache s) i) as [b Hb]; [destruct Hd as [-> _]; lia|].
    rewrite (has_key_spec _ _ _ _ Hb) in Hk. apply bool_decide_eq_true in Hk.
    destruct (bo_lock _ _ _ Hok i b Hi Hb) as [Hlk Href].
    assert (Hil : i ∉ lk) by (intros Hil; by apply (Hfree i b)).
    rewrite bool_decide_false in Hlk by done. rewrite decide_False in Href by done.
    exists i, b, (pid pr). split_and!; [done..|]. left. split; [done|].
    unfold upd_buf. run. erewrite bind_run by apply Hrel. cbv beta.
    erewrite bind_run; [|by apply (acquiresleep_grab s i b _ p pr); try done; sst; rewrite Href].
    unfold mret, M_ret. f_equal.
  - rewrite first_in_None in E. rewrite (bind_run _ _ _ _ _ Hg). cbv beta.
    rewrite Hhp, (bind_run _ _ _ _ _ Hunused). cbv beta.
    destruct (first_in (reusable (bcache s)) (rev ord)) as [i|] eqn:E'.
    + apply first_in_Some in E' as [Hi Hr]. apply list_elem_of_In, in_rev, list_elem_of_In in Hi.
      apply (ord_elem _ _ _ Hd) in Hi.
      destruct (lookup_lt_is_Some_2 (bcache s) i) as [b Hb]; [destruct Hd as [-> _]; lia|].
      unfold reusable in Hr. rewrite Hb in Hr. apply andb_true_iff in Hr as [Hr%Z.eqb_eq Hnd%negb_true_iff].
      destruct (bo_lock _ _ _ Hok i b Hi Hb) as [Hlk Href].
      assert (Hil : i ∉ lk) by (intros Hil; rewrite decide_True in Href by done; lia).
      rewrite bool_decide_false in Hlk by done.
      exists i, b, (pid pr). split_and!; [done..|]. right. split_and!; [|done|].
      * intros j c Hj Hjc Hk. specialize (E j). rewrite (has_key_spec _ _ _ _ Hjc) in E.
        rewrite bool_decide_true in E by done. rewrite (ord_elem _ _ _ Hd) in E. by specialize (E Hj).
      * unfold upd_buf. run. erewrite bind_run by apply Hrel. cbv beta.
        erewrite bind_run; [|by apply (acquiresleep_grab s i b (recycle k) p pr)]. done.
    + exfalso. rewrite first_in_None in E'. destruct Hav as [(i & b & Hi & Hb & Hk)|(i & b & Hi & Hil & Hb & Hnd)].
      { specialize (E i). rewrite (has_key_spec _ _ _ _ Hb), bool_decide_true in E by done.
        rewrite (ord_elem _ _ _ Hd) in E. by specialize (E Hi). }
      specialize (E' i). unfold reusable in E'. rewrite Hb in E'.
      destruct (bo_lock _ _ _ Hok i b Hi Hb) as [_ Href]. rewrite decide_False in Href by done.
      rewrite Href, Hnd in E'. discriminate E'.
      apply list_elem_of_In, in_rev. rewrite rev_involutive. apply list_elem_of_In.
      by apply (ord_elem _ _ _ Hd).
Qed.

Lemma dll_alter bc ord i f :
  (∀ b, b_next (f b) = b_next b ∧ b_prev (f b) = b_prev b) → dll bc ord → dll (alter f i bc) ord.
Proof.
  intros Hf (Hl & Hp & Hpath). split_and!; [by rewrite length_alter|done|].
  eapply path_ext; [| |exact Hpath].
  - intros a _. apply nxt_alter_keep. apply Hf.
  - intros a _. apply prv_alter_keep. apply Hf.
Qed.

Lemma lookup_alter_buf (bc : list buf) (f : buf → buf) i j b :
  alter f i bc !! j = Some b → (i ≠ j ∧ bc !! j = Some b) ∨ (i = j ∧ ∃ c, bc !! i = Some c ∧ b = f c).
Proof.
  rewrite list_lookup_alter. case_decide as E; [|by left].
  intros (c & Hc & ->)%fmap_Some. right. subst. eauto.
Qed.

(** The thread takes or keeps buffer [i] and changes it by [f]. *)
Lemma bio_hold s s' ord lk i b f :
  bio_ok s ord lk → (i < NBUF)%nat → bcache s !! i = Some b → bcache s' = alter f i (bcache s) →
  (∀ k, k ≠ key (f b) → disk s' !! k = disk s !! k) →
  (∀ b, b_next (f b) = b_next b ∧ b_prev (f b) = b_prev b) →
  sl_locked (b_lock (f b)) = true → b_refcnt (f b) = 1 → length (b_data (f b)) = Z.to_nat BSIZE →
  (is_dirty (f b) = true → is_valid (f b) = true) → b_dev (f b) ≠ 0 →
  (∀ j c, (j < NBUF)%nat → j ≠ i → bcache s !! j = Some c → key c ≠ key (f b)) →
  bio_ok s' ord ({[i]} ∪ lk).
Proof.
  intros Hok Hi Hb Hbc Hdisk Hlinks Hlock Href Hdata Hdv Hdev Huniq. split.
  - rewrite Hbc. apply dll_alter; [done|]. apply Hok.
  - intros j [->%elem_of_singleton|Hj]%elem_of_union; [done|]. by eapply bo_lk.
  - intros j c Hj Hc. rewrite Hbc in Hc. apply lookup_alter_buf in Hc as [[Hne Hc]|(<- & c0 & Hc0 & ->)].
    + destruct (bo_lock _ _ _ Hok j c Hj Hc) as [-> ->].
      split; [apply bool_decide_ext; set_solver|]. repeat case_decide; set_solver.
    + rewrite Hb in Hc0. injection Hc0 as <-. rewrite Hlock, Href.
      rewrite bool_decide_true, decide_True by set_solver. done.
  - intros j j' c c' Hj Hj' Hc Hc' Hk Hd. rewrite Hbc in Hc, Hc'.
    apply lookup_alter_buf in Hc as [[Hne Hc]|(<- & c0 & Hc0 & ->)];
      apply lookup_alter_buf in Hc' as [[Hne' Hc']|(<- & c0' & Hc0' & ->)].
    + by eapply (bo_uniq _ _ _ Hok).
    + rewrite Hb in Hc0'. injection Hc0' as <-. exfalso. by apply (Huniq j c).
    + rewrite Hb in Hc0. injection Hc0 as <-. exfalso. by apply (Huniq j' c').
    + done.
  - intros j c Hj Hc. rewrite Hbc in Hc. apply lookup_alter_buf in Hc as [[Hne Hc]|(<- & c0 & Hc0 & ->)].
    + by eapply (bo_data _ _ _ Hok).
    + rewrite Hb in Hc0. by injection Hc0 as <-.
  - intros j c Hj Hc. rewrite Hbc in Hc. apply lookup_alter_buf in Hc as [[Hne Hc]|(<- & c0 & Hc0 & ->)].
    + by eapply (bo_dirty _ _ _ Hok).
    + rewrite Hb in Hc0. by injection Hc0 as <-.
  - intros j c Hj Hc. rewrite Hbc in Hc. apply lookup_alter_buf in Hc as [[Hne Hc]|(<- & c0 & Hc0 & ->)].
    + by eapply (bo_dev _ _ _ Hok).
    + rewrite Hb in Hc0. by injection Hc0 as <-.
  - intros j c Hj Hc Hjl Hv Hnd. apply not_elem_of_union in Hjl as [Hji%not_elem_of_singleton Hjl].
    rewrite Hbc in Hc. apply lookup_alter_buf in Hc as [[Hne Hc]|(<- & _)]; [|done].
    rewrite Hdisk; [by eapply (bo_sync _ _ _ Hok)|]. by apply (Huniq j c).
Qed.

(** Which buffers are dirty. *)
Definition dirty_at (s : kernel) (i : nat) : bool :=
  match bcache s !! i with Some b => is_dirty b | None => false end.

Lemma holds_block_alter (bc : list buf) f i k j :
  holds_block (alter f i bc) k j
  = if decide (i = j) then match bc !! i with Some b => bool_decide (key (f b) = k) && is_valid (f b) | None => false end
    else holds_block bc k j.
Proof.
  unfold holds_block. rewrite list_lookup_alter. case_decide; subst; [|done]. by destruct (bc !! j).
Qed.

(** What bread does to the buffer it returns. *)
Record fetched (s : kernel) (k : Z * Z) (i : nat) (b : buf) (f : buf → buf) (d : list Z) : Prop := {
  fe_links : ∀ b, b_next (f b) = b_next b ∧ b_prev (f b) = b_prev b;
  fe_key : key (f b) = k;
  fe_valid : is_valid (f b) = true;
  fe_lock : sl_locked (b_lock (f b)) = true;
  fe_ref : b_refcnt (f b) = 1;
  fe_dirty : is_dirty (f b) = is_dirty b;
  fe_uniq : ∀ j c, (j < NBUF)%nat → j ≠ i → bcache s !! j = Some c → key c ≠ k;
  fe_data : (key b = k ∧ is_valid b = true ∧ b_data (f b) = b_data b)
            ∨ (b_data (f b) = d ∧ is_dirty b = false
               ∧ ∀ j c, (j < NBUF)%nat → bcache s !! j = Some c → key c = k → is_valid c = false)
}.

Lemma links_compose (f g : buf → buf) :
  (∀ b, b_next (f b) = b_next b ∧ b_prev (f b) = b_prev b) →
  (∀ b, b_next (g b) = b_next b ∧ b_prev (g b) = b_prev b) →
  ∀ b, b_next ((f ∘ g) b) = b_next b ∧ b_prev ((f ∘ g) b) = b_prev b.
Proof. intros Hf Hg b. unfold compose. by rewrite (proj1 (Hf _)), (proj2 (Hf _)), (proj1 (Hg _)), (proj2 (Hg _)). Qed.

Lemma transferred_links d b : b_next (transferred d b) = b_next b ∧ b_prev (transferred d b) = b_prev b.
Proof. unfold transferred. by destruct (is_dirty b). Qed.

Lemma bread_fetch s ord lk bno d :
  bio_ok s ord lk → running s → cached s (1, bno) ∨ avail s lk →
  (∀ i b, i ∈ lk → bcache s !! i = Some b → key b ≠ (1, bno)) →
  bno < nblocks → disk s !! (1, bno) = Some d →
  ∃ i b f, (i < NBUF)%nat ∧ i ∉ lk ∧ bcache s !! i = Some b
    ∧ bread 1 bno s = Ret i (s <| bcache ::= alter f i |>) ∧ fetched s (1, bno) i b f d.
Proof.
  intros Hok Hrun Hav Hfree Hno Hd.
  destruct (bget_run s ord lk (1, bno) Hok Hrun ltac:(done) Hav Hfree)
    as (i & b & pid & Hi & Hil & Hb & Hcase). cbn [fst snd] in Hcase.
  assert (Hgb : ∀ g, bcache (s <| bcache ::= alter g i |>) !! i = Some (g b)).
  { intros g. sst. by rewrite list_lookup_alter, decide_True, Hb. }
  assert (Hread : ∀ g, key (g b) = (1, bno) → sl_locked (b_lock (g b)) = true → is_valid (g b) = false →
    is_dirty (g b) = false → bget 1 bno s = Ret i (s <| bcache ::= alter g i |>) →
    bread 1 bno s = Ret i (s <| bcache ::= alter (transferred d ∘ g) i |>)).
  { intros g Hkey Hl Hnv Hnd Hg. unfold key in Hkey. injection Hkey as Hkd Hkb.
    unfold bread. rewrite (bind_run _ _ _ _ _ Hg). cbv beta.
    erewrite bind_run by (apply getbuf_run, Hgb). cbv beta. rewrite Hnv. cbn [negb when].
    erewrite bind_run; [|apply (iderw_sync _ i (g b) d); [apply Hgb|done| | |done|by rewrite Hkb|by rewrite Hkb]].
    - unfold mret, M_ret, transfer. rewrite Hnd. f_equal.
      rewrite (set_bcache_ext (alter (transferred d ∘ g) i) (λ l, alter (transferred d) i (alter g i l))); [done|].
      by rewrite alter_twice.
    - sst. destruct Hrun as [-> _]. apply not_elem_of_nil.
    - rewrite synced_flags, Hnv. done. }
  destruct Hcase as [[Hk Hg]|(Hno' & Hnd & Hg)].
  - assert (Hu : ∀ j c, (j < NBUF)%nat → j ≠ i → bcache s !! j = Some c → key c ≠ (1, bno)).
    { intros j c Hj Hji Hc Hkc. apply Hji. eapply (bo_uniq _ _ _ Hok); [done..|congruence|].
      unfold key in Hkc. by injection Hkc as ->. }
    destruct (is_valid b) eqn:Hv.
    + exists i, b, (grab pid). split_and!; [done..| |].
      * unfold bread. rewrite (bind_run _ _ _ _ _ Hg). cbv beta.
        erewrite bind_run by (apply getbuf_run, Hgb). cbv beta.
        change (is_valid (grab pid b)) with (is_valid b). by rewrite Hv.
      * split; try done. by left.
    + assert (Hnd : is_dirty b = false).
      { destruct (is_dirty b) eqn:E; [|done]. by rewrite (bo_dirty _ _ _ Hok i b) in Hv. }
      exists i, b, (transferred d ∘ grab pid). split_and!; [done..|by apply Hread|].
      assert (Hndg : is_dirty (grab pid b) = false) by done.
      split; unfold compose, transferred; rewrite ?Hndg.
      * intros c. by destruct (is_dirty (grab pid c)).
      * done.
      * apply set_valid_valid.
      * done.
      * done.
      * by rewrite set_valid_dirty.
      * done.
      * right. split_and!; [done..|]. intros j c Hj Hc Hkc.
        destruct (decide (j = i)) as [->|Hji]; [congruence|]. by apply (Hu j c) in Hkc.
  - exists i, b, (transferred d ∘ (grab pid ∘ recycle (1, bno))). split_and!; [done..|by apply Hread|].
    split; unfold compose, transferred.
    * intros c. by destruct (is_dirty _).
    * done.
    * apply set_valid_valid.
    * done.
    * done.
    * by rewrite set_valid_dirty, Hnd.
    * intros j c Hj _ Hc. by apply (Hno' j c).
    * right. split_and!; [done..|]. intros j c Hj Hc Hkc. by apply (Hno' j c) in Hkc.
Qed.

(** bread returns the block, locked, and changes no block's contents. *)
Lemma bread_run s ord lk bno d :
  bio_ok s ord lk → running s → cached s (1, bno) ∨ avail s lk →
  (∀ i b, i ∈ lk → bcache s !! i = Some b → key b ≠ (1, bno)) →
  bno < nblocks → disk s !! (1, bno) = Some d → length d = Z.to_nat BSIZE →
  ∃ i b s', bread 1 bno s = Ret i s' ∧ s' = s <| bcache := bcache s' |> ∧ (i < NBUF)%nat ∧ i ∉ lk
    ∧ bio_ok s' ord ({[i]} ∪ lk) ∧ bcache s' !! i = Some b
    ∧ key b = (1, bno) ∧ is_valid b = true ∧ view s (1, bno) = Some (b_data b)
    ∧ (∀ k, view s' k = view s k) ∧ (∀ j, dirty_at s' j = dirty_at s j)
    ∧ (∀ j, j ≠ i → bcache s' !! j = bcache s !! j)
    ∧ (is_dirty b = false → disk s !! (1, bno) = Some (b_data b))
    ∧ (dirty_at s i = true → key <$> bcache s !! i = Some (1, bno)).
Proof.
  intros Hok Hrun Hav Hfree Hno Hd Hlen.
  destruct (bread_fetch s ord lk bno d Hok Hrun Hav Hfree Hno Hd) as (i & b & f & Hi & Hil & Hb & Hr & Hf).
  destruct Hf as [Hlinks Hkey Hvalid Hlock Href Hdirty Huniq Hdata].
  set (s' := s <| bcache ::= alter f i |>).
  assert (Hb' : bcache s' !! i = Some (f b)) by (unfold s'; sst; by rewrite list_lookup_alter, decide_True, Hb).
  assert (Hdev : b_dev (f b) = 1) by (unfold key in Hkey; by injection Hkey).
  assert (Hdl : length (b_data (f b)) = Z.to_nat BSIZE).
  { destruct Hdata as [(_ & _ & ->)|(-> & _)]; [by eapply (bo_data _ _ _ Hok)|done]. }
  assert (Hok' : bio_ok s' ord ({[i]} ∪ lk)).
  { eapply bio_hold; try done; rewrite ?Hdev, ?Hkey; done. }
  assert (Hvs : view s (1, bno) = Some (b_data (f b))).
  { destruct Hdata as [(Hk & Hv & ->)|(-> & _ & Hnone)].
    - rewrite <- Hk. eapply view_hit; try done. by eapply (bo_dev _ _ _ Hok).
    - rewrite <- Hd. by apply view_miss. }
  exists i, (f b), s'. split_and!; try done.
  - intros k. destruct (decide (k = (1, bno))) as [->|Hk].
    + rewrite Hvs. rewrite <- Hkey. eapply view_hit; [exact Hok'|done|done|done|by rewrite Hdev].
    + destruct (decide (key b = k ∧ is_valid b = true)) as [[Hkb Hv]|Hnk].
      * (* the block whose buffer was recycled *)
        assert (Hnd : is_dirty b = false) by (destruct Hdata as [(? & _)|(_ & ? & _)]; [congruence|done]).
        assert (Hdb : b_dev b ≠ 0) by (by eapply (bo_dev _ _ _ Hok)).
        rewrite <- Hkb at 2. rewrite (view_hit _ _ _ i b Hok Hi Hb Hv Hdb).
        rewrite <- (bo_sync _ _ _ Hok i b Hi Hb Hil Hv Hnd). rewrite Hkb.
        change (disk s) with (disk s'). apply view_miss.
        intros j c Hj Hc Hkc. unfold s' in Hc. sst_in Hc.
        apply lookup_alter_buf in Hc as [[Hne Hc]|(<- & c0 & Hc0 & ->)].
        -- exfalso. apply Hne. eapply (bo_uniq _ _ _ Hok); [done..|congruence|done].
        -- exfalso. rewrite Hb in Hc0. injection Hc0 as <-. congruence.
      * apply view_ext; [|done]. intros j Hj. unfold s'. sst. rewrite holds_block_alter, list_lookup_alter.
        destruct (decide (i = j)) as [<-|Hne]; [|done].
        rewrite Hb. rewrite bool_decide_false by congruence. unfold holds_block. rewrite Hb. cbn [andb].
        split; [|intros [Hkk%bool_decide_eq_true Hvv]%andb_true_iff; tauto].
        symmetry. apply andb_false_iff. destruct (decide (key b = k)) as [E|E];
          [right; destruct (is_valid b); [tauto|done]|left; by apply bool_decide_eq_false].
  - intros j. unfold dirty_at, s'. sst. rewrite list_lookup_alter. case_decide as E; [|done].
    subst. rewrite Hb. cbn. done.
  - intros j Hj. unfold s'. sst. rewrite list_lookup_alter, decide_False by done. done.
  - rewrite Hdirty. intros Hnd. destruct Hdata as [(<- & Hv & ->)|(-> & _)]; [|done].
    by apply (bo_sync _ _ _ Hok i).
  - unfold dirty_at. rewrite Hb. intros Hdt. destruct Hdata as [(<- & _)|(_ & ? & _)]; [done|congruence].
Qed.

(** The list has [i] somewhere. *)
Lemma ord_split bc ord i : dll bc ord → (i < NBUF)%nat → ∃ l1 l2, ord = l1 ++ i :: l2.
Proof. intros Hd Hi. apply (list_elem_of_split ord i). by apply (ord_elem _ _ _ Hd). Qed.

(** What the release of a buffer leaves of it. *)
Definition released (b : buf) : buf := b <| b_lock := mkSleeplock false 0 |> <| b_refcnt := 0 |>.

(** Buffers up to their links, buffer [i] released. *)
Definition after_release (i : nat) (bc bc' : list buf) : Prop :=
  ∀ j b, bc !! j = Some b →
    ∃ b', bc' !! j = Some b' ∧ same_buf (if decide (j = i) then released b else b) b'.

Lemma brelse_shape s ord lk i b :
  bio_ok s ord lk → running s → i ∈ lk → bcache s !! i = Some b →
  ∃ bc' ord', brelse i s = Ret tt (s <| bcache := bc' |> <| ptable ::= fmap (wake_one (ChBufLock i)) |>)
    ∧ dll bc' ord' ∧ after_release i (bcache s) bc'.
Proof.
  intros Hok (Hh & p & pr & Hc & Hp) Hi Hb. assert (Hlt := bo_lk _ _ _ Hok i Hi).
  destruct (bo_lock _ _ _ Hok i b Hlt Hb) as [Hlock Href]. rewrite bool_decide_true in Hlock by done.
  rewrite decide_True in Href by done. unfold brelse.
  erewrite bind_run; [|apply (holdingsleep_run (SLBuf i) s (b_lock b)); [cbn; by rewrite Hb|rewrite Hh; apply not_elem_of_nil]].
  cbv beta. rewrite Hlock. cbn [negb].
  erewrite bind_run; [|apply releasesleep_run; rewrite Hh; apply not_elem_of_nil]. cbv beta. cbn [sl_set sl_chan].
  run_by (apply acquire_run; sst; rewrite Hh; apply not_elem_of_nil). unfold upd_buf. run.
  set (bc2 := alter (λ b, b <| b_refcnt ::= λ r, usub r 1 |>) i
                (alter (λ b, b <| b_lock := mkSleeplock false 0 |>) i (bcache s))).
  set (s2 := s <| bcache := bc2 |> <| ptable ::= fmap (wake_one (ChBufLock i)) |> <| held ::= cons LBcache |>).
  match goal with |- context [(_ ≫= _) ?x] => change x with s2 end.
  assert (Hb2 : bcache s2 !! i = Some (released b)).
  { unfold s2, bc2. sst. rewrite !list_lookup_alter, !decide_True, Hb by done. cbn. f_equal.
    unfold released. destruct b; cbn in *. by subst. }
  erewrite bind_run by (by apply getbuf_run). cbv beta. change (b_refcnt (released b) =? 0) with true. cbn [when].
  assert (Hd2 : dll bc2 ord).
  { unfold bc2. apply dll_alter; [done|]. apply dll_alter; [done|]. apply Hok. }
  destruct (ord_split _ _ i Hd2 Hlt) as (l1 & l2 & ->).
  destruct (move_front_run s2 l1 i l2 Hd2) as (bc' & Hm & Hd' & Hsame).
  rewrite (bind_run _ _ _ _ _ Hm). cbv beta. exists bc', (i :: l1 ++ l2). split; [|split; [done|]].
  - rewrite release_run by (unfold s2; sst; constructor). done.
  - intros j c Hj. change (bcache s2) with bc2 in Hsame.
    assert (Hj2 : bc2 !! j = Some (if decide (j = i) then released c else c)).
    { destruct (decide (j = i)) as [->|Hne].
      - rewrite Hb in Hj. injection Hj as <-. exact Hb2.
      - unfold bc2. rewrite !list_lookup_alter, !decide_False by done. done. }
    destruct (Forall2_lookup_l _ _ _ _ _ Hsame Hj2) as (b' & ? & ?). eauto.
Qed.

Lemma same_buf_fields b b' :
  same_buf b b' → key b' = key b ∧ b_flags b' = b_flags b ∧ b_data b' = b_data b
                  ∧ b_lock b' = b_lock b ∧ b_refcnt b' = b_refcnt b.
Proof. unfold same_buf. by intros ->. Qed.

(** brelse: the thread gives the buffer back, and no block's contents change. *)
Lemma brelse_run s ord lk i b :
  bio_ok s ord lk → running s → i ∈ lk → bcache s !! i = Some b →
  (is_valid b = true → is_dirty b = false → disk s !! key b = Some (b_data b)) →
  ∃ s' ord', brelse i s = Ret tt s' ∧ s' = s <| bcache := bcache s' |> <| ptable := ptable s' |>
    ∧ woken (ptable s) (ptable s') ∧ bio_ok s' ord' (lk ∖ {[i]})
    ∧ (∀ k, view s' k = view s k) ∧ (∀ j, dirty_at s' j = dirty_at s j)
    ∧ (∀ j c, bcache s !! j = Some c → ∃ c', bcache s' !! j = Some c' ∧ key c' = key c
         ∧ b_flags c' = b_flags c ∧ b_data c' = b_data c).
Proof.
  intros Hok Hrun Hi Hb Hsync.
  destruct (brelse_shape s ord lk i b Hok Hrun Hi Hb) as (bc' & ord' & Hr & Hd & Haft).
  eexists _, ord'. split; [exact Hr|]. split; [by destruct s|]. split; [apply woken_wake|].
  assert (Hback : ∀ j c', bc' !! j = Some c' → ∃ c, bcache s !! j = Some c
      ∧ key c' = key c ∧ b_flags c' = b_flags c ∧ b_data c' = b_data c
      ∧ (if decide (j = i) then b_lock c' = mkSleeplock false 0 ∧ b_refcnt c' = 0
         else b_lock c' = b_lock c ∧ b_refcnt c' = b_refcnt c)).
  { intros j c' Hc'. assert (Hj : (j < length (bcache s))%nat).
    { destruct (bo_dll _ _ _ Hok) as [-> _]. destruct Hd as [<- _]. by eapply lookup_lt_Some. }
    apply lookup_lt_is_Some in Hj as [c Hc]. exists c. split; [done|].
    destruct (Haft j c Hc) as (c2 & Hc2 & Hs). rewrite Hc' in Hc2. injection Hc2 as <-.
    apply same_buf_fields in Hs as (H1 & H2 & H3 & H4 & H5). case_decide; by split_and!. }
  assert (Hflags : ∀ c c', b_flags c' = b_flags c → is_valid c' = is_valid c ∧ is_dirty c' = is_dirty c).
  { intros c c' E. unfold is_valid, is_dirty. by rewrite E. }
  split_and!.
  - split; sst.
    + done.
    + intros j [Hj _]%elem_of_difference. by apply (bo_lk _ _ _ Hok).
    + intros j c' Hj Hc'. destruct (Hback j c' Hc') as (c & Hc & _ & _ & _ & Hl).
      destruct (bo_lock _ _ _ Hok j c Hj Hc) as [H1 H2].
      destruct (decide (j = i)) as [->|E].
      * destruct Hl as [-> ->]. rewrite bool_decide_false, decide_False by set_solver. done.
      * destruct Hl as [-> ->]. rewrite H1, H2. split; [apply bool_decide_ext; set_solver|].
        repeat case_decide; set_solver.
    + intros j j' c c' Hj Hj' Hc Hc' Hk Hdv. destruct (Hback j c Hc) as (c0 & Hc0 & Hk0 & _).
      destruct (Hback j' c' Hc') as (c1 & Hc1 & Hk1 & _).
      eapply (bo_uniq _ _ _ Hok j j' c0 c1); [done..|congruence|]. unfold key in Hk0. congruence.
    + intros j c Hj Hc. destruct (Hback j c Hc) as (c0 & Hc0 & _ & _ & -> & _). by eapply (bo_data _ _ _ Hok).
    + intros j c Hj Hc. destruct (Hback j c Hc) as (c0 & Hc0 & _ & Hf & _). destruct (Hflags _ _ Hf) as [-> ->].
      by eapply (bo_dirty _ _ _ Hok).
    + intros j c Hj Hc. destruct (Hback j c Hc) as (c0 & Hc0 & Hk0 & Hf & _). destruct (Hflags _ _ Hf) as [-> _].
      intros Hv. unfold key in Hk0. injection Hk0 as Ed _. rewrite Ed. by eapply (bo_dev _ _ _ Hok).
    + intros j c Hj Hc Hjl. destruct (Hback j c Hc) as (c0 & Hc0 & -> & Hf & -> & _).
      destruct (Hflags _ _ Hf) as [-> ->]. destruct (decide (j = i)) as [->|Hne].
      * rewrite Hb in Hc0. by injection Hc0 as <-.
      * apply (bo_sync _ _ _ Hok j); [done|done|set_solver].
  - intros k. apply view_ext; [|done]. sst. intros j Hj. unfold holds_block.
    destruct (lookup_lt_is_Some_2 bc' j) as [c' Hc']; [destruct Hd as [-> _]; lia|].
    destruct (Hback j c' Hc') as (c & Hc & Hk & Hf & Hdt & _). rewrite Hc', Hc, Hk.
    destruct (Hflags _ _ Hf) as [-> _]. cbn. by rewrite Hdt.
  - intros j. unfold dirty_at. sst. destruct (bc' !! j) as [c'|] eqn:E.
    + destruct (Hback j c' E) as (c & -> & _ & Hf & _). by destruct (Hflags _ _ Hf) as [_ ->].
    + destruct (bcache s !! j) as [c|] eqn:E'; [|done]. destruct (Haft j c E') as (? & ? & _). congruence.
  - sst. intros j c Hc. destruct (Haft j c Hc) as (c' & Hc' & _). exists c'.
    destruct (Hback j c' Hc') as (c0 & Hc0 & ? & ? & ? & _). rewrite Hc in Hc0. injection Hc0 as <-. done.
Qed.


(** A held buffer is changed by [f], which keeps its identity and links. *)
Record inplace (f : buf → buf) (b : buf) : Prop := {
  ip_links : ∀ b, b_next (f b) = b_next b ∧ b_prev (f b) = b_prev b;
  ip_key : key (f b) = key b;
  ip_lock : b_lock (f b) = b_lock b;
  ip_ref : b_refcnt (f b) = b_refcnt b;
  ip_len : length (b_data (f b)) = Z.to_nat BSIZE;
  ip_valid : is_valid (f b) = true
}.

Lemma bio_inplace s s' ord lk i b f :
  bio_ok s ord lk → i ∈ lk → bcache s !! i = Some b → is_valid b = true → inplace f b →
  bcache s' = alter f i (bcache s) → (∀ k, k ≠ key b → disk s' !! k = disk s !! k) →
  bio_ok s' ord lk ∧ view s' (key b) = Some (b_data (f b))
  ∧ (∀ k, k ≠ key b → view s' k = view s k).
Proof.
  intros Hok Hil Hb Hv [Hl Hk Hlk Hr Hlen Hv'] Hbc Hdisk. assert (Hi := bo_lk _ _ _ Hok i Hil).
  destruct (bo_lock _ _ _ Hok i b Hi Hb) as [Hlock Href]. rewrite bool_decide_true in Hlock by done.
  rewrite decide_True in Href by done. assert (Hdev := bo_dev _ _ _ Hok i b Hi Hb Hv).
  assert (Hdev' : b_dev (f b) ≠ 0) by (unfold key in Hk; congruence).
  assert (Hok' : bio_ok s' ord lk).
  { replace lk with ({[i]} ∪ lk) by set_solver. eapply bio_hold; try done; rewrite ?Hlk, ?Hr, ?Hk; try done.
    intros j c Hj Hji Hc Hkc. apply Hji. eapply (bo_uniq _ _ _ Hok); try done. unfold key in Hkc. congruence. }
  assert (Hb' : bcache s' !! i = Some (f b)) by (rewrite Hbc, list_lookup_alter, decide_True, Hb by done; done).
  split_and!; [done| |].
  - rewrite <- Hk. by eapply view_hit.
  - intros k Hne. apply view_ext; [|by auto]. intros j Hj. rewrite Hbc, holds_block_alter, list_lookup_alter.
    destruct (decide (i = j)) as [<-|]; [|done]. unfold holds_block. rewrite Hb, Hk.
    rewrite bool_decide_false by congruence. done.
Qed.

(** [memmove(b->data, ...)] into a held buffer. *)
Lemma set_data_run s ord lk i b d :
  bio_ok s ord lk → i ∈ lk → bcache s !! i = Some b → is_valid b = true → length d = Z.to_nat BSIZE →
  let s' := s <| bcache ::= alter (λ b, b <| b_data := d |>) i |> in
  bio_ok s' ord lk ∧ view s' (key b) = Some d ∧ (∀ k, k ≠ key b → view s' k = view s k).
Proof.
  intros Hok Hi Hb Hv Hd s'.
  destruct (bio_inplace s s' ord lk i b (λ b, b <| b_data := d |>)) as (H1 & H2 & H3); try done.
Qed.

(** bwrite puts the buffer's data on the disk. *)
Lemma bwrite_run s ord lk i b d0 :
  bio_ok s ord lk → running s → i ∈ lk → bcache s !! i = Some b → is_valid b = true →
  b_dev b = 1 → b_blockno b < nblocks → disk s !! key b = Some d0 →
  ∃ s', bwrite i s = Ret tt s'
    ∧ s' = s <| bcache := bcache s' |> <| disk := <[key b := b_data b]> (disk s) |>
             <| dtrace := dtrace s ++ [(key b, b_data b)] |>
    ∧ bio_ok s' ord lk ∧ (∀ k, view s' k = view s k)
    ∧ (∃ b', bcache s' !! i = Some b' ∧ key b' = key b ∧ b_data b' = b_data b
             ∧ is_valid b' = true ∧ is_dirty b' = false)
    ∧ (∀ j, j ≠ i → bcache s' !! j = bcache s !! j).
Proof.
  intros Hok Hrun Hil Hb Hv Hdev Hno Hd0. assert (Hi := bo_lk _ _ _ Hok i Hil).
  destruct (bo_lock _ _ _ Hok i b Hi Hb) as [Hlock Href]. rewrite bool_decide_true in Hlock by done.
  destruct Hrun as (Hh & _). unfold bwrite.
  erewrite bind_run; [|apply (holdingsleep_run (SLBuf i) s (b_lock b)); [cbn; by rewrite Hb|rewrite Hh; apply not_elem_of_nil]].
  cbv beta. rewrite Hlock. cbn [negb]. unfold upd_buf. run.
  set (b1 := set_flag B_DIRTY b). assert (Hkey : key b = (1, b_blockno b)) by (unfold key; by rewrite Hdev).
  rewrite (iderw_sync _ i b1 d0).
  - assert (Hd1 : is_dirty b1 = true) by apply set_dirty_dirty.
    unfold transfer. rewrite Hd1. change (b_data b1) with (b_data b). change (b_blockno b1) with (b_blockno b).
    rewrite <- Hkey. set (s' := _ <| dtrace ::= _ |>). exists s'. split; [done|]. split; [by destruct s|].
    set (f := transferred d0 ∘ set_flag B_DIRTY).
    assert (Hbc : bcache s' = alter f i (bcache s)) by (unfold s'; sst; by rewrite alter_twice).
    assert (Hfb : f b = set_flag B_VALID (clear_flag B_DIRTY b1)).
    { unfold f, compose, transferred. fold b1. by rewrite Hd1. }
    assert (Hip : inplace f b).
    { split; [by apply links_compose; [apply transferred_links|]|rewrite Hfb; try done..].
      - exact (bo_data _ _ _ Hok i b Hi Hb).
      - apply set_valid_valid. }
    destruct (bio_inplace s s' ord lk i b f Hok Hil Hb Hv Hip Hbc) as (Hok' & Hvk & Hvo).
    { intros k Hk. unfold s'. sst. by rewrite lookup_insert_ne. }
    split_and!; [done| | |].
    + intros k. destruct (decide (k = key b)) as [->|]; [|auto]. rewrite Hvk, Hfb. symmetry.
      change (b_data (set_flag _ _)) with (b_data b). apply (view_hit _ _ _ i b Hok); try done. lia.
    + exists (f b). rewrite Hbc, list_lookup_alter, decide_True, Hb by done. split; [done|]. rewrite Hfb.
      split_and!; try done; [apply set_valid_valid|]. by rewrite set_valid_dirty, clear_dirty_clean.
    + intros j Hj. rewrite Hbc, list_lookup_alter, decide_False by done. done.
  - sst. by rewrite list_lookup_alter, decide_True, Hb.
  - done.
  - sst. rewrite Hh. apply not_elem_of_nil.
  - rewrite synced_flags. unfold b1. by rewrite set_dirty_dirty, andb_false_r.
  - done.
  - done.
  - rewrite <- Hd0, Hkey. done.
Qed.
End Cache.
