(* ===== verification/Blocks.v ===== *)
(** The buffer cache as the layers above it use it: a thread holds some blocks
    by their buffers, reads and changes their contents, and every block has
    one current contents whether it is cached or not. *)

From S2P Require Import Prelude Types Spinlock Sched Ide Bio.

(** What a call into the block layer may change: the cache, the disk, and the
    processes it wakes. *)
Definition bframe (s s' : kernel) : Prop :=
  woken (ptable s) (ptable s')
  ∧ s' = s <| bcache := bcache s' |> <| ptable := ptable s' |> <| disk := disk s' |> <| dtrace := dtrace s' |>.

Lemma bframe_refl s : bframe s s.
Proof. split; [apply woken_refl|by destruct s]. Qed.

Lemma bframe_trans s1 s2 s3 : bframe s1 s2 → bframe s2 s3 → bframe s1 s3.
Proof.
  intros [Hw1 E1] [Hw2 E2]. split; [by eapply woken_trans|]. rewrite E2, E1 at 1. done.
Qed.

#[export] Instance bframe_preorder : PreOrder bframe.
Proof. split; [exact bframe_refl|exact bframe_trans]. Qed.

(** [bframe_field f] : the block layer leaves the field [f] alone. *)
Lemma bframe_field {A} (f : kernel → A) s s' :
  (∀ s bc pt dk dt, f (s <| bcache := bc |> <| ptable := pt |> <| disk := dk |> <| dtrace := dt |>) = f s) →
  bframe s s' → f s' = f s.
Proof. intros H [_ E]. rewrite E. apply H. Qed.

(** The contents of block [bno]. *)
Definition vw (s : kernel) (bno : Z) : option (list Z) := view s (1, bno).
(** ... and what the disk has of it. *)
Definition dk (s : kernel) (bno : Z) : option (list Z) := disk s !! (1, bno).

(** The block is in the cache, changed since it was last written. *)
Definition bdirty (s : kernel) (bno : Z) : Prop :=
  ∃ j b, (j < NBUF)%nat ∧ bcache s !! j = Some b ∧ key b = (1, bno) ∧ is_dirty b = true.

Lemma running_woken s s' :
  running s → held s' = held s → curproc s' = curproc s → woken (ptable s) (ptable s') → running s'.
Proof.
  intros (Hh & p & pr & Hc & Hp) Hh' Hc' Hw. destruct (woken_lookup _ _ _ _ Hw Hp) as (pr' & Hp' & _).
  split; [congruence|]. exists p, pr'. by rewrite Hc'.
Qed.

Lemma running_bframe s s' : running s → bframe s s' → running s'.
Proof.
  intros Hr Hf. eapply running_woken; [done| | |apply Hf]; by apply bframe_field.
Qed.

Section Blocks.
Context {P : Platform} {D : DiskDriver} {SD : SyncDisk D}.

(** The running thread holds the blocks [hb], each by its buffer. *)
Record blk_ok (s : kernel) (hb : list (nat * Z)) : Prop := {
  bk_bio : ∃ ord, bio_ok s ord (list_to_set hb.*1);
  bk_run : running s;
  bk_nodup : NoDup hb.*1;
  bk_held : ∀ i bno, (i, bno) ∈ hb → ∃ b, bcache s !! i = Some b ∧ key b = (1, bno) ∧ is_valid b = true;
  bk_disk : ∀ bno, 0 ≤ bno < nblocks → ∃ d, dk s bno = Some d ∧ length d = Z.to_nat BSIZE;
  bk_dirty : ∀ j b, (j < NBUF)%nat → bcache s !! j = Some b → is_dirty b = true → b_dev b = 1
}.

(** The dirty blocks are among [L] and leave a buffer to recycle. *)
Definition room (s : kernel) (hb : list (nat * Z)) (L : list Z) : Prop :=
  (∀ bno, bdirty s bno → bno ∈ L) ∧ (length L + length hb < NBUF)%nat.

Lemma held_lt s hb i bno : blk_ok s hb → (i, bno) ∈ hb → (i < NBUF)%nat.
Proof.
  intros Hok Hi. destruct (bk_bio _ _ Hok) as [ord Hb]. apply (bo_lk _ _ _ Hb). apply elem_of_list_to_set.
  apply list_elem_of_fmap. by exists (i, bno).
Qed.

(** The buffer of a held block has its contents. *)
Lemma held_buf s hb i bno :
  blk_ok s hb → (i, bno) ∈ hb →
  ∃ b, bcache s !! i = Some b ∧ b_dev b = 1 ∧ b_blockno b = bno ∧ is_valid b = true
       ∧ vw s bno = Some (b_data b) ∧ length (b_data b) = Z.to_nat BSIZE.
Proof.
  intros Hok Hi. destruct (bk_held _ _ Hok i bno Hi) as (b & Hb & Hk & Hv).
  destruct (bk_bio _ _ Hok) as [ord Ho]. assert (Hlt := held_lt _ _ _ _ Hok Hi).
  exists b. unfold key in Hk. injection Hk as Hd Hn. split_and!; try done.
  - unfold vw. rewrite <- Hn, <- Hd. eapply view_hit; try done. congruence.
  - by eapply (bo_data _ _ _ Ho).
Qed.

Lemma getbuf_held s hb i bno :
  blk_ok s hb → (i, bno) ∈ hb →
  ∃ b, getbuf i s = Ret b s ∧ b_blockno b = bno ∧ vw s bno = Some (b_data b)
       ∧ length (b_data b) = Z.to_nat BSIZE.
Proof.
  intros Hok Hi. destruct (held_buf _ _ _ _ Hok Hi) as (b & Hb & _ & Hn & _ & Hv & Hl).
  exists b. split_and!; try done. by apply getbuf_run.
Qed.

(** A block that is not held and not dirty is on the disk as it is. *)
Lemma blk_clean s hb bno :
  blk_ok s hb → bno ∉ hb.*2 → ¬ bdirty s bno → vw s bno = dk s bno.
Proof.
  intros Hok Hnh Hnd. destruct (bk_bio _ _ Hok) as [ord Ho]. unfold vw, dk.
  destruct (decide (Exists (λ i, holds_block (bcache s) (1, bno) i = true) (seq 0 NBUF))) as [He|Hne].
  - apply Exists_exists in He as (i & Hi%elem_of_seq & Hh). unfold holds_block in Hh.
    destruct (bcache s !! i) as [b|] eqn:Hb; [|done].
    apply andb_true_iff in Hh as [Hk%bool_decide_eq_true Hv].
    assert (Hlt : (i < NBUF)%nat) by lia.
    rewrite <- Hk. rewrite (view_hit _ _ _ i b Ho Hlt Hb Hv (bo_dev _ _ _ Ho i b Hlt Hb Hv)). symmetry.
    apply (bo_sync _ _ _ Ho i); [done|done| |done|].
    + intros Hi'%elem_of_list_to_set. apply list_elem_of_fmap in Hi' as ([i' bno'] & -> & Hin). cbn in *.
      destruct (bk_held _ _ Hok i' bno' Hin) as (b' & Hb' & Hk' & _). rewrite Hb in Hb'. injection Hb' as <-.
      apply Hnh, list_elem_of_fmap. exists (i', bno'). split; [|done]. cbn. congruence.
    + destruct (is_dirty b) eqn:E; [|done]. exfalso. apply Hnd. by exists i, b.
  - apply view_miss. intros i b Hi Hb Hk. destruct (is_valid b) eqn:E; [|done]. exfalso. apply Hne.
    apply Exists_exists. exists i. split; [apply elem_of_seq; lia|]. unfold holds_block. rewrite Hb, E.
    by rewrite bool_decide_true.
Qed.

Lemma blk_some s hb bno :
  blk_ok s hb → 0 ≤ bno < nblocks → ∃ d, vw s bno = Some d ∧ length d = Z.to_nat BSIZE.
Proof.
  intros Hok Hr. destruct (bk_bio _ _ Hok) as [ord Ho]. unfold vw, view.
  destruct (first_in _ _) as [i|] eqn:E.
  - apply first_in_Some in E as [Hi%elem_of_seq Hh]. unfold holds_block in Hh.
    destruct (bcache s !! i) as [b|] eqn:Hb; [|done]. exists (b_data b). split; [done|].
    eapply (bo_data _ _ _ Ho i b); [lia|done].
  - by apply (bk_disk _ _ Hok).
Qed.

(** Pigeonhole: fewer dirty and held buffers than buffers. *)
Lemma room_avail s hb L : blk_ok s hb → room s hb L → avail s (list_to_set hb.*1).
Proof.
  intros Hok [HL Hlen]. destruct (bk_bio _ _ Hok) as [ord Ho].
  set (used := filter (λ i, dirty_at s i = true) (seq 0 NBUF)).
  set (blkno i := match bcache s !! i with Some b => b_blockno b | None => 0 end).
  assert (Hbl : length (bcache s) = S NBUF) by apply (bo_dll _ _ _ Ho).
  assert (Hus : ∀ i, i ∈ used → (i < NBUF)%nat ∧ ∃ b, bcache s !! i = Some b ∧ is_dirty b = true).
  { intros i [Hd Hi%elem_of_seq]%list_elem_of_filter. split; [lia|]. unfold dirty_at in Hd.
    destruct (bcache s !! i) as [b|]; [|done]. eauto. }
  assert (Hle : (length used ≤ length L)%nat).
  { rewrite <- (length_fmap blkno used). apply submseteq_length, NoDup_submseteq.
    - apply NoDup_fmap_2_strong; [|apply NoDup_filter, NoDup_seq]. intros i j Hi Hj E.
      destruct (Hus i Hi) as (Hi' & b & Hb & Hdb). destruct (Hus j Hj) as (Hj' & c & Hc & Hdc).
      unfold blkno in E. rewrite Hb, Hc in E.
      eapply (bo_uniq _ _ _ Ho i j b c); try done.
      + unfold key. by rewrite (bk_dirty _ _ Hok i b), (bk_dirty _ _ Hok j c), E.
      + by rewrite (bk_dirty _ _ Hok i b).
    - intros x (i & -> & Hi)%list_elem_of_fmap. destruct (Hus i Hi) as (Hi' & b & Hb & Hdb).
      apply HL. exists i, b. split_and!; try done. unfold key, blkno. by rewrite Hb, (bk_dirty _ _ Hok i b). }
  assert (Hex : ∃ i, i ∈ seq 0 NBUF ∧ i ∉ used ++ hb.*1).
  { destruct (decide (Exists (λ i, i ∉ used ++ hb.*1) (seq 0 NBUF))) as [He|Hne].
    { by apply Exists_exists in He. }
    exfalso. assert (Hsub : seq 0 NBUF ⊆+ used ++ hb.*1).
    { apply NoDup_submseteq; [apply NoDup_seq|]. intros i Hi.
      destruct (decide (i ∈ used ++ hb.*1)) as [?|Hn]; [done|]. exfalso. apply Hne, Exists_exists. eauto. }
    apply submseteq_length in Hsub. rewrite length_app, length_fmap, length_seq in Hsub. lia. }
  destruct Hex as (i & Hi & [Hnu Hnh]%not_elem_of_app). pose proof Hi as Hi'%elem_of_seq.
  destruct (lookup_lt_is_Some_2 (bcache s) i) as [b Hb]; [lia|].
  exists i, b. split_and!; [lia| |done|].
  - by rewrite elem_of_list_to_set.
  - destruct (is_dirty b) eqn:E; [|done]. exfalso. apply Hnu, list_elem_of_filter. unfold dirty_at. by rewrite Hb.
Qed.

(** ** The operations *)

Lemma blk_bread s hb bno L :
  blk_ok s hb → 0 ≤ bno < nblocks → bno ∉ hb.*2 → bdirty s bno ∨ room s hb L →
  ∃ i s', bread 1 bno s = Ret i s' ∧ bframe s s' ∧ blk_ok s' ((i, bno) :: hb)
    ∧ (∀ b, vw s' b = vw s b) ∧ (∀ b, bdirty s' b ↔ bdirty s b)
    ∧ disk s' = disk s ∧ dtrace s' = dtrace s ∧ (bdirty s' bno ∨ dk s' bno = vw s' bno).
Proof.
  intros Hok Hr Hnh Hroom. 
  assert (Hav : cached s (1, bno) ∨ avail s (list_to_set hb.*1)).
  { destruct Hroom as [(j & c & Hj & Hc & Hkc & _)|Hroom]; [left; by exists j, c|right].
    exact (room_avail _ _ _ Hok Hroom). }
  destruct (bk_bio _ _ Hok) as [ord Ho]. destruct (bk_disk _ _ Hok bno Hr) as (d & Hd & Hdl).
  destruct (bread_run s ord _ bno d Ho (bk_run _ _ Hok) Hav) as
    (i & b & s' & Hrun & Hs' & Hi & Hil & Ho' & Hb' & Hk & Hv & Hvs & Hview & Hdirty & Hother & Hclean & Hsame);
    [|lia|done|done|].
  { intros j c Hj Hc Hkc. apply elem_of_list_to_set, list_elem_of_fmap in Hj as ([j' bno'] & -> & Hin). cbn in *.
    destruct (bk_held _ _ Hok _ _ Hin) as (c' & Hc' & Hk' & _). rewrite Hc in Hc'. injection Hc' as <-.
    apply Hnh, list_elem_of_fmap. exists (j', bno'). split; [|done]. cbn. congruence. }
  assert (Hdisk : disk s' = disk s) by (by rewrite Hs').
  assert (Hfr : bframe s s') by (split; [rewrite Hs'; apply woken_refl|rewrite Hs'; by destruct s]).
  assert (Hbd : ∀ j c, (j < NBUF)%nat → bcache s' !! j = Some c → is_dirty c = true →
                  ∃ c0, bcache s !! j = Some c0 ∧ is_dirty c0 = true ∧ key c0 = key c).
  { intros j c Hj Hc Hdc. destruct (decide (j = i)) as [->|Hne].
    - rewrite Hb' in Hc. injection Hc as <-. specialize (Hdirty i). unfold dirty_at in *. rewrite Hb', Hdc in Hdirty.
      destruct (bcache s !! i) as [c0|]; [|done]. specialize (Hsame (eq_sym Hdirty)). cbn in Hsame.
      injection Hsame as Hsame. exists c0. split_and!; [done|done|]. unfold key in *. congruence.
    - rewrite Hother in Hc by done. eauto. }
  exists i, s'. split_and!; try done.
  - split.
    + exists ord. exact Ho'.
    + by eapply running_bframe; [apply Hok|].
    + cbn. constructor; [|apply Hok]. by rewrite <- (elem_of_list_to_set (C := gset nat)).
    + intros j bno' [[= -> ->]|Hin]%elem_of_cons; [eauto|].
      destruct (bk_held _ _ Hok _ _ Hin) as (c & Hc & ?). exists c. rewrite Hother; [done|].
      intros ->. apply Hil. apply elem_of_list_to_set, list_elem_of_fmap. by exists (i, bno').
    + unfold dk. rewrite Hdisk. apply Hok.
    + intros j c Hj Hc Hdc. destruct (Hbd j c Hj Hc Hdc) as (c0 & Hc0 & Hdc0 & Hkk).
      unfold key in Hkk. injection Hkk as <- _. by eapply (bk_dirty _ _ Hok).
  - intros x. apply Hview.
  - intros x. split.
    + intros (j & c & Hj & Hc & Hkc & Hdc). destruct (Hbd j c Hj Hc Hdc) as (c0 & ? & ? & ?).
      exists j, c0. split_and!; try done. congruence.
    + intros (j & c & Hj & Hc & Hkc & Hdc). destruct (decide (j = i)) as [->|Hne].
      * assert (Hdi : dirty_at s i = true) by (unfold dirty_at; by rewrite Hc).
        pose proof (Hsame Hdi) as Hs. rewrite Hc in Hs. cbn in Hs. injection Hs as Hs.
        exists i, b. split_and!; [done..|unfold key in *; congruence|]. specialize (Hdirty i).
        unfold dirty_at in Hdirty. rewrite Hb', Hc in Hdirty. congruence.
      * exists j, c. rewrite Hother by done. done.
  - by rewrite Hs'.
  - destruct (is_dirty b) eqn:E; [left; by exists i, b|right].
    unfold dk, vw. rewrite Hdisk, Hview, (Hclean eq_refl). done.
Qed.

(** Changing the contents of a held block. *)
Lemma blk_set s hb i bno d f :
  blk_ok s hb → (i, bno) ∈ hb → length d = Z.to_nat BSIZE →
  (∀ b, bcache s !! i = Some b → f b = b <| b_data := d |>) →
  let s' := s <| bcache ::= alter f i |> in
  upd_buf i f s = Ret tt s' ∧ bframe s s' ∧ blk_ok s' hb
  ∧ vw s' bno = Some d ∧ (∀ b, b ≠ bno → vw s' b = vw s b) ∧ (∀ b, bdirty s' b ↔ bdirty s b).
Proof.
  intros Hok Hi Hd Hf s'. destruct (held_buf _ _ _ _ Hok Hi) as (b & Hb & Hdev & Hbn & Hv & Hvw & Hl).
  destruct (bk_bio _ _ Hok) as [ord Ho].
  set (g := λ b : buf, b <| b_data := d |>). assert (Hs' : s' = s <| bcache ::= alter g i |>).
  { unfold s'. apply set_bcache_ext. by apply (alter_ext_at _ _ _ _ b); [|apply Hf]. }
  destruct (set_data_run s ord _ i b d Ho) as (Ho' & Hvd & Hvo); try done.
  { apply elem_of_list_to_set, list_elem_of_fmap. by exists (i, bno). }
  assert (Hkey : key b = (1, bno)) by (unfold key; congruence).
  fold g in Ho', Hvd, Hvo. rewrite <- Hs', Hkey in *.
  assert (Hlk : ∀ j c, bcache s' !! j = Some c → ∃ c0, bcache s !! j = Some c0 ∧ key c = key c0
                  ∧ is_valid c = is_valid c0 ∧ is_dirty c = is_dirty c0).
  { intros j c Hc. rewrite Hs' in Hc. sst_in Hc. apply lookup_alter_buf in Hc as [[_ Hc]|(<- & c0 & Hc0 & ->)]; eauto. }
  assert (Hlk' : ∀ j c, bcache s !! j = Some c → ∃ c0, bcache s' !! j = Some c0 ∧ key c0 = key c
                  ∧ is_valid c0 = is_valid c ∧ is_dirty c0 = is_dirty c).
  { intros j c Hc. rewrite Hs'. sst. rewrite list_lookup_alter. case_decide as E; [subst j|eauto].
    rewrite Hc. cbn. by exists (g c). }
  assert (Hfr : bframe s s') by (split; [apply woken_refl|unfold s'; by destruct s]).
  split_and!; try done.
  - split.
    + by exists ord.
    + apply Hok.
    + apply Hok.
    + intros j bno' Hin. destruct (bk_held _ _ Hok _ _ Hin) as (c & Hc & Hkc & Hvc).
      destruct (Hlk' j c Hc) as (c0 & ? & ? & ? & ?). exists c0. split_and!; congruence.
    + apply Hok.
    + intros j c Hj Hc Hdc. destruct (Hlk j c Hc) as (c0 & Hc0 & Hk & _ & E).
      unfold key in Hk. injection Hk as -> _. eapply (bk_dirty _ _ Hok); [done..|congruence].
  - intros x Hx. apply Hvo. congruence.
  - intros x. split; intros (j & c & Hj & Hc & Hkc & Hdc).
    + destruct (Hlk j c Hc) as (c0 & ? & ? & ? & ?). exists j, c0. split_and!; congruence || done.
    + destruct (Hlk' j c Hc) as (c0 & ? & ? & ? & ?). exists j, c0. split_and!; congruence || done.
Qed.

(** bwrite: the disk gets the contents of a held block. *)
Lemma blk_bwrite s hb i bno d :
  blk_ok s hb → (i, bno) ∈ hb → 0 ≤ bno < nblocks → vw s bno = Some d →
  ∃ s', bwrite i s = Ret tt s' ∧ bframe s s' ∧ blk_ok s' hb
    ∧ (∀ b, vw s' b = vw s b) ∧ (∀ b, bdirty s' b ↔ bdirty s b ∧ b ≠ bno)
    ∧ disk s' = <[(1, bno) := d]> (disk s) ∧ dtrace s' = dtrace s ++ [(1, bno, d)].
Proof.
  intros Hok Hi Hr Hvd. destruct (held_buf _ _ _ _ Hok Hi) as (b & Hb & Hdev & Hbn & Hv & Hvw & Hl).
  rewrite Hvd in Hvw. injection Hvw as ->.
  destruct (bk_bio _ _ Hok) as [ord Ho]. destruct (bk_disk _ _ Hok bno Hr) as (d0 & Hd0 & _).
  assert (Hkey : key b = (1, bno)) by (unfold key; congruence).
  destruct (bwrite_run s ord _ i b d0 Ho (bk_run _ _ Hok)) as
    (s' & Hrun & Hs' & Ho' & Hvs & (b' & Hb' & Hk' & Hd' & Hv' & Hdt) & Hother); try done.
  { apply elem_of_list_to_set, list_elem_of_fmap. by exists (i, bno). }
  { lia. }
  { by rewrite Hkey. }
  rewrite Hkey in *.
  assert (Hdisk : disk s' = <[(1, bno) := b_data b]> (disk s)) by (by rewrite Hs').
  assert (Hfr : bframe s s') by (split; [rewrite Hs'; apply woken_refl|rewrite Hs'; by destruct s]).
  exists s'. split_and!; try done.
  - split.
    + by exists ord.
    + by eapply running_bframe; [apply Hok|].
    + apply Hok.
    + intros j bno' Hin. destruct (bk_held _ _ Hok _ _ Hin) as (c & Hc & Hkc & Hvc).
      destruct (decide (j = i)) as [->|Hne]; [|rewrite Hother by done; eauto].
      rewrite Hb in Hc. injection Hc as <-. exists b'. split_and!; congruence.
    + intros x Hx. unfold dk. rewrite Hdisk. destruct (decide (x = bno)) as [->|Hne].
      * rewrite lookup_insert, decide_True by done. eauto.
      * rewrite lookup_insert_ne by congruence. by apply Hok.
    + intros j c Hj Hc Hdc. destruct (decide (j = i)) as [->|Hne]; [congruence|].
      rewrite Hother in Hc by done. by eapply (bk_dirty _ _ Hok).
  - intros x. apply Hvs.
  - intros x. split.
    + intros (j & c & Hj & Hc & Hkc & Hdc). destruct (decide (j = i)) as [->|Hne]; [congruence|].
      rewrite Hother in Hc by done. split; [by exists j, c|]. intros ->. apply Hne.
      eapply (bo_uniq _ _ _ Ho j i c b); try done; [by eapply held_lt|congruence|].
      unfold key in Hkc. by injection Hkc as ->.
    + intros [(j & c & Hj & Hc & Hkc & Hdc) Hx]. exists j, c. rewrite Hother; [done|]. intros ->.
      rewrite Hb in Hc. injection Hc as <-. congruence.
  - by rewrite Hs'.
Qed.

(** brelse: the thread gives the block back; it must be dirty or on the disk. *)
Lemma blk_brelse s hb1 hb2 i bno :
  blk_ok s (hb1 ++ (i, bno) :: hb2) → (bdirty s bno ∨ dk s bno = vw s bno) →
  ∃ s', brelse i s = Ret tt s' ∧ bframe s s' ∧ blk_ok s' (hb1 ++ hb2)
    ∧ (∀ b, vw s' b = vw s b) ∧ (∀ b, bdirty s' b ↔ bdirty s b)
    ∧ disk s' = disk s ∧ dtrace s' = dtrace s.
Proof.
  intros Hok Hclean. assert (Hin : (i, bno) ∈ hb1 ++ (i, bno) :: hb2) by (apply elem_of_app; right; by left).
  destruct (held_buf _ _ _ _ Hok Hin) as (b & Hb & Hdev & Hbn & Hv & Hvw & Hl).
  destruct (bk_bio _ _ Hok) as [ord Ho]. assert (Hi := held_lt _ _ _ _ Hok Hin).
  assert (Hkey : key b = (1, bno)) by (unfold key; congruence).
  assert (Hnd := bk_nodup _ _ Hok). rewrite fmap_app in Hnd. cbn in Hnd.
  apply NoDup_app in Hnd as (Hnd1 & Hdisj & [Hn2 Hnd2]%NoDup_cons).
  assert (Hn1 : i ∉ hb1.*1) by (intros Hx; apply (Hdisj i Hx); by left).
  destruct (brelse_run s ord _ i b Ho (bk_run _ _ Hok)) as
    (s' & ord' & Hrun & Hs' & Hw & Ho' & Hvs & Hdt & Hbuf); try done.
  { by apply elem_of_list_to_set, list_elem_of_fmap_2' with (i, bno). }
  { intros _ Hndb. rewrite Hkey. destruct Hclean as [(j & c & Hj & Hc & Hkc & Hdc)|Hc]; [|by rewrite <- Hvw].
    exfalso. assert (j = i) as ->; [|congruence].
    eapply (bo_uniq _ _ _ Ho j i c b); try done; [congruence|]. unfold key in Hkc. by injection Hkc as ->. }
  assert (Hdisk : disk s' = disk s) by (by rewrite Hs').
  assert (Hfr : bframe s s') by (split; [done|rewrite Hs'; by destruct s]).
  assert (Hback : ∀ j c', (j < NBUF)%nat → bcache s' !! j = Some c' → ∃ c, bcache s !! j = Some c ∧ key c' = key c
             ∧ b_flags c' = b_flags c).
  { intros j c' Hj Hc'. destruct (lookup_lt_is_Some_2 (bcache s) j) as [c Hc].
    { destruct (bo_dll _ _ _ Ho) as [-> _]. lia. }
    destruct (Hbuf j c Hc) as (c2 & Hc2 & ? & ? & _). exists c. split_and!; congruence. }
  exists s'. split_and!; try done.
  - split.
    + exists ord'. replace (list_to_set (hb1 ++ hb2).*1 : gset nat) with
        ((list_to_set (hb1 ++ (i, bno) :: hb2).*1 : gset nat) ∖ {[i]}); [done|].
      rewrite !fmap_app. cbn. rewrite !list_to_set_app_L, list_to_set_cons.
      apply set_eq. intros x. rewrite !elem_of_difference, !elem_of_union, !elem_of_list_to_set, !elem_of_singleton.
      split; [tauto|]. intros Hx. split; [tauto|]. intros ->. tauto.
    + by eapply running_bframe; [apply Hok|].
    + rewrite fmap_app. apply NoDup_app. split_and!; [done| |done]. intros x Hx Hx'. apply (Hdisj x Hx). by right.
    + intros j bno' Hj. assert (Hj' : (j, bno') ∈ hb1 ++ (i, bno) :: hb2).
      { apply elem_of_app in Hj as [?|?]; apply elem_of_app; [by left|right; by right]. }
      destruct (bk_held _ _ Hok _ _ Hj') as (c & Hc & Hkc & Hvc). destruct (Hbuf j c Hc) as (c' & Hc' & Hk' & Hf' & _).
      exists c'. split_and!; [done|congruence|]. unfold is_valid in *. by rewrite Hf'.
    + unfold dk. rewrite Hdisk. apply Hok.
    + intros j c Hj Hc Hdc. destruct (Hback j c Hj Hc) as (c0 & Hc0 & Hk0 & Hf0). unfold key in Hk0.
      injection Hk0 as -> _. eapply (bk_dirty _ _ Hok); [done..|]. unfold is_dirty in *. by rewrite <- Hf0.
  - intros x. apply Hvs.
  - intros x. split; intros (j & c & Hj & Hc & Hkc & Hdc).
    + destruct (Hback j c Hj Hc) as (c0 & Hc0 & Hk0 & Hf0). exists j, c0. split_and!; try done; [congruence|].
      unfold is_dirty in *. by rewrite <- Hf0.
    + destruct (Hbuf j c Hc) as (c' & Hc' & Hk' & Hf' & _). exists j, c'. split_and!; try done; [congruence|].
      unfold is_dirty in *. by rewrite Hf'.
  - by rewrite Hs'.
Qed.

(** Marking a held block dirty. *)
Lemma blk_pin s hb i bno :
  blk_ok s hb → (i, bno) ∈ hb →
  let s' := s <| bcache ::= alter (set_flag B_DIRTY) i |> in
  bframe s s' ∧ blk_ok s' hb ∧ (∀ b, vw s' b = vw s b) ∧ (∀ b, bdirty s' b ↔ bdirty s b ∨ b = bno).
Proof.
  intros Hok Hi s'. destruct (held_buf _ _ _ _ Hok Hi) as (b & Hb & Hdev & Hbn & Hv & Hvw & Hl).
  destruct (bk_bio _ _ Hok) as [ord Ho]. assert (Hkey : key b = (1, bno)) by (unfold key; congruence).
  assert (Hip : inplace (set_flag B_DIRTY) b).
  { split; try done. by rewrite set_dirty_valid. }
  destruct (bio_inplace s s' ord _ i b (set_flag B_DIRTY) Ho) as (Ho' & Hvb & Hvo); try done.
  { by apply elem_of_list_to_set, list_elem_of_fmap_2' with (i, bno). }
  rewrite Hkey in Hvb, Hvo.
  assert (Hlk : ∀ j c, bcache s' !! j = Some c → (j ≠ i ∧ bcache s !! j = Some c) ∨ (j = i ∧ c = set_flag B_DIRTY b)).
  { intros j c Hc. unfold s' in Hc. sst_in Hc. apply lookup_alter_buf in Hc as [[? Hc]|(<- & c0 & Hc0 & ->)]; [left; auto|].
    right. rewrite Hb in Hc0. by injection Hc0 as <-. }
  assert (Hbi : bcache s' !! i = Some (set_flag B_DIRTY b)).
  { unfold s'. sst. by rewrite list_lookup_alter, decide_True, Hb. }
  assert (Hbo : ∀ j, j ≠ i → bcache s' !! j = bcache s !! j).
  { intros j Hj. unfold s'. sst. by rewrite list_lookup_alter, decide_False. }
  split_and!.
  - split; [apply woken_refl|]. unfold s'. by destruct s.
  - split; try apply Hok.
    + by exists ord.
    + intros j bno' Hin. destruct (bk_held _ _ Hok _ _ Hin) as (c & Hc & Hkc & Hvc).
      destruct (decide (j = i)) as [->|Hne]; [|rewrite Hbo by done; eauto].
      rewrite Hb in Hc. injection Hc as <-. exists (set_flag B_DIRTY b). split_and!; [done|done|by rewrite set_dirty_valid].
    + intros j c Hj Hc Hd. destruct (Hlk j c Hc) as [[_ Hc']|[-> ->]]; [by eapply (bk_dirty _ _ Hok)|done].
  - intros x. destruct (decide (x = bno)) as [->|Hne]; [by rewrite (Hvb : vw s' bno = _), Hvw|].
    apply Hvo. congruence.
  - intros x. split.
    + intros (j & c & Hj & Hc & Hkc & Hdc). destruct (Hlk j c Hc) as [[_ Hc']|[-> ->]]; [left; by exists j, c|right].
      change (key (set_flag B_DIRTY b)) with (key b) in Hkc. congruence.
    + intros [(j & c & Hj & Hc & Hkc & Hdc)| ->].
      * destruct (decide (j = i)) as [->|Hne]; [|exists j, c; by rewrite Hbo].
        rewrite Hb in Hc. injection Hc as <-. exists i, (set_flag B_DIRTY b). split_and!; try done. apply set_dirty_dirty.
      * exists i, (set_flag B_DIRTY b). split_and!; [by eapply held_lt|done|done|apply set_dirty_dirty].
Qed.
End Blocks.

(** ** The cache after binit *)

Definition binit_cache : list buf :=
  match binit kernel_zero with Ret _ s => bcache s | _ => [] end.

(** [fresh_cache] is [binit_cache], sealed so that proofs do not unfold it. *)
Lemma fresh_cache_sealed : { l : list buf | l = binit_cache }.
Proof. by exists binit_cache. Qed.
Definition fresh_cache : list buf := proj1_sig fresh_cache_sealed.

Lemma fresh_cache_eq : fresh_cache = binit_cache.
Proof. exact (proj2_sig fresh_cache_sealed). Qed.

Lemma binit_fresh s :
  bcache s = replicate (S NBUF) buf_zero → binit s = Ret tt (s <| bcache := fresh_cache |>).
Proof. rewrite fresh_cache_eq. destruct s. cbn. intros ->. vm_compute. reflexivity. Qed.

Lemma fresh_dll : dll fresh_cache (rev (seq 0 NBUF)).
Proof.
  rewrite fresh_cache_eq. split_and!; [by vm_compute| |vm_compute; by repeat split].
  apply Permutation_sym, Permutation_rev.
Qed.

Lemma fresh_bufs i b :
  fresh_cache !! i = Some b → b_dev b = 0 ∧ b_flags b = 0 ∧ sl_locked (b_lock b) = false ∧ b_refcnt b = 0
    ∧ length (b_data b) = Z.to_nat BSIZE.
Proof.
  rewrite fresh_cache_eq.
  assert (H : Forall (λ b, b_dev b = 0 ∧ b_flags b = 0 ∧ sl_locked (b_lock b) = false ∧ b_refcnt b = 0
                      ∧ length (b_data b) = Z.to_nat BSIZE) binit_cache).
  { apply (bool_decide_eq_true_1 _). vm_compute. reflexivity. }
  intros Hb. exact (Forall_lookup_1 _ _ _ _ H Hb).
Qed.

Section Fresh.
Context {P : Platform} {D : DiskDriver} {SD : SyncDisk D}.

(** Every block the file system may use is on the disk. *)
Definition disk_ok (dsk : gmap (Z * Z) (list Z)) : Prop :=
  ∀ bno, 0 ≤ bno < nblocks → ∃ d, dsk !! (1, bno) = Some d ∧ length d = Z.to_nat BSIZE.

Lemma fresh_blk_ok s : bcache s = fresh_cache → running s → disk_ok (disk s) → blk_ok s [].
Proof.
  intros Hf Hrun Hd.
  assert (Hb : ∀ i b, bcache s !! i = Some b → is_valid b = false ∧ is_dirty b = false ∧ b_dev b = 0
             ∧ sl_locked (b_lock b) = false ∧ b_refcnt b = 0 ∧ length (b_data b) = Z.to_nat BSIZE).
  { intros i b. rewrite Hf. intros (? & Hfl & ? & ? & ?)%fresh_bufs. unfold is_valid, is_dirty. by rewrite Hfl. }
  split; try done.
  - exists (rev (seq 0 NBUF)). split.
    + rewrite Hf. apply fresh_dll.
    + cbn. intros i Hi. by apply not_elem_of_empty in Hi.
    + intros i b _ (? & ? & ? & -> & -> & ?)%Hb. cbn. split.
      * symmetry. apply bool_decide_eq_false, not_elem_of_empty.
      * rewrite decide_False; [done|apply not_elem_of_empty].
    + intros i j b c _ _ (_ & _ & ? & _)%Hb _ _ ?. done.
    + intros i b _ (? & ? & ? & ? & ? & ?)%Hb. done.
    + intros i b _ (? & ? & ? & ? & ? & ?)%Hb. congruence.
    + intros i b _ (? & ? & ? & ? & ? & ?)%Hb. congruence.
    + intros i b _ (? & ? & ? & ? & ? & ?)%Hb. congruence.
  - constructor.
  - intros i bno Hi. by apply not_elem_of_nil in Hi.
  - intros j b _ (? & ? & ? & ? & ? & ?)%Hb. congruence.
Qed.

Lemma fresh_view s bno : bcache s = fresh_cache → vw s bno = dk s bno.
Proof.
  intros Hf. apply view_miss. rewrite Hf. intros i b _ (_ & Hfl & _)%fresh_bufs _. unfold is_valid. by rewrite Hfl.
Qed.

Lemma fresh_clean s bno : bcache s = fresh_cache → ¬ bdirty s bno.
Proof.
  intros Hf (j & b & _ & Hb & _ & Hd). rewrite Hf in Hb. apply fresh_bufs in Hb as (_ & Hfl & _).
  unfold is_dirty in Hd. by rewrite Hfl in Hd.
Qed.
End Fresh.
