(* ===== verification/Bytes.v ===== *)
(** Integers in the bytes of a disk block: the C structures that the log and
    the file system lay over [b->data], little-endian. *)

From S2P Require Import Prelude.

Definition byte_at (d : list Z) (k : nat) : Z := default 0 (d !! k).

Definition get16 (d : list Z) (off : nat) : Z := byte_at d off + 2 ^ 8 * byte_at d (1 + off).
Definition get32 (d : list Z) (off : nat) : Z :=
  byte_at d off + 2 ^ 8 * byte_at d (1 + off) + 2 ^ 16 * byte_at d (2 + off) + 2 ^ 24 * byte_at d (3 + off).

Definition bytes16 (v : Z) : list Z := [u8 v; u8 (v / 2 ^ 8)].
Definition bytes32 (v : Z) : list Z := [u8 v; u8 (v / 2 ^ 8); u8 (v / 2 ^ 16); u8 (v / 2 ^ 24)].

Definition put16 (off : nat) (v : Z) (d : list Z) : list Z := list_inserts off (bytes16 v) d.
Definition put32 (off : nat) (v : Z) (d : list Z) : list Z := list_inserts off (bytes32 v) d.

Lemma byte_at_inserts_other l d off k :
  (k < off ∨ off + length l ≤ k)%nat → byte_at (list_inserts off l d) k = byte_at d k.
Proof.
  intros H. unfold byte_at. destruct H; [by rewrite list_lookup_inserts_lt|by rewrite list_lookup_inserts_ge].
Qed.

Lemma byte_at_inserts l d off k :
  (off ≤ k < off + length l)%nat → (k < length d)%nat →
  byte_at (list_inserts off l d) k = byte_at l (k - off).
Proof. intros H Hd. unfold byte_at. by rewrite list_lookup_inserts. Qed.

Lemma get32_inserts_other l d off off' :
  (off' + 4 ≤ off ∨ off + length l ≤ off')%nat → get32 (list_inserts off l d) off' = get32 d off'.
Proof. intros H. unfold get32. rewrite !byte_at_inserts_other by lia. done. Qed.

Lemma get16_inserts_other l d off off' :
  (off' + 2 ≤ off ∨ off + length l ≤ off')%nat → get16 (list_inserts off l d) off' = get16 d off'.
Proof. intros H. unfold get16. rewrite !byte_at_inserts_other by lia. done. Qed.

Lemma get32_put32_other d off off' v :
  (off' + 4 ≤ off ∨ off + 4 ≤ off')%nat → get32 (put32 off v d) off' = get32 d off'.
Proof. intros H. apply get32_inserts_other. exact H. Qed.

Lemma split_bytes v n : 0 ≤ n → v mod 2 ^ 8 + 2 ^ 8 * ((v / 2 ^ 8) mod 2 ^ n) = v mod 2 ^ (8 + n).
Proof.
  intros Hn. rewrite Z.pow_add_r by lia. rewrite Z.rem_mul_r by lia. lia.
Qed.

Lemma bytes32_val v :
  u8 v + 2 ^ 8 * u8 (v / 2 ^ 8) + 2 ^ 16 * u8 (v / 2 ^ 16) + 2 ^ 24 * u8 (v / 2 ^ 24) = u32 v.
Proof.
  unfold u8, u32. assert (E3 := split_bytes (v / 2 ^ 16) 8 ltac:(lia)).
  assert (E2 := split_bytes (v / 2 ^ 8) 16 ltac:(lia)). assert (E1 := split_bytes v 24 ltac:(lia)).
  rewrite !Zdiv.Zdiv_Zdiv in E3, E2 by lia. change (8 + 8) with 16 in E3. change (8 + 16) with 24 in E2.
  change (8 + 24) with 32 in E1. change (2 ^ 16 * 2 ^ 8) with (2 ^ 24) in E3. change (2 ^ 8 * 2 ^ 8) with (2 ^ 16) in E2.
  lia.
Qed.

Lemma get32_put32 d off v : (off + 4 ≤ length d)%nat → get32 (put32 off v d) off = u32 v.
Proof.
  intros H. unfold get32, put32. rewrite !byte_at_inserts by (cbn; lia).
  rewrite Nat.sub_diag, !Nat.add_sub. apply bytes32_val.
Qed.

Lemma get16_put16 d off v : (off + 2 ≤ length d)%nat → get16 (put16 off v d) off = u16 v.
Proof.
  intros H. unfold get16, put16. rewrite !byte_at_inserts by (cbn; lia).
  rewrite Nat.sub_diag, !Nat.add_sub. apply (split_bytes v 8). lia.
Qed.

Lemma length_put32 off v d : length (put32 off v d) = length d.
Proof. apply length_inserts. Qed.
Lemma length_put16 off v d : length (put16 off v d) = length d.
Proof. apply length_inserts. Qed.

(** ** Bytes *)

Definition bytes_ok (d : list Z) : Prop := Forall is_u8 d.

Lemma byte_at_range d k : bytes_ok d → is_u8 (byte_at d k).
Proof.
  intros H. unfold byte_at. destruct (d !! k) eqn:E; [|by vm_compute]. by eapply (Forall_lookup_1 _ _ _ _ H).
Qed.

Lemma get32_range d off : bytes_ok d → is_u32 (get32 d off).
Proof.
  intros H. unfold get32, is_u32. pose proof (byte_at_range d off H). pose proof (byte_at_range d (1 + off) H).
  pose proof (byte_at_range d (2 + off) H). pose proof (byte_at_range d (3 + off) H). unfold is_u8 in *. lia.
Qed.

Lemma get16_range d off : bytes_ok d → is_u16 (get16 d off).
Proof.
  intros H. unfold get16, is_u16. pose proof (byte_at_range d off H). pose proof (byte_at_range d (1 + off) H).
  unfold is_u8 in *. lia.
Qed.

Lemma inserts_bytes_ok off l d : bytes_ok l → bytes_ok d → bytes_ok (list_inserts off l d).
Proof.
  intros Hl Hd. apply Forall_lookup_2. intros k x Hx.
  destruct (decide (off ≤ k < off + length l)%nat) as [Hin|Hout].
  - assert (Hk : (k < length d)%nat) by (rewrite <- (length_inserts d off l); by eapply lookup_lt_Some).
    rewrite list_lookup_inserts in Hx by lia. by eapply (Forall_lookup_1 _ _ _ _ Hl).
  - destruct (decide (k < off)%nat).
    + rewrite list_lookup_inserts_lt in Hx by lia. by eapply (Forall_lookup_1 _ _ _ _ Hd).
    + rewrite list_lookup_inserts_ge in Hx by lia. by eapply (Forall_lookup_1 _ _ _ _ Hd).
Qed.

Lemma u8_range x : is_u8 (u8 x).
Proof. apply Z.mod_pos_bound. lia. Qed.

Lemma bytes32_ok v : bytes_ok (bytes32 v).
Proof. repeat constructor; apply u8_range. Qed.
Lemma bytes16_ok v : bytes_ok (bytes16 v).
Proof. repeat constructor; apply u8_range. Qed.
