(* ===== verification/Log.v ===== *)
(** The redo log (log.c), and [readsb] of fs.c, which it calls: system calls
    collect the blocks they change in a transaction that reaches the disk as a
    whole or not at all. *)

From S2P Require Import Prelude Types Spinlock Sched Ide Bio Blocks Bytes.

(** [struct superblock] over the bytes of block 1. *)
Definition superblock_of (d : list Z) : superblock :=
  mkSuperblock (get32 d 0) (get32 d 4) (get32 d 8) (get32 d 12) (get32 d 16) (get32 d 20) (get32 d 24).

(** [struct logheader] over the bytes of the header block. *)
Definition hdr_n (d : list Z) : Z := i32 (get32 d 0).
Definition hdr_block (i : nat) (d : list Z) : Z := i32 (get32 d (4 + 4 * i)).
Definition set_hdr_n (n : Z) (d : list Z) : list Z := put32 0 n d.
Definition set_hdr_block (i : nat) (v : Z) (d : list Z) : list Z := put32 (4 + 4 * i) v d.

(** [sizeof(struct logheader)]. *)
Definition sizeof_logheader : Z := 4 + 4 * LOGSIZE.

Definition upd_log (f : log → log) : K unit := modify (λ s, s <| klog ::= f |>).
Definition upd_data (i : nat) (f : list Z → list Z) : K unit := upd_buf i (λ b, b <| b_data ::= f |>).

(** [log.lh.block[i]], and storing to it: the array has [LOGSIZE] elements. *)
Definition log_block (i : nat) : K Z := l ← gets klog; deref (lh_block l !! i).
Definition set_log_block (i : nat) (v : Z) : K unit :=
  l ← gets klog;
  if (i <? length (lh_block l))%nat then upd_log (λ l, l <| lh_block ::= <[i := v]> |>) else fault.

Section Log.
Context {P : Platform} {D : DiskDriver}.

Definition readsb (dev : Z) : K superblock :=
  bp ← bread dev 1;
  b ← getbuf bp;
  brelse bp;;
  mret (superblock_of (b_data b)).

(** The loop bodies below stop the first time [tail] or [i] reaches
    [log.lh.n]; an index past the [LOGSIZE] elements of [log.lh.block] faults,
    so [LOGSIZE] rounds are enough. *)

Fixpoint install_loop (n : nat) (tail : nat) : K unit :=
  l ← gets klog;
  if negb (Z.of_nat tail <? lh_n l) then mret tt else
  match n with
  | O => fault
  | S n' =>
      lbuf ← bread (u32 (l_dev l)) (u32 (l_start l + Z.of_nat tail + 1));
      l ← gets klog;
      blk ← log_block tail;
      dbuf ← bread (u32 (l_dev l)) (u32 blk);
      b ← getbuf lbuf;
      upd_data dbuf (λ _, b_data b);;
      bwrite dbuf;;
      brelse lbuf;;
      brelse dbuf;;
      install_loop n' (S tail)
  end.

Definition install_trans : K unit := install_loop (Z.to_nat LOGSIZE) 0.

Fixpoint read_head_loop (n : nat) (buf : nat) (i : nat) : K unit :=
  l ← gets klog;
  if negb (Z.of_nat i <? lh_n l) then mret tt else
  match n with
  | O => fault
  | S n' =>
      b ← getbuf buf;
      set_log_block i (hdr_block i (b_data b));;
      read_head_loop n' buf (S i)
  end.

Definition read_head : K unit :=
  l ← gets klog;
  buf ← bread (u32 (l_dev l)) (u32 (l_start l));
  b ← getbuf buf;
  upd_log (λ l, l <| lh_n := hdr_n (b_data b) |>);;
  read_head_loop (Z.to_nat LOGSIZE) buf 0;;
  brelse buf.

Fixpoint write_head_loop (n : nat) (buf : nat) (i : nat) : K unit :=
  l ← gets klog;
  if negb (Z.of_nat i <? lh_n l) then mret tt else
  match n with
  | O => fault
  | S n' =>
      blk ← log_block i;
      upd_data buf (set_hdr_block i blk);;
      write_head_loop n' buf (S i)
  end.

Definition write_head : K unit :=
  l ← gets klog;
  buf ← bread (u32 (l_dev l)) (u32 (l_start l));
  l ← gets klog;
  upd_data buf (set_hdr_n (lh_n l));;
  write_head_loop (Z.to_nat LOGSIZE) buf 0;;
  bwrite buf;;
  brelse buf.

Definition recover_from_log : K unit :=
  read_head;;
  install_trans;;
  upd_log (λ l, l <| lh_n := 0 |>);;
  write_head.

Definition initlog (dev : Z) : K unit :=
  if BSIZE <=? sizeof_logheader then panic "initlog: too big logheader" else
  sb ← readsb dev;
  upd_log (λ l, l <| l_start := i32 (sb_logstart sb) |>);;
  upd_log (λ l, l <| l_size := i32 (sb_nlog sb) |>);;
  upd_log (λ l, l <| l_dev := dev |>);;
  recover_from_log.

(** [while(1)] of begin_op: [n] bounds how often it is woken. *)
Fixpoint begin_op_loop (n : nat) : K unit :=
  match n with
  | O => nofuel
  | S n' =>
      l ← gets klog;
      if l_committing l then
        sleep ChLog LLog;; begin_op_loop n'
      else if LOGSIZE <? lh_n l + (l_outstanding l + 1) * MAXOPBLOCKS then
        sleep ChLog LLog;; begin_op_loop n'
      else
        upd_log (λ l, l <| l_outstanding ::= λ x, x + 1 |>);;
        release LLog
  end.

Definition begin_op : K unit :=
  acquire LLog;;
  begin_op_loop fuel.

Fixpoint write_log_loop (n : nat) (tail : nat) : K unit :=
  l ← gets klog;
  if negb (Z.of_nat tail <? lh_n l) then mret tt else
  match n with
  | O => fault
  | S n' =>
      to ← bread (u32 (l_dev l)) (u32 (l_start l + Z.of_nat tail + 1));
      l ← gets klog;
      blk ← log_block tail;
      from ← bread (u32 (l_dev l)) (u32 blk);
      b ← getbuf from;
      upd_data to (λ _, b_data b);;
      bwrite to;;
      brelse from;;
      brelse to;;
      write_log_loop n' (S tail)
  end.

Definition write_log : K unit := write_log_loop (Z.to_nat LOGSIZE) 0.

Definition commit : K unit :=
  l ← gets klog;
  when (0 <? lh_n l) (
    write_log;;
    write_head;;
    install_trans;;
    upd_log (λ l, l <| lh_n := 0 |>);;
    write_head).

Definition end_op : K unit :=
  acquire LLog;;
  upd_log (λ l, l <| l_outstanding ::= λ x, x - 1 |>);;
  l ← gets klog;
  if l_committing l then panic "log.committing" else
  do_commit ← (if l_outstanding l =? 0 then
                 upd_log (λ l, l <| l_committing := true |>);; mret true
               else wakeup ChLog;; mret false);
  release LLog;;
  when do_commit (
    commit;;
    acquire LLog;;
    upd_log (λ l, l <| l_committing := false |>);;
    wakeup ChLog;;
    release LLog).

(** The search of log_write: the position of [blockno] in the transaction, or
    [log.lh.n]. *)
Fixpoint log_find (n : nat) (i : nat) (blockno : Z) : K nat :=
  l ← gets klog;
  if negb (Z.of_nat i <? lh_n l) then mret i else
  match n with
  | O => fault
  | S n' =>
      blk ← log_block i;
      if u32 blk =? blockno then mret i else log_find n' (S i) blockno
  end.

Definition log_write (b : nat) : K unit :=
  l ← gets klog;
  if ((LOGSIZE <=? lh_n l) || (l_size l - 1 <=? lh_n l))%bool then panic "too big a transaction" else
  if l_outstanding l <? 1 then panic "log_write outside of trans" else
  acquire LLog;;
  bb ← getbuf b;
  i ← log_find (Z.to_nat LOGSIZE) 0 (b_blockno bb);
  set_log_block i (i32 (b_blockno bb));;
  l ← gets klog;
  when (Z.of_nat i =? lh_n l) (upd_log (λ l, l <| lh_n ::= λ n, n + 1 |>));;
  upd_buf b (set_flag B_DIRTY);;
  release LLog.
End Log.

(** ** Block writes

    [W] lists writes (block number and contents), oldest first. *)

Definition updw (W : list (Z * list Z)) (f : Z → option (list Z)) : Z → option (list Z) :=
  foldl (λ f w b, if decide (b = w.1) then Some w.2 else f b) f W.
Definition replay (W : list (Z * list Z)) (dsk : gmap (Z * Z) (list Z)) : gmap (Z * Z) (list Z) :=
  foldl (λ m w, <[(1, w.1) := w.2]> m) dsk W.
Definition traced (W : list (Z * list Z)) : list (Z * Z * list Z) := (λ w, (1, w.1, w.2)) <$> W.

Lemma updw_app W1 W2 f : updw (W1 ++ W2) f = updw W2 (updw W1 f).
Proof. apply foldl_app. Qed.

Lemma updw_nil f : updw [] f = f.
Proof. done. Qed.

Lemma updw_cons w W f : updw (w :: W) f = updw W (λ b, if decide (b = w.1) then Some w.2 else f b).
Proof. done. Qed.

Lemma updw_ext W f g b : f b = g b → updw W f b = updw W g b.
Proof.
  revert f g. induction W as [|w W IH]; intros f g E; [done|]. rewrite !updw_cons. apply IH. by case_decide.
Qed.

Lemma updw_notin W f b : b ∉ W.*1 → updw W f b = f b.
Proof.
  revert f. induction W as [|w W IH]; intros f Hb; [done|]. rewrite updw_cons. cbn in Hb.
  apply not_elem_of_cons in Hb as [Hb Hb']. rewrite IH by done. by rewrite decide_False.
Qed.

Lemma updw_in W f b d : NoDup W.*1 → (b, d) ∈ W → updw W f b = Some d.
Proof.
  revert f. induction W as [|w W IH]; intros f Hn Hb; [by apply not_elem_of_nil in Hb|].
  cbn in Hn. apply NoDup_cons in Hn as [Hw Hn]. rewrite updw_cons. apply elem_of_cons in Hb as [<-|Hb]; [|by apply IH].
  rewrite updw_notin by done. by rewrite decide_True.
Qed.

Lemma replay_app W1 W2 m : replay (W1 ++ W2) m = replay W2 (replay W1 m).
Proof. apply foldl_app. Qed.

Lemma replay_lookup W m b : replay W m !! (1, b) = updw W (λ b, m !! (1, b)) b.
Proof.
  revert m. induction W as [|w W IH]; intros m; [done|]. rewrite updw_cons. cbn [replay foldl].
  change (replay W (<[(1, w.1):=w.2]> m) !! (1, b) = updw W (λ b, if decide (b = w.1) then Some w.2 else m !! (1, b)) b).
  rewrite IH. apply updw_ext.
  case_decide as E; [subst; by rewrite lookup_insert, decide_True|]. rewrite lookup_insert_ne; [done|congruence].
Qed.

(** The thread wrote [W] to the disk, and nothing else changed. *)
Record wrote (W : list (Z * list Z)) (s s' : kernel) : Prop := {
  wr_frame : bframe s s';
  wr_trace : dtrace s' = dtrace s ++ traced W;
  wr_disk : disk s' = replay W (disk s);
  wr_vw : ∀ b, vw s' b = updw W (vw s) b;
  wr_dirty : ∀ b, bdirty s' b ↔ bdirty s b ∧ b ∉ W.*1
}.

Lemma wrote_trans W1 W2 s1 s2 s3 : wrote W1 s1 s2 → wrote W2 s2 s3 → wrote (W1 ++ W2) s1 s3.
Proof.
  intros [F1 T1 D1 V1 B1] [F2 T2 D2 V2 B2]. split.
  - by etrans.
  - rewrite T2, T1, <- app_assoc. unfold traced. by rewrite fmap_app.
  - by rewrite D2, D1, replay_app.
  - intros b. rewrite V2, updw_app. by apply updw_ext.
  - intros b. rewrite B2, B1, fmap_app, not_elem_of_app. tauto.
Qed.

Lemma wrote_nil s s' :
  bframe s s' → dtrace s' = dtrace s → disk s' = disk s → (∀ b, vw s' b = vw s b) →
  (∀ b, bdirty s' b ↔ bdirty s b) → wrote [] s s'.
Proof.
  intros F T D V B. split; [done|by rewrite T, app_nil_r|done|done|]. intros b. rewrite B. cbn.
  pose proof (not_elem_of_nil b). tauto.
Qed.

Lemma wrote_dk W s s' b : wrote W s s' → dk s' b = updw W (dk s) b.
Proof. intros H. unfold dk. rewrite (wr_disk _ _ _ H). apply replay_lookup. Qed.

Lemma wrote_klog W s s' : wrote W s s' → klog s' = klog s.
Proof. intros H. by apply bframe_field, H. Qed.

(** ** The header block *)

Fixpoint put_blocks (i : nat) (R : list Z) (d : list Z) : list Z :=
  match R with [] => d | b :: R' => put_blocks (S i) R' (set_hdr_block i b d) end.
Definition header (L : list Z) (d : list Z) : list Z := put_blocks 0 L (set_hdr_n (Z.of_nat (length L)) d).

Lemma length_put_blocks R i d : length (put_blocks i R d) = length d.
Proof. revert i d. induction R as [|b R IH]; intros i d; [done|]. cbn [put_blocks]. rewrite IH. apply length_put32. Qed.

Lemma length_header L d : length (header L d) = length d.
Proof. unfold header. rewrite length_put_blocks. apply length_put32. Qed.

Lemma put_blocks_before R i d off : (off + 4 ≤ 4 + 4 * i)%nat → get32 (put_blocks i R d) off = get32 d off.
Proof.
  revert i d. induction R as [|b R IH]; intros i d H; [done|]. cbn [put_blocks]. rewrite IH by lia.
  apply get32_put32_other. lia.
Qed.

Lemma put_blocks_get R : ∀ i d k b,
  R !! k = Some b → (4 + 4 * (i + length R) ≤ length d)%nat →
  get32 (put_blocks i R d) (4 + 4 * (i + k)) = u32 b.
Proof.
  induction R as [|c R IH]; intros i d k b Hk Hd; [done|]. cbn [put_blocks length] in *. destruct k as [|k].
  - injection Hk as ->. rewrite Nat.add_0_r, put_blocks_before by lia. apply get32_put32. lia.
  - replace (i + S k)%nat with (S i + k)%nat by lia. apply IH; [done|]. unfold set_hdr_block. rewrite length_put32. lia.
Qed.

Lemma i32_u32 x : is_i32 x → i32 (u32 x) = x.
Proof.
  intros H. rewrite <- (i32_small x H) at 2. unfold i32, sgn, u32. by rewrite Z.mod_mod by lia.
Qed.

Lemma header_n L d : (length L ≤ Z.to_nat LOGSIZE)%nat → length d = Z.to_nat BSIZE →
  hdr_n (header L d) = Z.of_nat (length L).
Proof.
  intros HL Hd. unfold hdr_n, header. rewrite put_blocks_before by lia. unfold set_hdr_n.
  rewrite get32_put32 by (rewrite Hd; unfold BSIZE; lia). apply i32_u32. unfold is_i32. unfold LOGSIZE, MAXOPBLOCKS in HL. lia.
Qed.

Lemma header_block L d k b : (length L ≤ Z.to_nat LOGSIZE)%nat → length d = Z.to_nat BSIZE → is_i32 b →
  L !! k = Some b → hdr_block k (header L d) = b.
Proof.
  intros HL Hd Hb Hk. unfold hdr_block, header.
  rewrite (put_blocks_get L 0 _ k b Hk); [by apply i32_u32|].
  unfold set_hdr_n. rewrite length_put32, Hd. unfold LOGSIZE, MAXOPBLOCKS, BSIZE in *. lia.
Qed.

(** The contents of a held block were changed in its buffer. *)
Record edited (bno : Z) (d : list Z) (s s' : kernel) : Prop := {
  ed_frame : bframe s s';
  ed_vw : vw s' bno = Some d;
  ed_other : ∀ b, b ≠ bno → vw s' b = vw s b;
  ed_dirty : ∀ b, bdirty s' b ↔ bdirty s b;
  ed_disk : disk s' = disk s;
  ed_trace : dtrace s' = dtrace s
}.

Lemma edited_trans bno d d' s1 s2 s3 : edited bno d s1 s2 → edited bno d' s2 s3 → edited bno d' s1 s3.
Proof.
  intros [F1 V1 O1 B1 D1 T1] [F2 V2 O2 B2 D2 T2]. split; [by etrans|done| | |congruence|congruence].
  - intros b Hb. by rewrite O2, O1.
  - intros b. by rewrite B2, B1.
Qed.

Lemma edited_refl bno d s : vw s bno = Some d → edited bno d s s.
Proof. by split. Qed.

Section Run.
Context {P : Platform} {D : DiskDriver} {SD : SyncDisk D}.

Lemma bread_wrote s hb bno L :
  blk_ok s hb → 0 ≤ bno < nblocks → bno ∉ hb.*2 → bdirty s bno ∨ room s hb L →
  ∃ i s', bread 1 bno s = Ret i s' ∧ blk_ok s' ((i, bno) :: hb) ∧ wrote [] s s'
    ∧ (bdirty s' bno ∨ dk s' bno = vw s' bno).
Proof.
  intros Hok Hr Hn Hroom. destruct (blk_bread _ _ _ _ Hok Hr Hn Hroom) as (i & s' & H1 & H2 & H3 & H4 & H5 & H6 & H7 & H8).
  exists i, s'. split_and!; try done. by apply wrote_nil.
Qed.

Lemma brelse_wrote s hb1 hb2 i bno :
  blk_ok s (hb1 ++ (i, bno) :: hb2) → (bdirty s bno ∨ dk s bno = vw s bno) →
  ∃ s', brelse i s = Ret tt s' ∧ blk_ok s' (hb1 ++ hb2) ∧ wrote [] s s'.
Proof.
  intros Hok Hc. destruct (blk_brelse _ _ _ _ _ Hok Hc) as (s' & H1 & H2 & H3 & H4 & H5 & H6 & H7).
  exists s'. split_and!; try done. by apply wrote_nil.
Qed.

Lemma upd_data_run s hb i bno d f :
  blk_ok s hb → (i, bno) ∈ hb → vw s bno = Some d → length (f d) = length d →
  ∃ s', upd_data i f s = Ret tt s' ∧ blk_ok s' hb ∧ edited bno (f d) s s'.
Proof.
  intros Hok Hi Hd Hl. destruct (held_buf _ _ _ _ Hok Hi) as (b & Hb & _ & _ & _ & Hvw & Hlen).
  rewrite Hd in Hvw. injection Hvw as ->.
  destruct (blk_set s hb i bno (f (b_data b)) (λ b, b <| b_data ::= f |>) Hok Hi) as (H1 & H2 & H3 & H4 & H5 & H6).
  - by rewrite Hl.
  - intros c Hc. rewrite Hb in Hc. by injection Hc as <-.
  - eexists. split_and!; [exact H1|exact H3|]. by split.
Qed.

Lemma bwrite_edited s0 s hb i bno d :
  blk_ok s hb → (i, bno) ∈ hb → 0 ≤ bno < nblocks → edited bno d s0 s →
  ∃ s', bwrite i s = Ret tt s' ∧ blk_ok s' hb ∧ wrote [(bno, d)] s0 s'.
Proof.
  intros Hok Hi Hr [F V O B Dd T]. destruct (blk_bwrite s hb i bno d Hok Hi Hr V) as (s' & H1 & H2 & H3 & H4 & H5 & H6 & H7).
  exists s'. split_and!; [done..|]. split.
  - by etrans.
  - by rewrite H7, T.
  - by rewrite H6, Dd.
  - intros b. rewrite H4. cbn. case_decide as E; [by subst|by apply O].
  - intros b. rewrite H5, B. cbn. rewrite list_elem_of_singleton. tauto.
Qed.

Lemma written_clean W s s' bno d :
  wrote W s s' → NoDup W.*1 → (bno, d) ∈ W → dk s' bno = vw s' bno.
Proof. intros H Hn Hin. rewrite (wrote_dk _ _ _ _ H), (wr_vw _ _ _ H). by rewrite !(updw_in _ _ _ d). Qed.

(** ** The log in memory *)

(** A block outside the log. *)
Definition home (l : log) (b : Z) : Prop := 0 ≤ b < nblocks ∧ ¬ (l_start l ≤ b < l_start l + l_size l).

(** The log is where the super block says, on disk 1. *)
Record log_geo (l : log) : Prop := {
  lg_dev : l_dev l = 1;
  lg_start : 0 ≤ l_start l;
  lg_size : 0 < l_size l;
  lg_end : l_start l + l_size l ≤ nblocks;
  lg_nblocks : nblocks < 2 ^ 31;
  lg_max : l_size l ≤ LOGSIZE;
  lg_len : length (lh_block l) = Z.to_nat LOGSIZE
}.

(** The header lists the home blocks [L]. *)
Record logged (l : log) (L : list Z) : Prop := {
  ld_n : lh_n l = Z.of_nat (length L);
  ld_blocks : take (length L) (lh_block l) = L;
  ld_size : Z.of_nat (length L) < l_size l;
  ld_max : (length L < Z.to_nat LOGSIZE)%nat;
  ld_home : Forall (home l) L;
  ld_nodup : NoDup L
}.

Lemma logged_lookup l L1 b R : log_geo l → logged l (L1 ++ b :: R) → lh_block l !! length L1 = Some b.
Proof.
  intros Hg HL. rewrite <- (lookup_take_lt _ (length (L1 ++ b :: R))).
  - rewrite (ld_blocks _ _ HL). by apply list_lookup_middle.
  - rewrite length_app. cbn. lia.
Qed.

Lemma logged_tail l L1 b R :
  logged l (L1 ++ b :: R) → (Z.of_nat (length L1) <? lh_n l) = true ∧ home l b.
Proof.
  intros HL. split.
  - apply Z.ltb_lt. rewrite (ld_n _ _ HL), length_app. cbn. lia.
  - pose proof (ld_home _ _ HL) as Hh. apply Forall_app in Hh as [_ Hh]. by apply Forall_cons in Hh as [? _].
Qed.

Lemma log_block_run s L1 b R :
  log_geo (klog s) → logged (klog s) (L1 ++ b :: R) → log_block (length L1) s = Ret b s.
Proof. intros Hg HL. unfold log_block. run. by rewrite (logged_lookup _ _ _ _ Hg HL). Qed.

Lemma home_u32 l b : log_geo l → home l b → u32 b = b.
Proof. intros Hg [? _]. apply u32_small. unfold is_u32. pose proof (lg_nblocks _ Hg). lia. Qed.

Lemma home_i32 l b : log_geo l → home l b → is_i32 b.
Proof. intros Hg [? _]. unfold is_i32. pose proof (lg_nblocks _ Hg). lia. Qed.

Lemma log_pos l k : log_geo l → 0 ≤ k < l_size l → u32 (l_start l + k) = l_start l + k ∧ 0 ≤ l_start l + k < nblocks.
Proof.
  intros [? ? ? ? ? ? ?] Hk. split; [|lia]. apply u32_small. unfold is_u32. lia.
Qed.

(** ** Writing the header *)

Lemma write_head_loop_run R : ∀ n L1 s hb x bno d,
  blk_ok s hb → (x, bno) ∈ hb → log_geo (klog s) → logged (klog s) (L1 ++ R) → vw s bno = Some d →
  (length R ≤ n)%nat →
  ∃ s', write_head_loop n x (length L1) s = Ret tt s' ∧ blk_ok s' hb
    ∧ edited bno (put_blocks (length L1) R d) s s'.
Proof.
  induction R as [|b R IH]; intros n L1 s hb x bno d Hok Hx Hg HL Hd Hn.
  - exists s. split_and!; [|done|by apply edited_refl]. destruct n; cbn [write_head_loop]; run;
      rewrite (ld_n _ _ HL), app_nil_r, Z.ltb_irrefl; done.
  - destruct n as [|n]; [cbn in Hn; lia|]. cbn [write_head_loop]. run.
    destruct (logged_tail _ _ _ _ HL) as [-> Hb]. cbn [negb].
    run_by (by eapply log_block_run).
    destruct (upd_data_run s hb x bno d (set_hdr_block (length L1) b) Hok Hx Hd) as (s1 & H1 & Hok1 & He1).
    { apply length_put32. }
    rewrite (bind_run _ _ _ _ _ H1). cbv beta.
    assert (Hk : klog s1 = klog s) by (by apply bframe_field, He1).
    destruct (IH n (L1 ++ [b]) s1 hb x bno (set_hdr_block (length L1) b d)) as (s2 & H2 & Hok2 & He2);
      [done|done|by rewrite Hk| |apply He1|cbn in Hn; lia|].
    { by rewrite Hk, <- app_assoc. }
    rewrite length_app, Nat.add_1_r in H2, He2. exists s2. split_and!; [done|done|]. by eapply edited_trans.
Qed.

Lemma wrote_edited s0 s s' bno d : wrote [] s0 s → edited bno d s s' → edited bno d s0 s'.
Proof.
  intros [F T Dd V B] [F' V' O' B' D' T']. split; [by etrans|done| | |by rewrite D', Dd|].
  - intros b Hb. by rewrite O', V.
  - intros b. rewrite B', B. pose proof (not_elem_of_nil b). tauto.
  - rewrite T', T. apply app_nil_r.
Qed.

Lemma wrote_l W s0 s s' : wrote [] s0 s → wrote W s s' → wrote W s0 s'.
Proof. intros H1 H2. exact (wrote_trans _ _ _ _ _ H1 H2). Qed.
Lemma wrote_r W s0 s s' : wrote W s0 s → wrote [] s s' → wrote W s0 s'.
Proof. intros H1 H2. rewrite <- (app_nil_r W). exact (wrote_trans _ _ _ _ _ H1 H2). Qed.

Lemma clean_wrote s s' b : wrote [] s s' → bdirty s b ∨ dk s b = vw s b → bdirty s' b ∨ dk s' b = vw s' b.
Proof.
  intros H. rewrite (wr_dirty _ _ _ H), (wrote_dk _ _ _ _ H), (wr_vw _ _ _ H). cbn.
  pose proof (not_elem_of_nil b). tauto.
Qed.

Lemma write_head_run s L M :
  blk_ok s [] → log_geo (klog s) → logged (klog s) L → room s [] M →
  ∃ s' d, write_head s = Ret tt s' ∧ blk_ok s' [] ∧ length d = Z.to_nat BSIZE
    ∧ wrote [(l_start (klog s), header L d)] s s'.
Proof.
  intros Hok Hg HL Hroom. unfold write_head. run.
  destruct (log_pos (klog s) 0 Hg) as [Hu Hr]; [pose proof (lg_size _ Hg); lia|].
  rewrite Z.add_0_r in Hu, Hr. rewrite Hu, (lg_dev _ Hg). change (u32 1) with 1.
  set (st := l_start (klog s)) in *.
  destruct (bread_wrote s [] st M Hok Hr) as (x & s1 & H1 & Hok1 & Hw1 & _); [apply not_elem_of_nil|by right|].
  rewrite (bind_run _ _ _ _ _ H1). cbv beta. run. assert (Hk1 := wrote_klog _ _ _ Hw1).
  destruct (blk_some s1 _ st Hok1 Hr) as (d & Hd & Hlen).
  assert (Hx : (x, st) ∈ [(x, st)]) by (by left).
  destruct (upd_data_run s1 _ x st d (set_hdr_n (lh_n (klog s1))) Hok1 Hx Hd) as (s2 & H2 & Hok2 & He2).
  { apply length_put32. }
  rewrite (bind_run _ _ _ _ _ H2). cbv beta.
  assert (Hk2 : klog s2 = klog s) by (rewrite <- Hk1; by apply bframe_field, He2).
  destruct (write_head_loop_run L (Z.to_nat LOGSIZE) [] s2 [(x, st)] x st (set_hdr_n (lh_n (klog s1)) d))
    as (s3 & H3 & Hok3 & He3); [done|done|by rewrite Hk2|by rewrite Hk2|apply He2|pose proof (ld_max _ _ HL); lia|].
  rewrite (bind_run _ _ _ _ _ H3). cbv beta.
  assert (He : edited st (header L d) s s3).
  { eapply wrote_edited; [done|]. eapply edited_trans; [done|]. rewrite Hk1, (ld_n _ _ HL) in He3. exact He3. }
  destruct (bwrite_edited s s3 _ x st _ Hok3 Hx Hr He) as (s4 & H4 & Hok4 & Hw4).
  rewrite (bind_run _ _ _ _ _ H4). cbv beta.
  destruct (brelse_wrote s4 [] [] x st Hok4) as (s5 & H5 & Hok5 & Hw5).
  { right. eapply written_clean; [done|apply NoDup_singleton|by left]. }
  exists s5, d. split_and!; try done. by eapply wrote_r.
Qed.

(** ** Copying blocks to the log *)

Fixpoint log_writes (V : Z → list Z) (pos : Z) (R : list Z) : list (Z * list Z) :=
  match R with [] => [] | b :: R' => (pos, V b) :: log_writes V (pos + 1) R' end.

Lemma log_slot l L1 b R :
  log_geo l → logged l (L1 ++ b :: R) →
  let pos := l_start l + Z.of_nat (length L1) + 1 in
  u32 pos = pos ∧ 0 ≤ pos < nblocks ∧ pos ∉ L1 ++ b :: R ∧ pos ≠ b.
Proof.
  intros Hg HL pos. pose proof (ld_size _ _ HL) as Hs. rewrite length_app in Hs. cbn in Hs.
  destruct (log_pos l (Z.of_nat (length L1) + 1) Hg ltac:(lia)) as [Hu Hr].
  rewrite Z.add_assoc in Hu, Hr. fold pos in Hu, Hr.
  assert (Hnin : pos ∉ L1 ++ b :: R).
  { intros Hin. pose proof (proj1 (Forall_forall _ _) (ld_home _ _ HL) pos Hin) as [_ Hh]. unfold pos in Hh. lia. }
  split_and!; try done; try lia. intros E. apply Hnin. rewrite E. apply elem_of_app. right. by left.
Qed.

(** One round: [x] holds the first block, [y] the second, whose contents it gets. *)
Lemma copy_round s s2 x y a b d (k : K unit) :
  blk_ok s2 [(y, b); (x, a)] → wrote [] s s2 → a ≠ b → 0 ≤ a < nblocks → vw s b = Some d → bdirty s b ∨ dk s b = vw s b →
  ∃ s', (c ← getbuf y; upd_data x (λ _, b_data c);; bwrite x;; brelse y;; brelse x;; k) s2 = k s'
    ∧ blk_ok s' [] ∧ wrote [(a, d)] s s'.
Proof.
  intros Hok Hw Hab Hr Hd Hb. assert (Hx : (x, a) ∈ [(y, b); (x, a)]) by (right; by left).
  destruct (getbuf_held s2 _ y b Hok) as (c & Hc & _ & Hcd & Hcl); [by left|].
  rewrite (bind_run _ _ _ _ _ Hc). cbv beta. rewrite (wr_vw _ _ _ Hw), updw_nil, Hd in Hcd. injection Hcd as ->.
  destruct (blk_some s2 _ a Hok Hr) as (d0 & Hd0 & Hl0).
  destruct (upd_data_run s2 _ x a d0 (λ _, b_data c) Hok Hx Hd0) as (s3 & H3 & Hok3 & He3); [congruence|].
  rewrite (bind_run _ _ _ _ _ H3). cbv beta.
  destruct (bwrite_edited s s3 _ x a (b_data c) Hok3 Hx Hr) as (s4 & H4 & Hok4 & Hw4); [by eapply wrote_edited|].
  rewrite (bind_run _ _ _ _ _ H4). cbv beta.
  destruct (brelse_wrote s4 [] [(x, a)] y b Hok4) as (s5 & H5 & Hok5 & Hw5).
  { rewrite (wr_dirty _ _ _ Hw4), (wrote_dk _ _ _ _ Hw4), (wr_vw _ _ _ Hw4). cbn.
    rewrite list_elem_of_singleton. rewrite !decide_False by done. destruct Hb as [Hb|Hb]; [left|right]; done. }
  rewrite (bind_run _ _ _ _ _ H5). cbv beta.
  destruct (brelse_wrote s5 [] [] x a Hok5) as (s6 & H6 & Hok6 & Hw6).
  { eapply clean_wrote; [done|]. right. eapply written_clean; [done|apply NoDup_singleton|by left]. }
  rewrite (bind_run _ _ _ _ _ H6). cbv beta.
  exists s6. split_and!; try done. eapply wrote_r; [|done]. by eapply wrote_r.
Qed.

Lemma write_log_loop_run V R : ∀ n L1 s,
  blk_ok s [] → log_geo (klog s) → logged (klog s) (L1 ++ R) → (∀ b, bdirty s b ↔ b ∈ L1 ++ R) →
  (∀ b, b ∈ R → vw s b = Some (V b)) → (length R ≤ n)%nat →
  ∃ s', write_log_loop n (length L1) s = Ret tt s' ∧ blk_ok s' []
    ∧ wrote (log_writes V (l_start (klog s) + Z.of_nat (length L1) + 1) R) s s'.
Proof.
  induction R as [|b R IH]; intros n L1 s Hok Hg HL Hdirty HV Hn.
  - exists s. split_and!; [|done|by apply wrote_nil]. destruct n; cbn [write_log_loop]; run;
      rewrite (ld_n _ _ HL), app_nil_r, Z.ltb_irrefl; done.
  - destruct n as [|n]; [cbn in Hn; lia|]. cbn [write_log_loop]. run.
    destruct (logged_tail _ _ _ _ HL) as [-> Hb]. cbn [negb].
    destruct (log_slot _ _ _ _ Hg HL) as (Hu & Hr & Hnin & Hne). rewrite Hu, (lg_dev _ Hg). change (u32 1) with 1.
    set (pos := l_start (klog s) + Z.of_nat (length L1) + 1) in *.
    assert (Hbin : b ∈ L1 ++ b :: R) by (apply elem_of_app; right; by left).
    destruct (bread_wrote s [] pos (L1 ++ b :: R) Hok Hr) as (x & s1 & H1 & Hok1 & Hw1 & _); [apply not_elem_of_nil| |].
    { right. split; [apply Hdirty|]. pose proof (ld_max _ _ HL). unfold NBUF. cbn. fold LOGSIZE. lia. }
    rewrite (bind_run _ _ _ _ _ H1). cbv beta. run. assert (Hk1 := wrote_klog _ _ _ Hw1).
    erewrite bind_run by (apply (log_block_run s1 L1 b R); by rewrite Hk1). cbv beta.
    rewrite Hk1, (lg_dev _ Hg), (home_u32 _ _ Hg Hb). change (u32 1) with 1.
    destruct (bread_wrote s1 [(x, pos)] b [] Hok1 (proj1 Hb)) as (y & s2 & H2 & Hok2 & Hw2 & _).
    { cbn. rewrite list_elem_of_singleton. congruence. }
    { left. apply (wr_dirty _ _ _ Hw1). split; [by apply Hdirty|apply not_elem_of_nil]. }
    rewrite (bind_run _ _ _ _ _ H2). cbv beta.
    destruct (copy_round s s2 x y pos b (V b) (write_log_loop n (S (length L1))) Hok2) as (s3 & H3 & Hok3 & Hw3);
      [by eapply wrote_l|done|done|apply HV; by left|left; by apply Hdirty|].
    assert (Hk3 := wrote_klog _ _ _ Hw3).
    destruct (IH n (L1 ++ [b]) s3) as (s4 & H4 & Hok4 & Hw4).
    + done.
    + by rewrite Hk3.
    + by rewrite Hk3, <- app_assoc.
    + intros c. rewrite (wr_dirty _ _ _ Hw3), Hdirty, <- app_assoc. cbn. rewrite list_elem_of_singleton.
      split; [tauto|]. intros Hc. split; [done|]. intros ->. done.
    + intros c Hc. rewrite (wr_vw _ _ _ Hw3), updw_notin; [apply HV; by right|]. cbn.
      rewrite list_elem_of_singleton. intros ->. apply Hnin, elem_of_app. right. by right.
    + cbn in Hn. lia.
    + exists s4. split; [|split; [done|]].
      * rewrite length_app, Nat.add_1_r in H4. by rewrite H3, H4.
      * cbn [log_writes]. fold pos. eapply (wrote_trans [_]); [done|]. rewrite Hk3, length_app in Hw4. cbn in Hw4.
        replace (pos + 1) with (l_start (klog s) + Z.of_nat (length L1 + 1) + 1) by (unfold pos; lia). done.
Qed.

(** ** Installing the logged blocks *)

Fixpoint inst_writes (C : Z → list Z) (pos : Z) (R : list Z) : list (Z * list Z) :=
  match R with [] => [] | b :: R' => (b, C pos) :: inst_writes C (pos + 1) R' end.

(** One round: [x] holds the log block, [y] the home block. *)
Lemma install_round s s2 x y a b d (k : K unit) :
  blk_ok s2 [(y, b); (x, a)] → wrote [] s s2 → a ≠ b → 0 ≤ b < nblocks → vw s a = Some d →
  (bdirty s2 a ∨ dk s2 a = vw s2 a) →
  ∃ s', (c ← getbuf x; upd_data y (λ _, b_data c);; bwrite y;; brelse x;; brelse y;; k) s2 = k s'
    ∧ blk_ok s' [] ∧ wrote [(b, d)] s s'.
Proof.
  intros Hok Hw Hab Hr Hd Ha. assert (Hx : (x, a) ∈ [(y, b); (x, a)]) by (right; by left).
  assert (Hy : (y, b) ∈ [(y, b); (x, a)]) by (by left).
  destruct (getbuf_held s2 _ x a Hok Hx) as (c & Hc & _ & Hcd & Hcl).
  rewrite (bind_run _ _ _ _ _ Hc). cbv beta.
  pose proof Hcd as Hcd'. rewrite (wr_vw _ _ _ Hw), updw_nil, Hd in Hcd'. injection Hcd' as ->.
  destruct (blk_some s2 _ b Hok Hr) as (d0 & Hd0 & Hl0).
  destruct (upd_data_run s2 _ y b d0 (λ _, b_data c) Hok Hy Hd0) as (s3 & H3 & Hok3 & He3); [congruence|].
  rewrite (bind_run _ _ _ _ _ H3). cbv beta.
  destruct (bwrite_edited s2 s3 _ y b (b_data c) Hok3 Hy Hr He3) as (s4 & H4 & Hok4 & Hw4).
  rewrite (bind_run _ _ _ _ _ H4). cbv beta.
  destruct (brelse_wrote s4 [(y, b)] [] x a Hok4) as (s5 & H5 & Hok5 & Hw5).
  { rewrite (wr_dirty _ _ _ Hw4), (wrote_dk _ _ _ _ Hw4), (wr_vw _ _ _ Hw4). cbn.
    rewrite list_elem_of_singleton. rewrite !decide_False by done. tauto. }
  rewrite (bind_run _ _ _ _ _ H5). cbv beta.
  destruct (brelse_wrote s5 [] [] y b Hok5) as (s6 & H6 & Hok6 & Hw6).
  { eapply clean_wrote; [done|]. right. eapply written_clean; [done|apply NoDup_singleton|by left]. }
  rewrite (bind_run _ _ _ _ _ H6). cbv beta.
  exists s6. split_and!; try done. eapply wrote_r; [|done]. eapply wrote_r; [|done]. by eapply wrote_l.
Qed.

Lemma install_loop_run C M R : ∀ n L1 s,
  blk_ok s [] → log_geo (klog s) → logged (klog s) (L1 ++ R) → room s [] M →
  (∀ b, b ∈ R → bdirty s b) ∨ (length M + 1 < NBUF)%nat →
  (∀ j, 0 ≤ j < Z.of_nat (length R) →
     let pos := l_start (klog s) + Z.of_nat (length L1) + 1 + j in vw s pos = Some (C pos)) →
  (length R ≤ n)%nat →
  ∃ s', install_loop n (length L1) s = Ret tt s' ∧ blk_ok s' []
    ∧ wrote (inst_writes C (l_start (klog s) + Z.of_nat (length L1) + 1) R) s s'.
Proof.
  induction R as [|b R IH]; intros n L1 s Hok Hg HL Hroom Hdirty HC Hn.
  - exists s. split_and!; [|done|by apply wrote_nil]. destruct n; cbn [install_loop]; run;
      rewrite (ld_n _ _ HL), app_nil_r, Z.ltb_irrefl; done.
  - destruct n as [|n]; [cbn in Hn; lia|]. cbn [install_loop]. run.
    destruct (logged_tail _ _ _ _ HL) as [-> Hb]. cbn [negb].
    destruct (log_slot _ _ _ _ Hg HL) as (Hu & Hr & Hnin & Hne). rewrite Hu, (lg_dev _ Hg). change (u32 1) with 1.
    set (pos := l_start (klog s) + Z.of_nat (length L1) + 1) in *.
    assert (Hbin : b ∈ L1 ++ b :: R) by (apply elem_of_app; right; by left).
    destruct (bread_wrote s [] pos M Hok Hr) as (x & s1 & H1 & Hok1 & Hw1 & Hc1); [apply not_elem_of_nil|by right|].
    rewrite (bind_run _ _ _ _ _ H1). cbv beta. run. assert (Hk1 := wrote_klog _ _ _ Hw1).
    erewrite bind_run by (apply (log_block_run s1 L1 b R); by rewrite Hk1). cbv beta.
    rewrite Hk1, (lg_dev _ Hg), (home_u32 _ _ Hg Hb). change (u32 1) with 1.
    destruct (bread_wrote s1 [(x, pos)] b M Hok1 (proj1 Hb)) as (y & s2 & H2 & Hok2 & Hw2 & _).
    { cbn. rewrite list_elem_of_singleton. congruence. }
    { destruct Hdirty as [Hdirty|Hlen]; [left|right].
      - apply (wr_dirty _ _ _ Hw1). split; [apply Hdirty; by left|apply not_elem_of_nil].
      - split; [|done]. intros c [Hc _]%(wr_dirty _ _ _ Hw1). by apply Hroom. }
    rewrite (bind_run _ _ _ _ _ H2). cbv beta.
    destruct (install_round s s2 x y pos b (C pos) (install_loop n (S (length L1))) Hok2) as (s3 & H3 & Hok3 & Hw3);
      [by eapply wrote_l|done|apply Hb| |by eapply clean_wrote|].
    { specialize (HC 0). rewrite Z.add_0_r in HC. apply HC. cbn. lia. }
    assert (Hk3 := wrote_klog _ _ _ Hw3). pose proof (ld_nodup _ _ HL) as Hnd.
    apply NoDup_app in Hnd as (_ & _ & [HbR _]%NoDup_cons).
    destruct (IH n (L1 ++ [b]) s3) as (s4 & H4 & Hok4 & Hw4).
    + done.
    + by rewrite Hk3.
    + by rewrite Hk3, <- app_assoc.
    + split; [|apply Hroom]. intros c [Hc _]%(wr_dirty _ _ _ Hw3). by apply Hroom.
    + destruct Hdirty as [Hdirty|]; [left|by right]. intros c Hc. apply (wr_dirty _ _ _ Hw3).
      split; [apply Hdirty; by right|]. cbn. rewrite list_elem_of_singleton. by intros ->.
    + intros j Hj. cbn zeta. specialize (HC (j + 1)). cbn zeta in HC.
      rewrite Hk3, length_app. cbn [length].
      replace (l_start (klog s) + Z.of_nat (length L1 + 1) + 1 + j) with (pos + (j + 1)) by (unfold pos; lia).
      rewrite (wr_vw _ _ _ Hw3), updw_notin; [apply HC; cbn; lia|]. cbn. rewrite list_elem_of_singleton.
      intros <-. destruct Hb as [_ Hb]. pose proof (ld_size _ _ HL) as Hs. rewrite length_app in Hs. cbn in Hs.
      apply Hb. unfold pos. lia.
    + cbn in Hn. lia.
    + exists s4. split; [|split; [done|]].
      * rewrite length_app, Nat.add_1_r in H4. by rewrite H3, H4.
      * cbn [inst_writes]. fold pos. eapply (wrote_trans [_]); [done|]. rewrite Hk3, length_app in Hw4. cbn in Hw4.
        replace (pos + 1) with (l_start (klog s) + Z.of_nat (length L1 + 1) + 1) by (unfold pos; lia). done.
Qed.

(** ** Committing *)

Lemma blk_ok_klog s hb l : blk_ok s hb → blk_ok (s <| klog := l |>) hb.
Proof. intros [[ord Ho] R N H K B]. split; try done. exists ord. by destruct Ho. Qed.

Lemma wrote_other_klog W s s' l : wrote W (s <| klog := l |>) s' → wrote W s (s' <| klog := klog s |>).
Proof.
  intros [[Hw E] T Dd V B]. split; try done. split; [done|]. sst. rewrite E at 1. by destruct s.
Qed.

Lemma set_klog_twice (s : kernel) a b : s <| klog := a |> <| klog := b |> = s <| klog := b |>.
Proof. done. Qed.

Lemma log_writes_at V R : ∀ pos f j b,
  R !! j = Some b → updw (log_writes V pos R) f (pos + Z.of_nat j) = Some (V b).
Proof.
  assert (Hlt : ∀ R pos x, x ∈ (log_writes V pos R).*1 → pos ≤ x).
  { induction R0 as [|c R0 IH]; intros pos x; cbn; [intros Hx; by apply not_elem_of_nil in Hx|].
    intros [->|Hx]%elem_of_cons; [lia|]. apply IH in Hx. lia. }
  induction R as [|c R IH]; intros pos f j b Hj; [done|]. cbn [log_writes]. rewrite updw_cons. destruct j as [|j].
  - injection Hj as ->. rewrite Z.add_0_r, updw_notin; [by rewrite decide_True|].
    intros Hx%Hlt. lia.
  - replace (pos + Z.of_nat (S j)) with ((pos + 1) + Z.of_nat j) by lia. by apply IH.
Qed.

Lemma log_writes_range V R : ∀ pos x,
  x ∈ (log_writes V pos R).*1 → pos ≤ x < pos + Z.of_nat (length R).
Proof.
  induction R as [|c R IH]; intros pos x; cbn [log_writes fmap list_fmap]; [intros Hx; by apply not_elem_of_nil in Hx|].
  cbn [length fst]. intros [->|Hx]%elem_of_cons; [lia|]. apply IH in Hx. lia.
Qed.

Definition home_writes (V : Z → list Z) (L : list Z) : list (Z * list Z) := (λ b, (b, V b)) <$> L.

Lemma inst_writes_home C V R : ∀ pos,
  (∀ j b, R !! j = Some b → C (pos + Z.of_nat j) = V b) → inst_writes C pos R = home_writes V R.
Proof.
  induction R as [|c R IH]; intros pos H; [done|]. cbn. f_equal.
  - f_equal. rewrite <- (H O c eq_refl). f_equal. lia.
  - apply IH. intros j b Hj. rewrite <- (H (S j) b Hj). f_equal. lia.
Qed.

Lemma inst_writes_ext C C' R : ∀ pos,
  (∀ j, 0 ≤ j < Z.of_nat (length R) → C (pos + j) = C' (pos + j)) → inst_writes C pos R = inst_writes C' pos R.
Proof.
  induction R as [|b R IH]; intros pos H; [done|]. cbn [inst_writes]. f_equal.
  - f_equal. rewrite <- (Z.add_0_r pos). apply H. cbn. lia.
  - apply IH. intros j Hj. rewrite <- Z.add_assoc. apply H. cbn. lia.
Qed.

Lemma inst_writes_fst C R : ∀ pos, (inst_writes C pos R).*1 = R.
Proof. induction R as [|c R IH]; intros pos; [done|]. cbn. by rewrite IH. Qed.

(** The writes of a commit of the blocks [L] with contents [V]. *)
Definition commit_writes (V : Z → list Z) (start : Z) (L : list Z) (h1 h2 : list Z) : list (Z * list Z) :=
  log_writes V (start + 1) L ++ [(start, header L h1)] ++ home_writes V L ++ [(start, header [] h2)].

Lemma home_not_log l b V R : log_geo l → home l b → Z.of_nat (length R) < l_size l →
  b ∉ (log_writes V (l_start l + 1) R).*1 ∧ b ≠ l_start l.
Proof.
  intros Hg [_ Hb] Hs. split; [intros Hx%log_writes_range; lia|]. pose proof (lg_size _ Hg). lia.
Qed.

(** The transaction of the running thread's system call, ready to commit. *)
Record tx_ready (s : kernel) (L : list Z) : Prop := {
  tr_blk : blk_ok s [];
  tr_geo : log_geo (klog s);
  tr_log : logged (klog s) L;
  tr_dirty : ∀ b, bdirty s b ↔ b ∈ L
}.

Definition contents (s : kernel) (b : Z) : list Z := default [] (vw s b).

Lemma contents_home s L b : tx_ready s L → 0 ≤ b < nblocks → vw s b = Some (contents s b).
Proof. intros Ht Hb. destruct (blk_some s [] b (tr_blk _ _ Ht) Hb) as (d & Hd & _). unfold contents. by rewrite Hd. Qed.

Lemma logged_nil l L : log_geo l → logged l L → logged (l <| lh_n := 0 |>) [].
Proof.
  intros Hg HL. split; try done.
  - apply Hg.
  - by vm_compute; lia.
  - constructor.
Qed.

Lemma commit_run s L :
  tx_ready s L → L ≠ [] →
  ∃ s' h1 h2, commit s = Ret tt s' ∧ blk_ok s' [] ∧ klog s' = (klog s) <| lh_n := 0 |>
    ∧ length h1 = Z.to_nat BSIZE ∧ length h2 = Z.to_nat BSIZE
    ∧ wrote (commit_writes (contents s) (l_start (klog s)) L h1 h2) s (s' <| klog := klog s |>).
Proof.
  intros Ht HL. destruct Ht as [Hok Hg Hld Hd] eqn:E. clear E.
  assert (Hlen : (0 < length L)%nat) by (destruct L; [done|cbn; lia]).
  assert (Hmax : (length L < NBUF)%nat) by apply (ld_max _ _ Hld).
  unfold commit. run. rewrite (ld_n _ _ Hld). destruct (Z.ltb_spec 0 (Z.of_nat (length L))) as [_|]; [|lia]. cbn [when].
  set (st := l_start (klog s)). set (V := contents s).
  destruct (write_log_loop_run V L (Z.to_nat LOGSIZE) [] s Hok Hg Hld Hd) as (s1 & H1 & Hok1 & Hw1).
  { intros b Hb. eapply contents_home; [done|]. by apply (proj1 (Forall_forall _ _) (ld_home _ _ Hld)). }
  { pose proof (ld_max _ _ Hld). lia. }
  cbn [length] in H1, Hw1. rewrite Z.add_0_r in Hw1. fold st in Hw1.
  unfold write_log. rewrite (bind_run _ _ _ _ _ H1). cbv beta. assert (Hk1 := wrote_klog _ _ _ Hw1).
  assert (Hd1 : ∀ b, bdirty s1 b ↔ b ∈ L).
  { intros b. rewrite (wr_dirty _ _ _ Hw1), Hd. split; [tauto|]. intros Hb. split; [done|].
    apply (home_not_log (klog s) b V L Hg); [by apply (proj1 (Forall_forall _ _) (ld_home _ _ Hld))|apply Hld]. }
  destruct (write_head_run s1 L L Hok1) as (s2 & h1 & H2 & Hok2 & Hh1 & Hw2); [by rewrite Hk1|by rewrite Hk1| |].
  { split; [apply Hd1|]. cbn. lia. }
  rewrite (bind_run _ _ _ _ _ H2). cbv beta. rewrite Hk1 in Hw2. fold st in Hw2.
  assert (Hk2 : klog s2 = klog s) by (rewrite <- Hk1; eapply wrote_klog; done).
  assert (Hw12 := wrote_trans _ _ _ _ _ Hw1 Hw2).
  set (C := λ x, default [] (vw s2 x)).
  assert (HC : ∀ j b, L !! j = Some b → vw s2 (st + 1 + Z.of_nat j) = Some (V b)).
  { intros j b Hj. rewrite (wr_vw _ _ _ Hw2), updw_notin; [|cbn; rewrite list_elem_of_singleton; lia].
    rewrite (wr_vw _ _ _ Hw1). by apply log_writes_at. }
  destruct (install_loop_run C L L (Z.to_nat LOGSIZE) [] s2 Hok2) as (s3 & H3 & Hok3 & Hw3).
  { by rewrite Hk2. }
  { by rewrite Hk2. }
  { split; [|cbn; lia]. intros b. rewrite (wr_dirty _ _ _ Hw2), Hd1. tauto. }
  { left. intros b Hb. apply (wr_dirty _ _ _ Hw2). split; [by apply Hd1|]. cbn. rewrite list_elem_of_singleton.
    apply (home_not_log (klog s) b V L Hg); [by apply (proj1 (Forall_forall _ _) (ld_home _ _ Hld))|apply Hld]. }
  { intros j Hj. cbn zeta. cbn [length]. rewrite Z.add_0_r, Hk2. fold st. unfold C.
    destruct (lookup_lt_is_Some_2 L (Z.to_nat j)) as [b Hb]; [lia|].
    replace j with (Z.of_nat (Z.to_nat j)) by lia. by rewrite (HC _ b Hb). }
  { pose proof (ld_max _ _ Hld). lia. }
  cbn [length] in H3, Hw3. rewrite Z.add_0_r, Hk2 in Hw3. fold st in Hw3.
  rewrite (inst_writes_home C V) in Hw3 by (intros j b Hj; unfold C; by rewrite (HC j b Hj)).
  unfold install_trans. rewrite (bind_run _ _ _ _ _ H3). cbv beta. unfold upd_log. run.
  assert (Hk3 : klog s3 = klog s) by (rewrite <- Hk2; eapply wrote_klog; done).
  set (s3' := s3 <| klog ::= λ l, l <| lh_n := 0 |> |>).
  assert (Hs3' : s3' = s3 <| klog := (klog s) <| lh_n := 0 |> |>) by (unfold s3'; rewrite <- Hk3; by destruct s3).
  assert (Hd3 : ∀ b, ¬ bdirty s3 b).
  { intros b. rewrite (wr_dirty _ _ _ Hw3), (wr_dirty _ _ _ Hw2), Hd1. unfold home_writes.
    rewrite <- list_fmap_compose. change (fst ∘ λ b, (b, V b)) with (@id Z). rewrite list_fmap_id. tauto. }
  rewrite Hs3'. destruct (write_head_run (s3 <| klog := (klog s) <| lh_n := 0 |> |>) [] []) as (s4 & h2 & H4 & Hok4 & Hh2 & Hw4).
  { by apply blk_ok_klog. }
  { by destruct Hg. }
  { by apply (logged_nil _ L). }
  { split; [|cbn; by vm_compute; lia]. intros b Hb. by apply Hd3 in Hb. }
  change (l_start (klog _)) with st in Hw4.
  exists s4, h1, h2. split_and!; try done.
  - rewrite (wrote_klog _ _ _ Hw4). done.
  - unfold commit_writes. rewrite app_assoc. eapply wrote_trans; [done|]. eapply wrote_trans; [done|].
    rewrite <- Hk3. by eapply wrote_other_klog.
Qed.

(** ** Recovery *)

(** The blocks a header block lists. *)
Definition hdr_list (h : list Z) : list Z := (λ i, hdr_block i h) <$> seq 0 (Z.to_nat (hdr_n h)).

(** A header block that can be recovered from. *)
Record hdr_ok (l : log) (h : list Z) : Prop := {
  ho_n : 0 ≤ hdr_n h;
  ho_size : hdr_n h < l_size l;
  ho_max : hdr_n h < LOGSIZE;
  ho_home : Forall (home l) (hdr_list h);
  ho_nodup : NoDup (hdr_list h)
}.

Lemma length_hdr_list h : length (hdr_list h) = Z.to_nat (hdr_n h).
Proof. unfold hdr_list. by rewrite length_fmap, length_seq. Qed.

Lemma hdr_list_lookup h i : (i < Z.to_nat (hdr_n h))%nat → hdr_list h !! i = Some (hdr_block i h).
Proof. intros H. unfold hdr_list. by rewrite list_lookup_fmap, lookup_seq_lt. Qed.

Lemma read_head_loop_run h x bno hb : ∀ k n i s,
  blk_ok s hb → (x, bno) ∈ hb → vw s bno = Some h → length (lh_block (klog s)) = Z.to_nat LOGSIZE →
  lh_n (klog s) = hdr_n h → 0 ≤ hdr_n h ≤ LOGSIZE → Z.to_nat (hdr_n h) = (i + k)%nat → (k ≤ n)%nat →
  take i (lh_block (klog s)) = take i (hdr_list h) →
  ∃ B, read_head_loop n x i s = Ret tt (s <| klog := (klog s) <| lh_block := B |> |>)
    ∧ length B = Z.to_nat LOGSIZE ∧ take (i + k) B = hdr_list h.
Proof.
  induction k as [|k IH]; intros n i s Hok Hx Hv Hl Hn Hr Hik Hkn Ht.
  - exists (lh_block (klog s)). rewrite Nat.add_0_r in *. split_and!; [|done|].
    + destruct n; cbn [read_head_loop]; run; rewrite Hn; (destruct (Z.ltb_spec (Z.of_nat i) (hdr_n h)); [lia|]);
        cbn [negb]; unfold mret, M_ret; destruct s as [a b c d e f g h' j k' l' m n' o p q r t u v]; destruct v; done.
    + rewrite Ht. apply take_ge. rewrite length_hdr_list. lia.
  - destruct n as [|n]; [lia|]. cbn [read_head_loop]. run. rewrite Hn.
    destruct (Z.ltb_spec (Z.of_nat i) (hdr_n h)) as [Hi|]; [|lia]. cbn [negb].
    destruct (getbuf_held s hb x bno Hok Hx) as (b & Hb & _ & Hbv & _). rewrite Hv in Hbv. injection Hbv as ->.
    rewrite (bind_run _ _ _ _ _ Hb). cbv beta.
    assert (Hil : (i < length (lh_block (klog s)))%nat) by (rewrite Hl; lia).
    set (blk := hdr_block i (b_data b)) in *.
    set (s1 := s <| klog := (klog s) <| lh_block := <[i := blk]> (lh_block (klog s)) |> |>).
    assert (Hset : set_log_block i blk s = Ret tt s1).
    { unfold set_log_block. run. destruct (Nat.ltb_spec i (length (lh_block (klog s)))); [|lia]. unfold upd_log, modify.
      done. }
    rewrite (bind_run _ _ _ _ _ Hset). cbv beta.
    destruct (IH n (S i) s1) as (B & HB & HBl & HBt); try done.
    + by apply blk_ok_klog.
    + unfold s1. sst. by rewrite length_insert.
    + lia.
    + lia.
    + unfold s1. sst. erewrite take_S_r by (apply list_lookup_insert_eq; done).
      rewrite take_insert_ge by lia. rewrite Ht. symmetry. apply take_S_r. apply hdr_list_lookup. lia.
    + exists B. split_and!; [|done|by rewrite <- Nat.add_succ_comm]. rewrite HB. f_equal.
Qed.

(** What recovery makes of a disk: the logged blocks in their home places. *)
Definition recovered (start : Z) (dsk : Z → option (list Z)) : Z → option (list Z) :=
  updw (inst_writes (λ p, default [] (dsk p)) (start + 1) (hdr_list (default [] (dsk start)))) dsk.

Definition recovery_writes (start : Z) (dsk : Z → option (list Z)) (h2 : list Z) : list (Z * list Z) :=
  inst_writes (λ p, default [] (dsk p)) (start + 1) (hdr_list (default [] (dsk start))) ++ [(start, header [] h2)].

(** Reading the header takes the block list of [log.lh] from the disk. *)
Lemma read_head_run s h :
  blk_ok s [] → log_geo (klog s) → (∀ b, ¬ bdirty s b) → dk s (l_start (klog s)) = Some h → hdr_ok (klog s) h →
  ∃ s' B, read_head s = Ret tt s' ∧ blk_ok s' [] ∧ klog s' = (klog s) <| lh_n := hdr_n h |> <| lh_block := B |>
    ∧ log_geo (klog s') ∧ logged (klog s') (hdr_list h) ∧ wrote [] s (s' <| klog := klog s |>).
Proof.
  intros Hok Hg Hnd Hh [Hn0 Hns Hnm Hhome Hhnd]. set (st := l_start (klog s)) in *.
  destruct (log_pos (klog s) 0 Hg) as [Hu Hr]; [pose proof (lg_size _ Hg); lia|].
  rewrite Z.add_0_r in Hu, Hr. fold st in Hu, Hr.
  destruct (bread_wrote s [] st [] Hok Hr) as (x & s1 & H1 & Hok1 & Hw1 & Hc1); [apply not_elem_of_nil| |].
  { right. split; [|cbn; by vm_compute; lia]. intros b Hb. by apply Hnd in Hb. }
  assert (Hk1 := wrote_klog _ _ _ Hw1). assert (Hx : (x, st) ∈ [(x, st)]) by (by left).
  assert (Hvh : vw s1 st = Some h).
  { rewrite (wr_vw _ _ _ Hw1), updw_nil, <- Hh. eapply blk_clean; [done|apply not_elem_of_nil|apply Hnd]. }
  destruct (getbuf_held s1 _ x st Hok1 Hx) as (b & Hb & _ & Hbv & _). rewrite Hvh in Hbv. injection Hbv as ->.
  set (h := b_data b) in *.
  set (s2 := s1 <| klog := (klog s) <| lh_n := hdr_n h |> |>).
  assert (Hok2 : blk_ok s2 [(x, st)]) by (by apply blk_ok_klog).
  destruct (read_head_loop_run h x st [(x, st)] (Z.to_nat (hdr_n h)) (Z.to_nat LOGSIZE) 0 s2) as (B & HB & HBl & HBt);
    try done; [apply Hg|lia|lia|]. cbn [Nat.add] in HBt.
  set (lB := (klog s) <| lh_n := hdr_n h |> <| lh_block := B |>).
  destruct (brelse_wrote (s1 <| klog := lB |>) [] [] x st) as (s4 & H4 & Hok4 & Hw4); [by apply blk_ok_klog|exact Hc1|].
  assert (Hk4 : klog s4 = lB) by (apply (wrote_klog _ _ _ Hw4)).
  exists s4, B. split_and!; rewrite ?Hk4; try done.
  - unfold read_head. run. fold st. rewrite Hu, (lg_dev _ Hg). change (u32 1) with 1.
    rewrite (bind_run _ _ _ _ _ H1). cbv beta. rewrite (bind_run _ _ _ _ _ Hb). cbv beta. unfold upd_log. run.
    replace (s1 <| klog ::= λ l, l <| lh_n := hdr_n (b_data b) |> |>) with s2 by (unfold s2; rewrite <- Hk1; by destruct s1).
    rewrite (bind_run _ _ _ _ _ HB). cbv beta. rewrite <- H4. f_equal.
  - destruct Hg; by split.
  - split; rewrite ?length_hdr_list; try done; unfold lB; sst; try lia; done.
  - eapply wrote_l; [exact Hw1|]. rewrite <- Hk1. by eapply wrote_other_klog.
Qed.

Lemma recover_run s h :
  blk_ok s [] → log_geo (klog s) → (∀ b, ¬ bdirty s b) → dk s (l_start (klog s)) = Some h → hdr_ok (klog s) h →
  ∃ s' l' h2, recover_from_log s = Ret tt s' ∧ blk_ok s' [] ∧ log_geo (klog s') ∧ logged (klog s') []
    ∧ l' = klog s' ∧ l_start l' = l_start (klog s) ∧ l_size l' = l_size (klog s)
    ∧ l_outstanding l' = l_outstanding (klog s) ∧ l_committing l' = l_committing (klog s)
    ∧ length h2 = Z.to_nat BSIZE
    ∧ wrote (recovery_writes (l_start (klog s)) (dk s) h2) s (s' <| klog := klog s |>).
Proof.
  intros Hok Hg Hnd Hh Hhd. destruct (read_head_run s h Hok Hg Hnd Hh Hhd) as (s4 & B & Hrh & Hok4 & Hk4 & HgB & HldB & Hw04).
  unfold recover_from_log. rewrite (bind_run _ _ _ _ _ Hrh). cbv beta. rewrite Hk4 in HgB, HldB.
  set (st := l_start (klog s)) in *. set (lB := (klog s) <| lh_n := hdr_n h |> <| lh_block := B |>) in *.
  set (L := hdr_list h) in *. assert (HLs : Z.of_nat (length L) < l_size (klog s)) by exact (ld_size _ _ HldB).
  assert (Hvs : ∀ b, vw s b = dk s b) by (intros b; eapply blk_clean; [done|apply not_elem_of_nil|apply Hnd]).
  assert (Hd4 : ∀ b, ¬ bdirty s4 b).
  { intros c Hc. apply (Hnd c). by apply (wr_dirty _ _ _ Hw04) in Hc as [? _]. }
  destruct (install_loop_run (λ p, default [] (dk s p)) [] L (Z.to_nat LOGSIZE) [] s4) as (s5 & H5 & Hok5 & Hw5);
    rewrite ?Hk4; try done.
  { split; [|cbn; by vm_compute; lia]. intros c Hc. by apply Hd4 in Hc. }
  { right. cbn. by vm_compute; lia. }
  { intros j Hj. cbn zeta. cbn [length]. rewrite Z.add_0_r. change (l_start lB) with st.
    change (vw s4) with (vw (s4 <| klog := klog s |>)). rewrite (wr_vw _ _ _ Hw04), updw_nil, Hvs.
    destruct (bk_disk _ _ Hok (st + 1 + j)) as (d & -> & _); [|done]. pose proof (lg_end _ Hg). pose proof (lg_start _ Hg). unfold st in *. lia. }
  { pose proof (ld_max _ _ HldB). lia. }
  unfold install_trans. rewrite (bind_run _ _ _ _ _ H5). cbv beta. unfold upd_log. run.
  cbn [length] in Hw5. rewrite Z.add_0_r, Hk4 in Hw5. change (l_start lB) with st in Hw5.
  assert (Hk5 : klog s5 = lB) by (rewrite <- Hk4; eapply wrote_klog; done).
  replace (s5 <| klog ::= λ l, l <| lh_n := 0 |> |>) with (s5 <| klog := lB <| lh_n := 0 |> |>) by (rewrite <- Hk5; by destruct s5).
  destruct (write_head_run (s5 <| klog := lB <| lh_n := 0 |> |>) [] []) as (s6 & h2 & H6 & Hok6 & Hh2 & Hw6).
  { by apply blk_ok_klog. }
  { by destruct HgB. }
  { by apply (logged_nil _ L). }
  { split; [|cbn; by vm_compute; lia]. intros c Hc. by apply (wr_dirty _ _ _ Hw5) in Hc as [?%Hd4 _]. }
  change (l_start (klog (s5 <| klog := lB <| lh_n := 0 |> |>))) with st in Hw6.
  assert (Hk6 : klog s6 = lB <| lh_n := 0 |>) by (apply (wrote_klog _ _ _ Hw6)).
  exists s6, (klog s6), h2. split_and!; rewrite ?Hk6; try done.
  - by destruct HgB.
  - by apply (logged_nil _ L).
  - unfold recovery_writes. rewrite Hh. cbn [default from_option]. fold L.
    assert (Hw56 := wrote_trans _ _ _ _ _ Hw5 (wrote_other_klog _ _ _ _ Hw6)).
    eapply wrote_l; [exact Hw04|].
    replace (s6 <| klog := klog s |>) with ((s6 <| klog := klog s5 |>) <| klog := klog (s4 <| klog := klog s |>) |>) by done.
    eapply (wrote_other_klog _ _ _ (klog s4)).
    replace ((s4 <| klog := klog s |>) <| klog := klog s4 |>) with s4 by (by destruct s4). done.
Qed.

Lemma readsb_run s d M :
  blk_ok s [] → vw s 1 = Some d → 1 < nblocks → room s [] M →
  ∃ s', readsb 1 s = Ret (superblock_of d) s' ∧ blk_ok s' [] ∧ wrote [] s s'.
Proof.
  intros Hok Hd Hn Hroom. unfold readsb.
  destruct (bread_wrote s [] 1 M Hok) as (x & s1 & H1 & Hok1 & Hw1 & Hc1); [lia|apply not_elem_of_nil|by right|].
  rewrite (bind_run _ _ _ _ _ H1). cbv beta.
  destruct (getbuf_held s1 _ x 1 Hok1) as (b & Hb & _ & Hbv & _); [by left|].
  rewrite (wr_vw _ _ _ Hw1), updw_nil, Hd in Hbv. injection Hbv as ->.
  rewrite (bind_run _ _ _ _ _ Hb). cbv beta.
  destruct (brelse_wrote s1 [] [] x 1 Hok1 Hc1) as (s2 & H2 & Hok2 & Hw2).
  rewrite (bind_run _ _ _ _ _ H2). cbv beta. exists s2. split_and!; try done. by eapply wrote_l.
Qed.

(** ** Disks with a log *)

(** [log] as initlog sets it up. *)
Definition log_at (start size : Z) : log :=
  log_zero <| l_start := start |> <| l_size := size |> <| l_dev := 1 |>.

(** A disk, as a function from block numbers, with a log at [start]. *)
Record log_disk (start size : Z) (dsk : Z → option (list Z)) : Prop := {
  lk_sb : ∃ d, dsk 1 = Some d ∧ sb_logstart (superblock_of d) = start ∧ sb_nlog (superblock_of d) = size;
  lk_sb_home : home (log_at start size) 1;
  lk_geo : log_geo (log_at start size);
  lk_hdr : ∃ h, dsk start = Some h ∧ hdr_ok (log_at start size) h
}.

(** The kernel when initlog is called: nothing cached, no log. *)
Record booted (s : kernel) : Prop := {
  bt_cache : bcache s = fresh_cache;
  bt_run : running s;
  bt_log : klog s = log_zero
}.

Lemma initlog_run s start size :
  booted s → disk_ok (disk s) → log_disk start size (dk s) →
  ∃ s' h2, initlog 1 s = Ret tt s' ∧ blk_ok s' [] ∧ log_geo (klog s') ∧ logged (klog s') []
    ∧ l_start (klog s') = start ∧ l_size (klog s') = size ∧ l_outstanding (klog s') = 0
    ∧ l_committing (klog s') = false ∧ length h2 = Z.to_nat BSIZE
    ∧ wrote (recovery_writes start (dk s) h2) s (s' <| klog := klog s |>) ∧ (∀ b, ¬ bdirty s' b).
Proof.
  intros [Hc Hrun Hk] Hdk [(d & Hd & Hst & Hsz) Hh1 Hg (h & Hh & Hho)].
  assert (Hok : blk_ok s []) by (by apply fresh_blk_ok). assert (Hnd : ∀ b, ¬ bdirty s b) by (intros b; by apply fresh_clean).
  assert (Hv : ∀ b, vw s b = dk s b) by (intros b; by apply fresh_view). unfold initlog.
  replace (BSIZE <=? sizeof_logheader) with false by (by vm_compute).
  destruct (readsb_run s d [] Hok) as (s1 & H1 & Hok1 & Hw1); [by rewrite Hv|destruct Hh1 as [? _]; lia| |].
  { split; [|cbn; by vm_compute; lia]. intros b Hb. by apply Hnd in Hb. }
  rewrite (bind_run _ _ _ _ _ H1). cbv beta. unfold upd_log. run. run. run.
  assert (Hk1 : klog s1 = log_zero) by (by rewrite (wrote_klog _ _ _ Hw1)).
  rewrite Hst, Hsz.
  assert (Hi1 : i32 start = start).
  { apply i32_small. destruct Hg as [_ Hs Hz He Hn _ _]. change (l_start (log_at start size)) with start in *.
    change (l_size (log_at start size)) with size in *. unfold is_i32. lia. }
  assert (Hi2 : i32 size = size).
  { apply i32_small. destruct Hg as [_ Hs Hz He Hn _ _]. change (l_start (log_at start size)) with start in *.
    change (l_size (log_at start size)) with size in *. unfold is_i32. lia. }
  rewrite Hi1, Hi2. match goal with |- context [recover_from_log ?x] => replace x with (s1 <| klog := log_at start size |>) end.
  2:{ unfold log_at. rewrite <- Hk1. by destruct s1. }
  set (s2 := s1 <| klog := log_at start size |>).
  assert (Hnd2 : ∀ b, ¬ bdirty s2 b).
  { intros b Hb. apply (Hnd b). apply (wr_dirty _ _ _ Hw1 b). exact Hb. }
  assert (Hdk2 : ∀ b, dk s2 b = dk s b).
  { intros b. change (dk s2 b) with (dk s1 b). by rewrite (wrote_dk _ _ _ _ Hw1). }
  destruct (recover_run s2 h) as (s' & l' & h2 & H2 & Hok2 & Hg2 & Hld2 & -> & E1 & E2 & E3 & E4 & Hh2 & Hw2); try done.
  { by apply blk_ok_klog. }
  { by rewrite Hdk2. }
  exists s', h2. split_and!; try done.
  - change (l_start (klog s2)) with start in Hw2.
    assert (Hww : wrote (recovery_writes start (dk s2) h2) s (s' <| klog := klog s |>)).
    { eapply wrote_l; [exact Hw1|]. rewrite <- (wrote_klog _ _ _ Hw1).
      rewrite <- (set_klog_twice s' (klog s2)). eapply wrote_other_klog. exact Hw2. }
    unfold recovery_writes in *. rewrite Hdk2 in Hww.
    erewrite inst_writes_ext; [exact Hww|]. intros j _. by rewrite <- Hdk2.
  - intros b Hb. apply (wr_dirty _ _ _ Hw2 b) in Hb as [Hb _]. by apply Hnd2 in Hb.
Qed.

(** ** What a crash leaves *)

Lemma inst_writes_at C R : ∀ pos f j b,
  NoDup R → R !! j = Some b → updw (inst_writes C pos R) f b = Some (C (pos + Z.of_nat j)).
Proof.
  induction R as [|c R IH]; intros pos f j b Hn Hj; [done|]. apply NoDup_cons in Hn as [Hc Hn].
  cbn [inst_writes]. rewrite updw_cons. destruct j as [|j].
  - injection Hj as ->. rewrite updw_notin by (by rewrite inst_writes_fst). rewrite decide_True by done. cbn.
    by rewrite Z.add_0_r.
  - replace (pos + Z.of_nat (S j)) with (pos + 1 + Z.of_nat j) by lia. by apply IH.
Qed.

(** No logged block: recovery changes nothing. *)
Lemma recovered_empty start dsk h b : dsk start = Some h → hdr_n h = 0 → recovered start dsk b = dsk b.
Proof. intros Hh Hn. unfold recovered, hdr_list. rewrite Hh. change (default [] (Some h)) with h. by rewrite Hn. Qed.

(** A valid header: the logged blocks come from the log. *)
Lemma recovered_logged start dsk h L V b :
  dsk start = Some h → hdr_list h = L → NoDup L → (∀ j c, L !! j = Some c → dsk (start + 1 + Z.of_nat j) = Some (V c)) →
  recovered start dsk b = if decide (b ∈ L) then Some (V b) else dsk b.
Proof.
  intros Hh HL Hn HV. unfold recovered. rewrite Hh. change (default [] (Some h)) with h. rewrite HL. case_decide as Hb.
  - apply list_elem_of_lookup in Hb as [j Hj]. rewrite (inst_writes_at _ L (start + 1) _ j b Hn Hj).
    by rewrite (HV j b Hj).
  - apply updw_notin. by rewrite inst_writes_fst.
Qed.

Lemma header_list l L d :
  log_geo l → Forall (home l) L → (length L ≤ Z.to_nat LOGSIZE)%nat → length d = Z.to_nat BSIZE →
  hdr_list (header L d) = L.
Proof.
  intros Hg HL Hlen Hd. unfold hdr_list. rewrite header_n by done. rewrite Nat2Z.id. apply list_eq. intros k.
  rewrite list_lookup_fmap. destruct (L !! k) as [b|] eqn:E.
  - rewrite lookup_seq_lt by (by eapply lookup_lt_Some). cbn. f_equal. eapply header_block; try done.
    eapply home_i32; [done|]. by eapply (Forall_lookup_1 _ _ _ _ HL).
  - rewrite lookup_seq_ge; [done|]. by apply lookup_ge_None.
Qed.

Lemma header_ok l L d :
  log_geo l → logged l L → length d = Z.to_nat BSIZE → hdr_ok l (header L d) ∧ hdr_list (header L d) = L.
Proof.
  intros Hg HL Hd. pose proof (ld_max _ _ HL). pose proof (ld_size _ _ HL).
  assert (E : hdr_list (header L d) = L) by (apply (header_list l); [done|apply HL|lia|done]).
  split; [|done]. split; rewrite ?E, ?header_n by (done || lia); [lia|lia| |apply HL..].
  unfold LOGSIZE, MAXOPBLOCKS in *. lia.
Qed.

Lemma home_writes_fst V L : (home_writes V L).*1 = L.
Proof. unfold home_writes. rewrite <- list_fmap_compose. apply list_fmap_id. Qed.

Lemma home_writes_upd V L f b : NoDup L → updw (home_writes V L) f b = if decide (b ∈ L) then Some (V b) else f b.
Proof.
  intros Hn. case_decide as Hb; [|apply updw_notin; by rewrite home_writes_fst].
  apply updw_in; [by rewrite home_writes_fst|]. apply list_elem_of_fmap. eauto.
Qed.

Lemma hdr_ok_empty l h : log_geo l → hdr_n h = 0 → hdr_ok l h.
Proof.
  intros Hg Hn. split; unfold hdr_list; rewrite ?Hn; [done|apply Hg|by vm_compute|constructor|constructor].
Qed.

(** After the header is written, whatever part of the home writes is done. *)
Lemma commit_mid l L V h1 k k2 dsk :
  log_geo l → logged l L → length h1 = Z.to_nat BSIZE → home_writes V L = k ++ k2 →
  let st := l_start l in
  let dsk' := updw (log_writes V (st + 1) L ++ (st, header L h1) :: k) dsk in
  (∃ h, dsk' st = Some h ∧ hdr_ok l h) ∧ ∀ b, home l b → recovered st dsk' b = updw (home_writes V L) dsk b.
Proof.
  intros Hg HL Hh1 Hk st dsk'. destruct (header_ok l L h1 Hg HL Hh1) as [Hho Hhl].
  assert (Hkh : ∀ b, b ∈ k.*1 → b ∈ L).
  { intros b Hb. rewrite <- (home_writes_fst V L), Hk, fmap_app. apply elem_of_app. by left. }
  assert (HLh : ∀ b, b ∈ L → home l b) by apply (proj1 (Forall_forall _ _) (ld_home _ _ HL)).
  pose proof (ld_size _ _ HL). pose proof (lg_size _ Hg).
  assert (Hst : dsk' st = Some (header L h1)).
  { unfold dsk'. rewrite updw_app, updw_cons, updw_notin; [by rewrite decide_True|].
    intros [_ Hb]%Hkh%HLh. unfold st in *. lia. }
  split; [by exists (header L h1)|]. intros b Hb.
  rewrite (recovered_logged st dsk' (header L h1) L V b Hst Hhl (ld_nodup _ _ HL)).
  - rewrite home_writes_upd by apply HL. case_decide as HbL; [done|]. unfold dsk'.
    destruct (home_not_log l b V L Hg Hb ltac:(lia)) as [Hn1 Hn2].
    rewrite updw_app, updw_cons, updw_notin by (intros ?%Hkh; done). rewrite decide_False by done.
    by rewrite updw_notin.
  - intros j c Hj. unfold dsk'. rewrite updw_app, updw_cons, updw_notin.
    + cbn [fst snd]. rewrite decide_False by lia. by apply log_writes_at.
    + apply lookup_lt_Some in Hj. intros [_ Hx]%Hkh%HLh. unfold st in *. lia.
Qed.

(** Any prefix of the writes of a commit leaves a disk from which recovery
    makes the old contents or the new. *)
Lemma commit_prefix l L V h0 h1 h2 W1 W2 dsk :
  log_geo l → logged l L → length h1 = Z.to_nat BSIZE → length h2 = Z.to_nat BSIZE →
  dsk (l_start l) = Some h0 → hdr_n h0 = 0 → commit_writes V (l_start l) L h1 h2 = W1 ++ W2 →
  let st := l_start l in
  let dsk' := updw W1 dsk in
  (∃ h, dsk' st = Some h ∧ hdr_ok l h)
  ∧ ((∀ b, home l b → recovered st dsk' b = dsk b) ∧ W2 ≠ []
     ∨ (∀ b, home l b → recovered st dsk' b = updw (home_writes V L) dsk b)).
Proof.
  intros Hg HL Hh1 Hh2 Hh0 Hn0 HW st. fold st in Hh0, HW. pose proof (ld_size _ _ HL). pose proof (lg_size _ Hg).
  assert (Hold : ∀ k k2, log_writes V (st + 1) L = k ++ k2 → (∃ h, updw k dsk st = Some h ∧ hdr_ok l h)
                  ∧ ∀ b, home l b → recovered st (updw k dsk) b = dsk b).
  { intros k k2 Hk.
    assert (Hkx : ∀ b, b ∈ k.*1 → b ∈ (log_writes V (st + 1) L).*1).
    { intros b Hb. rewrite Hk, fmap_app. apply elem_of_app. by left. }
    assert (Hst : updw k dsk st = Some h0).
    { rewrite updw_notin; [done|]. intros Hx%Hkx%log_writes_range. lia. }
    split.
    - exists h0. split; [done|]. by apply hdr_ok_empty.
    - intros b Hb. rewrite (recovered_empty _ _ h0) by done. apply updw_notin. intros Hx%Hkx.
      destruct (home_not_log l b V L Hg Hb ltac:(lia)) as [Hn1 _]. done. }
  cbn zeta. unfold commit_writes in HW. apply app_eq_inv in HW as [(k & Hk & ->)|(k & Hk & HW)].
  - destruct (Hold W1 k Hk) as [H1 H2]. split; [done|]. left. split; [done|]. by destruct k.
  - destruct k as [|w k].
    { rewrite app_nil_r in Hk. subst W1. destruct (Hold _ [] (eq_sym (app_nil_r _))) as [H1 H2].
      split; [done|]. left. split; [done|]. cbn in HW. rewrite <- HW. done. }
    cbn in HW. injection HW as <- HW. apply app_eq_inv in HW as [(k2 & Hh & ->)|(k2 & -> & HW)].
    { subst W1. destruct (commit_mid l L V h1 k k2 dsk Hg HL Hh1 Hh) as [H1 H2]. split; [done|]. by right. }
    destruct k2 as [|w k2].
    { subst W1. rewrite app_nil_r. destruct (commit_mid l L V h1 _ [] dsk Hg HL Hh1 (eq_sym (app_nil_r _))) as [H1 H2].
      split; [done|]. by right. }
    cbn in HW. injection HW as <- HW. destruct k2; [|done]. cbn in HW. subst W1 W2.
    assert (Hn2 : hdr_n (header [] h2) = 0) by (by rewrite header_n by (cbn; lia)).
    assert (Hst : updw (log_writes V (st + 1) L ++ (st, header L h1) :: home_writes V L ++ [(st, header [] h2)]) dsk st
                  = Some (header [] h2)).
    { rewrite app_comm_cons, app_assoc, updw_app. cbn. by rewrite decide_True. }
    split.
    { exists (header [] h2). split; [done|]. by apply hdr_ok_empty. }
    right. intros b Hb. rewrite (recovered_empty _ _ (header [] h2)) by done.
    destruct (home_not_log l b V L Hg Hb ltac:(lia)) as [Hn1 Hn3].
    rewrite app_comm_cons, app_assoc, updw_app. cbn. rewrite decide_False by done.
    rewrite updw_app, updw_cons. rewrite !home_writes_upd by apply HL. case_decide; [done|].
    cbn. rewrite decide_False by done. by apply updw_notin.
Qed.

Lemma recovered_ext start f g b : (∀ x, f x = g x) → recovered start f b = recovered start g b.
Proof.
  intros H. unfold recovered. rewrite H. erewrite inst_writes_ext; [by apply updw_ext|]. intros j _. cbn. by rewrite H.
Qed.

Lemma home_ext l l' b : l_start l = l_start l' → l_size l = l_size l' → home l b ↔ home l' b.
Proof. intros E1 E2. unfold home. by rewrite E1, E2. Qed.

Lemma hdr_ok_ext l l' h : l_start l = l_start l' → l_size l = l_size l' → hdr_ok l h → hdr_ok l' h.
Proof.
  intros E1 E2 [H1 H2 H3 H4 H5]. split; try done; [by rewrite <- E2|].
  eapply Forall_impl; [done|]. intros b. by apply home_ext.
Qed.

Lemma disk_ok_replay W dsk :
  disk_ok dsk → Forall (λ w, length w.2 = Z.to_nat BSIZE) W → disk_ok (replay W dsk).
Proof.
  revert dsk. induction W as [|w W IH]; intros dsk Hd HW; [done|]. apply Forall_cons in HW as [Hw HW].
  cbn. apply IH; [|done]. intros b Hb. destruct (decide (b = w.1)) as [->|Hne].
  - rewrite lookup_insert, decide_True by done. eauto.
  - rewrite lookup_insert_ne by congruence. by apply Hd.
Qed.

Lemma commit_writes_length V start L h1 h2 :
  (∀ b, b ∈ L → length (V b) = Z.to_nat BSIZE) → length h1 = Z.to_nat BSIZE → length h2 = Z.to_nat BSIZE →
  Forall (λ w, length w.2 = Z.to_nat BSIZE) (commit_writes V start L h1 h2).
Proof.
  intros HV H1 H2. unfold commit_writes. rewrite !Forall_app, !Forall_singleton. cbn [snd].
  rewrite !length_header. split_and!; try done.
  - generalize (start + 1). induction L as [|b L IH]; intros pos; [constructor|]. constructor.
    + apply HV. by left.
    + apply IH. intros c Hc. apply HV. by right.
  - apply Forall_fmap, Forall_forall. intros b Hb. by apply HV.
Qed.

Lemma commit_writes_fst V start L h1 h2 b :
  b ∈ (commit_writes V start L h1 h2).*1 → (start ≤ b ≤ start + Z.of_nat (length L)) ∨ b ∈ L.
Proof.
  unfold commit_writes. rewrite !fmap_app, !elem_of_app, home_writes_fst. cbn. rewrite list_elem_of_singleton.
  intros [H%log_writes_range|[ -> |[H| ->]]]; [left; lia|left; lia|by right|left; lia].
Qed.

Lemma traced_inj W W' : traced W = traced W' → W = W'.
Proof.
  revert W'. induction W as [|[b d] W IH]; intros [|[b' d'] W']; cbn; try done. intros [= -> -> H]. f_equal. by apply IH.
Qed.

(** What recovery makes of a crash disk, in the view of the rebooted kernel. *)
Lemma reboot s start size :
  booted s → disk_ok (disk s) → log_disk start size (dk s) →
  ∃ s', initlog 1 s = Ret tt s' ∧ ∀ b, home (log_at start size) b → vw s' b = recovered start (dk s) b.
Proof.
  intros Hb Hd Hl. destruct (initlog_run s start size Hb Hd Hl) as (s' & h2 & H1 & _ & _ & _ & _ & _ & _ & _ & _ & Hw & _).
  exists s'. split; [done|]. intros b Hh. rewrite (wr_vw _ _ _ Hw b : vw s' b = _). unfold recovery_writes.
  rewrite updw_app. cbn. rewrite decide_False.
  - apply updw_ext. apply fresh_view, Hb.
  - destruct Hh as [_ Hh]. pose proof (lg_size _ (lk_geo _ _ _ Hl)).
    change (l_start (log_at start size)) with start in Hh. lia.
Qed.

(** C1: Crash atomicity of the log: let a transaction of the blocks [L] be
    committed from a disk whose log is empty.  commit returns, and if the
    machine crashes after any prefix [W1] of the block writes of the commit,
    the rebooted kernel's initlog returns with every block outside the log as
    it was before the transaction, or every block as the transaction left it in
    memory.  Once all writes are done it is always the latter. *)
Theorem commit_crash_atomic s L h0 :
  tx_ready s L → L ≠ [] → 1 ∉ L → disk_ok (disk s) →
  log_disk (l_start (klog s)) (l_size (klog s)) (dk s) →
  dk s (l_start (klog s)) = Some h0 → hdr_n h0 = 0 →
  ∃ s', commit s = Ret tt s'
    ∧ ∀ W1 W2, dtrace s' = dtrace s ++ traced (W1 ++ W2) →
      ∀ r, booted r → disk r = replay W1 (disk s) →
        ∃ r', initlog 1 r = Ret tt r'
          ∧ ((∀ b, home (klog s) b → vw r' b = dk s b) ∧ W2 ≠ []
             ∨ (∀ b, home (klog s) b → vw r' b = vw s b)).
Proof.
  intros Ht HL H1L Hdk Hlk Hh0 Hn0. destruct (commit_run s L Ht HL) as (s' & h1 & h2 & H1 & _ & _ & Hl1 & Hl2 & Hw).
  exists s'. split; [done|]. intros W1 W2 HW r Hr Hdr. rewrite (wr_trace _ _ _ Hw : dtrace s' = _) in HW.
  apply app_inv_head, traced_inj in HW. set (W := commit_writes _ _ _ _ _) in HW.
  set (st := l_start (klog s)) in *. set (sz := l_size (klog s)) in *.
  assert (Hdkr : ∀ b, dk r b = updw W1 (dk s) b) by (intros b; unfold dk; rewrite Hdr; apply replay_lookup).
  destruct (commit_prefix (klog s) L (contents s) h0 h1 h2 W1 W2 (dk s)) as [(h & Hh & Hho) Hcase]; try done; [apply Ht..|].
  fold st in Hh, Hcase. assert (HWlen : Forall (λ w, length w.2 = Z.to_nat BSIZE) W).
  { apply commit_writes_length; [|done|done]. intros b Hb. destruct (blk_some s [] b (tr_blk _ _ Ht)) as (d & Hd & Hdl).
    - by apply (proj1 (Forall_forall _ _) (ld_home _ _ (tr_log _ _ Ht))).
    - unfold contents. by rewrite Hd. }
  destruct (reboot r st sz Hr) as (r' & Hr' & Hvr).
  { rewrite Hdr. apply disk_ok_replay; [done|]. rewrite HW in HWlen. by apply Forall_app in HWlen as [? _]. }
  { destruct Hlk as [(d & Hd & Hsb) Hh1 Hg _]. split; [|done|done|].
    - exists d. split; [|done]. rewrite Hdkr, updw_notin; [done|]. intros Hx.
      assert (Hx' : 1 ∈ W.*1) by (rewrite HW, fmap_app; apply elem_of_app; by left).
      apply commit_writes_fst in Hx' as [Hx'|Hx']; [|done]. destruct Hh1 as [_ Hh1]. apply Hh1.
      pose proof (ld_size _ _ (tr_log _ _ Ht)). unfold log_at. sst. unfold sz, st in *. lia.
    - exists h. rewrite Hdkr. split; [done|]. by eapply hdr_ok_ext; [| |exact Hho]. }
  exists r'. split; [done|].
  assert (Hvr' : ∀ b, home (klog s) b → vw r' b = recovered st (updw W1 (dk s)) b).
  { intros b Hb. rewrite Hvr by (by eapply home_ext; [| |exact Hb]). by apply recovered_ext. }
  destruct Hcase as [[Hold Hne]|Hnew]; [left; split; [|done]|right]; intros b Hb; rewrite Hvr' by done; [by apply Hold|].
  rewrite Hnew, home_writes_upd by (done || apply Ht). case_decide as HbL.
  - symmetry. eapply contents_home; [done|apply Hb].
  - symmetry. eapply blk_clean; [apply Ht|apply not_elem_of_nil|]. by rewrite (tr_dirty _ _ Ht).
Qed.

(** ** Inside a transaction *)

(** What an operation of the file system may change while its transaction is
    open: the cache, the list of logged blocks, and the processes it wakes. *)
Definition tframe (s s' : kernel) : Prop :=
  woken (ptable s) (ptable s')
  ∧ s' = s <| bcache := bcache s' |> <| ptable := ptable s' |> <| klog := klog s' |>
  ∧ klog s' = (klog s) <| lh_n := lh_n (klog s') |> <| lh_block := lh_block (klog s') |>.

Lemma tframe_refl s : tframe s s.
Proof. split_and!; [apply woken_refl|by destruct s|by destruct (klog s)]. Qed.

Lemma tframe_trans s1 s2 s3 : tframe s1 s2 → tframe s2 s3 → tframe s1 s3.
Proof.
  intros (Hw1 & E1 & L1) (Hw2 & E2 & L2). split_and!; [by eapply woken_trans|by rewrite E2, E1 at 1|by rewrite L2, L1 at 1].
Qed.

#[export] Instance tframe_preorder : PreOrder tframe.
Proof. split; [exact tframe_refl|exact tframe_trans]. Qed.

Lemma tframe_field {A} (f : kernel → A) s s' :
  (∀ s bc pt l, f (s <| bcache := bc |> <| ptable := pt |> <| klog := l |>) = f s) → tframe s s' → f s' = f s.
Proof. intros H (_ & E & _). rewrite E. apply H. Qed.

Lemma tframe_log {A} (f : log → A) s s' :
  (∀ l n b, f (l <| lh_n := n |> <| lh_block := b |>) = f l) → tframe s s' → f (klog s') = f (klog s).
Proof. intros H (_ & _ & E). rewrite E. apply H. Qed.

Lemma wrote_tframe s s' : wrote [] s s' → tframe s s'.
Proof.
  intros H. assert (Hk := wrote_klog _ _ _ H). assert (Hd := wr_disk _ _ _ H). assert (Ht := wr_trace _ _ _ H).
  rewrite app_nil_r in Ht. destruct (wr_frame _ _ _ H) as [Hw E]. split_and!; [done| |rewrite Hk; by destruct (klog s)].
  rewrite E at 1. rewrite Hk, Hd, Ht. by destruct s.
Qed.

Lemma edited_tframe b d s s' : edited b d s s' → tframe s s'.
Proof.
  intros H. assert (Hk : klog s' = klog s) by (by apply bframe_field, H).
  assert (Hd := ed_disk _ _ _ _ H). assert (Ht := ed_trace _ _ _ _ H).
  destruct (ed_frame _ _ _ _ H) as [Hw E]. split_and!; [done| |rewrite Hk; by destruct (klog s)].
  rewrite E at 1. rewrite Hk, Hd, Ht. by destruct s.
Qed.

(** The running thread is inside a transaction that has logged [L] and holds
    the blocks [hb]. *)
Record tx_core (s : kernel) (hb : list (nat * Z)) (L : list Z) : Prop := {
  tc_blk : blk_ok s hb;
  tc_geo : log_geo (klog s);
  tc_log : logged (klog s) L;
  tc_dirty : ∀ b, bdirty s b ↔ b ∈ L;
  tc_out : 1 ≤ l_outstanding (klog s)
}.

(** Logging a block: absorbed if it is logged already. *)
Definition ladd (L : list Z) (b : Z) : list Z := if decide (b ∈ L) then L else L ++ [b].

Lemma log_find_run s R : ∀ n L1 bno,
  log_geo (klog s) → logged (klog s) (L1 ++ R) → (length R ≤ n)%nat →
  ∃ k, log_find n (length L1) bno s = Ret (length L1 + k)%nat s
    ∧ (R !! k = Some bno ∨ (k = length R ∧ bno ∉ R)).
Proof.
  induction R as [|b R IH]; intros n L1 bno Hg HL Hn.
  - exists 0%nat. rewrite Nat.add_0_r. split; [|right; split; [done|apply not_elem_of_nil]].
    destruct n; cbn [log_find]; run; rewrite (ld_n _ _ HL), app_nil_r, Z.ltb_irrefl; done.
  - destruct n as [|n]; [cbn in Hn; lia|]. cbn [log_find]. run.
    destruct (logged_tail _ _ _ _ HL) as [-> Hb]. cbn [negb].
    run_by (by eapply log_block_run). rewrite (home_u32 _ _ Hg Hb). destruct (Z.eqb_spec b bno) as [->|Hne].
    + exists 0%nat. rewrite Nat.add_0_r. split; [done|]. by left.
    + destruct (IH n (L1 ++ [b]) bno Hg) as (k & Hk & Hcase); [by rewrite <- app_assoc|cbn in Hn; lia|].
      rewrite length_app, Nat.add_1_r in Hk. exists (S k). rewrite Hk. split; [by rewrite <- Nat.add_succ_comm|].
      destruct Hcase as [?|[-> ?]]; [by left|right]. split; [done|]. intros [->|?]%elem_of_cons; done.
Qed.

(** Recording [bno] at the slot [k] that the search gives: its own, or the next. *)
Lemma logged_ladd l L k bno :
  log_geo l → logged l L → home l bno → Z.of_nat (length L) ≤ l_size l - 2 →
  L !! k = Some bno ∨ k = length L ∧ bno ∉ L →
  let l' := l <| lh_block := <[k := bno]> (lh_block l) |> <| lh_n := Z.of_nat (length (ladd L bno)) |> in
  log_geo l' ∧ logged l' (ladd L bno).
Proof.
  intros Hg HL Hh Hfit Hcase l'. assert (Hmx := lg_max _ Hg). assert (Hlen := lg_len _ Hg). unfold LOGSIZE, MAXOPBLOCKS in *.
  assert (Hladd : (length (ladd L bno) ≤ S (length L))%nat) by (unfold ladd; case_decide; rewrite ?length_app; cbn; lia).
  split; [destruct Hg; split; try done; unfold l'; sst; by rewrite length_insert|]. split.
  - done.
  - change (lh_block l') with (<[k := bno]> (lh_block l)). unfold ladd. destruct Hcase as [Hin|[-> Hnin]].
    + rewrite decide_True by (by eapply list_elem_of_lookup_2). rewrite list_insert_id; [apply HL|].
      rewrite <- (ld_blocks _ _ HL) in Hin. apply lookup_lt_Some in Hin as Hlt.
      rewrite lookup_take_lt in Hin; [done|]. apply lookup_lt_Some in Hin.
      rewrite length_take in Hlt. lia.
    + rewrite decide_False by done. rewrite length_app, Nat.add_1_r.
      erewrite take_S_r by (apply list_lookup_insert_eq; lia). rewrite take_insert_ge by lia. by rewrite (ld_blocks _ _ HL).
  - change (l_size l') with (l_size l). lia.
  - unfold LOGSIZE, MAXOPBLOCKS. lia.
  - unfold ladd. case_decide; [apply HL|]. apply Forall_app. split; [apply HL|by apply Forall_singleton].
  - unfold ladd. case_decide as E; [apply HL|]. apply NoDup_app. split_and!; [apply HL| |apply NoDup_singleton].
    intros x Hx ->%list_elem_of_singleton. done.
Qed.

Lemma log_write_run s hb L i bno :
  tx_core s hb L → (i, bno) ∈ hb → home (klog s) bno → Z.of_nat (length L) ≤ l_size (klog s) - 2 →
  ∃ s', log_write i s = Ret tt s' ∧ tx_core s' hb (ladd L bno) ∧ tframe s s' ∧ (∀ b, vw s' b = vw s b).
Proof.
  intros [Hok Hg HL Hd Hout] Hi Hh Hfit. unfold log_write. run. rewrite (ld_n _ _ HL).
  assert (Hmx := lg_max _ Hg). unfold LOGSIZE, MAXOPBLOCKS in *.
  destruct (Z.leb_spec (10 * 3) (Z.of_nat (length L))); [lia|].
  destruct (Z.leb_spec (l_size (klog s) - 1) (Z.of_nat (length L))); [lia|]. cbn [orb].
  destruct (Z.ltb_spec (l_outstanding (klog s)) 1); [lia|].
  destruct (bk_run _ _ Hok) as [Hheld _].
  run_by (apply acquire_run; rewrite Hheld; apply not_elem_of_nil).
  destruct (held_buf _ _ _ _ Hok Hi) as (b & Hb & _ & Hbn & _).
  set (s1 := s <| held ::= cons LLog |>).
  erewrite bind_run by (apply (getbuf_run s1 i b Hb)). cbv beta. rewrite Hbn.
  destruct (log_find_run s1 L (Z.to_nat (10 * 3)) [] bno Hg HL) as (k & Hk & Hcase); [lia|].
  cbn [length Nat.add] in Hk. rewrite (bind_run _ _ _ _ _ Hk). cbv beta.
  assert (Hkn : (k ≤ length L)%nat) by (destruct Hcase as [?%lookup_lt_Some|[-> _]]; lia).
  assert (Hlen := lg_len _ Hg). unfold LOGSIZE, MAXOPBLOCKS in Hlen.
  assert (Hbi : i32 bno = bno) by (apply i32_small; by eapply home_i32).
  set (s2 := s1 <| klog := (klog s) <| lh_block := <[k := bno]> (lh_block (klog s)) |> |>).
  assert (Hset : set_log_block k (i32 bno) s1 = Ret tt s2).
  { unfold set_log_block. run. change (klog s1) with (klog s). destruct (Nat.ltb_spec k (length (lh_block (klog s)))); [|lia].
    by rewrite Hbi. }
  rewrite (bind_run _ _ _ _ _ Hset). cbv beta. run. change (lh_n (klog s2)) with (lh_n (klog s)). rewrite (ld_n _ _ HL).
  set (l' := (klog s) <| lh_block := <[k := bno]> (lh_block (klog s)) |> <| lh_n := Z.of_nat (length (ladd L bno)) |>).
  assert (Hif : when (Z.of_nat k =? Z.of_nat (length L)) (upd_log (λ l, l <| lh_n ::= λ n, n + 1 |>)) s2
                = Ret tt (s1 <| klog := l' |>)).
  { unfold l', ladd. destruct Hcase as [Hin|[-> Hnin]].
    - rewrite decide_True by (by eapply list_elem_of_lookup_2). apply lookup_lt_Some in Hin.
      destruct (Z.eqb_spec (Z.of_nat k) (Z.of_nat (length L))); [lia|]. cbn [when]. rewrite <- (ld_n _ _ HL).
      unfold mret, M_ret. f_equal.
    - rewrite decide_False by done. rewrite Z.eqb_refl, length_app. cbn [when length].
      replace (Z.of_nat (length L + 1)) with (Z.of_nat (length L) + 1) by lia. rewrite <- (ld_n _ _ HL). done. }
  rewrite (bind_run _ _ _ _ _ Hif). cbv beta. unfold upd_buf. run.
  rewrite release_run by (unfold s1; sst; constructor).
  set (s' := s <| klog := l' |> <| bcache ::= alter (set_flag B_DIRTY) i |>).
  match goal with |- ∃ _, Ret tt ?x = _ ∧ _ => assert (Hx : x = s') end.
  { unfold s', s1. rewrite <- (held_cons_remove LLog s) at 2. done. }
  rewrite Hx. clear Hx.
  destruct (blk_pin (s <| klog := l' |>) hb i bno (blk_ok_klog _ _ _ Hok) Hi) as (Hf & Hok' & Hv' & Hd').
  fold s' in Hf, Hok', Hv', Hd'.
  destruct (logged_ladd (klog s) L k bno Hg HL Hh ltac:(lia) Hcase) as [Hg' HL'].
  exists s'. split_and!; [done| | |exact Hv'].
  - split; try done. intros x. rewrite Hd'. change (bdirty (s <| klog := l' |>) x) with (bdirty s x). rewrite Hd. unfold ladd. case_decide as E.
    + split; [intros [?| ->]; done|by left].
    + rewrite elem_of_app, list_elem_of_singleton. done.
  - split_and!; [apply woken_refl|unfold s'; by destruct s|unfold s', l'; sst; by destruct (klog s)].
Qed.

(** ** begin_op and end_op *)

(** begin_op at once, when no commit runs and the operation fits. *)
Lemma begin_op_run s :
  (0 < fuel)%nat → held s = [] → l_committing (klog s) = false →
  lh_n (klog s) + (l_outstanding (klog s) + 1) * MAXOPBLOCKS ≤ LOGSIZE →
  begin_op s = Ret tt (s <| klog ::= λ l, l <| l_outstanding ::= λ x, x + 1 |> |>).
Proof.
  intros Hf Hh Hc Hfit. unfold begin_op. run_by (apply acquire_run; rewrite Hh; apply not_elem_of_nil).
  destruct fuel as [|n]; [lia|]. cbn [begin_op_loop]. run. change (klog (s <| held ::= cons LLog |>)) with (klog s).
  rewrite Hc. destruct (Z.ltb_spec LOGSIZE (lh_n (klog s) + (l_outstanding (klog s) + 1) * MAXOPBLOCKS)); [lia|].
  unfold upd_log. run. rewrite release_run by (sst; constructor).
  rewrite <- (held_cons_remove LLog s) at 2. done.
Qed.

(** [commit] leaves every home block on the disk as the cache had it, whether
    or not there is anything to commit. *)
Lemma commit_settles s L :
  tx_ready s L →
  ∃ s' W, commit s = Ret tt s' ∧ blk_ok s' [] ∧ klog s' = (klog s) <| lh_n := 0 |>
    ∧ wrote W s (s' <| klog := klog s |>) ∧ (∀ b, ¬ bdirty s' b)
    ∧ (∀ b, home (klog s) b → vw s' b = vw s b ∧ dk s' b = vw s b).
Proof.
  intros Ht. pose proof Ht as [Hok Hg HL Hd].
  assert (Hcl : ∀ b, b ∉ L → vw s b = dk s b).
  { intros b Hb. eapply blk_clean; [done|apply not_elem_of_nil|]. by rewrite Hd. }
  destruct (decide (L = [])) as [->|HLne].
  - exists s, []. split_and!; [|done| |replace (s <| klog := klog s |>) with s by (by destruct s); by apply wrote_nil| |].
    + unfold commit. run. by rewrite (ld_n _ _ HL).
    + pose proof (ld_n _ _ HL) as E. revert E. destruct (klog s). cbn. by intros ->.
    + intros b Hb. apply Hd in Hb. by apply not_elem_of_nil in Hb.
    + intros b Hb. split; [done|]. rewrite Hcl; [done|apply not_elem_of_nil].
  - destruct (commit_run s L Ht HLne) as (s2 & h1 & h2 & H2 & Hok2 & Hk2 & Hh1 & Hh2 & Hw2).
    exists s2, (commit_writes (contents s) (l_start (klog s)) L h1 h2). split_and!; try done.
    + intros b Hb. apply (wr_dirty _ _ _ Hw2 b) in Hb as [Hb Hn]. apply Hn. apply Hd in Hb.
      unfold commit_writes. rewrite !fmap_app, !elem_of_app, home_writes_fst. tauto.
    + intros b Hb. pose proof (ld_size _ _ HL).
      assert (Hup : ∀ f, updw (commit_writes (contents s) (l_start (klog s)) L h1 h2) f b
                         = if decide (b ∈ L) then Some (contents s b) else f b).
      { intros f. destruct (home_not_log (klog s) b (contents s) L Hg Hb ltac:(lia)) as [Hn1 Hn2].
        unfold commit_writes. rewrite !updw_app. cbn. rewrite decide_False by done.
        rewrite home_writes_upd by apply HL. case_decide; [done|]. rewrite decide_False by done. by apply updw_notin. }
      rewrite (wr_vw _ _ _ Hw2 b : vw s2 b = _), (wrote_dk _ _ _ b Hw2 : dk s2 b = _), !Hup.
      case_decide as HbL; [|split; [done|exact (eq_sym (Hcl b HbL))]].
      rewrite <- (contents_home s L b Ht (proj1 Hb)). done.
Qed.

(** The state at the end of the only transaction. *)
Lemma end_op_run s L :
  tx_core s [] L → l_outstanding (klog s) = 1 → l_committing (klog s) = false →
  ∃ s' W, end_op s = Ret tt s' ∧ blk_ok s' [] ∧ log_geo (klog s') ∧ logged (klog s') []
    ∧ (∀ b, ¬ bdirty s' b) ∧ l_outstanding (klog s') = 0 ∧ l_committing (klog s') = false
    ∧ l_start (klog s') = l_start (klog s) ∧ l_size (klog s') = l_size (klog s)
    ∧ dtrace s' = dtrace s ++ traced W
    ∧ (∀ b, home (klog s) b → vw s' b = vw s b ∧ dk s' b = vw s b).
Proof.
  intros [Hok Hg HL Hd Hout] Ho Hc. destruct (bk_run _ _ Hok) as [Hh _]. unfold end_op.
  run_by (apply acquire_run; rewrite Hh; apply not_elem_of_nil). unfold upd_log. run. run.
  sst. rewrite Hc, Ho. change (1 - 1 =? 0) with true. cbv iota.
  erewrite bind_run; [|unfold upd_log; by run].
  cbv beta. run_by (apply release_run; sst; constructor). cbn [when].
  set (l1 := (klog s) <| l_outstanding := 0 |> <| l_committing := true |>).
  match goal with |- context [(commit ≫= _) ?x] => replace x with (s <| klog := l1 |>) end.
  2:{ rewrite <- (held_cons_remove LLog s) at 1. unfold l1. rewrite <- (f_equal (λ x, x - 1) Ho : _ = 0). done. }
  set (s1 := s <| klog := l1 |>).
  assert (Hg1 : log_geo l1) by (destruct Hg; by split). assert (HL1 : logged l1 L) by (destruct HL; by split).
  assert (Hok1 : blk_ok s1 []) by (by apply blk_ok_klog).
  destruct (commit_settles s1 L) as (s2 & W & H2 & Hok2 & Hk2 & Hw2 & Hnd2 & Hv2); [by split|].
  rewrite (bind_run _ _ _ _ _ H2). cbv beta. destruct (bk_run _ _ Hok2) as [Hh2 Hc2].
  run_by (apply acquire_run; rewrite Hh2; apply not_elem_of_nil). run.
  run_by (apply wakeup_run; sst; rewrite Hh2; intros [?|?%not_elem_of_nil]%elem_of_cons; done).
  rewrite release_run by (sst; constructor).
  set (l3 := (klog s2) <| l_committing := false |>).
  match goal with |- ∃ _ _, Ret tt ?x = _ ∧ _ =>
    replace x with (s2 <| ptable ::= fmap (wake_one ChLog) |> <| klog := l3 |>) end.
  2:{ rewrite <- (held_cons_remove LLog s2) at 1. done. }
  set (s3 := s2 <| ptable ::= fmap (wake_one ChLog) |> <| klog := l3 |>).
  exists s3, W. assert (El3 : l3 = l1 <| lh_n := 0 |> <| l_committing := false |>) by (unfold l3; by rewrite Hk2).
  split_and!; try done.
  - apply (blk_ok_klog (s2 <| ptable ::= fmap (wake_one ChLog) |>)). destruct Hok2 as [[ord Ho2] R N H K B].
    split; try done; [exists ord; by destruct Ho2|]. eapply running_woken; [exact R|done|done|]. apply woken_wake.
  - change (klog s3) with l3. rewrite El3. destruct Hg1. by split.
  - change (klog s3) with l3. rewrite El3. destruct (logged_nil l1 L Hg1 HL1). by split.
  - change (klog s3) with l3. by rewrite El3.
  - change (klog s3) with l3. by rewrite El3.
  - change (klog s3) with l3. by rewrite El3.
  - exact (wr_trace _ _ _ Hw2).
Qed.

(** ** Transactions, for the file system *)

(** The block is pinned in the cache or on the disk as it is. *)
Definition settled (s : kernel) (b : Z) : Prop := bdirty s b ∨ dk s b = vw s b.

Record in_tx (s : kernel) (hb : list (nat * Z)) (L : list Z) : Prop := {
  it_core : tx_core s hb L;
  it_settled : ∀ b, b ∈ hb.*2 → settled s b
}.

(** Room in the log for [k] more blocks. *)
Definition fits (s : kernel) (L : list Z) (k : nat) : Prop :=
  Z.of_nat (length L + k) ≤ l_size (klog s) - 2.

Lemma settled_same s s' b :
  tframe s s' → vw s' b = vw s b → (bdirty s b → bdirty s' b) → settled s b → settled s' b.
Proof.
  intros Hf Hv Hd [H|H]; [left; auto|right]. unfold dk in *. rewrite Hv, <- H. f_equal.
  by apply (tframe_field disk).
Qed.

Lemma tframe_home s s' b : tframe s s' → home (klog s') b ↔ home (klog s) b.
Proof. intros Hf. apply home_ext; by apply tframe_log. Qed.

Lemma tframe_fits s s' L k : tframe s s' → fits s' L k ↔ fits s L k.
Proof. intros Hf. unfold fits. by rewrite (tframe_log l_size s s'). Qed.

Lemma tx_wrote s s' hb hb' L : tx_core s hb L → wrote [] s s' → blk_ok s' hb' → tx_core s' hb' L.
Proof.
  intros [Hok Hg HL Hd Ho] Hw Hok'. assert (Hk := wrote_klog _ _ _ Hw). split; rewrite ?Hk; try done.
  intros b. rewrite (wr_dirty _ _ _ Hw), Hd. pose proof (not_elem_of_nil b). tauto.
Qed.

Lemma settled_wrote s s' b : wrote [] s s' → settled s b → settled s' b.
Proof. apply clean_wrote. Qed.

Lemma tx_bread s hb L b :
  in_tx s hb L → 0 ≤ b < nblocks → b ∉ hb.*2 → fits s L 0 → (length hb ≤ 1)%nat →
  ∃ i s', bread 1 b s = Ret i s' ∧ in_tx s' ((i, b) :: hb) L ∧ tframe s s' ∧ (∀ x, vw s' x = vw s x).
Proof.
  intros [Hc Hs] Hb Hn Hfit Hl. assert (Hmx := lg_max _ (tc_geo _ _ _ Hc)). unfold fits in Hfit.
  destruct (bread_wrote s hb b L (tc_blk _ _ _ Hc) Hb Hn) as (i & s' & H1 & Hok & Hw & Hset).
  { right. split; [apply Hc|]. unfold NBUF, LOGSIZE, MAXOPBLOCKS in *. lia. }
  exists i, s'. split_and!; [done| |by apply wrote_tframe|intros x; apply (wr_vw _ _ _ Hw)].
  split; [by eapply tx_wrote|]. cbn. intros x [->|Hx]%elem_of_cons; [done|]. eapply settled_wrote; [done|by apply Hs].
Qed.

Lemma tx_brelse s hb1 hb2 L i b :
  in_tx s (hb1 ++ (i, b) :: hb2) L →
  ∃ s', brelse i s = Ret tt s' ∧ in_tx s' (hb1 ++ hb2) L ∧ tframe s s' ∧ (∀ x, vw s' x = vw s x).
Proof.
  intros [Hc Hs]. destruct (brelse_wrote s hb1 hb2 i b (tc_blk _ _ _ Hc)) as (s' & H1 & Hok & Hw).
  { apply Hs. rewrite fmap_app. apply elem_of_app. right. by left. }
  exists s'. split_and!; [done| |by apply wrote_tframe|intros x; apply (wr_vw _ _ _ Hw)].
  split; [by eapply tx_wrote|]. intros x Hx. eapply settled_wrote; [done|]. apply Hs. rewrite fmap_app in *.
  apply elem_of_app in Hx as [?|?]; apply elem_of_app; [by left|right; by right].
Qed.

(** Changing a held block and logging it. *)
Lemma tx_edit s hb L i b d f :
  in_tx s hb L → (i, b) ∈ hb → home (klog s) b → vw s b = Some d → length (f d) = length d → fits s L 0 →
  ∃ s1 s2, upd_data i f s = Ret tt s1 ∧ log_write i s1 = Ret tt s2 ∧ in_tx s2 hb (ladd L b) ∧ tframe s s2
    ∧ vw s2 b = Some (f d) ∧ (∀ x, x ≠ b → vw s2 x = vw s x).
Proof.
  intros [Hc Hs] Hi Hh Hd Hl Hfit.
  destruct (upd_data_run s hb i b d f (tc_blk _ _ _ Hc) Hi Hd Hl) as (s1 & H1 & Hok1 & He).
  assert (Hf1 := edited_tframe _ _ _ _ He).
  assert (Hk1 : klog s1 = klog s) by (by apply bframe_field, He).
  assert (Hc1 : tx_core s1 hb L).
  { destruct Hc. split; rewrite ?Hk1; try done. intros x. rewrite (ed_dirty _ _ _ _ He). auto. }
  destruct (log_write_run s1 hb L i b Hc1 Hi) as (s2 & H2 & Hc2 & Hf2 & Hv2).
  { by rewrite Hk1. }
  { rewrite Hk1. unfold fits in Hfit. lia. }
  assert (Hf : tframe s s2) by (by etrans). exists s1, s2. split_and!; try done.
  - split; [done|]. intros x Hx. destruct (decide (x = b)) as [->|Hne].
    + left. apply (tc_dirty _ _ _ Hc2). unfold ladd. case_decide; [done|]. apply elem_of_app. right. by left.
    + eapply (settled_same s); [done| | |by apply Hs].
      * by rewrite Hv2, (ed_other _ _ _ _ He).
      * rewrite (tc_dirty _ _ _ Hc), (tc_dirty _ _ _ Hc2). unfold ladd. case_decide; [done|].
        intros ?. apply elem_of_app. by left.
  - rewrite Hv2. apply He.
  - intros x Hx. by rewrite Hv2, (ed_other _ _ _ _ He).
Qed.

Lemma length_ladd L b : (length (ladd L b) ≤ length L + 1)%nat.
Proof. unfold ladd. case_decide; rewrite ?length_app; cbn; lia. Qed.

(** [bp = bread(dev, b); change bp->data; log_write(bp); brelse(bp)]. *)
Lemma tx_update {A} s hb L b d f (k : K A) :
  in_tx s hb L → home (klog s) b → b ∉ hb.*2 → vw s b = Some d → length (f d) = length d → fits s L 1 →
  (length hb ≤ 1)%nat →
  ∃ s', (i ← bread 1 b; upd_data i f;; log_write i;; brelse i;; k) s = k s' ∧ in_tx s' hb (ladd L b) ∧ tframe s s'
    ∧ vw s' b = Some (f d) ∧ (∀ x, x ≠ b → vw s' x = vw s x).
Proof.
  intros Ht Hh Hn Hd Hl Hfit Hhb. assert (Hfit0 : fits s L 0) by (unfold fits in *; lia).
  destruct (tx_bread s hb L b Ht (proj1 Hh) Hn Hfit0 Hhb) as (i & s1 & H1 & Ht1 & Hf1 & Hv1).
  rewrite (bind_run _ _ _ _ _ H1). cbv beta.
  destruct (tx_edit s1 ((i, b) :: hb) L i b d f Ht1) as (s2 & s3 & H2 & H3 & Ht3 & Hf3 & Hv3 & Ho3).
  { by left. }
  { by rewrite (tframe_home _ _ _ Hf1). }
  { by rewrite Hv1. }
  { done. }
  { by rewrite (tframe_fits _ _ _ _ Hf1). }
  rewrite (bind_run _ _ _ _ _ H2). cbv beta. rewrite (bind_run _ _ _ _ _ H3). cbv beta.
  destruct (tx_brelse s3 [] hb _ i b Ht3) as (s4 & H4 & Ht4 & Hf4 & Hv4).
  rewrite (bind_run _ _ _ _ _ H4). cbv beta. exists s4. split_and!; try done.
  - etrans; [done|]. by etrans.
  - by rewrite Hv4.
  - intros x Hx. by rewrite Hv4, Ho3.
Qed.

(** ** Crashes during recovery *)

Lemma recovery_prefix l h h2 W1 W2 dsk :
  log_geo l → dsk (l_start l) = Some h → hdr_ok l h → length h2 = Z.to_nat BSIZE →
  recovery_writes (l_start l) dsk h2 = W1 ++ W2 →
  let st := l_start l in
  (∃ h', updw W1 dsk st = Some h' ∧ hdr_ok l h')
  ∧ ∀ b, home l b → recovered st (updw W1 dsk) b = recovered st dsk b.
Proof.
  intros Hg Hh [Hn0 Hns Hnm Hhome Hnd] Hh2 HW st. fold st in Hh, HW. unfold recovery_writes in HW. rewrite Hh in HW.
  change (default [] (Some h)) with h in HW. set (L := hdr_list h) in *. pose proof (lg_size _ Hg).
  assert (HLlen : length L = Z.to_nat (hdr_n h)) by apply length_hdr_list.
  set (C := λ p, default [] (dsk p)) in *. set (V := λ b, default [] (updw (inst_writes C (st + 1) L) dsk b)).
  assert (HLh : ∀ b, b ∈ L → home l b) by apply (proj1 (Forall_forall _ _) Hhome).
  assert (HV : ∀ b, recovered st dsk b = if decide (b ∈ L) then Some (V b) else dsk b).
  { intros b. unfold recovered. rewrite Hh. change (default [] (Some h)) with h. fold L C. case_decide as Hb.
    - unfold V. apply list_elem_of_lookup in Hb as [j Hj]. by rewrite (inst_writes_at _ _ _ _ j b Hnd Hj).
    - apply updw_notin. by rewrite inst_writes_fst. }
  assert (Hin : ∀ k, (∀ b, b ∈ k.*1 → b ∈ L) → (∃ h', updw k dsk st = Some h' ∧ hdr_ok l h')
              ∧ ∀ b, home l b → recovered st (updw k dsk) b = recovered st dsk b).
  { intros k Hk. assert (Hst : updw k dsk st = Some h).
    { rewrite updw_notin; [done|]. intros [_ Hx]%Hk%HLh. unfold st in *. lia. }
    split; [by exists h|]. intros b Hb. rewrite HV. unfold recovered. rewrite Hst. change (default [] (Some h)) with h. fold L.
    rewrite (inst_writes_ext _ C).
    - case_decide as HbL; [|rewrite updw_notin by (by rewrite inst_writes_fst); apply updw_notin; auto].
      unfold V. apply list_elem_of_lookup in HbL as [j Hj]. by rewrite !(inst_writes_at _ _ _ _ j b Hnd Hj).
    - intros j Hj. unfold C. rewrite updw_notin; [done|]. intros [_ Hx]%Hk%HLh. unfold st in *. lia. }
  cbn zeta. apply app_eq_inv in HW as [(k & Hk & ->)|(k & -> & HW)].
  - apply Hin. intros b Hb. rewrite <- (inst_writes_fst C L (st + 1)), Hk, fmap_app. apply elem_of_app. by left.
  - destruct k as [|w k]; [rewrite app_nil_r; apply Hin; intros b; by rewrite inst_writes_fst|].
    cbn in HW. injection HW as <- HW. destruct k; [|done]. cbn in HW. subst W2.
    assert (Hn : hdr_n (header [] h2) = 0) by (by rewrite header_n by (cbn; lia)).
    assert (Hst : updw (inst_writes C (st + 1) L ++ [(st, header [] h2)]) dsk st = Some (header [] h2)).
    { rewrite updw_app. cbn. by rewrite decide_True. }
    split; [exists (header [] h2); split; [done|by apply hdr_ok_empty]|]. intros b Hb.
    rewrite (recovered_empty _ _ (header [] h2)) by done. rewrite updw_app. cbn. rewrite decide_False.
    + unfold recovered. by rewrite Hh.
    + destruct Hb as [_ Hb]. unfold st. lia.
Qed.

Lemma inst_writes_length C R : ∀ pos,
  (∀ j, 0 ≤ j < Z.of_nat (length R) → length (C (pos + j)) = Z.to_nat BSIZE) →
  Forall (λ w, length w.2 = Z.to_nat BSIZE) (inst_writes C pos R).
Proof.
  induction R as [|b R IH]; intros pos H; [constructor|]. cbn [inst_writes]. constructor.
  - cbn [snd]. rewrite <- (Z.add_0_r pos). apply H. cbn. lia.
  - apply IH. intros j Hj. rewrite <- Z.add_assoc. apply H. cbn. lia.
Qed.

(** C13: Recovery is idempotent: initlog of a disk with a valid log header
    leaves every block outside the log as the log prescribes ([recovered]) on
    the disk and clears the header, provided the super block is not logged; and if the machine crashes after any prefix
    [W1] of its block writes, running initlog again after the reboot gives every
    such block the same contents. *)
Theorem recovery_idempotent s start size :
  booted s → disk_ok (disk s) → log_disk start size (dk s) →
  (∀ h, dk s start = Some h → 1 ∉ hdr_list h) →
  ∃ s', initlog 1 s = Ret tt s'
    ∧ (∀ b, home (log_at start size) b → dk s' b = recovered start (dk s) b ∧ vw s' b = recovered start (dk s) b)
    ∧ (∃ h, dk s' start = Some h ∧ hdr_n h = 0)
    ∧ ∀ W1 W2, dtrace s' = dtrace s ++ traced (W1 ++ W2) →
        ∀ r, booted r → disk r = replay W1 (disk s) →
          ∃ r', initlog 1 r = Ret tt r' ∧ ∀ b, home (log_at start size) b → vw r' b = vw s' b.
Proof.
  intros Hb Hd Hl Hsbl. destruct (initlog_run s start size Hb Hd Hl) as (s' & h2 & H1 & _ & _ & _ & _ & _ & _ & _ & Hh2 & Hw & _).
  pose proof (lg_size _ (lk_geo _ _ _ Hl)) as Hsz. change (l_size (log_at start size)) with size in Hsz.
  assert (Hne : ∀ b, home (log_at start size) b → b ≠ start).
  { intros b [_ Hx]. change (l_start (log_at start size)) with start in Hx.
    change (l_size (log_at start size)) with size in Hx. lia. }
  assert (Hrec : ∀ f b, (∀ x, f x = dk s x) → home (log_at start size) b →
            updw (recovery_writes start (dk s) h2) f b = recovered start (dk s) b).
  { intros f b Hf Hh. unfold recovery_writes. rewrite updw_app. cbn. rewrite decide_False by auto. by apply updw_ext. }
  assert (Hvw : ∀ b, home (log_at start size) b → vw s' b = recovered start (dk s) b).
  { intros b Hh. rewrite (wr_vw _ _ _ Hw b : vw s' b = _). apply Hrec; [|done]. intros x. apply fresh_view, Hb. }
  exists s'. split_and!; [done| | |].
  - intros b Hh. split; [|by apply Hvw]. rewrite (wrote_dk _ _ _ b Hw : dk s' b = _). by apply Hrec.
  - exists (header [] h2). rewrite (wrote_dk _ _ _ start Hw : dk s' start = _). unfold recovery_writes. rewrite updw_app.
    rewrite updw_cons, updw_nil. cbn [fst snd]. rewrite decide_True by done. split; [done|]. by rewrite header_n by (cbn; lia).
  - intros W1 W2 HW r Hr Hreq. rewrite (wr_trace _ _ _ Hw : dtrace s' = _) in HW. apply app_inv_head, traced_inj in HW.
    assert (Hdkr : ∀ b, dk r b = updw W1 (dk s) b) by (intros b; unfold dk; rewrite Hreq; apply replay_lookup).
    destruct Hl as [(d & Hd1 & Hsb) Hh1 Hg (h & Hh & Hho)].
    destruct (recovery_prefix (log_at start size) h h2 W1 W2 (dk s) Hg Hh Hho Hh2 HW) as [(h' & Hh' & Hho') Hsame].
    change (l_start (log_at start size)) with start in Hh', Hsame.
    destruct (reboot r start size Hr) as (r' & Hr' & Hvr).
    { rewrite Hreq. apply disk_ok_replay; [done|]. eapply (proj1 (Forall_app _ _ W2)). rewrite <- HW.
      unfold recovery_writes. apply Forall_app. split; [|apply Forall_singleton; cbn [snd]; by rewrite length_header].
      apply inst_writes_length. intros j Hj. destruct (Hd (start + 1 + j)) as (dj & Edj & Hdj); [|change (dk s (start + 1 + j)) with (disk s !! (1, start + 1 + j)); by rewrite Edj].
      rewrite Hh in Hj. change (default [] (Some h)) with h in Hj. rewrite length_hdr_list in Hj.
      destruct Hg as [_ G1 _ G2 _ _ _]. pose proof (ho_size _ _ Hho) as G3. change (l_size (log_at start size)) with size in *.
      change (l_start (log_at start size)) with start in *. lia. }
    { split; [|done|done|exists h'; by rewrite Hdkr]. exists d. split; [|done]. rewrite Hdkr, updw_notin; [done|].
      intros Hx. assert (Hx' : 1 ∈ (recovery_writes start (dk s) h2).*1) by (rewrite HW, fmap_app; apply elem_of_app; by left).
      unfold recovery_writes in Hx'. rewrite fmap_app, inst_writes_fst in Hx'. cbn in Hx'.
      apply elem_of_app in Hx' as [Hx'|Hx'%list_elem_of_singleton]; [|by apply (Hne 1)].
      rewrite Hh in Hx'. by apply (Hsbl h). }
    exists r'. split; [done|]. intros b Hhb. rewrite Hvr, Hvw by done. rewrite <- (Hsame b Hhb). by apply recovered_ext.
Qed.

(** C40: The reservation of begin_op exceeds what log_write accepts: with the
    log size mkfs writes ([LOGSIZE]), two operations outstanding and nothing
    logged, begin_op admits a third operation at once, reserving
    [3 * MAXOPBLOCKS = LOGSIZE] blocks; but log_write panics as soon as
    [LOGSIZE - 1] blocks are logged, also for a block that is logged already. *)
Theorem begin_op_overcommits s :
  (0 < fuel)%nat → held s = [] → l_committing (klog s) = false → lh_n (klog s) = 0 → l_outstanding (klog s) = 2 →
  (∃ s', begin_op s = Ret tt s' ∧ l_outstanding (klog s') * MAXOPBLOCKS = LOGSIZE)
  ∧ ∀ s' i, l_size (klog s') = LOGSIZE → lh_n (klog s') = LOGSIZE - 1 →
      log_write i s' = Panic "too big a transaction" s'.
Proof.
  intros Hf Hh Hc Hn Ho. split.
  - eexists. split; [apply begin_op_run; try done; by rewrite Hn, Ho|]. sst. by rewrite Ho.
  - intros s' i Hs Hn'. unfold log_write. run. by rewrite Hs, Hn'.
Qed.
End Run.

(** ** A concrete disk *)

(** Eight blocks, the log in blocks 2 to 5. *)
Definition plat8 : Platform :=
  plat 8 4096.
Definition zero_block : list Z := replicate (Z.to_nat BSIZE) 0.
Definition sb8 : list Z := put32 0 8 (put32 12 4 (put32 16 2 zero_block)).
Definition disk8 : gmap (Z * Z) (list Z) :=
  list_to_map ((λ b, ((1, b), if b =? 1 then sb8 else zero_block)) <$> seqZ 0 8).
Definition boot8 : kernel :=
  kernel_zero <| bcache := fresh_cache |> <| curproc := Some 0%nat |> <| disk := disk8 |>.

#[local] Existing Instance plat8.
#[local] Existing Instance Memide.driver.

Lemma boot8_booted : booted boot8.
Proof. split; [done| |done]. split; [done|]. by exists 0%nat, proc_zero. Qed.

Lemma nblocks8 : nblocks = 8.
Proof. reflexivity. Qed.

Lemma disk8_at b : 0 ≤ b < 8 → disk8 !! (1, b) = Some (if b =? 1 then sb8 else zero_block).
Proof.
  intros Hb. assert (b = 0 ∨ b = 1 ∨ b = 2 ∨ b = 3 ∨ b = 4 ∨ b = 5 ∨ b = 6 ∨ b = 7) as H by lia.
  by repeat (destruct H as [->|H]; [reflexivity|]); subst.
Qed.

Lemma disk8_ok : disk_ok disk8.
Proof.
  intros b Hb. rewrite nblocks8 in Hb. rewrite disk8_at by done. eexists. split; [done|].
  by destruct (b =? 1).
Qed.

Lemma geo8 : log_geo (log_at 2 4).
Proof. split; try done; cbn; rewrite ?nblocks8; done || lia. Qed.

Lemma boot8_log : log_disk 2 4 (dk boot8).
Proof.
  split.
  - exists sb8. split; [by apply disk8_at|]. by vm_compute.
  - split; [rewrite nblocks8; lia|]. change (l_start (log_at 2 4)) with 2. lia.
  - exact geo8.
  - exists zero_block. split; [by apply disk8_at|]. apply hdr_ok_empty; [exact geo8|by vm_compute].
Qed.

(** The kernel after boot and [begin_op(); bp = bread(1, 6); bp->data[0] = 7;
    log_write(bp); brelse(bp)]. *)
Definition tx8 : kernel :=
  match (initlog 1;; begin_op;; i ← bread 1 6; upd_data i (<[0%nat := 7]>);; log_write i;; brelse i;; mret tt) boot8 with
  | Ret _ s => s
  | _ => boot8
  end.

Lemma log_out_first l : l_outstanding l = 0 → l <| l_outstanding ::= λ x, x + 1 |> = l <| l_outstanding := 1 |>.
Proof. destruct l. cbn. by intros ->. Qed.

Lemma tx8_ready : tx_ready tx8 [6] ∧ disk_ok (disk tx8) ∧ log_disk (l_start (klog tx8)) (l_size (klog tx8)) (dk tx8)
  ∧ ∃ h, dk tx8 (l_start (klog tx8)) = Some h ∧ hdr_n h = 0.
Proof.
  destruct (initlog_run boot8 2 4 boot8_booted disk8_ok boot8_log)
    as (s1 & h2 & H1 & Hok1 & Hg1 & Hl1 & Est & Esz & Eo & Ec & Hh2 & Hw1 & Hd1).
  destruct (bk_run _ _ Hok1) as [Hh _].
  set (s2 := s1 <| klog ::= λ l, l <| l_outstanding ::= λ x, x + 1 |> |>).
  assert (H2 : begin_op s1 = Ret tt s2).
  { apply begin_op_run; [by vm_compute; lia|done|done|]. rewrite (ld_n _ _ Hl1), Eo. by vm_compute. }
  assert (Hs2 : s2 = s1 <| klog := (klog s1) <| l_outstanding := 1 |> |>).
  { change s2 with (s1 <| klog := (klog s1) <| l_outstanding ::= λ x, x + 1 |> |>). by rewrite log_out_first. }
  assert (Ht2 : in_tx s2 [] []).
  { rewrite Hs2. split; [|intros b Hb; by apply not_elem_of_nil in Hb]. split; [by apply blk_ok_klog|by destruct Hg1|by destruct Hl1| |done].
    intros b. split; [intros Hb; by apply Hd1 in Hb|intros Hb; by apply not_elem_of_nil in Hb]. }
  assert (Est2 : l_start (klog s2) = 2) by done. assert (Esz2 : l_size (klog s2) = 4) by done.
  assert (Hhome : home (klog s2) 6).
  { split; [rewrite nblocks8; lia|]. rewrite Est2, Esz2. lia. }
  destruct (blk_some s2 [] 6 (tc_blk _ _ _ (it_core _ _ _ Ht2))) as (d & Hd & Hdl); [rewrite nblocks8; lia|].
  destruct (tx_update s2 [] [] 6 d (<[0%nat := 7]>) (mret tt) Ht2 Hhome) as (s3 & H3 & Ht3 & Hf3 & _);
    [apply not_elem_of_nil|done|by rewrite length_insert|unfold fits; rewrite Esz2; cbn; lia|cbn; lia|].
  assert (Etx : tx8 = s3).
  { unfold tx8. erewrite (bind_run _ _ _ _ _ H1). cbv beta. erewrite (bind_run _ _ _ _ _ H2). cbv beta. rewrite H3. done. }
  rewrite Etx. change (ladd [] 6) with [6] in Ht3. destruct Ht3 as [[Hok3 Hg3 Hl3 Hd3 _] _].
  assert (Edk : disk s3 = replay (recovery_writes 2 (dk boot8) h2) disk8).
  { rewrite (tframe_field disk _ _ (λ _ _ _ _, eq_refl) Hf3). exact (wr_disk _ _ _ Hw1). }
  assert (Ehl : hdr_list (default [] (dk boot8 2)) = []) by (by vm_compute).
  unfold recovery_writes in Edk. rewrite Ehl in Edk. cbn [inst_writes app replay foldl fst snd] in Edk.
  assert (Edk' : ∀ b, dk s3 b = if decide (b = 2) then Some (header [] h2) else dk boot8 b).
  { intros b. unfold dk. rewrite Edk. case_decide as E; [subst; by rewrite lookup_insert, decide_True|].
    rewrite lookup_insert_ne by congruence. done. }
  rewrite (tframe_log l_start _ _ (λ _ _ _, eq_refl) Hf3), (tframe_log l_size _ _ (λ _ _ _, eq_refl) Hf3), Est2, Esz2.
  assert (Hn : hdr_n (header [] h2) = 0) by (by rewrite header_n by (cbn; lia)).
  split_and!.
  - by split.
  - rewrite Edk. intros b Hb. destruct (decide (b = 2)) as [->|Hne].
    + rewrite lookup_insert, decide_True by done. eexists. split; [done|]. by rewrite length_header.
    + rewrite lookup_insert_ne by congruence. by apply disk8_ok.
  - destruct boot8_log as [Hsb Hh1 Hgg _]. split; [by rewrite Edk'|done|done|].
    exists (header [] h2). rewrite Edk'. split; [done|]. by apply hdr_ok_empty.
  - exists (header [] h2). rewrite Edk'. done.
Qed.

Lemma commit_crash_atomic_witness :
  ∃ s', commit tx8 = Ret tt s' ∧ ∀ W1 W2, dtrace s' = dtrace tx8 ++ traced (W1 ++ W2) →
    ∀ r, booted r → disk r = replay W1 (disk tx8) →
      ∃ r', initlog 1 r = Ret tt r'
        ∧ ((∀ b, home (klog tx8) b → vw r' b = dk tx8 b) ∧ W2 ≠ [] ∨ (∀ b, home (klog tx8) b → vw r' b = vw tx8 b)).
Proof.
  destruct tx8_ready as (Ht & Hd & Hl & h & Hh & Hn).
  apply (commit_crash_atomic tx8 [6] h); try done. intros H. by apply list_elem_of_singleton in H.
Defined.

(** [boot8] after a crash in the middle of a commit: the header lists block 6,
    whose new contents are in the first log block. *)
Definition crash8 : kernel :=
  boot8 <| disk ::= <[(1, 2) := header [6] zero_block]> |> <| disk ::= <[(1, 3) := replicate (Z.to_nat BSIZE) 9]> |>.

Lemma crash8_dk b :
  dk crash8 b = if decide (b = 3) then Some (replicate (Z.to_nat BSIZE) 9)
                else if decide (b = 2) then Some (header [6] zero_block) else dk boot8 b.
Proof.
  unfold dk. change (disk crash8) with (<[(1, 3) := replicate (Z.to_nat BSIZE) 9]> (<[(1, 2) := header [6] zero_block]> disk8)).
  case_decide as E; [subst; by rewrite lookup_insert, decide_True|]. rewrite lookup_insert_ne by congruence.
  case_decide as E'; [subst; by rewrite lookup_insert, decide_True|]. by rewrite lookup_insert_ne by congruence.
Qed.

Lemma crash8_list : hdr_list (header [6] zero_block) = [6].
Proof. by vm_compute. Qed.

Lemma recovery_idempotent_witness :
  ∃ s', initlog 1 crash8 = Ret tt s' ∧ vw s' 6 = Some (replicate (Z.to_nat BSIZE) 9)
    ∧ ∀ W1 W2, dtrace s' = dtrace crash8 ++ traced (W1 ++ W2) →
        ∀ r, booted r → disk r = replay W1 (disk crash8) →
          ∃ r', initlog 1 r = Ret tt r' ∧ ∀ b, home (log_at 2 4) b → vw r' b = vw s' b.
Proof.
  destruct (recovery_idempotent crash8 2 4) as (s' & H1 & Hv & _ & Hr).
  - destruct boot8_booted as [H1 H2 H3]. by split.
  - intros b Hb. destruct (disk8_ok b Hb) as (d & Hd & Hl). fold (dk crash8 b). rewrite crash8_dk.
    repeat case_decide; [by eexists|eexists; split; [done|by rewrite length_header]|by exists d].
  - destruct boot8_log as [Hsb Hh Hg _]. split; [by rewrite crash8_dk|done|done|].
    exists (header [6] zero_block). rewrite crash8_dk. split; [done|]. split; rewrite ?crash8_list; try by vm_compute.
    + apply Forall_singleton. split; [rewrite nblocks8; lia|]. change (l_start (log_at 2 4)) with 2.
      change (l_size (log_at 2 4)) with 4. lia.
    + apply NoDup_singleton.
  - intros h. rewrite crash8_dk. intros [= <-]. rewrite crash8_list, list_elem_of_singleton. done.
  - exists s'. split_and!; [done| |done]. destruct (Hv 6) as [_ ->].
    + split; [rewrite nblocks8; lia|]. change (l_start (log_at 2 4)) with 2. change (l_size (log_at 2 4)) with 4. lia.
    + unfold recovered. rewrite !crash8_dk. cbn [decide]. rewrite decide_False, decide_True by done.
      change (default [] (Some (header [6] zero_block))) with (header [6] zero_block). rewrite crash8_list. cbn [inst_writes].
      rewrite updw_cons, updw_nil. cbn [fst snd]. rewrite decide_True by done. by rewrite crash8_dk.
Defined.

Lemma begin_op_overcommits_witness :
  ∃ s', begin_op (kernel_zero <| klog ::= λ l, l <| l_outstanding := 2 |> |>) = Ret tt s'.
Proof.
  destruct (begin_op_overcommits (kernel_zero <| klog ::= λ l, l <| l_outstanding := 2 |> |>)) as [(s' & H & _) _];
    [by vm_compute; lia|done|done|done|done|by exists s'].
Defined.
