(* ===== verification/Fs.v ===== *)
(** The file system (fs.c): free-block bitmap, inodes and the inode cache,
    file contents, directories and path names. *)

From S2P Require Import Prelude Types Spinlock Printf Sched Console Ide Bio Blocks Bytes Log.

(** ** Layout of the disk structures *)

(** [struct dinode] number [k] of a block. *)
Definition dinode_off (k : Z) : nat := Z.to_nat (k * DINODESZ).
Definition get_addrs (d : list Z) (off : nat) : list Z :=
  (λ i, get32 d (off + 12 + 4 * i)) <$> seq 0 (Z.to_nat (NDIRECT + 1)).
Definition dinode_at (d : list Z) (k : Z) : dinode :=
  let o := dinode_off k in
  mkDinode (i16 (get16 d o)) (i16 (get16 d (o + 2))) (i16 (get16 d (o + 4))) (i16 (get16 d (o + 6)))
    (get32 d (o + 8)) (get_addrs d o).

(** [memmove(dip->addrs, ip->addrs, sizeof(ip->addrs))]. *)
Fixpoint put_addrs (off : nat) (l : list Z) (d : list Z) : list Z :=
  match l with [] => d | a :: l' => put_addrs (off + 4) l' (put32 off a d) end.

(** Block containing inode [i], and block of the free map for block [b]. *)
Definition IBLOCK (i : Z) (sb : superblock) : Z := u32 (i / IPB + sb_inodestart sb).
Definition BBLOCK (b : Z) (sb : superblock) : Z := u32 (b / BPB + sb_bmapstart sb).

(** [struct dirent]: the inode number and the bytes of the name. *)
Definition de_inum (de : list Z) : Z := get16 de 0.
Definition de_name (de : list Z) : list Z := take (Z.to_nat DIRSIZ) (drop 2 de).

Definition get_inode (i : nat) : K inode := ip ← gets (λ s, icache s !! i); deref ip.
Definition upd_inode (i : nat) (f : inode → inode) : K unit :=
  ip ← gets (λ s, icache s !! i);
  match ip with Some _ => modify (λ s, s <| icache ::= alter f i |>) | None => fault end.

(** ** Bitmap *)

(** [m = 1 << (bi % 8)] and [bp->data[bi/8] & m]. *)
Definition bit_mask (bi : Z) : Z := Z.shiftl 1 (bi mod 8).
Definition bit_set (d : list Z) (bi : Z) : bool :=
  negb (Z.land (byte_at d (Z.to_nat (bi / 8))) (bit_mask bi) =? 0).

(** The inner loop of balloc, from bit [bi]: the first clear bit. *)
Fixpoint bit_search (n : nat) (bi : Z) (b size : Z) (d : list Z) : option Z :=
  match n with
  | O => None
  | S n' =>
      if ((bi <? BPB) && (b + bi <? size))%bool then
        if bit_set d bi then bit_search n' (bi + 1) b size d else Some bi
      else None
  end.

Section Fs.
Context {P : Platform} {D : DiskDriver}.

Definition bzero (dev bno : Z) : K unit :=
  bp ← bread dev (u32 bno);
  upd_data bp (λ d, replicate (length d) 0);;
  log_write bp;;
  brelse bp.

(** The outer loop of balloc; [n] bounds the number of bitmap blocks. *)
Fixpoint balloc_loop (n : nat) (dev b : Z) : K Z :=
  sb ← gets sb;
  if b <? sb_size sb then
    match n with
    | O => nofuel
    | S n' =>
        bp ← bread dev (BBLOCK b sb);
        bb ← getbuf bp;
        match bit_search (Z.to_nat BPB) 0 b (sb_size sb) (b_data bb) with
        | Some bi =>
            upd_data bp (λ d, <[Z.to_nat (bi / 8) := Z.lor (byte_at d (Z.to_nat (bi / 8))) (bit_mask bi)]> d);;
            log_write bp;;
            brelse bp;;
            bzero dev (b + bi);;
            mret (u32 (b + bi))
        | None => brelse bp;; balloc_loop n' dev (b + BPB)
        end
    end
  else panic "balloc: out of blocks".

Definition balloc (dev : Z) : K Z :=
  sb ← gets sb;
  balloc_loop (Z.to_nat (sb_size sb / BPB + 1)) dev 0.

Definition bfree (dev b : Z) : K unit :=
  sbk ← readsb dev;
  modify (λ s, s <| sb := sbk |>);;
  bp ← bread dev (BBLOCK b sbk);
  bb ← getbuf bp;
  let bi := b mod BPB in
  if negb (bit_set (b_data bb) bi) then panic "freeing free block" else
  upd_data bp (λ d, <[Z.to_nat (bi / 8) := Z.land (byte_at d (Z.to_nat (bi / 8))) (255 - bit_mask bi)]> d);;
  log_write bp;;
  brelse bp.

(** ** Inodes *)

Definition iinit (dev : Z) : K unit :=
  for_each (seq 0 NINODE) (λ i, initsleeplock (SLInode i));;
  sbk ← readsb dev;
  modify (λ s, s <| sb := sbk |>);;
  cprint "sb: size %d nblocks %d ninodes %d nlog %d logstart %d inodestart %d bmap start %d
"
    [AInt (sb_size sbk); AInt (sb_nblocks sbk); AInt (sb_ninodes sbk); AInt (sb_nlog sbk);
     AInt (sb_logstart sbk); AInt (sb_inodestart sbk); AInt (sb_bmapstart sbk)].

(** The scan of iget: the first entry in use for the inode, or the first free one. *)
Fixpoint iget_scan (l : list inode) (i : nat) (empty : option nat) (dev inum : Z) : nat + option nat :=
  match l with
  | [] => inr empty
  | ip :: l' =>
      if ((0 <? i_ref ip) && (i_dev ip =? dev) && (i_inum ip =? inum))%bool then inl i
      else iget_scan l' (S i)
             (match empty with None => if i_ref ip =? 0 then Some i else None | Some _ => empty end) dev inum
  end.

Definition iget (dev inum : Z) : K nat :=
  acquire LIcache;;
  ic ← gets icache;
  match iget_scan ic 0 None dev inum with
  | inl i =>
      upd_inode i (λ ip, ip <| i_ref ::= λ r, r + 1 |>);;
      release LIcache;;
      mret i
  | inr None => panic "iget: no inodes"
  | inr (Some i) =>
      upd_inode i (λ ip, ip <| i_dev := dev |> <| i_inum := inum |> <| i_ref := 1 |> <| i_valid := false |>);;
      release LIcache;;
      mret i
  end.

(** The loop of ialloc from inode [inum]. *)
Fixpoint ialloc_loop (n : nat) (dev type inum : Z) : K nat :=
  sb ← gets sb;
  if inum <? sb_ninodes sb then
    match n with
    | O => nofuel
    | S n' =>
        bp ← bread dev (IBLOCK inum sb);
        bb ← getbuf bp;
        let k := inum mod IPB in
        if d_type (dinode_at (b_data bb) k) =? 0 then
          upd_data bp (λ d, put16 (dinode_off k) type
                              (list_inserts (dinode_off k) (replicate (Z.to_nat DINODESZ) 0) d));;
          log_write bp;;
          brelse bp;;
          iget dev inum
        else
          brelse bp;;
          ialloc_loop n' dev type (inum + 1)
    end
  else panic "ialloc: no inodes".

Definition ialloc (dev type : Z) : K nat :=
  sb ← gets sb;
  ialloc_loop (Z.to_nat (sb_ninodes sb)) dev type 1.

(** The assignments of iupdate to [*dip]. *)
Definition put_dinode (k : Z) (ip : inode) (d : list Z) : list Z :=
  let o := dinode_off k in
  put_addrs (o + 12) (i_addrs ip)
    (put32 (o + 8) (i_size ip)
      (put16 (o + 6) (i_nlink ip) (put16 (o + 4) (i_minor ip) (put16 (o + 2) (i_major ip) (put16 o (i_type ip) d))))).

Definition iupdate (i : nat) : K unit :=
  ip ← get_inode i;
  sb ← gets sb;
  bp ← bread (i_dev ip) (IBLOCK (i_inum ip) sb);
  ip ← get_inode i;
  upd_data bp (put_dinode (i_inum ip mod IPB) ip);;
  log_write bp;;
  brelse bp.

Definition idup (i : nat) : K nat :=
  acquire LIcache;;
  upd_inode i (λ ip, ip <| i_ref ::= λ r, r + 1 |>);;
  release LIcache;;
  mret i.

(** The assignments of ilock from [*dip]. *)
Definition load_dinode (di : dinode) (ip : inode) : inode :=
  ip <| i_type := d_type di |> <| i_major := d_major di |> <| i_minor := d_minor di |>
     <| i_nlink := d_nlink di |> <| i_size := d_size di |> <| i_addrs := d_addrs di |>.

Definition ilock (ip : option nat) : K unit :=
  match ip with
  | None => panic "ilock"
  | Some i =>
      ip ← get_inode i;
      if i_ref ip <? 1 then panic "ilock" else
      acquiresleep (SLInode i);;
      ip ← get_inode i;
      when (negb (i_valid ip)) (
        sb ← gets sb;
        bp ← bread (i_dev ip) (IBLOCK (i_inum ip) sb);
        bb ← getbuf bp;
        upd_inode i (load_dinode (dinode_at (b_data bb) (i_inum ip mod IPB)));;
        brelse bp;;
        upd_inode i (λ ip, ip <| i_valid := true |>);;
        ip ← get_inode i;
        if i_type ip =? 0 then panic "ilock: no type" else mret tt)
  end.

Definition iunlock (ip : option nat) : K unit :=
  match ip with
  | None => panic "iunlock"
  | Some i =>
      h ← holdingsleep (SLInode i);
      ip ← get_inode i;
      if (negb h || (i_ref ip <? 1))%bool then panic "iunlock" else
      releasesleep (SLInode i)
  end.

(** [for(i = 0; i < NDIRECT; i++)] of itrunc. *)
Definition itrunc_direct (i : nat) : K unit :=
  for_each (seq 0 (Z.to_nat NDIRECT)) (λ k,
    ip ← get_inode i;
    a ← deref (i_addrs ip !! k);
    when (negb (a =? 0)) (
      bfree (i_dev ip) a;;
      upd_inode i (λ ip, ip <| i_addrs ::= <[k := 0]> |>))).

Definition itrunc (i : nat) : K unit :=
  itrunc_direct i;;
  ip ← get_inode i;
  ind ← deref (i_addrs ip !! Z.to_nat NDIRECT);
  when (negb (ind =? 0)) (
    bp ← bread (i_dev ip) ind;
    for_each (seq 0 (Z.to_nat NINDIRECT)) (λ j,
      bb ← getbuf bp;
      let a := get32 (b_data bb) (4 * j) in
      when (negb (a =? 0)) (bfree (i_dev ip) a));;
    brelse bp;;
    ip ← get_inode i;
    ind ← deref (i_addrs ip !! Z.to_nat NDIRECT);
    bfree (i_dev ip) ind;;
    upd_inode i (λ ip, ip <| i_addrs ::= <[Z.to_nat NDIRECT := 0]> |>));;
  upd_inode i (λ ip, ip <| i_size := 0 |>);;
  iupdate i.

Definition iput (i : nat) : K unit :=
  acquiresleep (SLInode i);;
  ip ← get_inode i;
  when (i_valid ip && (i_nlink ip =? 0))%bool (
    acquire LIcache;;
    ip ← get_inode i;
    release LIcache;;
    when (i_ref ip =? 1) (
      itrunc i;;
      upd_inode i (λ ip, ip <| i_type := 0 |>);;
      iupdate i;;
      upd_inode i (λ ip, ip <| i_valid := false |>)));;
  releasesleep (SLInode i);;
  acquire LIcache;;
  upd_inode i (λ ip, ip <| i_ref ::= λ r, r - 1 |>);;
  release LIcache.

Definition iunlockput (i : nat) : K unit :=
  iunlock (Some i);;
  iput i.

(** ** Contents *)

Definition bmap (i : nat) (bn : Z) : K Z :=
  ip ← get_inode i;
  if bn <? NDIRECT then
    a ← deref (i_addrs ip !! Z.to_nat bn);
    if a =? 0 then
      addr ← balloc (i_dev ip);
      upd_inode i (λ ip, ip <| i_addrs ::= <[Z.to_nat bn := addr]> |>);;
      mret addr
    else mret a
  else
  let bn := bn - NDIRECT in
  if bn <? NINDIRECT then
    a ← deref (i_addrs ip !! Z.to_nat NDIRECT);
    ind ← (if a =? 0 then
             addr ← balloc (i_dev ip);
             upd_inode i (λ ip, ip <| i_addrs ::= <[Z.to_nat NDIRECT := addr]> |>);;
             mret addr
           else mret a);
    bp ← bread (i_dev ip) ind;
    bb ← getbuf bp;
    let a := get32 (b_data bb) (Z.to_nat (4 * bn)) in
    addr ← (if a =? 0 then
              addr ← balloc (i_dev ip);
              upd_data bp (put32 (Z.to_nat (4 * bn)) addr);;
              log_write bp;;
              mret addr
            else mret a);
    brelse bp;;
    mret addr
  else panic "bmap: out of range".

Definition stati (i : nat) (st : stat) : K stat :=
  ip ← get_inode i;
  mret (mkStat (i_type ip) (i_dev ip) (i_inum ip) (i_nlink ip) (i_size ip) (st_uid st) (st_gid st) (st_mode st)).
End Fs.

(** ** The device switch

    [devsw[major].read(ip, dst, n)] returns a result and the bytes it stored at
    [dst]; [devsw[major].write(ip, src, n)] takes the [n] bytes at [src].  A
    missing entry is a null function pointer. *)
Class Devsw := {
  dev_read : Z → option (nat → Z → K (Z * list Z));
  dev_write : Z → option (nat → list Z → K Z)
}.

Section Content.
Context {P : Platform} {D : DiskDriver} {V : Devsw}.

(** The loop of readi: [n] bytes from [off] are left. *)
Fixpoint readi_loop (fuel : nat) (i : nat) (off n : Z) : K (list Z) :=
  if 0 <? n then
    match fuel with
    | O => nofuel
    | S f =>
        ip ← get_inode i;
        addr ← bmap i (off / BSIZE);
        bp ← bread (i_dev ip) addr;
        bb ← getbuf bp;
        let m := Z.min n (BSIZE - off mod BSIZE) in
        let bs := take (Z.to_nat m) (drop (Z.to_nat (off mod BSIZE)) (b_data bb)) in
        brelse bp;;
        rest ← readi_loop f i (off + m) (n - m);
        mret (bs ++ rest)
    end
  else mret [].

(** readi: the result and the bytes stored at [dst]. *)
Definition readi (i : nat) (off n : Z) : K (Z * list Z) :=
  ip ← get_inode i;
  if i_type ip =? T_DEV then
    if ((i_major ip <? 0) || (NDEV <=? i_major ip))%bool then mret (-1, []) else
    match dev_read (i_major ip) with
    | None => mret (-1, [])
    | Some read => read i (i32 n)
    end
  else
  if ((i_size ip <? off) || (uadd off n <? off))%bool then mret (-1, []) else
  let n := if i_size ip <? uadd off n then usub (i_size ip) off else n in
  bs ← readi_loop (Z.to_nat (n / BSIZE + 2)) i off n;
  mret (i32 n, bs).

(** The loop of writei: the bytes [src] are left; returns the final [off]. *)
Fixpoint writei_loop (fuel : nat) (i : nat) (src : list Z) (off : Z) : K Z :=
  let n := Z.of_nat (length src) in
  if 0 <? n then
    match fuel with
    | O => nofuel
    | S f =>
        ip ← get_inode i;
        addr ← bmap i (off / BSIZE);
        bp ← bread (i_dev ip) addr;
        let m := Z.min n (BSIZE - off mod BSIZE) in
        upd_data bp (list_inserts (Z.to_nat (off mod BSIZE)) (take (Z.to_nat m) src));;
        log_write bp;;
        brelse bp;;
        writei_loop f i (drop (Z.to_nat m) src) (off + m)
    end
  else mret off.

(** writei of the bytes [src], [n] of them. *)
Definition writei (i : nat) (src : list Z) (off : Z) : K Z :=
  let n := Z.of_nat (length src) in
  ip ← get_inode i;
  if i_type ip =? T_DEV then
    if ((i_major ip <? 0) || (NDEV <=? i_major ip))%bool then mret (-1) else
    match dev_write (i_major ip) with
    | None => mret (-1)
    | Some write => write i src
    end
  else
  if ((i_size ip <? off) || (uadd off n <? off))%bool then mret (-1) else
  if MAXFILE * BSIZE <? uadd off n then mret (-1) else
  off ← writei_loop (Z.to_nat (n / BSIZE + 2)) i src off;
  ip ← get_inode i;
  when ((0 <? n) && (i_size ip <? off))%bool (
    upd_inode i (λ ip, ip <| i_size := off |>);;
    iupdate i);;
  mret n.
End Content.

(** ** Directories

    Names are lists of characters, cut at their NUL; past its end a list reads
    as NUL. *)

(** strncmp (string.c) on such lists. *)
Fixpoint strncmp_list (n : nat) (p q : list Z) : Z :=
  match n with
  | O => 0
  | S n' =>
      let a := byte_at p 0 in let b := byte_at q 0 in
      if (negb (a =? 0) && (a =? b))%bool then strncmp_list n' (tail p) (tail q) else u8 a - u8 b
  end.

Definition namecmp (s t : list Z) : Z := strncmp_list (Z.to_nat DIRSIZ) s t.

(** strncpy (string.c): the [n] bytes it writes. *)
Fixpoint strncpy_list (n : nat) (t : list Z) : list Z :=
  match n with
  | O => []
  | S n' => let a := byte_at t 0 in if a =? 0 then replicate n 0 else a :: strncpy_list n' (tail t)
  end.

(** [struct dirent de] with [de.name] and [de.inum] filled in. *)
Definition make_dirent (name : list Z) (inum : Z) : list Z :=
  bytes16 inum ++ strncpy_list (Z.to_nat DIRSIZ) name.

Section Dir.
Context {P : Platform} {D : DiskDriver} {V : Devsw}.

(** The loop of dirlookup from [off]: the inode and the offset of its entry. *)
Fixpoint dirlookup_loop (n : nat) (dp : nat) (name : list Z) (off : Z) : K (option (nat * Z)) :=
  ip ← get_inode dp;
  if off <? i_size ip then
    match n with
    | O => nofuel
    | S n' =>
        '(r, de) ← readi dp off DIRENTSZ;
        if negb (r =? DIRENTSZ) then panic "dirlookup read" else
        if de_inum de =? 0 then dirlookup_loop n' dp name (off + DIRENTSZ) else
        if namecmp name (de_name de) =? 0 then
          ip ← get_inode dp;
          next ← iget (i_dev ip) (de_inum de);
          mret (Some (next, off))
        else dirlookup_loop n' dp name (off + DIRENTSZ)
    end
  else mret None.

Definition dirlookup (dp : nat) (name : list Z) : K (option (nat * Z)) :=
  ip ← get_inode dp;
  if negb (i_type ip =? T_DIR) then panic "dirlookup not DIR" else
  dirlookup_loop (Z.to_nat (i_size ip / DIRENTSZ + 1)) dp name 0.

(** The loop of dirlink: the offset of the first empty entry, or of the end. *)
Fixpoint dirlink_loop (n : nat) (dp : nat) (off : Z) : K Z :=
  ip ← get_inode dp;
  if off <? i_size ip then
    match n with
    | O => nofuel
    | S n' =>
        '(r, de) ← readi dp off DIRENTSZ;
        if negb (r =? DIRENTSZ) then panic "dirlink read" else
        if de_inum de =? 0 then mret off else dirlink_loop n' dp (off + DIRENTSZ)
    end
  else mret off.

Definition dirlink (dp : nat) (name : list Z) (inum : Z) : K Z :=
  e ← dirlookup dp name;
  match e with
  | Some (ip, _) => iput ip;; mret (-1)
  | None =>
      ip ← get_inode dp;
      off ← dirlink_loop (Z.to_nat (i_size ip / DIRENTSZ + 1)) dp 0;
      r ← writei dp (make_dirent name (u16 inum)) off;
      if negb (r =? DIRENTSZ) then panic "dirlink" else mret 0
  end.

(** ** Paths *)

(** ['/']. *)
Definition SLASH : Z := 47.

(** Skipping leading slashes. *)
Fixpoint skip_slashes (path : list Z) : list Z :=
  match path with
  | c :: path' => if c =? SLASH then skip_slashes path' else path
  | [] => []
  end.

(** The characters up to the next slash or the end, and what follows. *)
Fixpoint take_elem (path : list Z) : list Z * list Z :=
  match path with
  | c :: path' => if c =? SLASH then ([], path) else let '(e, r) := take_elem path' in (c :: e, r)
  | [] => ([], [])
  end.

(** skipelem: [None] for a null pointer, else the element, cut to [DIRSIZ]
    characters, and the rest of the path. *)
Definition skipelem (path : list Z) : option (list Z * list Z) :=
  match skip_slashes path with
  | [] => None
  | path =>
      let '(s, path) := take_elem path in
      let len := Z.of_nat (length s) in
      let name := if DIRSIZ <=? len then take (Z.to_nat DIRSIZ) s else s in
      Some (name, skip_slashes path)
  end.

(** The loop of namex; the result is the inode and the last element copied to
    [name]. *)
Fixpoint namex_loop (n : nat) (path : list Z) (nameiparent : bool) (ip : nat) (name : list Z) :
    K (option (nat * list Z)) :=
  match skipelem path with
  | None =>
      if nameiparent then iput ip;; mret None else mret (Some (ip, name))
  | Some (name, path) =>
      match n with
      | O => nofuel
      | S n' =>
          ilock (Some ip);;
          i ← get_inode ip;
          if negb (i_type i =? T_DIR) then iunlockput ip;; mret None else
          if (nameiparent && bool_decide (path = []))%bool then iunlock (Some ip);; mret (Some (ip, name)) else
          e ← dirlookup ip name;
          match e with
          | None => iunlockput ip;; mret None
          | Some (next, _) => iunlockput ip;; namex_loop n' path nameiparent next name
          end
      end
  end.

Definition namex (path : list Z) (nameiparent : bool) : K (option (nat * list Z)) :=
  ip ← (if byte_at path 0 =? SLASH then iget ROOTDEV ROOTINO
        else p ← curproc_idx; pr ← getproc p; cwd ← deref (cwd pr); idup cwd);
  namex_loop (length path) path nameiparent ip [].

Definition namei (path : list Z) : K (option nat) :=
  r ← namex path false;
  mret (fst <$> r).

Definition nameiparent (path : list Z) : K (option (nat * list Z)) := namex path true.
End Dir.

(** Stubs for file protection: they change nothing and fail. *)
Definition chmod (path : list Z) (mode : Z) : K Z := mret (-1).
Definition chown (path : list Z) (owner : Z) : K Z := mret (-1).
Definition chgrp (path : list Z) (group : Z) : K Z := mret (-1).
