(* ===== verification/Bitmap.v ===== *)
(** The free-block bitmap (balloc, bfree and bzero of fs.c): the bits as a set
    of block numbers, and what the operations do to it inside a transaction. *)

From S2P Require Import Prelude Types Spinlock Sched Ide Bio Blocks Bytes Log Fs.

(** ** Bits *)

Lemma land_bit x k : 0 ≤ k → negb (Z.land x (2 ^ k) =? 0) = Z.testbit x k.
Proof.
  intros Hk. destruct (Z.testbit x k) eqn:E.
  - apply negb_true_iff, Z.eqb_neq. intros H0.
    assert (Hb : Z.testbit (Z.land x (2 ^ k)) k = false) by (rewrite H0; apply Z.testbit_0_l).
    by rewrite Z.land_spec, E, Z.pow2_bits_eqb, Z.eqb_refl in Hb.
  - apply negb_false_iff, Z.eqb_eq. apply Z.bits_inj'. intros n Hn.
    rewrite Z.land_spec, Z.pow2_bits_eqb, Z.testbit_0_l by done.
    destruct (Z.eqb_spec k n) as [<-|Hne]; [by rewrite E|by rewrite andb_false_r].
Qed.

Lemma bit_mask_pow bi : bit_mask bi = 2 ^ (bi mod 8).
Proof. apply Z.shiftl_1_l. Qed.

Lemma bit_set_testbit d bi : bit_set d bi = Z.testbit (byte_at d (Z.to_nat (bi / 8))) (bi mod 8).
Proof.
  unfold bit_set. rewrite bit_mask_pow. apply land_bit. apply Z.mod_pos_bound. lia.
Qed.

(** Setting and clearing the bit [bi] of a block, as balloc and bfree do. *)
Definition set_bit (bi : Z) (d : list Z) : list Z :=
  <[Z.to_nat (bi / 8) := Z.lor (byte_at d (Z.to_nat (bi / 8))) (bit_mask bi)]> d.
Definition clear_bit (bi : Z) (d : list Z) : list Z :=
  <[Z.to_nat (bi / 8) := Z.land (byte_at d (Z.to_nat (bi / 8))) (255 - bit_mask bi)]> d.

Lemma byte_at_insert d k v j :
  (k < length d)%nat → byte_at (<[k := v]> d) j = if decide (j = k) then v else byte_at d j.
Proof.
  intros Hk. unfold byte_at. case_decide as E.
  - subst j. by rewrite list_lookup_insert_eq.
  - by rewrite list_lookup_insert_ne.
Qed.

Lemma bit_pos bi : 0 ≤ bi < BPB → (Z.to_nat (bi / 8) < Z.to_nat BSIZE)%nat ∧ 0 ≤ bi mod 8 < 8 ∧ bi = 8 * (bi / 8) + bi mod 8 ∧ 0 ≤ bi / 8.
Proof.
  unfold BPB, BSIZE. intros H. pose proof (Z.mod_pos_bound bi 8 ltac:(lia)).
  pose proof (Z_div_mod_eq_full bi 8). lia.
Qed.

Lemma set_bit_spec d bi bj :
  length d = Z.to_nat BSIZE → 0 ≤ bi < BPB → 0 ≤ bj < BPB →
  bit_set (set_bit bi d) bj = if decide (bj = bi) then true else bit_set d bj.
Proof.
  intros Hl Hi Hj. destruct (bit_pos bi Hi) as (Hbi & Hmi & Ei & Hqi), (bit_pos bj Hj) as (Hbj & Hmj & Ej & Hqj).
  rewrite !bit_set_testbit. unfold set_bit. rewrite byte_at_insert by lia. case_decide as E.
  - assert (Eq : bj / 8 = bi / 8) by lia. rewrite Eq.
    rewrite bit_mask_pow, Z.lor_spec, Z.pow2_bits_eqb by lia.
    destruct (Z.eqb_spec (bi mod 8) (bj mod 8)); rewrite ?orb_true_r, ?orb_false_r.
    + rewrite decide_True by lia. done.
    + rewrite decide_False by lia. done.
  - rewrite decide_False; [done|]. intros ->. done.
Qed.

Lemma clear_mask k j : 0 ≤ k < 8 → 0 ≤ j < 8 → Z.testbit (255 - 2 ^ k) j = negb (k =? j).
Proof.
  intros Hk Hj.
  assert (Hk' : k = 0 ∨ k = 1 ∨ k = 2 ∨ k = 3 ∨ k = 4 ∨ k = 5 ∨ k = 6 ∨ k = 7) by lia.
  assert (Hj' : j = 0 ∨ j = 1 ∨ j = 2 ∨ j = 3 ∨ j = 4 ∨ j = 5 ∨ j = 6 ∨ j = 7) by lia.
  naive_solver.
Qed.

Lemma clear_bit_spec d bi bj :
  length d = Z.to_nat BSIZE → 0 ≤ bi < BPB → 0 ≤ bj < BPB →
  bit_set (clear_bit bi d) bj = if decide (bj = bi) then false else bit_set d bj.
Proof.
  intros Hl Hi Hj. destruct (bit_pos bi Hi) as (Hbi & Hmi & Ei & Hqi), (bit_pos bj Hj) as (Hbj & Hmj & Ej & Hqj).
  rewrite !bit_set_testbit. unfold clear_bit. rewrite byte_at_insert by lia. case_decide as E.
  - assert (Eq : bj / 8 = bi / 8) by lia. rewrite Eq.
    rewrite bit_mask_pow, Z.land_spec, clear_mask by lia.
    destruct (Z.eqb_spec (bi mod 8) (bj mod 8)); cbn [negb]; rewrite ?andb_true_r, ?andb_false_r.
    + rewrite decide_True by lia. done.
    + rewrite decide_False by lia. done.
  - rewrite decide_False; [done|]. intros ->. done.
Qed.

Lemma length_set_bit bi d : length (set_bit bi d) = length d.
Proof. apply length_insert. Qed.
Lemma length_clear_bit bi d : length (clear_bit bi d) = length d.
Proof. apply length_insert. Qed.

(** The inner loop finds the first clear bit of the block that stands for a
    block below [size]. *)
Lemma bit_search_spec n bi b size d :
  BPB - bi ≤ Z.of_nat n →
  match bit_search n bi b size d with
  | Some r => bi ≤ r < BPB ∧ b + r < size ∧ bit_set d r = false ∧ ∀ x, bi ≤ x < r → bit_set d x = true
  | None => ∀ x, bi ≤ x < BPB → b + x < size → bit_set d x = true
  end.
Proof.
  revert bi. induction n as [|n IH]; intros bi Hn; cbn [bit_search]; [intros; lia|].
  destruct (Z.ltb_spec bi BPB); cbn [andb]; [|intros; lia].
  destruct (Z.ltb_spec (b + bi) size); cbn [andb]; [|intros; lia].
  destruct (bit_set d bi) eqn:E.
  - specialize (IH (bi + 1) ltac:(lia)). destruct (bit_search n (bi + 1) b size d) as [r|].
    + destruct IH as (H1 & H2 & H3 & H4). split_and!; [lia|lia|done|done|].
      intros x Hx. destruct (decide (x = bi)) as [->|]; [done|]. apply H4. lia.
    + intros x Hx Hs. destruct (decide (x = bi)) as [->|]; [done|]. apply IH; lia.
  - split_and!; [lia|lia|done|done|]. intros; lia.
Qed.

(** ** The operations in a transaction *)

Lemma ladd_in L b x : x ∈ ladd L b ↔ x ∈ L ∨ x = b.
Proof.
  unfold ladd. case_decide as E.
  - split; [by left|]. intros [?| ->]; done.
  - rewrite elem_of_app, list_elem_of_singleton. done.
Qed.

Section Bitmap.
Context {P : Platform} {D : DiskDriver} {SD : SyncDisk D}.

Lemma in_tx_block s hb L b :
  in_tx s hb L → 0 ≤ b < nblocks → vw s b = Some (contents s b) ∧ length (contents s b) = Z.to_nat BSIZE.
Proof.
  intros [Hc _] Hb. destruct (blk_some s hb b (tc_blk _ _ _ Hc) Hb) as (d & Hd & Hl).
  unfold contents. by rewrite Hd.
Qed.

Lemma contents_eq s s' b : vw s' b = vw s b → contents s' b = contents s b.
Proof. unfold contents. by intros ->. Qed.

Lemma tframe_sb s s' : tframe s s' → sb s' = sb s.
Proof. by apply tframe_field. Qed.
Lemma tframe_icache s s' : tframe s s' → icache s' = icache s.
Proof. by apply tframe_field. Qed.

(** Reading a block: what [bp->data] holds between bread and brelse. *)
Lemma tx_getbuf s hb L i b :
  in_tx s hb L → (i, b) ∈ hb → ∃ bb, getbuf i s = Ret bb s ∧ b_data bb = contents s b.
Proof.
  intros [Hc _] Hi. destruct (getbuf_held s hb i b (tc_blk _ _ _ Hc) Hi) as (bb & Hg & _ & Hv & _).
  exists bb. split; [done|]. unfold contents. by rewrite Hv.
Qed.

(** [bread; change; log_write; brelse] as a whole statement. *)
Lemma tx_update_ret s hb L b f :
  in_tx s hb L → home (klog s) b → b ∉ hb.*2 → length (f (contents s b)) = Z.to_nat BSIZE → fits s L 1 →
  (length hb ≤ 1)%nat →
  ∃ s', (i ← bread 1 b; upd_data i f;; log_write i;; brelse i) s = Ret tt s' ∧ in_tx s' hb (ladd L b) ∧ tframe s s'
    ∧ contents s' b = f (contents s b) ∧ (∀ x, x ≠ b → vw s' x = vw s x).
Proof.
  intros Ht Hh Hn Hl Hfit Hhb. assert (Hfit0 : fits s L 0) by (unfold fits in *; lia).
  destruct (in_tx_block s hb L b Ht (proj1 Hh)) as [Hd Hlen].
  destruct (tx_bread s hb L b Ht (proj1 Hh) Hn Hfit0 Hhb) as (i & s1 & H1 & Ht1 & Hf1 & Hv1).
  rewrite (bind_run _ _ _ _ _ H1). cbv beta.
  destruct (tx_edit s1 ((i, b) :: hb) L i b (contents s b) f Ht1) as (s2 & s3 & H2 & H3 & Ht3 & Hf3 & Hv3 & Ho3).
  { by left. }
  { by rewrite (tframe_home _ _ _ Hf1). }
  { by rewrite Hv1. }
  { by rewrite Hl, Hlen. }
  { by rewrite (tframe_fits _ _ _ _ Hf1). }
  rewrite (bind_run _ _ _ _ _ H2). cbv beta. rewrite (bind_run _ _ _ _ _ H3). cbv beta.
  destruct (tx_brelse s3 [] hb _ i b Ht3) as (s4 & H4 & Ht4 & Hf4 & Hv4).
  exists s4. split_and!; try done.
  - etrans; [done|]. by etrans.
  - unfold contents at 1. by rewrite Hv4, Hv3.
  - intros x Hx. by rewrite Hv4, Ho3.
Qed.

Lemma bzero_run s hb L b :
  in_tx s hb L → log_geo (klog s) → home (klog s) b → b ∉ hb.*2 → fits s L 1 → (length hb ≤ 1)%nat →
  ∃ s', bzero 1 b s = Ret tt s' ∧ in_tx s' hb (ladd L b) ∧ tframe s s'
    ∧ contents s' b = replicate (Z.to_nat BSIZE) 0 ∧ (∀ x, x ≠ b → vw s' x = vw s x).
Proof.
  intros Ht Hg Hh Hn Hfit Hhb. unfold bzero. rewrite (home_u32 _ _ Hg Hh).
  destruct (in_tx_block s hb L b Ht (proj1 Hh)) as [_ Hlen].
  destruct (tx_update_ret s hb L b (λ d, replicate (length d) 0)) as (s' & H1 & H2 & H3 & H4 & H5); try done.
  { by rewrite length_replicate. }
  exists s'. rewrite H4, Hlen. done.
Qed.

(** Block [b] is in use according to the bitmap. *)
Definition used (s : kernel) (b : Z) : bool := bit_set (contents s (BBLOCK b (sb s))) (b mod BPB).

(** The bitmap covers the file system, and what it has free can be handed out:
    it is neither the log's nor a bitmap block nor held by the caller. *)
Record bm_ok (s : kernel) (hb : list (nat * Z)) : Prop := {
  bm_size : 0 ≤ sb_size (sb s) ≤ nblocks;
  bm_map : ∀ b, 0 ≤ b < sb_size (sb s) →
    BBLOCK b (sb s) = b / BPB + sb_bmapstart (sb s) ∧ home (klog s) (BBLOCK b (sb s)) ∧ BBLOCK b (sb s) ∉ hb.*2;
  bm_free : ∀ b, 0 ≤ b < sb_size (sb s) → used s b = false →
    home (klog s) b ∧ b ∉ hb.*2 ∧ ∀ c, 0 ≤ c < sb_size (sb s) → b ≠ BBLOCK c (sb s)
}.

Lemma used_same s s' b :
  tframe s s' → vw s' (BBLOCK b (sb s)) = vw s (BBLOCK b (sb s)) → used s' b = used s b.
Proof. intros Hf Hv. unfold used. rewrite (tframe_sb _ _ Hf). by rewrite (contents_eq _ _ _ Hv). Qed.

Lemma bm_ok_same s s' hb : bm_ok s hb → tframe s s' → (∀ x, vw s' x = vw s x) → bm_ok s' hb.
Proof.
  intros [H1 H2 H3] Hf Hv. split; rewrite (tframe_sb _ _ Hf).
  - done.
  - intros b Hb. destruct (H2 b Hb) as (? & ? & ?). split_and!; [done|by apply (tframe_home _ _ _ Hf)|done].
  - intros b Hb. rewrite (used_same _ _ _ Hf (Hv _)). intros Hu. destruct (H3 b Hb Hu) as (? & ? & ?).
    split_and!; [by apply (tframe_home _ _ _ Hf)|done|done].
Qed.

(** The first free block, if there is one. *)
Definition first_free (s : kernel) (b : Z) : Prop :=
  0 ≤ b < sb_size (sb s) ∧ used s b = false ∧ ∀ x, 0 ≤ x < b → used s x = true.

(** What balloc leaves when it hands out [b]: the bit is set, the block zeroed
    and every other block as before. *)
Record balloc_post (s s' : kernel) (hb : list (nat * Z)) (L : list Z) (b : Z) : Prop := {
  ba_tx : in_tx s' hb (ladd (ladd L (BBLOCK b (sb s))) b);
  ba_frame : tframe s s';
  ba_bit : contents s' (BBLOCK b (sb s)) = set_bit (b mod BPB) (contents s (BBLOCK b (sb s)));
  ba_zero : contents s' b = replicate (Z.to_nat BSIZE) 0;
  ba_other : ∀ x, x ≠ b → x ≠ BBLOCK b (sb s) → vw s' x = vw s x
}.

Lemma BBLOCK_same s hb b bi :
  bm_ok s hb → 0 ≤ b → b mod BPB = 0 → 0 ≤ bi < BPB → b + bi < sb_size (sb s) →
  BBLOCK (b + bi) (sb s) = BBLOCK b (sb s) ∧ (b + bi) mod BPB = bi.
Proof.
  intros Hm Hb Ha Hi Hs. rewrite (proj1 (bm_map _ _ Hm b ltac:(lia))), (proj1 (bm_map _ _ Hm (b + bi) ltac:(lia))).
  assert (Eb : b = BPB * (b / BPB)) by (pose proof (Z_div_mod_eq_full b BPB); lia).
  split; [f_equal; symmetry; apply Z.div_unique with bi|symmetry; apply Z.mod_unique with (b / BPB)]; lia.
Qed.

(** The first free block from the start [b] of a bitmap block: the bit that the
    search finds there, or it is in a later block. *)
Lemma search_first s hb b b0 :
  bm_ok s hb → first_free s b0 → 0 ≤ b ≤ b0 → b mod BPB = 0 →
  match bit_search (Z.to_nat BPB) 0 b (sb_size (sb s)) (contents s (BBLOCK b (sb s))) with
  | Some bi => b + bi = b0 ∧ 0 ≤ bi < BPB
  | None => b + BPB ≤ b0
  end.
Proof.
  intros Hm (Hb0 & Hu0 & Hlt) Hb Ha.
  assert (Hin : b0 < b + BPB → bit_set (contents s (BBLOCK b (sb s))) (b0 - b) = false).
  { intros Hl. destruct (BBLOCK_same s hb b (b0 - b) Hm) as [Eb Em]; [lia|done|lia|lia|].
    replace (b + (b0 - b)) with b0 in * by lia. unfold used in Hu0. by rewrite Eb, Em in Hu0. }
  pose proof (bit_search_spec (Z.to_nat BPB) 0 b (sb_size (sb s)) (contents s (BBLOCK b (sb s))) ltac:(unfold BPB, BSIZE; lia)) as Hs.
  destruct (bit_search _ _ _ _ _) as [bi|].
  - destruct Hs as (Hbi & Hsz & Hclr & Hbef). split; [|done]. destruct (BBLOCK_same s hb b bi Hm) as [Eb Em]; [lia|done|done|done|].
    assert (Hu : used s (b + bi) = false) by (unfold used; by rewrite Eb, Em).
    destruct (Z.lt_trichotomy (b + bi) b0) as [?|[?|Hgt]]; [by rewrite (Hlt (b + bi)) in Hu by lia|done|].
    rewrite Hbef in Hin by lia. by specialize (Hin ltac:(lia)).
  - destruct (decide (b + BPB ≤ b0)); [done|]. rewrite Hs in Hin by lia. by specialize (Hin ltac:(lia)).
Qed.

(** Setting the bit found, and zeroing the block. *)
Lemma balloc_take s s1 hb L i b bi :
  in_tx s hb L → bm_ok s hb → fits s L 2 → (length hb ≤ 1)%nat → 0 ≤ b → b mod BPB = 0 → 0 ≤ bi < BPB →
  b + bi < sb_size (sb s) → used s (b + bi) = false →
  in_tx s1 ((i, BBLOCK b (sb s)) :: hb) L → tframe s s1 → (∀ x, vw s1 x = vw s x) →
  ∃ s', (upd_data i (set_bit bi);; log_write i;; brelse i;; bzero 1 (b + bi);; mret (u32 (b + bi))) s1 = Ret (b + bi) s'
    ∧ balloc_post s s' hb L (b + bi).
Proof.
  intros Ht Hm Hfit Hhb Hb Ha Hbi Hsz Hu0 Ht1 Hf1 Hv1. destruct (BBLOCK_same s hb b bi Hm) as [Eb Em]; [done..|].
  destruct (bm_map _ _ Hm b ltac:(lia)) as (Hbb & Hhome & Hnin). destruct (bm_free _ _ Hm (b + bi) ltac:(lia) Hu0) as (Hh0 & Hn0 & Hne0).
  destruct (in_tx_block s hb L _ Ht (proj1 Hhome)) as [Hd Hlen].
  destruct (tx_edit s1 ((i, BBLOCK b (sb s)) :: hb) L i (BBLOCK b (sb s)) (contents s (BBLOCK b (sb s))) (set_bit bi) Ht1)
    as (s2 & s3 & H2 & H3 & Ht3 & Hf3 & Hv3 & Ho3); [by left|by rewrite (tframe_home _ _ _ Hf1)|by rewrite Hv1|apply length_set_bit|rewrite (tframe_fits _ _ _ _ Hf1); unfold fits in *; lia|].
  rewrite (bind_run _ _ _ _ _ H2). cbv beta. rewrite (bind_run _ _ _ _ _ H3). cbv beta.
  destruct (tx_brelse s3 [] hb _ i _ Ht3) as (s4 & H4 & Ht4 & Hf4 & Hv4). rewrite (bind_run _ _ _ _ _ H4). cbv beta.
  assert (Hf14 : tframe s s4) by (etrans; [exact Hf1|]; by etrans). assert (Hge : log_geo (klog s4)) by (destruct Ht4 as [[]]; done).
  destruct (bzero_run s4 hb _ (b + bi) Ht4 Hge) as (s5 & H5 & Ht5 & Hf5 & Hz5 & Ho5); [by rewrite (tframe_home _ _ _ Hf14)|done| |done|].
  { rewrite (tframe_fits _ _ _ _ Hf14). unfold fits in *. pose proof (length_ladd L (BBLOCK b (sb s))). lia. }
  rewrite (bind_run _ _ _ _ _ H5). cbv beta. exists s5. split.
  { unfold mret, M_ret. f_equal. apply (home_u32 (klog s) _ ltac:(destruct Ht as [[]]; done) Hh0). }
  assert (Hbm : BBLOCK b (sb s) ≠ b + bi) by (rewrite <- Eb; intros E; by apply (Hne0 (b + bi) ltac:(lia))).
  split; rewrite ?Eb, ?Em.
  - done.
  - by etrans.
  - rewrite (contents_eq _ _ _ (Ho5 _ Hbm)). unfold contents at 1. by rewrite Hv4, Hv3.
  - done.
  - intros x Hx1 Hx2. rewrite Ho5, Hv4, Ho3, Hv1 by done. done.
Qed.

Lemma balloc_loop_found hb L b0 : ∀ n b s,
  in_tx s hb L → bm_ok s hb → fits s L 2 → (length hb ≤ 1)%nat → first_free s b0 →
  0 ≤ b ≤ b0 → b mod BPB = 0 → b0 < b + BPB * Z.of_nat n →
  ∃ s', balloc_loop n 1 b s = Ret b0 s' ∧ balloc_post s s' hb L b0.
Proof.
  induction n as [|n IH]; intros b s Ht Hm Hfit Hhb Hff Hb Ha Hn; [lia|].
  pose proof (search_first s hb b b0 Hm Hff Hb Ha) as Hs. destruct Hff as (Hb0 & Hu0 & Hlt).
  assert (Hfit0 : fits s L 0) by (unfold fits in *; lia). cbn [balloc_loop]. run. destruct (Z.ltb_spec b (sb_size (sb s))); [|lia].
  destruct (bm_map _ _ Hm b ltac:(lia)) as (Hbb & Hhome & Hnin).
  destruct (tx_bread s hb L _ Ht (proj1 Hhome) Hnin Hfit0 Hhb) as (i & s1 & H1 & Ht1 & Hf1 & Hv1).
  rewrite (bind_run _ _ _ _ _ H1). cbv beta. destruct (tx_getbuf s1 _ L i _ Ht1 ltac:(by left)) as (bb & Hg & Hdat).
  rewrite (bind_run _ _ _ _ _ Hg). cbv beta. rewrite Hdat, (contents_eq _ _ _ (Hv1 _)).
  destruct (bit_search (Z.to_nat BPB) 0 b (sb_size (sb s)) (contents s (BBLOCK b (sb s)))) as [bi|].
  - destruct Hs as [<- Hbi]. apply (balloc_take s s1 hb L i b bi); done || lia.
  - destruct (tx_brelse s1 [] hb _ i _ Ht1) as (s2 & H2 & Ht2 & Hf2 & Hv2). rewrite (bind_run _ _ _ _ _ H2). cbv beta.
    assert (Hf : tframe s s2) by (by etrans). assert (Hv : ∀ x, vw s2 x = vw s x) by (intros x; by rewrite Hv2, Hv1).
    destruct (IH (b + BPB) s2) as (s' & Hr & Hp); try done.
    { by eapply bm_ok_same. }
    { by rewrite (tframe_fits _ _ _ _ Hf). }
    { split_and!; rewrite ?(tframe_sb _ _ Hf); try lia; [by rewrite (used_same _ _ _ Hf (Hv _))|].
      intros x Hx. rewrite (used_same _ _ _ Hf (Hv _)). by apply Hlt. }
    { unfold BPB, BSIZE in *; lia. }
    { rewrite <- Zplus_mod_idemp_r, Z_mod_same_full, Z.add_0_r. done. }
    { lia. }
    exists s'. split; [exact Hr|]. destruct Hp as [P1 P2 P3 P4 P5]. rewrite (tframe_sb _ _ Hf) in *.
    split; try done; [by etrans|by rewrite P3, (contents_eq _ _ _ (Hv _))|intros x Hx1 Hx2; by rewrite P5, Hv].
Qed.

Lemma balloc_loop_full hb L : ∀ n b s,
  in_tx s hb L → bm_ok s hb → fits s L 0 → (length hb ≤ 1)%nat →
  (∀ x, 0 ≤ x < sb_size (sb s) → used s x = true) →
  0 ≤ b → b mod BPB = 0 → sb_size (sb s) ≤ b + BPB * Z.of_nat n →
  ∃ s', balloc_loop n 1 b s = Panic "balloc: out of blocks" s'.
Proof.
  induction n as [|n IH]; intros b s Ht Hm Hfit Hhb Hall Hb Ha Hn; cbn [balloc_loop]; run;
    (destruct (Z.ltb_spec b (sb_size (sb s))); [|by eexists]); [lia|].
  destruct (bm_map _ _ Hm b ltac:(lia)) as (Hbb & Hhome & Hnin).
  destruct (tx_bread s hb L _ Ht (proj1 Hhome) Hnin Hfit Hhb) as (i & s1 & H1 & Ht1 & Hf1 & Hv1).
  rewrite (bind_run _ _ _ _ _ H1). cbv beta.
  destruct (tx_getbuf s1 _ L i _ Ht1 ltac:(by left)) as (bb & Hg & Hdat).
  rewrite (bind_run _ _ _ _ _ Hg). cbv beta. rewrite Hdat, (contents_eq _ _ _ (Hv1 _)).
  pose proof (bit_search_spec (Z.to_nat BPB) 0 b (sb_size (sb s)) (contents s (BBLOCK b (sb s))) ltac:(unfold BPB, BSIZE; lia)) as Hs.
  destruct (bit_search (Z.to_nat BPB) 0 b (sb_size (sb s)) (contents s (BBLOCK b (sb s)))) as [bi|].
  { destruct Hs as (Hbi & Hsz & Hclr & _). destruct (BBLOCK_same s hb b bi Hm) as [Eb Em]; [lia|done|done|done|].
    pose proof (Hall (b + bi) ltac:(lia)) as Hu. unfold used in Hu. rewrite Eb, Em in Hu. congruence. }
  destruct (tx_brelse s1 [] hb _ i _ Ht1) as (s2 & H2 & Ht2 & Hf2 & Hv2).
  rewrite (bind_run _ _ _ _ _ H2). cbv beta.
  assert (Hf : tframe s s2) by (by etrans). assert (Hv : ∀ x, vw s2 x = vw s x) by (intros x; by rewrite Hv2, Hv1).
  apply IH; try done.
  - by eapply bm_ok_same.
  - by rewrite (tframe_fits _ _ _ _ Hf).
  - intros x. rewrite (tframe_sb _ _ Hf), (used_same _ _ _ Hf (Hv _)). apply Hall.
  - unfold BPB, BSIZE in *; lia.
  - by rewrite <- Zplus_mod_idemp_r, Z_mod_same_full, Z.add_0_r.
  - rewrite (tframe_sb _ _ Hf). lia.
Qed.

Lemma balloc_fuel size : 0 ≤ size → size ≤ BPB * Z.of_nat (Z.to_nat (size / BPB + 1)) .
Proof.
  intros H. pose proof (Z.div_pos size BPB H ltac:(done)). rewrite Z2Nat.id by lia.
  pose proof (Z_div_mod_eq_full size BPB). pose proof (Z.mod_pos_bound size BPB ltac:(done)). lia.
Qed.

Lemma balloc_run s hb L b :
  in_tx s hb L → bm_ok s hb → fits s L 2 → (length hb ≤ 1)%nat → first_free s b →
  ∃ s', balloc 1 s = Ret b s' ∧ balloc_post s s' hb L b.
Proof.
  intros Ht Hm Hfit Hhb Hff. unfold balloc. run. pose proof (bm_size _ _ Hm) as Hs.
  pose proof (balloc_fuel (sb_size (sb s)) ltac:(lia)). pose proof (proj1 Hff).
  apply balloc_loop_found; try done; lia.
Qed.

(** The super block on the disk is the one in memory. *)
Definition sb_synced (s : kernel) : Prop := superblock_of (contents s 1) = sb s ∧ 1 < nblocks.

Lemma readsb_tx s hb L :
  in_tx s hb L → 1 < nblocks → 1 ∉ hb.*2 → fits s L 0 → (length hb ≤ 1)%nat →
  ∃ s', readsb 1 s = Ret (superblock_of (contents s 1)) s' ∧ in_tx s' hb L ∧ tframe s s' ∧ (∀ x, vw s' x = vw s x).
Proof.
  intros Ht Hn Hnin Hfit Hhb. unfold readsb.
  destruct (tx_bread s hb L 1 Ht ltac:(lia) Hnin Hfit Hhb) as (i & s1 & H1 & Ht1 & Hf1 & Hv1).
  rewrite (bind_run _ _ _ _ _ H1). cbv beta.
  destruct (tx_getbuf s1 _ L i _ Ht1 ltac:(by left)) as (bb & Hg & Hdat).
  rewrite (bind_run _ _ _ _ _ Hg). cbv beta. rewrite Hdat, (contents_eq _ _ _ (Hv1 _)).
  destruct (tx_brelse s1 [] hb _ i _ Ht1) as (s2 & H2 & Ht2 & Hf2 & Hv2).
  rewrite (bind_run _ _ _ _ _ H2). cbv beta. exists s2. split_and!; try done.
  - by etrans.
  - intros x. by rewrite Hv2, Hv1.
Qed.

Lemma set_sb_same s : s <| sb := sb s |> = s.
Proof. by destruct s. Qed.

(** The part of bfree after the super block is read. *)
Lemma bfree_enter s hb L b :
  in_tx s hb L → bm_ok s hb → sb_synced s → 1 ∉ hb.*2 → fits s L 0 → (length hb ≤ 1)%nat → 0 ≤ b < sb_size (sb s) →
  ∃ i s2, in_tx s2 ((i, BBLOCK b (sb s)) :: hb) L ∧ tframe s s2 ∧ (∀ x, vw s2 x = vw s x)
  ∧ bfree 1 b s = (if negb (used s b) then panic "freeing free block" else
                   upd_data i (clear_bit (b mod BPB));; log_write i;; brelse i) s2.
Proof.
  intros Ht Hm [Hsb Hn] Hnin Hfit Hhb Hb. unfold bfree.
  destruct (readsb_tx s hb L Ht Hn Hnin Hfit Hhb) as (s1 & H1 & Ht1 & Hf1 & Hv1).
  rewrite (bind_run _ _ _ _ _ H1). cbv beta. run. rewrite Hsb, <- (tframe_sb _ _ Hf1), set_sb_same.
  rewrite (tframe_sb _ _ Hf1). destruct (bm_map _ _ Hm b Hb) as (_ & Hhome & Hnb).
  destruct (tx_bread s1 hb L _ Ht1 (proj1 Hhome) Hnb) as (i & s2 & H2 & Ht2 & Hf2 & Hv2).
  { by rewrite (tframe_fits _ _ _ _ Hf1). }
  { done. }
  rewrite (bind_run _ _ _ _ _ H2). cbv beta.
  destruct (tx_getbuf s2 _ L i _ Ht2 ltac:(by left)) as (bb & Hg & Hdat).
  rewrite (bind_run _ _ _ _ _ Hg). cbv beta. rewrite Hdat, (contents_eq _ _ _ (Hv2 _)), (contents_eq _ _ _ (Hv1 _)).
  exists i, s2. split_and!; [done|by etrans|intros x; by rewrite Hv2, Hv1|done].
Qed.

Record bfree_post (s s' : kernel) (hb : list (nat * Z)) (L : list Z) (b : Z) : Prop := {
  bf_tx : in_tx s' hb (ladd L (BBLOCK b (sb s)));
  bf_frame : tframe s s';
  bf_bit : contents s' (BBLOCK b (sb s)) = clear_bit (b mod BPB) (contents s (BBLOCK b (sb s)));
  bf_other : ∀ x, x ≠ BBLOCK b (sb s) → vw s' x = vw s x
}.

Lemma bfree_run s hb L b :
  in_tx s hb L → bm_ok s hb → sb_synced s → 1 ∉ hb.*2 → fits s L 1 → (length hb ≤ 1)%nat → 0 ≤ b < sb_size (sb s) →
  used s b = true → ∃ s', bfree 1 b s = Ret tt s' ∧ bfree_post s s' hb L b.
Proof.
  intros Ht Hm Hsb Hnin Hfit Hhb Hb Hu. assert (Hfit0 : fits s L 0) by (unfold fits in *; lia).
  destruct (bfree_enter s hb L b) as (i & s2 & Ht2 & Hf2 & Hv2 & ->); try done.
  rewrite Hu. cbn [negb]. destruct (bm_map _ _ Hm b Hb) as (_ & Hhome & Hnb).
  destruct (in_tx_block s hb L _ Ht (proj1 Hhome)) as [Hd Hlen].
  destruct (tx_edit s2 ((i, BBLOCK b (sb s)) :: hb) L i (BBLOCK b (sb s)) (contents s (BBLOCK b (sb s))) (clear_bit (b mod BPB)) Ht2)
    as (s3 & s4 & H3 & H4 & Ht4 & Hf4 & Hv4 & Ho4).
  { by left. }
  { by rewrite (tframe_home _ _ _ Hf2). }
  { by rewrite Hv2. }
  { apply length_clear_bit. }
  { by rewrite (tframe_fits _ _ _ _ Hf2). }
  rewrite (bind_run _ _ _ _ _ H3). cbv beta. rewrite (bind_run _ _ _ _ _ H4). cbv beta.
  destruct (tx_brelse s4 [] hb _ i _ Ht4) as (s5 & H5 & Ht5 & Hf5 & Hv5).
  exists s5. split; [done|]. split; [done| | |].
  - etrans; [exact Hf2|]. by etrans.
  - unfold contents at 1. by rewrite Hv5, Hv4.
  - intros x Hx. by rewrite Hv5, Ho4, Hv2.
Qed.

(** Two blocks of one bitmap block have different bits. *)
Lemma same_bit s hb x b :
  bm_ok s hb → 0 ≤ x < sb_size (sb s) → 0 ≤ b < sb_size (sb s) → BBLOCK x (sb s) = BBLOCK b (sb s) →
  x mod BPB = b mod BPB → x = b.
Proof.
  intros Hm Hx Hb. rewrite (proj1 (bm_map _ _ Hm x Hx)), (proj1 (bm_map _ _ Hm b Hb)). intros E1 E2.
  pose proof (Z_div_mod_eq_full x BPB). pose proof (Z_div_mod_eq_full b BPB). 
  assert (x / BPB = b / BPB) by lia. lia.
Qed.

(** A bitmap block changed in the bit of [b] alone. *)
Lemma used_changed s s' hb b v :
  bm_ok s hb → 0 ≤ b < sb_size (sb s) → tframe s s' →
  (∀ x, 0 ≤ x < sb_size (sb s) → BBLOCK x (sb s) ≠ BBLOCK b (sb s) → vw s' (BBLOCK x (sb s)) = vw s (BBLOCK x (sb s))) →
  (∀ y, 0 ≤ y < BPB → bit_set (contents s' (BBLOCK b (sb s))) y
     = if decide (y = b mod BPB) then v else bit_set (contents s (BBLOCK b (sb s))) y) →
  ∀ x, 0 ≤ x < sb_size (sb s) → used s' x = if decide (x = b) then v else used s x.
Proof.
  intros Hm Hb Hf Ho Hbit x Hx. unfold used. rewrite (tframe_sb _ _ Hf).
  destruct (decide (BBLOCK x (sb s) = BBLOCK b (sb s))) as [E|Hne].
  - rewrite E, Hbit by (apply Z.mod_pos_bound; done). case_decide as E2; case_decide as E3; try done.
    + exfalso. apply E3. by eapply same_bit.
    + by subst x.
  - rewrite (contents_eq _ _ _ (Ho x Hx Hne)). case_decide; [by subst x|done].
Qed.

Lemma balloc_used s s' hb L b :
  in_tx s hb L → bm_ok s hb → first_free s b → balloc_post s s' hb L b →
  (∀ x, 0 ≤ x < sb_size (sb s) → used s' x = if decide (x = b) then true else used s x) ∧ bm_ok s' hb.
Proof.
  intros Ht Hm (Hb & Hu & Hlt) [P1 P2 P3 P4 P5]. destruct (bm_free _ _ Hm b Hb Hu) as (Hh & Hn & Hne).
  destruct (bm_map _ _ Hm b Hb) as (_ & Hhome & _).
  destruct (in_tx_block s hb L _ Ht (proj1 Hhome)) as [_ Hlen].
  assert (Hused : ∀ x, 0 ≤ x < sb_size (sb s) → used s' x = if decide (x = b) then true else used s x).
  { eapply used_changed; try done.
    - intros x Hx Hxb. apply P5; [|done]. intros E. by apply (Hne x Hx).
    - intros y Hy. rewrite P3. apply set_bit_spec; [done|apply Z.mod_pos_bound; done|done]. }
  split; [done|]. destruct Hm as [M1 M2 M3]. split; rewrite (tframe_sb _ _ P2).
  - done.
  - intros x Hx. destruct (M2 x Hx) as (? & ? & ?). split_and!; [done|by apply (tframe_home _ _ _ P2)|done].
  - intros x Hx Hux. rewrite Hused in Hux by done. case_decide; [done|].
    destruct (M3 x Hx Hux) as (? & ? & ?). split_and!; [by apply (tframe_home _ _ _ P2)|done|done].
Qed.

(** A block that balloc may be given back. *)
Definition freeable (s : kernel) (hb : list (nat * Z)) (b : Z) : Prop :=
  home (klog s) b ∧ b ∉ hb.*2 ∧ ∀ c, 0 ≤ c < sb_size (sb s) → b ≠ BBLOCK c (sb s).

Lemma bfree_used s s' hb L b :
  in_tx s hb L → bm_ok s hb → 0 ≤ b < sb_size (sb s) → freeable s hb b → bfree_post s s' hb L b →
  (∀ x, 0 ≤ x < sb_size (sb s) → used s' x = if decide (x = b) then false else used s x) ∧ bm_ok s' hb.
Proof.
  intros Ht Hm Hb Hfree [P1 P2 P3 P4]. destruct (bm_map _ _ Hm b Hb) as (_ & Hhome & _).
  destruct (in_tx_block s hb L _ Ht (proj1 Hhome)) as [_ Hlen].
  assert (Hused : ∀ x, 0 ≤ x < sb_size (sb s) → used s' x = if decide (x = b) then false else used s x).
  { eapply used_changed; try done.
    - intros x Hx Hxb. by apply P4.
    - intros y Hy. rewrite P3. apply clear_bit_spec; [done|apply Z.mod_pos_bound; done|done]. }
  split; [done|]. destruct Hm as [M1 M2 M3]. split; rewrite (tframe_sb _ _ P2).
  - done.
  - intros x Hx. destruct (M2 x Hx) as (? & ? & ?). split_and!; [done|by apply (tframe_home _ _ _ P2)|done].
  - intros x Hx Hux. assert (H : freeable s hb x).
    { rewrite Hused in Hux by done. case_decide; [by subst x|]. by apply M3. }
    destruct H as (? & ? & ?). split_and!; [by apply (tframe_home _ _ _ P2)|done|done].
Qed.

(** C11: The bitmap implements a set of blocks.  Inside a transaction, balloc
    takes the lowest free block out of the free set, returns it zeroed and
    leaves the contents of every block but that and the bitmap alone, or panics
    when there is none; bfree returns a block to the free set, changing only
    the bitmap, and panics when the block was free already.  Both leave the
    bitmap well formed and the transaction open. *)
Theorem bitmap_refines s hb L :
  in_tx s hb L → bm_ok s hb → sb_synced s → 1 ∉ hb.*2 → fits s L 2 → (length hb ≤ 1)%nat →
  (∀ b, first_free s b →
     ∃ s', balloc 1 s = Ret b s' ∧ in_tx s' hb (ladd (ladd L (BBLOCK b (sb s))) b) ∧ bm_ok s' hb
       ∧ (∀ x, 0 ≤ x < sb_size (sb s) → used s' x = if decide (x = b) then true else used s x)
       ∧ contents s' b = replicate (Z.to_nat BSIZE) 0
       ∧ ∀ x, x ≠ b → x ≠ BBLOCK b (sb s) → vw s' x = vw s x)
  ∧ ((∀ x, 0 ≤ x < sb_size (sb s) → used s x = true) → ∃ s', balloc 1 s = Panic "balloc: out of blocks" s')
  ∧ (∀ b, 0 ≤ b < sb_size (sb s) → freeable s hb b →
       if used s b then
         ∃ s', bfree 1 b s = Ret tt s' ∧ in_tx s' hb (ladd L (BBLOCK b (sb s))) ∧ bm_ok s' hb
           ∧ (∀ x, 0 ≤ x < sb_size (sb s) → used s' x = if decide (x = b) then false else used s x)
           ∧ ∀ x, x ≠ BBLOCK b (sb s) → vw s' x = vw s x
       else ∃ s', bfree 1 b s = Panic "freeing free block" s').
Proof.
  intros Ht Hm Hsb Hn Hfit Hhb. split_and!.
  - intros b Hff. destruct (balloc_run s hb L b) as (s' & H1 & Hp); try done.
    destruct (balloc_used s s' hb L b) as [Hu Hm']; try done. destruct Hp. eauto 10.
  - intros Hall. unfold balloc. run. pose proof (bm_size _ _ Hm) as Hs.
    pose proof (balloc_fuel (sb_size (sb s)) ltac:(lia)).
    apply (balloc_loop_full hb L); try done; unfold fits in *; lia.
  - intros b Hb Hfree. destruct (used s b) eqn:Hu.
    + destruct (bfree_run s hb L b) as (s' & H1 & Hp); try done; [unfold fits in *; lia|].
      destruct (bfree_used s s' hb L b) as [Hu' Hm']; try done. destruct Hp. eauto 10.
    + destruct (bfree_enter s hb L b) as (i & s2 & _ & _ & _ & ->); try done; [unfold fits in *; lia|].
      rewrite Hu. by eexists.
Qed.
End Bitmap.

(** ** A small disk

    Twenty blocks: the log in 2 to 13, one block of inodes at 14, the bitmap at
    15, data from 16 on.  Inode 1 is the root directory, with the entries ".",
    ".." and "f"; inode 2 is the file "f", which holds "hello". *)

Definition plat20 : Platform :=
  plat 8 10240.
#[local] Existing Instance plat20.
#[local] Existing Instance Memide.driver.

Definition sb20 : superblock := mkSuperblock 20 4 8 12 2 14 15.
Definition sb_block20 : list Z :=
  put32 0 20 (put32 4 4 (put32 8 8 (put32 12 12 (put32 16 2 (put32 20 14 (put32 24 15 zero_block)))))).
Definition root20 : inode :=
  inode_zero <| i_type := T_DIR |> <| i_nlink := 1 |> <| i_size := 48 |> <| i_addrs := 16 :: replicate 12 0 |>.
Definition file20 : inode :=
  inode_zero <| i_type := T_FILE |> <| i_nlink := 1 |> <| i_size := 5 |> <| i_addrs := 17 :: replicate 12 0 |>.
Definition dir20 : list Z :=
  list_inserts 0 (make_dirent [46] 1 ++ make_dirent [46; 46] 1 ++ make_dirent [102] 2) zero_block.
Definition block20 (b : Z) : list Z :=
  if b =? 1 then sb_block20
  else if b =? 14 then put_dinode 1 root20 (put_dinode 2 file20 zero_block)
  else if b =? 15 then list_inserts 0 [255; 255; 3] zero_block
  else if b =? 16 then dir20
  else if b =? 17 then list_inserts 0 [104; 101; 108; 108; 111] zero_block
  else zero_block.
Definition disk20 : gmap (Z * Z) (list Z) := list_to_map ((λ b, ((1, b), block20 b)) <$> seqZ 0 20).

(** A kernel with an open transaction on it, nothing cached. *)
Definition tx20 : kernel :=
  kernel_zero <| bcache := fresh_cache |> <| curproc := Some 0%nat |> <| disk := disk20 |>
    <| klog := (log_at 2 12) <| l_outstanding := 1 |> |> <| sb := sb20 |>.

Lemma small20 (Q : Z → Prop) :
  Forall Q [0; 1; 2; 3; 4; 5; 6; 7; 8; 9; 10; 11; 12; 13; 14; 15; 16; 17; 18; 19] → ∀ b, 0 ≤ b < 20 → Q b.
Proof.
  intros H b Hb. rewrite Forall_forall in H. apply H.
  assert (b = 0 ∨ b = 1 ∨ b = 2 ∨ b = 3 ∨ b = 4 ∨ b = 5 ∨ b = 6 ∨ b = 7 ∨ b = 8 ∨ b = 9 ∨ b = 10 ∨ b = 11
          ∨ b = 12 ∨ b = 13 ∨ b = 14 ∨ b = 15 ∨ b = 16 ∨ b = 17 ∨ b = 18 ∨ b = 19) as Hc by lia.
  rewrite !elem_of_cons. tauto.
Qed.

Lemma disk20_at b : 0 ≤ b < 20 → disk20 !! (1, b) = Some (block20 b).
Proof.
  intros Hb. apply elem_of_list_to_map_1.
  - rewrite <- list_fmap_compose. apply NoDup_fmap_2; [|apply NoDup_seqZ]. intros x y [= ->]. done.
  - apply list_elem_of_fmap. exists b. split; [done|]. apply elem_of_seqZ. lia.
Qed.

Lemma length_block20 b : length (block20 b) = Z.to_nat BSIZE.
Proof. unfold block20. repeat case_match; by vm_compute. Qed.

Lemma disk20_ok : disk_ok disk20.
Proof.
  intros b Hb. change nblocks with 20 in Hb. rewrite disk20_at by done. eexists. split; [done|].
  apply length_block20.
Qed.

Lemma tx20_running : running tx20.
Proof. split; [done|]. by exists 0%nat, proc_zero. Qed.

Lemma tx20_vw b : 0 ≤ b < 20 → vw tx20 b = Some (block20 b).
Proof. intros Hb. rewrite fresh_view by done. by apply disk20_at. Qed.

Lemma tx20_contents b : 0 ≤ b < 20 → contents tx20 b = block20 b.
Proof. intros Hb. unfold contents. by rewrite tx20_vw. Qed.

Lemma tx20_in_tx : in_tx tx20 [] [].
Proof.
  split; [|intros b Hb; by apply not_elem_of_nil in Hb]. split.
  - apply fresh_blk_ok; [done|exact tx20_running|exact disk20_ok].
  - split; try done; change nblocks with 20; cbn; lia.
  - split; [done|done|done|vm_compute; lia|constructor|constructor].
  - intros b. split; [intros Hb; by apply fresh_clean in Hb|intros Hb; by apply not_elem_of_nil in Hb].
  - done.
Qed.

Lemma tx20_home b : 0 ≤ b < 20 → b < 2 ∨ 14 ≤ b → home (klog tx20) b.
Proof. intros Hb H. split; [done|]. cbn. lia. Qed.

Lemma tx20_used b : 0 ≤ b < 20 → used tx20 b = (b <? 18).
Proof.
  intros Hb. unfold used. change (sb tx20) with sb20.
  assert (E : BBLOCK b sb20 = 15).
  { unfold BBLOCK. rewrite Z.div_small by (unfold BPB, BSIZE; lia). done. }
  rewrite E, tx20_contents, Z.mod_small by (unfold BPB, BSIZE; lia).
  clear E. revert b Hb. apply small20. repeat constructor; by vm_compute.
Qed.

Lemma tx20_bm : bm_ok tx20 [].
Proof.
  assert (E : ∀ b, 0 ≤ b < 20 → BBLOCK b (sb tx20) = 15).
  { intros b Hb. unfold BBLOCK. rewrite Z.div_small by (unfold BPB, BSIZE; lia). done. }
  split.
  - done.
  - intros b Hb. change (sb_size (sb tx20)) with 20 in Hb. rewrite E by done. split_and!.
    + rewrite Z.div_small by (unfold BPB, BSIZE; lia). done.
    + apply tx20_home; lia.
    + apply not_elem_of_nil.
  - intros b Hb Hu. change (sb_size (sb tx20)) with 20 in *. rewrite tx20_used in Hu by done.
    apply Z.ltb_ge in Hu. split_and!; [apply tx20_home; lia|apply not_elem_of_nil|].
    intros c Hc. rewrite E by done. lia.
Qed.

Lemma tx20_synced : sb_synced tx20.
Proof. split; [|done]. rewrite tx20_contents by done. by vm_compute. Qed.

Lemma bitmap_refines_witness :
  (∃ s', balloc 1 tx20 = Ret 18 s' ∧ contents s' 18 = replicate (Z.to_nat BSIZE) 0)
  ∧ (∃ s', bfree 1 17 tx20 = Ret tt s' ∧ used s' 17 = false)
  ∧ (∃ s', bfree 1 19 tx20 = Panic "freeing free block" s').
Proof.
  assert (Hfit : fits tx20 [] 2) by (unfold fits; cbn; lia). assert (Hl : (length (@nil (nat * Z)) ≤ 1)%nat) by (cbn; lia).
  destruct (bitmap_refines tx20 [] [] tx20_in_tx tx20_bm tx20_synced ltac:(apply not_elem_of_nil) Hfit Hl) as (Ha & _ & Hf).
  assert (Hfr : ∀ b, 16 ≤ b < 20 → freeable tx20 [] b).
  { intros b Hb. split_and!; [apply tx20_home; lia|apply not_elem_of_nil|]. intros c Hc.
    change (sb_size (sb tx20)) with 20 in Hc. unfold BBLOCK. rewrite Z.div_small by (unfold BPB, BSIZE; lia).
    change (u32 (0 + sb_bmapstart (sb tx20))) with 15. lia. }
  split_and!.
  - destruct (Ha 18) as (s' & H1 & _ & _ & _ & H2 & _).
    { split; [done|]. split; [by rewrite tx20_used|]. intros x Hx. rewrite tx20_used by lia. apply Z.ltb_lt. lia. }
    exists s'. split; [exact H1|exact H2].
  - specialize (Hf 17 ltac:(done) (Hfr 17 ltac:(lia))). rewrite tx20_used in Hf by lia.
    destruct Hf as (s' & H1 & _ & _ & H2 & _). exists s'. split; [exact H1|]. by rewrite (H2 17).
  - specialize (Hf 19 ltac:(done) (Hfr 19 ltac:(lia))). by rewrite tx20_used in Hf by lia.
Defined.
