(* ===== verification/Inode.v ===== *)
(** Inodes (ialloc, iget, idup, ilock, iunlock, iupdate, iput of fs.c): the
    on-disk format and the inode cache. *)

From S2P Require Import Prelude Types Spinlock Sched Ide Bio Blocks Bytes Log Fs Bitmap.

(** ** The on-disk format *)

Lemma length_put_addrs off l d : length (put_addrs off l d) = length d.
Proof. revert off d. induction l as [|a l IH]; intros off d; cbn [put_addrs]; [done|]. by rewrite IH, length_put32. Qed.

Lemma put_addrs_other l : ∀ off d o,
  (o + 4 ≤ off ∨ off + 4 * length l ≤ o)%nat → get32 (put_addrs off l d) o = get32 d o.
Proof.
  induction l as [|a l IH]; intros off d o Ho; cbn [put_addrs length] in *; [done|].
  rewrite IH by lia. apply get32_put32_other. lia.
Qed.

Lemma put_addrs_other16 l : ∀ off d o,
  (o + 2 ≤ off ∨ off + 4 * length l ≤ o)%nat → get16 (put_addrs off l d) o = get16 d o.
Proof.
  induction l as [|a l IH]; intros off d o Ho; cbn [put_addrs length] in *; [done|].
  rewrite IH by lia. apply get16_inserts_other. cbn. lia.
Qed.

Lemma put_addrs_get l : ∀ off d k a,
  (off + 4 * length l ≤ length d)%nat → l !! k = Some a → get32 (put_addrs off l d) (off + 4 * k) = u32 a.
Proof.
  induction l as [|x l IH]; intros off d k a Hl Hk; [by rewrite lookup_nil in Hk|].
  cbn [length] in Hl. destruct k as [|k]; cbn in Hk.
  - injection Hk as ->. cbn [put_addrs]. rewrite Nat.mul_0_r, Nat.add_0_r, put_addrs_other by lia.
    apply get32_put32. lia.
  - cbn [put_addrs]. replace (off + 4 * S k)%nat with (off + 4 + 4 * k)%nat by lia.
    apply IH; [rewrite length_put32; lia|done].
Qed.

Lemma i16_u16 x : is_i16 x → i16 (u16 x) = x.
Proof.
  unfold is_i16, i16, u16, sgn. intros H. change (16 - 1) with 15. rewrite Z.mod_mod by lia.
  destruct (decide (0 ≤ x)).
  - rewrite Z.mod_small by lia. destruct (Z.ltb_spec x (2 ^ 15)); lia.
  - rewrite <- (Z_mod_plus_full x 1), Z.mod_small by lia.
    destruct (Z.ltb_spec (x + 1 * 2 ^ 16) (2 ^ 15)); lia.
Qed.

Lemma get16_put32_other x v y d : (x + 4 ≤ y ∨ y + 2 ≤ x)%nat → get16 (put32 x v d) y = get16 d y.
Proof. intros H. apply get16_inserts_other. cbn. lia. Qed.
Lemma get16_put16_other x v y d : (x + 2 ≤ y ∨ y + 2 ≤ x)%nat → get16 (put16 x v d) y = get16 d y.
Proof. intros H. apply get16_inserts_other. cbn. lia. Qed.
Lemma get32_put16_other x v y d : (x + 2 ≤ y ∨ y + 4 ≤ x)%nat → get32 (put16 x v d) y = get32 d y.
Proof. intros H. apply get32_inserts_other. cbn. lia. Qed.

(** An inode whose fields are within their C types. *)
Record inode_typed (ip : inode) : Prop := {
  ty_type : is_i16 (i_type ip);
  ty_major : is_i16 (i_major ip);
  ty_minor : is_i16 (i_minor ip);
  ty_nlink : is_i16 (i_nlink ip);
  ty_size : is_u32 (i_size ip);
  ty_addrs : Forall is_u32 (i_addrs ip);
  ty_len : length (i_addrs ip) = Z.to_nat (NDIRECT + 1)
}.

Definition dinode_of (ip : inode) : dinode :=
  mkDinode (i_type ip) (i_major ip) (i_minor ip) (i_nlink ip) (i_size ip) (i_addrs ip).

Lemma dinode_off_le k : 0 ≤ k < IPB → (dinode_off k + 64 ≤ Z.to_nat BSIZE)%nat ∧ dinode_off k = (64 * Z.to_nat k)%nat.
Proof. intros Hk. change IPB with 8 in Hk. unfold dinode_off, DINODESZ. change (Z.to_nat BSIZE) with 512%nat. lia. Qed.

Lemma length_put_dinode k ip d : length (put_dinode k ip d) = length d.
Proof. unfold put_dinode. by rewrite length_put_addrs, length_put32, !length_put16. Qed.

Lemma put_dinode_same k ip d :
  inode_typed ip → length d = Z.to_nat BSIZE → 0 ≤ k < IPB → dinode_at (put_dinode k ip d) k = dinode_of ip.
Proof.
  intros [T1 T2 T3 T4 T5 T6 T7] Hl Hk. destruct (dinode_off_le k Hk) as [Ho _].
  unfold dinode_at, put_dinode, dinode_of. set (o := dinode_off k) in *.
  assert (H13 : length (i_addrs ip) = 13%nat) by exact T7.
  assert (Hs : ∀ v off d', (off + 2 ≤ length d')%nat → is_i16 v → i16 (get16 (put16 off v d') off) = v).
  { intros v off d' Hd Hv. rewrite get16_put16 by done. by apply i16_u16. }
  f_equal.
  1-4: rewrite put_addrs_other16, get16_put32_other by lia; rewrite ?get16_put16_other by lia;
    (apply Hs; [rewrite ?length_put16; lia|done]).
  - rewrite put_addrs_other, get32_put32 by (rewrite ?length_put16; lia). by apply u32_small.
  - unfold get_addrs. apply list_eq. intros j. rewrite list_lookup_fmap.
    destruct (decide (j < 13)%nat) as [Hj|Hj].
    + rewrite lookup_seq_lt by done. cbn [fmap option_fmap option_map Nat.add].
      destruct (lookup_lt_is_Some_2 (i_addrs ip) j) as [a Ha]; [lia|]. rewrite Ha. f_equal.
      rewrite (put_addrs_get (i_addrs ip) (o + 12) _ j a); [|rewrite length_put32, !length_put16; lia|done].
      apply u32_small. rewrite Forall_lookup in T6. by eapply T6.
    + rewrite lookup_seq_ge by (cbn; lia). symmetry. apply lookup_ge_None_2. lia.
Qed.

Lemma put_dinode_other k k' ip d :
  length (i_addrs ip) = Z.to_nat (NDIRECT + 1) → 0 ≤ k < IPB → 0 ≤ k' < IPB → k ≠ k' →
  dinode_at (put_dinode k ip d) k' = dinode_at d k'.
Proof.
  intros H13 Hk Hk' Hne. destruct (dinode_off_le k Hk) as [_ Ek], (dinode_off_le k' Hk') as [_ Ek'].
  change (Z.to_nat (NDIRECT + 1)) with 13%nat in H13.
  assert (Ha : (dinode_off k' + 64 ≤ dinode_off k ∨ dinode_off k + 64 ≤ dinode_off k')%nat) by lia.
  unfold dinode_at, put_dinode. set (o := dinode_off k) in *. set (o' := dinode_off k') in *.
  f_equal.
  1-4: by rewrite put_addrs_other16, get16_put32_other, !get16_put16_other by lia.
  - by rewrite put_addrs_other, get32_put32_other, !get32_put16_other by lia.
  - unfold get_addrs. apply list_fmap_ext. intros j x [-> Hx]%lookup_seq. change (Z.to_nat (NDIRECT + 1)) with 13%nat in Hx.
    by rewrite put_addrs_other, get32_put32_other, !get32_put16_other by lia.
Qed.

(** ** In a transaction *)

Section Inode.
Context {P : Platform} {D : DiskDriver} {SD : SyncDisk D}.

Lemma in_tx_icache s hb L ic : in_tx s hb L → in_tx (s <| icache := ic |>) hb L.
Proof.
  intros [[Hok Hg HL Hd Ho] Hs]. split; [split; try done|done].
  destruct Hok as [[ord Hb] R N H K B]. split; try done. exists ord. by destruct Hb.
Qed.

Lemma in_tx_running s hb L : in_tx s hb L → held s = [] ∧ ∃ cp pr, curproc s = Some cp ∧ ptable s !! cp = Some pr.
Proof. intros [[Hok _ _ _ _] _]. exact (bk_run _ _ Hok). Qed.

Lemma get_inode_run s i ip : icache s !! i = Some ip → get_inode i s = Ret ip s.
Proof. intros H. unfold get_inode. run. by rewrite H. Qed.

Lemma upd_inode_run s i ip f :
  icache s !! i = Some ip → upd_inode i f s = Ret tt (s <| icache ::= alter f i |>).
Proof. intros H. unfold upd_inode. run. by rewrite H. Qed.

(** The block with the inode [inum] is an ordinary block the caller does not hold. *)
Definition iblock_ok (s : kernel) (hb : list (nat * Z)) (inum : Z) : Prop :=
  home (klog s) (IBLOCK inum (sb s)) ∧ IBLOCK inum (sb s) ∉ hb.*2.

Lemma iblock_ok_frame s s' hb inum : tframe s s' → iblock_ok s hb inum → iblock_ok s' hb inum.
Proof.
  intros Hf [Hh Hn]. unfold iblock_ok. rewrite (tframe_sb _ _ Hf). split; [|done].
  by apply (tframe_home _ _ _ Hf).
Qed.

Lemma iupdate_run s hb L i ip :
  in_tx s hb L → icache s !! i = Some ip → i_dev ip = 1 → iblock_ok s hb (i_inum ip) →
  fits s L 1 → (length hb ≤ 1)%nat →
  ∃ s', iupdate i s = Ret tt s' ∧ in_tx s' hb (ladd L (IBLOCK (i_inum ip) (sb s))) ∧ tframe s s'
    ∧ contents s' (IBLOCK (i_inum ip) (sb s))
      = put_dinode (i_inum ip mod IPB) ip (contents s (IBLOCK (i_inum ip) (sb s)))
    ∧ (∀ x, x ≠ IBLOCK (i_inum ip) (sb s) → vw s' x = vw s x).
Proof.
  intros Ht Hi Hd [Hh Hn] Hfit Hhb. unfold iupdate. run_by (by apply get_inode_run). run. rewrite Hd.
  assert (Hfit0 : fits s L 0) by (unfold fits in *; lia). set (b := IBLOCK (i_inum ip) (sb s)) in *.
  destruct (in_tx_block s hb L b Ht (proj1 Hh)) as [Hdat Hlen].
  destruct (tx_bread s hb L b Ht (proj1 Hh) Hn Hfit0 Hhb) as (x & s1 & H1 & Ht1 & Hf1 & Hv1).
  rewrite (bind_run _ _ _ _ _ H1). cbv beta.
  run_by (apply get_inode_run; by rewrite (tframe_icache _ _ Hf1)).
  destruct (tx_edit s1 ((x, b) :: hb) L x b (contents s b) (put_dinode (i_inum ip mod IPB) ip) Ht1)
    as (s2 & s3 & H2 & H3 & Ht3 & Hf3 & Hv3 & Ho3).
  { by left. }
  { by rewrite (tframe_home _ _ _ Hf1). }
  { by rewrite Hv1. }
  { apply length_put_dinode. }
  { by rewrite (tframe_fits _ _ _ _ Hf1). }
  rewrite (bind_run _ _ _ _ _ H2). cbv beta. rewrite (bind_run _ _ _ _ _ H3). cbv beta.
  destruct (tx_brelse s3 [] hb _ x b Ht3) as (s4 & H4 & Ht4 & Hf4 & Hv4).
  exists s4. split_and!; try done.
  - etrans; [done|]. by etrans.
  - unfold contents at 1. by rewrite Hv4, Hv3.
  - intros y Hy. by rewrite Hv4, Ho3.
Qed.

(** The cache entry ilock leaves: locked by the caller, loaded if it was not. *)
Definition ilocked (pid : Z) (di : dinode) (ip : inode) : inode :=
  let ip := ip <| i_lock := mkSleeplock true pid |> in
  if i_valid ip then ip else (load_dinode di ip) <| i_valid := true |>.

(** The dinode of [inum] on the disk. *)
Definition disk_inode (s : kernel) (inum : Z) : dinode :=
  dinode_at (contents s (IBLOCK inum (sb s))) (inum mod IPB).

Lemma tframe_icache_r s s' ic : tframe (s <| icache := ic |>) s' → tframe s (s' <| icache := icache s |>).
Proof. intros (W & E & L). split_and!; [done| |done]. sst. rewrite E at 1. by kext. Qed.

(** Loading the cache entry [i] from the disk, in ilock. *)
Lemma iload_run s hb L i ip :
  in_tx s hb L → icache s !! i = Some ip → i_dev ip = 1 → iblock_ok s hb (i_inum ip) →
  d_type (disk_inode s (i_inum ip)) ≠ 0 → fits s L 0 → (length hb ≤ 1)%nat →
  ∃ s', tframe s s' ∧ in_tx s' hb L ∧ (∀ x, vw s' x = vw s x) ∧
  (sb ← gets sb;
   bp ← bread (i_dev ip) (IBLOCK (i_inum ip) sb);
   bb ← getbuf bp;
   upd_inode i (load_dinode (dinode_at (b_data bb) (i_inum ip mod IPB)));;
   brelse bp;;
   upd_inode i (λ ip, ip <| i_valid := true |>);;
   ip ← get_inode i;
   if i_type ip =? 0 then panic "ilock: no type" else mret tt) s
  = Ret tt (s' <| icache ::= alter (λ ip, (load_dinode (disk_inode s (i_inum ip)) ip) <| i_valid := true |>) i |>).
Proof.
  intros Ht Hi Hd [Hhm Hn] Hty Hfit Hhb. run. rewrite Hd. set (b := IBLOCK (i_inum ip) (sb s)) in *.
  destruct (tx_bread s hb L b Ht (proj1 Hhm) Hn Hfit Hhb) as (x & s2 & H2 & Ht2 & Hf2 & Hv2).
  rewrite (bind_run _ _ _ _ _ H2). cbv beta.
  destruct (tx_getbuf s2 _ L x _ Ht2 ltac:(by left)) as (bb & Hg & Hdat).
  rewrite (bind_run _ _ _ _ _ Hg). cbv beta. rewrite Hdat, (contents_eq _ _ _ (Hv2 _)).
  fold (disk_inode s (i_inum ip)). set (di := disk_inode s (i_inum ip)) in *.
  assert (Hi2 : icache s2 !! i = Some ip) by (by rewrite (tframe_icache _ _ Hf2)).
  rewrite (bind_run _ _ _ _ _ (upd_inode_run _ _ _ _ Hi2)). cbv beta.
  set (ic := alter (load_dinode di) i (icache s2)).
  change (s2 <| icache ::= alter (load_dinode di) i |>) with (s2 <| icache := ic |>).
  assert (Ht3 : in_tx (s2 <| icache := ic |>) ([] ++ (x, b) :: hb) L) by (by apply in_tx_icache).
  destruct (tx_brelse _ [] hb L x b Ht3) as (s4 & H4 & Ht4 & Hf4 & Hv4).
  rewrite (bind_run _ _ _ _ _ H4). cbv beta.
  assert (Eic : icache s4 = ic) by (by rewrite (tframe_icache _ _ Hf4)).
  assert (Hi4 : icache s4 !! i = Some (load_dinode di ip)).
  { rewrite Eic. unfold ic. by rewrite list_lookup_alter_eq, Hi2. }
  rewrite (bind_run _ _ _ _ _ (upd_inode_run _ _ _ _ Hi4)). cbv beta.
  set (s5 := s4 <| icache ::= alter (λ n, n <| i_valid := true |>) i |>).
  assert (Hi5 : icache s5 !! i = Some ((load_dinode di ip) <| i_valid := true |>)).
  { unfold s5. sst. rewrite list_lookup_alter_eq, Hi4. reflexivity. }
  rewrite (bind_run _ _ _ _ _ (get_inode_run _ _ _ Hi5)). cbv beta.
  assert (Ety : i_type ((load_dinode di ip) <| i_valid := true |>) =? 0 = false) by (by apply Z.eqb_neq).
  rewrite Ety. exists (s4 <| icache := icache s2 |>). split_and!.
  - etrans; [exact Hf2|]. by apply tframe_icache_r with ic.
  - by apply in_tx_icache.
  - intros y. etransitivity; [apply (Hv4 y)|]. apply (Hv2 y).
  - unfold mret, M_ret. f_equal. unfold s5. kext. rewrite Eic. unfold ic. rewrite list_alter_alter_eq.
    apply list_alter_same. intros n Hn'. simplify_eq. done.
Qed.

Lemma ilock_run s hb L i ip :
  in_tx s hb L → icache s !! i = Some ip → 1 ≤ i_ref ip → sl_locked (i_lock ip) = false →
  (i_valid ip = false → i_dev ip = 1 ∧ iblock_ok s hb (i_inum ip) ∧ d_type (disk_inode s (i_inum ip)) ≠ 0) →
  fits s L 0 → (length hb ≤ 1)%nat →
  ∃ pid s', tframe s s' ∧ in_tx s' hb L ∧ (∀ x, vw s' x = vw s x)
    ∧ ilock (Some i) s = Ret tt (s' <| icache ::= alter (ilocked pid (disk_inode s (i_inum ip))) i |>).
Proof.
  intros Ht Hi Hr Hu Hv Hfit Hhb. destruct (in_tx_running _ _ _ Ht) as (Hh & cp & pr & Hc & Hp).
  exists (pid pr). unfold ilock. run_by (by apply get_inode_run).
  destruct (Z.ltb_spec (i_ref ip) 1); [lia|].
  set (v := mkSleeplock true (pid pr)). set (ic := alter (λ n, n <| i_lock := v |>) i (icache s)).
  assert (Ha : acquiresleep (SLInode i) s = Ret tt (s <| icache := ic |>)).
  { apply (acquiresleep_run (SLInode i) s (i_lock ip) cp); try done; [cbn; by rewrite Hi|].
    rewrite Hh. apply not_elem_of_nil. }
  rewrite (bind_run _ _ _ _ _ Ha). cbv beta. set (s1 := s <| icache := ic |>).
  assert (Hi1 : icache s1 !! i = Some (ip <| i_lock := v |>)).
  { change (icache s1) with ic. unfold ic. by rewrite list_lookup_alter_eq, Hi. }
  rewrite (bind_run _ _ _ _ _ (get_inode_run _ _ _ Hi1)). cbv beta.
  assert (Ht1 : in_tx s1 hb L) by (by apply in_tx_icache).
  change (i_valid (ip <| i_lock := v |>)) with (i_valid ip). destruct (i_valid ip) eqn:Ev; cbn [negb when].
  - exists s. split; [apply tframe_refl|]. split; [done|]. split; [done|]. unfold mret, M_ret. f_equal.
    unfold s1. kext. unfold ic. apply list_alter_same. intros n Hn. simplify_eq. unfold ilocked. cbv zeta.
    change (i_valid (ip <| i_lock := mkSleeplock true (pid pr) |>)) with (i_valid ip). by rewrite Ev.
  - destruct (Hv eq_refl) as (Hd & Hib & Hty). unfold when.
    destruct (iload_run s1 hb L i (ip <| i_lock := v |>)) as (s2 & Hf2 & Ht2 & Hv2 & Hrun); try done.
    exists (s2 <| icache := icache s |>). split; [by apply tframe_icache_r with ic|]. split; [by apply in_tx_icache|].
    split; [exact Hv2|]. etransitivity; [exact Hrun|]. f_equal. kext.
    rewrite (tframe_icache _ _ Hf2). change (icache s1) with ic. unfold ic. rewrite list_alter_alter_eq.
    apply list_alter_same. intros n Hn. simplify_eq. unfold ilocked. cbv zeta. cbn [compose].
    change (i_valid (ip <| i_lock := mkSleeplock true (pid pr) |>)) with (i_valid ip). by rewrite Ev.
Qed.

Lemma IBLOCK_plain x sbk : 0 ≤ x < 2 ^ 31 → 0 ≤ sb_inodestart sbk < 2 ^ 31 → IBLOCK x sbk = x / IPB + sb_inodestart sbk.
Proof.
  intros Hx Hs. unfold IBLOCK. apply u32_small. change IPB with 8.
  pose proof (Z.div_pos x 8 ltac:(lia) ltac:(lia)). pose proof (Z.div_le_upper_bound x 8 x ltac:(lia) ltac:(lia)).
  unfold is_u32. lia.
Qed.

Lemma iupdate_disk s s' ip x :
  contents s' (IBLOCK (i_inum ip) (sb s)) = put_dinode (i_inum ip mod IPB) ip (contents s (IBLOCK (i_inum ip) (sb s))) →
  (∀ b, b ≠ IBLOCK (i_inum ip) (sb s) → vw s' b = vw s b) → sb s' = sb s →
  inode_typed ip → length (contents s (IBLOCK (i_inum ip) (sb s))) = Z.to_nat BSIZE →
  0 ≤ i_inum ip < 2 ^ 31 → 0 ≤ x < 2 ^ 31 → 0 ≤ sb_inodestart (sb s) < 2 ^ 31 →
  disk_inode s' x = if decide (x = i_inum ip) then dinode_of ip else disk_inode s x.
Proof.
  intros Hput Ho Hsb Hty Hlen Hi Hx Hst. unfold disk_inode. rewrite Hsb.
  assert (Hm : ∀ y, 0 ≤ y mod IPB < IPB) by (intros y; apply Z.mod_pos_bound; done).
  case_decide as E; [subst x; rewrite Hput; by apply put_dinode_same|].
  destruct (decide (IBLOCK x (sb s) = IBLOCK (i_inum ip) (sb s))) as [Eb|Hne].
  - rewrite Eb, Hput. apply put_dinode_other; try done; [apply Hty|].
    rewrite !IBLOCK_plain in Eb by done. intros Em. apply E.
    rewrite (Z_div_mod_eq_full x IPB), (Z_div_mod_eq_full (i_inum ip) IPB), Em. f_equal. f_equal. lia.
  - by rewrite (contents_eq _ _ _ (Ho _ Hne)).
Qed.

(** C14: Inodes survive in their block.  After iupdate of a cached inode, an
    ilock of any cache entry that has to load the same inode, in whatever state
    the cache is then, finds every field as it was written; iupdate changes no
    other inode of the disk, its neighbours in the block included. *)
Theorem inode_persists s hb L i ip ic j jp :
  in_tx s hb L → icache s !! i = Some ip → inode_typed ip → i_dev ip = 1 → i_type ip ≠ 0 →
  0 ≤ i_inum ip < 2 ^ 31 → 0 ≤ sb_inodestart (sb s) < 2 ^ 31 → iblock_ok s hb (i_inum ip) →
  fits s L 1 → (length hb ≤ 1)%nat →
  ic !! j = Some jp → i_dev jp = 1 → i_inum jp = i_inum ip → 1 ≤ i_ref jp →
  sl_locked (i_lock jp) = false → i_valid jp = false →
  ∃ s1 s2 jp2, iupdate i s = Ret tt s1 ∧ ilock (Some j) (s1 <| icache := ic |>) = Ret tt s2
  ∧ icache s2 !! j = Some jp2 ∧ dinode_of jp2 = dinode_of ip ∧ i_valid jp2 = true ∧ sl_locked (i_lock jp2) = true
  ∧ ∀ x, 0 ≤ x < 2 ^ 31 → x ≠ i_inum ip → disk_inode s2 x = disk_inode s x.
Proof.
  intros Ht Hi Hty Hd Htype Hnum Hst Hib Hfit Hhb Hj Hjd Hjn Hjr Hju Hjv.
  destruct (iupdate_run s hb L i ip Ht Hi Hd Hib Hfit Hhb) as (s1 & H1 & Ht1 & Hf1 & Hput & Ho).
  destruct (in_tx_block s hb L _ Ht (proj1 (proj1 Hib))) as [_ Hlen].
  assert (Hdisk : ∀ x, 0 ≤ x < 2 ^ 31 → disk_inode s1 x = if decide (x = i_inum ip) then dinode_of ip else disk_inode s x).
  { intros x Hx. eapply iupdate_disk; try done. by apply tframe_sb. }
  set (s1' := s1 <| icache := ic |>).
  assert (Hdj : disk_inode s1' (i_inum jp) = dinode_of ip).
  { change (disk_inode s1' (i_inum jp)) with (disk_inode s1 (i_inum jp)). rewrite Hjn, Hdisk by done. by rewrite decide_True. }
  destruct (ilock_run s1' hb (ladd L (IBLOCK (i_inum ip) (sb s))) j jp) as (pid & s2 & Hf2 & Ht2 & Hv2 & H2); try done.
  { by apply in_tx_icache. }
  { intros _. split; [done|]. rewrite Hdj, Hjn. split; [|done].
    destruct (iblock_ok_frame s s1 hb (i_inum ip) Hf1 Hib) as [Hh Hn]. split; [exact Hh|exact Hn]. }
  { unfold fits in *. change (klog s1') with (klog s1). rewrite (tframe_log l_size _ _ (λ _ _ _, eq_refl) Hf1).
    pose proof (length_ladd L (IBLOCK (i_inum ip) (sb s))). lia. }
  rewrite Hdj in H2. exists s1. eexists _, (ilocked pid (dinode_of ip) jp). split; [done|]. split; [exact H2|].
  assert (Hlk : ilocked pid (dinode_of ip) jp
    = (load_dinode (dinode_of ip) (jp <| i_lock := mkSleeplock true pid |>)) <| i_valid := true |>).
  { unfold ilocked. cbv zeta. change (i_valid (jp <| i_lock := mkSleeplock true pid |>)) with (i_valid jp). by rewrite Hjv. }
  split_and!.
  - sst. rewrite (tframe_icache _ _ Hf2). change (icache s1') with ic. rewrite list_lookup_alter_eq, Hj. reflexivity.
  - rewrite Hlk. reflexivity.
  - rewrite Hlk. reflexivity.
  - rewrite Hlk. reflexivity.
  - intros x Hx Hne. rewrite <- (decide_False (P:=x = i_inum ip) (dinode_of ip) (disk_inode s x)) by done.
    rewrite <- Hdisk by done. unfold disk_inode. sst. rewrite (tframe_sb _ _ Hf2).
    change (sb s1') with (sb s1). f_equal. apply contents_eq. exact (Hv2 _).
Qed.
End Inode.

#[local] Existing Instance plat20.
#[local] Existing Instance Memide.driver.

(** The file of the small disk, in the cache after a change of its size. *)
Definition cached20 (n : Z) : inode :=
  file20 <| i_dev := 1 |> <| i_inum := 2 |> <| i_ref := 1 |> <| i_valid := true |> <| i_size := n |>.
Definition file_tx20 (n : Z) : kernel := tx20 <| icache := <[0%nat := cached20 n]> (icache tx20) |>.

Lemma cached20_typed n : is_u32 n → inode_typed (cached20 n).
Proof.
  intros Hn. split; try done. cbn. repeat constructor; unfold is_u32; lia.
Qed.

Lemma file_tx20_in n : in_tx (file_tx20 n) [] [].
Proof. apply in_tx_icache, tx20_in_tx. Qed.

Lemma inode_persists_witness :
  ∃ s1 s2 jp2, iupdate 0 (file_tx20 7) = Ret tt s1
  ∧ ilock (Some 1%nat) (s1 <| icache := [inode_zero; (cached20 0) <| i_valid := false |>] |>) = Ret tt s2
  ∧ icache s2 !! 1%nat = Some jp2 ∧ i_size jp2 = 7.
Proof.
  destruct (inode_persists (file_tx20 7) [] [] 0 (cached20 7) [inode_zero; (cached20 0) <| i_valid := false |>] 1
              ((cached20 0) <| i_valid := false |>)) as (s1 & s2 & jp2 & H1 & H2 & H3 & H4 & _).
  - apply file_tx20_in.
  - reflexivity.
  - apply cached20_typed. unfold is_u32. lia.
  - reflexivity.
  - done.
  - cbn. lia.
  - cbn. lia.
  - split; [|apply not_elem_of_nil]. change (home (klog tx20) 14). apply tx20_home; lia.
  - unfold fits. cbn. lia.
  - cbn. lia.
  - reflexivity.
  - reflexivity.
  - reflexivity.
  - cbn. lia.
  - reflexivity.
  - reflexivity.
  - exists s1, s2, jp2. split; [exact H1|]. split; [exact H2|]. split; [exact H3|]. exact (f_equal d_size H4).
Defined.
