(* ===== verification/Content.v ===== *)
(** File contents (bmap, readi and writei of fs.c): a file as the function from
    offsets to bytes that its direct and indirect blocks represent. *)

From S2P Require Import Prelude Types Spinlock Sched Ide Bio Blocks Bytes Log Fs Bitmap Inode.

(** ** Files *)

Definition iaddr (ip : inode) (k : nat) : Z := default 0 (i_addrs ip !! k).

(** The block with the contents of block [bn] of the file, 0 for none. *)
Definition faddr (s : kernel) (ip : inode) (bn : Z) : Z :=
  if bn <? NDIRECT then iaddr ip (Z.to_nat bn)
  else if iaddr ip 12 =? 0 then 0
  else get32 (contents s (iaddr ip 12)) (Z.to_nat (4 * (bn - NDIRECT))).

(** The byte at offset [o]; what has no block reads as zero. *)
Definition fbyte (s : kernel) (ip : inode) (o : Z) : Z :=
  let a := faddr s ip (o / BSIZE) in
  if a =? 0 then 0 else byte_at (contents s a) (Z.to_nat (o mod BSIZE)).

Section Content.
Context {P : Platform} {D : DiskDriver} {SD : SyncDisk D}.

(** A block of file data: in use and no one else's. *)
Definition data_ok (s : kernel) (inum b : Z) : Prop :=
  0 < b < sb_size (sb s) ∧ home (klog s) b ∧ used s b = true
  ∧ (∀ c, 0 ≤ c < sb_size (sb s) → b ≠ BBLOCK c (sb s)) ∧ b ≠ IBLOCK inum (sb s).

Record file_ok (s : kernel) (ip : inode) : Prop := {
  fo_len : length (i_addrs ip) = 13%nat;
  fo_ind : iaddr ip 12 = 0 ∨ data_ok s (i_inum ip) (iaddr ip 12);
  fo_blk : ∀ bn, 0 ≤ bn < MAXFILE → faddr s ip bn = 0 ∨ data_ok s (i_inum ip) (faddr s ip bn);
  fo_inj : ∀ bn bn', 0 ≤ bn < MAXFILE → 0 ≤ bn' < MAXFILE → faddr s ip bn = faddr s ip bn' → faddr s ip bn ≠ 0 → bn = bn';
  fo_sep : ∀ bn, 0 ≤ bn < MAXFILE → faddr s ip bn ≠ 0 → faddr s ip bn ≠ iaddr ip 12
}.

(** There are [k] free blocks. *)
Definition avail_blocks (s : kernel) (k : nat) : Prop :=
  ∃ F : list Z, NoDup F ∧ length F = k ∧ ∀ b, b ∈ F → 0 ≤ b < sb_size (sb s) ∧ used s b = false.

(** The file system around a cached inode [ip], entry [i], inside a
    transaction that holds the blocks [hb], with [k] free blocks and room for
    [m] more blocks in the log. *)
Record fs_ok (s : kernel) (hb : list (nat * Z)) (L : list Z) (i : nat) (ip : inode) (k m : nat) : Prop := {
  fs_tx : in_tx s hb L;
  fs_bm : bm_ok s hb;
  fs_icache : icache s !! i = Some ip;
  fs_dev : i_dev ip = 1;
  fs_iblock : iblock_ok s hb (i_inum ip);
  fs_meta : 0 ≤ IBLOCK (i_inum ip) (sb s) < sb_size (sb s) ∧ used s (IBLOCK (i_inum ip) (sb s)) = true ∧ used s 0 = true;
  fs_sep : ∀ c, 0 ≤ c < sb_size (sb s) → IBLOCK (i_inum ip) (sb s) ≠ BBLOCK c (sb s);
  fs_file : file_ok s ip;
  fs_held : ∀ b, b ∈ hb.*2 → data_ok s (i_inum ip) b;
  fs_avail : avail_blocks s k;
  fs_fits : fits s L m
}.

Lemma least_free s k : avail_blocks s (S k) → ∃ b, first_free s b.
Proof.
  intros (F & _ & HF & Hfree). destruct F as [|b F]; [done|]. destruct (Hfree b ltac:(by left)) as [Hb Hu].
  clear Hfree HF F. assert (Hb0 : 0 ≤ b) by lia. revert b Hb0 Hb Hu.
  apply (Z_lt_induction (λ b, 0 ≤ b < sb_size (sb s) → used s b = false → ∃ b, first_free s b)).
  intros b IH Hb Hu. destruct (decide (Exists (λ y, used s y = false) (seqZ 0 b))) as [He|Hn].
  - apply Exists_exists in He as (y & Hy%elem_of_seqZ & Huy). apply (IH y); [lia|lia|done].
  - exists b. split; [done|]. split; [done|]. intros x Hx. destruct (used s x) eqn:E; [done|]. exfalso.
    apply Hn, Exists_exists. exists x. split; [|done]. apply elem_of_seqZ. lia.
Qed.

Lemma avail_take s s' b k :
  avail_blocks s (S k) → sb s' = sb s →
  (∀ x, 0 ≤ x < sb_size (sb s) → used s' x = if decide (x = b) then true else used s x) → avail_blocks s' k.
Proof.
  intros (F & Hnd & HF & Hfree) Hsb Hu.
  assert (Hx : ∀ G, NoDup G → (∀ x, x ∈ G → x ∈ F ∧ x ≠ b) → length G = k → avail_blocks s' k).
  { intros G HG Hin Hl. exists G. split; [done|]. split; [done|]. intros x Hx. destruct (Hin x Hx) as [HxF Hne].
    destruct (Hfree x HxF) as [Hr Hf]. rewrite Hsb, Hu by done. by rewrite decide_False. }
  destruct (decide (b ∈ F)) as [HbF|HbF].
  - apply list_elem_of_split in HbF as (l1 & l2 & ->). apply (Hx (l1 ++ l2)).
    + apply NoDup_app in Hnd as (N1 & N12 & [Nb N2]%NoDup_cons). apply NoDup_app. split_and!; [done| |done].
      intros x Hx1 Hx2. apply (N12 x Hx1). by right.
    + intros x [Hx1|Hx2]%elem_of_app; apply NoDup_app in Hnd as (N1 & N12 & [Nb N2]%NoDup_cons).
      * split; [apply elem_of_app; by left|]. intros ->. apply (N12 b Hx1). by left.
      * split; [apply elem_of_app; right; by right|]. intros ->. done.
    + rewrite length_app in *. cbn in HF. lia.
  - destruct F as [|x F]; [done|]. apply NoDup_cons in Hnd as [_ Hnd]. apply (Hx F); [done| |by injection HF].
    intros y Hy. split; [by right|]. intros ->. apply HbF. by right.
Qed.

(** ** Frames *)

(** Nothing a file consists of has changed. *)
Definition same_data (s s' : kernel) (inum : Z) : Prop := ∀ x, data_ok s inum x → contents s' x = contents s x.

Lemma same_ind s s' ip :
  file_ok s ip → same_data s s' (i_inum ip) →
  iaddr ip 12 ≠ 0 → contents s' (iaddr ip 12) = contents s (iaddr ip 12).
Proof. intros Hf Hs Hne. destruct (fo_ind _ _ Hf) as [?|Hd]; [done|]. by apply Hs. Qed.

Lemma faddr_same s s' ip bn :
  (iaddr ip 12 ≠ 0 → contents s' (iaddr ip 12) = contents s (iaddr ip 12)) → faddr s' ip bn = faddr s ip bn.
Proof.
  intros Hs. unfold faddr. destruct (bn <? NDIRECT); [done|]. destruct (Z.eqb_spec (iaddr ip 12) 0); [done|].
  by rewrite Hs.
Qed.

Lemma block_of o : 0 ≤ o < MAXFILE * BSIZE → 0 ≤ o / BSIZE < MAXFILE ∧ 0 ≤ o mod BSIZE < BSIZE.
Proof.
  intros Ho. split; [|by apply Z.mod_pos_bound].
  split; [apply Z.div_pos; [lia|done]|]. apply Z.div_lt_upper_bound; [done|lia].
Qed.

Lemma fbyte_same s s' ip o :
  file_ok s ip → 0 ≤ o < MAXFILE * BSIZE → same_data s s' (i_inum ip) → fbyte s' ip o = fbyte s ip o.
Proof.
  intros Hf Ho Hs. destruct (block_of o Ho) as [Hbn _].
  unfold fbyte. rewrite (faddr_same s s') by (by apply same_ind). destruct (fo_blk _ _ Hf _ Hbn) as [->|Hd]; [done|].
  by rewrite (Hs _ Hd).
Qed.

Lemma file_ok_same s s' ip :
  file_ok s ip → (∀ b, data_ok s (i_inum ip) b → data_ok s' (i_inum ip) b) →
  (iaddr ip 12 ≠ 0 → contents s' (iaddr ip 12) = contents s (iaddr ip 12)) → file_ok s' ip.
Proof.
  intros Hf Hd Hs. assert (Ha : ∀ bn, faddr s' ip bn = faddr s ip bn) by (intros; by apply faddr_same).
  destruct Hf as [F1 F2 F3 F4 F5]. split.
  - done.
  - destruct F2 as [?|?]; [by left|right; auto].
  - intros bn Hbn. rewrite Ha. destruct (F3 bn Hbn) as [->|?]; [by left|right; auto].
  - intros bn bn' Hbn Hbn'. rewrite !Ha. by apply F4.
  - intros bn Hbn. rewrite Ha. by apply F5.
Qed.

Lemma data_ok_mono s s' inum b :
  tframe s s' → (∀ x, 0 ≤ x < sb_size (sb s) → used s x = true → used s' x = true) → data_ok s inum b → data_ok s' inum b.
Proof.
  intros Hf Hu (Hr & Hh & Hub & Hbm & Hib). unfold data_ok. rewrite (tframe_sb _ _ Hf).
  split_and!; [lia|lia|by apply (tframe_home _ _ _ Hf)|apply Hu; [lia|done]|done|done].
Qed.

(** Steps that leave the bitmap as it is. *)
Definition same_bitmap (s s' : kernel) : Prop :=
  ∀ c, 0 ≤ c < sb_size (sb s) → vw s' (BBLOCK c (sb s)) = vw s (BBLOCK c (sb s)).

Lemma same_bitmap_used s s' x :
  tframe s s' → same_bitmap s s' → 0 ≤ x < sb_size (sb s) → used s' x = used s x.
Proof. intros Hf Hv Hx. by apply used_same, Hv. Qed.

Lemma same_bitmap_data s s' inum b : tframe s s' → same_bitmap s s' → data_ok s inum b → data_ok s' inum b.
Proof. intros Hf Hv. apply data_ok_mono; [done|]. intros x Hx. by rewrite (same_bitmap_used s s'). Qed.

Lemma fs_step s s' hb hb' L L' i ip k m m' :
  fs_ok s hb L i ip k m → tframe s s' → same_bitmap s s' → in_tx s' hb' L' →
  (∀ b, b ∈ hb'.*2 → data_ok s (i_inum ip) b) → file_ok s' ip → fits s L' m' → fs_ok s' hb' L' i ip k m'.
Proof.
  intros [H1 H2 H3 H4 H5 H6 H0 H7 H8 H9 H10] Hf Hv Ht Hb Hfile Hfit. assert (Hsb := tframe_sb _ _ Hf).
  assert (Hu : ∀ x, 0 ≤ x < sb_size (sb s) → used s' x = used s x) by (intros x; by apply same_bitmap_used).
  assert (Hnin : ∀ b, (∀ x, data_ok s (i_inum ip) x → x ≠ b) → b ∉ hb'.*2).
  { intros b Hne Hin. by apply (Hne b (Hb b Hin)). }
  split; try done.
  - destruct H2 as [B1 B2 B3]. split; rewrite Hsb.
    + done.
    + intros b Hr. destruct (B2 b Hr) as (? & ? & _). split_and!; [done|by apply (tframe_home _ _ _ Hf)|].
      apply Hnin. intros x (_ & _ & _ & Hx & _). by apply Hx.
    + intros b Hr Hub. rewrite Hu in Hub by done. destruct (B3 b Hr Hub) as (? & _ & ?).
      split_and!; [by apply (tframe_home _ _ _ Hf)| |done]. apply Hnin. intros x (_ & _ & Hx & _) ->. congruence.
  - by rewrite (tframe_icache _ _ Hf).
  - destruct H5 as [Hh _]. split; rewrite Hsb; [by apply (tframe_home _ _ _ Hf)|].
    apply Hnin. intros x (_ & _ & _ & _ & Hx). done.
  - rewrite Hsb, !Hu by lia. done.
  - by rewrite Hsb.
  - intros b Hin. by apply (same_bitmap_data s), Hb.
  - destruct H9 as (F & HF1 & HF2 & HF3). exists F. split; [done|]. split; [done|]. intros b HbF.
    destruct (HF3 b HbF) as [Hr Hub]. rewrite Hsb, Hu by done. done.
  - by rewrite (tframe_fits _ _ _ _ Hf).
Qed.

(** Steps that only move blocks in and out of the cache. *)
Lemma fs_ok_same s s' hb hb' L i ip k m :
  fs_ok s hb L i ip k m → tframe s s' → (∀ x, vw s' x = vw s x) → in_tx s' hb' L →
  (∀ b, b ∈ hb'.*2 → data_ok s (i_inum ip) b) → fs_ok s' hb' L i ip k m.
Proof.
  intros H Hf Hv Ht Hb. apply (fs_step s s' hb hb' L L i ip k m m); try done; [by intros c _| |apply H].
  apply (file_ok_same s); [apply H| |intros _; by apply contents_eq].
  intros b. apply same_bitmap_data; [done|by intros c _].
Qed.

(** ** Allocation for a file *)

Lemma fs_balloc s hb L i ip k m :
  fs_ok s hb L i ip (S k) (m + 2) → (length hb ≤ 1)%nat →
  ∃ b s' L', balloc 1 s = Ret b s' ∧ tframe s s' ∧ fs_ok s' hb L' i ip k m ∧ same_data s s' (i_inum ip)
    ∧ (∀ x, data_ok s (i_inum ip) x → x ≠ b) ∧ data_ok s' (i_inum ip) b
    ∧ contents s' b = replicate (Z.to_nat BSIZE) 0.
Proof.
  intros H Hhb. destruct (least_free s k (fs_avail _ _ _ _ _ _ _ H)) as [b Hff].
  destruct H as [H1 H2 H3 H4 H5 H6 H0 H7 H8 H9 H10].
  destruct (balloc_run s hb L b) as (s' & Hr & Hp); try done; [unfold fits in *; lia|].
  destruct (balloc_used s s' hb L b) as [Hu Hbm]; try done.
  destruct Hff as (Hb & Hub & _). destruct (bm_free _ _ H2 b Hb Hub) as (Hh & Hnin & Hnb).
  destruct Hp as [P1 P2 P3 P4 P5]. assert (Hsb := tframe_sb _ _ P2).
  assert (Hne : ∀ x, data_ok s (i_inum ip) x → x ≠ b) by (intros x (_ & _ & Hx & _) ->; congruence).
  assert (Hsame : same_data s s' (i_inum ip)).
  { intros x Hx. apply contents_eq, P5; [by apply Hne|]. destruct Hx as (_ & _ & _ & Hx & _). by apply Hx. }
  assert (Hmono : ∀ x, 0 ≤ x < sb_size (sb s) → used s x = true → used s' x = true).
  { intros x Hx Hux. rewrite Hu by done. by case_decide. }
  assert (Hd : ∀ x, data_ok s (i_inum ip) x → data_ok s' (i_inum ip) x) by (intros x; by apply data_ok_mono).
  destruct H6 as (Hi1 & Hi2 & Hi3).
  exists b, s', (ladd (ladd L (BBLOCK b (sb s))) b). split_and!; try done.
  - split; try done.
    + by rewrite (tframe_icache _ _ P2).
    + by apply (iblock_ok_frame s).
    + rewrite Hsb. split; [done|]. split; apply Hmono; [done|done|lia|done].
    + by rewrite Hsb.
    + apply (file_ok_same s); [done|done|by apply same_ind].
    + intros x Hx. by apply Hd, H8.
    + by apply (avail_take s s' b).
    + rewrite (tframe_fits _ _ _ _ P2). unfold fits in *.
      pose proof (length_ladd L (BBLOCK b (sb s))). pose proof (length_ladd (ladd L (BBLOCK b (sb s))) b). lia.
  - unfold data_ok. rewrite Hsb. split_and!; try done.
    + destruct (decide (b = 0)) as [->|]; [congruence|lia].
    + lia.
    + by apply (tframe_home _ _ _ P2).
    + rewrite Hu by done. by rewrite decide_True.
    + intros ->. congruence.
Qed.

(** ** bmap *)

(** The inode with one of its addresses set. *)
Definition set_addr (k : nat) (a : Z) (ip : inode) : inode := ip <| i_addrs ::= <[k := a]> |>.

Lemma iaddr_set k a ip j : length (i_addrs ip) = 13%nat → (k < 13)%nat →
  iaddr (set_addr k a ip) j = if decide (j = k) then a else iaddr ip j.
Proof.
  intros Hl Hk. unfold iaddr, set_addr. sst. case_decide as E.
  - subst j. by rewrite list_lookup_insert_eq by lia.
  - by rewrite list_lookup_insert_ne.
Qed.

Lemma byte_zero n k : byte_at (replicate n 0) k = 0.
Proof. unfold byte_at. destruct (replicate n 0 !! k) eqn:E; [|done]. by apply lookup_replicate in E as [-> _]. Qed.

Lemma get32_zero n o : get32 (replicate n 0) o = 0.
Proof. unfold get32. by rewrite !byte_zero. Qed.

(** What bmap promises for block [bn]: the block [a] of the file; the file
    reads as it did. *)
Record bmap_post (s s' : kernel) (ip ip' : inode) (bn a : Z) : Prop := {
  bp_addr : faddr s' ip' bn = a;
  bp_data : data_ok s' (i_inum ip) a;
  bp_old : ∀ bn', 0 ≤ bn' < MAXFILE → faddr s ip bn' ≠ 0 → faddr s' ip' bn' = faddr s ip bn';
  bp_bytes : ∀ o, 0 ≤ o < MAXFILE * BSIZE → fbyte s' ip' o = fbyte s ip o;
  bp_ip : ip' = ip <| i_addrs := i_addrs ip' |>
}.

Lemma avail_weaken s k k' : avail_blocks s k → (k' ≤ k)%nat → avail_blocks s k'.
Proof.
  intros (F & Hnd & HF & Hfree) Hle. exists (take k' F). split_and!.
  - eapply sublist_NoDup; [done|]. apply sublist_take.
  - rewrite length_take. lia.
  - intros b Hb. apply Hfree. by apply elem_of_take in Hb as (j & Hj & _); apply list_elem_of_lookup_2 in Hj.
Qed.

Lemma fs_weaken s hb L i ip k m k' m' :
  fs_ok s hb L i ip k m → (k' ≤ k)%nat → (m' ≤ m)%nat → fs_ok s hb L i ip k' m'.
Proof.
  intros [H1 H2 H3 H4 H5 H6 H0 H7 H8 H9 H10] Hk Hm. split; try done; [by eapply avail_weaken|unfold fits in *; lia].
Qed.

(** Everything but the cache entry [i] and the block cache is as before. *)
Definition iframe (i : nat) (s s' : kernel) : Prop :=
  tframe s (s' <| icache := icache s |>) ∧ ∀ j, j ≠ i → icache s' !! j = icache s !! j.

Lemma iframe_tframe i s s' : tframe s s' → iframe i s s'.
Proof.
  intros Hf. assert (Hic := tframe_icache _ _ Hf). split; [|by rewrite Hic].
  replace (s' <| icache := icache s |>) with s'; [done|]. rewrite <- Hic. by destruct s'.
Qed.

Lemma iframe_refl i s : iframe i s s.
Proof. apply iframe_tframe, tframe_refl. Qed.

Lemma iframe_trans i s1 s2 s3 : iframe i s1 s2 → iframe i s2 s3 → iframe i s1 s3.
Proof.
  intros [Hf1 Ho1] [(W & E & L) Ho2]. split; [|intros j Hj; by rewrite Ho2, Ho1].
  etrans; [exact Hf1|]. split_and!; [exact W| |exact L].
  sst. transitivity ((s3 <| icache := icache s2 |>) <| icache := icache s1 |>); [done|]. rewrite E. by kext.
Qed.

Lemma iframe_upd i f s : iframe i s (s <| icache ::= alter f i |>).
Proof.
  split; [|intros j Hj; sst; by rewrite list_lookup_alter_ne].
  replace (_ <| icache := icache s |>) with s by (by kext). apply tframe_refl.
Qed.

Lemma faddr_set s ip j b bn :
  file_ok s ip → (j < 13)%nat → iaddr ip j = 0 → 0 ≤ bn < MAXFILE → b ≠ 0 →
  (j = 12%nat → contents s b = replicate (Z.to_nat BSIZE) 0) →
  faddr s (set_addr j b ip) bn = if decide (bn = Z.of_nat j ∧ (j < 12)%nat) then b else faddr s ip bn.
Proof.
  intros Hf Hj Hz Hbn Hb Hzero. assert (Hl := fo_len _ _ Hf). unfold faddr.
  rewrite !iaddr_set by done. change NDIRECT with 12 in *.
  destruct (Z.ltb_spec bn 12).
  - case_decide; case_decide; try done; lia.
  - rewrite (decide_False (P:=bn = Z.of_nat j ∧ (j < 12)%nat)) by lia. case_decide as E; [|done]. subst j.
    rewrite Hz, Hzero, get32_zero by done. by destruct (b =? 0).
Qed.

Lemma fs_set_addr s L i ip k m j b :
  fs_ok s [] L i ip k m → (j < 13)%nat → iaddr ip j = 0 → data_ok s (i_inum ip) b →
  (∀ bn, 0 ≤ bn < MAXFILE → faddr s ip bn ≠ b) → iaddr ip 12 ≠ b → contents s b = replicate (Z.to_nat BSIZE) 0 →
  fs_ok (s <| icache ::= alter (set_addr j b) i |>) [] L i (set_addr j b ip) k m.
Proof.
  intros [H1 H2 H3 H4 H5 H6 H0 H7 H8 H9 H10] Hj Hz Hd Hfresh Hind Hzero.
  assert (Hb : b ≠ 0) by (destruct Hd; lia).
  assert (Ha : ∀ bn, 0 ≤ bn < MAXFILE → faddr s (set_addr j b ip) bn
     = if decide (bn = Z.of_nat j ∧ (j < 12)%nat) then b else faddr s ip bn) by (intros; by apply faddr_set).
  assert (Hi12 : iaddr (set_addr j b ip) 12 = if decide (12%nat = j) then b else iaddr ip 12).
  { apply iaddr_set; [apply H7|done]. }
  split; try done.
  - by apply in_tx_icache.
  - by destruct H2.
  - sst. by rewrite list_lookup_alter_eq, H3.
  - enough (file_ok s (set_addr j b ip)) as [F1 F2 F3 F4 F5] by (by split).
    destruct H7 as [F1 F2 F3 F4 F5]. split.
    + unfold set_addr. sst. by rewrite length_insert.
    + rewrite Hi12. case_decide; [by right|done].
    + intros bn Hbn. rewrite Ha by done. destruct (decide (_ ∧ _)); [right; exact Hd|by apply F3].
    + intros bn bn' Hbn Hbn'. rewrite !Ha by done.
      destruct (decide (bn = _ ∧ _)), (decide (bn' = _ ∧ _)); intros E Hnz; try lia; auto.
      * symmetry in E. by apply Hfresh in E.
      * by apply Hfresh in E.
    + intros bn Hbn. rewrite Ha, Hi12 by done.
      destruct (decide (bn = _ ∧ _)), (decide (12%nat = j)); intros Hnz; try lia; auto.
Qed.

(** A step in which the file reads as before: no block is lost, and a block
    that was missing is there now at most with zeros. *)
Lemma fbyte_grow s s' ip ip' :
  (∀ bn, 0 ≤ bn < MAXFILE → faddr s' ip' bn = faddr s ip bn
     ∨ faddr s ip bn = 0 ∧ contents s' (faddr s' ip' bn) = replicate (Z.to_nat BSIZE) 0) →
  (∀ bn, 0 ≤ bn < MAXFILE → faddr s ip bn ≠ 0 → contents s' (faddr s ip bn) = contents s (faddr s ip bn)) →
  ∀ o, 0 ≤ o < MAXFILE * BSIZE → fbyte s' ip' o = fbyte s ip o.
Proof.
  intros Ha Hc o Ho. destruct (block_of o Ho) as [Hbn _]. unfold fbyte. destruct (Ha _ Hbn) as [->|[-> ->]].
  - destruct (Z.eqb_spec (faddr s ip (o / BSIZE)) 0); [done|]. by rewrite Hc.
  - rewrite byte_zero. by destruct (_ =? 0).
Qed.

Lemma same_data_blocks s s' ip bn :
  file_ok s ip → same_data s s' (i_inum ip) → 0 ≤ bn < MAXFILE → faddr s ip bn ≠ 0 →
  contents s' (faddr s ip bn) = contents s (faddr s ip bn).
Proof. intros Hf Hs Hbn Hne. destruct (fo_blk _ _ Hf bn Hbn) as [?|Hd]; [done|]. by apply Hs. Qed.

(** Giving the inode a block it has no address for. *)
Lemma slot_alloc s L i ip k m j :
  fs_ok s [] L i ip (S k) (m + 2) → (j < 13)%nat → iaddr ip j = 0 →
  ∃ b s' L',
    (addr ← balloc (i_dev ip); upd_inode i (λ ip, ip <| i_addrs ::= <[j := addr]> |>);; mret addr) s = Ret b s'
    ∧ fs_ok s' [] L' i (set_addr j b ip) k m ∧ iframe i s s' ∧ data_ok s' (i_inum ip) b
    ∧ (∀ bn, 0 ≤ bn < MAXFILE → faddr s' (set_addr j b ip) bn = if decide (bn = Z.of_nat j ∧ (j < 12)%nat) then b else faddr s ip bn)
    ∧ (∀ o, 0 ≤ o < MAXFILE * BSIZE → fbyte s' (set_addr j b ip) o = fbyte s ip o).
Proof.
  intros H Hj Hz. assert (Hfile := fs_file _ _ _ _ _ _ _ H).
  destruct (fs_balloc s [] L i ip k m H) as (b & s1 & L1 & Hr & Hf & H1 & Hsame & Hne & Hd & Hc); [cbn; lia|].
  assert (Hb : b ≠ 0) by (destruct Hd; lia). assert (Hfile1 := fs_file _ _ _ _ _ _ _ H1).
  assert (Hi1 := fs_icache _ _ _ _ _ _ _ H1).
  set (s2 := s1 <| icache ::= alter (set_addr j b) i |>).
  assert (Ha : ∀ bn, 0 ≤ bn < MAXFILE →
     faddr s2 (set_addr j b ip) bn = if decide (bn = Z.of_nat j ∧ (j < 12)%nat) then b else faddr s ip bn).
  { intros bn Hbn. rewrite <- (faddr_same s s1) by (by apply same_ind).
    change (faddr s2 (set_addr j b ip) bn) with (faddr s1 (set_addr j b ip) bn). by apply faddr_set. }
  exists b, s2, L1. split_and!.
  - rewrite (fs_dev _ _ _ _ _ _ _ H), (bind_run _ _ _ _ _ Hr). cbv beta.
    by rewrite (bind_run _ _ _ _ _ (upd_inode_run _ _ _ _ Hi1)).
  - apply fs_set_addr; try done.
    + intros bn Hbn E. rewrite (faddr_same s) in E by (by apply same_ind).
      destruct (fo_blk _ _ Hfile bn Hbn) as [E0|Hd']; [congruence|]. by apply (Hne _ Hd').
    + intros E. destruct (fo_ind _ _ Hfile) as [E0|Hd']; [congruence|]. by apply (Hne _ Hd').
  - eapply iframe_trans; [by apply iframe_tframe|apply iframe_upd].
  - exact Hd.
  - exact Ha.
  - apply fbyte_grow; [|intros bn Hbn Hbz; by apply same_data_blocks]. intros bn Hbn. rewrite Ha by done.
    destruct (decide (bn = Z.of_nat j ∧ (j < 12)%nat)) as [[-> Hj']|]; [right|by left]. split; [|exact Hc].
    unfold faddr. change NDIRECT with 12. destruct (Z.ltb_spec (Z.of_nat j) 12); [|lia]. by rewrite Nat2Z.id.
Qed.

(** Reading the indirect block. *)
Lemma ind_read s L i ip k m q :
  fs_ok s [] L i ip k m → iaddr ip 12 ≠ 0 → 0 ≤ q < NINDIRECT →
  ∃ x s1 bb, bread 1 (iaddr ip 12) s = Ret x s1 ∧ getbuf x s1 = Ret bb s1
    ∧ get32 (b_data bb) (Z.to_nat (4 * q)) = faddr s ip (q + NDIRECT)
    ∧ fs_ok s1 [(x, iaddr ip 12)] L i ip k m ∧ tframe s s1 ∧ (∀ y, vw s1 y = vw s y).
Proof.
  intros H Hne Hq. destruct (fo_ind _ _ (fs_file _ _ _ _ _ _ _ H)) as [?|Hd]; [done|].
  assert (Hh : 0 ≤ iaddr ip 12 < nblocks) by (by destruct Hd as (_ & [? _] & _)).
  destruct (tx_bread s [] L (iaddr ip 12)) as (x & s1 & Hr & Ht & Hf & Hv); [apply H|done|apply not_elem_of_nil| |cbn; lia|].
  { assert (Hfit := fs_fits _ _ _ _ _ _ _ H). unfold fits in *. lia. }
  destruct (tx_getbuf s1 _ L x _ Ht ltac:(by left)) as (bb & Hg & Hdat).
  exists x, s1, bb. split; [done|]. split; [done|]. split.
  { rewrite Hdat, (contents_eq _ _ _ (Hv _)). unfold faddr. change NDIRECT with 12.
    destruct (Z.ltb_spec (q + 12) 12); [lia|]. destruct (Z.eqb_spec (iaddr ip 12) 0); [done|].
    do 3 f_equal. lia. }
  split; [|done]. apply (fs_ok_same s s1 []); try done. intros b Hb. cbn in Hb. by apply list_elem_of_singleton in Hb as ->.
Qed.

(** The file after a fresh block [b] became its block [bn0]. *)
Lemma file_ok_fresh s s' ip bn0 b :
  file_ok s ip → (∀ x, data_ok s (i_inum ip) x → data_ok s' (i_inum ip) x) →
  (∀ bn, 0 ≤ bn < MAXFILE → faddr s' ip bn = if decide (bn = bn0) then b else faddr s ip bn) →
  data_ok s' (i_inum ip) b → (∀ bn, 0 ≤ bn < MAXFILE → faddr s ip bn ≠ b) → iaddr ip 12 ≠ b → file_ok s' ip.
Proof.
  intros [F1 F2 F3 F4 F5] Hm Ha Hd Hfresh Hind. split.
  - done.
  - destruct F2; [by left|right; auto].
  - intros bn Hbn. rewrite Ha by done. case_decide; [by right|]. destruct (F3 bn Hbn); [by left|right; auto].
  - intros bn bn' Hbn Hbn'. rewrite !Ha by done. case_decide; case_decide; intros E Hnz; subst; auto.
    + by destruct (Hfresh bn' Hbn').
    + by destruct (Hfresh bn Hbn).
  - intros bn Hbn. rewrite Ha by done. case_decide; auto.
Qed.

(** The file after the store of [b] in its indirect block. *)
Lemma faddr_put s s' ip q b bn :
  iaddr ip 12 ≠ 0 → 0 ≤ q < NINDIRECT → is_u32 b → length (contents s (iaddr ip 12)) = Z.to_nat BSIZE →
  contents s' (iaddr ip 12) = put32 (Z.to_nat (4 * q)) b (contents s (iaddr ip 12)) → 0 ≤ bn < MAXFILE →
  faddr s' ip bn = if decide (bn = q + NDIRECT) then b else faddr s ip bn.
Proof.
  intros Hne Hq Hb Hl Hc Hbn. unfold faddr. change NDIRECT with 12 in *. change NINDIRECT with 128 in *.
  change (Z.to_nat BSIZE) with 512%nat in Hl.
  destruct (Z.ltb_spec bn 12); [by rewrite decide_False by lia|]. destruct (Z.eqb_spec (iaddr ip 12) 0); [done|].
  rewrite Hc. case_decide as E.
  - replace (4 * (bn - 12)) with (4 * q) by lia. rewrite get32_put32 by lia. by apply u32_small.
  - apply get32_put32_other. lia.
Qed.

Lemma data_u32 s hb L inum b : in_tx s hb L → data_ok s inum b → is_u32 b.
Proof.
  intros [Hc _] (_ & [Hh _] & _). pose proof (lg_nblocks _ (tc_geo _ _ _ Hc)). unfold is_u32. lia.
Qed.

(** The steps of bmap once the address of the indirect block is known. *)
Definition ind_steps (dev ind q : Z) : K Z :=
  bp ← bread dev ind;
  bb ← getbuf bp;
  let a := get32 (b_data bb) (Z.to_nat (4 * q)) in
  addr ← (if a =? 0 then
            addr ← balloc dev;
            upd_data bp (put32 (Z.to_nat (4 * q)) addr);;
            log_write bp;;
            mret addr
          else mret a);
  brelse bp;;
  mret addr.

Lemma ind_hit s L i ip k m q :
  fs_ok s [] L i ip k m → iaddr ip 12 ≠ 0 → 0 ≤ q < NINDIRECT → faddr s ip (q + NDIRECT) ≠ 0 →
  ∃ s', ind_steps 1 (iaddr ip 12) q s = Ret (faddr s ip (q + NDIRECT)) s' ∧ fs_ok s' [] L i ip k m
    ∧ tframe s s' ∧ (∀ y, vw s' y = vw s y).
Proof.
  intros H Hne Hq Ha. destruct (ind_read s L i ip k m q H Hne Hq) as (x & s1 & bb & Hr & Hg & Hv & H1 & Hf & Hvw).
  unfold ind_steps. rewrite (bind_run _ _ _ _ _ Hr). cbv beta. rewrite (bind_run _ _ _ _ _ Hg). cbv beta zeta.
  rewrite Hv. destruct (Z.eqb_spec (faddr s ip (q + NDIRECT)) 0); [done|]. run.
  destruct (tx_brelse s1 [] [] L x _ (fs_tx _ _ _ _ _ _ _ H1)) as (s2 & H2 & Ht2 & Hf2 & Hv2).
  rewrite (bind_run _ _ _ _ _ H2). cbv beta. exists s2. split; [done|].
  split; [|split; [by etrans|intros y; by rewrite Hv2, Hvw]].
  apply (fs_ok_same s1 s2 _ [] L i ip k m H1 Hf2 Hv2 Ht2). intros b Hb. by apply elem_of_nil in Hb.
Qed.

Lemma ind_alloc s L i ip k m q :
  fs_ok s [] L i ip (S k) (m + 3) → iaddr ip 12 ≠ 0 → 0 ≤ q < NINDIRECT → faddr s ip (q + NDIRECT) = 0 →
  ∃ b s' L', ind_steps 1 (iaddr ip 12) q s = Ret b s' ∧ fs_ok s' [] L' i ip k m ∧ tframe s s' ∧ data_ok s' (i_inum ip) b
    ∧ (∀ bn, 0 ≤ bn < MAXFILE → faddr s' ip bn = if decide (bn = q + NDIRECT) then b else faddr s ip bn)
    ∧ (∀ o, 0 ≤ o < MAXFILE * BSIZE → fbyte s' ip o = fbyte s ip o).
Proof.
  intros H Hne Hq Ha. destruct (ind_read s L i ip _ _ q H Hne Hq) as (x & s1 & bb & Hr & Hg & Hv & H1 & Hf1 & Hvw).
  set (ind := iaddr ip 12) in *. unfold ind_steps.
  rewrite (bind_run _ _ _ _ _ Hr). cbv beta. rewrite (bind_run _ _ _ _ _ Hg). cbv beta zeta. rewrite Hv, Ha. cbn [Z.eqb].
  replace (m + 3)%nat with (S m + 2)%nat in H1 by lia.
  destruct (fs_balloc s1 _ L i ip k (S m) H1) as (b & s2 & L2 & Hr2 & Hf2 & H2 & Hsame & Hfresh & Hd & Hz); [cbn; lia|].
  assert (Hfile1 := fs_file _ _ _ _ _ _ _ H1). assert (Hfile2 := fs_file _ _ _ _ _ _ _ H2).
  assert (Ht2 := fs_tx _ _ _ _ _ _ _ H2).
  destruct (fo_ind _ _ Hfile1) as [?|Hdi1]; [done|]. destruct (fo_ind _ _ Hfile2) as [?|Hdi2]; [done|]. fold ind in Hdi1, Hdi2.
  assert (Hnb : ind ≠ b) by (by apply Hfresh).
  destruct Hdi2 as (_ & Hhi & _ & Hbmi & _). destruct (in_tx_block s2 _ L2 ind Ht2 (proj1 Hhi)) as [Hvi Hli].
  destruct (tx_edit s2 _ L2 x ind _ (put32 (Z.to_nat (4 * q)) b) Ht2 ltac:(by left) Hhi Hvi)
    as (s3 & s4 & H3 & H4 & Ht4 & Hf4 & Hv4 & Ho4); [apply length_put32| |].
  { assert (Hfit := fs_fits _ _ _ _ _ _ _ H2). unfold fits in *. lia. }
  destruct (tx_brelse s4 [] [] _ x ind Ht4) as (s5 & H5 & Ht5 & Hf5 & Hv5).
  assert (Hf25 : tframe s2 s5) by (by etrans).
  assert (Ho5 : ∀ y, y ≠ ind → vw s5 y = vw s2 y) by (intros y Hy; by rewrite Hv5, Ho4).
  assert (Hbm : same_bitmap s2 s5) by (intros c Hc; apply Ho5; apply not_eq_sym, Hbmi, Hc).
  assert (Hd5 : ∀ y, data_ok s2 (i_inum ip) y → data_ok s5 (i_inum ip) y) by (intros y; by apply same_bitmap_data).
  assert (Hind5 : contents s5 ind = put32 (Z.to_nat (4 * q)) b (contents s2 ind)) by (unfold contents at 1; by rewrite Hv5, Hv4).
  assert (Ha5 : ∀ bn, 0 ≤ bn < MAXFILE → faddr s5 ip bn = if decide (bn = q + NDIRECT) then b else faddr s2 ip bn).
  { intros bn Hbn. apply faddr_put; try done. exact (data_u32 _ _ _ _ _ Ht2 Hd). }
  assert (Ha2 : ∀ bn, faddr s2 ip bn = faddr s ip bn).
  { intros bn. rewrite (faddr_same s1) by (by apply same_ind). apply faddr_same. intros _. by apply contents_eq. }
  exists b, s5, (ladd L2 ind). split_and!.
  - erewrite bind_run; [|rewrite (bind_run _ _ _ _ _ Hr2); cbv beta; rewrite (bind_run _ _ _ _ _ H3); cbv beta;
      rewrite (bind_run _ _ _ _ _ H4); reflexivity].
    cbv beta. by rewrite (bind_run _ _ _ _ _ H5).
  - apply (fs_step s2 s5 _ [] L2 _ i ip k (S m) m H2 Hf25 Hbm Ht5); [intros y Hy; by apply elem_of_nil in Hy| |].
    + apply (file_ok_fresh s2 s5 ip (q + NDIRECT) b); try done; [by apply Hd5|].
      intros bn Hbn E. rewrite (faddr_same s1) in E by (by apply same_ind).
      destruct (fo_blk _ _ Hfile1 bn Hbn) as [E0|Hdb]; [destruct Hd; lia|]. by apply (Hfresh _ Hdb).
    + assert (Hfit := fs_fits _ _ _ _ _ _ _ H2). unfold fits in *. pose proof (length_ladd L2 ind). lia.
  - etrans; [exact Hf1|]. by etrans.
  - by apply Hd5.
  - intros bn Hbn. rewrite Ha5 by done. by rewrite Ha2.
  - apply fbyte_grow.
    + intros bn Hbn. rewrite Ha5, Ha2 by done. case_decide as E; [right|by left]. subst bn. split; [done|].
      rewrite (contents_eq s2 s5) by (by apply Ho5). exact Hz.
    + intros bn Hbn Hbz. rewrite <- (Ha2 bn) in Hbz |- *.
      rewrite (contents_eq s2 s5) by (apply Ho5; by apply (fo_sep _ _ Hfile2)). rewrite (faddr_same s1) in Hbz |- * by (by apply same_ind).
      rewrite (same_data_blocks s1 s2) by done. by apply contents_eq.
Qed.

Lemma iaddr_lookup s ip k : file_ok s ip → (k < 13)%nat → i_addrs ip !! k = Some (iaddr ip k).
Proof.
  intros Hf Hk. unfold iaddr. destruct (lookup_lt_is_Some_2 (i_addrs ip) k) as [a Ha]; [rewrite (fo_len _ _ Hf); lia|].
  by rewrite Ha.
Qed.

(** bmap split at the address of the indirect block. *)
Lemma bmap_ind s i ip bn :
  icache s !! i = Some ip → file_ok s ip → NDIRECT ≤ bn < MAXFILE → i_dev ip = 1 →
  bmap i bn s = (ind ← (if iaddr ip 12 =? 0 then
                          addr ← balloc (i_dev ip);
                          upd_inode i (λ ip, ip <| i_addrs ::= <[12%nat := addr]> |>);;
                          mret addr
                        else mret (iaddr ip 12));
                 ind_steps 1 ind (bn - NDIRECT)) s.
Proof.
  intros Hi Hf Hbn Hd. unfold bmap. run_by (by apply get_inode_run). change NDIRECT with 12 in *.
  change MAXFILE with 140 in *. change NINDIRECT with 128.
  destruct (Z.ltb_spec bn 12); [lia|]. destruct (Z.ltb_spec (bn - 12) 128); [|lia].
  run_by (change (Z.to_nat 12) with 12%nat; by rewrite (iaddr_lookup s) by (done || lia)).
  rewrite Hd. reflexivity.
Qed.

Lemma bmap_direct s i ip bn :
  icache s !! i = Some ip → file_ok s ip → 0 ≤ bn < NDIRECT →
  bmap i bn s = (if faddr s ip bn =? 0 then
                   addr ← balloc (i_dev ip);
                   upd_inode i (λ ip, ip <| i_addrs ::= <[Z.to_nat bn := addr]> |>);;
                   mret addr
                 else mret (faddr s ip bn)) s.
Proof.
  intros Hi Hf Hbn. unfold bmap, faddr. run_by (by apply get_inode_run). change NDIRECT with 12 in *.
  destruct (Z.ltb_spec bn 12); [|lia].
  run_by (by rewrite (iaddr_lookup s) by (done || lia)). reflexivity.
Qed.

(** bmap of a block the file has. *)
Lemma bmap_hit s L i ip k m bn :
  fs_ok s [] L i ip k m → 0 ≤ bn < MAXFILE → faddr s ip bn ≠ 0 →
  ∃ s', bmap i bn s = Ret (faddr s ip bn) s' ∧ fs_ok s' [] L i ip k m ∧ tframe s s' ∧ (∀ y, vw s' y = vw s y).
Proof.
  intros H Hbn Hne. assert (Hf := fs_file _ _ _ _ _ _ _ H). assert (Hi := fs_icache _ _ _ _ _ _ _ H).
  destruct (decide (bn < NDIRECT)) as [Hlt|Hge].
  - rewrite (bmap_direct s i ip) by (done || lia). destruct (Z.eqb_spec (faddr s ip bn) 0); [done|].
    exists s. split; [done|]. split; [done|]. split; [reflexivity|done].
  - rewrite (bmap_ind s i ip) by (done || lia || apply H).
    assert (Hi12 : iaddr ip 12 ≠ 0).
    { intros E. apply Hne. unfold faddr. destruct (Z.ltb_spec bn NDIRECT); [lia|]. by rewrite E. }
    destruct (Z.eqb_spec (iaddr ip 12) 0); [done|]. run.
    destruct (ind_hit s L i ip k m (bn - NDIRECT) H Hi12) as (s' & Hr & Hs').
    + change MAXFILE with 140 in *. change NINDIRECT with 128. change NDIRECT with 12 in *. lia.
    + by rewrite Z.sub_add.
    + rewrite Z.sub_add in Hr. by exists s'.
Qed.

Lemma iaddr_set_eq s ip b : file_ok s ip → iaddr (set_addr 12 b ip) 12 = b.
Proof. intros Hf. rewrite iaddr_set by (apply Hf || lia). by rewrite decide_True. Qed.

Lemma set_addr_ip j b ip : set_addr j b ip = ip <| i_addrs := i_addrs (set_addr j b ip) |>.
Proof. by destruct ip. Qed.

(** The address of the indirect block, which is allocated if there is none. *)
Lemma ind_get s L i ip k m :
  fs_ok s [] L i ip (S k) (m + 2) →
  ∃ ind s' L' ip',
    (if iaddr ip 12 =? 0 then
       addr ← balloc (i_dev ip); upd_inode i (λ ip, ip <| i_addrs ::= <[12%nat := addr]> |>);; mret addr
     else mret (iaddr ip 12)) s = Ret ind s'
    ∧ fs_ok s' [] L' i ip' k m ∧ iframe i s s' ∧ iaddr ip' 12 = ind ∧ ind ≠ 0
    ∧ (∀ bn, 0 ≤ bn < MAXFILE → faddr s' ip' bn = faddr s ip bn)
    ∧ (∀ o, 0 ≤ o < MAXFILE * BSIZE → fbyte s' ip' o = fbyte s ip o)
    ∧ ip' = ip <| i_addrs := i_addrs ip' |>.
Proof.
  intros H. destruct (Z.eqb_spec (iaddr ip 12) 0) as [Hz|Hne].
  - destruct (slot_alloc s L i ip k m 12 H ltac:(lia) Hz) as (b & s' & L' & Hr & H' & Hf & Hd & Ha & Hb).
    exists b, s', L', (set_addr 12 b ip). split_and!; try done.
    + apply (iaddr_set_eq s). apply H.
    + destruct Hd. lia.
    + intros bn Hbn. rewrite Ha by done. by rewrite decide_False by lia.
  - exists (iaddr ip 12), s, L, ip. split_and!; try done; [eapply fs_weaken; [done|lia|lia]|apply iframe_refl|by destruct ip].
Qed.

Lemma bmap_alloc_direct s L i ip k m bn :
  fs_ok s [] L i ip (S k) (m + 2) → 0 ≤ bn < NDIRECT → faddr s ip bn = 0 →
  ∃ a s' L' ip', bmap i bn s = Ret a s' ∧ fs_ok s' [] L' i ip' k m ∧ iframe i s s' ∧ bmap_post s s' ip ip' bn a.
Proof.
  intros H Hbn Hz. rewrite (bmap_direct s i ip) by (done || apply H). rewrite Hz. cbn [Z.eqb].
  change NDIRECT with 12 in *.
  destruct (slot_alloc s L i ip k m (Z.to_nat bn) H) as (b & s' & L' & Hr & H' & Hf & Hd & Ha & Hb); [lia| |].
  { unfold faddr in Hz. change NDIRECT with 12 in Hz. by destruct (Z.ltb_spec bn 12); [|lia]. }
  exists b, s', L', (set_addr (Z.to_nat bn) b ip). split; [exact Hr|]. split; [done|]. split; [done|].
  split; [|done| |done|apply set_addr_ip].
  - rewrite Ha by (change MAXFILE with 140; lia). by rewrite decide_True by lia.
  - intros bn' Hbn' Hne. rewrite Ha by done. rewrite decide_False; [done|]. intros [-> _].
    rewrite Z2Nat.id in Hne by lia. done.
Qed.

Lemma bmap_alloc_ind s L i ip k m bn :
  fs_ok s [] L i ip (k + 2) (m + 5) → NDIRECT ≤ bn < MAXFILE → faddr s ip bn = 0 →
  ∃ a s' L' ip', bmap i bn s = Ret a s' ∧ fs_ok s' [] L' i ip' k m ∧ iframe i s s' ∧ bmap_post s s' ip ip' bn a.
Proof.
  intros H Hbn Hz. rewrite (bmap_ind s i ip) by (done || apply H).
  change MAXFILE with 140 in Hbn. change NDIRECT with 12 in *.
  replace (k + 2)%nat with (S (S k)) in H by lia. replace (m + 5)%nat with (m + 3 + 2)%nat in H by lia.
  destruct (ind_get s L i ip (S k) (m + 3) H) as (ind & s1 & L1 & ip1 & Hr1 & H1 & Hf1 & <- & Hne & Ha1 & Hb1 & E1).
  rewrite (bind_run _ _ _ _ _ Hr1). cbv beta.
  destruct (ind_alloc s1 L1 i ip1 k m (bn - 12) H1 Hne) as (b & s2 & L2 & Hr2 & H2 & Hf2 & Hd2 & Ha2 & Hb2).
  { change NINDIRECT with 128. lia. }
  { change NDIRECT with 12. rewrite Z.sub_add, Ha1 by (change MAXFILE with 140; lia). done. }
  change NDIRECT with 12 in *. rewrite Z.sub_add in Ha2.
  exists b, s2, L2, ip1. split; [exact Hr2|]. split; [done|].
  split; [eapply iframe_trans; [exact Hf1|by apply iframe_tframe]|]. rewrite E1 in Hd2. split.
  - rewrite Ha2 by (change MAXFILE with 140; lia). by rewrite decide_True.
  - exact Hd2.
  - intros bn' Hbn' Hne'. rewrite Ha2 by done. rewrite decide_False by congruence. by apply Ha1.
  - intros o Ho. by rewrite Hb2, Hb1.
  - exact E1.
Qed.

(** bmap of any block within the limit of a file. *)
Lemma bmap_run s L i ip k m bn :
  fs_ok s [] L i ip (k + 2) (m + 5) → 0 ≤ bn < MAXFILE →
  ∃ a s' L' ip', bmap i bn s = Ret a s' ∧ fs_ok s' [] L' i ip' k m ∧ iframe i s s' ∧ bmap_post s s' ip ip' bn a.
Proof.
  intros H Hbn. assert (Hf := fs_file _ _ _ _ _ _ _ H). assert (Hi := fs_icache _ _ _ _ _ _ _ H).
  destruct (decide (faddr s ip bn = 0)) as [Hz|Hne].
  2: { destruct (bmap_hit s L i ip _ _ bn H Hbn Hne) as (s' & Hr & H' & Hf' & Hv).
       exists (faddr s ip bn), s', L, ip. split; [done|]. split; [eapply fs_weaken; [done|lia|lia]|].
       split; [by apply iframe_tframe|]. assert (Hs : same_data s s' (i_inum ip)) by (intros x _; by apply contents_eq).
       assert (Ha : ∀ bn', faddr s' ip bn' = faddr s ip bn') by (intros; by apply faddr_same, same_ind).
       split; [done| |done|intros; by apply fbyte_same|by destruct ip].
       rewrite <- Ha. destruct (fo_blk _ _ (fs_file _ _ _ _ _ _ _ H') bn Hbn) as [E|?]; [by rewrite Ha in E|done]. }
  destruct (decide (bn < NDIRECT)) as [Hlt|Hge].
  - apply (bmap_alloc_direct s L); [|lia|done]. eapply fs_weaken; [done|lia|lia].
  - apply (bmap_alloc_ind s L); [done|lia|done].
Qed.

(** ** readi and writei *)

Lemma chunk_arith off n m :
  0 ≤ off → 0 < n → m = Z.min n (BSIZE - off mod BSIZE) →
  0 < m ≤ n ∧ off mod BSIZE + m ≤ BSIZE ∧ 0 ≤ off mod BSIZE
  ∧ (∀ o, off ≤ o < off + m → o / BSIZE = off / BSIZE ∧ o mod BSIZE = off mod BSIZE + (o - off)).
Proof.
  intros Ho Hn ->. pose proof (Z.mod_pos_bound off BSIZE ltac:(done)) as Hm. unfold BSIZE in *.
  split_and!; [lia|lia|lia|lia|]. intros o Hlt. pose proof (Z_div_mod_eq_full off 512) as E.
  assert (Eo : o = 512 * (off / 512) + (off mod 512 + (o - off))) by lia.
  split; [symmetry; eapply Z.div_unique; [|exact Eo]; left; lia|].
  symmetry; eapply Z.mod_unique; [|exact Eo]. left; lia.
Qed.

(** What is left after a chunk takes one block less. *)
Lemma chunk_next off n m c :
  0 ≤ off → 0 < n → m = Z.min n (BSIZE - off mod BSIZE) → off mod BSIZE + n ≤ BSIZE * Z.of_nat (S c) →
  n - m = 0 ∨ (off + m) mod BSIZE + (n - m) ≤ BSIZE * Z.of_nat c.
Proof.
  intros Ho Hn -> Hc. pose proof (Z.mod_pos_bound off BSIZE ltac:(done)) as Hm. unfold BSIZE in *.
  destruct (Z.min_spec n (512 - off mod 512)) as [[? ->]|[? ->]]; [left; lia|right].
  replace ((off + (512 - off mod 512)) mod 512) with 0; [lia|].
  symmetry. apply Z.mod_divide; [lia|]. exists (off / 512 + 1). pose proof (Z_div_mod_eq_full off 512). lia.
Qed.

(** The chunk of a block that readi copies out. *)
Lemma chunk_bytes s hb L ip off n m :
  in_tx s hb L → file_ok s ip → 0 ≤ off → 0 < n → off + n ≤ MAXFILE * BSIZE → m = Z.min n (BSIZE - off mod BSIZE) →
  faddr s ip (off / BSIZE) ≠ 0 →
  take (Z.to_nat m) (drop (Z.to_nat (off mod BSIZE)) (contents s (faddr s ip (off / BSIZE)))) = fbyte s ip <$> seqZ off m.
Proof.
  intros Ht Hf Ho Hn Hmax Hm Hne. destruct (chunk_arith off n m Ho Hn Hm) as (Hm1 & Hm2 & Hm3 & Hin).
  destruct (block_of off ltac:(lia)) as [Hbn _].
  destruct (fo_blk _ _ Hf _ Hbn) as [?|(_ & [Hb _] & _)]; [done|].
  destruct (in_tx_block s hb L _ Ht Hb) as [_ Hl]. set (a := faddr s ip (off / BSIZE)) in *.
  apply list_eq. intros j. rewrite list_lookup_fmap. destruct (decide (j < Z.to_nat m)%nat) as [Hj|Hj].
  - rewrite lookup_take_lt, lookup_drop by done. rewrite lookup_seqZ_lt by lia. cbn [fmap option_fmap option_map].
    unfold fbyte. destruct (Hin (off + Z.of_nat j) ltac:(lia)) as [-> ->]. fold a.
    destruct (Z.eqb_spec a 0); [done|].
    destruct (lookup_lt_is_Some_2 (contents s a) (Z.to_nat (off mod BSIZE) + j)) as [v Hv]; [unfold BSIZE in *; lia|].
    rewrite Hv. f_equal. unfold byte_at. replace (Z.to_nat _) with (Z.to_nat (off mod BSIZE) + j)%nat by lia. by rewrite Hv.
  - rewrite lookup_take_ge by lia. symmetry. rewrite lookup_seqZ_ge by lia. done.
Qed.

(** Reading a block of the file: [bread; use bp->data; brelse]. *)
Lemma block_read s L i ip k m a :
  fs_ok s [] L i ip k m → data_ok s (i_inum ip) a →
  ∃ x s1 bb s2, bread 1 a s = Ret x s1 ∧ getbuf x s1 = Ret bb s1 ∧ b_data bb = contents s a ∧ brelse x s1 = Ret tt s2
    ∧ fs_ok s2 [] L i ip k m ∧ tframe s s2 ∧ (∀ y, vw s2 y = vw s y).
Proof.
  intros H Hd. assert (Hfit : fits s L 0) by (assert (Hfit := fs_fits _ _ _ _ _ _ _ H); unfold fits in *; lia).
  destruct (tx_bread s [] L a) as (x & s1 & Hr1 & Ht1 & Hf1 & Hv1); [apply H|apply Hd|apply not_elem_of_nil|done|cbn; lia|].
  destruct (tx_getbuf s1 _ L x _ Ht1 ltac:(by left)) as (bb & Hg & Hdat).
  destruct (tx_brelse s1 [] [] L x _ Ht1) as (s2 & Hr2 & Ht2 & Hf2 & Hv2).
  exists x, s1, bb, s2. assert (Hv : ∀ y, vw s2 y = vw s y) by (intros y; by rewrite Hv2).
  assert (Hf : tframe s s2) by (by etrans).
  split_and!; try done; [by rewrite Hdat; apply contents_eq|].
  apply (fs_ok_same s s2 [] [] L i ip k m H Hf Hv Ht2). intros b Hb. by apply elem_of_nil in Hb.
Qed.

Lemma readi_loop_run L i ip k m c : ∀ s off n,
  fs_ok s [] L i ip k m → 0 ≤ off → 0 ≤ n → off + n ≤ MAXFILE * BSIZE →
  (∀ o, off ≤ o < off + n → faddr s ip (o / BSIZE) ≠ 0) → n = 0 ∨ off mod BSIZE + n ≤ BSIZE * Z.of_nat c →
  ∃ s', readi_loop c i off n s = Ret (fbyte s ip <$> seqZ off n) s' ∧ fs_ok s' [] L i ip k m
    ∧ tframe s s' ∧ (∀ y, vw s' y = vw s y).
Proof.
  induction c as [|c IH]; intros s off n H Ho Hn Hmax Hthere Hc.
  - pose proof (Z.mod_pos_bound off BSIZE ltac:(done)). assert (n = 0) as -> by lia.
    exists s. split; [done|]. split; [done|]. split; [reflexivity|done].
  - destruct (decide (n = 0)) as [->|Hn0]; [exists s; split; [done|]; split; [done|]; split; [reflexivity|done]|].
    destruct Hc as [?|Hc]; [done|]. assert (Hf := fs_file _ _ _ _ _ _ _ H).
    cbn [readi_loop]. destruct (Z.ltb_spec 0 n); [|lia].
    run_by (apply get_inode_run, H). destruct (block_of off ltac:(lia)) as [Hbn _].
    assert (Hne := Hthere off ltac:(lia)).
    destruct (bmap_hit s L i ip k m (off / BSIZE) H Hbn Hne) as (s1 & Hr1 & H1 & Hf1 & Hv1).
    rewrite (bind_run _ _ _ _ _ Hr1). cbv beta. rewrite (fs_dev _ _ _ _ _ _ _ H).
    set (mm := Z.min n (BSIZE - off mod BSIZE)) in *.
    destruct (chunk_arith off n mm Ho ltac:(lia) eq_refl) as (Hm1 & Hm2 & Hm3 & _).
    assert (Hd : data_ok s1 (i_inum ip) (faddr s ip (off / BSIZE))).
    { destruct (fo_blk _ _ Hf _ Hbn) as [?|Hd]; [done|]. apply (same_bitmap_data s); [done|by intros ? _|done]. }
    destruct (block_read s1 L i ip k m _ H1 Hd) as (x & s2 & bb & s3 & Hr2 & Hg & Hdat & Hr3 & H3 & Hf3 & Hv3).
    rewrite (bind_run _ _ _ _ _ Hr2). cbv beta. rewrite (bind_run _ _ _ _ _ Hg). cbv beta zeta.
    rewrite (bind_run _ _ _ _ _ Hr3). cbv beta.
    assert (Hv : ∀ y, vw s3 y = vw s y) by (intros y; by rewrite Hv3).
    assert (Hft : tframe s s3) by (by etrans).
    assert (Hsd : same_data s s3 (i_inum ip)) by (intros y _; by apply contents_eq).
    destruct (IH s3 (off + mm) (n - mm) H3) as (s4 & Hr4 & H4 & Hf4 & Hv4); [lia|lia|lia| | |].
    { intros o Hlt. rewrite (faddr_same s) by (by apply same_ind). apply Hthere. lia. }
    { by apply chunk_next. }
    rewrite (bind_run _ _ _ _ _ Hr4). exists s4. split_and!; [|done|by etrans|intros y; by rewrite Hv4].
    unfold mret, M_ret. f_equal. rewrite Hdat, (contents_eq s s1) by done.
    rewrite (chunk_bytes s [] L ip off n mm) by (done || lia || apply H).
    replace n with (mm + (n - mm)) at 2 by lia. rewrite seqZ_app, fmap_app by lia. f_equal.
    apply list_fmap_ext. intros j o [-> Hj]%lookup_seqZ. apply fbyte_same; [done|lia|done].
Qed.

(** Writing the bytes [bs] at offset [o] of block [bn] of the file. *)
Lemma block_write {A} s L i ip k m bn o bs (K0 : K A) :
  fs_ok s [] L i ip k (S m) → 0 ≤ bn < MAXFILE → faddr s ip bn ≠ 0 → 0 ≤ o → o + Z.of_nat (length bs) ≤ BSIZE →
  ∃ s' L', (bp ← bread 1 (faddr s ip bn); upd_data bp (list_inserts (Z.to_nat o) bs);; log_write bp;; brelse bp;; K0) s = K0 s'
    ∧ fs_ok s' [] L' i ip k m ∧ tframe s s'
    ∧ (∀ bn, faddr s' ip bn = faddr s ip bn)
    ∧ (∀ x, 0 ≤ x < MAXFILE * BSIZE → fbyte s' ip x =
         if decide (bn * BSIZE + o ≤ x < bn * BSIZE + o + Z.of_nat (length bs))
         then byte_at bs (Z.to_nat (x - (bn * BSIZE + o))) else fbyte s ip x).
Proof.
  intros H Hbn Hne Ho Hlen. assert (Hf := fs_file _ _ _ _ _ _ _ H). assert (Hfit := fs_fits _ _ _ _ _ _ _ H).
  destruct (fo_blk _ _ Hf bn Hbn) as [?|Hd]; [done|]. set (a := faddr s ip bn) in *.
  destruct Hd as (Hr & Hh & Hu & Hbm & Hib). destruct (in_tx_block s [] L a (fs_tx _ _ _ _ _ _ _ H) (proj1 Hh)) as [Hv Hl].
  destruct (tx_update s [] L a (contents s a) (list_inserts (Z.to_nat o) bs) K0 (fs_tx _ _ _ _ _ _ _ H) Hh)
    as (s' & Hrun & Ht & Hft & Hva & Hvo); [apply not_elem_of_nil|exact Hv|apply length_inserts|unfold fits in *; lia|cbn; lia|].
  assert (Hc : contents s' a = list_inserts (Z.to_nat o) bs (contents s a)) by (unfold contents at 1; by rewrite Hva).
  assert (Hco : ∀ x, x ≠ a → contents s' x = contents s x) by (intros x Hx; by apply contents_eq, Hvo).
  assert (Hsb : same_bitmap s s') by (intros c Hcr; by apply Hvo, not_eq_sym, Hbm).
  assert (Hi : iaddr ip 12 ≠ 0 → contents s' (iaddr ip 12) = contents s (iaddr ip 12)).
  { intros _. by apply Hco, not_eq_sym, (fo_sep _ _ Hf). }
  assert (Ha : ∀ bn, faddr s' ip bn = faddr s ip bn) by (intros; by apply faddr_same).
  exists s', (ladd L a). split_and!; try done.
  - apply (fs_step s s' [] [] L _ i ip k (S m) m H Hft Hsb Ht); [intros y Hy; by apply elem_of_nil in Hy| |].
    + apply (file_ok_same s); [done|intros y; by apply same_bitmap_data|done].
    + unfold fits in *. pose proof (length_ladd L a). lia.
  - intros x Hx. destruct (block_of x Hx) as [Hxb Hxm]. pose proof (Z_div_mod_eq_full x BSIZE) as Ex.
    unfold fbyte. rewrite Ha. destruct (decide (x / BSIZE = bn)) as [E|E].
    + rewrite E. fold a. destruct (Z.eqb_spec a 0); [done|]. rewrite Hc.
      change (Z.to_nat BSIZE) with 512%nat in Hl. unfold BSIZE in *. case_decide as Ed.
      * rewrite byte_at_inserts by lia. f_equal. lia.
      * apply byte_at_inserts_other. lia.
    + rewrite decide_False by (unfold BSIZE in *; nia). destruct (Z.eqb_spec (faddr s ip (x / BSIZE)) 0); [done|].
      rewrite Hco; [done|]. intros Ea. apply E. by apply (fo_inj _ _ Hf).
Qed.

(** What writing [src] at [off] does to the file. *)
Record wrote_at (s s' : kernel) (ip ip' : inode) (off : Z) (src : list Z) : Prop := {
  wa_ip : ip' = ip <| i_addrs := i_addrs ip' |>;
  wa_old : ∀ bn, 0 ≤ bn < MAXFILE → faddr s ip bn ≠ 0 → faddr s' ip' bn = faddr s ip bn;
  wa_new : ∀ o, off ≤ o < off + Z.of_nat (length src) → faddr s' ip' (o / BSIZE) ≠ 0;
  wa_bytes : ∀ o, 0 ≤ o < MAXFILE * BSIZE → fbyte s' ip' o =
    if decide (off ≤ o < off + Z.of_nat (length src)) then byte_at src (Z.to_nat (o - off)) else fbyte s ip o
}.

Lemma wrote_none s ip off : wrote_at s s ip ip off [].
Proof.
  split; [by destruct ip|done|cbn; lia|]. intros o _. by rewrite decide_False by (cbn; lia).
Qed.

Lemma byte_at_take (l : list Z) n k : (k < n)%nat → byte_at (take n l) k = byte_at l k.
Proof. intros Hk. unfold byte_at. by rewrite lookup_take_lt. Qed.

Lemma byte_at_drop (l : list Z) n k : (n ≤ k)%nat → byte_at (drop n l) (k - n) = byte_at l k.
Proof. intros Hk. unfold byte_at. rewrite lookup_drop. f_equal. f_equal. lia. Qed.

Lemma wrote_at_trans s s1 s2 ip ip1 ip2 off src (m : nat) :
  wrote_at s s1 ip ip1 off (take m src) → wrote_at s1 s2 ip1 ip2 (off + Z.of_nat m) (drop m src) → (m ≤ length src)%nat →
  0 ≤ off → off + Z.of_nat (length src) ≤ MAXFILE * BSIZE → wrote_at s s2 ip ip2 off src.
Proof.
  intros [A1 A2 A3 A4] [B1 B2 B3 B4] Hm Ho Hmax. rewrite length_take, length_drop in *. split.
  - rewrite B1 at 1. rewrite A1. by destruct ip.
  - intros bn Hbn Hne. rewrite B2, A2 by (rewrite ?A2; done). done.
  - intros o Hlt. destruct (decide (o < off + Z.of_nat m)) as [H1|H1]; [|apply B3; lia].
    destruct (block_of o ltac:(lia)) as [Hbn _]. rewrite B2; [|done|]; apply A3; lia.
  - intros o Hlt. rewrite B4, A4 by done.
    destruct (decide (off + Z.of_nat m ≤ o < _)) as [H1|H1].
    + rewrite decide_True by lia. rewrite <- (byte_at_drop src m) by lia. f_equal. lia.
    + destruct (decide (off ≤ o < _)) as [H2|H2].
      * rewrite decide_True by lia. apply byte_at_take. lia.
      * rewrite decide_False by lia. done.
Qed.

(** One turn of the loop of writei. *)
Lemma writei_chunk {A} s L i ip k m off bs (K0 : K A) :
  fs_ok s [] L i ip (k + 2) (m + 6) → 0 ≤ off → (0 < length bs)%nat → off + Z.of_nat (length bs) ≤ MAXFILE * BSIZE →
  off mod BSIZE + Z.of_nat (length bs) ≤ BSIZE →
  ∃ s' L' ip',
    (addr ← bmap i (off / BSIZE);
     bp ← bread 1 addr;
     upd_data bp (list_inserts (Z.to_nat (off mod BSIZE)) bs);; log_write bp;; brelse bp;; K0) s = K0 s'
    ∧ fs_ok s' [] L' i ip' k m ∧ iframe i s s' ∧ wrote_at s s' ip ip' off bs.
Proof.
  intros H Ho Hn Hmax Hm. destruct (block_of off ltac:(lia)) as [Hbn Hom]. replace (m + 6)%nat with (S m + 5)%nat in H by lia.
  destruct (bmap_run s L i ip k (S m) (off / BSIZE) H Hbn) as (a & s1 & L1 & ip1 & Hr1 & H1 & Hf1 & [Ba Bd Bo Bb Bi]).
  rewrite (bind_run _ _ _ _ _ Hr1). cbv beta. subst a.
  assert (Hne : faddr s1 ip1 (off / BSIZE) ≠ 0) by (destruct Bd; lia).
  destruct (block_write s1 L1 i ip1 k m _ (off mod BSIZE) bs K0 H1 Hbn Hne ltac:(lia) Hm) as (s2 & L2 & Hr2 & H2 & Hf2 & Ha2 & Hb2).
  exists s2, L2, ip1. split; [exact Hr2|]. split; [done|].
  split; [eapply iframe_trans; [exact Hf1|by apply iframe_tframe]|].
  assert (Eo : off / BSIZE * BSIZE + off mod BSIZE = off) by (pose proof (Z_div_mod_eq_full off BSIZE); lia).
  destruct (chunk_arith off (Z.of_nat (length bs)) (Z.of_nat (length bs)) Ho) as (_ & _ & _ & Hin); [lia|lia|].
  split.
  - exact Bi.
  - intros bn' Hbn' Hne'. rewrite Ha2. by apply Bo.
  - intros o Hlt. rewrite Ha2. destruct (Hin o Hlt) as [-> _]. done.
  - intros o Hlt. rewrite Hb2 by done. rewrite Eo. case_decide; [done|]. by apply Bb.
Qed.

Lemma writei_loop_run i k m c : ∀ fuel s L ip src off,
  fs_ok s [] L i ip (2 * c + k) (6 * c + m) → (c ≤ fuel)%nat → 0 ≤ off → off + Z.of_nat (length src) ≤ MAXFILE * BSIZE →
  Z.of_nat (length src) = 0 ∨ off mod BSIZE + Z.of_nat (length src) ≤ BSIZE * Z.of_nat c →
  ∃ s' L' ip', writei_loop fuel i src off s = Ret (off + Z.of_nat (length src)) s' ∧ fs_ok s' [] L' i ip' k m
    ∧ iframe i s s' ∧ wrote_at s s' ip ip' off src.
Proof.
  induction c as [|c IH]; intros fuel s L ip src off H Hfuel Ho Hmax Hc.
  all: destruct (decide (length src = 0%nat)) as [Hn0|Hn0].
  1,3: destruct src; [|done]; exists s, L, ip; split_and!;
    [rewrite Z.add_0_r; by destruct fuel|eapply fs_weaken; [done|lia|lia]|apply iframe_refl|apply wrote_none].
  { pose proof (Z.mod_pos_bound off BSIZE ltac:(done)). lia. }
  destruct Hc as [?|Hc]; [lia|]. destruct fuel as [|fuel]; [lia|]. cbn [writei_loop].
  set (n := Z.of_nat (length src)) in *. destruct (Z.ltb_spec 0 n); [|lia].
  run_by (apply get_inode_run, H). rewrite (fs_dev _ _ _ _ _ _ _ H). set (mm := Z.min n (BSIZE - off mod BSIZE)) in *.
  destruct (chunk_arith off n mm Ho ltac:(lia) eq_refl) as (Hm1 & Hm2 & Hm3 & _).
  assert (Hlt : Z.of_nat (length (take (Z.to_nat mm) src)) = mm) by (rewrite length_take; lia).
  assert (Hld : Z.of_nat (length (drop (Z.to_nat mm) src)) = n - mm) by (rewrite length_drop; lia).
  destruct (writei_chunk s L i ip (2 * c + k) (6 * c + m) off (take (Z.to_nat mm) src)
              (writei_loop fuel i (drop (Z.to_nat mm) src) (off + mm))) as (s1 & L1 & ip1 & Hr1 & H1 & Hf1 & Hw1);
    [by eapply fs_weaken; [done|lia|lia]|lia|lia|lia|lia|].
  rewrite Hr1.
  destruct (IH fuel s1 L1 ip1 (drop (Z.to_nat mm) src) (off + mm)) as (s2 & L2 & ip2 & Hr2 & H2 & Hf2 & Hw2);
    [done|lia|lia|lia|rewrite Hld; by apply chunk_next|].
  exists s2, L2, ip2. split_and!; [rewrite Hr2, Hld; f_equal; lia|done|by eapply iframe_trans|].
  eapply (wrote_at_trans s s1 s2 ip ip1 ip2 off src (Z.to_nat mm)); [done| |lia|lia|lia].
  by rewrite Z2Nat.id by lia.
Qed.

(** The size of the file is not part of what its blocks represent. *)
Lemma fs_resize s L i ip k m n :
  fs_ok s [] L i ip k m → fs_ok (s <| icache ::= alter (λ ip, ip <| i_size := n |>) i |>) [] L i (ip <| i_size := n |>) k m.
Proof.
  intros [H1 H2 H3 H4 H5 H6 H0 H7 H8 H9 H10]. split; try done.
  - by apply in_tx_icache.
  - by destruct H2.
  - sst. by rewrite list_lookup_alter_eq, H3.
  - by destruct H7.
Qed.

Lemma fs_iupdate s L i ip k m :
  fs_ok s [] L i ip k (S m) →
  ∃ s' L', iupdate i s = Ret tt s' ∧ fs_ok s' [] L' i ip k m ∧ tframe s s' ∧ same_data s s' (i_inum ip).
Proof.
  intros H. assert (Hf := fs_file _ _ _ _ _ _ _ H). assert (Hfit := fs_fits _ _ _ _ _ _ _ H).
  destruct (iupdate_run s [] L i ip) as (s' & Hr & Ht & Hft & _ & Ho);
    [apply H|apply H|apply H|apply H|unfold fits in *; lia|cbn; lia|].
  assert (Hbm : same_bitmap s s') by (intros c Hc; by apply Ho, not_eq_sym, (fs_sep _ _ _ _ _ _ _ H)).
  assert (Hs : same_data s s' (i_inum ip)).
  { intros x (_ & _ & _ & _ & Hx). by apply contents_eq, Ho. }
  exists s'. eexists. split; [exact Hr|]. split; [|done].
  apply (fs_step s s' [] [] L _ i ip k (S m) m H Hft Hbm Ht); [intros y Hy; by apply elem_of_nil in Hy| |].
  - apply (file_ok_same s); [done|intros y; by apply same_bitmap_data|by apply same_ind].
  - unfold fits in *. pose proof (length_ladd L (IBLOCK (i_inum ip) (sb s))). lia.
Qed.

Context {V : Devsw}.

(** What a successful writei leaves. *)
Record written (s s' : kernel) (i : nat) (ip ip' : inode) (off : Z) (src : list Z) : Prop := {
  wi_frame : iframe i s s';
  wi_size : i_size ip' = Z.max (i_size ip) (off + Z.of_nat (length src));
  wi_type : i_type ip' = i_type ip;
  wi_old : ∀ bn, 0 ≤ bn < MAXFILE → faddr s ip bn ≠ 0 → faddr s' ip' bn ≠ 0;
  wi_there : ∀ o, off ≤ o < off + Z.of_nat (length src) → faddr s' ip' (o / BSIZE) ≠ 0;
  wi_bytes : ∀ o, 0 ≤ o < MAXFILE * BSIZE → fbyte s' ip' o =
    if decide (off ≤ o < off + Z.of_nat (length src)) then byte_at src (Z.to_nat (o - off)) else fbyte s ip o
}.

Lemma file_bound n off : off + n ≤ MAXFILE * BSIZE → 0 ≤ off → 0 ≤ n → uadd off n = off + n ∧ i32 n = n.
Proof.
  intros H Ho Hn. change (MAXFILE * BSIZE) with 71680 in H.
  split; [apply u32_small; unfold is_u32; lia|apply i32_small; unfold is_i32; lia].
Qed.

Lemma blocks_fuel off n : 0 ≤ off → 0 ≤ n → off mod BSIZE + n ≤ BSIZE * Z.of_nat (Z.to_nat (n / BSIZE + 2)).
Proof.
  intros Ho Hn. pose proof (Z.mod_pos_bound off BSIZE ltac:(done)). pose proof (Z_div_mod_eq_full n BSIZE).
  pose proof (Z.mod_pos_bound n BSIZE ltac:(done)). pose proof (Z.div_pos n BSIZE Hn ltac:(done)).
  rewrite Z2Nat.id by lia. lia.
Qed.

(** The number of blocks that [n] bytes at [off] are in. *)
Definition touched (off n : Z) : nat := Z.to_nat ((off mod BSIZE + n + BSIZE - 1) / BSIZE).

Lemma touched_spec off n :
  0 ≤ off → 0 ≤ n → off mod BSIZE + n ≤ BSIZE * Z.of_nat (touched off n) ∧ (touched off n ≤ Z.to_nat (n / BSIZE + 2))%nat.
Proof.
  intros Ho Hn. pose proof (Z.mod_pos_bound off BSIZE ltac:(done)) as Hm. unfold touched, BSIZE in *.
  set (x := off mod 512 + n + 512 - 1). assert (Hx : 0 ≤ x / 512) by (apply Z.div_pos; lia).
  pose proof (Z_div_mod_eq_full x 512). pose proof (Z.mod_pos_bound x 512 ltac:(done)).
  pose proof (Z_div_mod_eq_full n 512). pose proof (Z.mod_pos_bound n 512 ltac:(done)). lia.
Qed.

Lemma writei_run s L i ip k m src off :
  let n := Z.of_nat (length src) in
  fs_ok s [] L i ip (2 * touched off n + k) (6 * touched off n + S m) → i_type ip ≠ T_DEV → 0 ≤ off ≤ i_size ip →
  off + n ≤ MAXFILE * BSIZE →
  ∃ s' L' ip', writei i src off s = Ret n s' ∧ fs_ok s' [] L' i ip' k m ∧ written s s' i ip ip' off src.
Proof.
  intros n H Hty Ho Hmax. destruct (file_bound n off Hmax) as [Eu Ei]; [lia|lia|].
  destruct (touched_spec off n) as [Hc1 Hc2]; [lia|lia|]. unfold writei. fold n.
  run_by (apply get_inode_run, H). rewrite Eu. destruct (Z.eqb_spec (i_type ip) T_DEV); [done|].
  destruct (Z.ltb_spec (i_size ip) off); [lia|]. destruct (Z.ltb_spec (off + n) off); [lia|]. cbn [orb].
  destruct (Z.ltb_spec (MAXFILE * BSIZE) (off + n)); [lia|].
  destruct (writei_loop_run i k (S m) _ _ s L ip src off H Hc2) as (s1 & L1 & ip1 & Hr1 & F1 & Hf1 & [W1 W2 W3 W4]);
    [lia|done|by right|].
  rewrite (bind_run _ _ _ _ _ Hr1). cbv beta. run_by (apply get_inode_run, F1). fold n.
  assert (Esz : i_size ip1 = i_size ip) by (by rewrite W1). assert (Ety : i_type ip1 = i_type ip) by (by rewrite W1).
  destruct ((0 <? n) && (i_size ip1 <? off + n))%bool eqn:Eg; cbn [when].
  - apply andb_prop in Eg as [_ Eg%Z.ltb_lt]. set (g := λ p : inode, p <| i_size := off + n |>).
    set (s2 := s1 <| icache ::= alter g i |>).
    destruct (fs_iupdate s2 L1 i (g ip1) k m (fs_resize _ _ _ _ _ _ _ F1)) as (s3 & L3 & Hr3 & F3 & Hf3 & Hs3).
    assert (Hi1 := fs_icache _ _ _ _ _ _ _ F1).
    erewrite bind_run; [|rewrite (bind_run _ _ _ _ _ (upd_inode_run s1 i ip1 g Hi1)); exact Hr3]. cbv beta.
    assert (Hfl := fs_file _ _ _ _ _ _ _ (fs_resize _ _ _ _ _ _ (off + n) F1)).
    assert (Ea : ∀ bn, faddr s3 (g ip1) bn = faddr s1 ip1 bn) by (intros bn; by apply (faddr_same s2), same_ind).
    exists s3, L3, (g ip1). split; [reflexivity|]. split; [done|]. split.
    + eapply iframe_trans; [exact Hf1|]. eapply iframe_trans; [apply iframe_upd|by apply iframe_tframe].
    + change (i_size (g ip1)) with (off + n). lia.
    + exact Ety.
    + intros bn Hbn Hbz. rewrite Ea, W2 by done. done.
    + intros o Hlt. rewrite Ea. by apply W3.
    + intros o Hlt. rewrite (fbyte_same s2) by done. by apply W4.
  - assert (Hle : off + n ≤ i_size ip1) by (apply andb_false_iff in Eg as [?%Z.ltb_ge|?%Z.ltb_ge]; lia).
    exists s1, L1, ip1. split; [reflexivity|]. split; [eapply fs_weaken; [done|lia|lia]|]. split; try done.
    + rewrite Esz. lia.
    + intros bn Hbn Hbz. by rewrite W2.
Qed.

Lemma readi_run s L i ip k m off n :
  fs_ok s [] L i ip k m → i_type ip ≠ T_DEV → 0 ≤ off → 0 ≤ n → off + n ≤ i_size ip → off + n ≤ MAXFILE * BSIZE →
  (∀ o, off ≤ o < off + n → faddr s ip (o / BSIZE) ≠ 0) →
  ∃ s', readi i off n s = Ret (n, fbyte s ip <$> seqZ off n) s' ∧ fs_ok s' [] L i ip k m
    ∧ tframe s s' ∧ (∀ y, vw s' y = vw s y).
Proof.
  intros H Hty Ho Hn Hsz Hmax Hth. destruct (file_bound n off Hmax Ho Hn) as [Eu Ei].
  unfold readi. run_by (apply get_inode_run, H). rewrite Eu. destruct (Z.eqb_spec (i_type ip) T_DEV); [done|].
  destruct (Z.ltb_spec (i_size ip) off); [lia|]. destruct (Z.ltb_spec (off + n) off); [lia|]. cbn [orb].
  destruct (Z.ltb_spec (i_size ip) (off + n)); [lia|]. cbv zeta.
  destruct (readi_loop_run L i ip k m (Z.to_nat (n / BSIZE + 2)) s off n) as (s' & Hr & H' & Hf & Hv); try done.
  { right. by apply blocks_fuel. }
  rewrite (bind_run _ _ _ _ _ Hr). cbv beta. rewrite Ei. by exists s'.
Qed.

End Content.

#[local] Existing Instance plat20.
#[local] Existing Instance Memide.driver.
#[local] Instance nodev20 : Devsw := {| dev_read := λ _, None; dev_write := λ _, None |}.

(** The small disk with an inode of one block [b] cached. *)
Definition inode_tx20 (ip : inode) : kernel := tx20 <| icache := <[0%nat := ip]> (icache tx20) |>.

Record one_block (ip : inode) (b : Z) : Prop := {
  ob_dev : i_dev ip = 1;
  ob_inum : i_inum ip = 1 ∨ i_inum ip = 2;
  ob_addrs : i_addrs ip = b :: replicate 12 0;
  ob_range : 16 ≤ b < 18
}.

Lemma bblock20 c : 0 ≤ c < 20 → BBLOCK c sb20 = 15.
Proof. intros Hc. unfold BBLOCK. rewrite Z.div_small by (unfold BPB, BSIZE; lia). done. Qed.

Lemma iblock20 ip b : one_block ip b → IBLOCK (i_inum ip) sb20 = 14.
Proof. intros [_ [->| ->] _ _]; done. Qed.

Lemma data20 ip b : one_block ip b → data_ok (inode_tx20 ip) (i_inum ip) b.
Proof.
  intros H. pose proof (ob_range _ _ H) as Hb. assert (Hu : used tx20 b = true) by (rewrite tx20_used by lia; apply Z.ltb_lt; lia).
  split; [change (0 < b < 20); lia|]. split; [change (home (klog tx20) b); apply tx20_home; lia|]. split; [exact Hu|].
  split; [intros c Hc; change (b ≠ BBLOCK c sb20); rewrite bblock20 by exact Hc; lia|].
  change (b ≠ IBLOCK (i_inum ip) sb20). rewrite (iblock20 ip b H). lia.
Qed.

Lemma faddr20 s ip b bn : one_block ip b → 0 ≤ bn < MAXFILE → faddr s ip bn = if decide (bn = 0) then b else 0.
Proof.
  intros H Hbn. unfold faddr, iaddr. rewrite (ob_addrs _ _ H). change NDIRECT with 12.
  destruct (Z.ltb_spec bn 12); [|by rewrite decide_False by lia].
  case_decide as E; [by subst|]. destruct (Z.to_nat bn) as [|j] eqn:Ej; [lia|].
  change ((b :: replicate 12 0) !! S j) with (replicate 12 0 !! j).
  destruct (replicate 12 0 !! j) eqn:Er; [by apply lookup_replicate in Er as [-> _]|done].
Qed.

Lemma file20_ok ip b : one_block ip b → file_ok (inode_tx20 ip) ip.
Proof.
  intros H. pose proof (ob_range _ _ H) as Hb. split.
  - by rewrite (ob_addrs _ _ H).
  - left. unfold iaddr. by rewrite (ob_addrs _ _ H).
  - intros bn Hbn. rewrite (faddr20 _ _ b) by done. case_decide; [right; by apply data20|by left].
  - intros bn bn' Hbn Hbn'. rewrite !(faddr20 _ _ b) by done. repeat case_decide; lia.
  - intros bn Hbn Hne. unfold iaddr. by rewrite (ob_addrs _ _ H).
Qed.

Lemma avail20 ip : avail_blocks (inode_tx20 ip) 2.
Proof.
  exists [18; 19]. split; [repeat constructor; rewrite ?list_elem_of_singleton, ?elem_of_nil; lia|]. split; [done|].
  intros b Hb. rewrite !elem_of_cons, elem_of_nil in Hb.
  change (0 ≤ b < 20 ∧ used tx20 b = false). split; [lia|]. rewrite tx20_used by lia. apply Z.ltb_ge. lia.
Qed.

Lemma inode_tx20_fs ip b : one_block ip b → fs_ok (inode_tx20 ip) [] [] 0 ip 2 7.
Proof.
  intros H. assert (Hi := iblock20 ip b H). split.
  - apply in_tx_icache, tx20_in_tx.
  - destruct tx20_bm as [B1 B2 B3]. by split.
  - reflexivity.
  - apply H.
  - split; [|apply not_elem_of_nil]. change (home (klog tx20) (IBLOCK (i_inum ip) sb20)). rewrite Hi. apply tx20_home; lia.
  - change (0 ≤ IBLOCK (i_inum ip) sb20 < 20 ∧ used tx20 (IBLOCK (i_inum ip) sb20) = true ∧ used tx20 0 = true).
    rewrite Hi, !tx20_used by lia. done.
  - intros c Hc. change (IBLOCK (i_inum ip) sb20 ≠ BBLOCK c sb20). rewrite Hi, bblock20 by exact Hc. done.
  - by apply (file20_ok ip b).
  - intros x Hx. by apply elem_of_nil in Hx.
  - apply avail20.
  - unfold fits. cbn. lia.
Qed.


