(* ===== verification/Dir.v ===== *)
(** Directories and paths (dirlookup, dirlink and skipelem of fs.c): a
    directory as the list of its entries and the map from names to inode
    numbers that it represents; a path as the list of its elements. *)

From S2P Require Import Prelude Types Spinlock Sched Ide Bio Blocks Bytes Log Fs Bitmap Inode Content.

(** ** Names *)

(** A name as it is stored: cut or padded to [DIRSIZ] bytes. *)
Definition dname (name : list Z) : list Z := strncpy_list (Z.to_nat DIRSIZ) name.

Lemma strncpy_length n : ∀ t, length (strncpy_list n t) = n.
Proof.
  induction n as [|n IH]; intros t; [done|]. cbn [strncpy_list]. destruct (byte_at t 0 =? 0).
  - by rewrite length_replicate.
  - cbn. by rewrite IH.
Qed.

Lemma byte_at_tail l : bytes_ok l → bytes_ok (tail l).
Proof. destruct l; [done|]. by intros [_ ?]%Forall_cons. Qed.

(** Strings compare equal when they are stored alike. *)
Lemma strncmp_strncpy n : ∀ p q,
  bytes_ok p → bytes_ok q → strncmp_list n p (strncpy_list n q) = 0 ↔ strncpy_list n p = strncpy_list n q.
Proof.
  induction n as [|n IH]; intros p q Hp Hq; [done|]. cbn [strncmp_list strncpy_list].
  pose proof (byte_at_range p 0 Hp) as Ra. pose proof (byte_at_range q 0 Hq) as Rb.
  assert (Eu : ∀ x, is_u8 x → u8 x = x) by (intros x Hx; unfold u8, is_u8 in *; by apply Z.mod_small).
  set (a := byte_at p 0) in *. set (b := byte_at q 0) in *.
  destruct (Z.eqb_spec b 0) as [Hb|Hb], (Z.eqb_spec a 0) as [Ha|Ha]; cbn [negb andb].
  - rewrite Ha. done.
  - change (byte_at (replicate (S n) 0) 0) with 0. destruct (Z.eqb_spec a 0); [done|]. rewrite Eu by done.
    split; [change (u8 0) with 0; intros ?; exfalso; lia|]. intros E. cbn in E. congruence.
  - change (byte_at (b :: strncpy_list n (tail q)) 0) with b. rewrite Ha, (Eu b) by done.
    split; [change (u8 0) with 0; intros ?; exfalso; lia|]. intros E. cbn in E. congruence.
  - change (byte_at (b :: strncpy_list n (tail q)) 0) with b. destruct (Z.eqb_spec a b) as [E|E].
    + cbn [tail]. rewrite IH by (by apply byte_at_tail). rewrite E. split; [by intros ->|by intros [= ?]].
    + rewrite !Eu by done. split; [intros ?; exfalso; lia|congruence].
Qed.

Lemma namecmp_dname p q : bytes_ok p → bytes_ok q → namecmp p (dname q) = 0 ↔ dname p = dname q.
Proof. apply strncmp_strncpy. Qed.

Lemma make_dirent_fields name inum : is_u16 inum →
  length (make_dirent name inum) = Z.to_nat DIRENTSZ ∧ de_inum (make_dirent name inum) = inum
  ∧ de_name (make_dirent name inum) = dname name.
Proof.
  intros Hi. unfold make_dirent. split_and!.
  - by rewrite length_app, strncpy_length.
  - unfold de_inum, get16. change (byte_at (bytes16 inum ++ _) 0) with (u8 inum).
    change (byte_at (bytes16 inum ++ _) (1 + 0)) with (u8 (inum / 2 ^ 8)). unfold u8.
    rewrite (split_bytes inum 8) by lia. apply Z.mod_small. unfold is_u16 in Hi. lia.
  - unfold de_name, dname. change (drop 2 (bytes16 inum ++ ?l)) with l. apply take_ge. by rewrite strncpy_length.
Qed.

(** ** Entries *)

Definition dent (s : kernel) (ip : inode) (j : nat) : list Z :=
  fbyte s ip <$> seqZ (DIRENTSZ * Z.of_nat j) DIRENTSZ.

Definition dentries (s : kernel) (ip : inode) : list (list Z) :=
  dent s ip <$> seq 0 (Z.to_nat (i_size ip / DIRENTSZ)).

(** The entry [name] is found in: the first one in use with that name. *)
Definition dmatch (name de : list Z) : Prop := de_inum de ≠ 0 ∧ namecmp name (de_name de) = 0.
#[export] Instance dmatch_dec name de : Decision (dmatch name de) := and_dec (not_dec (decide _)) (decide _).

Definition dfind (l : list (list Z)) (name : list Z) : option (nat * list Z) := list_find (dmatch name) l.

(** The map a directory represents. *)
Definition dinum (l : list (list Z)) (name : list Z) : option Z := (λ r, de_inum (snd r)) <$> dfind l name.

(** Where dirlink puts a new entry. *)
Definition dfree (l : list (list Z)) : nat := default (length l) (fst <$> list_find (λ de, de_inum de = 0) l).
Definition dset (l : list (list Z)) (de : list Z) : list (list Z) :=
  if decide (dfree l < length l)%nat then <[dfree l := de]> l else l ++ [de].

Lemma find_put_miss {A} (P : A → Prop) `{!∀ x, Decision (P x)} l i old x :
  l !! i = Some old → ¬ P old → ¬ P x → list_find P (<[i := x]> l) = list_find P l.
Proof.
  intros Hi Ho Hx. destruct (list_find P l) as [[j y]|] eqn:E.
  - apply list_find_Some in E as (Hj & Hy & Hlt). apply list_find_Some.
    assert (i ≠ j) by (intros ->; congruence). split; [by rewrite list_lookup_insert_ne|]. split; [done|].
    intros k z Hk Hkj. destruct (decide (k = i)) as [->|]; [|rewrite list_lookup_insert_ne in Hk by done; by apply (Hlt k)].
    rewrite list_lookup_insert_eq in Hk by (by eapply lookup_lt_Some). by simplify_eq.
  - apply list_find_None in E. apply list_find_None. by apply Forall_insert.
Qed.

Lemma find_put_hit {A} (P : A → Prop) `{!∀ x, Decision (P x)} l i x :
  (i < length l)%nat → list_find P l = None → P x → list_find P (<[i := x]> l) = Some (i, x).
Proof.
  intros Hi E Hx. apply list_find_None in E. rewrite Forall_lookup in E. apply list_find_Some.
  split; [by rewrite list_lookup_insert_eq|]. split; [done|]. intros j y Hj Hlt.
  rewrite list_lookup_insert_ne in Hj by lia. by apply (E j).
Qed.

Lemma dfree_lt l : (dfree l < length l)%nat → ∃ old, l !! dfree l = Some old ∧ de_inum old = 0.
Proof.
  unfold dfree. destruct (list_find _ l) as [[i x]|] eqn:E; cbn; [|lia].
  apply list_find_Some in E as (Hi & Hx & _). by exists x.
Qed.

Lemma dfree_le l : (dfree l ≤ length l)%nat.
Proof.
  unfold dfree. destruct (list_find _ l) as [[i x]|] eqn:E; cbn; [|done].
  apply list_find_Some in E as (Hi & _). apply lookup_lt_Some in Hi. lia.
Qed.

(** Adding an entry adds its name to the map. *)
Lemma dinum_dset l de name :
  de_inum de ≠ 0 → (namecmp name (de_name de) = 0 → dinum l name = None) →
  dinum (dset l de) name = if decide (namecmp name (de_name de) = 0) then Some (de_inum de) else dinum l name.
Proof.
  intros Hz Hn. unfold dinum, dfind, dset in *. case_decide as Hlt.
  - destruct (dfree_lt l Hlt) as (old & Ho & H0). case_decide as Hc.
    + rewrite find_put_hit; [done|done| |done]. by destruct (list_find _ l); [specialize (Hn Hc)|].
    + rewrite (find_put_miss _ _ _ old); [done|done|by intros [? _]|by intros [_ ?]].
  - case_decide as Hc.
    + rewrite list_find_app_r by (by destruct (list_find _ l); [specialize (Hn Hc)|]).
      cbn. rewrite decide_True by done. done.
    + destruct (list_find (dmatch name) l) as [[j y]|] eqn:E; [by rewrite (list_find_app_l _ _ _ _ _ E)|].
      rewrite list_find_app_r by done. cbn. rewrite decide_False by (by intros [_ ?]). done.
Qed.

Lemma strncmp_stored n : ∀ p q e, strncpy_list n p = strncpy_list n q → strncmp_list n p e = strncmp_list n q e.
Proof.
  induction n as [|n IH]; intros p q e H; [done|]. cbn [strncmp_list strncpy_list] in *.
  destruct (Z.eqb_spec (byte_at p 0) 0) as [Ha|Ha], (Z.eqb_spec (byte_at q 0) 0) as [Hb|Hb]; cbn [negb andb].
  - by rewrite Ha, Hb.
  - cbn in H. congruence.
  - cbn in H. congruence.
  - injection H as Eab Et. rewrite Eab. by rewrite (IH _ _ (tail e) Et).
Qed.

Lemma dinum_dname l p q : dname p = dname q → dinum l p = dinum l q.
Proof.
  intros H. unfold dinum, dfind. f_equal. apply list_find_ext. intros de. unfold dmatch, namecmp.
  by rewrite (strncmp_stored _ p q).
Qed.

(** ** iget *)

(** The cache holds the inode or has a free entry. *)
Definition iget_room (s : kernel) (dev inum : Z) : Prop :=
  ∃ j jp, icache s !! j = Some jp ∧ (i_ref jp = 0 ∨ 0 < i_ref jp ∧ i_dev jp = dev ∧ i_inum jp = inum).

Lemma iget_scan_spec dev inum l : ∀ i e,
  match iget_scan l i e dev inum with
  | inl j => ∃ k jp, j = (i + k)%nat ∧ l !! k = Some jp ∧ 0 < i_ref jp ∧ i_dev jp = dev ∧ i_inum jp = inum
  | inr (Some j) => e = Some j ∨ ∃ k jp, j = (i + k)%nat ∧ l !! k = Some jp ∧ i_ref jp = 0
  | inr None => e = None ∧ ∀ k jp, l !! k = Some jp → i_ref jp ≠ 0 ∧ ¬ (0 < i_ref jp ∧ i_dev jp = dev ∧ i_inum jp = inum)
  end.
Proof.
  induction l as [|ip l IH]; intros i e; [by destruct e; [left|]|]. cbn [iget_scan].
  destruct ((0 <? i_ref ip) && (i_dev ip =? dev) && (i_inum ip =? inum))%bool eqn:E.
  - apply andb_prop in E as [[E1%Z.ltb_lt E2%Z.eqb_eq]%andb_prop E3%Z.eqb_eq]. exists 0%nat, ip. by rewrite Nat.add_0_r.
  - assert (Hno : ¬ (0 < i_ref ip ∧ i_dev ip = dev ∧ i_inum ip = inum)).
    { intros (?%Z.ltb_lt & ?%Z.eqb_eq & ?%Z.eqb_eq). destruct (0 <? i_ref ip), (i_dev ip =? dev), (i_inum ip =? inum); done. }
    set (e' := match e with None => _ | Some _ => e end). specialize (IH (S i) e').
    destruct (iget_scan l (S i) e' dev inum) as [j|[j|]].
    + destruct IH as (k & jp & -> & Hk & Hr). exists (S k), jp. split; [lia|done].
    + destruct IH as [He|(k & jp & -> & Hk & Hr)].
      * unfold e' in He. destruct e; [by left|]. destruct (Z.eqb_spec (i_ref ip) 0); [|done]. simplify_eq.
        right. exists 0%nat, ip. split; [lia|done].
      * right. exists (S k), jp. split; [lia|done].
    + destruct IH as [He Hall]. unfold e' in He. destruct e; [done|]. destruct (Z.eqb_spec (i_ref ip) 0); [done|].
      split; [done|]. intros [|k] jp Hk; cbn in Hk; [by simplify_eq|]. by apply (Hall k).
Qed.

Lemma iget_run s dev inum :
  held s = [] → iget_room s dev inum →
  ∃ j jp ic, iget dev inum s = Ret j (s <| icache := ic |>) ∧ ic !! j = Some jp
    ∧ i_dev jp = dev ∧ i_inum jp = inum ∧ 1 ≤ i_ref jp.
Proof.
  intros Hh (j0 & jp0 & Hj0 & Hroom). unfold iget. run_by (apply acquire_run; rewrite Hh; apply not_elem_of_nil). run.
  pose proof (iget_scan_spec dev inum (icache s) 0 None) as Hs.
  assert (Hrel : ∀ s', held s' = LIcache :: held s → release LIcache s' = Ret tt (s' <| held := held s |>)).
  { intros s' E. rewrite (release_run LIcache s') by (rewrite E; by left). f_equal. kext. rewrite E. by apply remove_lock_cons. }
  assert (Hfin : ∀ j jp f, icache s !! j = Some jp →
     (upd_inode j f;; release LIcache;; mret j) (s <| held ::= cons LIcache |>)
     = Ret j (s <| icache := alter f j (icache s) |>)).
  { intros j jp f Hj. run_by (eapply upd_inode_run; exact Hj). run_by (by apply Hrel). reflexivity. }
  sst. destruct (iget_scan (icache s) 0 None dev inum) as [j|[j|]].
  - destruct Hs as (k & jp & -> & Hk & H1 & H2 & H3). eexists _, _, _. split; [eapply Hfin; exact Hk|]. cbn.
    rewrite list_lookup_alter_eq, Hk. split; [done|]. cbn. split_and!; [done|done|lia].
  - destruct Hs as [?|(k & jp & -> & Hk & H1)]; [done|]. eexists _, _, _. split; [eapply Hfin; exact Hk|]. cbn.
    rewrite list_lookup_alter_eq, Hk. split; [done|]. cbn. split_and!; [done|done|lia].
  - destruct Hs as [_ Hall]. destruct (Hall j0 jp0 Hj0). tauto.
Qed.

(** ** dirlookup and dirlink *)

Section Dir.
Context {P : Platform} {D : DiskDriver} {SD : SyncDisk D} {V : Devsw}.

(** A directory, cached in entry [dp], inside a transaction. *)
Record dir_ok (s : kernel) (L : list Z) (dp : nat) (ip : inode) (k m : nat) : Prop := {
  do_fs : fs_ok s [] L dp ip k m;
  do_type : i_type ip = T_DIR;
  do_size : i_size ip = DIRENTSZ * Z.of_nat (length (dentries s ip)) ∧ i_size ip ≤ MAXFILE * BSIZE;
  do_there : ∀ o, 0 ≤ o < i_size ip → faddr s ip (o / BSIZE) ≠ 0
}.

(** The steps of a lookup change nothing a directory consists of. *)
Definition dsame (ip : inode) (s s' : kernel) : Prop := tframe s s' ∧ dentries s' ip = dentries s ip.

Lemma dsame_trans ip s1 s2 s3 : dsame ip s1 s2 → dsame ip s2 s3 → dsame ip s1 s3.
Proof. intros [F1 E1] [F2 E2]. split; [by etrans|congruence]. Qed.

Lemma dentries_lookup s ip j : (j < length (dentries s ip))%nat → dentries s ip !! j = Some (dent s ip j).
Proof.
  unfold dentries. rewrite length_fmap, length_seq. intros Hj. rewrite list_lookup_fmap, lookup_seq_lt by done. done.
Qed.

(** Reading entry [j]. *)
Lemma dread s L dp ip k m j :
  dir_ok s L dp ip k m → (j < length (dentries s ip))%nat →
  ∃ s', readi dp (DIRENTSZ * Z.of_nat j) DIRENTSZ s = Ret (DIRENTSZ, dent s ip j) s'
    ∧ dir_ok s' L dp ip k m ∧ dsame ip s s'.
Proof.
  intros [H Hty [Hsz Hmax] Hth] Hj. change DIRENTSZ with 16 in *.
  destruct (readi_run s L dp ip k m (16 * Z.of_nat j) 16 H) as (s' & Hr & H' & Hf & Hv); [by rewrite Hty|lia|lia|lia|lia| |].
  { intros o Ho. apply Hth. lia. }
  assert (Hs : same_data s s' (i_inum ip)) by (intros x _; by apply contents_eq).
  assert (Hfile := fs_file _ _ _ _ _ _ _ H).
  assert (He : dentries s' ip = dentries s ip).
  { unfold dentries in *. rewrite length_fmap, length_seq in *. apply list_fmap_ext. intros i x [-> Hi]%lookup_seq.
    unfold dent. apply list_fmap_ext. intros y o [-> Hy]%lookup_seqZ. change DIRENTSZ with 16 in *.
    apply fbyte_same; [done|lia|done]. }
  exists s'. split; [exact Hr|]. split; [|by split]. split; [done|done|by rewrite He|].
  intros o Ho. rewrite (faddr_same s) by (by apply same_ind). by apply Hth.
Qed.

Lemma drop_entry s ip j :
  (j < length (dentries s ip))%nat → drop j (dentries s ip) = dent s ip j :: drop (S j) (dentries s ip).
Proof. intros Hj. apply drop_S. by apply dentries_lookup. Qed.

Lemma dirlookup_loop_run L dp ip k m name n : ∀ j s,
  dir_ok s L dp ip k m → (length (dentries s ip) - j < n)%nat → (j ≤ length (dentries s ip))%nat →
  ∃ s', dir_ok s' L dp ip k m ∧ dsame ip s s'
    ∧ dirlookup_loop n dp name (DIRENTSZ * Z.of_nat j) s
      = match dfind (drop j (dentries s ip)) name with
        | None => Ret None s'
        | Some (i, de) => (next ← iget 1 (de_inum de); mret (Some (next, DIRENTSZ * Z.of_nat (j + i)))) s'
        end.
Proof.
  induction n as [|n IH]; intros j s H Hn Hj; [lia|]. cbn [dirlookup_loop].
  run_by (apply get_inode_run, (do_fs _ _ _ _ _ _ H)). destruct (do_size _ _ _ _ _ _ H) as [Hsz Hmax].
  destruct (decide (j = length (dentries s ip))) as [->|Hne].
  - destruct (Z.ltb_spec (DIRENTSZ * Z.of_nat (length (dentries s ip))) (i_size ip)); [lia|].
    exists s. split; [done|]. split; [split; [reflexivity|done]|]. by rewrite drop_ge by done.
  - destruct (Z.ltb_spec (DIRENTSZ * Z.of_nat j) (i_size ip)); [|change DIRENTSZ with 16 in *; lia].
    destruct (dread s L dp ip k m j H ltac:(lia)) as (s1 & Hr1 & H1 & Hs1). rewrite (bind_run _ _ _ _ _ Hr1). cbv beta iota.
    change (negb (DIRENTSZ =? DIRENTSZ)) with false. cbn match.
    destruct (IH (S j) s1 H1) as (s2 & H2 & Hs2 & Hr2); [rewrite (proj2 Hs1); lia|rewrite (proj2 Hs1); lia|].
    rewrite (proj2 Hs1) in Hr2. replace (DIRENTSZ * Z.of_nat (S j)) with (DIRENTSZ * Z.of_nat j + DIRENTSZ) in Hr2 by lia.
    rewrite (drop_entry s ip j) by lia. unfold dfind. cbn [list_find].
    assert (Hskip : dirlookup_loop n dp name (DIRENTSZ * Z.of_nat j + DIRENTSZ) s1
      = match prod_map S id <$> list_find (dmatch name) (drop (S j) (dentries s ip)) with
        | None => Ret None s2
        | Some (i, de) => (next ← iget 1 (de_inum de); mret (Some (next, DIRENTSZ * Z.of_nat (j + i)))) s2
        end).
    { rewrite Hr2. unfold dfind. destruct (list_find _ _) as [[i de]|]; cbn; [|done].
      by rewrite Nat.add_succ_r. }
    destruct (decide (dmatch name (dent s ip j))) as [[Hi Hc]|Hno].
    + exists s1. split; [done|]. split; [done|]. destruct (Z.eqb_spec (de_inum (dent s ip j)) 0); [done|].
      rewrite Hc. cbn [Z.eqb]. run_by (apply get_inode_run, (do_fs _ _ _ _ _ _ H1)).
      rewrite (fs_dev _ _ _ _ _ _ _ (do_fs _ _ _ _ _ _ H1)). by rewrite Nat.add_0_r.
    + exists s2. split; [done|]. split; [by eapply dsame_trans|].
      rewrite <- Hskip.
      destruct (Z.eqb_spec (de_inum (dent s ip j)) 0); [done|].
      destruct (Z.eqb_spec (namecmp name (de_name (dent s ip j))) 0); [|done]. by destruct Hno.
Qed.

Lemma dir_fuel s L dp ip k m :
  dir_ok s L dp ip k m → Z.to_nat (i_size ip / DIRENTSZ + 1) = S (length (dentries s ip)).
Proof.
  intros H. destruct (do_size _ _ _ _ _ _ H) as [-> _]. rewrite Z.mul_comm, Z.div_mul by done. lia.
Qed.

Lemma dirlookup_run s L dp ip k m name :
  dir_ok s L dp ip k m → (∀ v, dinum (dentries s ip) name = Some v → iget_room s 1 v) →
  match dinum (dentries s ip) name with
  | None => ∃ s', dirlookup dp name s = Ret None s' ∧ dir_ok s' L dp ip k m ∧ dsame ip s s'
  | Some v => ∃ next off jp s', dirlookup dp name s = Ret (Some (next, off)) s'
      ∧ icache s' !! next = Some jp ∧ i_dev jp = 1 ∧ i_inum jp = v ∧ 1 ≤ i_ref jp
  end.
Proof.
  intros H Hroom. destruct (dirlookup_loop_run L dp ip k m name (S (length (dentries s ip))) 0 s H) as (s' & H' & Hs & Hr); [lia|lia|].
  assert (Hd : dirlookup dp name s = dirlookup_loop (S (length (dentries s ip))) dp name (DIRENTSZ * Z.of_nat 0) s).
  { unfold dirlookup. run_by (apply get_inode_run, (do_fs _ _ _ _ _ _ H)). rewrite (do_type _ _ _ _ _ _ H). cbn [Z.eqb negb].
    change (negb (T_DIR =? T_DIR)) with false. cbn match. by rewrite (dir_fuel s L dp ip k m H). }
  rewrite Hd, Hr. rewrite drop_0. unfold dinum in *. destruct (dfind (dentries s ip) name) as [[i de]|]; cbn.
  - destruct (iget_run s' 1 (de_inum de)) as (next & jp & ic & Hg & Hic & Hj).
    { apply (in_tx_running s' [] L). apply H'. }
    { destruct (Hroom _ eq_refl) as (j0 & jp0 & Hj0 & Hrm). exists j0, jp0. by rewrite (tframe_icache _ _ (proj1 Hs)). }
    rewrite (bind_run _ _ _ _ _ Hg). eexists next, _, jp, _. split; [reflexivity|]. split; [exact Hic|done].
  - by exists s'.
Qed.

Lemma dirlink_loop_run L dp ip k m n : ∀ j s,
  dir_ok s L dp ip k m → (length (dentries s ip) - j < n)%nat → (j ≤ length (dentries s ip))%nat →
  ∃ s', dir_ok s' L dp ip k m ∧ dsame ip s s'
    ∧ dirlink_loop n dp (DIRENTSZ * Z.of_nat j) s = Ret (DIRENTSZ * Z.of_nat (j + dfree (drop j (dentries s ip)))) s'.
Proof.
  induction n as [|n IH]; intros j s H Hn Hj; [lia|]. cbn [dirlink_loop].
  run_by (apply get_inode_run, (do_fs _ _ _ _ _ _ H)). destruct (do_size _ _ _ _ _ _ H) as [Hsz Hmax].
  destruct (decide (j = length (dentries s ip))) as [->|Hne].
  - destruct (Z.ltb_spec (DIRENTSZ * Z.of_nat (length (dentries s ip))) (i_size ip)); [lia|].
    exists s. split; [done|]. split; [split; [reflexivity|done]|]. rewrite drop_ge by done. by rewrite Nat.add_0_r.
  - destruct (Z.ltb_spec (DIRENTSZ * Z.of_nat j) (i_size ip)); [|change DIRENTSZ with 16 in *; lia].
    destruct (dread s L dp ip k m j H ltac:(lia)) as (s1 & Hr1 & H1 & Hs1). rewrite (bind_run _ _ _ _ _ Hr1). cbv beta iota.
    change (negb (DIRENTSZ =? DIRENTSZ)) with false. cbn match.
    rewrite (drop_entry s ip j) by lia. unfold dfree. cbn [list_find length].
    destruct (Z.eqb_spec (de_inum (dent s ip j)) 0) as [Hz|Hz].
    + rewrite decide_True by done. exists s1. split; [done|]. split; [done|]. cbn. by rewrite Nat.add_0_r.
    + rewrite decide_False by done. destruct (IH (S j) s1 H1) as (s2 & H2 & Hs2 & Hr2);
        [rewrite (proj2 Hs1); lia|rewrite (proj2 Hs1); lia|].
      exists s2. split; [done|]. split; [by eapply dsame_trans|]. rewrite (proj2 Hs1) in Hr2.
      replace (DIRENTSZ * Z.of_nat j + DIRENTSZ) with (DIRENTSZ * Z.of_nat (S j)) by lia. rewrite Hr2. unfold dfree.
      destruct (list_find _ (drop (S j) (dentries s ip))) as [[i de]|]; cbn; do 2 f_equal; lia.
Qed.

(** The entries after a write of the entry [de] at place [j0]. *)
Lemma dent_written s s' dp ip ip' j0 de j :
  written s s' dp ip ip' (DIRENTSZ * Z.of_nat j0) de → length de = Z.to_nat DIRENTSZ →
  DIRENTSZ * Z.of_nat j + DIRENTSZ ≤ MAXFILE * BSIZE →
  dent s' ip' j = if decide (j = j0) then de else dent s ip j.
Proof.
  intros [_ _ _ _ _ Hb] Hl Hmax. unfold dent. change DIRENTSZ with 16 in *. change (Z.to_nat 16) with 16%nat in Hl.
  rewrite Hl in Hb. assert (Hx : ∀ i, (i < 16)%nat → fbyte s' ip' (16 * Z.of_nat j + Z.of_nat i)
    = if decide (j = j0) then byte_at de i else fbyte s ip (16 * Z.of_nat j + Z.of_nat i)).
  { intros i Hi. rewrite Hb by lia. case_decide as H1; case_decide as H2; subst; try lia. f_equal. lia. }
  case_decide as E.
  - apply list_eq. intros i. rewrite list_lookup_fmap. destruct (decide (i < 16)%nat) as [Hi|Hi].
    + rewrite lookup_seqZ_lt by lia. cbn [fmap option_fmap option_map]. rewrite Hx by done. unfold byte_at.
      by destruct (lookup_lt_is_Some_2 de i) as [v ->]; [lia|].
    + rewrite lookup_seqZ_ge by lia. symmetry. apply lookup_ge_None_2. lia.
  - apply list_fmap_ext. intros i o [-> Hi]%lookup_seqZ. by apply Hx; lia.
Qed.

Lemma dentries_dset s s' dp ip ip' de L k m :
  dir_ok s L dp ip k m → written s s' dp ip ip' (DIRENTSZ * Z.of_nat (dfree (dentries s ip))) de →
  length de = Z.to_nat DIRENTSZ → DIRENTSZ * Z.of_nat (S (dfree (dentries s ip))) ≤ MAXFILE * BSIZE →
  dentries s' ip' = dset (dentries s ip) de ∧ i_size ip' = DIRENTSZ * Z.of_nat (length (dset (dentries s ip) de)).
Proof.
  intros H Hw Hl Hroom. destruct (do_size _ _ _ _ _ _ H) as [Hsz Hmax]. set (l := dentries s ip) in *.
  pose proof (dfree_le l) as Hfl. set (j0 := dfree l) in *. assert (Hs' := wi_size _ _ _ _ _ _ _ Hw).
  assert (Hlen : length (dset l de) = Nat.max (length l) (S j0)).
  { unfold dset. fold j0. case_decide; [rewrite length_insert; lia|rewrite length_app; cbn; lia]. }
  assert (Hsz' : i_size ip' = DIRENTSZ * Z.of_nat (length (dset l de))).
  { rewrite Hs', Hl, Hlen, Hsz. change DIRENTSZ with 16. change (Z.to_nat 16) with 16%nat. lia. }
  split; [|done]. apply list_eq. intros j. unfold dentries. rewrite Hsz', Z.mul_comm, Z.div_mul, Nat2Z.id by done.
  rewrite list_lookup_fmap. destruct (decide (j < length (dset l de))%nat) as [Hj|Hj].
  - rewrite lookup_seq_lt by done. cbn [fmap option_fmap option_map Nat.add].
    rewrite (dent_written s s' dp ip ip' j0 de j) by (done || change DIRENTSZ with 16 in *; lia).
    unfold dset. fold j0. case_decide as E; case_decide as E2.
    + subst j. by rewrite list_lookup_insert_eq.
    + subst j. rewrite lookup_app_r by lia. replace (j0 - length l)%nat with 0%nat by lia. done.
    + rewrite list_lookup_insert_ne by done. symmetry. apply dentries_lookup. fold l. lia.
    + rewrite lookup_app_l by lia. symmetry. apply dentries_lookup. fold l. lia.
  - rewrite lookup_seq_ge by lia. symmetry. apply lookup_ge_None_2. lia.
Qed.

Lemma touched_entry j : touched (DIRENTSZ * Z.of_nat j) DIRENTSZ = 1%nat.
Proof.
  unfold touched. change DIRENTSZ with 16. change BSIZE with 512.
  set (x := (16 * Z.of_nat j) mod 512). assert (Hx : 0 ≤ x ≤ 496).
  { unfold x. replace 512 with (16 * 32) by lia. rewrite Z.mul_mod_distr_l by lia.
    pose proof (Z.mod_pos_bound (Z.of_nat j) 32 ltac:(lia)). lia. }
  replace ((x + 16 + 512 - 1) / 512) with 1; [done|]. apply (Z.div_unique _ _ _ (x + 15)); [left; lia|lia].
Qed.

Lemma dirlink_run s L dp ip k m name inum :
  dir_ok s L dp ip (k + 2) (m + 7) → dinum (dentries s ip) name = None → is_u16 inum →
  DIRENTSZ * Z.of_nat (S (dfree (dentries s ip))) ≤ MAXFILE * BSIZE →
  ∃ s' L' ip', dirlink dp name inum s = Ret 0 s' ∧ dir_ok s' L' dp ip' k m
    ∧ dentries s' ip' = dset (dentries s ip) (make_dirent name inum) ∧ iframe dp s s'.
Proof.
  intros H Hnone Hi Hroom. destruct (make_dirent_fields name inum Hi) as (Hlen & _ & _).
  pose proof (dirlookup_run s L dp ip _ _ name H) as Hlk. rewrite Hnone in Hlk.
  destruct Hlk as (s1 & Hr1 & H1 & [Hf1 He1]); [done|]. unfold dirlink. rewrite (bind_run _ _ _ _ _ Hr1). cbv beta iota.
  run_by (apply get_inode_run, (do_fs _ _ _ _ _ _ H1)). rewrite (dir_fuel s1 L dp ip _ _ H1).
  destruct (dirlink_loop_run L dp ip _ _ (S (length (dentries s1 ip))) 0 s1 H1) as (s2 & H2 & [Hf2 He2] & Hr2); [lia|lia|].
  change (DIRENTSZ * Z.of_nat 0) with 0 in Hr2. rewrite (bind_run _ _ _ _ _ Hr2). cbv beta. rewrite drop_0, Nat.add_0_l in *.
  assert (He : dentries s2 ip = dentries s ip) by congruence. rewrite <- He2.
  assert (Eu : u16 inum = inum) by (apply Z.mod_small, Hi). rewrite Eu. set (de := make_dirent name inum) in *.
  destruct (do_size _ _ _ _ _ _ H2) as [Hsz Hmax]. pose proof (dfree_le (dentries s2 ip)) as Hfl.
  assert (Ed : Z.of_nat (length de) = DIRENTSZ) by (rewrite Hlen; by apply Z2Nat.id).
  rewrite <- He in Hroom.
  destruct (writei_run s2 L dp ip k m de (DIRENTSZ * Z.of_nat (dfree (dentries s2 ip)))) as (s3 & L3 & ip3 & Hr3 & H3 & Hw).
  { rewrite Ed, touched_entry. eapply fs_weaken; [apply H2|lia|lia]. }
  { by rewrite (do_type _ _ _ _ _ _ H2). }
  { change DIRENTSZ with 16 in *. lia. }
  { rewrite Ed. change DIRENTSZ with 16 in *. lia. }
  rewrite (bind_run _ _ _ _ _ Hr3). cbv beta. rewrite Ed. change (negb (DIRENTSZ =? DIRENTSZ)) with false. cbn match.
  destruct (dentries_dset s2 s3 dp ip ip3 de L _ _ H2 Hw Hlen Hroom) as [He3 Hs3]. rewrite He in He3.
  exists s3, L3, ip3. split; [done|]. split; [|split; [done|]].
  - split; [done|by rewrite (wi_type _ _ _ _ _ _ _ Hw), (do_type _ _ _ _ _ _ H2)| |].
    + rewrite He3, <- He. split; [done|]. rewrite (wi_size _ _ _ _ _ _ _ Hw), Ed. lia.
    + intros o Ho. rewrite (wi_size _ _ _ _ _ _ _ Hw), Ed in Ho.
      destruct (decide (o < i_size ip)) as [Hlt|Hge].
      * apply (wi_old _ _ _ _ _ _ _ Hw); [|by apply (do_there _ _ _ _ _ _ H2); lia]. apply block_of. lia.
      * apply (wi_there _ _ _ _ _ _ _ Hw). rewrite Ed. change DIRENTSZ with 16 in *. lia.
  - eapply iframe_trans; [apply iframe_tframe; by etrans|apply Hw].
Qed.

End Dir.

(** ** Paths *)

(** A path split at its slashes, and its elements: the parts that are not empty. *)
Fixpoint split_slash (path : list Z) : list (list Z) :=
  match path with
  | [] => [[]]
  | c :: path' =>
      if c =? SLASH then [] :: split_slash path'
      else match split_slash path' with [] => [[c]] | e :: es => (c :: e) :: es end
  end.
Definition elements (path : list Z) : list (list Z) := filter (λ e, e ≠ []) (split_slash path).

Lemma split_slash_app e r : SLASH ∉ e →
  split_slash (e ++ r) = match split_slash r with [] => [e] | e' :: es => (e ++ e') :: es end.
Proof.
  induction e as [|c e IH]; intros Hn; [by destruct r as [|c r]; cbn; [|destruct (c =? SLASH); [|destruct (split_slash r)]]|].
  apply not_elem_of_cons in Hn as [Hc Hn]. cbn. destruct (Z.eqb_spec c SLASH); [congruence|]. rewrite IH by done.
  by destruct (split_slash r).
Qed.

Lemma take_elem_spec path :
  let '(e, r) := take_elem path in path = e ++ r ∧ SLASH ∉ e ∧ (r = [] ∨ ∃ r', r = SLASH :: r').
Proof.
  induction path as [|c path IH]; cbn; [split; [done|]; split; [apply not_elem_of_nil|by left]|].
  destruct (Z.eqb_spec c SLASH) as [->|Hc]; [split; [done|]; split; [apply not_elem_of_nil|right; by eexists]|].
  destruct (take_elem path) as [e r]. destruct IH as (-> & Hn & Hr). split; [done|]. split; [|done].
  by apply not_elem_of_cons.
Qed.

Lemma elements_skip path : elements (skip_slashes path) = elements path.
Proof.
  induction path as [|c path IH]; [done|]. cbn [skip_slashes]. destruct (Z.eqb_spec c SLASH) as [->|]; [|done].
  rewrite IH. unfold elements. cbn [split_slash]. rewrite Z.eqb_refl, filter_cons_False; [done|]. intros Hn. by apply Hn.
Qed.

Lemma skip_slashes_head path c r : skip_slashes path = c :: r → c ≠ SLASH.
Proof. induction path as [|d path IH]; [done|]. cbn. destruct (Z.eqb_spec d SLASH); [done|]. congruence. Qed.

Lemma skip_slashes_le path : (length (skip_slashes path) ≤ length path)%nat.
Proof. induction path as [|c path IH]; [done|]. cbn. destruct (c =? SLASH); cbn; lia. Qed.

(** A path that does not start with a slash starts with its first element. *)
Lemma elements_take path e r :
  path ≠ [] → (∀ c p, path = c :: p → c ≠ SLASH) → take_elem path = (e, r) → e ≠ [] ∧ elements path = e :: elements r.
Proof.
  intros Hp Hc Ht. pose proof (take_elem_spec path) as Hs. rewrite Ht in Hs. destruct Hs as (Ep & Hn & Hr).
  assert (He : e ≠ []).
  { intros ->. destruct Hr as [->|[r' ->]]; [done|]. by apply (Hc SLASH r'). }
  split; [done|]. rewrite Ep. unfold elements. rewrite split_slash_app by done. destruct Hr as [->|[r' ->]]; cbn [split_slash].
  - by rewrite app_nil_r, filter_cons_True.
  - rewrite Z.eqb_refl, app_nil_r, filter_cons_True by done. reflexivity.
Qed.

(** Skipelem takes a path apart into its elements: the parts between slashes,
    without the empty ones, each cut to 14 characters.  It returns null exactly
    when no element is left, the rest it returns is empty exactly when this was
    the last element, which is what namex tests, and every call shortens the
    path, so that its loop ends. *)
Theorem skipelem_splits path :
  match skipelem path with
  | None => elements path = []
  | Some (name, rest) => ∃ e es, elements path = e :: es ∧ name = take (Z.to_nat DIRSIZ) e ∧ e ≠ []
      ∧ elements rest = es ∧ (rest = [] ↔ es = []) ∧ (length rest < length path)%nat
  end.
Proof.
  unfold skipelem. rewrite <- (elements_skip path). pose proof (skip_slashes_le path) as Hle.
  pose proof (skip_slashes_head path) as Hh. destruct (skip_slashes path) as [|c p] eqn:Ep; [done|].
  destruct (take_elem (c :: p)) as [e r] eqn:Et.
  destruct (elements_take (c :: p) e r) as [He Hel]; [done| |done|].
  { intros c' p' [= <- <-]. by eapply Hh. }
  pose proof (take_elem_spec (c :: p)) as Hs. rewrite Et in Hs. destruct Hs as (Epr & _).
  exists e, (elements r). split_and!; [done| |done|apply elements_skip| |].
  - destruct (Z.leb_spec DIRSIZ (Z.of_nat (length e))) as [_|Hl]; [done|]. symmetry. apply take_ge. lia.
  - rewrite <- elements_skip. split; [by intros ->|]. intros Hnil. destruct (skip_slashes r) as [|c' r'] eqn:Er; [done|].
    exfalso. destruct (take_elem (c' :: r')) as [e2 r2] eqn:Et2.
    destruct (elements_take (c' :: r') e2 r2) as [_ E2]; [done| |done|congruence].
    intros ? ? [= <- <-]. by eapply skip_slashes_head.
  - pose proof (skip_slashes_le r). assert (Hlen := f_equal length Epr). rewrite length_app in Hlen.
    destruct e; [done|]. cbn in *. lia.
Qed.

#[local] Existing Instance plat20.
#[local] Existing Instance Memide.driver.
#[local] Existing Instance nodev20.

(** The root directory of the small disk, cached. *)
Definition root_cached : inode := root20 <| i_dev := 1 |> <| i_inum := 1 |> <| i_ref := 1 |> <| i_valid := true |>.

Lemma root_one_block : one_block root_cached 16.
Proof. split; [done|by left|done|lia]. Qed.

Lemma root_byte o : 0 ≤ o < 512 → fbyte (inode_tx20 root_cached) root_cached o = byte_at dir20 (Z.to_nat o).
Proof.
  intros Ho. unfold fbyte. rewrite Z.div_small, Z.mod_small by (unfold BSIZE; lia).
  rewrite (faddr20 _ _ 16) by (exact root_one_block || done). rewrite decide_True by done. cbn [Z.eqb Pos.eqb].
  change (contents (inode_tx20 root_cached) 16) with (contents tx20 16). by rewrite tx20_contents by lia.
Qed.

Lemma root_entries : dentries (inode_tx20 root_cached) root_cached = [make_dirent [46] 1; make_dirent [46; 46] 1; make_dirent [102] 2].
Proof.
  transitivity ((λ j, (λ o, byte_at dir20 (Z.to_nat o)) <$> seqZ (DIRENTSZ * Z.of_nat j) DIRENTSZ) <$> seq 0 3); [|by vm_compute].
  unfold dentries. change (Z.to_nat (i_size root_cached / DIRENTSZ)) with 3%nat. apply list_fmap_ext. intros i j [-> Hj]%lookup_seq.
  apply list_fmap_ext. intros y o [-> Hy]%lookup_seqZ. change DIRENTSZ with 16 in *. apply root_byte. lia.
Qed.

Lemma root_dir : dir_ok (inode_tx20 root_cached) [] 0 root_cached 2 7.
Proof.
  split; [by apply (inode_tx20_fs _ 16), root_one_block|done|by rewrite root_entries|].
  intros o Ho. change (i_size root_cached) with 48 in Ho. rewrite Z.div_small by (unfold BSIZE; lia).
  by rewrite (faddr20 _ _ 16) by (exact root_one_block || done).
Qed.


