(* ===== verification/Mkfs.v ===== *)
(** The program that makes the initial file system image (mkfs.c), and the
    file system that the kernel finds on that image. *)

From S2P Require Import Prelude Types Spinlock Sched Ide Bio Blocks Bytes Log Fs Bitmap Inode Content Dir.

(** ** State

    The image file as its sectors, the static variables [freeinode],
    [freeblock] and [sb]. exit(1) and a failed assert end the program: the
    outcome [Panic]. What is printed is left out. *)
Record mkfs := mkMkfs { fsimg : list (list Z); freeinode : Z; freeblock : Z; msb : superblock }.
#[export] Instance eta_mkfs : Settable mkfs := λ s, mkMkfs (fsimg s) (freeinode s) (freeblock s) (msb s).
#[export] Instance set_fsimg : Setter fsimg := ltac:(build_setter).
#[export] Instance set_freeinode : Setter freeinode := ltac:(build_setter).
#[export] Instance set_freeblock : Setter freeblock := ltac:(build_setter).
#[export] Instance set_msb : Setter msb := ltac:(build_setter).

Definition NINODES : Z := 200.
Definition nbitmap : Z := FSSIZE / (BSIZE * 8) + 1.
Definition ninodeblocks : Z := NINODES / IPB + 1.
Definition nlog : Z := LOGSIZE.
Definition nmeta : Z := 2 + nlog + ninodeblocks + nbitmap.
Definition zeroes : list Z := replicate (Z.to_nat BSIZE) 0.

(** ** The code

    The host is little-endian: the integer whose bytes in memory are given. *)
Definition xshort (x : Z) : Z := get16 (bytes16 x) 0.
Definition xint (x : Z) : Z := get32 (bytes32 x) 0.

(** A write at [sec * BSIZE]: past the end it extends the file with zeroes. *)
Definition write_sector (n : nat) (buf : list Z) (l : list (list Z)) : list (list Z) :=
  if (n <? length l)%nat then <[n := buf]> l else l ++ replicate (n - length l) zeroes ++ [buf].

Definition wsect (sec : Z) (buf : list Z) : M mkfs unit :=
  modify (λ s, s <| fsimg ::= write_sector (Z.to_nat (u32 (sec * BSIZE) / BSIZE)) buf |>).

Definition rsect (sec : Z) : M mkfs (list Z) :=
  d ← gets (λ s, fsimg s !! Z.to_nat (u32 (sec * BSIZE) / BSIZE));
  match d with Some d => mret d | None => panic "read" end.

(** [*dip = *ip] *)
Definition set_dinode (k : Z) (di : dinode) (d : list Z) : list Z :=
  put_dinode k (load_dinode di (mkInode 0 0 0 sleeplock_zero false 0 0 0 0 0 [] 0 0 0)) d.

Definition winode (inum : Z) (ip : dinode) : M mkfs unit :=
  sb ← gets msb;
  let bn := IBLOCK inum sb in
  buf ← rsect bn;
  wsect bn (set_dinode (inum mod IPB) ip buf).

Definition rinode (inum : Z) : M mkfs dinode :=
  sb ← gets msb;
  buf ← rsect (IBLOCK inum sb);
  mret (dinode_at buf (inum mod IPB)).

Definition ialloc (type : Z) : M mkfs Z :=
  inum ← gets freeinode;
  modify (λ s, s <| freeinode ::= λ n, uadd n 1 |>);;
  winode inum (mkDinode (i16 (xshort type)) 0 0 (i16 (xshort 1)) (xint 0) (replicate (Z.to_nat (NDIRECT + 1)) 0));;
  mret inum.

Definition balloc (used : Z) : M mkfs unit :=
  if negb (used <? BSIZE * 8) then panic "assert" else
  sb ← gets msb;
  wsect (sb_bmapstart sb) (foldl (λ buf i, set_bit i buf) zeroes (seqZ 0 used)).

(** [freeblock++] *)
Definition next_block : M mkfs Z :=
  b ← gets freeblock;
  modify (λ s, s <| freeblock := uadd b 1 |>);;
  mret b.

Definition addr (di : dinode) (k : Z) : Z := default 0 (d_addrs di !! Z.to_nat k).
Definition set_addr (k v : Z) (di : dinode) : dinode :=
  mkDinode (d_type di) (d_major di) (d_minor di) (d_nlink di) (d_size di) (<[Z.to_nat k := v]> (d_addrs di)).
Definition set_size (v : Z) (di : dinode) : dinode :=
  mkDinode (d_type di) (d_major di) (d_minor di) (d_nlink di) v (d_addrs di).

(** [if(xint(din.addrs[k]) == 0) din.addrs[k] = xint(freeblock++);] *)
Definition alloc_addr (k : Z) (din : dinode) : M mkfs dinode :=
  if xint (addr din k) =? 0 then b ← next_block; mret (set_addr k (xint b) din) else mret din.

(** The block of the file to write to. *)
Definition find_block (fbn : Z) (din : dinode) : M mkfs (dinode * Z) :=
  if fbn <? NDIRECT then
    din ← alloc_addr fbn din;
    mret (din, xint (addr din fbn))
  else
    din ← alloc_addr NDIRECT din;
    indirect ← rsect (xint (addr din NDIRECT));
    let o := Z.to_nat (4 * (fbn - NDIRECT)) in
    indirect ← (if get32 indirect o =? 0 then
                  b ← next_block;
                  let indirect := put32 o (xint b) indirect in
                  wsect (xint (addr din NDIRECT)) indirect;;
                  mret indirect
                else mret indirect);
    mret (din, xint (get32 indirect o)).

(** The while loop of iappend; the assertion keeps [off] below the size limit
    of a file, so that nothing wraps around. *)
Fixpoint iappend_loop (f : nat) (din : dinode) (off : Z) (p : list Z) : M mkfs (dinode * Z) :=
  let n := Z.of_nat (length p) in
  if 0 <? n then
    let fbn := off / BSIZE in
    if negb (fbn <? MAXFILE) then panic "assert" else
    '(din, x) ← find_block fbn din;
    let n1 := Z.min n ((fbn + 1) * BSIZE - off) in
    buf ← rsect x;
    wsect x (list_inserts (Z.to_nat (off - fbn * BSIZE)) (take (Z.to_nat n1) p) buf);;
    match f with
    | O => nofuel
    | S f' => iappend_loop f' din (off + n1) (drop (Z.to_nat n1) p)
    end
  else mret (din, off).

Definition iappend (inum : Z) (p : list Z) : M mkfs unit :=
  din ← rinode inum;
  '(din, off) ← iappend_loop (length p) din (xint (d_size din)) p;
  winode inum (set_size (xint off) din).

(** [struct superblock] in a block of zeroes. *)
Definition sb_bytes (sb : superblock) : list Z :=
  put32 24 (sb_bmapstart sb) (put32 20 (sb_inodestart sb) (put32 16 (sb_logstart sb) (put32 12 (sb_nlog sb)
    (put32 8 (sb_ninodes sb) (put32 4 (sb_nblocks sb) (put32 0 (sb_size sb) zeroes)))))).

Definition SLASH : Z := 47.
Definition UNDERSCORE : Z := 95.

(** A leading underscore is left out of the name. *)
Definition skip_underscore (name : list Z) : list Z :=
  match name with c :: name' => if c =? UNDERSCORE then name' else name | [] => name end.

(** One file of the command line: its name, and what its reads return, or
    [None] when it cannot be opened. *)
Definition add_file (rootino : Z) (arg : list Z * option (list (list Z))) : M mkfs unit :=
  let '(name, file) := arg in
  if bool_decide (SLASH ∈ name) then panic "assert" else
  match file with
  | None => panic "open"
  | Some reads =>
      let name := skip_underscore name in
      inum ← ialloc T_FILE;
      iappend rootino (make_dirent name (xshort inum));;
      for_each reads (iappend inum)
  end.

(** main, from the truncated image file on. *)
Definition main (args : list (list Z * option (list (list Z)))) : M mkfs unit :=
  modify (λ s, s <| msb := mkSuperblock (xint FSSIZE) (xint (FSSIZE - nmeta)) (xint NINODES) (xint nlog) (xint 2)
                             (xint (2 + nlog)) (xint (2 + nlog + ninodeblocks)) |> <| freeblock := nmeta |>);;
  for_each (seqZ 0 FSSIZE) (λ i, wsect i zeroes);;
  sb ← gets msb;
  wsect 1 (sb_bytes sb);;
  rootino ← ialloc T_DIR;
  if negb (rootino =? ROOTINO) then panic "assert" else
  iappend rootino (make_dirent [46] (xshort rootino));;
  iappend rootino (make_dirent [46; 46] (xshort rootino));;
  for_each args (add_file rootino);;
  din ← rinode rootino;
  let off := xint (d_size din) in
  let off := (off / BSIZE + 1) * BSIZE in
  winode rootino (set_size (xint off) din);;
  used ← gets freeblock;
  balloc used.

(** ** Sectors *)

Lemma xint_u32 x : xint x = u32 x.
Proof. exact (bytes32_val x). Qed.
Lemma xint_small x : is_u32 x → xint x = x.
Proof. intros. rewrite xint_u32. by apply u32_small. Qed.
Lemma xshort_u16 x : xshort x = u16 x.
Proof. apply (split_bytes x 8). lia. Qed.

Definition sect (img : list (list Z)) (b : Z) : list Z := if 0 <=? b then default [] (img !! Z.to_nat b) else [].
Definition upd (img : list (list Z)) (b : Z) (d : list Z) : list (list Z) := <[Z.to_nat b := d]> img.

(** An image of [FSSIZE] sectors. *)
Definition sectors (img : list (list Z)) : Prop :=
  length img = Z.to_nat FSSIZE ∧ Forall (λ d, length d = Z.to_nat BSIZE) img.

Lemma sector_index b : 0 ≤ b < FSSIZE → Z.to_nat (u32 (b * BSIZE) / BSIZE) = Z.to_nat b ∧ (Z.to_nat b < Z.to_nat FSSIZE)%nat.
Proof.
  unfold FSSIZE, BSIZE. intros Hb. rewrite u32_small by (unfold is_u32; lia). rewrite Z.div_mul by lia. lia.
Qed.

Lemma sect_upd img b d c :
  sectors img → 0 ≤ b < FSSIZE → sect (upd img b d) c = if decide (c = b) then d else sect img c.
Proof.
  intros [Hl _] Hb. unfold sect, upd. destruct (Z.leb_spec 0 c); [|by rewrite decide_False by lia]. destruct (decide (c = b)) as [->|Hne].
  - rewrite list_lookup_insert_eq; [done|]. rewrite Hl. unfold FSSIZE in *. lia.
  - rewrite list_lookup_insert_ne by lia. done.
Qed.

Lemma sect_length img b : sectors img → 0 ≤ b < FSSIZE → length (sect img b) = Z.to_nat BSIZE.
Proof.
  intros [Hl Hf] Hb. unfold sect. rewrite (proj2 (Z.leb_le _ _)) by lia. destruct (lookup_lt_is_Some_2 img (Z.to_nat b)) as [d Hd]; [rewrite Hl; unfold FSSIZE in *; lia|].
  rewrite Hd. by apply (Forall_lookup_1 _ _ _ _ Hf Hd).
Qed.

Lemma upd_sectors img b d : sectors img → length d = Z.to_nat BSIZE → sectors (upd img b d).
Proof. intros [Hl Hf] Hd. split; [by unfold upd; rewrite length_insert|]. by apply Forall_insert. Qed.

Lemma rsect_run s b : sectors (fsimg s) → 0 ≤ b < FSSIZE → rsect b s = Ret (sect (fsimg s) b) s.
Proof.
  intros [Hl _] Hb. destruct (sector_index b Hb) as [Hi Hlt]. unfold rsect. run. rewrite Hi. unfold sect. rewrite (proj2 (Z.leb_le _ _)) by lia.
  destruct (lookup_lt_is_Some_2 (fsimg s) (Z.to_nat b)) as [d ->]; [lia|done].
Qed.

Lemma wsect_run s b d : sectors (fsimg s) → 0 ≤ b < FSSIZE → wsect b d s = Ret tt (s <| fsimg := upd (fsimg s) b d |>).
Proof.
  intros [Hl _] Hb. destruct (sector_index b Hb) as [Hi Hlt]. unfold wsect. rewrite Hi.
  assert (E : write_sector (Z.to_nat b) d (fsimg s) = upd (fsimg s) b d) by (unfold write_sector; by rewrite (proj2 (Nat.ltb_lt _ _)) by lia).
  rewrite <- E. reflexivity.
Qed.

(** ** Files on the image *)

(** The contents of a file and the blocks it has: [f_nb] of data, and an
    indirect block if [f_ib]. *)
Record file := mkFile { f_type : Z; f_addrs : list Z; f_data : list Z; f_nb : Z; f_ib : bool }.

(** The blocks of a file by number, and its indirect block as number MAXFILE. *)
Definition baddr (img : list (list Z)) (ad : list Z) (k : Z) : Z :=
  let ind := default 0 (ad !! 12%nat) in
  if k <? NDIRECT then default 0 (ad !! Z.to_nat k)
  else if k =? MAXFILE then ind
  else if ind =? 0 then 0 else get32 (sect img ind) (Z.to_nat (4 * (k - NDIRECT))).

Definition slot_in (nb : Z) (ib : bool) (k : Z) : Prop := k < MAXFILE ∧ k < nb ∨ k = MAXFILE ∧ ib = true.

Record file_rep (img : list (list Z)) (fb : Z) (f : file) : Prop := {
  fr_len : length (f_addrs f) = 13%nat;
  fr_nb : 0 ≤ f_nb f ≤ MAXFILE;
  fr_ib : NDIRECT < f_nb f → f_ib f = true;
  fr_size : Z.of_nat (length (f_data f)) ≤ f_nb f * BSIZE;
  fr_range k : 0 ≤ k ≤ MAXFILE → baddr img (f_addrs f) k ≠ 0 → nmeta ≤ baddr img (f_addrs f) k < fb;
  fr_slots k : 0 ≤ k ≤ MAXFILE → baddr img (f_addrs f) k ≠ 0 ↔ slot_in (f_nb f) (f_ib f) k;
  fr_inj k k' : 0 ≤ k ≤ MAXFILE → 0 ≤ k' ≤ MAXFILE → baddr img (f_addrs f) k = baddr img (f_addrs f) k' → baddr img (f_addrs f) k ≠ 0 → k = k';
  fr_bytes o : 0 ≤ o < f_nb f * BSIZE →
    byte_at (sect img (baddr img (f_addrs f) (o / BSIZE))) (Z.to_nat (o mod BSIZE)) = byte_at (f_data f) (Z.to_nat o)
}.

Record image (img : list (list Z)) (fb : Z) (F : list file) : Prop := {
  im_sec : sectors img;
  im_fb : nmeta ≤ fb ≤ FSSIZE;
  im_zero b : fb ≤ b < FSSIZE → sect img b = zeroes;
  im_file i f : F !! i = Some f → file_rep img fb f;
  im_disj i j f g k k' : F !! i = Some f → F !! j = Some g → i ≠ j → 0 ≤ k ≤ MAXFILE → 0 ≤ k' ≤ MAXFILE →
    baddr img (f_addrs f) k = baddr img (f_addrs g) k' → baddr img (f_addrs f) k = 0
}.

Lemma baddr_ind img ad : baddr img ad MAXFILE = default 0 (ad !! 12%nat).
Proof. done. Qed.

Lemma baddr_ext img img' ad k :
  (baddr img ad MAXFILE ≠ 0 → sect img' (baddr img ad MAXFILE) = sect img (baddr img ad MAXFILE)) → baddr img' ad k = baddr img ad k.
Proof.
  rewrite baddr_ind. intros Hs. unfold baddr. destruct (k <? NDIRECT); [done|]. destruct (k =? MAXFILE); [done|].
  destruct (Z.eqb_spec (default 0 (ad !! 12%nat)) 0); [done|]. by rewrite Hs.
Qed.

(** A sector of file [i] changes: what the other files own stays. *)
Lemma other_same img img' fb F i j f g k0 k :
  image img fb F → F !! i = Some f → F !! j = Some g → i ≠ j → 0 ≤ k0 ≤ MAXFILE → 0 ≤ k ≤ MAXFILE →
  (∀ b, b ≠ baddr img (f_addrs f) k0 → sect img' b = sect img b) →
  baddr img' (f_addrs g) k = baddr img (f_addrs g) k ∧
  (baddr img (f_addrs g) k ≠ 0 → sect img' (baddr img (f_addrs g) k) = sect img (baddr img (f_addrs g) k)).
Proof.
  intros HI Hf Hg Hij Hk0 Hk Hs.
  assert (Hne : ∀ k', 0 ≤ k' ≤ MAXFILE → baddr img (f_addrs g) k' ≠ 0 → baddr img (f_addrs g) k' ≠ baddr img (f_addrs f) k0).
  { intros k' Hk' Hnz Heq. apply Hnz. by apply (im_disj _ _ _ HI j i g f k' k0). }
  split; [apply baddr_ext|]; intros Hnz; apply Hs, Hne; try done; unfold MAXFILE, NDIRECT, NINDIRECT, BSIZE in *; lia.
Qed.

Lemma maxfile : MAXFILE = 140.
Proof. done. Qed.

Lemma own_range img fb F i f k :
  image img fb F → F !! i = Some f → 0 ≤ k ≤ MAXFILE → slot_in (f_nb f) (f_ib f) k →
  nmeta ≤ baddr img (f_addrs f) k < fb ∧ 0 < baddr img (f_addrs f) k < FSSIZE.
Proof.
  intros HI Hf Hk Hin. pose proof (im_file _ _ _ HI i f Hf) as HR. apply (fr_slots _ _ _ HR k Hk) in Hin.
  pose proof (fr_range _ _ _ HR k Hk Hin). pose proof (im_fb _ _ _ HI). assert (nmeta = 59) by done. lia.
Qed.

Lemma data_slot img fb f o : file_rep img fb f → 0 ≤ o < f_nb f * BSIZE → 0 ≤ o / BSIZE < f_nb f ∧ 0 ≤ o / BSIZE ≤ MAXFILE ∧ baddr img (f_addrs f) (o / BSIZE) ≠ 0.
Proof.
  intros HR Ho. pose proof (fr_nb _ _ _ HR) as Hnb.
  assert (Hok : 0 ≤ o / BSIZE < f_nb f) by (split; [apply Z.div_pos; [lia|done]|apply Z.div_lt_upper_bound; [done|lia]]).
  split_and!; [lia..|]. apply (fr_slots _ _ _ HR); [lia|]. left. lia.
Qed.

(** A file whose blocks stay as they are. *)
Lemma rep_ext img img' fb fb' f :
  file_rep img fb f → fb ≤ fb' → (∀ k, 0 ≤ k ≤ MAXFILE → baddr img' (f_addrs f) k = baddr img (f_addrs f) k) →
  (∀ k, 0 ≤ k < f_nb f → sect img' (baddr img (f_addrs f) k) = sect img (baddr img (f_addrs f) k)) → file_rep img' fb' f.
Proof.
  intros HR Hfb Ha Hs. pose proof HR as [R1 R2 R3 R4 R5 R6 R7 R8]. split; try done.
  - intros k Hk. rewrite Ha by done. intros Hnz. pose proof (R5 k Hk Hnz). lia.
  - intros k Hk. rewrite Ha by done. by apply R6.
  - intros k k' Hk Hk'. rewrite !Ha by done. by apply R7.
  - intros o Ho. destruct (data_slot _ _ _ _ HR Ho) as (H1 & H2 & _). rewrite Ha, Hs by done. by apply R8.
Qed.

(** Blocks stay with their file, or the block [fb] goes to file [i]. *)
Lemma disj_step img fb (F : list file) img' (F' : list file) (i : nat) :
  image img fb F →
  (∀ j g' k, F' !! j = Some g' → 0 ≤ k ≤ MAXFILE → ∃ g, F !! j = Some g ∧
     (baddr img' (f_addrs g') k = baddr img (f_addrs g) k ∨ baddr img' (f_addrs g') k = fb ∧ j = i)) →
  ∀ i1 j1 f g k k', F' !! i1 = Some f → F' !! j1 = Some g → i1 ≠ j1 → 0 ≤ k ≤ MAXFILE → 0 ≤ k' ≤ MAXFILE →
    baddr img' (f_addrs f) k = baddr img' (f_addrs g) k' → baddr img' (f_addrs f) k = 0.
Proof.
  intros HI Hstep i1 j1 f g k k' Hf Hg Hij Hk Hk' Heq.
  destruct (Hstep i1 f k Hf Hk) as (f0 & Hf0 & H1), (Hstep j1 g k' Hg Hk') as (g0 & Hg0 & H2).
  assert (Hlt : ∀ j h q, F !! j = Some h → 0 ≤ q ≤ MAXFILE → baddr img (f_addrs h) q ≠ fb).
  { intros j h q Hh Hq Hfb. pose proof (im_fb _ _ _ HI) as Hr. assert (nmeta = 59) by done.
    pose proof (fr_range _ _ _ (im_file _ _ _ HI j h Hh) q Hq ltac:(lia)). lia. }
  destruct H1 as [H1|[H1 ->]], H2 as [H2|[H2 ->]]; [|exfalso..].
  - rewrite H1 in *. rewrite H2 in Heq. by apply (im_disj _ _ _ HI i1 j1 f0 g0 k k').
  - apply (Hlt i1 f0 k Hf0 Hk). congruence.
  - apply (Hlt j1 g0 k' Hg0 Hk'). congruence.
  - done.
Qed.

(** Writing to a data block of file [i]. *)
Lemma image_write img fb F i f k d c :
  image img fb F → F !! i = Some f → 0 ≤ k < f_nb f → length d = Z.to_nat BSIZE →
  Z.of_nat (length c) ≤ f_nb f * BSIZE →
  (∀ o, 0 ≤ o < f_nb f * BSIZE →
     byte_at c (Z.to_nat o) = if decide (o / BSIZE = k) then byte_at d (Z.to_nat (o mod BSIZE)) else byte_at (f_data f) (Z.to_nat o)) →
  image (upd img (baddr img (f_addrs f) k) d) fb (<[i := mkFile (f_type f) (f_addrs f) c (f_nb f) (f_ib f)]> F).
Proof.
  intros HI Hf Hk Hd Hc Hb. pose proof (im_file _ _ _ HI i f Hf) as HR. pose proof (fr_nb _ _ _ HR) as Hnb. rewrite maxfile in Hnb.
  destruct (own_range img fb F i f k HI Hf) as [Hx Hxr]; [rewrite maxfile; lia|left; rewrite maxfile; lia|].
  set (x := baddr img (f_addrs f) k) in *. set (img' := upd img x d).
  assert (Hs : ∀ b, b ≠ x → sect img' b = sect img b).
  { intros b Hbx. unfold img'. rewrite sect_upd by (apply HI || lia). by rewrite decide_False. }
  assert (Hoth : ∀ j g k', F !! j = Some g → i ≠ j → 0 ≤ k' ≤ MAXFILE → baddr img' (f_addrs g) k' = baddr img (f_addrs g) k' ∧
    (baddr img (f_addrs g) k' ≠ 0 → sect img' (baddr img (f_addrs g) k') = sect img (baddr img (f_addrs g) k'))).
  { intros j g k' Hg Hij Hk'. apply (other_same img img' fb F i j f g k k'); try done. rewrite maxfile. lia. }
  assert (Hown : ∀ k', baddr img' (f_addrs f) k' = baddr img (f_addrs f) k').
  { intros k'. apply baddr_ext. intros Hnz. apply Hs. intros Heq. apply (fr_inj _ _ _ HR MAXFILE k) in Heq; rewrite ?maxfile in *; try done; lia. }
  assert (HF' : ∀ j g', <[i := mkFile (f_type f) (f_addrs f) c (f_nb f) (f_ib f)]> F !! j = Some g' →
    (j = i ∧ g' = mkFile (f_type f) (f_addrs f) c (f_nb f) (f_ib f)) ∨ (i ≠ j ∧ F !! j = Some g')).
  { intros j g' [(-> & <- & _)|?]%list_lookup_insert_Some; [by left|by right]. }
  split; [by apply upd_sectors; [apply HI|]|apply HI| | |].
  - intros b Hbr. rewrite Hs by lia. by apply (im_zero _ _ _ HI).
  - intros j g [[-> ->]|[Hij Hg]]%HF'.
    + pose proof HR as [R1 R2 R3 R4 R5 R6 R7 R8].
      split; cbn [f_addrs f_nb f_ib f_data f_type]; try done; intros *; rewrite ?Hown; [apply R5|apply R6|apply R7|].
      intros Ho. rewrite Hb by done. destruct (data_slot _ _ _ _ HR Ho) as (H1 & H2 & H3). destruct (decide (o / BSIZE = k)) as [<-|Hne].
      * fold x. unfold img'. rewrite sect_upd by (apply HI || lia). by rewrite decide_True.
      * rewrite Hs; [by apply R8|]. intros Heq. apply Hne. apply R7; rewrite ?maxfile; [lia..|done|done].
    + pose proof (im_file _ _ _ HI j g Hg) as HG. apply (rep_ext img _ fb); [done|done| |]; intros k' Hk'.
      * by apply (Hoth j g k' Hg Hij Hk').
      * pose proof (fr_nb _ _ _ HG) as Hn. apply (Hoth j g k' Hg Hij); [lia|]. apply (fr_slots _ _ _ HG); [lia|]. left. lia.
  - apply (disj_step img fb F _ _ i HI). intros j g' k' [[-> ->]|[Hij Hg]]%HF' Hk'.
    + exists f. split; [done|]. left. apply Hown.
    + exists g'. split; [done|]. left. by apply (Hoth j g' k' Hg Hij Hk').
Qed.

(** File [i] gets the block [fb] as its block number [slot]. *)
Lemma image_grow img fb F i f img' ad' slot nb' ib' :
  image img fb F → F !! i = Some f → fb < FSSIZE → sectors img' → length ad' = 13%nat → 0 ≤ slot ≤ MAXFILE →
  baddr img (f_addrs f) slot = 0 →
  (∀ k, 0 ≤ k ≤ MAXFILE → baddr img' ad' k = if decide (k = slot) then fb else baddr img (f_addrs f) k) →
  (∀ b, sect img' b = sect img b ∨ b = baddr img (f_addrs f) MAXFILE ∧ b ≠ 0) →
  f_nb f ≤ nb' ≤ MAXFILE → (NDIRECT < nb' → ib' = true) → (∀ k, 0 ≤ k ≤ MAXFILE → slot_in nb' ib' k ↔ slot_in (f_nb f) (f_ib f) k ∨ k = slot) →
  image img' (fb + 1) (<[i := mkFile (f_type f) ad' (f_data f) nb' ib']> F).
Proof.
  intros HI Hf Hfb Hsec Hlen Hslot Hz Ha Hs Hnb Hib Hin. pose proof (im_file _ _ _ HI i f Hf) as HR. pose proof (im_fb _ _ _ HI) as Hfr.
  assert (Hm : nmeta = 59) by done. assert (Hmax : 0 ≤ MAXFILE ≤ MAXFILE) by (rewrite maxfile; lia).
  assert (Hs' : ∀ b, b ≠ baddr img (f_addrs f) MAXFILE → sect img' b = sect img b) by (intros b Hb; destruct (Hs b) as [?|[? _]]; done).
  assert (Hnew : sect img' fb = zeroes).
  { rewrite Hs'; [apply (im_zero _ _ _ HI); lia|]. intros Heq. pose proof (fr_range _ _ _ HR MAXFILE Hmax ltac:(lia)). lia. }
  assert (Hoth : ∀ j g k', F !! j = Some g → i ≠ j → 0 ≤ k' ≤ MAXFILE → baddr img' (f_addrs g) k' = baddr img (f_addrs g) k' ∧
    (baddr img (f_addrs g) k' ≠ 0 → sect img' (baddr img (f_addrs g) k') = sect img (baddr img (f_addrs g) k'))).
  { intros j g k' Hg Hij Hk'. by apply (other_same img img' fb F i j f g MAXFILE k'). }
  assert (HF' : ∀ j g', <[i := mkFile (f_type f) ad' (f_data f) nb' ib']> F !! j = Some g' →
    (j = i ∧ g' = mkFile (f_type f) ad' (f_data f) nb' ib') ∨ (i ≠ j ∧ F !! j = Some g')).
  { intros j g' [(-> & <- & _)|?]%list_lookup_insert_Some; [by left|by right]. }
  split; [done|lia| | |].
  - intros b Hb. rewrite Hs'; [apply (im_zero _ _ _ HI); lia|]. intros Heq. pose proof (fr_range _ _ _ HR MAXFILE Hmax ltac:(lia)). lia.
  - intros j g [[-> ->]|[Hij Hg]]%HF'.
    + pose proof HR as [R1 R2 R3 R4 R5 R6 R7 R8].
      assert (Hns : ¬ slot_in (f_nb f) (f_ib f) slot) by (intros Hsl; by apply (R6 slot Hslot) in Hsl).
      split; cbn [f_addrs f_nb f_ib f_data f_type]; try done; [lia|unfold BSIZE in *; lia|..].
      * intros k Hk. rewrite Ha by done. destruct (decide (k = slot)); [lia|]. intros Hnz. pose proof (R5 k Hk Hnz). lia.
      * intros k Hk. rewrite Ha, Hin by done. destruct (decide (k = slot)) as [->|Hne]; [split; [tauto|lia]|]. rewrite R6 by done. tauto.
      * intros k k' Hk Hk'. rewrite !Ha by done. destruct (decide (k = slot)), (decide (k' = slot)); [congruence| | |by apply R7].
        -- intros Heq _. pose proof (R5 k' Hk' ltac:(lia)). lia.
        -- intros Heq Hnz. pose proof (R5 k Hk Hnz). lia.
      * intros o Ho. assert (Hok : 0 ≤ o / BSIZE < nb') by (split; [apply Z.div_pos; [lia|done]|apply Z.div_lt_upper_bound; [done|lia]]).
        rewrite Ha by lia. destruct (decide (o / BSIZE = slot)) as [Heq|Hne].
        -- rewrite Hnew. unfold zeroes, byte_at at 1. rewrite lookup_replicate_2; [|pose proof (Z.mod_pos_bound o BSIZE ltac:(done)); unfold BSIZE in *; lia].
           unfold byte_at. rewrite lookup_ge_None_2; [done|]. assert (f_nb f ≤ slot).
           { destruct (Z.leb_spec (f_nb f) slot); [done|]. exfalso. apply Hns. left. unfold slot_in in Hin. lia. }
           pose proof (Z_div_mod_eq_full o BSIZE). pose proof (Z.mod_pos_bound o BSIZE ltac:(done)). unfold BSIZE in *. lia.
        -- assert (Hold : slot_in (f_nb f) (f_ib f) (o / BSIZE)).
           { destruct (proj1 (Hin (o / BSIZE) ltac:(lia))) as [?|?]; [left; lia|done|done]. }
           assert (Holt : o / BSIZE < f_nb f) by (destruct Hold as [?|?]; lia).
           rewrite Hs'; [apply R8; split; [lia|]; pose proof (Z_div_mod_eq_full o BSIZE); pose proof (Z.mod_pos_bound o BSIZE ltac:(done)); unfold BSIZE in *; lia|].
           intros Heq. apply R7 in Heq; [lia|lia|done|]. apply R6; [lia|done].
    + pose proof (im_file _ _ _ HI j g Hg) as HG. apply (rep_ext img _ fb); [done|lia| |]; intros k' Hk'.
      * by apply (Hoth j g k' Hg Hij Hk').
      * pose proof (fr_nb _ _ _ HG) as Hn. apply (Hoth j g k' Hg Hij); [lia|]. apply (fr_slots _ _ _ HG); [lia|]. left. lia.
  - apply (disj_step img fb F _ _ i HI). intros j g' k' [[-> ->]|[Hij Hg]]%HF' Hk'.
    + exists f. split; [done|]. cbn [f_addrs]. rewrite Ha by done. destruct (decide (k' = slot)); [by right|by left].
    + exists g'. split; [done|]. left. by apply (Hoth j g' k' Hg Hij Hk').
Qed.

Lemma grow_direct img fb F i f :
  image img fb F → F !! i = Some f → fb < FSSIZE → f_nb f < NDIRECT →
  image img (fb + 1) (<[i := mkFile (f_type f) (<[Z.to_nat (f_nb f) := fb]> (f_addrs f)) (f_data f) (f_nb f + 1) (f_ib f)]> F).
Proof.
  intros HI Hf Hfb Hnb. pose proof (im_file _ _ _ HI i f Hf) as HR. pose proof (fr_len _ _ _ HR) as Hlen. pose proof (fr_nb _ _ _ HR) as Hn.
  change NDIRECT with 12 in *. rewrite maxfile in *.
  assert (Hns : ¬ slot_in (f_nb f) (f_ib f) (f_nb f)) by (unfold slot_in; rewrite maxfile; lia).
  apply (image_grow img fb F i f img _ (f_nb f)); try done; rewrite ?maxfile; try lia.
  - apply HI.
  - by rewrite length_insert.
  - destruct (Z.eq_dec (baddr img (f_addrs f) (f_nb f)) 0) as [?|Hnz]; [done|]. exfalso. apply Hns. apply (fr_slots _ _ _ HR); rewrite ?maxfile; [lia|done].
  - intros k Hk. unfold baddr. change NDIRECT with 12. rewrite maxfile. rewrite (list_lookup_insert_ne _ _ 12%nat) by lia.
    destruct (Z.ltb_spec k 12); [|by rewrite decide_False by lia]. destruct (decide (k = f_nb f)) as [->|Hne].
    + rewrite list_lookup_insert_eq by lia. done.
    + rewrite list_lookup_insert_ne by lia. done.
  - by left.
  - intros Hlt. change NDIRECT with 12 in Hlt. lia.
  - intros k Hk. unfold slot_in. rewrite maxfile. intuition lia.
Qed.

Lemma get32_zeroes o : get32 zeroes o = 0.
Proof.
  assert (Hb : ∀ k, byte_at zeroes k = 0).
  { intros k. unfold byte_at, zeroes. destruct (replicate (Z.to_nat BSIZE) 0 !! k) eqn:E; [|done]. by apply lookup_replicate in E as [-> _]. }
  unfold get32. by rewrite !Hb.
Qed.

Lemma grow_ind img fb F i f :
  image img fb F → F !! i = Some f → fb < FSSIZE → f_ib f = false →
  image img (fb + 1) (<[i := mkFile (f_type f) (<[12%nat := fb]> (f_addrs f)) (f_data f) (f_nb f) true]> F).
Proof.
  intros HI Hf Hfb Hib. pose proof (im_file _ _ _ HI i f Hf) as HR. pose proof (fr_len _ _ _ HR) as Hlen. pose proof (fr_nb _ _ _ HR) as Hn.
  pose proof (im_fb _ _ _ HI) as Hfr. assert (Hm : nmeta = 59) by done.
  assert (Hz : baddr img (f_addrs f) MAXFILE = 0).
  { destruct (Z.eq_dec (baddr img (f_addrs f) MAXFILE) 0) as [?|Hnz]; [done|]. apply (fr_slots _ _ _ HR) in Hnz; [|rewrite maxfile; lia].
    unfold slot_in in Hnz. rewrite Hib in Hnz. by destruct Hnz as [?|[_ ?]]; [lia|]. }
  apply (image_grow img fb F i f img _ MAXFILE); try done; rewrite ?maxfile in *; try lia.
  - apply HI.
  - by rewrite length_insert.
  - intros k Hk. assert (Hz' : default 0 (f_addrs f !! 12%nat) = 0) by exact Hz. unfold baddr. rewrite Hz'. change NDIRECT with 12. rewrite maxfile.
    rewrite list_lookup_insert_eq by lia. cbn [default from_option id]. destruct (Z.ltb_spec k 12).
    + rewrite decide_False by lia. rewrite list_lookup_insert_ne by lia. done.
    + destruct (Z.eqb_spec k 140) as [->|Hne]; [by rewrite decide_True|]. rewrite decide_False by done. rewrite (proj2 (Z.eqb_neq fb 0)) by lia.
      rewrite (im_zero _ _ _ HI fb) by lia. apply get32_zeroes.
  - by left.
  - intros k Hk. unfold slot_in. rewrite maxfile, Hib. split; [|intros [?| ->]].
    + intros [?|?]; [tauto|tauto].
    + destruct H as [?|[? ?]]; [tauto|done].
    + by right.
Qed.

Lemma grow_indirect img fb F i f :
  image img fb F → F !! i = Some f → fb < FSSIZE → f_ib f = true → NDIRECT ≤ f_nb f < MAXFILE →
  let b := default 0 (f_addrs f !! 12%nat) in
  image (upd img b (put32 (Z.to_nat (4 * (f_nb f - NDIRECT))) fb (sect img b))) (fb + 1)
    (<[i := mkFile (f_type f) (f_addrs f) (f_data f) (f_nb f + 1) true]> F).
Proof.
  intros HI Hf Hfb Hib Hnb b. pose proof (im_file _ _ _ HI i f Hf) as HR. pose proof (fr_len _ _ _ HR) as Hlen.
  pose proof (im_fb _ _ _ HI) as Hfr. assert (Hm : nmeta = 59) by done. change NDIRECT with 12 in *.
  destruct (own_range img fb F i f MAXFILE HI Hf) as [Hb1 Hb2]; [rewrite maxfile; lia|by right|]. rewrite baddr_ind in Hb1, Hb2. fold b in Hb1, Hb2.
  pose proof (im_sec _ _ _ HI) as Hsec. assert (Hsl : length (sect img b) = 512%nat) by (apply (sect_length img b Hsec); lia).
  assert (Hns : ¬ slot_in (f_nb f) (f_ib f) (f_nb f)) by (unfold slot_in; rewrite maxfile in *; lia).
  apply (image_grow img fb F i f _ _ (f_nb f)); try done; rewrite ?maxfile in *; try lia.
  - apply upd_sectors; [done|]. rewrite length_put32, Hsl. done.
  - destruct (Z.eq_dec (baddr img (f_addrs f) (f_nb f)) 0) as [?|Hnz]; [done|]. exfalso. apply Hns. apply (fr_slots _ _ _ HR); rewrite ?maxfile; [lia|done].
  - intros k Hk. unfold baddr. change NDIRECT with 12. rewrite maxfile. fold b. destruct (Z.ltb_spec k 12); [by rewrite decide_False by lia|].
    destruct (Z.eqb_spec k 140) as [->|Hne]; [by rewrite decide_False by lia|]. rewrite (proj2 (Z.eqb_neq b 0)) by lia.
    rewrite sect_upd by (done || lia). rewrite (decide_True (P := b = b)) by done. destruct (decide (k = f_nb f)) as [->|Hk'].
    + rewrite get32_put32 by lia. apply u32_small. unfold is_u32, FSSIZE in *. lia.
    + apply get32_put32_other. lia.
  - intros c. rewrite sect_upd by (done || lia). destruct (decide (c = b)) as [->|?]; [|by left]. right. rewrite <- (maxfile), baddr_ind. fold b. lia.
  - intros k Hk. unfold slot_in. rewrite maxfile, Hib. intuition lia.
Qed.

(** ** Appending to a file *)

Definition with_addrs (ad : list Z) (di : dinode) : dinode :=
  mkDinode (d_type di) (d_major di) (d_minor di) (d_nlink di) (d_size di) ad.

(** All but the data blocks is as it was. *)
Record keep (s s' : mkfs) : Prop := {
  kp_inode : freeinode s' = freeinode s;
  kp_sb : msb s' = msb s;
  kp_meta b : b < nmeta → sect (fsimg s') b = sect (fsimg s) b
}.

Lemma keep_trans s1 s2 s3 : keep s1 s2 → keep s2 s3 → keep s1 s3.
Proof. intros [A1 A2 A3] [B1 B2 B3]. split; [congruence..|]. intros b Hb. by rewrite B3, A3. Qed.

(** Between calls of iappend a file has no more blocks than it needs. *)
Definition settled (f : file) : Prop := f_ib f = (NDIRECT <? f_nb f).
Definition nblocks_of (f : file) : Z := f_nb f + (if f_ib f then 1 else 0).

Lemma alloc_old s k din : is_u32 (addr din k) → addr din k ≠ 0 → alloc_addr k din s = Ret din s.
Proof. intros Hu Hnz. unfold alloc_addr. rewrite xint_small by done. by rewrite (proj2 (Z.eqb_neq _ _) Hnz). Qed.

Lemma alloc_new s k din :
  addr din k = 0 → 0 ≤ freeblock s < FSSIZE → alloc_addr k din s = Ret (set_addr k (freeblock s) din) (s <| freeblock := freeblock s + 1 |>).
Proof.
  unfold FSSIZE. intros Hz Hfb. unfold alloc_addr. rewrite Hz. change (xint 0 =? 0) with true. cbv iota. unfold next_block.
  assert (E : (b ← gets freeblock; modify (λ s0, s0 <| freeblock := uadd b 1 |>);; mret b) s = Ret (freeblock s) (s <| freeblock := freeblock s + 1 |>)).
  { run. run. unfold uadd. by rewrite u32_small by (unfold is_u32; lia). }
  rewrite (bind_run _ _ _ _ _ E). by rewrite xint_small by (unfold is_u32; lia).
Qed.

Lemma addr_baddr img fb F i f din k :
  image img fb F → F !! i = Some f → d_addrs din = f_addrs f → 0 ≤ k ≤ NDIRECT →
  is_u32 (addr din k) ∧ addr din k = baddr img (f_addrs f) (if k =? NDIRECT then MAXFILE else k).
Proof.
  intros HI Hf Hd Hk. change NDIRECT with 12 in *.
  assert (Heq : addr din k = baddr img (f_addrs f) (if k =? 12 then MAXFILE else k)).
  { unfold addr. rewrite Hd. destruct (Z.eqb_spec k 12) as [->|Hne]; [done|]. unfold baddr. change NDIRECT with 12. by rewrite (proj2 (Z.ltb_lt k 12)) by lia. }
  split; [|done]. rewrite Heq. set (k' := if k =? 12 then MAXFILE else k). assert (Hk' : 0 ≤ k' ≤ MAXFILE).
  { unfold k'. rewrite maxfile. destruct (k =? 12); lia. }
  unfold is_u32. destruct (Z.eq_dec (baddr img (f_addrs f) k') 0) as [->|Hnz]; [lia|].
  pose proof (fr_range _ _ _ (im_file _ _ _ HI i f Hf) k' Hk' Hnz). pose proof (im_fb _ _ _ HI). assert (nmeta = 59) by done. unfold FSSIZE in *. lia.
Qed.

(** The part of find_block behind the indirect block. *)
Definition find_indirect (fbn : Z) (din : dinode) : M mkfs (dinode * Z) :=
  indirect ← rsect (xint (addr din NDIRECT));
  let o := Z.to_nat (4 * (fbn - NDIRECT)) in
  indirect ← (if get32 indirect o =? 0 then
                b ← next_block;
                let indirect := put32 o (xint b) indirect in
                wsect (xint (addr din NDIRECT)) indirect;;
                mret indirect
              else mret indirect);
  mret (din, xint (get32 indirect o)).

(** What finding the block [fbn] of file [i] does. *)
Definition found (s : mkfs) (F : list file) (i : nat) (f : file) (fbn : Z) (din : dinode) (o : outcome mkfs (dinode * Z)) : Prop :=
  ∃ s' f', o = Ret (with_addrs (f_addrs f') din, baddr (fsimg s') (f_addrs f') fbn) s' ∧ keep s s' ∧
    image (fsimg s') (freeblock s') (<[i := f']> F) ∧ f_data f' = f_data f ∧ f_type f' = f_type f ∧
    f_nb f' = Z.max (f_nb f) (fbn + 1) ∧ settled f' ∧ freeblock s' = freeblock s + nblocks_of f' - nblocks_of f.

Lemma with_addrs_id din f : d_addrs din = f_addrs f → with_addrs (f_addrs f) din = din.
Proof. intros Hd. destruct din. cbn in *. by subst. Qed.

Lemma keep_refl s : keep s s.
Proof. done. Qed.

Lemma found_old s F i f fbn din :
  image (fsimg s) (freeblock s) F → F !! i = Some f → d_addrs din = f_addrs f → settled f → 0 ≤ fbn < f_nb f →
  found s F i f fbn din (find_block fbn din s).
Proof.
  intros HI Hf Hd Hset Hfbn. pose proof (im_file _ _ _ HI i f Hf) as HR. pose proof (fr_nb _ _ _ HR) as Hnb. rewrite maxfile in Hnb.
  assert (Hs : slot_in (f_nb f) (f_ib f) fbn) by (left; rewrite maxfile; lia).
  pose proof (own_range _ _ _ _ _ fbn HI Hf ltac:(rewrite maxfile; lia) Hs) as [_ Hx]. unfold FSSIZE in Hx.
  exists s, f. split_and!; [|done|by rewrite list_insert_id|done|done|lia|done|lia]. rewrite with_addrs_id by done. unfold find_block.
  change NDIRECT with 12 in *. destruct (Z.ltb_spec fbn 12) as [Hlt|Hge].
  - destruct (addr_baddr _ _ _ _ _ _ fbn HI Hf Hd ltac:(change NDIRECT with 12; lia)) as [Hu Ha]. change NDIRECT with 12 in Ha. rewrite (proj2 (Z.eqb_neq fbn 12)) in Ha by lia.
    rewrite (bind_run _ _ _ _ _ (alloc_old s fbn din Hu ltac:(lia))). rewrite xint_small, Ha by done. done.
  - assert (Hib : f_ib f = true) by (rewrite Hset; apply Z.ltb_lt; change NDIRECT with 12; lia).
    destruct (addr_baddr _ _ _ _ _ _ 12 HI Hf Hd ltac:(change NDIRECT with 12; lia)) as [Hu Ha]. change (12 =? NDIRECT) with true in Ha. cbv iota in Ha.
    destruct (own_range _ _ _ _ _ MAXFILE HI Hf ltac:(rewrite maxfile; lia) ltac:(by right)) as [_ Hy]. rewrite <- Ha in Hy.
    rewrite (bind_run _ _ _ _ _ (alloc_old s 12 din Hu ltac:(lia))). rewrite xint_small by done.
    rewrite (bind_run _ _ _ _ _ (rsect_run s (addr din 12) (im_sec _ _ _ HI) ltac:(lia))).
    assert (Hg : get32 (sect (fsimg s) (addr din 12)) (Z.to_nat (4 * (fbn - 12))) = baddr (fsimg s) (f_addrs f) fbn).
    { rewrite Ha, baddr_ind in *. unfold baddr. change NDIRECT with 12. rewrite maxfile. rewrite (proj2 (Z.ltb_ge fbn 12)) by lia.
      rewrite (proj2 (Z.eqb_neq fbn 140)) by lia. by rewrite (proj2 (Z.eqb_neq (default 0 (f_addrs f !! 12%nat)) 0)) by lia. }
    rewrite Hg. rewrite (proj2 (Z.eqb_neq _ 0)) by lia. run. rewrite Hg, xint_small by (unfold is_u32; lia). done.
Qed.

Lemma found_direct s F i f din :
  image (fsimg s) (freeblock s) F → F !! i = Some f → d_addrs din = f_addrs f → settled f → f_nb f < NDIRECT → freeblock s < FSSIZE →
  found s F i f (f_nb f) din (find_block (f_nb f) din s).
Proof.
  intros HI Hf Hd Hset Hlt Hfb. pose proof (im_file _ _ _ HI i f Hf) as HR. pose proof (fr_nb _ _ _ HR) as Hnb. pose proof (fr_len _ _ _ HR) as Hlen.
  pose proof (im_fb _ _ _ HI) as Hfr. assert (Hm : nmeta = 59) by done. change NDIRECT with 12 in *. rewrite maxfile in *.
  destruct (addr_baddr _ _ _ _ _ _ (f_nb f) HI Hf Hd ltac:(change NDIRECT with 12; lia)) as [Hu Ha]. change NDIRECT with 12 in Ha.
  rewrite (proj2 (Z.eqb_neq (f_nb f) 12)) in Ha by lia.
  assert (Hz : addr din (f_nb f) = 0).
  { rewrite Ha. destruct (Z.eq_dec (baddr (fsimg s) (f_addrs f) (f_nb f)) 0) as [?|Hnz]; [done|]. apply (fr_slots _ _ _ HR) in Hnz; [|rewrite maxfile; lia].
    unfold slot_in in Hnz. rewrite maxfile in Hnz. lia. }
  eexists (s <| freeblock := freeblock s + 1 |>), _. split_and!; [|done|by apply (grow_direct _ _ _ _ _ HI Hf)|done|done|cbn; lia| |].
  - unfold find_block. change NDIRECT with 12. rewrite (proj2 (Z.ltb_lt (f_nb f) 12)) by lia.
    rewrite (bind_run _ _ _ _ _ (alloc_new s (f_nb f) din Hz ltac:(lia))). cbn [f_addrs]. unfold set_addr, with_addrs. rewrite Hd.
    assert (Hnew : default 0 (<[Z.to_nat (f_nb f) := freeblock s]> (f_addrs f) !! Z.to_nat (f_nb f)) = freeblock s) by (by rewrite list_lookup_insert_eq by lia).
    unfold addr, baddr. cbn [d_addrs]. change NDIRECT with 12. rewrite (proj2 (Z.ltb_lt (f_nb f) 12)) by lia. rewrite Hnew.
    rewrite xint_small by (unfold is_u32, FSSIZE in *; lia). done.
  - unfold settled in *. cbn [f_ib f_nb]. rewrite Hset. change NDIRECT with 12. by rewrite !(proj2 (Z.ltb_ge _ _)) by lia.
  - unfold nblocks_of. cbn [f_ib f_nb]. sst. lia.
Qed.

Lemma found_indirect s F i f din :
  image (fsimg s) (freeblock s) F → F !! i = Some f → d_addrs din = f_addrs f → f_ib f = true → NDIRECT ≤ f_nb f < MAXFILE → freeblock s < FSSIZE →
  found s F i f (f_nb f) din (find_indirect (f_nb f) din s).
Proof.
  intros HI Hf Hd Hib Hnb Hfb. pose proof (im_file _ _ _ HI i f Hf) as HR.
  pose proof (im_fb _ _ _ HI) as Hfr. assert (Hm : nmeta = 59) by done. change NDIRECT with 12 in *. rewrite maxfile in Hnb.
  destruct (addr_baddr _ _ _ _ _ _ 12 HI Hf Hd ltac:(change NDIRECT with 12; lia)) as [Hu Ha]. change (12 =? NDIRECT) with true in Ha. cbv iota in Ha.
  destruct (own_range _ _ _ _ _ MAXFILE HI Hf ltac:(rewrite maxfile; lia) ltac:(by right)) as [Hy1 Hy]. rewrite <- Ha in Hy1, Hy.
  set (b := addr din 12) in *. set (o := Z.to_nat (4 * (f_nb f - 12))). set (d := put32 o (freeblock s) (sect (fsimg s) b)).
  assert (Hb : default 0 (f_addrs f !! 12%nat) = b) by (symmetry; exact Ha).
  assert (Hz : get32 (sect (fsimg s) b) o = 0).
  { assert (Hbz : baddr (fsimg s) (f_addrs f) (f_nb f) = 0).
    { destruct (Z.eq_dec (baddr (fsimg s) (f_addrs f) (f_nb f)) 0) as [?|Hnz]; [done|]. apply (fr_slots _ _ _ HR) in Hnz; [|rewrite maxfile; lia].
      unfold slot_in in Hnz. rewrite maxfile in Hnz. lia. }
    unfold baddr in Hbz. change NDIRECT with 12 in Hbz. rewrite maxfile, Hb in Hbz. rewrite (proj2 (Z.ltb_ge (f_nb f) 12)) in Hbz by lia.
    rewrite (proj2 (Z.eqb_neq (f_nb f) 140)) in Hbz by lia. by rewrite (proj2 (Z.eqb_neq b 0)) in Hbz by lia. }
  assert (Hsl : length (sect (fsimg s) b) = 512%nat) by (apply sect_length; [apply HI|lia]).
  assert (Hgd : get32 d o = freeblock s).
  { unfold d. rewrite get32_put32 by (unfold o; lia). apply u32_small. unfold is_u32, FSSIZE in *. lia. }
  pose proof (grow_indirect _ _ _ _ _ HI Hf Hfb Hib ltac:(change NDIRECT with 12; rewrite maxfile; lia)) as HI'. cbv zeta in HI'. rewrite Hb in HI'. change NDIRECT with 12 in HI'. fold o d in HI'.
  eexists (s <| freeblock := freeblock s + 1 |> <| fsimg := upd (fsimg s) b d |>), _. split_and!; [| |exact HI'|done|done|cbn; lia| |].
  - unfold find_indirect. change NDIRECT with 12. fold b. rewrite (xint_small b Hu). rewrite (bind_run _ _ _ _ _ (rsect_run s b (im_sec _ _ _ HI) ltac:(lia))).
    fold o. rewrite Hz. change (0 =? 0) with true. cbv iota.
    assert (E : next_block s = Ret (freeblock s) (s <| freeblock := freeblock s + 1 |>)).
    { unfold next_block. run. run. unfold uadd. by rewrite u32_small by (unfold is_u32, FSSIZE in *; lia). }
    assert (E2 : (b0 ← next_block; let indirect := put32 o (xint b0) (sect (fsimg s) b) in wsect b indirect;; mret indirect) s = Ret d (s <| freeblock := freeblock s + 1 |> <| fsimg := upd (fsimg s) b d |>)).
    { rewrite (bind_run _ _ _ _ _ E). cbv zeta. rewrite xint_small by (unfold is_u32, FSSIZE in *; lia). fold d.
      run_by (apply wsect_run; [apply HI|lia]). done. }
    rewrite (bind_run _ _ _ _ _ E2). rewrite Hgd, xint_small by (unfold is_u32, FSSIZE in *; lia). cbn [f_addrs]. rewrite with_addrs_id by done.
    unfold baddr. change NDIRECT with 12. rewrite maxfile, Hb. rewrite (proj2 (Z.ltb_ge (f_nb f) 12)) by lia.
    rewrite (proj2 (Z.eqb_neq (f_nb f) 140)) by lia. rewrite (proj2 (Z.eqb_neq b 0)) by lia. sst.
    rewrite sect_upd by (apply HI || lia). rewrite decide_True by done. fold o. by rewrite Hgd.
  - split; [done|done|]. intros c Hc. sst. rewrite sect_upd by (apply HI || lia). by rewrite decide_False by lia.
  - unfold settled. cbn [f_ib f_nb]. symmetry. apply Z.ltb_lt. change NDIRECT with 12. lia.
  - unfold nblocks_of. rewrite Hib. cbn [f_ib f_nb]. sst. lia.
Qed.

Lemma find_block_run s F i f din fbn :
  image (fsimg s) (freeblock s) F → F !! i = Some f → d_addrs din = f_addrs f → settled f → 0 ≤ fbn ≤ f_nb f → fbn < MAXFILE →
  freeblock s + (if fbn =? f_nb f then if f_nb f =? NDIRECT then 2 else 1 else 0) ≤ FSSIZE →
  found s F i f fbn din (find_block fbn din s).
Proof.
  intros HI Hf Hd Hset Hfbn Hmax Hroom. destruct (Z.eqb_spec fbn (f_nb f)) as [->|Hne]; [|apply found_old; try done; lia].
  destruct (Z.ltb_spec (f_nb f) NDIRECT) as [Hlt|Hge]; [apply found_direct; try done; destruct (f_nb f =? NDIRECT); lia|].
  assert (Hfind : ∀ s, find_block (f_nb f) din s = (din ← alloc_addr NDIRECT din; find_indirect (f_nb f) din) s).
  { intros s0. unfold find_block. by rewrite (proj2 (Z.ltb_ge _ _)) by done. }
  rewrite Hfind. destruct (addr_baddr _ _ _ _ _ _ NDIRECT HI Hf Hd ltac:(change NDIRECT with 12; lia)) as [Hu Ha]. rewrite Z.eqb_refl in Ha.
  destruct (Z.eqb_spec (f_nb f) NDIRECT) as [H12|Hn12].
  - assert (Hib : f_ib f = false) by (rewrite Hset; apply Z.ltb_ge; lia). pose proof (im_fb _ _ _ HI) as Hfr. assert (Hm : nmeta = 59) by done.
    assert (Hz : addr din NDIRECT = 0).
    { rewrite Ha. destruct (Z.eq_dec (baddr (fsimg s) (f_addrs f) MAXFILE) 0) as [?|Hnz]; [done|].
      apply (fr_slots _ _ _ (im_file _ _ _ HI i f Hf)) in Hnz; [|rewrite maxfile; lia]. destruct Hnz as [?|[_ ?]]; [lia|congruence]. }
    rewrite (bind_run _ _ _ _ _ (alloc_new s NDIRECT din Hz ltac:(lia))).
    pose proof (grow_ind _ _ _ _ _ HI Hf ltac:(lia) Hib) as HI1. set (f1 := mkFile _ _ _ _ true) in HI1.
    set (s1 := s <| freeblock := freeblock s + 1 |>). change (freeblock s + 1) with (freeblock s1) in HI1. change (fsimg s) with (fsimg s1) in HI1.
    assert (Hf1 : <[i := f1]> F !! i = Some f1) by (apply list_lookup_insert_eq; by eapply lookup_lt_Some).
    destruct (found_indirect s1 _ i f1 (set_addr NDIRECT (freeblock s) din) HI1 Hf1) as (s2 & f2 & E & Hk & HI2 & Hc & Ht & Hn & Hs2 & Hfb); try done.
    { cbn. by rewrite Hd. }
    { unfold s1. sst. lia. }
    rewrite list_insert_insert_eq in HI2. exists s2, f2. split_and!; try done.
    + by apply (keep_trans _ s1).
    + rewrite Hfb. unfold s1, nblocks_of. rewrite Hib. cbn [f1 f_nb f_ib]. sst. lia.
  - assert (Hib : f_ib f = true) by (rewrite Hset; apply Z.ltb_lt; lia).
    destruct (own_range _ _ _ _ _ MAXFILE HI Hf ltac:(rewrite maxfile; lia) ltac:(by right)) as [_ Hy]. rewrite <- Ha in Hy.
    rewrite (bind_run _ _ _ _ _ (alloc_old s NDIRECT din Hu ltac:(lia))). apply found_indirect; try done; lia.
Qed.

(** The blocks that [l] bytes take. *)
Definition nblk (l : Z) : Z := (l + (BSIZE - 1)) / BSIZE.
Definition cost (l : Z) : Z := nblk l + (if NDIRECT <? nblk l then 1 else 0).

Definition tight (f : file) : Prop := f_nb f = nblk (Z.of_nat (length (f_data f))) ∧ settled f.

Lemma tight_cost f : tight f → nblocks_of f = cost (Z.of_nat (length (f_data f))).
Proof. intros [Hn Hs]. unfold nblocks_of, cost. by rewrite Hs, Hn. Qed.

(** [off] and the end [off + n1] of the bytes written lie in block [fbn]. *)
Lemma chunk off n : 0 ≤ off → 0 < n →
  let fbn := off / BSIZE in let n1 := Z.min n ((fbn + 1) * BSIZE - off) in
  0 < n1 ≤ n ∧ 0 ≤ fbn ≤ nblk off ∧ (fbn = nblk off ↔ off mod BSIZE = 0) ∧ nblk (off + n1) = Z.max (nblk off) (fbn + 1) ∧
  off - fbn * BSIZE = off mod BSIZE ∧ off mod BSIZE + n1 ≤ BSIZE.
Proof.
  intros Ho Hn fbn n1. unfold nblk, n1, fbn. change (BSIZE - 1) with 511. change BSIZE with 512.
  pose proof (Z_div_mod_eq_full off 512). pose proof (Z.mod_pos_bound off 512 ltac:(lia)).
  pose proof (Z_div_mod_eq_full (off + 511) 512). pose proof (Z.mod_pos_bound (off + 511) 512 ltac:(lia)).
  set (m := Z.min n ((off / 512 + 1) * 512 - off)). pose proof (Z_div_mod_eq_full (off + m + 511) 512). pose proof (Z.mod_pos_bound (off + m + 511) 512 ltac:(lia)).
  assert (m = n ∨ m = (off / 512 + 1) * 512 - off) by lia. split_and!; lia.
Qed.

Lemma cost_mono l l' : 0 ≤ l ≤ l' → nblk l ≤ nblk l' ∧ cost l ≤ cost l'.
Proof.
  intros Hl. assert (Hn : nblk l ≤ nblk l') by (apply Z.div_le_mono; unfold BSIZE; lia). split; [done|].
  unfold cost. destruct (Z.ltb_spec NDIRECT (nblk l)), (Z.ltb_spec NDIRECT (nblk l')); lia.
Qed.

Lemma byte_at_app c bs x : byte_at (c ++ bs) x = if decide (x < length c)%nat then byte_at c x else byte_at bs (x - length c).
Proof. unfold byte_at. destruct (decide (x < length c)%nat); [by rewrite lookup_app_l|by rewrite lookup_app_r by lia]. Qed.

Lemma byte_at_ge c x : (length c <= x)%nat → byte_at c x = 0.
Proof. intros Hx. unfold byte_at. by rewrite lookup_ge_None_2. Qed.

(** The bytes [bs] behind the [off] bytes of a file, in one block of it. *)
Lemma image_append img fb F i f bs :
  image img fb F → F !! i = Some f →
  let off := Z.of_nat (length (f_data f)) in let fbn := off / BSIZE in
  fbn < f_nb f → off mod BSIZE + Z.of_nat (length bs) ≤ BSIZE →
  let x := baddr img (f_addrs f) fbn in
  image (upd img x (list_inserts (Z.to_nat (off mod BSIZE)) bs (sect img x))) fb
    (<[i := mkFile (f_type f) (f_addrs f) (f_data f ++ bs) (f_nb f) (f_ib f)]> F).
Proof.
  intros HI Hf off fbn Hlt Hfit x. pose proof (im_file _ _ _ HI i f Hf) as HR. pose proof (fr_nb _ _ _ HR) as Hnb.
  pose proof (Z.mod_pos_bound off BSIZE ltac:(done)) as Hm. pose proof (Z_div_mod_eq_full off BSIZE) as Hdm. fold fbn in Hdm.
  assert (Hf0 : 0 ≤ fbn) by (apply Z.div_pos; [lia|done]).
  destruct (own_range img fb F i f fbn HI Hf) as [_ Hx]; [lia|left; lia|]. fold x in Hx.
  assert (Hsl : length (sect img x) = Z.to_nat BSIZE) by (apply sect_length; [apply HI|lia]).
  apply image_write; try done.
  - by rewrite length_inserts.
  - rewrite length_app. change BSIZE with 512 in *. lia.
  - intros o Ho. pose proof (Z.mod_pos_bound o BSIZE ltac:(done)) as Hmo. pose proof (Z_div_mod_eq_full o BSIZE) as Hdo.
    rewrite byte_at_app. destruct (decide (o / BSIZE = fbn)) as [Heq|Hne].
    + assert (Hold : byte_at (sect img x) (Z.to_nat (o mod BSIZE)) = byte_at (f_data f) (Z.to_nat o)) by (unfold x; rewrite <- Heq; by apply (fr_bytes _ _ _ HR)).
      rewrite Heq in Hdo. destruct (decide (Z.to_nat o < length (f_data f))%nat) as [Hlo|Hhi].
      * rewrite byte_at_inserts_other by lia. by rewrite Hold.
      * destruct (decide (Z.to_nat (o mod BSIZE) < Z.to_nat (off mod BSIZE) + length bs)%nat) as [Hin|Hout].
        -- rewrite byte_at_inserts by (rewrite ?Hsl; lia). f_equal. lia.
        -- rewrite byte_at_inserts_other by lia. rewrite Hold, !byte_at_ge by lia. done.
    + destruct (decide (Z.to_nat o < length (f_data f))%nat) as [Hlo|Hhi]; [done|]. rewrite !byte_at_ge; [done|lia|].
      assert (fbn < o / BSIZE). { assert (off / BSIZE ≤ o / BSIZE) by (apply Z.div_le_mono; [done|lia]). fold fbn in H. lia. }
      change BSIZE with 512 in *. lia.
Qed.

(** What one turn of the loop allocates. *)
Lemma cost_step off n : 0 ≤ off → 0 < n →
  let fbn := off / BSIZE in let n1 := Z.min n ((fbn + 1) * BSIZE - off) in
  cost (off + n1) = cost off + (if fbn =? nblk off then if nblk off =? NDIRECT then 2 else 1 else 0).
Proof.
  intros Ho Hn fbn n1. destruct (chunk off n Ho Hn) as (_ & H1 & _ & H2 & _). fold fbn n1 in H1, H2. unfold cost. rewrite H2.
  change NDIRECT with 12. destruct (Z.eqb_spec fbn (nblk off)) as [->|Hne].
  - rewrite Z.max_r by lia. destruct (Z.eqb_spec (nblk off) 12), (Z.ltb_spec 12 (nblk off)), (Z.ltb_spec 12 (nblk off + 1)); lia.
  - rewrite Z.max_l by lia. lia.
Qed.

(** One turn of the loop. *)
Lemma iappend_turn n s F i f din p :
  image (fsimg s) (freeblock s) F → F !! i = Some f → d_addrs din = f_addrs f → tight f → p ≠ [] →
  let off := Z.of_nat (length (f_data f)) in let n1 := Z.min (Z.of_nat (length p)) ((off / BSIZE + 1) * BSIZE - off) in
  off < MAXFILE * BSIZE → freeblock s + cost (off + n1) - cost off ≤ FSSIZE →
  ∃ s' f', iappend_loop (S n) din off p s = iappend_loop n (with_addrs (f_addrs f') din) (off + n1) (drop (Z.to_nat n1) p) s' ∧ keep s s' ∧
    image (fsimg s') (freeblock s') (<[i := f']> F) ∧ f_data f' = f_data f ++ take (Z.to_nat n1) p ∧ f_type f' = f_type f ∧ tight f' ∧
    freeblock s' = freeblock s + cost (off + n1) - cost off.
Proof.
  intros HI Hf Hd [Hnb Hset] Hp off n1 Hmax Hroom. pose proof (im_file _ _ _ HI i f Hf) as HR. pose proof (fr_nb _ _ _ HR) as Hnbr.
  assert (Hpl : 0 < Z.of_nat (length p)) by (destruct p; [done|cbn; lia]). assert (Ho : 0 ≤ off) by lia.
  destruct (chunk off (Z.of_nat (length p)) Ho Hpl) as (Hn1 & Hfbn & Hiff & Hnew & Hmod & Hfit). fold n1 in Hn1, Hnew, Hfit.
  pose proof (cost_step off (Z.of_nat (length p)) Ho Hpl) as Hcost. cbv zeta in Hcost. fold n1 in Hcost.
  assert (Hlt : off / BSIZE < MAXFILE) by (apply Z.div_lt_upper_bound; [done|lia]).
  fold off in Hnb. destruct (find_block_run s F i f din (off / BSIZE) HI Hf Hd Hset) as (s1 & f1 & E1 & Hk1 & HI1 & Hc1 & Ht1 & Hn1' & Hset1 & Hfb1); [lia|done|rewrite Hnb; lia|].
  assert (Hf1 : <[i := f1]> F !! i = Some f1) by (apply list_lookup_insert_eq; by eapply lookup_lt_Some).
  pose proof (im_file _ _ _ HI1 i f1 Hf1) as HR1. pose proof (fr_nb _ _ _ HR1) as Hnbr1.
  assert (Hlen : length (take (Z.to_nat n1) p) = Z.to_nat n1) by (rewrite length_take; lia).
  pose proof (image_append _ _ _ _ _ (take (Z.to_nat n1) p) HI1 Hf1) as HI2. cbv zeta in HI2. rewrite Hc1 in HI2. fold off in HI2.
  specialize (HI2 ltac:(lia) ltac:(rewrite Hlen; lia)). set (x := baddr (fsimg s1) (f_addrs f1) (off / BSIZE)) in *. rewrite list_insert_insert_eq in HI2.
  destruct (own_range _ _ _ _ _ (off / BSIZE) HI1 Hf1) as [Hx1 Hx2]; [lia|left; lia|]. fold x in Hx1, Hx2.
  set (d := list_inserts _ _ _) in HI2. set (f2 := mkFile _ _ _ _ _) in HI2.
  exists (s1 <| fsimg := upd (fsimg s1) x d |>), f2. split_and!; [| |exact HI2|done|done| |].
  - cbn [iappend_loop]. rewrite (proj2 (Z.ltb_lt 0 _)) by lia. rewrite (proj2 (Z.ltb_lt (off / BSIZE) MAXFILE)) by lia. cbn [negb].
    rewrite (bind_run _ _ _ _ _ E1). fold x n1. rewrite (bind_run _ _ _ _ _ (rsect_run s1 x (im_sec _ _ _ HI1) ltac:(lia))).
    rewrite Hmod. fold d. by rewrite (bind_run _ _ _ _ _ (wsect_run s1 x d (im_sec _ _ _ HI1) ltac:(lia))).
  - apply (keep_trans _ s1); [done|]. split; [done|done|]. intros b Hb. sst. rewrite sect_upd by (apply HI1 || lia). by rewrite decide_False by lia.
  - split; [|done]. cbn [f2 f_nb f_data]. rewrite length_app, Hlen, Hn1', Hnb. replace (Z.of_nat (length (f_data f) + Z.to_nat n1)) with (off + n1) by lia. by rewrite Hnew.
  - sst. rewrite Hfb1, Hcost. unfold nblocks_of. rewrite Hset1, Hset, Hn1', Hnb. unfold cost in Hcost. rewrite Hnew in Hcost. lia.
Qed.

Lemma iappend_loop_run n : ∀ s F i f din p,
  image (fsimg s) (freeblock s) F → F !! i = Some f → d_addrs din = f_addrs f → tight f → (length p <= n)%nat →
  let off := Z.of_nat (length (f_data f)) in let len := off + Z.of_nat (length p) in
  len ≤ MAXFILE * BSIZE → freeblock s + cost len - cost off ≤ FSSIZE →
  ∃ s' f', iappend_loop n din off p s = Ret (with_addrs (f_addrs f') din, len) s' ∧ keep s s' ∧
    image (fsimg s') (freeblock s') (<[i := f']> F) ∧ f_data f' = f_data f ++ p ∧ f_type f' = f_type f ∧ tight f' ∧
    freeblock s' = freeblock s + cost len - cost off.
Proof.
  induction n as [|n IH]; intros s F i f din p HI Hf Hd Ht Hn off len Hlen Hroom; (destruct (decide (p = [])) as [->|Hp];
    [exists s, f; unfold len; cbn [length iappend_loop]; rewrite Z.add_0_r, app_nil_r; rewrite with_addrs_id by done; split_and!; try done; [by rewrite list_insert_id|lia]|]).
  { by destruct p; [|cbn in Hn; lia]. }
  assert (Hpl : 0 < Z.of_nat (length p)) by (destruct p; [done|cbn; lia]). assert (Ho : 0 ≤ off) by lia.
  set (n1 := Z.min (Z.of_nat (length p)) ((off / BSIZE + 1) * BSIZE - off)).
  destruct (chunk off (Z.of_nat (length p)) Ho Hpl) as (Hn1 & _). fold n1 in Hn1.
  destruct (cost_mono (off + n1) len ltac:(lia)) as [_ Hcm].
  destruct (iappend_turn n s F i f din p HI Hf Hd Ht Hp) as (s1 & f1 & E1 & Hk1 & HI1 & Hc1 & Ht1 & Htt1 & Hfb1); [lia|fold off n1; lia|].
  fold off n1 in E1, Hc1, Hfb1. assert (Hl1 : Z.of_nat (length (f_data f1)) = off + n1) by (rewrite Hc1, length_app, length_take; lia).
  assert (Hl2 : Z.of_nat (length (drop (Z.to_nat n1) p)) = Z.of_nat (length p) - n1) by (rewrite length_drop; lia).
  destruct (IH s1 (<[i := f1]> F) i f1 (with_addrs (f_addrs f1) din) (drop (Z.to_nat n1) p) HI1) as (s2 & f2 & E2 & Hk2 & HI2 & Hc2 & Ht2 & Htt2 & Hfb2); try done; [..|].
  - apply list_lookup_insert_eq. by eapply lookup_lt_Some.
  - lia.
  - rewrite Hl1, Hl2. replace (off + n1 + (Z.of_nat (length p) - n1)) with len by lia. lia.
  - rewrite Hl1, Hl2. replace (off + n1 + (Z.of_nat (length p) - n1)) with len by lia. lia.
  - rewrite Hl1, Hl2 in *. replace (off + n1 + (Z.of_nat (length p) - n1)) with len in * by lia. rewrite list_insert_insert_eq in HI2.
    exists s2, f2. split_and!; [by rewrite E1, E2|by apply (keep_trans _ s1)|done| |congruence|done|lia].
    rewrite Hc2, Hc1, <- app_assoc. by rewrite take_drop.
Qed.

(** ** Inodes on the image *)

Definition sb0 : superblock := mkSuperblock 1000 941 200 30 2 32 58.
Definition din_of (img : list (list Z)) (inum : Z) : dinode := dinode_at (sect img (inum / IPB + 32)) (inum mod IPB).

Record dinode_typed (di : dinode) : Prop := {
  dt_type : is_i16 (d_type di); dt_major : is_i16 (d_major di); dt_minor : is_i16 (d_minor di); dt_nlink : is_i16 (d_nlink di);
  dt_size : is_u32 (d_size di); dt_addrs : Forall is_u32 (d_addrs di); dt_len : length (d_addrs di) = 13%nat
}.

Lemma set_dinode_same k di d :
  dinode_typed di → length d = Z.to_nat BSIZE → 0 ≤ k < IPB → dinode_at (set_dinode k di d) k = di.
Proof.
  intros [T1 T2 T3 T4 T5 T6 T7] Hd Hk. unfold set_dinode. rewrite put_dinode_same; [by destruct di|by constructor|done|done].
Qed.

Lemma set_dinode_other k k' di d :
  length (d_addrs di) = 13%nat → 0 ≤ k < IPB → 0 ≤ k' < IPB → k ≠ k' → dinode_at (set_dinode k di d) k' = dinode_at d k'.
Proof. intros. by apply put_dinode_other. Qed.

Lemma inode_sector inum : 0 ≤ inum < 208 → IBLOCK inum sb0 = inum / IPB + 32 ∧ 32 ≤ inum / IPB + 32 < 58 ∧ 0 ≤ inum mod IPB < IPB.
Proof.
  intros Hi. change IPB with 8. assert (0 ≤ inum / 8 < 26) by (split; [apply Z.div_pos|apply Z.div_lt_upper_bound]; lia).
  split; [|split; [lia|by apply Z.mod_pos_bound]]. unfold IBLOCK. change (sb_inodestart sb0) with 32. change IPB with 8. apply u32_small. unfold is_u32. lia.
Qed.

Lemma rinode_run s inum : sectors (fsimg s) → msb s = sb0 → 0 ≤ inum < 208 → rinode inum s = Ret (din_of (fsimg s) inum) s.
Proof.
  intros Hs Hsb Hi. destruct (inode_sector inum Hi) as (Hb & Hr & _). unfold rinode. run. rewrite Hsb, Hb.
  by rewrite (bind_run _ _ _ _ _ (rsect_run s (inum / IPB + 32) Hs ltac:(unfold FSSIZE; lia))).
Qed.

(** The sector of an inode after winode. *)
Lemma winode_run s inum di :
  sectors (fsimg s) → msb s = sb0 → 0 ≤ inum < 208 → dinode_typed di →
  ∃ d, let b := inum / IPB + 32 in let img := upd (fsimg s) b d in
    winode inum di s = Ret tt (s <| fsimg := img |>) ∧ length d = Z.to_nat BSIZE ∧
    ∀ j, 0 ≤ j < 208 → din_of img j = if decide (j = inum) then di else din_of (fsimg s) j.
Proof.
  intros Hs Hsb Hi Ht. destruct (inode_sector inum Hi) as (Hb & Hr & Hk).
  set (b := inum / IPB + 32) in *. assert (Hl : length (sect (fsimg s) b) = Z.to_nat BSIZE) by (apply sect_length; [done|unfold FSSIZE; lia]).
  exists (set_dinode (inum mod IPB) di (sect (fsimg s) b)). cbv zeta. split_and!.
  - unfold winode. run. rewrite Hsb, Hb. rewrite (bind_run _ _ _ _ _ (rsect_run s b Hs ltac:(unfold FSSIZE; lia))).
    apply wsect_run; [done|unfold FSSIZE; lia].
  - unfold set_dinode. by rewrite length_put_dinode.
  - intros j Hj. destruct (inode_sector j Hj) as (_ & Hrj & Hkj). unfold din_of. rewrite sect_upd by (done || unfold FSSIZE; lia).
    destruct (decide (j = inum)) as [->|Hne].
    + rewrite decide_True by done. by apply set_dinode_same.
    + destruct (decide (j / IPB + 32 = b)) as [Heq|Hneq]; [|done]. rewrite set_dinode_other; [by rewrite Heq|apply Ht|done|done|].
      pose proof (Z_div_mod_eq_full j IPB). pose proof (Z_div_mod_eq_full inum IPB). unfold b in *. change IPB with 8 in *. lia.
Qed.

(** The sectors in front of the data blocks are no file's. *)
Lemma image_meta img fb F b d : image img fb F → 0 ≤ b < nmeta → length d = Z.to_nat BSIZE → image (upd img b d) fb F.
Proof.
  intros HI Hb Hd. pose proof (im_fb _ _ _ HI) as Hfb.
  assert (Hs : ∀ c, nmeta ≤ c → sect (upd img b d) c = sect img c).
  { intros c Hc. rewrite sect_upd by (apply HI || lia). by rewrite decide_False by lia. }
  assert (Ha : ∀ i f k, F !! i = Some f → baddr (upd img b d) (f_addrs f) k = baddr img (f_addrs f) k).
  { intros i f k Hf. apply baddr_ext. intros Hnz. apply Hs. apply (fr_range _ _ _ (im_file _ _ _ HI i f Hf)); [rewrite maxfile; lia|done]. }
  split; [by apply upd_sectors; [apply HI|]|done| | |].
  - intros c Hc. rewrite Hs by lia. by apply (im_zero _ _ _ HI).
  - intros i f Hf. pose proof (im_file _ _ _ HI i f Hf) as HR. apply (rep_ext img _ fb); [done|done|by intros; eapply Ha|].
    intros k Hk. pose proof (fr_nb _ _ _ HR). apply Hs. apply (fr_range _ _ _ HR); [lia|]. apply (fr_slots _ _ _ HR); [lia|]. left. lia.
  - intros i j f g k k' Hf Hg. rewrite (Ha _ _ _ Hf), (Ha _ _ _ Hg). by apply (im_disj _ _ _ HI i j f g).
Qed.

(** ** The whole image *)

Record mk_ok (s : mkfs) (F : list file) : Prop := {
  mk_img : image (fsimg s) (freeblock s) F;
  mk_tight i f : F !! i = Some f → tight f ∧ is_i16 (f_type f);
  mk_free : freeinode s = Z.of_nat (length F) + 1;
  mk_room : Z.of_nat (length F) < NINODES;
  mk_sb : msb s = sb0;
  mk_block1 : sect (fsimg s) 1 = sb_bytes sb0;
  mk_log b : 2 ≤ b < 32 → sect (fsimg s) b = zeroes;
  mk_inode i f : F !! i = Some f → din_of (fsimg s) (Z.of_nat i + 1) = mkDinode (f_type f) 0 0 1 (Z.of_nat (length (f_data f))) (f_addrs f)
}.

Lemma file_addrs_u32 img fb F i f : image img fb F → F !! i = Some f → Forall is_u32 (f_addrs f).
Proof.
  intros HI Hf. pose proof (im_file _ _ _ HI i f Hf) as HR. apply Forall_lookup_2. intros k a Ha.
  pose proof (fr_len _ _ _ HR) as Hl. assert (Hk : (k < 13)%nat) by (rewrite <- Hl; by eapply lookup_lt_Some).
  destruct (addr_baddr img fb F i f (mkDinode 0 0 0 0 0 (f_addrs f)) (Z.of_nat k) HI Hf eq_refl ltac:(change NDIRECT with 12; lia)) as [Hu _].
  unfold addr in Hu. cbn [d_addrs] in Hu. by rewrite Nat2Z.id, Ha in Hu.
Qed.

Lemma iappend_run s F i f p :
  mk_ok s F → F !! i = Some f →
  let off := Z.of_nat (length (f_data f)) in let len := off + Z.of_nat (length p) in
  len ≤ MAXFILE * BSIZE → freeblock s + cost len - cost off ≤ FSSIZE →
  ∃ s' f', iappend (Z.of_nat i + 1) p s = Ret tt s' ∧ mk_ok s' (<[i := f']> F) ∧ f_data f' = f_data f ++ p ∧ f_type f' = f_type f ∧
    freeblock s' = freeblock s + cost len - cost off.
Proof.
  intros HO Hf off len Hlen Hroom. pose proof HO as [Himg Htight Hfree Hn Hsb Hb1 Hlog Hino]. pose proof (lookup_lt_Some _ _ _ Hf) as Hi.
  unfold NINODES in Hn. destruct (Htight i f Hf) as [Ht Hty]. set (inum := Z.of_nat i + 1). assert (Hin : 0 ≤ inum < 208) by lia.
  set (di := mkDinode (f_type f) 0 0 1 off (f_addrs f)). assert (Hdi : din_of (fsimg s) inum = di) by (by apply Hino).
  destruct (iappend_loop_run (length p) s F i f di p Himg Hf eq_refl Ht ltac:(lia) Hlen Hroom) as (s1 & f1 & E1 & Hk1 & HI1 & Hc1 & Ht1 & Htt1 & Hfb1).
  fold off len in E1, Hfb1. destruct Hk1 as [K1 K2 K3].
  assert (Hf1 : <[i := f1]> F !! i = Some f1) by (by apply list_lookup_insert_eq).
  assert (Hl1 : Z.of_nat (length (f_data f1)) = len) by (rewrite Hc1, length_app; lia).
  assert (Hlu : is_u32 len) by (unfold is_u32; rewrite maxfile in Hlen; unfold BSIZE in Hlen; lia).
  set (di1 := mkDinode (f_type f) 0 0 1 len (f_addrs f1)).
  assert (Htd : dinode_typed di1).
  { split; try done; [exact (file_addrs_u32 _ _ _ _ _ HI1 Hf1)|apply (fr_len _ _ _ (im_file _ _ _ HI1 i f1 Hf1))]. }
  destruct (winode_run s1 inum di1 (im_sec _ _ _ HI1) ltac:(congruence) Hin Htd) as (d & E2 & Hdl & Hdin). cbv zeta in E2, Hdin.
  set (b := inum / IPB + 32) in *. destruct (inode_sector inum Hin) as (_ & Hbr & _). fold b in Hbr. assert (Hm : nmeta = 59) by done.
  exists (s1 <| fsimg := upd (fsimg s1) b d |>), f1. split_and!; [| |done|done|done].
  - unfold iappend. rewrite (bind_run _ _ _ _ _ (rinode_run s inum (im_sec _ _ _ Himg) Hsb Hin)), Hdi. cbn [d_size di].
    rewrite xint_small by (unfold is_u32 in *; lia). rewrite (bind_run _ _ _ _ _ E1). rewrite xint_small by done. exact E2.
  - split; sst.
    + apply image_meta; [done|lia|done].
    + intros j g Hg. apply list_lookup_insert_Some in Hg as [(-> & <- & _)|[_ Hg]]; [split; [done|by rewrite Ht1]|by apply (Htight j)].
    + rewrite length_insert. congruence.
    + rewrite length_insert. done.
    + congruence.
    + rewrite sect_upd by (apply HI1 || (unfold FSSIZE; lia)). rewrite decide_False by lia. by rewrite K3 by lia.
    + intros c Hc. rewrite sect_upd by (apply HI1 || (unfold FSSIZE; lia)). rewrite decide_False by lia. rewrite K3 by lia. by apply Hlog.
    + intros j g Hg. apply list_lookup_insert_Some in Hg as [(-> & <- & _)|[Hne Hg]].
      * rewrite Hdin by done. rewrite decide_True by done. unfold di1. by rewrite Hl1, Ht1.
      * pose proof (lookup_lt_Some _ _ _ Hg). rewrite Hdin by lia. rewrite decide_False by lia. rewrite <- (Hino j g Hg). unfold din_of.
        destruct (inode_sector (Z.of_nat j + 1) ltac:(lia)) as (_ & Hjr & _). by rewrite K3 by lia.
Qed.

Definition empty_file (type : Z) : file := mkFile type (replicate 13 0) [] 0 false.

Lemma baddr_empty img k : baddr img (replicate 13 0) k = 0.
Proof.
  assert (Hz : ∀ j, default 0 (replicate 13 (0 : Z) !! j) = 0) by (intros j; destruct (replicate 13 (0 : Z) !! j) eqn:E; [by apply lookup_replicate in E as [-> _]|done]).
  unfold baddr. rewrite !Hz. by destruct (k <? NDIRECT), (k =? MAXFILE).
Qed.

Lemma image_new img fb F type : image img fb F → image img fb (F ++ [empty_file type]).
Proof.
  intros HI. split; try apply HI.
  - intros i f [Hf|[_ Hf]]%lookup_app_Some; [by apply (im_file _ _ _ HI i)|]. apply list_lookup_singleton_Some in Hf as [_ <-].
    split; cbn [empty_file f_addrs f_nb f_ib f_data]; intros *; rewrite ?baddr_empty; try done; try lia.
    intros Hk. split; [done|]. intros [?|[_ ?]]; [lia|done].
  - intros i j f g k k' [Hf|[Hi Hf]]%lookup_app_Some [Hg|[Hj Hg]]%lookup_app_Some Hij Hk Hk';
      try (apply list_lookup_singleton_Some in Hf as [Hi' <-]); try (apply list_lookup_singleton_Some in Hg as [Hj' <-]); cbn [empty_file f_addrs]; rewrite ?baddr_empty; try done.
    by apply (im_disj _ _ _ HI i j f g).
Qed.

Lemma ialloc_run s F type :
  mk_ok s F → Z.of_nat (length F) + 1 < NINODES → 0 ≤ type < 2 ^ 15 →
  ∃ s', ialloc type s = Ret (Z.of_nat (length F) + 1) s' ∧ mk_ok s' (F ++ [empty_file type]) ∧ freeblock s' = freeblock s.
Proof.
  intros HO Hroom Hty. pose proof HO as [Himg Htight Hfree Hn Hsb Hb1 Hlog Hino]. unfold NINODES in *.
  set (inum := Z.of_nat (length F) + 1) in *. assert (Hin : 0 ≤ inum < 208) by lia. assert (Hm : nmeta = 59) by done.
  set (di := mkDinode type 0 0 1 0 (replicate 13 0)). set (s1 := s <| freeinode ::= λ n, uadd n 1 |>).
  assert (Htd : dinode_typed di) by (split; cbn; try done; unfold is_i16, is_u32; try lia; repeat constructor; lia).
  destruct (winode_run s1 inum di (im_sec _ _ _ Himg) Hsb Hin Htd) as (d & E & Hdl & Hdin). cbv zeta in E, Hdin. change (fsimg s1) with (fsimg s) in *.
  set (b := inum / IPB + 32) in *. destruct (inode_sector inum Hin) as (_ & Hbr & _). fold b in Hbr.
  assert (Hx : i16 (xshort type) = type) by (rewrite xshort_u16; apply i16_u16; unfold is_i16; lia).
  exists (s1 <| fsimg := upd (fsimg s) b d |>). split_and!; [| |done].
  - unfold ialloc. run. rewrite Hfree. run. fold s1 inum. rewrite Hx. change (i16 (xshort 1)) with 1. change (xint 0) with 0.
    change (replicate (Z.to_nat (NDIRECT + 1)) 0) with (replicate 13 0). fold di. by rewrite (bind_run _ _ _ _ _ E).
  - split; unfold s1; sst.
    + apply image_meta; [by apply image_new|lia|done].
    + intros i f [Hf|[_ Hf]]%lookup_app_Some; [by apply (Htight i)|]. apply list_lookup_singleton_Some in Hf as [_ <-]. split; [done|cbn; unfold is_i16; lia].
    + rewrite length_app. cbn [length]. rewrite Hfree. fold inum. unfold uadd. rewrite u32_small by (unfold is_u32; lia). lia.
    + rewrite length_app. cbn [length]. unfold NINODES. lia.
    + done.
    + rewrite sect_upd by (apply Himg || (unfold FSSIZE; lia)). by rewrite decide_False by lia.
    + intros c Hc. rewrite sect_upd by (apply Himg || (unfold FSSIZE; lia)). rewrite decide_False by lia. by apply Hlog.
    + intros i f [Hf|[Hi Hf]]%lookup_app_Some.
      * pose proof (lookup_lt_Some _ _ _ Hf). rewrite Hdin by lia. rewrite decide_False by lia. by apply Hino.
      * apply list_lookup_singleton_Some in Hf as [Hi' <-]. assert (i = length F) as -> by lia. rewrite Hdin by lia. by rewrite decide_True.
Qed.

(** ** The command line *)

Definition files_of (F : list file) : list (Z * list Z) := (λ f, (f_type f, f_data f)) <$> F.

(** The blocks that files take. *)
Definition total (V : list (Z * list Z)) : Z := foldr (λ v a, cost (Z.of_nat (length v.2)) + a) 0 V.

Lemma total_app V V' : total (V ++ V') = total V + total V'.
Proof. induction V as [|v V IH]; cbn; [done|]. fold (total (V ++ V')) (total V). rewrite IH. lia. Qed.

Lemma total_cons v V : total (v :: V) = cost (Z.of_nat (length v.2)) + total V.
Proof. done. Qed.

Lemma total_insert V i v v' :
  V !! i = Some v → total (<[i := v']> V) = total V + cost (Z.of_nat (length v'.2)) - cost (Z.of_nat (length v.2)).
Proof.
  revert i. induction V as [|w V IH]; intros i Hi; [by rewrite lookup_nil in Hi|]. destruct i as [|i]; cbn [lookup list_lookup] in Hi.
  - injection Hi as ->. change (<[0%nat := v']> (v :: V)) with (v' :: V). rewrite !total_cons. lia.
  - change (<[S i := v']> (w :: V)) with (w :: <[i := v']> V). rewrite !total_cons, IH by done. lia.
Qed.

Lemma cost_nonneg l : 0 ≤ l → 0 ≤ cost l.
Proof. intros Hl. pose proof (proj2 (cost_mono 0 l ltac:(lia))). assert (cost 0 = 0) by done. lia. Qed.

Lemma total_nonneg V : 0 ≤ total V.
Proof. induction V as [|v V IH]; cbn; [lia|]. fold (total V). pose proof (cost_nonneg (Z.of_nat (length v.2)) ltac:(lia)). lia. Qed.

(** The files [V] are on the image, and its blocks are accounted for. *)
Definition holds (s : mkfs) (V : list (Z * list Z)) : Prop := ∃ F, mk_ok s F ∧ files_of F = V ∧ freeblock s = nmeta + total V.

Lemma holds_append s V i ty c p :
  holds s V → V !! i = Some (ty, c) → Z.of_nat (length (c ++ p)) ≤ MAXFILE * BSIZE →
  nmeta + total (<[i := (ty, c ++ p)]> V) ≤ FSSIZE →
  ∃ s', iappend (Z.of_nat i + 1) p s = Ret tt s' ∧ holds s' (<[i := (ty, c ++ p)]> V).
Proof.
  intros (F & HO & <- & Hfb) HV Hlen Hroom. unfold files_of in HV. rewrite list_lookup_fmap in HV. destruct (F !! i) as [f|] eqn:Hf; [|done]. injection HV as <- <-.
  assert (HV : files_of F !! i = Some (f_type f, f_data f)) by (unfold files_of; by rewrite list_lookup_fmap, Hf).
  pose proof (total_insert (files_of F) i _ (f_type f, f_data f ++ p) HV) as Ht. cbn [snd] in Ht.
  rewrite length_app, Nat2Z.inj_add in *. destruct (iappend_run s F i f p HO Hf) as (s' & f' & E & HO' & Hc & Hty & Hfb'); [lia|lia|].
  exists s'. split; [done|]. exists (<[i := f']> F). split_and!; [done| |].
  - unfold files_of. rewrite list_fmap_insert. by rewrite Hc, Hty.
  - rewrite Hfb', Ht, Hfb. lia.
Qed.

Lemma holds_new s V ty :
  holds s V → Z.of_nat (length V) + 1 < NINODES → 0 ≤ ty < 2 ^ 15 →
  ∃ s', ialloc ty s = Ret (Z.of_nat (length V) + 1) s' ∧ holds s' (V ++ [(ty, [])]).
Proof.
  intros (F & HO & <- & Hfb) Hn Hty. unfold files_of in *. rewrite length_fmap in *. destruct (ialloc_run s F ty HO Hn Hty) as (s' & E & HO' & Hfb').
  exists s'. split; [done|]. exists (F ++ [empty_file ty]). split_and!; [done|unfold files_of; by rewrite fmap_app|]. rewrite Hfb', Hfb, total_app. change (total [(ty, [])]) with (cost 0 + 0). change (cost 0) with 0. lia.
Qed.

(** What read returns, one buffer after the other. *)
Lemma holds_reads reads : ∀ s V i ty c,
  holds s V → V !! i = Some (ty, c) → Z.of_nat (length (c ++ concat reads)) ≤ MAXFILE * BSIZE →
  nmeta + total (<[i := (ty, c ++ concat reads)]> V) ≤ FSSIZE →
  ∃ s', for_each reads (iappend (Z.of_nat i + 1)) s = Ret tt s' ∧ holds s' (<[i := (ty, c ++ concat reads)]> V).
Proof.
  induction reads as [|p reads IH]; intros s V i ty c HV Hi Hlen Hroom; cbn [concat] in *.
  - rewrite app_nil_r in *. exists s. split; [done|]. by rewrite list_insert_id.
  - rewrite app_assoc in *. pose proof (lookup_lt_Some _ _ _ Hi) as Hlt.
    assert (Hmono : total (<[i := (ty, c ++ p)]> V) ≤ total (<[i := (ty, (c ++ p) ++ concat reads)]> V)).
    { rewrite !(total_insert V i _ _ Hi). cbn [snd].
      pose proof (proj2 (cost_mono (Z.of_nat (length (c ++ p))) (Z.of_nat (length ((c ++ p) ++ concat reads))) ltac:(rewrite !length_app; lia))). lia. }
    destruct (holds_append s V i ty c p HV Hi) as (s1 & E1 & HV1); [rewrite !length_app in *; lia|lia|].
    cbn [for_each]. rewrite (bind_run _ _ _ _ _ E1).
    destruct (IH s1 (<[i := (ty, c ++ p)]> V) i ty (c ++ p) HV1) as (s2 & E2 & HV2); [by apply list_lookup_insert_eq|done|by rewrite list_insert_insert_eq|].
    rewrite list_insert_insert_eq in HV2. by exists s2.
Qed.

Lemma add_file_run s rd V name reads :
  holds s ((T_DIR, rd) :: V) → SLASH ∉ name → Z.of_nat (length V) + 2 < NINODES →
  let de := make_dirent (skip_underscore name) (Z.of_nat (length V) + 2) in let V' := (T_DIR, rd ++ de) :: V ++ [(T_FILE, concat reads)] in
  Z.of_nat (length (rd ++ de)) ≤ MAXFILE * BSIZE → Z.of_nat (length (concat reads)) ≤ MAXFILE * BSIZE → nmeta + total V' ≤ FSSIZE →
  ∃ s', add_file ROOTINO (name, Some reads) s = Ret tt s' ∧ holds s' V'.
Proof.
  intros HV Hsl Hn de V' Hrd Hdata Hroom. set (i := S (length V)).
  destruct (holds_new s _ T_FILE HV) as (s1 & E1 & HV1); [cbn [length]; lia|done|]. cbn [app] in HV1.
  replace (Z.of_nat (length ((T_DIR, rd) :: V)) + 1) with (Z.of_nat (length V) + 2) in E1 by (cbn [length]; lia).
  pose proof (total_nonneg V) as Ht0. unfold V' in Hroom. rewrite total_cons, total_app, total_cons in Hroom. cbn [snd] in Hroom. change (total []) with 0 in Hroom.
  pose proof (cost_nonneg (Z.of_nat (length (concat reads))) ltac:(lia)) as Hc0.
  assert (Hd : make_dirent (skip_underscore name) (xshort (Z.of_nat (length V) + 2)) = de).
  { unfold de. rewrite xshort_u16. unfold u16. by rewrite Z.mod_small by (unfold NINODES in Hn; lia). }
  destruct (holds_append s1 _ 0%nat T_DIR rd de HV1 eq_refl Hrd) as (s2 & E2 & HV2).
  { change (<[0%nat := (T_DIR, rd ++ de)]> ((T_DIR, rd) :: V ++ [(T_FILE, [])])) with ((T_DIR, rd ++ de) :: V ++ [(T_FILE, [])]).
    rewrite total_cons, total_app. cbn [snd]. change (total [(T_FILE, [])]) with 0. lia. }
  change (<[0%nat := (T_DIR, rd ++ de)]> ((T_DIR, rd) :: V ++ [(T_FILE, [])])) with (((T_DIR, rd ++ de) :: V) ++ [(T_FILE, [])]) in HV2.
  assert (Hins : <[i := (T_FILE, [] ++ concat reads)]> (((T_DIR, rd ++ de) :: V) ++ [(T_FILE, [])]) = V').
  { rewrite insert_app_r_alt by (cbn; lia). replace (i - length ((T_DIR, rd ++ de) :: V))%nat with 0%nat by (cbn; lia). done. }
  destruct (holds_reads reads s2 _ i T_FILE [] HV2) as (s3 & E3 & HV3).
  - rewrite lookup_app_r by (cbn; lia). by replace (i - length ((T_DIR, rd ++ de) :: V))%nat with 0%nat by (cbn; lia).
  - done.
  - rewrite Hins. unfold V'. rewrite total_cons, total_app, total_cons. cbn [snd]. change (total []) with 0. lia.
  - rewrite Hins in HV3. exists s3. split; [|done]. unfold add_file. rewrite bool_decide_false by done.
    rewrite (bind_run _ _ _ _ _ E1). rewrite Hd. rewrite (bind_run _ _ _ _ _ E2).
    by replace (Z.of_nat (length V) + 2) with (Z.of_nat i + 1) by lia.
Qed.

(** The entries of the root directory from inode [k] on. *)
Fixpoint dir_entries (k : Z) (names : list (list Z)) : list (list Z) :=
  match names with [] => [] | name :: names' => make_dirent (skip_underscore name) k :: dir_entries (k + 1) names' end.

Lemma dirent_length name k : length (make_dirent name k) = 16%nat.
Proof. unfold make_dirent. rewrite length_app, strncpy_length. done. Qed.

Lemma entries_length names : ∀ k, length (concat (dir_entries k names)) = (16 * length names)%nat.
Proof. induction names as [|name names IH]; intros k; [done|]. cbn [dir_entries concat length]. rewrite length_app, dirent_length, IH. lia. Qed.

Definition arg_of (f : list Z * list (list Z)) : list Z * option (list (list Z)) := (f.1, Some f.2).

Lemma args_run files : ∀ s rd V,
  holds s ((T_DIR, rd) :: V) → Forall (λ f, (SLASH ∉ f.1) ∧ Z.of_nat (length (concat f.2)) ≤ MAXFILE * BSIZE) files →
  Z.of_nat (length V) + Z.of_nat (length files) + 1 < NINODES → Z.of_nat (length rd) + 16 * Z.of_nat (length files) ≤ MAXFILE * BSIZE →
  let V' := (T_DIR, rd ++ concat (dir_entries (Z.of_nat (length V) + 2) files.*1)) :: V ++ ((λ f, (T_FILE, concat f.2)) <$> files) in
  nmeta + total V' ≤ FSSIZE →
  ∃ s', for_each (arg_of <$> files) (add_file ROOTINO) s = Ret tt s' ∧ holds s' V'.
Proof.
  induction files as [|[name reads] files IH]; intros s rd V HV HF Hn Hrd V' Hroom.
  - exists s. split; [done|]. unfold V'. cbn. by rewrite !app_nil_r.
  - apply Forall_cons in HF as [[Hsl Hlen] HF]. cbn [length fst snd] in *.
    set (de := make_dirent (skip_underscore name) (Z.of_nat (length V) + 2)). set (V1 := V ++ [(T_FILE, concat reads)]).
    assert (HV' : V' = (T_DIR, (rd ++ de) ++ concat (dir_entries (Z.of_nat (length V1) + 2) files.*1)) :: V1 ++ ((λ f, (T_FILE, concat f.2)) <$> files)).
    { unfold V', V1. rewrite !fmap_cons. cbn [fst snd dir_entries concat]. fold de. rewrite <- !app_assoc, length_app. cbn [length app].
      by replace (Z.of_nat (length V + 1) + 2) with (Z.of_nat (length V) + 2 + 1) by lia. }
    assert (Hl1 : Z.of_nat (length V1) = Z.of_nat (length V) + 1) by (unfold V1; rewrite length_app; cbn; lia).
    assert (Hlrd : Z.of_nat (length (rd ++ de)) = Z.of_nat (length rd) + 16) by (rewrite length_app; unfold de; rewrite dirent_length; lia).
    assert (Hroom1 : nmeta + total ((T_DIR, rd ++ de) :: V1) ≤ FSSIZE).
    { rewrite HV', total_cons, total_app in Hroom. rewrite total_cons. cbn [snd] in *. pose proof (total_nonneg ((λ f, (T_FILE, concat f.2)) <$> files)).
      pose proof (proj2 (cost_mono (Z.of_nat (length (rd ++ de))) (Z.of_nat (length ((rd ++ de) ++ concat (dir_entries (Z.of_nat (length V1) + 2) files.*1)))) ltac:(rewrite (length_app (rd ++ de)); lia))). lia. }
    destruct (add_file_run s rd V name reads HV Hsl) as (s1 & E1 & HV1); [lia|fold de; lia|done|done|].
    fold de V1 in HV1. destruct (IH s1 (rd ++ de) V1 HV1 HF) as (s2 & E2 & HV2); [lia|lia|by rewrite <- HV'|].
    exists s2. rewrite fmap_cons. cbn [for_each]. unfold arg_of at 1. cbn [fst snd]. rewrite (bind_run _ _ _ _ _ E1). split; [done|]. by rewrite HV'.
Qed.

(** ** An empty file system *)

Lemma init_run n : ∀ s k, fsimg s = replicate k zeroes → (k + n <= Z.to_nat FSSIZE)%nat →
  for_each (seqZ (Z.of_nat k) (Z.of_nat n)) (λ i, wsect i zeroes) s = Ret tt (s <| fsimg := replicate (k + n) zeroes |>).
Proof.
  induction n as [|n IH]; intros s k Hs Hk.
  - rewrite Nat.add_0_r, <- Hs. by destruct s.
  - rewrite seqZ_cons by lia. cbn [for_each]. destruct (sector_index (Z.of_nat k)) as [Hi _]; [unfold FSSIZE in *; lia|].
    assert (E : wsect (Z.of_nat k) zeroes s = Ret tt (s <| fsimg := replicate (S k) zeroes |>)).
    { assert (Hw : write_sector (Z.to_nat (u32 (Z.of_nat k * BSIZE) / BSIZE)) zeroes (fsimg s) = replicate (S k) zeroes).
      { rewrite Hi, Nat2Z.id. unfold write_sector. rewrite Hs, length_replicate, Nat.ltb_irrefl, Nat.sub_diag. cbn [replicate app]. by rewrite <- replicate_cons_app. }
      rewrite <- Hw. reflexivity. }
    rewrite (bind_run _ _ _ _ _ E). replace (Z.succ (Z.of_nat k)) with (Z.of_nat (S k)) by lia. replace (Z.pred (Z.of_nat (S n))) with (Z.of_nat n) by lia.
    rewrite IH; [|done|lia]. f_equal. destruct s. cbn. by replace (k + S n)%nat with (S (k + n)) by lia.
Qed.

(** main up to the allocation of the root inode. *)
Lemma blank_ok s : fsimg s = upd (replicate (Z.to_nat FSSIZE) zeroes) 1 (sb_bytes sb0) → freeinode s = 1 → freeblock s = nmeta → msb s = sb0 → holds s [].
Proof.
  intros Hi Hfi Hfb Hsb. assert (Hz : length zeroes = Z.to_nat BSIZE) by done.
  assert (Hsec : sectors (replicate (Z.to_nat FSSIZE) zeroes)) by (split; [by rewrite length_replicate|by apply Forall_replicate]).
  assert (Hs : ∀ b, 0 ≤ b < FSSIZE → sect (replicate (Z.to_nat FSSIZE) zeroes) b = zeroes).
  { intros b Hb. unfold sect. rewrite (proj2 (Z.leb_le 0 b)) by lia. by rewrite lookup_replicate_2 by (unfold FSSIZE in *; lia). }
  assert (Hu : ∀ b, sect (upd (replicate (Z.to_nat FSSIZE) zeroes) 1 (sb_bytes sb0)) b = if decide (b = 1) then sb_bytes sb0 else sect (replicate (Z.to_nat FSSIZE) zeroes) b).
  { intros b. apply sect_upd; [done|unfold FSSIZE; lia]. }
  assert (Hm : nmeta = 59) by done. exists []. split_and!; [|done|by rewrite Hfb]. rewrite <- Hi in Hu.
  split; try done; try by intros * Hn; rewrite lookup_nil in Hn.
  - split; try by intros * Hn; rewrite lookup_nil in Hn.
    + rewrite Hi. apply upd_sectors; [done|]. unfold sb_bytes. by rewrite !length_put32.
    + rewrite Hfb. done.
    + intros b Hb. rewrite Hu, decide_False by lia. apply Hs. lia.
  - intros b Hb. rewrite Hu, decide_False by lia. apply Hs. unfold FSSIZE. lia.
Qed.

Lemma bits_spec n b : (Z.of_nat n <= BPB)%Z → 0 ≤ b < BPB →
  let d := foldl (λ buf i, set_bit i buf) zeroes (seqZ 0 (Z.of_nat n)) in
  length d = Z.to_nat BSIZE ∧ bit_set d b = (b <? Z.of_nat n).
Proof.
  intros Hn Hb. induction n as [|n IH].
  - split; [done|]. change (Z.of_nat 0) with 0. rewrite (proj2 (Z.ltb_ge b 0)) by lia. change (seqZ 0 0) with (@nil Z). cbn [foldl]. rewrite bit_set_testbit. unfold byte_at, zeroes.
    destruct (replicate (Z.to_nat BSIZE) 0 !! Z.to_nat (b / 8)) eqn:E; [apply lookup_replicate in E as [-> _]|]; apply Z.testbit_0_l.
  - destruct (IH ltac:(lia)) as [Hl Hs]. cbv zeta. rewrite seqZ_S, foldl_app. cbn [foldl]. rewrite Z.add_0_l.
    set (d := foldl _ _ _) in *. split; [by rewrite length_set_bit|]. rewrite set_bit_spec, Hs by (done || lia).
    destruct (decide (b = Z.of_nat n)) as [->|Hne]; symmetry; [apply Z.ltb_lt; lia|].
    destruct (Z.ltb_spec b (Z.of_nat n)); [apply Z.ltb_lt; lia|apply Z.ltb_ge; lia].
Qed.

(** The root directory, and the files of the finished image. *)
Definition root_dirents (files : list (list Z * list (list Z))) : list (list Z) :=
  make_dirent [46] 1 :: make_dirent [46; 46] 1 :: dir_entries 2 files.*1.
Definition all_files (files : list (list Z * list (list Z))) : list (Z * list Z) :=
  (T_DIR, concat (root_dirents files)) :: ((λ f, (T_FILE, concat f.2)) <$> files).

(** The files fit on the image. *)
Record fits_image (files : list (list Z * list (list Z))) : Prop := {
  fi_names : Forall (λ f, (SLASH ∉ f.1) ∧ Z.of_nat (length (concat f.2)) ≤ MAXFILE * BSIZE) files;
  fi_count : Z.of_nat (length files) + 1 < NINODES;
  fi_blocks : nmeta + total (all_files files) ≤ FSSIZE
}.

Lemma root_length files : Z.of_nat (length (concat (root_dirents files))) = 16 * (Z.of_nat (length files) + 2).
Proof.
  unfold root_dirents. cbn [concat]. rewrite !length_app, !dirent_length, entries_length, length_fmap. lia.
Qed.

(** The root directory with its two entries. *)
Lemma root_made s : holds s [] →
  ∃ s1 s2 s3, ialloc T_DIR s = Ret ROOTINO s1 ∧ iappend ROOTINO (make_dirent [46] 1) s1 = Ret tt s2 ∧
    iappend ROOTINO (make_dirent [46; 46] 1) s2 = Ret tt s3 ∧ holds s3 [(T_DIR, make_dirent [46] 1 ++ make_dirent [46; 46] 1)].
Proof.
  intros HV. destruct (holds_new s [] T_DIR HV) as (s1 & E1 & HV1); [done|done|].
  destruct (holds_append s1 _ 0%nat T_DIR [] (make_dirent [46] 1) HV1 eq_refl) as (s2 & E2 & HV2); [done|done|].
  destruct (holds_append s2 _ 0%nat T_DIR _ (make_dirent [46; 46] 1) HV2 eq_refl) as (s3 & E3 & HV3); [done|done|].
  by exists s1, s2, s3.
Qed.

(** main up to the last of the files. *)
Lemma main_files s files :
  fsimg s = [] → freeinode s = 1 → fits_image files →
  ∃ s', holds s' (all_files files) ∧
    main (arg_of <$> files) s = (din ← rinode ROOTINO;
      winode ROOTINO (set_size (xint ((xint (d_size din) / BSIZE + 1) * BSIZE)) din);; used ← gets freeblock; balloc used) s'.
Proof.
  intros Hi Hfi [Hnames Hcount Hblocks]. unfold NINODES in Hcount. pose proof (root_length files) as Hrl.
  unfold main. run. set (s1 := _ <| freeblock := nmeta |>). assert (Hi1 : fsimg s1 = replicate 0 zeroes) by exact Hi.
  rewrite (bind_run _ _ _ _ _ (init_run (Z.to_nat FSSIZE) s1 0 Hi1 ltac:(lia))). run. sst.
  set (s2 := s1 <| fsimg := _ |>). assert (Hsec2 : sectors (fsimg s2)) by (split; [apply length_replicate|by apply Forall_replicate]).
  change (msb s2) with sb0. rewrite (bind_run _ _ _ _ _ (wsect_run s2 1 (sb_bytes sb0) Hsec2 ltac:(unfold FSSIZE; lia))).
  set (s3 := s2 <| fsimg := _ |>). assert (HV3 : holds s3 []) by (by apply blank_ok).
  destruct (root_made s3 HV3) as (s4 & s5 & s6 & E4 & E5 & E6 & HV6).
  rewrite (bind_run _ _ _ _ _ E4). change (ROOTINO =? ROOTINO) with true. cbn [negb]. change (xshort ROOTINO) with 1.
  rewrite (bind_run _ _ _ _ _ E5), (bind_run _ _ _ _ _ E6).
  destruct (args_run files s6 _ [] HV6 Hnames) as (s7 & E7 & HV7); [cbn [length]; unfold NINODES; lia| | |].
  - rewrite maxfile, length_app, !dirent_length. unfold BSIZE. lia.
  - cbn [length app]. rewrite <- app_assoc. exact Hblocks.
  - cbn [length app] in HV7. rewrite <- app_assoc in HV7. exists s7. split; [exact HV7|]. by rewrite (bind_run _ _ _ _ _ E7).
Qed.

(** The size of inode [i + 1]: that of the root directory is rounded up to a
    whole number of blocks, and never to what it is. *)
Definition size_of (i : nat) (n : Z) : Z := match i with O => (n / BSIZE + 1) * BSIZE | _ => n end.

(** The finished image. *)
Record finished (img : list (list Z)) (used : Z) (F : list file) : Prop := {
  fin_img : image img used F;
  fin_tight i f : F !! i = Some f → tight f;
  fin_room : Z.of_nat (length F) < NINODES;
  fin_sb : sect img 1 = sb_bytes sb0;
  fin_log b : 2 ≤ b < 32 → sect img b = zeroes;
  fin_bits b : 0 ≤ b < BPB → bit_set (sect img 58) b = (b <? used);
  fin_inode i f : F !! i = Some f →
    din_of img (Z.of_nat i + 1) = mkDinode (f_type f) 0 0 1 (size_of i (Z.of_nat (length (f_data f)))) (f_addrs f)
}.

Lemma bitmap_block_run s used : sectors (fsimg s) → msb s = sb0 → 0 ≤ used < BPB →
  ∃ d, balloc used s = Ret tt (s <| fsimg := upd (fsimg s) 58 d |>) ∧ length d = Z.to_nat BSIZE ∧
    ∀ b, 0 ≤ b < BPB → bit_set d b = (b <? used).
Proof.
  intros Hs Hsb Hu. assert (Hb := λ b, bits_spec (Z.to_nat used) b ltac:(lia)). cbv zeta in Hb. rewrite Z2Nat.id in Hb by lia.
  exists (foldl (λ buf i, set_bit i buf) zeroes (seqZ 0 used)). split_and!.
  - unfold balloc. rewrite (proj2 (Z.ltb_lt used (BSIZE * 8))) by (change (BSIZE * 8) with BPB; lia). cbn [negb]. run. rewrite Hsb.
    by apply wsect_run.
  - apply (Hb 0). done.
  - intros b Hr. by apply Hb.
Qed.

(** The size of the root directory and the bitmap. *)
Lemma rootsize_bitmap_run s files : holds s (all_files files) → Z.of_nat (length files) + 1 < NINODES →
  ∃ s' F, (din ← rinode ROOTINO;
      winode ROOTINO (set_size (xint ((xint (d_size din) / BSIZE + 1) * BSIZE)) din);; used ← gets freeblock; balloc used) s = Ret tt s'
    ∧ finished (fsimg s') (nmeta + total (all_files files)) F ∧ files_of F = all_files files.
Proof.
  intros (F & HO & HV & Hfb) Hn. pose proof HO as [HI HT HF HR Hsb H1 HL Hino]. pose proof (im_sec _ _ _ HI) as Hsec.
  unfold ROOTINO. rewrite (bind_run _ _ _ _ _ (rinode_run s 1 Hsec Hsb ltac:(lia))).
  assert (Hroot : ∃ f, F !! 0%nat = Some f ∧ f_data f = concat (root_dirents files)).
  { unfold files_of in HV. destruct F as [|f F]; [done|]. injection HV as _ HV _. by exists f. }
  destruct Hroot as (f & Hf & Hfd). pose proof (Hino 0%nat f Hf) as Hdi. change (Z.of_nat 0 + 1) with 1 in Hdi.
  pose proof (root_length files) as Hrl. rewrite <- Hfd in Hrl. rewrite Hdi. cbn [d_size]. unfold NINODES in *.
  set (n := Z.of_nat (length (f_data f))) in *. assert (Hd : 0 ≤ n / BSIZE < 10) by (unfold BSIZE; split; [apply Z.div_pos; lia|apply Z.div_lt_upper_bound; lia]).
  rewrite (xint_small n), xint_small by (unfold is_u32, BSIZE in *; lia). unfold set_size. cbn [d_type d_major d_minor d_nlink d_addrs].
  destruct (winode_run s 1 (mkDinode (f_type f) 0 0 1 ((n / BSIZE + 1) * BSIZE) (f_addrs f)) Hsec Hsb ltac:(lia)) as (d & E & Hld & Hother).
  { split; cbn; [by apply (HT 0%nat)|done..|unfold is_u32, BSIZE in *; lia|by eapply file_addrs_u32|by apply (fr_len _ _ _ (im_file _ _ _ HI _ _ Hf))]. }
  rewrite (bind_run _ _ _ _ _ E). run. change (1 / IPB + 32) with 32 in *. assert (Hm : nmeta = 59) by done.
  pose proof (image_meta _ _ _ 32 d HI ltac:(lia) Hld) as HI'. set (img1 := upd (fsimg s) 32 d) in *. pose proof (im_sec _ _ _ HI') as Hsec'.
  pose proof (im_fb _ _ _ HI) as Hr. destruct (bitmap_block_run (s <| fsimg := img1 |>) (freeblock s)) as (bm & Eb & Hlb & Hbits); [done|done|unfold FSSIZE in Hr; unfold BPB, BSIZE; lia|].
  sst. eexists _, F. split; [exact Eb|]. split; [|done]. sst. rewrite <- Hfb. set (img2 := upd img1 58 bm) in *.
  assert (Hs : ∀ b, b ≠ 58 → sect img2 b = sect img1 b) by (intros b Hb; unfold img2; rewrite sect_upd by done; by rewrite decide_False).
  assert (Hs1 : ∀ b, b ≠ 32 → sect img1 b = sect (fsimg s) b) by (intros b Hb; unfold img1; rewrite sect_upd by done; by rewrite decide_False).
  split.
  - apply image_meta; [done|lia|done].
  - intros i g Hg. by apply (HT i).
  - done.
  - rewrite Hs, Hs1 by done. done.
  - intros b Hb. rewrite Hs, Hs1 by lia. by apply HL.
  - unfold img2. rewrite sect_upd by done. by rewrite decide_True.
  - intros i g Hg. assert (Hi : 0 ≤ Z.of_nat i + 1 < 208) by (apply lookup_lt_Some in Hg; lia). destruct (inode_sector _ Hi) as (_ & Hrg & _).
    unfold din_of at 1. rewrite Hs by lia. fold (din_of img1 (Z.of_nat i + 1)). rewrite Hother by done. case_decide as Ei.
    + assert (i = 0%nat) as -> by lia. rewrite Hf in Hg. injection Hg as <-. done.
    + rewrite (Hino i g Hg). destruct i; [lia|]. done.
Qed.

(** ** The file system of the kernel *)

Section Mounted.
Context {P : Platform} {D : DiskDriver} {SD : SyncDisk D}.

(** The kernel runs on the image as its disk: what iinit and initlog find. *)
Record mounted (img : list (list Z)) (k : kernel) : Prop := {
  mt_blocks b : 0 ≤ b < FSSIZE → contents k b = sect img b;
  mt_disk : nblocks = FSSIZE;
  mt_sb : sb k = superblock_of (contents k 1);
  mt_start : l_start (klog k) = sb_logstart (sb k);
  mt_size : l_size (klog k) = sb_nlog (sb k)
}.

(** What the kernel finds of inode [inum], of type [ty] with contents [data]. *)
Record found_file (k : kernel) (ip : inode) (ty size : Z) (data : list Z) : Prop := {
  ff_ok : file_ok k ip;
  ff_type : i_type ip = ty;
  ff_nlink : i_nlink ip = 1;
  ff_size : i_size ip = size;
  ff_bytes o : 0 ≤ o < MAXFILE * BSIZE → fbyte k ip o = byte_at data (Z.to_nat o)
}.

Lemma mounted_sb img k : mounted img k → sect img 1 = sb_bytes sb0 → sb k = sb0.
Proof. intros HM H1. rewrite (mt_sb _ _ HM), (mt_blocks _ _ HM), H1 by (unfold FSSIZE; lia). done. Qed.

Lemma mounted_faddr img used F i f k ip bn :
  mounted img k → image img used F → F !! i = Some f → i_addrs ip = f_addrs f → 0 ≤ bn < MAXFILE →
  faddr k ip bn = baddr img (f_addrs f) bn.
Proof.
  intros HM HI Hf Ha Hbn. unfold faddr, baddr, iaddr. rewrite Ha. destruct (bn <? NDIRECT); [done|].
  rewrite (proj2 (Z.eqb_neq bn MAXFILE)) by lia. destruct (Z.eqb_spec (default 0 (f_addrs f !! 12%nat)) 0) as [|Hnz]; [done|].
  rewrite (mt_blocks _ _ HM); [done|]. pose proof (im_fb _ _ _ HI). assert (nmeta = 59) by done.
  pose proof (fr_range _ _ _ (im_file _ _ _ HI i f Hf) MAXFILE ltac:(rewrite maxfile; lia) Hnz) as Hr. rewrite baddr_ind in Hr. lia.
Qed.

(** The blocks between the bitmap and the first free block are data blocks. *)
Lemma mounted_data img used F k inum b :
  mounted img k → finished img used F → 0 ≤ inum < 208 → nmeta ≤ b < used → data_ok k inum b.
Proof.
  intros HM HF Hi Hb. pose proof (mounted_sb _ _ HM (fin_sb _ _ _ HF)) as Hsb. pose proof (im_fb _ _ _ (fin_img _ _ _ HF)) as Hr.
  assert (Hm : nmeta = 59) by done. unfold data_ok, home, Bitmap.used. rewrite (mt_start _ _ HM), (mt_size _ _ HM), (mt_disk _ _ HM), Hsb.
  assert (HB : ∀ c, 0 ≤ c < FSSIZE → BBLOCK c sb0 = 58).
  { intros c Hc. unfold BBLOCK. rewrite Z.div_small by (unfold FSSIZE in *; change BPB with 4096; lia). done. }
  destruct (inode_sector inum Hi) as (HIB & Hir & _). cbn [sb_size sb_logstart sb_nlog sb0]. unfold FSSIZE in *.
  rewrite (mt_blocks _ _ HM), HB, (Z.mod_small b BPB), (fin_bits _ _ _ HF), HIB; rewrite ?HB; try (change BPB with 4096; unfold FSSIZE; lia).
  split_and!; try lia. intros c Hc. rewrite HB; lia.
Qed.

Lemma found_inode img used F i f k ip :
  mounted img k → finished img used F → F !! i = Some f →
  i_inum ip = Z.of_nat i + 1 → dinode_of ip = disk_inode k (Z.of_nat i + 1) →
  i_addrs ip = f_addrs f ∧ found_file k ip (f_type f) (size_of i (Z.of_nat (length (f_data f)))) (f_data f).
Proof.
  intros HM HF Hf Hin Hdi. pose proof (fin_img _ _ _ HF) as HI. pose proof (im_file _ _ _ HI i f Hf) as HR.
  pose proof (fin_room _ _ _ HF) as Hroom. unfold NINODES in Hroom. pose proof (lookup_lt_Some _ _ _ Hf) as Hlt.
  assert (Hi : 0 ≤ Z.of_nat i + 1 < 208) by lia. destruct (inode_sector _ Hi) as (HIB & Hir & _).
  unfold disk_inode in Hdi. rewrite (mounted_sb _ _ HM (fin_sb _ _ _ HF)), HIB, (mt_blocks _ _ HM) in Hdi by (unfold FSSIZE; lia).
  fold (din_of img (Z.of_nat i + 1)) in Hdi. rewrite (fin_inode _ _ _ HF i f Hf) in Hdi. injection Hdi as Hty _ _ Hnl Hsz Had.
  split; [done|]. assert (Hfa := λ bn, mounted_faddr _ _ _ _ _ _ ip bn HM HI Hf Had).
  assert (Hdata : ∀ q, 0 ≤ q ≤ MAXFILE → baddr img (f_addrs f) q = 0 ∨ data_ok k (i_inum ip) (baddr img (f_addrs f) q)).
  { intros q Hq. destruct (decide (baddr img (f_addrs f) q = 0)); [by left|right]. rewrite Hin. eapply mounted_data; [done|done|lia|]. by apply (fr_range _ _ _ HR). }
  assert (HM0 : iaddr ip 12 = baddr img (f_addrs f) MAXFILE) by (unfold iaddr; by rewrite Had). pose proof maxfile as Hmx.
  split; [split|done..|].
  - rewrite Had. apply (fr_len _ _ _ HR).
  - rewrite HM0. apply Hdata. lia.
  - intros bn Hbn. rewrite Hfa by done. apply Hdata. lia.
  - intros bn bn' Hb Hb'. rewrite !Hfa by done. apply (fr_inj _ _ _ HR); lia.
  - intros bn Hb. rewrite Hfa, HM0 by done. intros Hnz Heq. assert (bn = MAXFILE) by (apply (fr_inj _ _ _ HR); [lia|lia|done|done]). lia.
  - intros o Ho. unfold fbyte. assert (Hob : 0 ≤ o / BSIZE < MAXFILE) by (split; [apply Z.div_pos; [lia|done]|apply Z.div_lt_upper_bound; [done|lia]]).
    rewrite Hfa by done. destruct (Z.eqb_spec (baddr img (f_addrs f) (o / BSIZE)) 0) as [Hz|Hnz].
    + symmetry. unfold byte_at. rewrite lookup_ge_None_2; [done|]. pose proof (fr_size _ _ _ HR).
      destruct (decide (o / BSIZE < f_nb f)) as [Hl|]; [exfalso; apply (fr_slots _ _ _ HR (o / BSIZE)); [lia|left; lia|done]|].
      assert (f_nb f * BSIZE ≤ o) by (pose proof (Z.mul_div_le o BSIZE eq_refl); unfold BSIZE in *; lia). lia.
    + assert (Hle : 0 ≤ o / BSIZE ≤ MAXFILE) by lia. pose proof (fr_range _ _ _ HR _ Hle Hnz). pose proof (im_fb _ _ _ HI). rewrite (mt_blocks _ _ HM) by (change nmeta with 59 in *; lia).
      apply (fr_bytes _ _ _ HR). apply (fr_slots _ _ _ HR) in Hnz; [|lia]. destruct Hnz as [[_ Hnz]|[? _]]; [|lia].
      pose proof (Z.mul_succ_div_gt o BSIZE eq_refl). unfold BSIZE in *. nia.
Qed.

(** The contents of a directory, entry by entry. *)
Lemma drop_dirents (E : list (list Z)) : Forall (λ e, length e = 16%nat) E → ∀ j, drop (16 * j) (concat E) = concat (drop j E).
Proof.
  induction 1 as [|e E He _ IH]; intros j; [cbn [concat]; by rewrite !drop_nil|]. destruct j as [|j]; [done|]. cbn [drop concat].
  rewrite <- IH, drop_app_ge by lia. f_equal. lia.
Qed.

Lemma bytes_from (l : list Z) j : (λ o, byte_at l (Z.to_nat o)) <$> seqZ (16 * Z.of_nat j) 16 = byte_at (drop (16 * j) l) <$> seq 0 16.
Proof.
  unfold seqZ. rewrite <- list_fmap_compose. apply list_fmap_ext. intros t x Hx. cbn. unfold byte_at. rewrite lookup_drop. do 2 f_equal. lia.
Qed.

Lemma dirents_split (E : list (list Z)) n : Forall (λ e, length e = 16%nat) E →
  (λ j, (λ o, byte_at (concat E) (Z.to_nat o)) <$> seqZ (16 * Z.of_nat j) 16) <$> seq 0 (length E + n) = E ++ replicate n (replicate 16 0).
Proof.
  intros HE. rewrite seq_app, fmap_app. f_equal.
  - apply list_eq_same_length with (length E); [done|by rewrite length_fmap, length_seq|]. intros j x y Hj Hx Hy.
    apply list_lookup_fmap_Some in Hx as (j' & -> & [-> _]%lookup_seq). change (0 + j)%nat with j. rewrite bytes_from, drop_dirents by done.
    rewrite (drop_S _ _ _ Hy). cbn [concat]. pose proof (Forall_lookup_1 _ _ _ _ HE Hy) as Hl. cbn in Hl.
    do 17 (destruct y as [|? y]; try done).
  - apply list_eq_same_length with n; [by rewrite length_replicate|by rewrite length_fmap, length_seq|]. intros j x y Hj Hx Hy.
    apply list_lookup_fmap_Some in Hx as (j' & -> & [-> _]%lookup_seq). apply lookup_replicate in Hy as [-> _].
    rewrite bytes_from, drop_dirents, drop_ge by (done || lia). done.
Qed.

(** [ip] has what the disk has of file [i], inode [i + 1]. *)
Definition is_file (k : kernel) (i : nat) (ip : inode) : Prop :=
  i_inum ip = Z.of_nat i + 1 ∧ dinode_of ip = disk_inode k (Z.of_nat i + 1).

Lemma root_entries_found k ip n files :
  found_file k ip T_DIR ((n / BSIZE + 1) * BSIZE) (concat (root_dirents files)) →
  n = Z.of_nat (length (concat (root_dirents files))) → Z.of_nat (length files) + 1 < NINODES →
  ∃ m, dentries k ip = root_dirents files ++ replicate m (replicate 16 0).
Proof.
  intros Hff Hn Hf. rewrite root_length in Hn. unfold NINODES in Hf.
  assert (HE : Forall (λ e, length e = 16%nat) (root_dirents files)).
  { unfold root_dirents. repeat (constructor; [apply dirent_length|]). generalize 2 as j. induction files.*1 as [|nm l IH]; intros j; constructor; [apply dirent_length|apply IH]. }
  assert (HL : (length (root_dirents files) = length files + 2)%nat).
  { unfold root_dirents. cbn [length]. rewrite <- (length_fmap fst files). generalize 2 as j. induction files.*1 as [|nm l IH]; intros j; [done|]. cbn [dir_entries length] in *. specialize (IH (j + 1)). lia. }
  pose proof (Z.div_mod n 512 ltac:(lia)) as Hdm. pose proof (Z.mod_pos_bound n 512 ltac:(lia)) as Hmb. unfold BSIZE in *.
  exists (Z.to_nat (((n / 512 + 1) * 512) / 16) - length (root_dirents files))%nat. rewrite <- (dirents_split _ _ HE).
  assert (Hq : (n / 512 + 1) * 512 / 16 = (n / 512 + 1) * 32) by (replace ((n / 512 + 1) * 512) with ((n / 512 + 1) * 32 * 16) by lia; apply Z.div_mul; lia).
  unfold dentries, dent, DIRENTSZ. rewrite (ff_size _ _ _ _ _ Hff), Hq.
  replace (Z.to_nat ((n / 512 + 1) * 32)) with (length (root_dirents files) + (Z.to_nat ((n / 512 + 1) * 32) - length (root_dirents files)))%nat at 1 by lia.
  apply list_fmap_ext. intros x j [-> Hj]%lookup_seq. apply list_fmap_ext. intros y o [-> Ho]%lookup_seqZ.
  apply (ff_bytes _ _ _ _ _ Hff). rewrite maxfile. unfold BSIZE. lia.
Qed.

(** C16: mkfs makes the file system that the kernel expects. For files that
    fit (names without a slash, at most MAXFILE blocks each, fewer than NINODES
    inodes, FSSIZE blocks in all), main ends normally, and a kernel that has the
    image as its disk finds: the super block with the layout of fs.h; an empty
    log; exactly the blocks up to the last allocated one in use; as inodes 1, 2,
    3, ... the root directory and the files in the order of the arguments, each
    with its type, one link, its size and its bytes, zeroes after the end, in
    blocks that are in use and are neither log, inode nor bitmap blocks, no
    block twice in a file or in two files; in the root directory the entries
    ".", ".." and one for each file, without the leading underscore, and
    unused entries after them. *)
Theorem mkfs_image s files :
  fsimg s = [] → freeinode s = 1 → fits_image files →
  ∃ s', main (arg_of <$> files) s = Ret tt s' ∧ sectors (fsimg s') ∧
  ∀ k, mounted (fsimg s') k →
    sb k = mkSuperblock FSSIZE (FSSIZE - nmeta) NINODES LOGSIZE 2 (2 + LOGSIZE) (2 + LOGSIZE + ninodeblocks)
    ∧ hdr_n (contents k (sb_logstart (sb k))) = 0
    ∧ (∀ b, 0 ≤ b < FSSIZE → used k b = (b <? nmeta + total (all_files files)))
    ∧ (∀ i ip ty data, all_files files !! i = Some (ty, data) → is_file k i ip →
         found_file k ip ty (size_of i (Z.of_nat (length data))) data)
    ∧ (∀ i j ip jp bn bn', is_file k i ip → is_file k j jp → i ≠ j → (i < length (all_files files))%nat → (j < length (all_files files))%nat →
         0 ≤ bn < MAXFILE → 0 ≤ bn' < MAXFILE → faddr k ip bn ≠ 0 → faddr k ip bn ≠ faddr k jp bn')
    ∧ (∀ ip, is_file k 0 ip → ∃ m, dentries k ip = root_dirents files ++ replicate m (replicate 16 0)).
Proof.
  intros Hi Hfi Hfit. destruct (main_files s files Hi Hfi Hfit) as (s1 & HV & Em).
  destruct (rootsize_bitmap_run s1 files HV (fi_count _ Hfit)) as (s' & F & Ef & HF & HFo). exists s'.
  split; [by rewrite Em|]. pose proof (fin_img _ _ _ HF) as HI. split; [exact (im_sec _ _ _ HI)|]. intros k HM.
  pose proof (mounted_sb _ _ HM (fin_sb _ _ _ HF)) as Hsb.
  assert (Hfound : ∀ i ip ty data, all_files files !! i = Some (ty, data) → is_file k i ip →
     ∃ f, F !! i = Some f ∧ i_addrs ip = f_addrs f ∧ found_file k ip ty (size_of i (Z.of_nat (length data))) data).
  { intros i ip ty data Hi' [H1 H2]. rewrite <- HFo in Hi'. apply list_lookup_fmap_Some in Hi' as (f & [= -> ->] & Hf).
    exists f. split; [done|]. by apply (found_inode (fsimg s') (nmeta + total (all_files files)) F). }
  split_and!.
  - rewrite Hsb. done.
  - rewrite Hsb. cbn [sb_logstart sb0]. rewrite (mt_blocks _ _ HM), (fin_log _ _ _ HF) by (unfold FSSIZE; lia). done.
  - intros b Hb. assert (Hb' : 0 ≤ b < BPB) by (unfold FSSIZE in Hb; change BPB with 4096; lia).
    unfold used. rewrite Hsb. unfold BBLOCK. rewrite Z.div_small, Z.mod_small by done. change (u32 (0 + sb_bmapstart sb0)) with 58.
    rewrite (mt_blocks _ _ HM) by (unfold FSSIZE; lia). by apply (fin_bits _ _ _ HF).
  - intros i ip ty data H1 H2. by destruct (Hfound i ip ty data H1 H2) as (f & _ & _ & ?).
  - intros i j ip jp bn bn' H1 H2 Hij Hli Hlj Hb Hb' Hnz Heq.
    destruct (lookup_lt_is_Some_2 _ _ Hli) as [[ty d] Hx], (lookup_lt_is_Some_2 _ _ Hlj) as [[ty' d'] Hy].
    destruct (Hfound i ip ty d Hx H1) as (f & Hf & Ha & _), (Hfound j jp ty' d' Hy H2) as (g & Hg & Ha' & _).
    rewrite (mounted_faddr _ _ _ _ _ _ ip bn HM HI Hf Ha Hb) in Hnz, Heq. rewrite (mounted_faddr _ _ _ _ _ _ jp bn' HM HI Hg Ha' Hb') in Heq.
    apply Hnz. apply (im_disj _ _ _ HI i j f g bn bn'); [done..|lia|lia|done].
  - intros ip H1. destruct (Hfound 0%nat ip T_DIR (concat (root_dirents files)) eq_refl H1) as (f & _ & _ & Hff).
    by apply (root_entries_found k ip _ files Hff eq_refl (fi_count _ Hfit)).
Qed.
End Mounted.

(** ** A small image *)

Definition plat_img : Platform :=
  plat 8 (FSSIZE * BSIZE).
#[local] Existing Instance plat_img.
#[local] Existing Instance Memide.driver.

Definition start : mkfs := mkMkfs [] 1 0 (mkSuperblock 0 0 0 0 0 0 0).
(** mkfs fs.img README _cat, where README holds "hi" and _cat is read in two pieces *)
Definition two_files : list (list Z * list (list Z)) := [([82; 69; 65; 68; 77; 69], [[104; 105]]); ([95; 99; 97; 116], [[1; 2; 3]; [4]])].

(** A kernel with an image as its disk, nothing cached. *)
Definition on_image (img : list (list Z)) : kernel :=
  kernel_zero <| bcache := fresh_cache |> <| disk := kmap (λ b, (1, b)) (map_seqZ 0 img : gmap Z (list Z)) |>
    <| klog := log_at (sb_logstart (superblock_of (sect img 1))) (sb_nlog (superblock_of (sect img 1))) |>
    <| sb := superblock_of (sect img 1) |>.

Lemma on_image_contents img b : 0 ≤ b → contents (on_image img) b = sect img b.
Proof.
  intros Hb. unfold contents. rewrite fresh_view by done. unfold dk, on_image. sst.
  rewrite (lookup_kmap (λ b, (1, b))), lookup_map_seqZ, option_guard_True by done.
  unfold sect. rewrite (proj2 (Z.leb_le 0 b)) by done. by rewrite Z.sub_0_r.
Qed.

Lemma on_image_mounted img : mounted img (on_image img).
Proof.
  split; [|done| |done|done].
  - intros b Hb. apply on_image_contents. lia.
  - rewrite on_image_contents by lia. reflexivity.
Qed.

Lemma two_files_fit : fits_image two_files.
Proof.
  split; [|done|done]. constructor; [|constructor; [|done]]; (split; [|by vm_compute]); cbn; rewrite !not_elem_of_cons; repeat split; done || apply not_elem_of_nil.
Qed.

Lemma mkfs_image_witness :
  ∃ s', main (arg_of <$> two_files) start = Ret tt s'
    ∧ (∀ ip, is_file (on_image (fsimg s')) 2 ip → i_size ip = 4 ∧ fbyte (on_image (fsimg s')) ip 3 = 4)
    ∧ (∀ ip, is_file (on_image (fsimg s')) 0 ip → dinum (dentries (on_image (fsimg s')) ip) [99; 97; 116] = Some 3).
Proof.
  destruct (mkfs_image start two_files eq_refl eq_refl two_files_fit) as (s' & E & Hsec & H).
  destruct (H _ (on_image_mounted (fsimg s'))) as (_ & _ & _ & Hf & _ & Hd). exists s'. split; [exact E|]. split.
  - intros ip Hip. destruct (Hf 2%nat ip T_FILE [1; 2; 3; 4] eq_refl Hip) as [_ _ _ H4 H5]. split; [exact H4|].
    rewrite H5; [reflexivity|rewrite maxfile; unfold BSIZE; lia].
  - intros ip Hip. destruct (Hd ip Hip) as [m Hm]. rewrite Hm. reflexivity.
Defined.
