(* ===== verification/Condev.v ===== *)
(** The console as a device (console.c): consoleread and consolewrite, and the
    device switch that holds them. *)

From S2P Require Import Prelude Types Spinlock Sched Console Ide Bio Blocks Bytes Log Fs.

Section Condev.
Context {P : Platform} {D : DiskDriver}.

(** [while(input.r == input.w)]: wait for a line; [false] when the process was
    killed.  [n] bounds how often it is woken. *)
Fixpoint consoleread_wait (n : nat) : K bool :=
  k ← gets kcons;
  if in_r k =? in_w k then
    p ← curproc_idx;
    pr ← getproc p;
    if killed pr then mret false else
    match n with
    | O => nofuel
    | S n' => sleep ChInput LCons;; consoleread_wait n'
    end
  else mret true.

(** The outer loop: [n] characters are still wanted of [target].  The result
    says whether the process was killed, and what was stored. *)
Fixpoint consoleread_loop (n : nat) (target : Z) : K (bool * list Z) :=
  match n with
  | O => mret (false, [])
  | S n' =>
      ok ← consoleread_wait fuel;
      if negb ok then mret (true, []) else
      k ← gets kcons;
      let c := in_at k (in_r k) in
      upd_cons (λ k, k <| in_r ::= λ r, uadd r 1 |>);;
      if c =? CTRL 68 then
        when (Z.of_nat n <? target) (upd_cons (λ k, k <| in_r ::= λ r, usub r 1 |>));;
        mret (false, [])
      else if c =? 10 then mret (false, [u8 c])
      else
        '(dead, rest) ← consoleread_loop n' target;
        mret (dead, u8 c :: rest)
  end.

Definition consoleread (ip : nat) (n : Z) : K (Z * list Z) :=
  iunlock (Some ip);;
  acquire LCons;;
  '(dead, bs) ← consoleread_loop (Z.to_nat n) n;
  release LCons;;
  ilock (Some ip);;
  mret (if (dead : bool) then -1 else Z.of_nat (length bs), bs).

Definition consolewrite (ip : nat) (src : list Z) : K Z :=
  iunlock (Some ip);;
  acquire LCons;;
  for_each src (λ c, consputc (Z.land c 255));;
  release LCons;;
  ilock (Some ip);;
  mret (Z.of_nat (length src)).

(** [devsw] as consoleinit fills it. *)
Definition console_devsw : Devsw := {|
  dev_read := λ major, if major =? CONSOLE then Some consoleread else None;
  dev_write := λ major, if major =? CONSOLE then Some consolewrite else None
|}.
End Condev.
