(* ===== verification/Pipe.v ===== *)
(** Pipes (pipe.c): a ring of bytes between the descriptors of a pipe. *)

From S2P Require Import Prelude Types Spinlock Strings Kalloc Sched.

Definition PIPESIZE : Z := 512.

Definition getpipe (p : Z) : K pipe := pp ← gets (λ s, pipes s !! p); deref pp.
Definition upd_pipe (p : Z) (f : pipe → pipe) : K unit :=
  pp ← gets (λ s, pipes s !! p);
  match pp with Some _ => modify (λ s, s <| pipes ::= alter f p |>) | None => fault end.

(** [p->data[i % PIPESIZE]]. *)
Definition pipe_at (pp : pipe) (i : Z) : Z := default 0 (pi_data pp !! Z.to_nat (i mod PIPESIZE)).

Section Pipe.
Context {P : Platform}.

Definition pipeclose (p : Z) (writable : bool) : K unit :=
  acquire (LPipe p);;
  (if writable then
     upd_pipe p (λ pp, pp <| pi_writeopen := false |>);;
     wakeup (ChPipeR p)
   else
     upd_pipe p (λ pp, pp <| pi_readopen := false |>);;
     wakeup (ChPipeW p));;
  pp ← getpipe p;
  if (negb (pi_readopen pp) && negb (pi_writeopen pp))%bool then
    release (LPipe p);;
    modify (λ s, s <| pipes ::= delete p |>);;
    kfree p
  else release (LPipe p).

(** [while(p->nwrite == p->nread + PIPESIZE)]: wait for room; [false] when the
    write must give up.  [n] bounds how often it is woken. *)
Fixpoint pipewrite_wait (n : nat) (p : Z) : K bool :=
  pp ← getpipe p;
  if pi_nwrite pp =? uadd (pi_nread pp) PIPESIZE then
    c ← curproc_idx;
    pr ← getproc c;
    if (negb (pi_readopen pp) || killed pr)%bool then mret false else
    match n with
    | O => nofuel
    | S n' =>
        wakeup (ChPipeR p);;
        sleep (ChPipeW p) (LPipe p);;
        pipewrite_wait n' p
    end
  else mret true.

(** [p->data[p->nwrite++ % PIPESIZE] = c]. *)
Definition pipe_put (c : Z) (pp : pipe) : pipe :=
  pp <| pi_data ::= <[Z.to_nat (pi_nwrite pp mod PIPESIZE) := c]> |> <| pi_nwrite ::= λ w, uadd w 1 |>.

Fixpoint pipewrite_loop (p : Z) (src : list Z) : K bool :=
  match src with
  | [] => mret true
  | c :: src' =>
      ok ← pipewrite_wait fuel p;
      if negb ok then mret false else
      upd_pipe p (pipe_put c);;
      pipewrite_loop p src'
  end.

(** pipewrite of the bytes [src]. *)
Definition pipewrite (p : Z) (src : list Z) : K Z :=
  acquire (LPipe p);;
  ok ← pipewrite_loop p src;
  if negb ok then release (LPipe p);; mret (-1) else
  wakeup (ChPipeR p);;
  release (LPipe p);;
  mret (Z.of_nat (length src)).

(** [while(p->nread == p->nwrite && p->writeopen)]. *)
Fixpoint piperead_wait (n : nat) (p : Z) : K bool :=
  pp ← getpipe p;
  if ((pi_nread pp =? pi_nwrite pp) && pi_writeopen pp)%bool then
    c ← curproc_idx;
    pr ← getproc c;
    if killed pr then mret false else
    match n with
    | O => nofuel
    | S n' => sleep (ChPipeR p) (LPipe p);; piperead_wait n' p
    end
  else mret true.

(** The copy loop: at most [n] bytes. *)
Fixpoint piperead_copy (n : nat) (p : Z) : K (list Z) :=
  match n with
  | O => mret []
  | S n' =>
      pp ← getpipe p;
      if pi_nread pp =? pi_nwrite pp then mret [] else
      let c := pipe_at pp (pi_nread pp) in
      upd_pipe p (λ pp, pp <| pi_nread ::= λ r, uadd r 1 |>);;
      rest ← piperead_copy n' p;
      mret (c :: rest)
  end.

(** piperead: the result and the bytes stored at [addr]. *)
Definition piperead (p : Z) (n : Z) : K (Z * list Z) :=
  acquire (LPipe p);;
  ok ← piperead_wait fuel p;
  if negb ok then release (LPipe p);; mret (-1, []) else
  bs ← piperead_copy (Z.to_nat n) p;
  wakeup (ChPipeW p);;
  release (LPipe p);;
  mret (Z.of_nat (length bs), bs).
End Pipe.

(** ** The queue in the ring

    [nread] and [nwrite] count modulo [2^32], of which [PIPESIZE] is a divisor:
    the ring survives the overflow of its counters. *)

Definition pipe_count (pp : pipe) : Z := usub (pi_nwrite pp) (pi_nread pp).
Definition pipe_queue (pp : pipe) : list Z :=
  (λ i, pipe_at pp (pi_nread pp + Z.of_nat i)) <$> seq 0 (Z.to_nat (pipe_count pp)).

Record pipe_ok (pp : pipe) : Prop := {
  po_data : length (pi_data pp) = Z.to_nat PIPESIZE;
  po_nread : is_u32 (pi_nread pp);
  po_nwrite : is_u32 (pi_nwrite pp);
  po_count : pipe_count pp ≤ PIPESIZE
}.

Lemma pipe_count_nonneg pp : 0 ≤ pipe_count pp.
Proof. apply u32_range. Qed.

Lemma length_pipe_queue pp : length (pipe_queue pp) = Z.to_nat (pipe_count pp).
Proof. unfold pipe_queue. by rewrite length_fmap, length_seq. Qed.

Lemma nwrite_count pp : pipe_ok pp → pi_nwrite pp = u32 (pi_nread pp + pipe_count pp).
Proof.
  intros H. unfold pipe_count, usub. rewrite u32_add_r.
  replace (_ + _) with (pi_nwrite pp) by lia. symmetry. apply u32_small, H.
Qed.

Lemma mod_PIPESIZE x : u32 x mod PIPESIZE = x mod PIPESIZE.
Proof. exact (u32_mod_pow2 x 9 ltac:(lia)). Qed.

Lemma pipe_full pp : pipe_ok pp → (pi_nwrite pp =? uadd (pi_nread pp) PIPESIZE) = (pipe_count pp =? PIPESIZE).
Proof.
  intros H. pose proof (po_nread _ H). pose proof (po_nwrite _ H).
  unfold pipe_count, uadd, usub, u32, PIPESIZE, is_u32 in *. 
  destruct (Z.eqb_spec (pi_nwrite pp) ((pi_nread pp + 512) mod 2 ^ 32)) as [E|E],
    (Z.eqb_spec ((pi_nwrite pp - pi_nread pp) mod 2 ^ 32) 512) as [E'|E']; try done; exfalso.
  - apply E'. rewrite E, Zminus_mod_idemp_l. by replace (_ - _) with 512 by lia.
  - apply E. rewrite <- E', Zplus_mod_idemp_r. replace (_ + _) with (pi_nwrite pp) by lia.
    by rewrite Z.mod_small.
Qed.

Lemma pipe_empty pp : pipe_ok pp → (pi_nread pp =? pi_nwrite pp) = (pipe_count pp =? 0).
Proof.
  intros H. pose proof (po_nread _ H). rewrite (nwrite_count pp H) at 1.
  pose proof (pipe_count_nonneg pp). pose proof (po_count _ H). unfold u32, is_u32, PIPESIZE in *.
  destruct (Z.eqb_spec (pipe_count pp) 0) as [->|E].
  - rewrite Z.add_0_r, Z.mod_small by done. apply Z.eqb_refl.
  - apply Z.eqb_neq. intros E'. 
    destruct (decide (pi_nread pp + pipe_count pp < 2 ^ 32)).
    + rewrite Z.mod_small in E'; lia.
    + rewrite <- (Z_mod_plus_full _ (-1)), Z.mod_small in E'; lia.
Qed.

Lemma pipe_put_ok c pp :
  pipe_ok pp → pipe_count pp < PIPESIZE →
  pipe_ok (pipe_put c pp) ∧ pipe_queue (pipe_put c pp) = pipe_queue pp ++ [c].
Proof.
  intros H Hc. pose proof (pipe_count_nonneg pp) as Hn.
  assert (Hc' : pipe_count (pipe_put c pp) = pipe_count pp + 1).
  { unfold pipe_put, pipe_count, usub, uadd. sst. rewrite u32_sub_l.
    replace (pi_nwrite pp + 1 - pi_nread pp) with (pi_nwrite pp - pi_nread pp + 1) by lia.
    rewrite <- u32_add_l. apply u32_small. unfold is_u32. change (u32 (pi_nwrite pp - pi_nread pp)) with (pipe_count pp).
    unfold PIPESIZE in *. lia. }
  split.
  { split; [| | |rewrite Hc'; lia]; unfold pipe_put; sst.
    - rewrite length_insert. apply H.
    - apply H.
    - apply u32_range. }
  unfold pipe_queue. rewrite Hc', Z2Nat.inj_add by lia. rewrite seq_app, fmap_app. cbn.
  assert (Hd : ∀ i, 0 ≤ i ≤ pipe_count pp → pipe_at (pipe_put c pp) (pi_nread pp + i)
                 = if decide (i = pipe_count pp) then c else pipe_at pp (pi_nread pp + i)).
  { intros i Hi. unfold pipe_at, pipe_put. sst. rewrite (nwrite_count pp H), mod_PIPESIZE.
    pose proof (Z.mod_pos_bound (pi_nread pp + i) PIPESIZE ltac:(done)).
    pose proof (Z.mod_pos_bound (pi_nread pp + pipe_count pp) PIPESIZE ltac:(done)).
    case_decide as E.
    - subst i. rewrite list_lookup_insert_eq; [done|]. rewrite (po_data _ H). lia.
    - rewrite list_lookup_insert_ne; [done|]. intros E'. apply Z2Nat.inj in E'; [|lia..].
      assert (Hz : (pipe_count pp - i) mod PIPESIZE = 0).
      { replace (pipe_count pp - i) with (pi_nread pp + pipe_count pp - (pi_nread pp + i)) by lia.
        by rewrite Zminus_mod, E', Z.sub_diag. }
      rewrite Z.mod_small in Hz; lia. }
  f_equal.
  - apply list_fmap_ext. intros i x Hx. apply lookup_seq in Hx as [-> Hx]. cbn [Nat.add].
    change (pi_nread (pipe_put c pp)) with (pi_nread pp). rewrite Hd by lia. by rewrite decide_False by lia.
  - change (Z.to_nat 1) with 1%nat. cbn [seq fmap list_fmap]. change (pi_nread (pipe_put c pp)) with (pi_nread pp).
    rewrite Z2Nat.id, Hd by lia. by rewrite decide_True.
Qed.

(** [p->nread++]. *)
Definition pipe_next (pp : pipe) : pipe := pp <| pi_nread ::= λ r, uadd r 1 |>.

Lemma pipe_next_ok pp :
  pipe_ok pp → 0 < pipe_count pp →
  pipe_ok (pipe_next pp) ∧ pipe_queue pp = pipe_at pp (pi_nread pp) :: pipe_queue (pipe_next pp).
Proof.
  intros H Hc. pose proof (po_count _ H) as Hle.
  assert (Hc' : pipe_count (pipe_next pp) = pipe_count pp - 1).
  { unfold pipe_next, pipe_count, usub, uadd. sst. rewrite u32_sub_r.
    replace (pi_nwrite pp - (pi_nread pp + 1)) with (pi_nwrite pp - pi_nread pp - 1) by lia.
    rewrite <- u32_sub_l. apply u32_small. change (u32 (pi_nwrite pp - pi_nread pp)) with (pipe_count pp).
    unfold is_u32, PIPESIZE in *. lia. }
  split.
  { split; [apply H|apply u32_range|apply H|rewrite Hc'; lia]. }
  unfold pipe_queue. rewrite Hc'. replace (Z.to_nat (pipe_count pp)) with (S (Z.to_nat (pipe_count pp - 1))) by lia.
  cbn [seq fmap list_fmap]. f_equal; [f_equal; lia|].
  rewrite <- seq_shift, <- list_fmap_compose. apply list_fmap_ext. intros i x _. cbn [compose].
  unfold pipe_at, pipe_next. cbv beta. sst. f_equal. f_equal. f_equal.
  rewrite <- (mod_PIPESIZE (uadd _ _ + _)). unfold uadd. rewrite u32_add_l, mod_PIPESIZE. f_equal. lia.
Qed.

(** ** Running the operations *)

Lemma getpipe_run s p pp : pipes s !! p = Some pp → getpipe p s = Ret pp s.
Proof. intros H. unfold getpipe. run. by rewrite H. Qed.

Lemma upd_pipe_run s p pp f :
  pipes s !! p = Some pp → upd_pipe p f s = Ret tt (s <| pipes ::= <[p := f pp]> |>).
Proof.
  intros H. unfold upd_pipe. run. rewrite H. unfold modify. f_equal.
  unfold set, set_pipes. cbn. f_equal. apply map_eq. intros i. destruct (decide (i = p)) as [->|].
  - by rewrite lookup_alter_eq, lookup_insert_eq, H.
  - by rewrite lookup_alter_ne, lookup_insert_ne.
Qed.

Lemma set_pipes_twice s p (a b : pipe) :
  s <| pipes ::= <[p := a]> |> <| pipes ::= <[p := b]> |> = s <| pipes ::= <[p := b]> |>.
Proof. unfold set, set_pipes. cbn. by rewrite insert_insert_eq. Qed.

Lemma set_pipes_same s p pp : pipes s !! p = Some pp → s <| pipes ::= <[p := pp]> |> = s.
Proof. intros H. unfold set, set_pipes. destruct s; cbn in *. f_equal. by rewrite insert_id. Qed.

(** The fields the transfer of bytes leaves alone. *)
Definition same_ends (pp pp' : pipe) : Prop :=
  pi_readopen pp' = pi_readopen pp ∧ pi_writeopen pp' = pi_writeopen pp.

Section Pipe_run.
Context {P : Platform}.

Lemma pipewrite_wait_room n p s pp :
  pipes s !! p = Some pp → pipe_ok pp → pipe_count pp < PIPESIZE →
  pipewrite_wait n p s = Ret true s.
Proof.
  intros Hp Hok Hc. destruct n; cbn [pipewrite_wait]; (run_by (by apply getpipe_run));
    rewrite pipe_full by done; (destruct (Z.eqb_spec (pipe_count pp) PIPESIZE); [lia|done]).
Qed.

Lemma pipewrite_loop_run p src s pp :
  pipes s !! p = Some pp → pipe_ok pp → pipe_count pp + Z.of_nat (length src) ≤ PIPESIZE →
  ∃ pp', pipewrite_loop p src s = Ret true (s <| pipes ::= <[p := pp']> |>)
    ∧ pipe_ok pp' ∧ pipe_queue pp' = pipe_queue pp ++ src ∧ same_ends pp pp'.
Proof.
  revert s pp. induction src as [|c src IH]; intros s pp Hp Hok Hl; cbn [pipewrite_loop].
  { exists pp. rewrite set_pipes_same, app_nil_r by done. done. }
  cbn [length] in Hl. run_by (eapply pipewrite_wait_room; eauto; lia). cbn [negb].
  run_by (by apply upd_pipe_run). destruct (pipe_put_ok c pp Hok ltac:(lia)) as [Hok1 Hq1].
  destruct (IH (s <| pipes ::= <[p := pipe_put c pp]> |>) (pipe_put c pp)) as (pp' & Hr & Hok' & Hq & He).
  { sst. by rewrite lookup_insert_eq. }
  { done. }
  { pose proof (length_pipe_queue (pipe_put c pp)) as E. rewrite Hq1, length_app, length_pipe_queue in E.
    cbn in E. pose proof (pipe_count_nonneg pp). pose proof (pipe_count_nonneg (pipe_put c pp)). lia. }
  exists pp'. rewrite Hr, set_pipes_twice, Hq, Hq1, <- app_assoc. by destruct He.
Qed.

Lemma piperead_wait_run n p s pp :
  pipes s !! p = Some pp → pipe_ok pp → 0 < pipe_count pp ∨ pi_writeopen pp = false →
  piperead_wait n p s = Ret true s.
Proof.
  intros Hp Hok Hc. destruct n; cbn [piperead_wait]; (run_by (by apply getpipe_run));
    rewrite pipe_empty by done;
    (destruct Hc as [Hc| ->]; [|by rewrite andb_false_r]);
    (destruct (Z.eqb_spec (pipe_count pp) 0); [lia|done]).
Qed.

Lemma piperead_copy_run n p s pp :
  pipes s !! p = Some pp → pipe_ok pp →
  ∃ pp', piperead_copy n p s = Ret (take n (pipe_queue pp)) (s <| pipes ::= <[p := pp']> |>)
    ∧ pipe_ok pp' ∧ pipe_queue pp' = drop n (pipe_queue pp) ∧ same_ends pp pp'.
Proof.
  revert s pp. induction n as [|n IH]; intros s pp Hp Hok; cbn [piperead_copy].
  { exists pp. rewrite set_pipes_same by done. done. }
  run_by (by apply getpipe_run). rewrite pipe_empty by done.
  pose proof (pipe_count_nonneg pp). destruct (Z.eqb_spec (pipe_count pp) 0) as [E|E].
  { assert (Hq : pipe_queue pp = []) by (apply nil_length_inv; rewrite length_pipe_queue; lia).
    exists pp. rewrite set_pipes_same, Hq by done. done. }
  destruct (pipe_next_ok pp Hok ltac:(lia)) as [Hok1 Hq1].
  run_by (by apply upd_pipe_run). fold (pipe_next pp).
  destruct (IH (s <| pipes ::= <[p := pipe_next pp]> |>) (pipe_next pp)) as (pp' & Hr & Hok' & Hq & He).
  { sst. by rewrite lookup_insert_eq. }
  { done. }
  exists pp'. run_by (exact Hr). rewrite set_pipes_twice, Hq, Hq1. cbn [take drop]. by destruct He.
Qed.

(** The state after a transfer: the pipe replaced, sleepers of [ch] woken. *)
Definition pipe_moved (s : kernel) (p : Z) (pp : pipe) (ch : chan) : kernel :=
  s <| pipes ::= <[p := pp]> |> <| ptable ::= fmap (wake_one ch) |>.

Lemma pipe_finish ch p s pp {A} (r : A) :
  LPipe p ∉ held s → LPtable ∉ held s →
  (wakeup ch;; release (LPipe p);; mret r) (s <| held ::= cons (LPipe p) |> <| pipes ::= <[p := pp]> |>)
  = Ret r (pipe_moved s p pp ch).
Proof.
  intros H1 H2. run_by (apply wakeup_run; sst; set_solver).
  run_by (apply release_run; sst; set_solver). unfold mret, M_ret, pipe_moved. f_equal.
  exact (held_cons_remove (LPipe p) (s <| pipes ::= <[p := pp]> |> <| ptable ::= fmap (wake_one ch) |>)).
Qed.

Lemma pipewrite_run p src s pp :
  pipes s !! p = Some pp → pipe_ok pp → LPipe p ∉ held s → LPtable ∉ held s →
  Z.of_nat (length (pipe_queue pp) + length src) ≤ PIPESIZE →
  ∃ pp', pipewrite p src s = Ret (Z.of_nat (length src)) (pipe_moved s p pp' (ChPipeR p))
    ∧ pipe_ok pp' ∧ pipe_queue pp' = pipe_queue pp ++ src ∧ same_ends pp pp'.
Proof.
  intros Hp Hok H1 H2 Hl. rewrite length_pipe_queue in Hl. pose proof (pipe_count_nonneg pp).
  unfold pipewrite. run_by (by apply acquire_run).
  set (s1 := s <| held ::= cons (LPipe p) |>).
  destruct (pipewrite_loop_run p src s1 pp Hp Hok ltac:(lia)) as (pp' & Hr & Hrest).
  run_by (exact Hr). cbn [negb]. exists pp'. unfold s1. rewrite pipe_finish by done. by split.
Qed.

Lemma piperead_run p n s pp :
  pipes s !! p = Some pp → pipe_ok pp → LPipe p ∉ held s → LPtable ∉ held s →
  pipe_queue pp ≠ [] ∨ pi_writeopen pp = false →
  ∃ pp', piperead p n s = Ret (Z.of_nat (length (take (Z.to_nat n) (pipe_queue pp))), take (Z.to_nat n) (pipe_queue pp))
                            (pipe_moved s p pp' (ChPipeW p))
    ∧ pipe_ok pp' ∧ pipe_queue pp' = drop (Z.to_nat n) (pipe_queue pp) ∧ same_ends pp pp'.
Proof.
  intros Hp Hok H1 H2 Hl.
  assert (Hc : 0 < pipe_count pp ∨ pi_writeopen pp = false).
  { destruct Hl as [Hl|]; [left|by right]. pose proof (pipe_count_nonneg pp).
    assert (length (pipe_queue pp) ≠ 0%nat) by (by destruct (pipe_queue pp)).
    rewrite length_pipe_queue in *. lia. }
  unfold piperead. run_by (by apply acquire_run).
  run_by (eapply piperead_wait_run; [exact Hp|done|done]). cbn [negb]. set (s1 := s <| held ::= cons (LPipe p) |>).
  destruct (piperead_copy_run (Z.to_nat n) p s1 pp Hp Hok) as (pp' & Hr & Hrest).
  run_by (exact Hr). exists pp'. unfold s1. rewrite pipe_finish by done. by split.
Qed.
End Pipe_run.

(** ** A writer among readers *)

(** A reader may run while the writer [cp] is off the CPU: the pipe loses a
    prefix of its queue. *)
Definition reader_runs (cp : nat) (p : Z) (s s' : kernel) : Prop :=
  held s' = [LPtable] ∧ curproc s' = Some cp ∧ is_Some (ptable s' !! cp)
  ∧ ∃ pp pp' j, pipes s !! p = Some pp ∧ pipes s' !! p = Some pp' ∧ pipe_ok pp'
      ∧ pipe_queue pp' = drop j (pipe_queue pp).

Definition sleeps_on (s : kernel) (cp : nat) (ch : chan) : Prop :=
  ∃ pr, ptable s !! cp = Some pr ∧ state pr = SLEEPING ∧ p_chan pr = Some ch.

(** [feeds cp p total src q o]: the thread with outcome [o], which found [q] in
    the pipe, appends the bytes [src] to it in order and returns [total].  It
    leaves the CPU only with the ring full, asleep on [&p->nwrite] and with no
    reader left asleep on [&p->nread]; it gives up only with the ring full and
    the read end closed or itself killed. *)
Fixpoint feeds (cp : nat) (p total : Z) (src q : list Z) (o : outcome kernel Z) : Prop :=
  match o with
  | Ret r s =>
      ∃ pp, pipes s !! p = Some pp ∧ pipe_ok pp ∧
        ((r = total ∧ pipe_queue pp = q ++ src)
         ∨ (r = -1 ∧ ∃ a b, src = a ++ b ∧ b ≠ [] ∧ pipe_queue pp = q ++ a
              ∧ Z.of_nat (length (q ++ a)) = PIPESIZE
              ∧ (pi_readopen pp = false ∨ ∃ pr, ptable s !! cp = Some pr ∧ killed pr = true)))
  | Switch s k =>
      ∃ pp a b, src = a ++ b ∧ b ≠ [] ∧ pipes s !! p = Some pp ∧ pipe_queue pp = q ++ a
        ∧ Z.of_nat (length (q ++ a)) = PIPESIZE
        ∧ sleeps_on s cp (ChPipeW p) ∧ (∀ i, ¬ sleeps_on s i (ChPipeR p))
        ∧ ∀ s', reader_runs cp p s s' →
            ∃ pp', pipes s' !! p = Some pp' ∧ feeds cp p total b (pipe_queue pp') (k s')
  | NoFuel => True
  | Panic _ _ | Fault => False
  end.

Lemma feeds_app cp p total a b q o : feeds cp p total b (q ++ a) o → feeds cp p total (a ++ b) q o.
Proof.
  destruct o as [r s| | | |s k]; cbn [feeds]; auto.
  - intros (pp & Hp & Hok & [[-> Hq]|(-> & a' & b' & -> & Hb & Hq & Hl & Hd)]); exists pp; split_and!; auto.
    + left. by rewrite Hq, app_assoc.
    + right. split; [done|]. exists (a ++ a'), b'. by rewrite !app_assoc.
  - intros (pp & a' & b' & -> & Hb & Hp & Hq & Hl & Hs). exists pp, (a ++ a'), b'.
    rewrite !app_assoc. done.
Qed.

Lemma feeds_assoc {A B} cp p total src q (o : outcome kernel A) (f : A → K B) (g : B → K Z) :
  feeds cp p total src q (obind o (λ a s, obind (f a s) g)) → feeds cp p total src q (obind (obind o f) g).
Proof.
  revert src q. induction o as [| | | |s k IH]; intros src q; cbn; auto.
  intros (pp & a & b & H1 & H2 & H3 & H4 & H5 & H6 & H7 & Hk). exists pp, a, b. split_and!; try done.
  intros s' Hs'. destruct (Hk s' Hs') as (pp' & Hp' & Hf). eauto.
Qed.

Section Stream.
Context {P : Platform} (cp : nat) (p total : Z).

(** What a running writer that holds the pipe's lock knows. *)
Definition writing (s : kernel) (pp : pipe) : Prop :=
  held s = [LPipe p] ∧ curproc s = Some cp ∧ is_Some (ptable s !! cp)
  ∧ pipes s !! p = Some pp ∧ pipe_ok pp.

(** The end of pipewrite. *)
Definition write_end (ok : bool) : K Z :=
  if negb ok then release (LPipe p);; mret (-1)
  else wakeup (ChPipeR p);; release (LPipe p);; mret total.

Lemma wait_feeds n s pp src (k : bool → K Z) :
  writing s pp → src ≠ [] → k false = write_end false →
  (∀ s2 pp2, writing s2 pp2 → pipe_count pp2 < PIPESIZE →
     feeds cp p total src (pipe_queue pp2) (k true s2)) →
  feeds cp p total src (pipe_queue pp) (obind (pipewrite_wait n p s) k).
Proof.
  intros Hw Hne Hf Hk. revert s pp Hw. induction n as [|n IH]; intros s pp Hw;
    destruct Hw as (Hh & Hc & [pr Hpr] & Hp & Hok); cbn [pipewrite_wait].
  all: rewrite (bind_run _ _ _ _ _ (getpipe_run s p pp Hp)); cbv beta; rewrite pipe_full by done.
  all: pose proof (po_count _ Hok); pose proof (pipe_count_nonneg pp).
  all: assert (Hw : writing s pp) by (unfold writing; eauto).
  all: destruct (Z.eqb_spec (pipe_count pp) PIPESIZE) as [E|E]; [|apply Hk; [done|lia]].
  all: run_by (by apply curproc_idx_run); run_by (by apply getproc_run).
  all: assert (Hl : Z.of_nat (length (pipe_queue pp ++ [])) = PIPESIZE)
         by (rewrite app_nil_r, length_pipe_queue; lia).
  all: destruct (negb (pi_readopen pp) || killed pr)%bool eqn:Hd.
  1,3: cbn [obind mret M_ret]; rewrite Hf; unfold write_end; cbn [negb];
       (rewrite (bind_run _ _ _ tt (s <| held ::= remove_lock (LPipe p) |>));
          [|apply release_run; rewrite Hh; set_solver]);
       exists pp; split_and!; [done|done|]; right; split; [done|];
       exists [], src; rewrite app_nil_r in *; split_and!; try done;
       apply orb_true_iff in Hd as [Hd|Hd]; [left; by apply negb_true_iff|right; by exists pr].
  { done. }
  rewrite (bind_run _ _ _ _ _ (wakeup_run (ChPipeR p) s ltac:(rewrite Hh; set_solver))). cbv beta.
  set (s1 := s <| ptable ::= fmap (wake_one (ChPipeR p)) |>).
  assert (Hpr1 : ptable s1 !! cp = Some (wake_one (ChPipeR p) pr)).
  { unfold s1. sst. by rewrite list_lookup_fmap, Hpr. }
  destruct (sleep_run (ChPipeW p) (LPipe p) s1 cp _ Hc Hpr1 Hh) as (r & Hsl & Hres).
  rewrite (bind_switch _ _ _ _ _ Hsl). cbn [obind feeds].
  exists pp, [], src. split_and!; try done.
  - by rewrite app_nil_r.
  - unfold asleep. eexists. sst. rewrite list_lookup_alter, decide_True, Hpr1 by done. split_and!; reflexivity.
  - intros i (q & Hq & Hs & Hch). unfold asleep in Hq. sst_in Hq.
    rewrite list_lookup_alter in Hq. case_decide as Ei.
    + subst i. rewrite Hpr1 in Hq. cbn in Hq. by simplify_eq.
    + unfold s1 in Hq. sst_in Hq. rewrite list_lookup_fmap in Hq.
      apply fmap_Some in Hq as (q0 & _ & ->). unfold wake_one in Hs, Hch.
      destruct (bool_decide (state q0 = SLEEPING)) eqn:E1, (bool_decide (p_chan q0 = Some (ChPipeR p))) eqn:E2;
        cbn in Hs, Hch; try done.
      * apply bool_decide_eq_false in E2. done.
      * apply bool_decide_eq_false in E1. done.
      * apply bool_decide_eq_false in E1. done.
  - intros s' (Hh' & Hc' & [pr' Hpr'] & pp0 & pp' & j & Hp0 & Hp' & Hok' & Hq').
    exists pp'. split; [done|]. rewrite (Hres s' Hh'). cbn [obind]. apply IH.
    unfold writing. sst. split_and!; try done. rewrite list_lookup_alter, decide_True, Hpr' by done. eauto.
Qed.

Lemma loop_feeds src s pp :
  writing s pp → feeds cp p total src (pipe_queue pp) (obind (pipewrite_loop p src s) write_end).
Proof.
  revert s pp. induction src as [|c src IH]; intros s pp Hw; cbn [pipewrite_loop].
  - destruct Hw as (Hh & Hc & Hpr & Hp & Hok). cbn [obind mret M_ret]. unfold write_end. cbn [negb].
    run_by (apply wakeup_run; rewrite Hh; set_solver).
    run_by (apply release_run; sst; rewrite Hh; set_solver).
    exists pp. split_and!; [done|done|]. left. by rewrite app_nil_r.
  - unfold mbind at 1, M_bind at 1.
    apply feeds_assoc, wait_feeds; [done|done|done|].
    intros s2 pp2 (Hh & Hc & Hpr & Hp & Hok) Hroom. cbn [negb].
    rewrite (bind_run _ _ _ _ _ (upd_pipe_run s2 p pp2 (pipe_put c) Hp)). cbv beta.
    destruct (pipe_put_ok c pp2 Hok Hroom) as [Hok1 Hq1].
    apply (feeds_app cp p total [c] src). rewrite <- Hq1. apply IH.
    unfold writing. sst. rewrite lookup_insert_eq. done.
Qed.
End Stream.

(** ** The contract *)

Section Contract.
Context {P : Platform}.

(** C12: A pipe is a bounded FIFO.  From any ring position, the overflow of
    the 32-bit counters included, a write that fits appends its bytes and wakes
    the readers; a read returns the oldest bytes, as many as asked for or as
    there are, removes exactly those and wakes the writers.  Neither touches
    anything but the pipe and the sleepers on its channels. *)
Theorem pipe_fifo p src n s pp :
  pipes s !! p = Some pp → pipe_ok pp → LPipe p ∉ held s → LPtable ∉ held s →
  src ≠ [] → Z.of_nat (length (pipe_queue pp) + length src) ≤ PIPESIZE →
  ∃ pp1 pp2,
    pipewrite p src s = Ret (Z.of_nat (length src)) (pipe_moved s p pp1 (ChPipeR p))
  ∧ pipe_queue pp1 = pipe_queue pp ++ src
  ∧ (let out := take (Z.to_nat n) (pipe_queue pp ++ src) in
     piperead p n (pipe_moved s p pp1 (ChPipeR p))
     = Ret (Z.of_nat (length out), out) (pipe_moved (pipe_moved s p pp1 (ChPipeR p)) p pp2 (ChPipeW p)))
  ∧ pipe_queue pp2 = drop (Z.to_nat n) (pipe_queue pp ++ src)
  ∧ pipe_ok pp1 ∧ pipe_ok pp2 ∧ same_ends pp pp1 ∧ same_ends pp pp2.
Proof.
  intros Hp Hok H1 H2 Hne Hl.
  destruct (pipewrite_run p src s pp Hp Hok H1 H2 Hl) as (pp1 & Hw & Hok1 & Hq1 & He1).
  destruct (piperead_run p n (pipe_moved s p pp1 (ChPipeR p)) pp1) as (pp2 & Hr & Hok2 & Hq2 & He2).
  { unfold pipe_moved. sst. apply lookup_insert_eq. }
  { done. }
  { done. }
  { done. }
  { left. rewrite Hq1. by destruct (pipe_queue pp), src. }
  rewrite Hq1 in Hr, Hq2. exists pp1, pp2. destruct He1, He2. unfold same_ends. split_and!; congruence.
Qed.

End Contract.

(** A pipe whose counters are about to overflow, holding one byte. *)
Definition pipe_w : pipe := mkPipe (replicate (Z.to_nat PIPESIZE) 7) (2 ^ 32 - 2) (2 ^ 32 - 1) true true.
Definition pipe_s : kernel :=
  one_proc <| held := [] |> <| pipes := {[ 4096 := pipe_w ]} |>.

Lemma pipe_w_ok : pipe_ok pipe_w.
Proof. split; [reflexivity|unfold is_u32; cbn; lia..|by vm_compute]. Qed.

Lemma pipe_fifo_witness :
  ∃ pp1 pp2,
    pipewrite (P:=plat0) 4096 [1; 2; 3] pipe_s = Ret 3 (pipe_moved pipe_s 4096 pp1 (ChPipeR 4096))
  ∧ piperead (P:=plat0) 4096 2 (pipe_moved pipe_s 4096 pp1 (ChPipeR 4096))
    = Ret (2, [7; 1]) (pipe_moved (pipe_moved pipe_s 4096 pp1 (ChPipeR 4096)) 4096 pp2 (ChPipeW 4096))
  ∧ pipe_queue pp2 = [2; 3].
Proof.
  destruct (pipe_fifo (P:=plat0) 4096 [1; 2; 3] 2 pipe_s pipe_w) as (pp1 & pp2 & Hw & Hq1 & Hr & Hq2 & _);
    [reflexivity|exact pipe_w_ok|apply not_elem_of_nil|apply not_elem_of_nil|done|by vm_compute|].
  exists pp1, pp2. split; [exact Hw|]. split; [exact Hr|exact Hq2].
Defined.

