(* ===== verification/File.v ===== *)
(** Open files (file.c): the file table and the operations on descriptors, and
    pipealloc of pipe.c, which makes two of them. *)

From S2P Require Import Prelude Types Spinlock Strings Kalloc Sched Ide Bio Blocks Bytes Log Fs Pipe.

Definition getfile (f : nat) : K file := ff ← gets (λ s, ftable s !! f); deref ff.
Definition upd_file (f : nat) (g : file → file) : K unit :=
  ff ← gets (λ s, ftable s !! f);
  match ff with Some _ => modify (λ s, s <| ftable ::= alter g f |>) | None => fault end.

(** The scan of filealloc: the first entry without references. *)
Fixpoint file_free (l : list file) (i : nat) : option nat :=
  match l with
  | [] => None
  | f :: l' => if f_ref f =? 0 then Some i else file_free l' (S i)
  end.

Definition filealloc : K (option nat) :=
  acquire LFtable;;
  ft ← gets ftable;
  match file_free ft 0 with
  | Some f => upd_file f (λ f, f <| f_ref := 1 |>);; release LFtable;; mret (Some f)
  | None => release LFtable;; mret None
  end.

Definition filedup (f : nat) : K nat :=
  acquire LFtable;;
  ff ← getfile f;
  if f_ref ff <? 1 then panic "filedup" else
  upd_file f (λ f, f <| f_ref ::= λ r, r + 1 |>);;
  release LFtable;;
  mret f.

Section File.
Context {P : Platform} {D : DiskDriver} {V : Devsw}.

Definition fileclose (f : nat) : K unit :=
  acquire LFtable;;
  ff ← getfile f;
  if f_ref ff <? 1 then panic "fileclose" else
  upd_file f (λ f, f <| f_ref ::= λ r, r - 1 |>);;
  ff ← getfile f;
  if 0 <? f_ref ff then release LFtable else
  upd_file f (λ f, f <| f_ref := 0 |> <| f_type := FD_NONE |>);;
  release LFtable;;
  match f_type ff with
  | FD_PIPE => pipeclose (f_pipe ff) (f_writable ff)
  | FD_INODE =>
      begin_op;;
      ip ← deref (f_ip ff);
      iput ip;;
      end_op
  | FD_NONE => mret tt
  end.

Definition filestat (f : nat) (st : stat) : K (Z * stat) :=
  ff ← getfile f;
  match f_type ff with
  | FD_INODE =>
      ilock (f_ip ff);;
      ip ← deref (f_ip ff);
      st ← stati ip st;
      iunlock (f_ip ff);;
      mret (0, st)
  | _ => mret (-1, st)
  end.

(** fileread: the result and the bytes stored at [addr]. *)
Definition fileread (f : nat) (n : Z) : K (Z * list Z) :=
  ff ← getfile f;
  if negb (f_readable ff) then mret (-1, []) else
  match f_type ff with
  | FD_PIPE => piperead (f_pipe ff) n
  | FD_INODE =>
      ilock (f_ip ff);;
      ip ← deref (f_ip ff);
      ff ← getfile f;
      '(r, bs) ← readi ip (f_off ff) (u32 n);
      when (0 <? r) (upd_file f (λ f, f <| f_off ::= λ o, uadd o r |>));;
      iunlock (f_ip ff);;
      mret (r, bs)
  | FD_NONE => panic "fileread"
  end.

(** [((MAXOPBLOCKS-1-1-2) / 2) * 512]. *)
Definition filewrite_max : Z := (MAXOPBLOCKS - 1 - 1 - 2) / 2 * 512.

(** The loop of filewrite on the bytes that are left; the result is whether
    all of them were written. *)
Fixpoint filewrite_loop (n : nat) (f : nat) (src : list Z) : K bool :=
  if bool_decide (src = []) then mret true else
  match n with
  | O => nofuel
  | S n' =>
      let n1 := Z.min (Z.of_nat (length src)) filewrite_max in
      begin_op;;
      ff ← getfile f;
      ilock (f_ip ff);;
      ip ← deref (f_ip ff);
      ff ← getfile f;
      r ← writei ip (take (Z.to_nat n1) src) (f_off ff);
      when (0 <? r) (upd_file f (λ f, f <| f_off ::= λ o, uadd o r |>));;
      iunlock (f_ip ff);;
      end_op;;
      if r <? 0 then mret false else
      if negb (r =? n1) then panic "short filewrite" else
      filewrite_loop n' f (drop (Z.to_nat r) src)
  end.

(** filewrite of the bytes [src]. *)
Definition filewrite (f : nat) (src : list Z) : K Z :=
  ff ← getfile f;
  if negb (f_writable ff) then mret (-1) else
  match f_type ff with
  | FD_PIPE => pipewrite (f_pipe ff) src
  | FD_INODE =>
      ok ← filewrite_loop (length src) f src;
      mret (if (ok : bool) then Z.of_nat (length src) else -1)
  | FD_NONE => panic "filewrite"
  end.

(** [p->data] is not initialised: it starts as what the page holds, after the
    lock ([sizeof(struct spinlock)] is 52). *)
Definition pipe_init (m : memory) (p : Z) : pipe := mkPipe (bytes_at m (p + 52) (Z.to_nat PIPESIZE)) 0 0 true true.

(** pipealloc: the two files on success. *)
Definition pipealloc : K (option (nat * nat)) :=
  f0 ← filealloc;
  match f0 with
  | None => mret None
  | Some f0 =>
      f1 ← filealloc;
      match f1 with
      | None => fileclose f0;; mret None
      | Some f1 =>
          p ← kalloc;
          if p =? 0 then fileclose f0;; fileclose f1;; mret None else
          modify (λ s, s <| pipes ::= <[p := pipe_init (mem s) p]> |>);;
          upd_file f0 (λ f, f <| f_type := FD_PIPE |> <| f_readable := true |> <| f_writable := false |> <| f_pipe := p |>);;
          upd_file f1 (λ f, f <| f_type := FD_PIPE |> <| f_readable := false |> <| f_writable := true |> <| f_pipe := p |>);;
          mret (Some (f0, f1))
      end
  end.
End File.
