(* ===== verification/Proc.v ===== *)
(** Processes (proc.c): allocation, userinit, fork, exit, wait, the scheduler,
    growproc, kill and the calls that read and change the process table. *)

From S2P Require Import Prelude Types Spinlock Strings Printf Kalloc Sched Console Vm Ide Bio Blocks Bytes Log Fs Pipe File.

(** The scan of the process table for the first entry that satisfies [f]. *)
Fixpoint proc_find (f : proc → bool) (l : list proc) (i : nat) : option nat :=
  match l with
  | [] => None
  | p :: l' => if f p then Some i else proc_find f l' (S i)
  end.

Definition is_state (st : procstate) (p : proc) : bool := bool_decide (state p = st).

(** safestrcpy (string.c) into an array: what is copied ends at the NUL of
    the source, which is followed by a second one, or after [n - 1] bytes. *)
Definition safestrcpy_list (dst src : list Z) (n : nat) : list Z :=
  let t := c_string src in
  let w := if (length t <? n - 1)%nat then t ++ [0; 0] else take (n - 1) t ++ [0] in
  w ++ drop (length w) dst.

(** [sizeof *p->tf] of x86.h. *)
Definition TFSIZE : Z := 76.
Definition CTXSIZE : Z := 20.

Section Proc.
Context {P : Platform} {D : DiskDriver} {V : Devsw}.

Definition allocproc : K (option nat) :=
  acquire LPtable;;
  ps ← gets ptable;
  match proc_find (is_state UNUSED) ps 0 with
  | None => release LPtable;; mret None
  | Some p =>
      npid ← gets nextpid;
      modify (λ s, s <| nextpid := npid + 1 |>);;
      upd_proc p (λ p, p <| state := EMBRYO |> <| pid := npid |> <| priority := 10 |>);;
      release LPtable;;
      ks ← kalloc;
      upd_proc p (λ p, p <| kstack := ks |>);;
      if ks =? 0 then upd_proc p (λ p, p <| state := UNUSED |>);; mret None else
      let sp := usub (uadd ks KSTACKSIZE) TFSIZE in
      store (usub sp 4) sym_trapret;;
      upd_proc p (λ p, p <| p_context := mkContext 0 0 0 0 sym_forkret |>);;
      now ← gets ticks;
      upd_proc p (λ p, p <| start_ticks := now |>);;
      mret (Some p)
  end.

Definition user_tf : trapframe :=
  let cs := Z.lor (Z.shiftl SEG_UCODE 3) DPL_USER in
  let ds := Z.lor (Z.shiftl SEG_UDATA 3) DPL_USER in
  tf_zero <| tf_cs := cs |> <| tf_ds := ds |> <| tf_es := ds |> <| tf_ss := ds |>
    <| tf_eflags := FL_IF |> <| tf_esp := PGSIZE |> <| tf_eip := 0 |>.

(** [initcode] is the text of initcode.S, which the build links in. *)
Definition userinit (initcode : list Z) : K unit :=
  p ← allocproc;
  modify (λ s, s <| initproc := p |>);;
  d ← setupkvm;
  p ← deref p;
  upd_proc p (λ p, p <| pgdir := d |>);;
  if d =? 0 then panic "userinit: out of memory?" else
  inituvm d initcode;;
  upd_proc p (λ p, p <| sz := PGSIZE |> <| tf := user_tf |>
    <| name ::= λ n, safestrcpy_list n (chars "initcode") 16 |>);;
  ip ← namei [SLASH];
  upd_proc p (λ p, p <| cwd := ip |> <| uid := 0 |> <| gid := 0 |>);;
  acquire LPtable;;
  upd_proc p (λ p, p <| state := RUNNABLE |>);;
  release LPtable.

(** growproc on the [int] [n]. *)
Definition growproc (n : Z) : K Z :=
  p ← curproc_idx;
  pr ← getproc p;
  sz' ← (if 0 <? n then allocuvm (pgdir pr) (sz pr) (uadd (sz pr) n)
         else if n <? 0 then deallocuvm (pgdir pr) (sz pr) (uadd (sz pr) n)
         else mret (sz pr));
  if (negb (n =? 0) && (sz' =? 0))%bool then mret (-1) else
  upd_proc p (λ p, p <| sz := sz' |>);;
  pr ← getproc p;
  switchuvm (Some pr);;
  mret 0.

(** The loop of fork over the descriptors of the parent. *)
Definition fork_files (files : list (option nat)) (np : nat) : K unit :=
  for_each (imap pair files) (λ '(i, f),
    match f with
    | Some f => f' ← filedup f; upd_proc np (λ q, q <| ofile ::= <[i := Some f']> |>)
    | None => mret tt
    end).

Definition fork : K Z :=
  cp ← curproc_idx;
  np ← allocproc;
  match np with
  | None => mret (-1)
  | Some np =>
      cur ← getproc cp;
      d ← copyuvm (pgdir cur) (sz cur);
      upd_proc np (λ q, q <| pgdir := d |>);;
      if d =? 0 then
        q ← getproc np;
        kfree (kstack q);;
        upd_proc np (λ q, q <| kstack := 0 |> <| state := UNUSED |>);;
        mret (-1)
      else
        upd_proc np (λ q, q <| sz := sz cur |> <| parent := Some cp |>
          <| tf := (tf cur) <| tf_eax := 0 |> |> <| uid := uid cur |> <| gid := gid cur |>);;
        fork_files (ofile cur) np;;
        cw ← deref (cwd cur);
        ip ← idup cw;
        upd_proc np (λ q, q <| cwd := Some ip |> <| name ::= λ n, safestrcpy_list n (name cur) 16 |>);;
        q ← getproc np;
        acquire LPtable;;
        upd_proc np (λ q, q <| state := RUNNABLE |>);;
        release LPtable;;
        mret (pid q)
  end.

(** wakeup1 on a process pointer, which may be null. *)
Definition wakeup1_proc (p : option nat) : K unit :=
  match p with
  | Some p => wakeup1 (ChProc p)
  | None => modify (λ s, s <| ptable ::= fmap (λ p,
      if (is_state SLEEPING p && bool_decide (p_chan p = None))%bool
      then p <| state := RUNNABLE |> else p) |>)
  end.

(** The body of exit's loop over the descriptors. *)
Definition exit_close (cp : nat) (fd : nat) : K unit :=
  cur ← getproc cp;
  match mjoin (ofile cur !! fd) with
  | Some f => fileclose f;; upd_proc cp (λ p, p <| ofile ::= <[fd := None]> |>)
  | None => mret tt
  end.

(** Pass abandoned children to init. *)
Definition exit_reparent (cp : nat) (i : nat) : K unit :=
  p ← getproc i;
  when (bool_decide (parent p = Some cp))
    (ini ← gets initproc;
     upd_proc i (λ p, p <| parent := ini |>);;
     when (is_state ZOMBIE p) (wakeup1_proc ini)).

Definition exit : K unit :=
  cp ← myproc;
  ini ← gets initproc;
  if bool_decide (cp = ini) then panic "init exiting" else
  cp ← deref cp;
  for_each (seq 0 NOFILE) (exit_close cp);;
  begin_op;;
  cur ← getproc cp;
  cw ← deref (cwd cur);
  iput cw;;
  end_op;;
  upd_proc cp (λ p, p <| cwd := None |>);;
  acquire LPtable;;
  cur ← getproc cp;
  wakeup1_proc (parent cur);;
  for_each (seq 0 NPROC) (exit_reparent cp);;
  upd_proc cp (λ p, p <| state := ZOMBIE |>);;
  sched;;
  panic "zombie exit".

(** The scan of wait over the entries [ids]: the pid of a zombie child that was
    reaped, or whether there are children. *)
Fixpoint wait_scan (ids : list nat) (cp : nat) (havekids : bool) : K (bool + Z) :=
  match ids with
  | [] => mret (inl havekids)
  | i :: ids' =>
      p ← getproc i;
      if negb (bool_decide (parent p = Some cp)) then wait_scan ids' cp havekids else
      if is_state ZOMBIE p then
        kfree (kstack p);;
        upd_proc i (λ p, p <| kstack := 0 |>);;
        freevm (pgdir p);;
        upd_proc i (λ p, p <| pid := 0 |> <| parent := None |> <| name ::= <[0%nat := 0]> |>
          <| killed := false |> <| state := UNUSED |>);;
        release LPtable;;
        mret (inr (pid p))
      else wait_scan ids' cp true
  end.

(** [n] bounds how often the parent is woken. *)
Fixpoint wait_loop (n : nat) (cp : nat) : K Z :=
  r ← wait_scan (seq 0 NPROC) cp false;
  match r with
  | inr pid => mret pid
  | inl havekids =>
      cur ← getproc cp;
      if (negb havekids || killed cur)%bool then release LPtable;; mret (-1) else
      match n with
      | O => nofuel
      | S n' => sleep (ChProc cp) LPtable;; wait_loop n' cp
      end
  end.

Definition wait : K Z :=
  cp ← curproc_idx;
  acquire LPtable;;
  wait_loop fuel cp.

(** The inner loop of scheduler: [highP] starts as [p] and moves to a runnable
    process of smaller priority value. *)
Fixpoint pick_loop (l : list proc) (i : nat) (high : nat) (hprio : Z) : nat :=
  match l with
  | [] => high
  | p :: l' =>
      if (is_state RUNNABLE p && (priority p <? hprio))%bool
      then pick_loop l' (S i) i (priority p)
      else pick_loop l' (S i) high hprio
  end.

(** Switch to the chosen process and come back. *)
Definition run_proc (p : nat) : K unit :=
  modify (λ s, s <| curproc := Some p |>);;
  pr ← getproc p;
  switchuvm (Some pr);;
  upd_proc p (λ p, p <| state := RUNNING |>);;
  swtch;;
  switchkvm;;
  modify (λ s, s <| curproc := None |>).

(** The loop over the table from entry [p] on; the choice moves the cursor, so
    that [n] bounds the rounds. *)
Fixpoint sched_for (n : nat) (p : nat) : K unit :=
  if (NPROC <=? p)%nat then mret tt else
  match n with
  | O => nofuel
  | S n' =>
      pr ← getproc p;
      if negb (is_state RUNNABLE pr) then sched_for n' (S p) else
      ps ← gets ptable;
      let high := pick_loop ps 0 p (priority pr) in
      run_proc high;;
      sched_for n' (S high)
  end.

(** [n] rounds of the [for(;;)]. *)
Fixpoint scheduler_loop (n : nat) : K unit :=
  match n with
  | O => nofuel
  | S n' =>
      acquire LPtable;;
      sched_for fuel 0;;
      release LPtable;;
      scheduler_loop n'
  end.

Definition scheduler : K unit :=
  modify (λ s, s <| curproc := None |>);;
  scheduler_loop fuel.

Definition forkret : K unit :=
  release LPtable;;
  first ← gets fork_first;
  when first
    (modify (λ s, s <| fork_first := false |>);;
     iinit ROOTDEV;;
     initlog ROOTDEV).
End Proc.

Definition kill (n : Z) : K Z :=
  acquire LPtable;;
  ps ← gets ptable;
  match proc_find (λ p, pid p =? n) ps 0 with
  | Some i =>
      upd_proc i (λ p, p <| killed := true |>);;
      upd_proc i (λ p, if is_state SLEEPING p then p <| state := RUNNABLE |> else p);;
      release LPtable;;
      mret 0
  | None => release LPtable;; mret (-1)
  end.

Definition chpr (n prio : Z) : K Z :=
  acquire LPtable;;
  ps ← gets ptable;
  match proc_find (λ p, pid p =? n) ps 0 with
  | Some i => upd_proc i (λ p, p <| priority := prio |>)
  | None => mret tt
  end;;
  release LPtable;;
  mret n.

(** What cps prints of a process; the blanks in [head] depend on its state. *)
Definition cps_line (now : Z) (p : proc) (head label : string) : K unit :=
  let timechange := usub now (start_ticks p) in
  cprint head [AStr (Some (c_string (name p))); AInt (pid p)];;
  cprint label [];;
  cprint " %d 	 %d 	" [AInt (uid p); AInt (gid p)];;
  (if pid p <=? 1 then cprint " %d	" [AInt (pid p)]
   else q ← deref (parent p); pp ← getproc q; cprint " %d 	" [AInt (pid pp)]);;
  cprintf (Some (chars "	 %d.%d 		 %d 	 %d " ++ [10]))
    [AInt (timechange / 1000); AInt (timechange mod 1000); AInt (sz p); AInt (priority p)].

Definition cps1 (i : nat) : K unit :=
  p ← getproc i;
  now ← gets ticks;
  match state p with
  | SLEEPING => cps_line now p "%s 	 %d 	" " SLEEPING 	"
  | RUNNING => cps_line now p "%s 	 %d  	" " RUNNING 	"
  | RUNNABLE => cps_line now p "%s 	 %d  	" " RUNNABLE 	"
  | _ => mret tt
  end.

Definition cps : K Z :=
  acquire LPtable;;
  cprintf (Some (chars "Name 	 Pid 	 State 	 	 UID	 GID	PPID	 	 Elapsed 	 Size 	 priority " ++ [10])) [];;
  for_each (seq 0 NPROC) cps1;;
  release LPtable;;
  mret 22.

(** The totals of nps: the sleeping and the running entries. *)
Fixpoint nps_count (l : list proc) (sleepTotal runTotal : Z) : Z * Z :=
  match l with
  | [] => (sleepTotal, runTotal)
  | p :: l' =>
      if is_state SLEEPING p then nps_count l' (sleepTotal + 1) runTotal
      else if is_state RUNNING p then nps_count l' sleepTotal (runTotal + 1)
      else nps_count l' sleepTotal runTotal
  end.

Definition nps : K Z :=
  acquire LPtable;;
  ps ← gets ptable;
  let '(sleepTotal, runTotal) := nps_count ps 0 0 in
  cprintf (Some (chars "Total SLEEPING processes: %d" ++ [10])) [AInt sleepTotal];;
  cprintf (Some (chars "Total RUNNING processes: %d" ++ [10])) [AInt runTotal];;
  release LPtable;;
  mret 22.

Definition getuid : K Z := p ← curproc_idx; pr ← getproc p; mret (uid pr).
Definition getgid : K Z := p ← curproc_idx; pr ← getproc p; mret (gid pr).

Definition getppid : K Z :=
  p ← curproc_idx;
  pr ← getproc p;
  match parent pr with
  | Some q => pp ← getproc q; mret (pid pp)
  | None => mret (pid pr)
  end.

(** The test [(0 <= id) && (id <= 32767)] on a [uint]. *)
Definition id_in_range (id : Z) : bool := (0 <=? id) && (id <=? 32767).

Definition setuid (id : Z) : K Z :=
  acquire LPtable;;
  if negb (id_in_range id) then
    cprintf (Some (chars "Error: %d is out of bounds. uid will not be changed." ++ [10])) [AInt id];;
    release LPtable;;
    mret (-1)
  else
    p ← curproc_idx;
    upd_proc p (λ p, p <| uid := id |>);;
    release LPtable;;
    mret id.

Definition setgid (id : Z) : K Z :=
  acquire LPtable;;
  if negb (id_in_range id) then
    cprintf (Some (chars "Error: %d is out of bounds. gid will not be changed." ++ [10])) [AInt id];;
    release LPtable;;
    mret (-1)
  else
    p ← curproc_idx;
    upd_proc p (λ p, p <| gid := id |>);;
    release LPtable;;
    mret id.

(** [myproc()->parent], which is dereferenced without a test. *)
Definition my_parent : K nat := p ← curproc_idx; pr ← getproc p; deref (parent pr).

Definition suid (id : Z) : K Z :=
  acquire LPtable;;
  if negb (id_in_range id) then
    cprintf (Some (chars "Error: %d is out of bounds. uid will not be changed." ++ [10])) [AInt id];;
    release LPtable;;
    mret (-1)
  else
    q ← my_parent;
    upd_proc q (λ p, p <| uid := id |>);;
    release LPtable;;
    q ← my_parent;
    pp ← getproc q;
    mret (uid pp).

Definition sgid (id : Z) : K Z :=
  acquire LPtable;;
  if negb (id_in_range id) then
    cprintf (Some (chars "Error: %d is out of bounds. gid will not be changed." ++ [10])) [AInt id];;
    release LPtable;;
    mret (-1)
  else
    q ← my_parent;
    upd_proc q (λ p, p <| gid := id |>);;
    release LPtable;;
    q ← my_parent;
    pp ← getproc q;
    mret (gid pp).

(** ** The choice of the scheduler *)

Definition runnable (ps : list proc) (i : nat) (p : proc) : Prop := ps !! i = Some p ∧ state p = RUNNABLE.

Lemma is_state_spec st p : is_state st p = true ↔ state p = st.
Proof. apply bool_decide_eq_true. Qed.

(** The inner loop returns the entry it started with if none is smaller, and
    else the first entry of the smallest priority value. *)
Lemma pick_loop_spec l i high hp :
  (pick_loop l i high hp = high ∧ ∀ j p, runnable l j p → hp ≤ priority p)
  ∨ ∃ j p, pick_loop l i high hp = (i + j)%nat ∧ runnable l j p ∧ priority p < hp
      ∧ (∀ j' p', runnable l j' p' → priority p ≤ priority p')
      ∧ (∀ j' p', runnable l j' p' → (j' < j)%nat → priority p < priority p').
Proof.
  revert i high hp. induction l as [|q l IH]; intros i high hp; cbn [pick_loop].
  { left. split; [done|]. intros j p [Hp _]. by rewrite lookup_nil in Hp. }
  assert (Hcons : ∀ j p, runnable (q :: l) j p → (j = 0%nat ∧ p = q ∧ state q = RUNNABLE)
                    ∨ ∃ j', j = S j' ∧ runnable l j' p).
  { intros [|j] p [Hp Hs]; cbn in Hp; [left; by simplify_eq|right; exists j; done]. }
  destruct (is_state RUNNABLE q) eqn:Hq; cbn [andb].
  - apply is_state_spec in Hq. destruct (Z.ltb_spec (priority q) hp) as [Hlt|Hge].
    + right. destruct (IH (S i) i (priority q)) as [[-> Hall]|(j & p & -> & Hr & Hlt' & Hall & Hfst)].
      * exists 0%nat, q. split; [lia|]. split; [done|]. split; [done|]. split.
        -- intros j' p' [(_ & -> & _)|(k & -> & Hk)]%Hcons; [lia|eauto].
        -- intros; lia.
      * exists (S j), p. split; [lia|]. split; [done|]. split; [lia|]. split.
        -- intros j' p' [(_ & -> & _)|(k & -> & Hk)]%Hcons; [lia|eauto].
        -- intros j' p' [(_ & -> & _)|(k & -> & Hk)]%Hcons Hj; [lia|]. apply (Hfst k); [done|lia].
    + destruct (IH (S i) high hp) as [[-> Hall]|(j & p & -> & Hr & Hlt' & Hall & Hfst)].
      * left. split; [done|]. intros j' p' [(_ & -> & _)|(k & -> & Hk)]%Hcons; [lia|eauto].
      * right. exists (S j), p. split; [lia|]. split; [done|]. split; [lia|]. split.
        -- intros j' p' [(_ & -> & _)|(k & -> & Hk)]%Hcons; [lia|eauto].
        -- intros j' p' [(_ & -> & _)|(k & -> & Hk)]%Hcons Hj; [lia|]. apply (Hfst k); [done|lia].
  - assert (Hn : state q ≠ RUNNABLE) by (intros E; apply is_state_spec in E; congruence).
    destruct (IH (S i) high hp) as [[-> Hall]|(j & p & -> & Hr & Hlt' & Hall & Hfst)].
    + left. split; [done|]. intros j' p' [(_ & _ & ?)|(k & -> & Hk)]%Hcons; [done|eauto].
    + right. exists (S j), p. split; [lia|]. split; [done|]. split; [lia|]. split.
      * intros j' p' [(_ & _ & ?)|(k & -> & Hk)]%Hcons; [done|eauto].
      * intros j' p' [(_ & _ & ?)|(k & -> & Hk)]%Hcons Hj; [done|]. apply (Hfst k); [done|lia].
Qed.

(** [i] is runnable and no runnable process has a smaller priority value. *)
Definition best (ps : list proc) (i : nat) (p : proc) : Prop :=
  runnable ps i p ∧ ∀ j q, runnable ps j q → priority p ≤ priority q.

Lemma pick_best ps i p :
  runnable ps i p → ∃ q, best ps (pick_loop ps 0 i (priority p)) q.
Proof.
  intros Hr. destruct (pick_loop_spec ps 0 i (priority p)) as [[-> Hall]|(j & q & -> & Hq & _ & Hall & _)].
  - by exists p.
  - by exists q.
Qed.

(** Started at the first runnable entry, it is the first of the best ones. *)
Lemma pick_first ps i p :
  runnable ps i p → (∀ j q, runnable ps j q → (i ≤ j)%nat) →
  ∃ q, best ps (pick_loop ps 0 i (priority p)) q
     ∧ ∀ j r, best ps j r → (pick_loop ps 0 i (priority p) ≤ j)%nat.
Proof.
  intros Hr Hfst. destruct (pick_loop_spec ps 0 i (priority p)) as [[-> Hall]|(j & q & -> & Hq & _ & Hall & Hf)].
  - exists p. split; [done|]. intros j r [Hj _]. eauto.
  - exists q. split; [done|]. intros j' r [Hj' Hbest]. cbn [Nat.add].
    destruct (decide (j ≤ j')%nat); [done|]. pose proof (Hf j' r Hj' ltac:(lia)).
    pose proof (Hbest j q Hq). lia.
Qed.

(** Processes the scheduler can switch to: they have a kernel stack and a
    page table. *)
Definition procs_ready (ps : list proc) : Prop :=
  ∀ i p, runnable ps i p → kstack p ≠ 0 ∧ pgdir p ≠ 0.

(** The state in which the scheduler hands the CPU to entry [h]. *)
Definition handed {P : Platform} (s : kernel) (h : nat) (p : proc) : kernel :=
  s <| curproc := Some h |> <| ktab ::= set_tss |> <| ts_esp0 := uadd (kstack p) KSTACKSIZE |> <| cr3 := V2P (pgdir p) |>
    <| ptable ::= alter (λ p, p <| state := RUNNING |>) h |>.

(** The state in which it goes on when the process gives the CPU back. *)
Definition returned (s : kernel) : kernel := s <| cr3 := V2P (kpgdir s) |> <| curproc := None |>.

Lemma run_proc_run {P : Platform} (k : K unit) s h p :
  ptable s !! h = Some p → kstack p ≠ 0 → pgdir p ≠ 0 →
  (run_proc h;; k) s = Switch (handed s h p) (λ s', k (returned s')).
Proof.
  intros Hp Hk Hd. unfold run_proc. unfold mbind at 1, M_bind at 1. run.
  run_by (apply getproc_run; exact Hp).
  unfold switchuvm. destruct (Z.eqb_spec (kstack p) 0); [done|]. destruct (Z.eqb_spec (pgdir p) 0); [done|].
  run. run. unfold swtch. reflexivity.
Qed.

(** What the scheduler finds when a process gives the CPU back: [ptable.lock]
    held and nothing else. *)
Definition sched_env (s : kernel) : Prop :=
  held s = [LPtable] ∧ length (ptable s) = NPROC ∧ procs_ready (ptable s).

(** [strict o]: the scheduler with outcome [o] never returns or stops, and
    each time it gives the CPU away, it is to a process that was the best
    choice, now RUNNING with its page table loaded; whatever [sched_env] state
    it is resumed in. *)
Fixpoint strict (o : outcome kernel unit) : Prop :=
  match o with
  | Switch s k =>
      (∃ h p, curproc s = Some h ∧ ptable s !! h = Some p ∧ state p = RUNNING
         ∧ cr3 s = V2P (pgdir p) ∧ held s = [LPtable]
         ∧ ∀ j q, runnable (ptable s) j q → priority p ≤ priority q)
      ∧ ∀ s', sched_env s' → strict (k s')
  | NoFuel => True
  | Ret _ _ | Panic _ _ | Fault => False
  end.

Lemma runnable_alter ps h p j q :
  ps !! h = Some p →
  runnable (alter (λ p, p <| state := RUNNING |>) h ps) j q → runnable ps j q.
Proof.
  intros Hp [Hq Hs]. rewrite list_lookup_alter in Hq. case_decide; [|done].
  subst j. rewrite Hp in Hq. cbn in Hq. by simplify_eq.
Qed.

Lemma sched_for_strict {P : Platform} n p (k : unit → K unit) s :
  (∀ s, sched_env s → strict (k tt s)) → sched_env s → strict (obind (sched_for n p s) k).
Proof.
  intros Hk. revert p s. induction n as [|n IH]; intros p s Hs; cbn [sched_for].
  { case_match; [by apply Hk|done]. }
  destruct (Nat.leb_spec NPROC p); [by apply Hk|].
  destruct Hs as (Hh & Hl & Hr). destruct (lookup_lt_is_Some_2 (ptable s) p) as [pr Hpr]; [lia|].
  rewrite (bind_run _ _ _ _ _ (getproc_run s p pr Hpr)). cbv beta.
  destruct (is_state RUNNABLE pr) eqn:Hst; cbn [negb].
  2: { apply IH. done. }
  apply is_state_spec in Hst. run. destruct (pick_best (ptable s) p pr) as [q [[Hq Hqs] Hbest]]; [done|].
  set (h := pick_loop (ptable s) 0 p (priority pr)) in *. destruct (Hr h q) as [Hks Hpd]; [done|].
  rewrite (run_proc_run _ s h q Hq Hks Hpd). cbn [obind strict]. split.
  - exists h, (q <| state := RUNNING |>). unfold handed. sst.
    rewrite list_lookup_alter, decide_True, Hq by done. split_and!; try done.
    intros j r Hj. apply (Hbest j r). by eapply runnable_alter.
  - intros s' Hs'. apply IH. done.
Qed.

Lemma set_held_nil s l : held s = [l] → s <| held ::= remove_lock l |> = s <| held := [] |>.
Proof. intros H. unfold set, set_held. rewrite H. cbn. by rewrite decide_True. Qed.

Section Scheduler.
Context {P : Platform}.

Lemma scheduler_loop_strict n s :
  held s = [] → length (ptable s) = NPROC → procs_ready (ptable s) → strict (scheduler_loop n s).
Proof.
  revert s. induction n as [|n IH]; intros s Hh Hl Hr; cbn [scheduler_loop]; [done|].
  run_by (apply acquire_run; rewrite Hh; apply not_elem_of_nil).
  unfold mbind at 1, M_bind at 1. apply sched_for_strict.
  - intros s' (Hh' & Hl' & Hr'). run_by (apply release_run; rewrite Hh'; by left).
    rewrite (set_held_nil _ _ Hh'). by apply IH.
  - unfold sched_env. sst. by rewrite Hh.
Qed.

(** C39: The scheduler is strict: it never returns, and whenever it hands
    the CPU over, in this round or after any sequence of processes giving it
    back, the chosen process has the smallest priority value among the RUNNABLE
    ones, is RUNNING, has its page table loaded and inherits [ptable.lock].  A
    process is thus not run while one of smaller priority value is RUNNABLE. *)
Theorem scheduler_strict_priority s :
  held s = [] → length (ptable s) = NPROC → procs_ready (ptable s) → strict (scheduler s).
Proof. intros Hh Hl Hr. unfold scheduler. run. by apply scheduler_loop_strict. Qed.

(** Entries that are not runnable are passed over. *)
Lemma sched_for_skip n p i s :
  (∀ j q, runnable (ptable s) j q → (i ≤ j)%nat) → (p ≤ i)%nat → (i < length (ptable s))%nat →
  length (ptable s) = NPROC → sched_for (i - p + n) p s = sched_for n i s.
Proof.
  intros Hf Hp Hi Hl. remember (i - p)%nat as d eqn:Hd. revert p Hp Hd.
  induction d as [|d IH]; intros p Hp Hd; [by replace p with i by lia|].
  cbn [Nat.add sched_for]. destruct (Nat.leb_spec NPROC p); [lia|].
  destruct (lookup_lt_is_Some_2 (ptable s) p) as [pr Hpr]; [lia|].
  run_by (by apply getproc_run). destruct (is_state RUNNABLE pr) eqn:Hst; cbn [negb].
  - apply is_state_spec in Hst. pose proof (Hf p pr ltac:(done)). lia.
  - apply IH; lia.
Qed.

(** The scheduler makes progress: with a RUNNABLE process in the table
    its first action is to hand the CPU to the RUNNABLE process of smallest
    priority value, the one with the lowest table index if there are several. *)
Theorem scheduler_picks_first s h p :
  held s = [] → length (ptable s) = NPROC → procs_ready (ptable s) → (NPROC < fuel)%nat →
  best (ptable s) h p → (∀ j q, best (ptable s) j q → (h ≤ j)%nat) →
  ∃ k, scheduler s = Switch (handed (s <| held := [LPtable] |>) h p) k.
Proof.
  intros Hh Hl Hr Hfuel [Hrun Hbest] Hfst. unfold scheduler. run.
  destruct fuel as [|f] eqn:Ef; [lia|]. cbn [scheduler_loop].
  run_by (apply acquire_run; sst; rewrite Hh; apply not_elem_of_nil). rewrite Ef.
  set (s1 := s <| curproc := None |> <| held ::= cons LPtable |>).
  assert (Hex : ∃ i q, runnable (ptable s) i q ∧ ∀ j r, runnable (ptable s) j r → (i ≤ j)%nat).
  { destruct (list_find (λ q, state q = RUNNABLE) (ptable s)) as [[i q]|] eqn:E.
    - apply list_find_Some in E as (Hi & Hq & Hlt). exists i, q. split; [done|].
      intros j r [Hj Hs]. destruct (decide (i ≤ j)%nat); [done|]. exfalso. eapply (Hlt j r); [done|lia|done].
    - exfalso. destruct Hrun as [Hp Hs]. apply list_find_None in E. rewrite Forall_lookup in E.
      by eapply E. }
  destruct Hex as (i & q & [Hq Hqs] & Hi).
  assert (Hil : (i < length (ptable s))%nat) by (by eapply lookup_lt_Some).
  replace (S f) with (i - 0 + (S f - i))%nat by lia.
  unfold mbind at 1, M_bind at 1. rewrite (sched_for_skip _ 0 i s1) by (done || lia).
  replace (S f - i)%nat with (S (f - i)) by lia. cbn [sched_for].
  destruct (Nat.leb_spec NPROC i); [lia|].
  rewrite (bind_run _ _ _ _ _ (getproc_run s1 i q Hq)). cbv beta.
  rewrite (proj2 (is_state_spec _ _) Hqs). cbn [negb]. run.
  change (ptable s1) with (ptable s).
  destruct (pick_first (ptable s) i q) as (q' & Hb & Hmin); [done|done|].
  assert (Heq : pick_loop (ptable s) 0 i (priority q) = h).
  { pose proof (Hmin h p ltac:(done)). pose proof (Hfst _ _ Hb). lia. }
  rewrite Heq. destruct (Hr h p Hrun) as [Hks Hpd]. destruct Hrun as [Hp Hs].
  rewrite (run_proc_run _ s1 h p Hp Hks Hpd). cbn [obind]. eexists. f_equal.
  unfold handed, s1, set, set_held, set_curproc. cbn. by rewrite Hh.
Qed.
End Scheduler.

(** Two runnable processes, of which the second has the smaller value. *)
Definition runner (prio : Z) : proc :=
  proc_zero <| state := RUNNABLE |> <| priority := prio |> <| kstack := KERNBASE |> <| pgdir := KERNBASE |>.
Definition sched_s : kernel :=
  kernel_zero <| ptable ::= λ ps, <[1%nat := runner 10]> (<[3%nat := runner 2]> ps) |>.

Lemma sched_s_runnable j q :
  runnable (ptable sched_s) j q → (j = 1%nat ∧ q = runner 10) ∨ (j = 3%nat ∧ q = runner 2).
Proof.
  intros [Hq Hs]. unfold sched_s in Hq. sst_in Hq.
  apply list_lookup_insert_Some in Hq as [(<- & <- & _)|[_ Hq]]; [by left|].
  apply list_lookup_insert_Some in Hq as [(<- & <- & _)|[_ Hq]]; [by right|].
  unfold kernel_zero in Hq. cbn [ptable] in Hq. apply lookup_replicate in Hq as [-> _]. done.
Qed.

Lemma sched_s_ready : procs_ready (ptable sched_s).
Proof. intros i p [[_ ->]|[_ ->]]%sched_s_runnable; done. Qed.

Lemma scheduler_strict_priority_witness : strict (scheduler (P:=plat0) sched_s).
Proof.
  apply (scheduler_strict_priority (P:=plat0) sched_s); [reflexivity|reflexivity|exact sched_s_ready].
Defined.

Definition plat100 : Platform :=
  plat 100 512000.

Lemma scheduler_picks_first_witness :
  ∃ k, scheduler (P:=plat100) sched_s = Switch (handed (P:=plat100) (sched_s <| held := [LPtable] |>) 3 (runner 2)) k.
Proof.
  apply (scheduler_picks_first (P:=plat100) sched_s 3 (runner 2));
    [reflexivity|reflexivity|exact sched_s_ready|by vm_compute; lia| |].
  - split; [done|]. intros j q [[_ ->]|[_ ->]]%sched_s_runnable; done.
  - intros j q [[[-> ->]|[-> ->]]%sched_s_runnable Hb]; [|lia].
    specialize (Hb 3%nat (runner 2) ltac:(done)). by vm_compute in Hb.
Defined.

(** ** Allocation of table entries *)

Lemma proc_find_Some f l i k :
  proc_find f l i = Some k →
  ∃ j p, k = (i + j)%nat ∧ l !! j = Some p ∧ f p = true ∧ ∀ j' p', l !! j' = Some p' → (j' < j)%nat → f p' = false.
Proof.
  revert i. induction l as [|q l IH]; intros i; cbn [proc_find]; [done|]. destruct (f q) eqn:Hq.
  - intros [= <-]. exists 0%nat, q. split_and!; [lia|done|done|lia].
  - intros (j & p & -> & Hj & Hp & Hf)%IH. exists (S j), p. split_and!; [lia|done|done|].
    intros [|j'] p' Hp' Hlt; cbn in Hp'; [by simplify_eq|]. apply (Hf j'); [done|lia].
Qed.

Lemma proc_find_None f l i : proc_find f l i = None → ∀ j p, l !! j = Some p → f p = false.
Proof.
  revert i. induction l as [|q l IH]; intros i; cbn [proc_find]; [done|]. destruct (f q) eqn:Hq; [done|].
  intros Hn [|j] p Hp; cbn in Hp; [by simplify_eq|by eapply IH].
Qed.

Lemma proc_find_first f l k p :
  l !! k = Some p → f p = true → (∀ j q, l !! j = Some q → (j < k)%nat → f q = false) →
  proc_find f l 0 = Some k.
Proof.
  intros Hk Hp Hf. destruct (proc_find f l 0) as [k'|] eqn:E.
  - apply proc_find_Some in E as (j & q & -> & Hj & Hq & Hf'). f_equal. cbn.
    destruct (lt_eq_lt_dec j k) as [[Hlt|]|Hlt]; [|done|].
    + by rewrite (Hf j q) in Hq.
    + by rewrite (Hf' k p) in Hp.
  - by rewrite (proc_find_None f l 0 E k p Hk) in Hp.
Qed.

Lemma upd_proc_run i f s : upd_proc i f s = Ret tt (s <| ptable ::= alter f i |>).
Proof. done. Qed.

Section Alloc.
Context {P : Platform} {PO : PlatformOk P}.

(** The entry allocproc hands out, with its kernel stack. *)
Definition embryo (s : kernel) (ks : Z) (p : proc) : proc :=
  p <| state := EMBRYO |> <| pid := nextpid s |> <| priority := 10 |> <| kstack := ks |>
    <| p_context := mkContext 0 0 0 0 sym_forkret |> <| start_ticks := ticks s |>.

(** The entry it leaves behind when there is no page for the stack. *)
Definition stillborn (s : kernel) (p : proc) : proc :=
  p <| pid := nextpid s |> <| priority := 10 |> <| kstack := 0 |>.

Definition allocproc_ok (s : kernel) (i : nat) (ks : Z) : kernel :=
  s <| nextpid ::= λ n, n + 1 |> <| ptable ::= alter (embryo s ks) i |>
    <| freelist := load32 (mem s) ks |>
    <| mem := store32 (mem s) (usub (usub (uadd ks KSTACKSIZE) TFSIZE) 4) sym_trapret |>.

Definition allocproc_fail (s : kernel) (i : nat) : kernel :=
  s <| nextpid ::= λ n, n + 1 |> <| ptable ::= alter (stillborn s) i |>.

Lemma allocproc_run s fl :
  LPtable ∉ held s → kmem_ok s → free_inv s fl →
  allocproc s =
    match proc_find (is_state UNUSED) (ptable s) 0 with
    | None => Ret None s
    | Some i => match fl with
                | [] => Ret None (allocproc_fail s i)
                | ks :: _ => Ret (Some i) (allocproc_ok s i ks)
                end
    end.
Proof.
  intros Hh Hk Hfl. unfold allocproc. run_by (by apply acquire_run). run. sst.
  destruct (proc_find (is_state UNUSED) (ptable s) 0) as [i|] eqn:Ei.
  2: { run_by (apply release_run; sst; by left). by rewrite held_cons_remove. }
  apply proc_find_Some in Ei as (j & p & -> & Hp & Hu & _). apply is_state_spec in Hu. cbn [Nat.add].
  run. run. run. run_by (apply release_run; sst; by left).
  set (s1 := s <| nextpid ::= λ n, n + 1 |>
    <| ptable ::= alter (λ q, q <| state := EMBRYO |> <| pid := nextpid s |> <| priority := 10 |>) j |>).
  replace (_ <| held ::= remove_lock LPtable |>) with s1.
  2: { unfold s1, set, set_held, set_nextpid, set_ptable. cbn. by rewrite decide_True. }
  pose proof (kalloc_run s1 fl Hk Hfl) as Ha. destruct fl as [|ks fl].
  - run_by (exact Ha). run. cbn [Z.eqb]. run. unfold mret, M_ret. f_equal.
    unfold s1, allocproc_fail. kext. rewrite !list_alter_alter_eq. apply list_alter_same.
    intros x Hx. simplify_eq. destruct p; cbn in *. by subst.
  - run_by (exact Ha). run. pose proof (page_ok_nz ks (proj1 (Forall_cons_1 _ _ _ (proj2 (proj2 Hfl))))).
    destruct (Z.eqb_spec ks 0); [done|]. run. run. run. run. unfold mret, M_ret. f_equal.
    unfold s1, allocproc_ok. kext. rewrite !list_alter_alter_eq. by apply list_alter_same.
Qed.
End Alloc.

(** Process ids: positive ones are in use once, and all are below [nextpid]. *)
Record pids_ok (s : kernel) : Prop := {
  pid_bound : ∀ i p, ptable s !! i = Some p → pid p < nextpid s;
  pid_next : 0 < nextpid s;
  pid_uniq : ∀ i j p q, ptable s !! i = Some p → ptable s !! j = Some q → pid p = pid q → pid p ≠ 0 → i = j
}.

(** Giving entry [i] the next pid. *)
Lemma pids_ok_next s s' i f :
  pids_ok s → nextpid s' = nextpid s + 1 → ptable s' = alter f i (ptable s) →
  (∀ p, pid (f p) = nextpid s) → pids_ok s'.
Proof.
  intros [Hb Hn Hu] Hn' Hpt Hf.
  assert (Hl : ∀ j p, ptable s' !! j = Some p →
    (j = i ∧ pid p = nextpid s) ∨ (j ≠ i ∧ ptable s !! j = Some p)).
  { intros j p. rewrite Hpt, list_lookup_alter. case_decide as E; [|by right].
    intros (p0 & _ & ->)%fmap_Some. left. by subst. }
  split.
  - intros j p [[_ ->]|[_ Hj]]%Hl; [lia|]. pose proof (Hb j p Hj). lia.
  - lia.
  - intros j k p q [[-> Hp]|[Hji Hj]]%Hl [[-> Hq]|[Hki Hk]]%Hl Heq Hnz; [done| | |by eapply Hu].
    + pose proof (Hb k q Hk). lia.
    + pose proof (Hb j p Hj). lia.
Qed.

Section Proc_alloc.
Context {P : Platform} {PO : PlatformOk P}.

(** The page of the stack is taken, and only it is written. *)
Lemma allocproc_ok_free s i ks fl : free_inv s (ks :: fl) →
  ks ∉ fl ∧ load32 (mem (allocproc_ok s i ks)) (ks + KSTACKSIZE - TFSIZE - 4) = u32 sym_trapret
  ∧ free_inv (allocproc_ok s i ks) fl ∧ ∀ x, page_of x ≠ ks → mem (allocproc_ok s i ks) x = mem s x.
Proof.
  intros Hfl. destruct (kalloc_pop s ks fl Hfl) as (Hks & Hn & Hfl'). pose proof (page_ok_range ks Hks) as [Hr Hal].
  assert (Hsp : usub (usub (uadd ks KSTACKSIZE) TFSIZE) 4 = ks + KSTACKSIZE - TFSIZE - 4).
  { destruct Hks as (_ & _ & Hhi). unfold usub, uadd, KSTACKSIZE, TFSIZE, KERNLINK, KERNBASE, EXTMEM, PHYSTOP in *.
    rewrite (u32_small (ks + 4096)), (u32_small (ks + 4096 - 76)), u32_small by (unfold is_u32; lia). lia. }
  assert (Hm : ∀ x, page_of x ≠ ks → mem (allocproc_ok s i ks) x = mem s x).
  { intros x Hx. rewrite (page_of_in ks x Hks) in Hx. unfold allocproc_ok. sst. rewrite Hsp. apply store32_other.
    unfold KSTACKSIZE, TFSIZE, PGSIZE in *. lia. }
  split; [done|]. split; [unfold allocproc_ok; sst; rewrite Hsp; apply load_store32|]. split; [|done].
  eapply free_inv_ext; [exact Hfl'|done|]. intros q x Hq Hx. symmetry. apply Hm.
  destruct Hfl' as (_ & _ & Hok). rewrite Forall_forall in Hok. rewrite (proj2 (page_of_in q x (Hok q Hq)) Hx). by intros ->.
Qed.

End Proc_alloc.

(** ** kill *)

(** What kill does to the entry it finds. *)
Definition kill_one (p : proc) : proc :=
  if is_state SLEEPING p then p <| killed := true |> <| state := RUNNABLE |> else p <| killed := true |>.

Lemma kill_run n s :
  LPtable ∉ held s →
  kill n s = match proc_find (λ p, pid p =? n) (ptable s) 0 with
             | Some i => Ret 0 (s <| ptable ::= alter kill_one i |>)
             | None => Ret (-1) s
             end.
Proof.
  intros Hh. unfold kill. run_by (by apply acquire_run). run. sst.
  destruct (proc_find _ (ptable s) 0) as [i|].
  - run. run. run_by (apply release_run; sst; by left). unfold mret, M_ret. f_equal. kext.
    rewrite list_alter_alter_eq. by apply list_alter_same.
  - run_by (apply release_run; sst; by left). by rewrite held_cons_remove.
Qed.

Section Kill.
Context {P : Platform} {PO : PlatformOk P}.

(** Kill(0) reports success and dooms a process that does not exist yet:
    it matches an UNUSED entry, whose pid is 0, and sets its [killed] flag,
    which allocproc does not clear, so that the next process to get the entry
    is killed on its first return to user space. *)
Theorem kill_zero_dooms_next s i p ks fl :
  LPtable ∉ held s → kmem_ok s → free_inv s (ks :: fl) →
  ptable s !! i = Some p → state p = UNUSED → pid p = 0 →
  (∀ j q, ptable s !! j = Some q → (j < i)%nat → state q ≠ UNUSED ∧ pid q ≠ 0) →
  ∃ s1 s2 p2, kill 0 s = Ret 0 s1 ∧ allocproc s1 = Ret (Some i) s2
    ∧ ptable s2 !! i = Some p2 ∧ state p2 = EMBRYO ∧ pid p2 = nextpid s ∧ killed p2 = true.
Proof.
  intros Hh Hk Hfl Hp Hu H0 Hf.
  set (s1 := s <| ptable ::= alter kill_one i |>).
  assert (Hp1 : ptable s1 !! i = Some (p <| killed := true |>)).
  { unfold s1. sst. rewrite list_lookup_alter_eq, Hp. cbn. unfold kill_one, is_state. by rewrite Hu. }
  exists s1. eexists _, (embryo s1 ks (p <| killed := true |>)). split.
  { rewrite kill_run by done. rewrite (proc_find_first _ _ i p Hp); [done|by apply Z.eqb_eq|].
    intros j q Hj Hlt. by apply Z.eqb_neq, (Hf j q). }
  split.
  { rewrite (allocproc_run s1 (ks :: fl)) by done.
    rewrite (proc_find_first _ _ i _ Hp1); [done|by apply is_state_spec|].
    intros j q Hj Hlt. unfold s1 in Hj. sst_in Hj. rewrite list_lookup_alter_ne in Hj by lia.
    apply not_true_iff_false. rewrite is_state_spec. by apply (Hf j q). }
  split_and!; try done. unfold allocproc_ok. sst. by rewrite list_lookup_alter_eq, Hp1.
Qed.
End Kill.

Lemma chpr_run n prio s :
  LPtable ∉ held s →
  chpr n prio s = Ret n match proc_find (λ p, pid p =? n) (ptable s) 0 with
                        | Some i => s <| ptable ::= alter (λ p, p <| priority := prio |>) i |>
                        | None => s
                        end.
Proof.
  intros Hh. unfold chpr. run_by (by apply acquire_run). run. sst.
  destruct (proc_find _ (ptable s) 0) as [i|].
  - run. run_by (apply release_run; sst; by left). unfold mret, M_ret. f_equal.
  - run. run_by (apply release_run; sst; by left). by rewrite held_cons_remove.
Qed.

(** ** growproc *)

Section Growproc.
Context {P : Platform} {PO : PlatformOk P}.

(** The process that runs, with its page table loaded. *)
Definition on_cpu (s : kernel) (cp : nat) (p : proc) : Prop :=
  curproc s = Some cp ∧ ptable s !! cp = Some p ∧ kstack p ≠ 0 ∧ pgdir p ≠ 0
  ∧ cr3 s = V2P (pgdir p) ∧ ts_esp0 s = uadd (kstack p) KSTACKSIZE ∧ set_tss (ktab s) = ktab s.

(** Growproc with a negative [n] of magnitude larger than the process
    succeeds and does nothing: [sz + n] wraps around to a value above [sz],
    which deallocuvm takes for a request that does not shrink. *)
Theorem growproc_underflow n s cp p :
  on_cpu s cp p → 0 < sz p < KERNBASE → is_i32 n → n < - sz p → growproc n s = Ret 0 s.
Proof.
  intros (Hc & Hp & Hks & Hpd & Hcr & Hts & Htab) Hsz Hn Hlt. unfold growproc.
  run_by (by apply curproc_idx_run). run_by (by apply getproc_run).
  destruct (Z.ltb_spec 0 n); [unfold is_i32 in *; lia|]. destruct (Z.ltb_spec n 0); [|unfold is_i32 in *; lia].
  assert (Hw : uadd (sz p) n = sz p + n + 2 ^ 32).
  { unfold uadd, u32. rewrite <- (Z_mod_plus_full (sz p + n) 1), Z.mod_small; [lia|].
    unfold is_i32, KERNBASE in *. lia. }
  assert (Hd : deallocuvm (pgdir p) (sz p) (uadd (sz p) n) s = Ret (sz p) s).
  { unfold deallocuvm. rewrite Hw. destruct (Z.leb_spec (sz p) (sz p + n + 2 ^ 32)); [done|].
    unfold is_i32, KERNBASE in *. lia. }
  run_by (exact Hd). destruct (Z.eqb_spec (sz p) 0); [lia|]. rewrite andb_false_r. run.
  assert (Hs : s <| ptable ::= alter (λ q, q <| sz := sz p |>) cp |> = s).
  { kext. apply list_alter_id_lookup. intros x Hx. simplify_eq. by destruct p. }
  rewrite Hs. run_by (by apply getproc_run). unfold switchuvm.
  destruct (Z.eqb_spec (kstack p) 0); [done|]. destruct (Z.eqb_spec (pgdir p) 0); [done|].
  run. unfold mret, M_ret. f_equal. kext; done.
Qed.
End Growproc.

Definition boot_s : kernel := two_pages <| nextpid := 1 |>.

Lemma boot_s_free : free_inv (P:=plat0) boot_s [KERNBASE + 8388608; KERNBASE + 12582912].
Proof. exact two_pages_free. Qed.

Lemma boot_s_proc i p : ptable boot_s !! i = Some p → p = proc_zero.
Proof. intros Hp. by apply lookup_replicate in Hp as [-> _]. Qed.


Lemma kill_zero_dooms_next_witness :
  ∃ s1 s2 p2, kill 0 boot_s = Ret 0 s1 ∧ allocproc (P:=plat0) s1 = Ret (Some 0%nat) s2
    ∧ ptable s2 !! 0%nat = Some p2 ∧ killed p2 = true.
Proof.
  destruct (kill_zero_dooms_next (P:=plat0) boot_s 0 proc_zero _ _ ltac:(apply not_elem_of_nil) ltac:(done) boot_s_free)
    as (s1 & s2 & p2 & H1 & H2 & H3 & _ & _ & H4); [done|done|done|intros; lia|].
  exists s1, s2, p2. split_and!; [exact H1|exact H2|exact H3|exact H4].
Defined.

Definition grow_p : proc :=
  proc_zero <| state := RUNNING |> <| kstack := KERNBASE + 8388608 |> <| pgdir := KERNBASE + 12582912 |> <| sz := 4096 |>.
Definition grow_s : kernel :=
  kernel_zero <| curproc := Some 0%nat |> <| ptable ::= <[0%nat := grow_p]> |>
    <| cr3 := 12582912 |> <| ts_esp0 := KERNBASE + 8388608 + 4096 |> <| ktab ::= set_tss (P:=plat0) |>.

Lemma growproc_underflow_witness : growproc (P:=plat0) (-8192) grow_s = Ret 0 grow_s.
Proof.
  apply (growproc_underflow (P:=plat0) (-8192) grow_s 0 grow_p).
  - split_and!; done.
  - done.
  - done.
  - done.
Defined.
