(* ===== verification/Usermem.v ===== *)
(** Access to the memory of the current process: the address translation the
    processor performs on a kernel access to a user address, and the fetching
    of system call arguments (syscall.c: fetchint, fetchstr, argint, argptr,
    argstr). *)

From S2P Require Import Prelude Types Strings Kalloc Spinlock Sched Console Vm Uvm.

(** The kernel address of the byte at the user address [va] under the page
    table in [%cr3].  The kernel runs with the write-protect bit set: a store
    needs [PTE_W].  A page fault in kernel mode stops the machine. *)
Definition translate (write : bool) (va : Z) : K Z :=
  c ← gets cr3;
  pde ← load (uadd (P2V c) (4 * PDX va));
  if negb (has pde PTE_P && (negb write || has pde PTE_W))%bool then fault else
  pte ← load (uadd (P2V (PTE_ADDR pde)) (4 * PTX va));
  if negb (has pte PTE_P && (negb write || has pte PTE_W))%bool then fault else
  mret (uadd (P2V (PTE_ADDR pte)) (va mod PGSIZE)).

Definition uload8 (va : Z) : K Z :=
  a ← translate false va;
  gets (λ s, mem s a).

(** The bytes at [va, va + n). *)
Fixpoint uload (n : nat) (va : Z) : K (list Z) :=
  match n with
  | O => mret []
  | S n' => b ← uload8 va; rest ← uload n' (uadd va 1); mret (b :: rest)
  end.

Definition le32 (bs : list Z) : Z :=
  match bs with
  | [a; b; c; d] => a + Z.shiftl b 8 + Z.shiftl c 16 + Z.shiftl d 24
  | _ => 0
  end.

Fixpoint ustore (va : Z) (bs : list Z) : K unit :=
  match bs with
  | [] => mret tt
  | b :: bs' =>
      a ← translate true va;
      modify (λ s, s <| mem ::= λ m, upd m a b |>);;
      ustore (uadd va 1) bs'
  end.

(** The current process, [*myproc()]. *)
Definition cur : K proc := p ← curproc_idx; getproc p.

(** fetchint: the [int] at [addr]. *)
Definition fetchint (addr : Z) : K (option Z) :=
  p ← cur;
  if ((sz p <=? addr) || (sz p <? uadd addr 4))%bool then mret None else
  bs ← uload 4 addr;
  mret (Some (i32 (le32 bs))).

(** The loop of fetchstr over the [n] addresses below [ep]. *)
Fixpoint fetchstr_loop (n : nat) (s : Z) : K (option (list Z)) :=
  match n with
  | O => mret None
  | S n' =>
      b ← uload8 s;
      if b =? 0 then mret (Some [])
      else rest ← fetchstr_loop n' (s + 1); mret ((b ::.) <$> rest)
  end.

(** fetchstr: the string at [addr]; its length is what the function returns. *)
Definition fetchstr (addr : Z) : K (option (list Z)) :=
  p ← cur;
  if sz p <=? addr then mret None else
  fetchstr_loop (Z.to_nat (sz p - addr)) addr.

Definition argint (n : Z) : K (option Z) :=
  p ← cur;
  fetchint (uadd (uadd (tf_esp (tf p)) 4) (4 * n)).

(** argptr: the address, when the [size] bytes from it are the process's own. *)
Definition argptr (n size : Z) : K (option Z) :=
  i ← argint n;
  match i with
  | None => mret None
  | Some i =>
      p ← cur;
      if ((size <? 0) || (sz p <=? u32 i) || (sz p <? uadd (u32 i) size))%bool then mret None
      else mret (Some (u32 i))
  end.

Definition argstr (n : Z) : K (option (list Z)) :=
  a ← argint n;
  match a with
  | None => mret None
  | Some addr => fetchstr (u32 addr)
  end.

(** ** Reading and writing through the page table *)

Section Usermem.
Context {P : Platform} {PO : PlatformOk P}.
Context (pgdir : Z) (tabs : gmap Z Z) (ps : list Z) (um : gmap Z (Z * Z)).

Lemma translate_run w s va f fl :
  as_inv s pgdir tabs ps um → cr3 s = V2P pgdir → 0 ≤ va < KERNBASE → um !! vpn va = Some (f, fl) →
  (w = true → has fl PTE_W = true) → translate w va s = Ret (f + va mod PGSIZE) s.
Proof.
  intros Has Hcr Hva Hum Hw. pose proof (user_u32 va Hva) as Hu.
  assert (Hent := as_entry _ _ _ _ _ Has va Hva). rewrite Hum in Hent.
  destruct (as_frame _ _ _ _ _ Has _ _ _ Hum) as (_ & Hf & Hfl & HP & _).
  destruct (as_vm _ _ _ _ _ Has) as (_ & _ & Hpt & _).
  destruct (user_entry f fl Hf Hfl) as (_ & Hp2v & _ & _ & Hhas).
  unfold entry in Hent. destruct (tabs !! PDX va) as [t|] eqn:Ht.
  2: { destruct (V2P_page f Hf) as (_ & _ & ?). lia. }
  destruct (pt_tab _ _ _ Hpt _ _ Ht) as (_ & Htok & _).
  destruct (user_entry t 7 Htok ltac:(done)) as (_ & Hp2vt & _ & _ & Hhast).
  pose proof (pt_pde _ _ _ Hpt (PDX va) (PDX_range va Hu)) as Hpde. rewrite Ht in Hpde.
  unfold translate. run. rewrite Hcr, P2V_V2P by apply (pt_root _ _ _ Hpt).
  destruct (table_slot pgdir (PDX va) (pt_root _ _ _ Hpt) (PDX_range va Hu)) as [-> _].
  unfold load. run. rewrite Hpde, !Hhast by done. cbn [has negb andb orb].
  change (has 7 PTE_P) with true. change (has 7 PTE_W) with true. rewrite orb_true_r. cbn [andb negb].
  rewrite Hp2vt. destruct (table_slot t (PTX va) Htok (PTX_range va Hu)) as [-> _].
  run. rewrite Hent, !Hhas by done. rewrite HP.
  assert (Hw' : (negb w || has fl PTE_W)%bool = true) by (destruct w; [by rewrite Hw|done]).
  rewrite Hw'. cbn [andb negb]. rewrite Hp2v. unfold mret, M_ret. f_equal. unfold uadd. apply u32_small.
  destruct (page_ok_range f Hf) as [[Hlo _] _]. destruct Hf as (_ & _ & Hhi).
  pose proof (Z.mod_pos_bound va PGSIZE ltac:(done)).
  unfold is_u32, KERNLINK, EXTMEM, KERNBASE, PHYSTOP, PGSIZE in *. lia.
Qed.

(** The bytes of the address space at [va, va + n). *)
Definition ubytes (m : memory) (va : Z) (n : nat) : list Z :=
  (λ i, default 0 (ubyte m um (va + Z.of_nat i))) <$> seq 0 n.

Definition mapped (a b : Z) : Prop := ∀ va, a ≤ va < b → is_Some (um !! vpn va).

Lemma uload8_run s va :
  as_inv s pgdir tabs ps um → cr3 s = V2P pgdir → 0 ≤ va < KERNBASE → is_Some (um !! vpn va) →
  uload8 va s = Ret (default 0 (ubyte (mem s) um va)) s.
Proof.
  intros Has Hcr Hva [[f fl] Hum]. unfold uload8. run_by (by eapply translate_run).
  unfold ubyte. by rewrite Hum.
Qed.

Lemma ubytes_S m va n : ubytes m va (S n) = default 0 (ubyte m um va) :: ubytes m (va + 1) n.
Proof.
  unfold ubytes. cbn [seq fmap list_fmap]. f_equal; [do 2 f_equal; lia|].
  rewrite <- seq_shift, <- list_fmap_compose. apply list_fmap_ext. intros i x _. cbn. do 2 f_equal. lia.
Qed.

Lemma uload_run n : ∀ s va,
  as_inv s pgdir tabs ps um → cr3 s = V2P pgdir → 0 ≤ va → va + Z.of_nat n ≤ KERNBASE →
  mapped va (va + Z.of_nat n) → uload n va s = Ret (ubytes (mem s) va n) s.
Proof.
  induction n as [|n IH]; intros s va Has Hcr Hva Hend Hm; cbn [uload]; [done|].
  run_by (apply uload8_run; [done|done|lia|apply Hm; lia]).
  assert (Hn : n = 0%nat ∨ uadd va 1 = va + 1).
  { destruct n; [by left|right]. apply u32_small. unfold is_u32, KERNBASE in *. lia. }
  destruct Hn as [-> | ->]; [by rewrite ubytes_S|].
  run_by (apply IH; [done|done|lia|lia|]; intros v Hv; apply Hm; lia). by rewrite ubytes_S.
Qed.

Lemma length_ubytes m va n : length (ubytes m va n) = n.
Proof. unfold ubytes. by rewrite length_fmap, length_seq. Qed.
End Usermem.

(** ** Fetching arguments *)

(** The current process [p] runs in the address space [um] and every page
    below its size is present. *)
Record user_ctx `{Platform} (s : kernel) (p : proc) (tabs : gmap Z Z) (ps : list Z) (um : gmap Z (Z * Z)) : Prop := {
  uc_cur : ∃ cp, curproc s = Some cp ∧ ptable s !! cp = Some p;
  uc_as : as_inv s (pgdir p) tabs ps um;
  uc_cr3 : cr3 s = V2P (pgdir p);
  uc_sz : 0 ≤ sz p < KERNBASE;
  uc_mapped : mapped um 0 (sz p)
}.

Section Args.
Context {P : Platform} {PO : PlatformOk P}.

Lemma cur_run s p tabs ps um : user_ctx s p tabs ps um → cur s = Ret p s.
Proof.
  intros [(cp & Hc & Hp) _ _ _ _]. unfold cur. run_by (by apply curproc_idx_run). by apply getproc_run.
Qed.

Lemma fetchint_run s p tabs ps um addr :
  user_ctx s p tabs ps um → is_u32 addr →
  fetchint addr s = Ret (if addr + 4 <=? sz p then Some (i32 (le32 (ubytes um (mem s) addr 4))) else None) s.
Proof.
  intros Hu Ha. pose proof (cur_run _ _ _ _ _ Hu) as Hcur. destruct Hu as [_ Has Hcr Hsz Hm].
  unfold fetchint. run_by (exact Hcur).
  destruct (Z.leb_spec (sz p) addr).
  { cbn [orb]. destruct (Z.leb_spec (addr + 4) (sz p)); [lia|done]. }
  cbn [orb]. unfold uadd. rewrite u32_small by (unfold is_u32, KERNBASE in *; lia).
  destruct (Z.ltb_spec (sz p) (addr + 4)), (Z.leb_spec (addr + 4) (sz p)); try lia; [done|].
  run_by (eapply (uload_run (pgdir p)); [done|done|unfold is_u32 in *; lia|cbn; lia|]; intros v Hv; apply Hm; unfold is_u32 in *; cbn in *; lia).
  done.
Qed.

(** The part of [l] before its first NUL, if it has one. *)
Fixpoint until_nul (l : list Z) : option (list Z) :=
  match l with
  | [] => None
  | c :: l' => if c =? 0 then Some [] else (c ::.) <$> until_nul l'
  end.

Lemma fetchstr_loop_run s p tabs ps um : user_ctx s p tabs ps um → ∀ n a,
  0 ≤ a → a + Z.of_nat n ≤ sz p → fetchstr_loop n a s = Ret (until_nul (ubytes um (mem s) a n)) s.
Proof.
  intros [_ Has Hcr Hsz Hm] n. induction n as [|n IH]; intros a Ha Hn; [done|].
  rewrite ubytes_S. cbn [fetchstr_loop until_nul].
  run_by (eapply uload8_run; [done|done|lia|apply Hm; lia]).
  destruct (_ =? 0); [done|]. run_by (apply IH; lia). done.
Qed.

(** The words, pointers and strings a process passes, read off its memory. *)
Definition spec_word (s : kernel) (p : proc) (um : gmap Z (Z * Z)) (n : Z) : option Z :=
  let a := uadd (uadd (tf_esp (tf p)) 4) (4 * n) in
  if a + 4 <=? sz p then Some (i32 (le32 (ubytes um (mem s) a 4))) else None.

Definition spec_ptr (p : proc) (size w : Z) : option Z :=
  if ((0 <=? size) && (u32 w <? sz p) && (u32 w + size <=? sz p))%bool then Some (u32 w) else None.

Definition spec_str (s : kernel) (p : proc) (um : gmap Z (Z * Z)) (w : Z) : option (list Z) :=
  if u32 w <? sz p then until_nul (ubytes um (mem s) (u32 w) (Z.to_nat (sz p - u32 w))) else None.

Lemma argint_run s p tabs ps um n :
  user_ctx s p tabs ps um → argint n s = Ret (spec_word s p um n) s.
Proof.
  intros Hu. unfold argint. run_by (by eapply cur_run). eapply fetchint_run; [done|apply u32_range].
Qed.

Lemma argptr_run s p tabs ps um n size :
  user_ctx s p tabs ps um → is_i32 size → argptr n size s = Ret (spec_word s p um n ≫= spec_ptr p size) s.
Proof.
  intros Hu Hi. unfold argptr. run_by (by eapply argint_run).
  destruct (spec_word s p um n) as [w|]; [|done]. cbn [mbind option_bind].
  run_by (by eapply cur_run). unfold spec_ptr. pose proof (uc_sz _ _ _ _ _ Hu) as Hsz.
  pose proof (u32_range w) as Hw. unfold is_u32, is_i32, KERNBASE in *.
  destruct (Z.ltb_spec size 0), (Z.leb_spec 0 size); try lia; cbn [orb andb]; [done|].
  destruct (Z.leb_spec (sz p) (u32 w)), (Z.ltb_spec (u32 w) (sz p)); try lia; cbn [orb andb]; [done|].
  unfold uadd. rewrite (u32_small (u32 w + size)) by (unfold is_u32; lia).
  destruct (Z.ltb_spec (sz p) (u32 w + size)), (Z.leb_spec (u32 w + size) (sz p)); try lia; done.
Qed.

Lemma argstr_run s p tabs ps um n :
  user_ctx s p tabs ps um → argstr n s = Ret (spec_word s p um n ≫= spec_str s p um) s.
Proof.
  intros Hu. unfold argstr. run_by (by eapply argint_run).
  destruct (spec_word s p um n) as [w|]; [|done]. cbn [mbind option_bind].
  unfold fetchstr. run_by (by eapply cur_run). unfold spec_str. pose proof (u32_range w) as Hw.
  destruct (Z.leb_spec (sz p) (u32 w)), (Z.ltb_spec (u32 w) (sz p)); try lia; [done|].
  eapply fetchstr_loop_run; [done|unfold is_u32 in *; lia|lia].
Qed.

(** C29: System call arguments are safe to fetch.  Whatever the process left
    in its stack pointer and wherever its arguments point, argint, argptr and
    argstr return without a fault and without changing anything, with exactly
    the word, the checked pointer and the string that the process's memory
    below [sz] holds, and an error when they reach beyond [sz]; and every byte
    behind a pointer that argptr accepts is mapped. *)
Theorem syscall_args_safe s p tabs ps um n size :
  user_ctx s p tabs ps um → is_i32 size →
  argint n s = Ret (spec_word s p um n) s
  ∧ argptr n size s = Ret (spec_word s p um n ≫= spec_ptr p size) s
  ∧ argstr n s = Ret (spec_word s p um n ≫= spec_str s p um) s
  ∧ (∀ w a va, spec_ptr p size w = Some a → a ≤ va < a + size → is_Some (um !! vpn va)).
Proof.
  intros Hu Hi. split_and!.
  - by eapply argint_run.
  - by eapply argptr_run.
  - by eapply argstr_run.
  - intros w a va Hw Hva. unfold spec_ptr in Hw. pose proof (u32_range w).
    destruct (_ && _)%bool eqn:E in Hw; [|done]. bool_hyps. simplify_eq.
    apply (uc_mapped _ _ _ _ _ Hu). unfold is_u32 in *. lia.
Qed.
End Args.

Lemma as_inv_same `{Platform} s s' pgdir tabs ps um :
  as_inv s pgdir tabs ps um → mem s' = mem s → freelist s' = freelist s → use_lock s' = use_lock s →
  held s' = held s → as_inv s' pgdir tabs ps um.
Proof.
  intros [(Hk & (Hc & Hn) & Hp & Ho) He Hf Hi] Hm Hfl Hu Hh. split; [|by rewrite Hm|done|done].
  split_and!; [|split|by rewrite Hm|done].
  - unfold kmem_ok. by rewrite Hu, Hh.
  - by rewrite Hm, Hfl.
  - done.
Qed.

(** A process of one page. *)
Definition user_p : proc := proc_zero <| state := RUNNING |> <| pgdir := root0 |> <| sz := 4096 |>.
Definition user_s : kernel :=
  one_page <| curproc := Some 0%nat |> <| ptable ::= <[0%nat := user_p]> |> <| cr3 := 6291456 |>.

Lemma user_s_ctx : user_ctx (H:=plat0) user_s user_p {[0 := tab0]} [] {[0 := (frame0, 7)]}.
Proof.
  split.
  - exists 0%nat. done.
  - by apply (as_inv_same one_page); [apply one_page_as|..].
  - done.
  - done.
  - intros va Hva. assert (vpn va = 0) as ->; [|by eexists].
    apply Z.div_small. unfold PGSIZE. cbn in Hva. lia.
Qed.

Lemma syscall_args_safe_witness :
  argint 0 user_s = Ret (Some 0) user_s ∧ argptr 0 4096 user_s = Ret (Some 0) user_s
  ∧ argptr 0 4097 user_s = Ret None user_s ∧ argstr 0 user_s = Ret (Some []) user_s.
Proof.
  assert (Ew : spec_word user_s user_p {[0 := (frame0, 7)]} 0 = Some 0) by (vm_compute; reflexivity).
  assert (Es : spec_str user_s user_p {[0 := (frame0, 7)]} 0 = Some []) by (vm_compute; reflexivity).
  assert (Hi : is_i32 4096) by (unfold is_i32; lia). assert (Hi' : is_i32 4097) by (unfold is_i32; lia).
  destruct (syscall_args_safe (P:=plat0) user_s user_p _ _ _ 0 4096 user_s_ctx Hi) as (H1 & H2 & H3 & _).
  destruct (syscall_args_safe (P:=plat0) user_s user_p _ _ _ 0 4097 user_s_ctx Hi') as (_ & H2' & _).
  rewrite Ew in H1, H2, H3, H2'. cbn [mbind option_bind] in H2, H3, H2'. rewrite Es in H3.
  split; [exact H1|]. split; [exact H2|]. split; [exact H2'|exact H3].
Defined.
