(* ===== verification/Exec.v ===== *)
(** Loading a program: loaduvm of vm.c and exec.c. *)

From S2P Require Import Prelude Types Spinlock Strings Printf Kalloc Sched Console Vm Ide Bio Blocks Bytes Log Fs Pipe File Proc.

(** elf.h: [struct elfhdr] and [struct proghdr] in the bytes read. *)
Definition ELF_MAGIC : Z := 1179403647.
Definition ELFHDRSZ : Z := 52.
Definition elf_magic (d : list Z) : Z := get32 d 0.
Definition elf_entry (d : list Z) : Z := get32 d 24.
Definition elf_phoff (d : list Z) : Z := get32 d 28.
Definition elf_phnum (d : list Z) : Z := get16 d 44.

Definition PROGHDRSZ : Z := 32.
Definition ELF_PROG_LOAD : Z := 1.
Definition ph_type (d : list Z) : Z := get32 d 0.
Definition ph_off (d : list Z) : Z := get32 d 4.
Definition ph_vaddr (d : list Z) : Z := get32 d 8.
Definition ph_filesz (d : list Z) : Z := get32 d 16.
Definition ph_memsz (d : list Z) : Z := get32 d 20.

Section Exec.
Context {P : Platform} {D : DiskDriver} {V : Devsw}.

(** The loop of loaduvm from [i]. *)
Fixpoint loaduvm_loop (f : nat) (pgdir addr : Z) (ip : nat) (offset sz i : Z) : K Z :=
  if i <? sz then
    match f with
    | O => nofuel
    | S f' =>
        pte ← walkpgdir pgdir (uadd addr i) false;
        if pte =? 0 then panic "loaduvm: address should exist" else
        v ← load pte;
        let pa := PTE_ADDR v in
        let n := if sz - i <? PGSIZE then sz - i else PGSIZE in
        '(r, bs) ← readi ip (uadd offset i) n;
        modify (λ s, s <| mem ::= λ m, put_bytes m (P2V pa) bs |>);;
        if negb (u32 r =? n) then mret (-1) else
        loaduvm_loop f' pgdir addr ip offset sz (uadd i PGSIZE)
    end
  else mret 0.

Definition loaduvm (pgdir addr : Z) (ip : nat) (offset sz : Z) : K Z :=
  if negb (addr mod PGSIZE =? 0) then panic "loaduvm: addr must be page aligned" else
  loaduvm_loop (Z.to_nat (sz / PGSIZE + 1)) pgdir addr ip offset sz 0.

(** The loop of exec over the [n] program headers that are left; [None] is
    [goto bad]. *)
Fixpoint exec_load (n : nat) (pgdir : Z) (ip : nat) (off sz : Z) : K (option Z) :=
  match n with
  | O => mret (Some sz)
  | S n' =>
      '(r, ph) ← readi ip (u32 off) PROGHDRSZ;
      if negb (u32 r =? PROGHDRSZ) then mret None else
      if negb (ph_type ph =? ELF_PROG_LOAD) then exec_load n' pgdir ip (off + PROGHDRSZ) sz else
      if ph_memsz ph <? ph_filesz ph then mret None else
      if uadd (ph_vaddr ph) (ph_memsz ph) <? ph_vaddr ph then mret None else
      sz ← allocuvm pgdir sz (uadd (ph_vaddr ph) (ph_memsz ph));
      if sz =? 0 then mret None else
      if negb (ph_vaddr ph mod PGSIZE =? 0) then mret None else
      r ← loaduvm pgdir (ph_vaddr ph) ip (ph_off ph) (ph_filesz ph);
      if r <? 0 then mret None else
      exec_load n' pgdir ip (off + PROGHDRSZ) sz
  end.

(** Push the argument strings: the stack pointer and the addresses of the
    strings, [ustack[3 ..]]. *)
Fixpoint exec_args (pgdir : Z) (argv : list (list Z)) (argc sp : Z) : K (option (Z * list Z)) :=
  match argv with
  | [] => mret (Some (sp, []))
  | a :: argv' =>
      if MAXARG <=? argc then mret None else
      let sp := Z.land (usub sp (Z.of_nat (length a) + 1)) (2 ^ 32 - 4) in
      ok ← copyout pgdir sp (a ++ [0]);
      if negb ok then mret None else
      r ← exec_args pgdir argv' (argc + 1) sp;
      match r with
      | None => mret None
      | Some (sp', us) => mret (Some (sp', sp :: us))
      end
  end.

(** The bytes of [ustack]. *)
Definition ustack_bytes (ws : list Z) : list Z := ws ≫= bytes32.

(** [for(last=s=path; *s; s++) if( *s == '/') last = s+1]. *)
Fixpoint path_last (s last : list Z) : list Z :=
  match s with
  | [] => last
  | c :: s' => path_last s' (if c =? SLASH then s' else last)
  end.

(** [bad:], with the inode still locked when [ip] is given. *)
Definition exec_bad (pgdir : Z) (ip : option nat) : K Z :=
  when (negb (pgdir =? 0)) (freevm pgdir);;
  match ip with
  | Some ip => iunlockput ip;; end_op;; mret (-1)
  | None => mret (-1)
  end.

(** The part of exec after the program is loaded. *)
Definition exec_commit (path : list Z) (argv : list (list Z)) (pgdir sz entry : Z) : K Z :=
  let sz := PGROUNDUP sz in
  sz ← allocuvm pgdir sz (uadd sz (2 * PGSIZE));
  if sz =? 0 then exec_bad pgdir None else
  clearpteu pgdir (usub sz (2 * PGSIZE));;
  r ← exec_args pgdir argv 0 sz;
  match r with
  | None => exec_bad pgdir None
  | Some (sp, addrs) =>
      let argc := Z.of_nat (length argv) in
      let ustack := [2 ^ 32 - 1; argc; usub sp ((argc + 1) * 4)] ++ addrs ++ [0] in
      let sp := usub sp ((3 + argc + 1) * 4) in
      ok ← copyout pgdir sp (ustack_bytes ustack);
      if negb ok then exec_bad pgdir None else
      cp ← curproc_idx;
      upd_proc cp (λ p, p <| name ::= λ n, safestrcpy_list n (path_last path path) 16 |>);;
      p ← getproc cp;
      let oldpgdir := Types.pgdir p in
      upd_proc cp (λ p, p <| Types.pgdir := pgdir |> <| Types.sz := sz |>
        <| tf ::= λ t, t <| tf_eip := entry |> <| tf_esp := sp |> |> <| priority := 2 |>);;
      p ← getproc cp;
      switchuvm (Some p);;
      freevm oldpgdir;;
      mret 0
  end.

(** exec of [path] with the argument strings [argv]. *)
Definition exec (path : list Z) (argv : list (list Z)) : K Z :=
  begin_op;;
  ip ← namei path;
  match ip with
  | None =>
      end_op;;
      cprintf (Some (chars "exec: fail" ++ [10])) [];;
      mret (-1)
  | Some ip =>
      ilock (Some ip);;
      '(r, elf) ← readi ip 0 ELFHDRSZ;
      if negb (u32 r =? ELFHDRSZ) then exec_bad 0 (Some ip) else
      if negb (elf_magic elf =? ELF_MAGIC) then exec_bad 0 (Some ip) else
      pgdir ← setupkvm;
      if pgdir =? 0 then exec_bad 0 (Some ip) else
      r ← exec_load (Z.to_nat (elf_phnum elf)) pgdir ip (elf_phoff elf) 0;
      match r with
      | None => exec_bad pgdir (Some ip)
      | Some sz =>
          iunlockput ip;;
          end_op;;
          exec_commit path argv pgdir sz (elf_entry elf)
      end
  end.
End Exec.
