(* ===== verification/Sysfile.v ===== *)
(** File-system system calls (sysfile.c).  The bytes a call reads from or
    writes to the caller's buffer pass through the caller's page table. *)

From S2P Require Import Prelude Types Spinlock Strings Printf Kalloc Sched Console Vm Ide Bio Blocks Bytes Log Fs Pipe File Proc Usermem Exec.

(** argfd: the descriptor and its file. *)
Definition argfd (n : Z) : K (option (nat * nat)) :=
  fd ← argint n;
  match fd with
  | None => mret None
  | Some fd =>
      if ((fd <? 0) || (Z.of_nat NOFILE <=? fd))%bool then mret None else
      p ← cur;
      match mjoin (ofile p !! Z.to_nat fd) with
      | None => mret None
      | Some f => mret (Some (Z.to_nat fd, f))
      end
  end.

(** The scan of fdalloc: the first free descriptor. *)
Fixpoint fd_free {A} (l : list (option A)) (i : nat) : option nat :=
  match l with
  | [] => None
  | None :: _ => Some i
  | Some _ :: l' => fd_free l' (S i)
  end.

Definition fdalloc (f : nat) : K (option nat) :=
  cp ← curproc_idx;
  p ← getproc cp;
  match fd_free (ofile p) 0 with
  | Some fd => upd_proc cp (λ p, p <| ofile ::= <[fd := Some f]> |>);; mret (Some fd)
  | None => mret None
  end.

(** [myproc()->ofile[fd] = 0]. *)
Definition fdclear (fd : nat) : K unit :=
  cp ← curproc_idx;
  upd_proc cp (λ p, p <| ofile ::= <[fd := None]> |>).

Section Sysfile.
Context {P : Platform} {D : DiskDriver} {V : Devsw}.

Definition sys_dup : K Z :=
  a ← argfd 0;
  match a with
  | None => mret (-1)
  | Some (_, f) =>
      fd ← fdalloc f;
      match fd with
      | None => mret (-1)
      | Some fd => filedup f;; mret (Z.of_nat fd)
      end
  end.

Definition sys_read : K Z :=
  a ← argfd 0;
  match a with
  | None => mret (-1)
  | Some (_, f) =>
      n ← argint 2;
      match n with
      | None => mret (-1)
      | Some n =>
          p ← argptr 1 n;
          match p with
          | None => mret (-1)
          | Some p =>
              '(r, bs) ← fileread f n;
              ustore p bs;;
              mret r
          end
      end
  end.

Definition sys_write : K Z :=
  a ← argfd 0;
  match a with
  | None => mret (-1)
  | Some (_, f) =>
      n ← argint 2;
      match n with
      | None => mret (-1)
      | Some n =>
          p ← argptr 1 n;
          match p with
          | None => mret (-1)
          | Some p =>
              bs ← uload (Z.to_nat n) p;
              filewrite f bs
          end
      end
  end.

Definition sys_close : K Z :=
  a ← argfd 0;
  match a with
  | None => mret (-1)
  | Some (fd, f) =>
      fdclear fd;;
      fileclose f;;
      mret 0
  end.

(** [sizeof(struct stat)] and the fields stati assigns, at their offsets. *)
Definition STATSZ : Z := 32.
Definition ustore_stat (p : Z) (st : stat) : K unit :=
  ustore (uadd p 4) (bytes32 (st_dev st));;
  ustore (uadd p 8) (bytes32 (st_ino st));;
  ustore p (bytes16 (st_type st));;
  ustore (uadd p 12) (bytes16 (st_nlink st));;
  ustore (uadd p 16) (bytes32 (st_size st)).

Definition sys_fstat : K Z :=
  a ← argfd 0;
  match a with
  | None => mret (-1)
  | Some (_, f) =>
      p ← argptr 1 STATSZ;
      match p with
      | None => mret (-1)
      | Some p =>
          '(r, st) ← filestat f (mkStat 0 0 0 0 0 0 0 0);
          when (r =? 0) (ustore_stat p st);;
          mret r
      end
  end.

(** [ip->nlink += d] on a [short]. *)
Definition add_nlink (ip : nat) (d : Z) : K unit :=
  upd_inode ip (λ i, i <| i_nlink ::= λ n, i16 (n + d) |>).

(** [bad:] of sys_link. *)
Definition link_bad (ip : nat) : K Z :=
  ilock (Some ip);;
  add_nlink ip (-1);;
  iupdate ip;;
  iunlockput ip;;
  end_op;;
  mret (-1).

Definition sys_link : K Z :=
  old ← argstr 0;
  match old with None => mret (-1) | Some old =>
  new ← argstr 1;
  match new with None => mret (-1) | Some new =>
  begin_op;;
  ip ← namei old;
  match ip with None => end_op;; mret (-1) | Some ip =>
  ilock (Some ip);;
  i ← get_inode ip;
  if i_type i =? T_DIR then iunlockput ip;; end_op;; mret (-1) else
  add_nlink ip 1;;
  iupdate ip;;
  iunlock (Some ip);;
  d ← nameiparent new;
  match d with None => link_bad ip | Some (dp, name) =>
  ilock (Some dp);;
  di ← get_inode dp;
  i ← get_inode ip;
  r ← (if negb (i_dev di =? i_dev i) then mret (-1) else dirlink dp name (i_inum i));
  if r <? 0 then iunlockput dp;; link_bad ip else
  iunlockput dp;;
  iput ip;;
  end_op;;
  mret 0
  end end end end.

(** The loop of isdirempty from [off]. *)
Fixpoint isdirempty_loop (n : nat) (dp : nat) (off : Z) : K bool :=
  ip ← get_inode dp;
  if off <? i_size ip then
    match n with
    | O => nofuel
    | S n' =>
        '(r, de) ← readi dp off DIRENTSZ;
        if negb (u32 r =? DIRENTSZ) then panic "isdirempty: readi" else
        if negb (de_inum de =? 0) then mret false else
        isdirempty_loop n' dp (off + DIRENTSZ)
    end
  else mret true.

Definition isdirempty (dp : nat) : K bool :=
  ip ← get_inode dp;
  isdirempty_loop (Z.to_nat (i_size ip / DIRENTSZ + 1)) dp (2 * DIRENTSZ).

(** [bad:] of sys_unlink. *)
Definition unlink_bad (dp : nat) : K Z :=
  iunlockput dp;;
  end_op;;
  mret (-1).

Definition sys_unlink : K Z :=
  path ← argstr 0;
  match path with None => mret (-1) | Some path =>
  begin_op;;
  d ← nameiparent path;
  match d with None => end_op;; mret (-1) | Some (dp, name) =>
  ilock (Some dp);;
  if ((namecmp name (chars ".") =? 0) || (namecmp name (chars "..") =? 0))%bool then unlink_bad dp else
  e ← dirlookup dp name;
  match e with None => unlink_bad dp | Some (ip, off) =>
  ilock (Some ip);;
  i ← get_inode ip;
  if i_nlink i <? 1 then panic "unlink: nlink < 1" else
  full ← (if i_type i =? T_DIR then b ← isdirempty ip; mret (negb b) else mret false);
  if (full : bool) then iunlockput ip;; unlink_bad dp else
  r ← writei dp (replicate (Z.to_nat DIRENTSZ) 0) off;
  if negb (u32 r =? DIRENTSZ) then panic "unlink: writei" else
  i ← get_inode ip;
  when (i_type i =? T_DIR) (add_nlink dp (-1);; iupdate dp);;
  iunlockput dp;;
  add_nlink ip (-1);;
  iupdate ip;;
  iunlockput ip;;
  end_op;;
  mret 0
  end end end.

(** create, the inode locked; ialloc panics rather than return null. *)
Definition create (path : list Z) (type major minor : Z) : K (option nat) :=
  d ← nameiparent path;
  match d with None => mret None | Some (dp, name) =>
  ilock (Some dp);;
  e ← dirlookup dp name;
  match e with
  | Some (ip, _) =>
      iunlockput dp;;
      ilock (Some ip);;
      i ← get_inode ip;
      if ((type =? T_FILE) && (i_type i =? T_FILE))%bool then mret (Some ip) else
      iunlockput ip;;
      mret None
  | None =>
      di ← get_inode dp;
      ip ← ialloc (i_dev di) type;
      ilock (Some ip);;
      upd_inode ip (λ i, i <| i_major := major |> <| i_minor := minor |> <| i_nlink := 1 |>);;
      iupdate ip;;
      i ← get_inode ip;
      when (type =? T_DIR)
        (add_nlink dp 1;;
         iupdate dp;;
         r ← dirlink ip (chars ".") (i_inum i);
         if r <? 0 then panic "create dots" else
         r ← dirlink ip (chars "..") (i_inum di);
         if r <? 0 then panic "create dots" else mret tt);;
      r ← dirlink dp name (i_inum i);
      if r <? 0 then panic "create: dirlink" else
      iunlockput dp;;
      mret (Some ip)
  end end.

(** The inode sys_open opens, locked. *)
Definition open_inode (path : list Z) (omode : Z) : K (option nat) :=
  if negb (Z.land omode O_CREATE =? 0) then
    ip ← create path T_FILE 0 0;
    match ip with None => end_op;; mret None | Some ip => mret (Some ip) end
  else
    ip ← namei path;
    match ip with
    | None => end_op;; mret None
    | Some ip =>
        ilock (Some ip);;
        i ← get_inode ip;
        if ((i_type i =? T_DIR) && negb (omode =? O_RDONLY))%bool
        then iunlockput ip;; end_op;; mret None
        else mret (Some ip)
    end.

Definition sys_open : K Z :=
  path ← argstr 0;
  match path with None => mret (-1) | Some path =>
  omode ← argint 1;
  match omode with None => mret (-1) | Some omode =>
  begin_op;;
  ip ← open_inode path omode;
  match ip with None => mret (-1) | Some ip =>
  f ← filealloc;
  match f with
  | None => iunlockput ip;; end_op;; mret (-1)
  | Some f =>
      fd ← fdalloc f;
      match fd with
      | None => fileclose f;; iunlockput ip;; end_op;; mret (-1)
      | Some fd =>
          iunlock (Some ip);;
          end_op;;
          upd_file f (λ f, f <| f_type := FD_INODE |> <| f_ip := Some ip |> <| f_off := 0 |>
            <| f_readable := (Z.land omode O_WRONLY =? 0) |>
            <| f_writable := (negb (Z.land omode O_WRONLY =? 0) || negb (Z.land omode O_RDWR =? 0))%bool |>);;
          mret (Z.of_nat fd)
      end
  end end end end.

Definition sys_mkdir : K Z :=
  begin_op;;
  path ← argstr 0;
  ip ← match path with None => mret None | Some path => create path T_DIR 0 0 end;
  match ip with
  | None => end_op;; mret (-1)
  | Some ip => iunlockput ip;; end_op;; mret 0
  end.

(** The node sys_mknod creates; [major] and [minor] are passed as [short]. *)
Definition mknod_create : K (option nat) :=
  path ← argstr 0;
  match path with None => mret None | Some path =>
  major ← argint 1;
  match major with None => mret None | Some major =>
  minor ← argint 2;
  match minor with None => mret None | Some minor =>
  create path T_DEV (i16 major) (i16 minor)
  end end end.

Definition sys_mknod : K Z :=
  begin_op;;
  ip ← mknod_create;
  match ip with
  | None => end_op;; mret (-1)
  | Some ip => iunlockput ip;; end_op;; mret 0
  end.

Definition sys_chdir : K Z :=
  cp ← curproc_idx;
  begin_op;;
  path ← argstr 0;
  ip ← match path with None => mret None | Some path => namei path end;
  match ip with
  | None => end_op;; mret (-1)
  | Some ip =>
      ilock (Some ip);;
      i ← get_inode ip;
      if negb (i_type i =? T_DIR) then iunlockput ip;; end_op;; mret (-1) else
      iunlock (Some ip);;
      p ← getproc cp;
      cw ← deref (cwd p);
      iput cw;;
      end_op;;
      upd_proc cp (λ p, p <| cwd := Some ip |>);;
      mret 0
  end.

(** The loop of sys_exec: the argument strings from [uargv+4*i] on; [n]
    entries of [argv] are left. *)
Fixpoint exec_argv (n : nat) (uargv i : Z) : K (option (list (list Z))) :=
  match n with
  | O => mret None
  | S n' =>
      uarg ← fetchint (uadd uargv (4 * i));
      match uarg with
      | None => mret None
      | Some uarg =>
          if uarg =? 0 then mret (Some []) else
          a ← fetchstr (u32 uarg);
          match a with
          | None => mret None
          | Some a => rest ← exec_argv n' uargv (i + 1); mret ((a ::.) <$> rest)
          end
      end
  end.

Definition sys_exec : K Z :=
  path ← argstr 0;
  match path with None => mret (-1) | Some path =>
  uargv ← argint 1;
  match uargv with None => mret (-1) | Some uargv =>
  argv ← exec_argv (Z.to_nat MAXARG) (u32 uargv) 0;
  match argv with
  | None => mret (-1)
  | Some argv => exec path argv
  end end end.

Definition sys_pipe : K Z :=
  fd ← argptr 0 8;
  match fd with None => mret (-1) | Some fd =>
  fs ← pipealloc;
  match fs with None => mret (-1) | Some (rf, wf) =>
  fd0 ← fdalloc rf;
  match fd0 with
  | None => fileclose rf;; fileclose wf;; mret (-1)
  | Some fd0 =>
      fd1 ← fdalloc wf;
      match fd1 with
      | None => fdclear fd0;; fileclose rf;; fileclose wf;; mret (-1)
      | Some fd1 =>
          ustore fd (bytes32 (Z.of_nat fd0));;
          ustore (uadd fd 4) (bytes32 (Z.of_nat fd1));;
          mret 0
      end
  end end end.
End Sysfile.

(** The arguments of the three calls below are the constants of the code. *)
Definition sys_chmod : K Z := chmod (chars "./example.txt") 42.
Definition sys_chown : K Z := chown (chars "./example.txt") 43.
Definition sys_chgrp : K Z := chgrp (chars "./example.txt") 44.
