(* ===== verification/Sysproc.v ===== *)
(** Process system calls (sysproc.c), the system call table (syscall.c) and
    the trap handler (trap.c). *)

From S2P Require Import Prelude Types Spinlock Strings Printf Kalloc Sched Console Vm Apic Ide Bio Blocks Bytes Log Fs Pipe File Proc Usermem Exec Sysfile.

(** The bytes of [struct rtcdate]. *)
Definition rtcdate_bytes (d : rtcdate) : list Z :=
  [second d; minute d; hour d; day d; month d; year d] ≫= bytes32.

Section Sysproc.
Context {P : Platform} {H : Hardware} {D : DiskDriver} {V : Devsw}.

Definition sys_fork : K Z := fork.

Definition sys_exit : K Z := exit;; mret 0.

Definition sys_wait : K Z := wait.

Definition sys_kill : K Z :=
  pid ← argint 0;
  match pid with None => mret (-1) | Some pid => kill pid end.

Definition sys_getpid : K Z := p ← cur; mret (pid p).

Definition sys_sbrk : K Z :=
  n ← argint 0;
  match n with
  | None => mret (-1)
  | Some n =>
      p ← cur;
      let addr := sz p in
      r ← growproc n;
      if r <? 0 then mret (-1) else mret addr
  end.

(** [while(ticks - ticks0 < n)]: the [int] [n] is converted to [uint]. *)
Fixpoint sys_sleep_loop (f : nat) (ticks0 n : Z) : K Z :=
  now ← gets ticks;
  if usub now ticks0 <? u32 n then
    p ← cur;
    if killed p then release LTicks;; mret (-1) else
    match f with
    | O => nofuel
    | S f' => sleep ChTicks LTicks;; sys_sleep_loop f' ticks0 n
    end
  else release LTicks;; mret 0.

Definition sys_sleep : K Z :=
  n ← argint 0;
  match n with
  | None => mret (-1)
  | Some n =>
      acquire LTicks;;
      ticks0 ← gets ticks;
      sys_sleep_loop fuel ticks0 n
  end.

Definition sys_uptime : K Z :=
  acquire LTicks;;
  xticks ← gets ticks;
  release LTicks;;
  mret (i32 xticks).

Definition sys_cps : K Z := cps.
Definition sys_nps : K Z := nps.

Definition sys_chpr : K Z :=
  pid ← argint 0;
  match pid with None => mret (-1) | Some pid =>
  pr ← argint 1;
  match pr with None => mret (-1) | Some pr => chpr pid pr end end.

Definition sys_getuid : K Z := getuid.
Definition sys_getgid : K Z := getgid.
Definition sys_getppid : K Z := getppid.

Definition sys_setuid : K Z :=
  uid ← argint 0;
  match uid with None => mret (-1) | Some uid => setuid (u32 uid) end.

Definition sys_setgid : K Z :=
  gid ← argint 0;
  match gid with None => mret (-1) | Some gid => setgid (u32 gid) end.

Definition sys_date : K Z :=
  d ← argptr 0 24;
  match d with
  | None => mret (-1)
  | Some d =>
      t ← cmostime;
      ustore d (rtcdate_bytes t);;
      mret 0
  end.

Definition sys_suid : K Z :=
  uid ← argint 0;
  match uid with None => mret (-1) | Some uid => suid (u32 uid) end.

Definition sys_sgid : K Z :=
  gid ← argint 0;
  match gid with None => mret (-1) | Some gid => sgid (u32 gid) end.

(** ** syscall.c *)

(** [syscalls[]], by the numbers of syscall.h; entry 0 is null. *)
Definition syscalls : list (option (K Z)) :=
  [None; Some sys_fork; Some sys_exit; Some sys_wait; Some sys_pipe; Some sys_read;
   Some sys_kill; Some sys_exec; Some sys_fstat; Some sys_chdir; Some sys_dup;
   Some sys_getpid; Some sys_sbrk; Some sys_sleep; Some sys_uptime; Some sys_open;
   Some sys_write; Some sys_mknod; Some sys_unlink; Some sys_link; Some sys_mkdir;
   Some sys_close; Some sys_cps; Some sys_nps; Some sys_chpr; Some sys_date;
   Some sys_getuid; Some sys_getgid; Some sys_getppid; Some sys_setuid; Some sys_setgid;
   Some sys_suid; Some sys_sgid; Some sys_chmod; Some sys_chown; Some sys_chgrp].

(** [curproc->tf->eax = v]. *)
Definition set_eax (cp : nat) (v : Z) : K unit :=
  upd_proc cp (λ p, p <| tf ::= λ t, t <| tf_eax := u32 v |> |>).

Definition syscall : K unit :=
  cp ← curproc_idx;
  p ← getproc cp;
  let num := i32 (tf_eax (tf p)) in
  match (if 0 <? num then mjoin (syscalls !! Z.to_nat num) else None) with
  | Some f => r ← f; set_eax cp r
  | None =>
      cprintf (Some (chars "%d %s: unknown sys call %d" ++ [10]))
        [AInt (pid p); AStr (Some (c_string (name p))); AInt num];;
      set_eax cp (-1)
  end.

(** ** trap.c *)

Definition T_SYSCALL : Z := 64.

(** [myproc() && myproc()->killed]. *)
Definition cur_killed : K bool :=
  cp ← myproc;
  match cp with None => mret false | Some cp => p ← getproc cp; mret (killed p) end.

(** [ticks++] in the timer interrupt of CPU 0. *)
Definition timer_tick : K unit :=
  acquire LTicks;;
  modify (λ s, s <| ticks ::= λ t, uadd t 1 |>);;
  wakeup ChTicks;;
  release LTicks.

(** The [switch] of trap. *)
Definition trap_dispatch (ideintr : K unit) (cpuid cr2 : Z) (t : trapframe) : K unit :=
  let no := tf_trapno t in
  if no =? T_IRQ0 + IRQ_TIMER then when (cpuid =? 0) timer_tick;; lapiceoi
  else if no =? T_IRQ0 + IRQ_IDE then ideintr;; lapiceoi
  else if no =? T_IRQ0 + IRQ_IDE + 1 then mret tt
  else if no =? T_IRQ0 + IRQ_KBD then kbdintr;; lapiceoi
  else if no =? T_IRQ0 + IRQ_COM1 then uartintr;; lapiceoi
  else if ((no =? T_IRQ0 + 7) || (no =? T_IRQ0 + IRQ_SPURIOUS))%bool then
    cprintf (Some (chars "cpu%d: spurious interrupt at %x:%x" ++ [10]))
      [AInt cpuid; AInt (tf_cs t); AInt (tf_eip t)];;
    lapiceoi
  else
    cp ← myproc;
    match cp with
    | Some cp =>
        if Z.land (tf_cs t) 3 =? 0 then
          cprintf (Some (chars "unexpected trap %d from cpu %d eip %x (cr2=0x%x)" ++ [10]))
            [AInt no; AInt cpuid; AInt (tf_eip t); AInt cr2];;
          panic "trap"
        else
          p ← getproc cp;
          cprintf (Some (chars "pid %d %s: trap %d err %d on cpu %d eip 0x%x addr 0x%x--kill proc" ++ [10]))
            [AInt (pid p); AStr (Some (c_string (name p))); AInt no; AInt (tf_err t); AInt cpuid;
             AInt (tf_eip t); AInt cr2];;
          upd_proc cp (λ p, p <| killed := true |>)
    | None =>
        cprintf (Some (chars "unexpected trap %d from cpu %d eip %x (cr2=0x%x)" ++ [10]))
          [AInt no; AInt cpuid; AInt (tf_eip t); AInt cr2];;
        panic "trap"
    end.

(** [if(myproc() && myproc()->killed && (tf->cs&3) == DPL_USER) exit()]. *)
Definition exit_if_killed (t : trapframe) : K unit :=
  k ← cur_killed;
  when (k && (Z.land (tf_cs t) 3 =? DPL_USER))%bool exit.

Definition trap (ideintr : K unit) (cpuid cr2 : Z) (t : trapframe) : K unit :=
  if tf_trapno t =? T_SYSCALL then
    p ← cur;
    when (killed p) exit;;
    cp ← curproc_idx;
    upd_proc cp (λ p, p <| tf := t |>);;
    syscall;;
    p ← cur;
    when (killed p) exit
  else
    trap_dispatch ideintr cpuid cr2 t;;
    exit_if_killed t;;
    cp ← myproc;
    (match cp with
     | None => mret tt
     | Some cp =>
         p ← getproc cp;
         when (is_state RUNNING p && (tf_trapno t =? T_IRQ0 + IRQ_TIMER))%bool yield
     end);;
    exit_if_killed t.
End Sysproc.
