(* ===== verification/Grep.v ===== *)
(** The user program grep (grep.c): the matcher of regular expressions and the
    loop that prints the matching lines. *)

From S2P Require Import Prelude.

(** Strings are lists of characters without their NUL. *)
Definition STAR : Z := 42.
Definition DOT : Z := 46.
Definition CARET : Z := 94.
Definition DOLLAR : Z := 36.
Definition NL : Z := 10.

(** ** The code *)

(** matchstar, for the expression [re] whose matchhere is [here]. *)
Fixpoint matchstar (c : Z) (here : list Z → bool) (text : list Z) : bool :=
  if here text then true else
  match text with
  | [] => false
  | t :: text' => if ((t =? c) || (c =? DOT))%bool then matchstar c here text' else false
  end.

Fixpoint matchhere (re text : list Z) {struct re} : bool :=
  match re with
  | [] => true
  | c :: re1 =>
      match re1 with
      | s :: re2 =>
          if s =? STAR then matchstar c (matchhere re2) text else
          match text with
          | t :: text' => if ((c =? DOT) || (c =? t))%bool then matchhere re1 text' else false
          | [] => false
          end
      | [] =>
          if c =? DOLLAR then (match text with [] => true | _ => false end) else
          match text with
          | t :: text' => if ((c =? DOT) || (c =? t))%bool then matchhere re1 text' else false
          | [] => false
          end
      end
  end.

(** The loop of match. *)
Fixpoint match_any (re text : list Z) : bool :=
  if matchhere re text then true else
  match text with
  | [] => false
  | _ :: text' => match_any re text'
  end.

Definition match_ (re text : list Z) : bool :=
  match re with
  | c :: re' => if c =? CARET then matchhere re' text else match_any re text
  | [] => match_any re text
  end.

(** [strchr(p, '\n')]: the place of the first newline, if no NUL comes before it. *)
Fixpoint find_nl (l : list Z) : option nat :=
  match l with
  | [] => None
  | c :: l' => if c =? NL then Some 0%nat else if c =? 0 then None else S <$> find_nl l'
  end.

(** The inner loop of grep on the buffer from [p]: what it writes, and the
    buffer from the final [p]. *)
Fixpoint grep_lines (n : nat) (pattern l : list Z) : list Z * list Z :=
  match n with
  | O => ([], l)
  | S n' =>
      match find_nl l with
      | None => ([], l)
      | Some k =>
          let line := take k l in
          let '(out, rest) := grep_lines n' pattern (drop (S k) l) in
          ((if match_ pattern line then line ++ [NL] else []) ++ out, rest)
      end
  end.

(** The outer loop: [m] bytes [pend] are in the buffer, [reads] are what the
    calls of read return. *)
Fixpoint grep (pattern pend : list Z) (reads : list (list Z)) : list Z :=
  match reads with
  | [] => []
  | c :: reads' =>
      if bool_decide (c = []) then [] else
      let buf := pend ++ c in
      let '(out, rest) := grep_lines (length buf) pattern buf in
      let pend' := if (length rest =? length buf)%nat then [] else rest in
      out ++ grep pattern pend' reads'
  end.

(** ** What a regular expression means *)

(** An expression is a sequence of single characters and repetitions, perhaps
    with an anchor at the end. *)
Inductive item := One (c : Z) | Many (c : Z).

Fixpoint items (re : list Z) : list item * bool :=
  match re with
  | [] => ([], false)
  | c :: re1 =>
      match re1 with
      | s :: re2 => if s =? STAR then let '(its, e) := items re2 in (Many c :: its, e)
                    else let '(its, e) := items re1 in (One c :: its, e)
      | [] => if c =? DOLLAR then ([], true) else ([One c], false)
      end
  end.

Definition accepts (c x : Z) : Prop := c = DOT ∨ x = c.

(** The strings an item stands for. *)
Definition item_means (i : item) (w : list Z) : Prop :=
  match i with
  | One c => ∃ x, w = [x] ∧ accepts c x
  | Many c => Forall (accepts c) w
  end.

(** The strings a sequence of items stands for. *)
Fixpoint means (its : list item) (w : list Z) : Prop :=
  match its with
  | [] => w = []
  | i :: its' => ∃ u v, w = u ++ v ∧ item_means i u ∧ means its' v
  end.

(** [re] occurs in [text]: [^] ties it to the start, [$] to the end. *)
Definition occurs (re text : list Z) : Prop :=
  let anchored := match re with c :: _ => bool_decide (c = CARET) | [] => false end in
  let '(its, fin) := items (if anchored then tail re else re) in
  ∃ pre w post, text = pre ++ w ++ post ∧ means its w
    ∧ (anchored = true → pre = []) ∧ (fin = true → post = []).

Lemma matchstar_spec c here text :
  matchstar c here text = true ↔ ∃ u v, text = u ++ v ∧ Forall (accepts c) u ∧ here v = true.
Proof.
  induction text as [|t text IH]; cbn.
  - destruct (here []) eqn:E; split; [by exists [], []|done|done|].
    intros (u & v & H & _ & Hv). symmetry in H. apply app_eq_nil in H as [-> ->]. congruence.
  - destruct (here (t :: text)) eqn:E; [split; [by exists [], (t :: text)|done]|].
    assert (Hacc : ((t =? c) || (c =? DOT))%bool = true ↔ accepts c t).
    { rewrite orb_true_iff, !Z.eqb_eq. unfold accepts. tauto. }
    destruct ((t =? c) || (c =? DOT))%bool.
    + rewrite IH. split.
      * intros (u & v & -> & Hu & Hv). exists (t :: u), v. split; [done|]. split; [|done]. constructor; [by apply Hacc|done].
      * intros ([|x u] & v & H & Hu & Hv); cbn in H; simplify_eq; [congruence|]. apply Forall_cons in Hu as [_ Hu]. by exists u, v.
    + split; [done|]. intros ([|x u] & v & H & Hu & Hv); cbn in H; simplify_eq; [congruence|].
      apply Forall_cons in Hu as [Hx _]. by apply Hacc.
Qed.

(** [re] matches a prefix of [text]. *)
Definition occurs_here (re text : list Z) : Prop :=
  let '(its, fin) := items re in ∃ w post, text = w ++ post ∧ means its w ∧ (fin = true → post = []).

Lemma here_one c re text :
  (let '(its, fin) := items re in ∃ w post, text = w ++ post ∧ means (One c :: its) w ∧ (fin = true → post = []))
  ↔ ∃ t text', text = t :: text' ∧ accepts c t ∧ occurs_here re text'.
Proof.
  unfold occurs_here. destruct (items re) as [its fin]. split.
  - intros (w & post & -> & (u & v & -> & (x & -> & Hx) & Hv) & Hfin). exists x, (v ++ post). split; [done|]. split; [done|].
    by exists v, post.
  - intros (t & text' & -> & Ht & (w & post & -> & Hw & Hfin)). exists (t :: w), post. split; [done|]. split; [|done].
    exists [t], w. split; [done|]. split; [by exists t|done].
Qed.

Lemma matchhere_one c re text :
  (∀ text', matchhere re text' = true ↔ occurs_here re text') →
  match text with
  | t :: text' => if ((c =? DOT) || (c =? t))%bool then matchhere re text' else false
  | [] => false
  end = true ↔ ∃ t text', text = t :: text' ∧ accepts c t ∧ occurs_here re text'.
Proof.
  intros IH. destruct text as [|t text]; [split; [done|by intros (? & ? & ? & _)]|].
  destruct ((c =? DOT) || (c =? t))%bool eqn:E.
  - rewrite orb_true_iff, !Z.eqb_eq in E. rewrite IH. split.
    + intros H. exists t, text. split; [done|]. split; [|done]. unfold accepts. intuition congruence.
    + by intros (t' & text' & [= <- <-] & _ & H).
  - rewrite orb_false_iff, !Z.eqb_neq in E. split; [done|]. intros (t' & text' & [= <- <-] & Ha & _). unfold accepts in Ha. intuition congruence.
Qed.

Lemma matchhere_spec re : ∀ text, matchhere re text = true ↔ occurs_here re text.
Proof.
  remember (length re) as n eqn:Hn. revert re Hn. induction (lt_wf n) as [n _ IH]. intros re -> text.
  destruct re as [|c re1]; [split; [intros _; exists [], text; done|done]|]. destruct re1 as [|s re2].
  - cbn [matchhere]. unfold occurs_here. cbn [items]. destruct (c =? DOLLAR).
    + destruct text as [|t text].
      * split; [|done]. intros _. by exists [], [].
      * split; [done|]. intros (w & post & H & -> & Hp). cbn in H. rewrite Hp in H by done. done.
    + etransitivity; [apply (matchhere_one c [] text); by intros text'; split; [intros _; exists [], text'|]|].
      symmetry. apply (here_one c []).
  - unfold occurs_here. cbn [matchhere items]. destruct (s =? STAR).
    + rewrite matchstar_spec. assert (IH2 := IH (length re2) ltac:(cbn; lia) re2 eq_refl).
      unfold occurs_here in IH2. destruct (items re2) as [its fin]. split.
      * intros (u & v & -> & Hu & (w & post & -> & Hw & Hf)%IH2). exists (u ++ w), post. rewrite app_assoc. split; [done|].
        split; [|done]. by exists u, w.
      * intros (w & post & -> & (u & v & -> & Hu & Hv) & Hf). exists u, (v ++ post). rewrite app_assoc. split; [done|]. split; [done|].
        apply IH2. by exists v, post.
    + etransitivity; [apply (matchhere_one c (s :: re2) text); by apply (IH (length (s :: re2))); [cbn; lia|]|].
      rewrite <- (here_one c (s :: re2)). cbn [items]. by destruct (match re2 with [] => _ | _ => _ end) as [its fin].
Qed.

Lemma match_any_spec re text : match_any re text = true ↔ ∃ pre text', text = pre ++ text' ∧ occurs_here re text'.
Proof.
  induction text as [|t text IH]; cbn [match_any].
  - destruct (matchhere re []) eqn:E.
    + split; [|done]. intros _. exists [], []. split; [done|]. by apply matchhere_spec.
    + split; [done|]. intros (pre & text' & H & Ho). symmetry in H. apply app_eq_nil in H as [-> ->].
      apply matchhere_spec in Ho. congruence.
  - destruct (matchhere re (t :: text)) eqn:E.
    + split; [|done]. intros _. exists [], (t :: text). split; [done|]. by apply matchhere_spec.
    + rewrite IH. split.
      * intros (pre & text' & -> & Ho). by exists (t :: pre), text'.
      * intros ([|x pre] & text' & H & Ho); cbn in H; simplify_eq; [apply matchhere_spec in Ho; congruence|]. by exists pre, text'.
Qed.

(** C32: grep's matcher decides exactly whether the text contains a string the
    expression stands for: a sequence of characters, dots for any character and
    repetitions of either, tied to the start of the text by a leading [^] and to
    its end by a final [$]. *)
Theorem match_decides_occurrence re text : match_ re text = true ↔ occurs re text.
Proof.
  assert (Hany : ∀ r, match_any r text = true ↔
    let '(its, fin) := items r in ∃ pre w post, text = pre ++ w ++ post ∧ means its w ∧ (false = true → pre = []) ∧ (fin = true → post = [])).
  { intros r. rewrite match_any_spec. unfold occurs_here. destruct (items r) as [its fin]. split.
    - intros (pre & text' & -> & w & post & -> & Hw & Hf). by exists pre, w, post.
    - intros (pre & w & post & -> & Hw & _ & Hf). exists pre, (w ++ post). split; [done|]. by exists w, post. }
  unfold match_, occurs. destruct re as [|c re]; [apply Hany|]. destruct (Z.eqb_spec c CARET) as [->|Hc].
  - rewrite bool_decide_true by done. cbn [tail]. rewrite matchhere_spec. unfold occurs_here. destruct (items re) as [its fin]. split.
    + intros (w & post & -> & Hw & Hf). by exists [], w, post.
    + intros (pre & w & post & -> & Hw & Hp & Hf). exists w, post. by rewrite Hp.
  - rewrite bool_decide_false by done. apply Hany.
Qed.

(** ** The lines that are printed *)

(** The complete lines of [l], and what follows the last newline. *)
Fixpoint split_nl (l : list Z) : list (list Z) * list Z :=
  match l with
  | [] => ([], [])
  | c :: l' =>
      let '(ls, r) := split_nl l' in
      if c =? NL then ([] :: ls, r)
      else match ls with [] => ([], c :: r) | x :: ls' => ((c :: x) :: ls', r) end
  end.

Definition print_matches (pattern : list Z) (ls : list (list Z)) : list Z :=
  concat ((λ line, if match_ pattern line then line ++ [NL] else []) <$> ls).

Lemma find_nl_split l : 0 ∉ l →
  match find_nl l with
  | None => split_nl l = ([], l) ∧ NL ∉ l
  | Some k => split_nl l = (take k l :: (split_nl (drop (S k) l)).1, (split_nl (drop (S k) l)).2)
  end.
Proof.
  induction l as [|c l IH]; intros H0; [split; [done|apply not_elem_of_nil]|]. apply not_elem_of_cons in H0 as [Hc H0].
  specialize (IH H0). cbn [find_nl split_nl]. destruct (Z.eqb_spec c NL) as [->|Hn].
  - change (drop 1 (NL :: l)) with (drop 0 l). rewrite drop_0. by destruct (split_nl l).
  - destruct (Z.eqb_spec c 0); [congruence|]. destruct (find_nl l) as [k|]; cbn [fmap option_fmap option_map].
    + rewrite IH. done.
    + destruct IH as [-> Hl]. split; [done|]. apply not_elem_of_cons. split; [congruence|done].
Qed.

Lemma grep_lines_spec pattern n : ∀ l, (length l ≤ n)%nat → 0 ∉ l →
  grep_lines n pattern l = (print_matches pattern (split_nl l).1, (split_nl l).2).
Proof.
  induction n as [|n IH]; intros l Hn H0; [by destruct l; [|cbn in Hn; lia]|]. cbn [grep_lines].
  pose proof (find_nl_split l H0) as Hs. destruct (find_nl l) as [k|] eqn:Ek.
  - assert (Hd : 0 ∉ drop (S k) l).
    { intros H. apply H0. rewrite <- (take_drop (S k) l). apply elem_of_app. by right. }
    rewrite IH; [|rewrite length_drop; lia|done]. by rewrite Hs.
  - by destruct Hs as [-> _].
Qed.

Lemma split_nl_app a b :
  split_nl (a ++ b) = ((split_nl a).1 ++ (split_nl ((split_nl a).2 ++ b)).1, (split_nl ((split_nl a).2 ++ b)).2).
Proof.
  induction a as [|c a IH]; [cbn; by destruct (split_nl b)|]. cbn [app split_nl]. rewrite IH. destruct (split_nl a) as [ls r]. cbn [fst snd].
  destruct (c =? NL) eqn:E; [done|]. destruct ls as [|x ls]; cbn [app fst snd]; [|done].
  cbn [split_nl]. rewrite E. destruct (split_nl (r ++ b)) as [ls2 r2]. cbn. by destruct ls2.
Qed.

Lemma split_nl_rest l : NL ∉ (split_nl l).2 ∧ (NL ∈ l → length (split_nl l).2 ≠ length l) ∧ (∀ x, x ∈ (split_nl l).2 → x ∈ l).
Proof.
  assert (Hle : ∀ l, (length (split_nl l).2 ≤ length l)%nat).
  { intros m. induction m as [|c m IH]; [done|]. cbn. destruct (split_nl m) as [ls r]. destruct (c =? NL); [cbn in *; lia|].
    destruct ls; cbn in *; lia. }
  induction l as [|c l (I1 & I2 & I3)]; [split; [apply not_elem_of_nil|]; split; [by intros ?%elem_of_nil|done]|].
  specialize (Hle l). cbn. destruct (split_nl l) as [ls r]. destruct (Z.eqb_spec c NL) as [->|Hc].
  - cbn in *. split; [done|]. split; [lia|]. intros x Hx. right. auto.
  - destruct ls as [|x ls]; cbn in *.
    + split; [apply not_elem_of_cons; split; [congruence|done]|]. split.
      * intros [?|H]%elem_of_cons; [congruence|]. specialize (I2 H). lia.
      * intros y [->|Hy]%elem_of_cons; [by left|right; auto].
    + split; [done|]. split; [lia|]. intros y Hy. right. auto.
Qed.

Lemma split_nl_none l : NL ∉ l → split_nl l = ([], l).
Proof.
  induction l as [|c l IH]; [done|]. intros [Hc Hn]%not_elem_of_cons. cbn. rewrite IH by done.
  destruct (Z.eqb_spec c NL); [congruence|done].
Qed.

(** When every read ends a line, grep prints exactly the matching lines of its
    input, however the reads cut it. *)
Lemma grep_prints_lines pattern reads : ∀ pend,
  0 ∉ pend → NL ∉ pend → Forall (λ c, 0 ∉ c ∧ NL ∈ c) reads →
  grep pattern pend reads = print_matches pattern (split_nl (pend ++ concat reads)).1.
Proof.
  induction reads as [|c reads IH]; intros pend H0 Hn Hr; cbn [grep concat].
  - rewrite app_nil_r. by rewrite split_nl_none.
  - apply Forall_cons in Hr as [[Hc0 Hcn] Hr]. rewrite bool_decide_false by (intros ->; by apply elem_of_nil in Hcn).
    rewrite grep_lines_spec; [|done|intros [?|?]%elem_of_app; done].
    destruct (split_nl_rest (pend ++ c)) as (R1 & R2 & R3).
    assert (Hin : NL ∈ pend ++ c) by (apply elem_of_app; by right). specialize (R2 Hin).
    destruct (Nat.eqb_spec (length (split_nl (pend ++ c)).2) (length (pend ++ c))); [done|].
    rewrite IH; [|intros H%R3; apply elem_of_app in H as [?|?]; done|done|done].
    rewrite app_assoc, (split_nl_app (pend ++ c)). cbn [fst]. unfold print_matches. by rewrite fmap_app, concat_app.
Qed.

(** A line whose first part arrives alone is not printed whole. *)
Lemma grep_drops_split_line :
  grep [97] [] [[97]; [98; NL]] = [] ∧ print_matches [97] (split_nl ([97] ++ [98; NL])).1 = [97; 98; NL].
Proof. done. Qed.
