(* ===== verification/Umalloc.v ===== *)
(** The memory allocator of user programs (umalloc.c): malloc and free on a
    circular list of free blocks, threaded through the blocks themselves. *)

From S2P Require Import Prelude Strings.

(** ** State

    [brk] is the end of the memory of the process, [freep] the static variable
    of that name; 0 is a null pointer. *)
Record heap := mkHeap { hmem : memory; freep : Z; brk : Z }.
#[export] Instance eta_heap : Settable heap := λ h, mkHeap (hmem h) (freep h) (brk h).
#[export] Instance set_hmem : Setter hmem := ltac:(build_setter).
#[export] Instance set_freep : Setter freep := ltac:(build_setter).
#[export] Instance set_brk : Setter brk := ltac:(build_setter).

(** The address of the static [Header base], the answer of the kernel to
    [sbrk(n)] when the memory ends at [b], and a bound for the loops. *)
Class Process := { base : Z; sbrk_ok : Z → Z → bool; ufuel : nat }.

(** What the kernel and the bound promise: the memory of a process ends below
    KERNBASE, and the loops may go twice round any ring that fits there. *)
Class ProcessOk `{Process} := {
  sbrk_below b n : sbrk_ok b n = true → b + n < 2 ^ 31;
  ufuel_ok : 2 ^ 30 ≤ Z.of_nat ufuel
}.

(** ** The code

    A [Header] is 8 bytes, the pointer [s.ptr] and the size [s.size] in units
    of 8 bytes. *)
Section Code.
Context `{Process}.

Definition hptr (a : Z) : M heap Z := gets (λ h, load32 (hmem h) a).
Definition hsize (a : Z) : M heap Z := gets (λ h, load32 (hmem h) (uadd a 4)).
Definition set_hptr (a v : Z) : M heap unit := modify (λ h, h <| hmem ::= λ m, store32 m a v |>).
Definition set_hsize (a v : Z) : M heap unit := modify (λ h, h <| hmem ::= λ m, store32 m (uadd a 4) v |>).

(** [p + n] for a [Header *p]. *)
Definition hadd (p n : Z) : Z := uadd p (8 * n).

(** The for loop of free. *)
Fixpoint free_loop (n : nat) (bp p : Z) : M heap Z :=
  nx ← hptr p;
  if ((p <? bp) && (bp <? nx))%bool then mret p else
  if ((nx <=? p) && ((p <? bp) || (bp <? nx)))%bool then mret p else
  match n with
  | O => nofuel
  | S n' => free_loop n' bp nx
  end.

Definition free (ap : Z) : M heap unit :=
  let bp := usub ap 8 in
  fp ← gets freep;
  p ← free_loop ufuel bp fp;
  nx ← hptr p;
  n ← hsize bp;
  (if hadd bp n =? nx then
     nn ← hsize nx;
     set_hsize bp (uadd n nn);;
     nx ← hptr p;
     nnx ← hptr nx;
     set_hptr bp nnx
   else set_hptr bp nx);;
  k ← hsize p;
  (if hadd p k =? bp then
     n ← hsize bp;
     set_hsize p (uadd k n);;
     nx ← hptr bp;
     set_hptr p nx
   else set_hptr p bp);;
  modify (λ h, h <| freep := p |>).

(** The system call: the old end of the memory, or -1. *)
Definition sbrk (n : Z) : M heap Z :=
  b ← gets brk;
  if sbrk_ok b n then modify (λ h, h <| brk := uadd b n |>);; mret b else mret (2 ^ 32 - 1).

Definition morecore (nu : Z) : M heap Z :=
  let nu := if nu <? 4096 then 4096 else nu in
  p ← sbrk (i32 (u32 (nu * 8)));
  if p =? 2 ^ 32 - 1 then mret 0 else
  set_hsize p nu;;
  free (hadd p 1);;
  gets freep.

(** The for loop of malloc. *)
Fixpoint malloc_loop (n : nat) (nunits prevp p : Z) : M heap Z :=
  k ← hsize p;
  if nunits <=? k then
    q ← (if k =? nunits then
           nx ← hptr p;
           set_hptr prevp nx;;
           mret p
         else
           set_hsize p (usub k nunits);;
           k' ← hsize p;
           set_hsize (hadd p k') nunits;;
           mret (hadd p k'));
    modify (λ h, h <| freep := prevp |>);;
    mret (hadd q 1)
  else
    fp ← gets freep;
    p' ← (if p =? fp then morecore nunits else mret p);
    if ((p =? fp) && (p' =? 0))%bool then mret 0 else
    match n with
    | O => nofuel
    | S n' => nx ← hptr p'; malloc_loop n' nunits p' nx
    end.

Definition malloc (nbytes : Z) : M heap Z :=
  let nunits := uadd (uadd nbytes 7 / 8) 1 in
  fp ← gets freep;
  prevp ← (if fp =? 0 then
             set_hptr base base;;
             modify (λ h, h <| freep := base |>);;
             set_hsize base 0;;
             mret base
           else mret fp);
  p ← hptr prevp;
  malloc_loop ufuel nunits prevp p.
End Code.

(** ** The free list *)

(** Blocks: address and number of units. *)
Definition hd_or (e : Z) (R : list (Z * Z)) : Z := match R with [] => e | (a, _) :: _ => a end.

(** The blocks [R] are linked in this order, the last one to [e]. *)
Fixpoint seg (m : memory) (R : list (Z * Z)) (e : Z) : Prop :=
  match R with
  | [] => True
  | (a, n) :: R' => load32 m (a + 4) = n ∧ load32 m a = hd_or e R' ∧ seg m R' e
  end.

(** They lie between [lo] and [hi], in order and without overlap. *)
Fixpoint laid (lo : Z) (L : list (Z * Z)) (hi : Z) : Prop :=
  match L with
  | [] => lo ≤ hi
  | (a, n) :: L' => lo ≤ a ∧ 1 ≤ n ∧ laid (a + 8 * n) L' hi
  end.

Definition blk (b : Z * Z) (x : Z) : Prop := b.1 ≤ x < b.1 + 8 * b.2.
Definition cov (L : list (Z * Z)) (x : Z) : Prop := ∃ b, b ∈ L ∧ blk b x.

Lemma hd_or_app e R1 R2 : hd_or e (R1 ++ R2) = hd_or (hd_or e R2) R1.
Proof. by destruct R1 as [|[a n] R1]. Qed.

Lemma seg_app m R1 R2 e : seg m (R1 ++ R2) e ↔ seg m R1 (hd_or e R2) ∧ seg m R2 e.
Proof.
  induction R1 as [|[a n] R1 IH]; cbn; [tauto|]. rewrite IH, hd_or_app. tauto.
Qed.

Lemma seg_ext m m' R e :
  (∀ a n x, (a, n) ∈ R → a ≤ x < a + 8 → m' x = m x) → seg m R e → seg m' R e.
Proof.
  induction R as [|[a n] R IH]; [done|]. intros Hm (H1 & H2 & H3). split_and!.
  - rewrite <- H1. apply load32_ext. intros x Hx. apply (Hm a n); [by left|lia].
  - rewrite <- H2. apply load32_ext. intros x Hx. apply (Hm a n); [by left|lia].
  - apply IH; [|done]. intros b k x Hb. apply (Hm b k). by right.
Qed.

Lemma laid_app lo L1 L2 hi : laid lo (L1 ++ L2) hi ↔ ∃ mid, laid lo L1 mid ∧ laid mid L2 hi.
Proof.
  revert lo. induction L1 as [|[a n] L1 IH]; intros lo; cbn.
  - split; [intros H; exists lo; split; [lia|done]|]. intros (mid & H1 & H2). destruct L2 as [|[b k] L2]; cbn in *; [lia|].
    destruct H2 as (? & ? & ?). split_and!; [lia|lia|done].
  - rewrite IH. split; [intros (? & ? & mid & ? & ?); by exists mid|intros (mid & (? & ? & ?) & ?); split; [done|]; split; [done|]; by exists mid].
Qed.

Lemma laid_le lo L hi : laid lo L hi → lo ≤ hi.
Proof. revert lo. induction L as [|[a n] L IH]; intros lo; cbn; [done|]. intros (? & ? & ?%IH). lia. Qed.

Lemma laid_in lo L hi a n : laid lo L hi → (a, n) ∈ L → lo ≤ a ∧ 1 ≤ n ∧ a + 8 * n ≤ hi.
Proof.
  revert lo. induction L as [|[b k] L IH]; intros lo; [by intros _ ?%elem_of_nil|]. cbn. intros (H1 & H2 & H3) [[= -> ->]|Hin]%elem_of_cons.
  - apply laid_le in H3. lia.
  - destruct (IH _ H3 Hin) as (? & ? & ?). lia.
Qed.

Lemma laid_cov lo L hi x : laid lo L hi → cov L x → lo ≤ x < hi.
Proof. intros HL ([a n] & Hb & Hx). destruct (laid_in _ _ _ _ _ HL Hb) as (? & ? & ?). unfold blk in Hx. cbn in Hx. lia. Qed.

Lemma laid_hi lo L hi hi' : laid lo L hi → hi ≤ hi' → laid lo L hi'.
Proof. revert lo. induction L as [|[a n] L IH]; intros lo; cbn; [lia|]. intros (? & ? & ?) ?. auto. Qed.

Lemma cov_app L1 L2 x : cov (L1 ++ L2) x ↔ cov L1 x ∨ cov L2 x.
Proof.
  unfold cov. split.
  - intros (b & [H|H]%elem_of_app & Hx); [left|right]; eauto.
  - intros [(b & H & Hx)|(b & H & Hx)]; exists b; (split; [apply elem_of_app|done]); auto.
Qed.

Lemma cov_cons b L x : cov (b :: L) x ↔ blk b x ∨ cov L x.
Proof.
  unfold cov. split.
  - intros (c & [->|H]%elem_of_cons & Hx); [by left|right; eauto].
  - intros [H|(c & H & Hx)]; [exists b; split; [by left|done]|exists c; split; [by right|done]].
Qed.

Lemma cov_nil x : ¬ cov [] x.
Proof. intros (b & H & _). by apply elem_of_nil in H. Qed.

(** Where a block that overlaps no free block belongs. *)
Lemma laid_split lo L hi b n :
  laid lo L hi → lo ≤ b → 1 ≤ n → b + 8 * n ≤ hi → (∀ x, blk (b, n) x → ¬ cov L x) →
  ∃ P S, L = P ++ S ∧ laid lo P b ∧ laid (b + 8 * n) S hi.
Proof.
  revert lo. induction L as [|[a k] L IH]; intros lo HL Hlo Hn Hhi Hd; [exists [], []; done|].
  destruct HL as (H1 & H2 & H3). destruct (Z.leb_spec (a + 8 * k) b) as [Hab|Hab].
  - destruct (IH _ H3 Hab Hn Hhi) as (P & S & -> & HP & HS).
    { intros x Hx Hc. apply (Hd x Hx), cov_cons. by right. }
    exists ((a, k) :: P), S. by split_and!.
  - destruct (Z.leb_spec (b + 8 * n) a) as [Hba|Hba]; [by exists [], ((a, k) :: L)|].
    exfalso. apply (Hd (Z.max a b)); [unfold blk; cbn; lia|]. apply cov_cons. left. unfold blk. cbn. lia.
Qed.

Section Umalloc.
Context `{Process}.

Record heap_ok (h : heap) (L : list (Z * Z)) : Prop := {
  ho_seg : seg (hmem h) ((base, 0) :: L) base;
  ho_laid : laid (base + 8) L (brk h);
  ho_base : 0 < base;
  ho_brk : brk h < 2 ^ 31;
  ho_freep : freep h ∈ ((base, 0) :: L).*1
}.

Lemma uadd_small a k : 0 ≤ a → 0 ≤ k → a + k < 2 ^ 32 → uadd a k = a + k.
Proof. intros. apply u32_small. unfold is_u32. lia. Qed.

Lemma hptr_run a h : hptr a h = Ret (load32 (hmem h) a) h.
Proof. done. Qed.
Lemma hsize_run a h : 0 ≤ a < 2 ^ 31 → hsize a h = Ret (load32 (hmem h) (a + 4)) h.
Proof. intros Ha. unfold hsize. by rewrite uadd_small by lia. Qed.
Lemma set_hsize_run a v h : 0 ≤ a < 2 ^ 31 → set_hsize a v h = Ret tt (h <| hmem ::= λ m, store32 m (a + 4) v |>).
Proof. intros Ha. unfold set_hsize. by rewrite uadd_small by lia. Qed.

(** ** The search of free *)

Lemma free_skip n bp a h :
  let nx := load32 (hmem h) a in
  ¬ (a < bp ∧ bp < nx) → ¬ (nx ≤ a ∧ (a < bp ∨ bp < nx)) → free_loop (S n) bp a h = free_loop n bp nx h.
Proof.
  intros nx H1 H2. cbn [free_loop]. rewrite (bind_run _ _ _ _ _ (hptr_run a h)). cbv beta. fold nx.
  destruct (Z.ltb_spec a bp), (Z.ltb_spec bp nx), (Z.leb_spec nx a); cbn [andb orb]; try done; lia.
Qed.

Lemma free_stop n bp a h :
  let nx := load32 (hmem h) a in a < bp → bp < nx ∨ nx ≤ a → free_loop n bp a h = Ret a h.
Proof.
  intros nx H1 H2. destruct n; cbn [free_loop]; rewrite (bind_run _ _ _ _ _ (hptr_run a h)); cbv beta; fold nx;
    destruct (Z.ltb_spec a bp), (Z.ltb_spec bp nx), (Z.leb_spec nx a); cbn [andb orb]; try done; lia.
Qed.

Lemma skip_low n bp h A : ∀ lo mid e,
  seg (hmem h) A e → laid lo A mid → mid ≤ e → e < bp → free_loop (length A + n) bp (hd_or e A) h = free_loop n bp e h.
Proof.
  induction A as [|[a k] A IH]; intros lo mid e HA HL He Hb; [done|]. destruct HA as (_ & Hp & HA). destruct HL as (_ & Hk & HL).
  assert (Hn : a < hd_or e A ≤ e).
  { destruct A as [|[c j] A]; cbn in *; [lia|]. destruct HL as (? & ? & ?%laid_le). lia. }
  cbn [length Nat.add hd_or]. rewrite free_skip by (rewrite Hp; lia). rewrite Hp. by eapply IH.
Qed.

Lemma skip_high n bp h A : ∀ lo hi,
  seg (hmem h) A base → laid lo A hi → bp < lo → base < bp → free_loop (length A + n) bp (hd_or base A) h = free_loop n bp base h.
Proof.
  induction A as [|[a k] A IH]; intros lo hi HA HL Hlo Hb; [done|]. destruct HA as (_ & Hp & HA). destruct HL as (H1 & Hk & HL).
  cbn [length Nat.add hd_or]. rewrite free_skip.
  - rewrite Hp. eapply IH; [done|done|lia|done].
  - lia.
  - rewrite Hp. destruct A as [|[c j] A]; cbn in *; [lia|]. destruct HL as (? & ? & _). lia.
Qed.

(** The last node below a block. *)
Lemma last_low P b Q p np :
  (base, 0) :: P = Q ++ [(p, np)] → laid (base + 8) P b →
  p + 8 ≤ b ∧ base ≤ p ∧ 0 ≤ np ∧ p + 8 * np ≤ b ∧
  (Q = [] ∧ P = [] ∧ p = base ∧ np = 0 ∨ ∃ Q', Q = (base, 0) :: Q' ∧ P = Q' ++ [(p, np)] ∧ laid (base + 8) Q' p).
Proof.
  intros HQ HP. destruct Q as [|c Q']; cbn [app] in HQ.
  - injection HQ as <- <- ->. cbn in HP. split_and!; [lia..|by left].
  - injection HQ as <- ->. apply laid_app in HP as (mid & HQ' & Hm & H1 & H2). cbn in H2. pose proof (laid_le _ _ _ HQ').
    split_and!; [lia..|]. right. exists Q'. split_and!; [done|done|]. by apply (laid_hi _ _ mid).
Qed.

Lemma free_from_base h P b Q p np N :
  seg (hmem h) Q p → (base, 0) :: P = Q ++ [(p, np)] → laid (base + 8) P b → (length P <= N)%nat →
  (∀ N', free_loop N' b p h = Ret p h) → free_loop N b base h = Ret p h.
Proof.
  intros HsQ HQ HP HN Hstop.
  destruct (last_low _ _ _ _ _ HQ HP) as (Hpb & _ & _ & _ & [(_ & _ & -> & _)|(Q' & -> & -> & HlQ)]); [apply Hstop|].
  destruct HsQ as (_ & Hnx & HsQ). rewrite length_app in HN. cbn [length] in HN. destruct N as [|N]; [lia|].
  assert (Hh : base < hd_or p Q' ≤ p).
  { destruct Q' as [|[c j] Q']; cbn in *; [lia|]. destruct HlQ as (? & ? & ?%laid_le). lia. }
  rewrite free_skip by (rewrite Hnx; lia). rewrite Hnx.
  replace N with (length Q' + (N - length Q'))%nat by lia.
  rewrite (skip_low _ _ _ _ _ _ _ HsQ HlQ) by lia. apply Hstop.
Qed.

(** From anywhere on the ring, the search stops at the last node below the block. *)
Lemma free_finds h P S b n Q p np :
  heap_ok h (P ++ S) → laid (base + 8) P b → laid (b + 8 * n) S (brk h) → 1 ≤ n → (length (P ++ S) < ufuel)%nat →
  (base, 0) :: P = Q ++ [(p, np)] → free_loop ufuel b (freep h) h = Ret p h.
Proof.
  intros HO HP HS Hn Hf HQ. pose proof (laid_le _ _ _ HP) as Hb. rewrite length_app in Hf.
  pose proof (ho_seg _ _ HO) as Hseg. rewrite app_comm_cons, HQ in Hseg. apply seg_app in Hseg as [HsQ HsS].
  apply seg_app in HsQ as [HsQ (_ & Hp & _)]. cbn [hd_or] in HsQ, Hp.
  destruct (last_low _ _ _ _ _ HQ HP) as (Hpb & Hbp & _ & _ & HQ').
  assert (Hstop : ∀ N, free_loop N b p h = Ret p h).
  { intros N. apply free_stop; [lia|]. rewrite Hp. destruct S as [|[c j] S']; cbn in *; [lia|]. destruct HS as (? & _). lia. }
  assert (Hbase : ∀ N, (length P <= N)%nat → free_loop N b base h = Ret p h).
  { intros N HN. by apply (free_from_base _ P b Q p np). }
  pose proof (ho_freep _ _ HO) as Hin. rewrite app_comm_cons, fmap_app in Hin. apply elem_of_app in Hin as [Hin|Hin].
  - rewrite HQ, fmap_app in Hin. apply elem_of_app in Hin as [Hin|Hin]; [|apply list_elem_of_singleton in Hin; cbn in Hin; rewrite Hin; apply Hstop].
    destruct HQ' as [(-> & _)|(Q' & -> & -> & HlQ)]; [by apply elem_of_nil in Hin|].
    apply elem_of_cons in Hin as [->|([f k] & -> & (A & B & ->)%list_elem_of_split)%list_elem_of_fmap]; [apply Hbase; lia|].
    destruct HsQ as (_ & _ & HsQ). apply seg_app in HsQ as [_ HsQ]. apply laid_app in HlQ as (mid & _ & HlQ).
    rewrite !length_app in Hf. cbn [length] in Hf.
    replace ufuel with (length ((f, k) :: B) + (ufuel - length ((f, k) :: B)))%nat by (cbn [length]; lia).
    etrans; [apply (skip_low _ _ _ _ _ _ _ HsQ HlQ); lia|apply Hstop].
  - apply list_elem_of_fmap in Hin as ([f k] & -> & (A & B & ->)%list_elem_of_split).
    apply seg_app in HsS as [_ HsS]. apply laid_app in HS as (mid & HlA%laid_le & HlB).
    rewrite !length_app in Hf. cbn [length] in Hf.
    replace ufuel with (length ((f, k) :: B) + (ufuel - length ((f, k) :: B)))%nat by (cbn [length]; lia).
    etrans; [apply (skip_high _ _ _ _ _ _ HsS HlB); lia|]. apply Hbase. cbn [length]. lia.
Qed.

(** ** The two merges of free *)

Lemma seg_write m w v R e :
  seg m R e → (∀ a n, (a, n) ∈ R → a + 8 ≤ w ∨ w + 4 ≤ a) → seg (store32 m w v) R e.
Proof.
  intros HR Hw. apply (seg_ext m); [|done]. intros a n x Ha Hx. apply store32_other. specialize (Hw a n Ha). lia.
Qed.

Lemma seg_above m w v R e lo hi : seg m R e → laid lo R hi → w + 4 ≤ lo → seg (store32 m w v) R e.
Proof. intros HR HL Hw. apply seg_write; [done|]. intros a n Ha. destruct (laid_in _ _ _ _ _ HL Ha). lia. Qed.

Lemma seg_below m w v R e lo hi : seg m R e → laid lo R hi → hi ≤ w → seg (store32 m w v) R e.
Proof. intros HR HL Hw. apply seg_write; [done|]. intros a n Ha. destruct (laid_in _ _ _ _ _ HL Ha) as (? & ? & ?). lia. Qed.

Lemma laid_lo lo lo' L hi : laid lo L hi → lo' ≤ lo → laid lo' L hi.
Proof. destruct L as [|[a n] L]; cbn; [lia|]. intros (? & ? & ?) ?. split_and!; [lia|done|done]. Qed.

(** A block linked in front of [R]. *)
Lemma seg_cons_write m b n R e hi :
  let m' := store32 m b (hd_or e R) in
  load32 m' (b + 4) = n → seg m' R e → laid (b + 8 * n) R hi → 0 ≤ b + 8 * n ∧ hi < 2 ^ 31 → 0 ≤ e < 2 ^ 32 → seg m' ((b, n) :: R) e.
Proof.
  intros m' Hn HR HL Hb He. split_and!; [done| |done]. unfold m'. rewrite load_store32. apply u32_small. unfold is_u32.
  destruct R as [|[c j] R]; cbn in *; [lia|]. destruct HL as (? & ? & ?%laid_le). lia.
Qed.

Lemma free_right p b n S h hi :
  load32 (hmem h) p = hd_or base S → load32 (hmem h) (b + 4) = n → seg (hmem h) S base → laid (b + 8 * n) S hi →
  hi < 2 ^ 31 → 0 ≤ p → p + 8 ≤ b → 0 < base < b → 1 ≤ n →
  ∃ n1 S1 m1,
    (if hadd b n =? hd_or base S then
       nn ← hsize (hd_or base S);
       set_hsize b (uadd n nn);;
       nx ← hptr p;
       nnx ← hptr nx;
       set_hptr b nnx
     else set_hptr b (hd_or base S)) h = Ret tt (h <| hmem := m1 |>) ∧
    seg m1 ((b, n1) :: S1) base ∧ laid (b + 8 * n1) S1 hi ∧ n ≤ n1 ∧
    (∀ x, x < b ∨ b + 8 ≤ x → m1 x = hmem h x) ∧ (∀ x, cov ((b, n1) :: S1) x ↔ blk (b, n) x ∨ cov S x).
Proof.
  intros Hp Hn HS HL Hhi Hp0 Hpb Hb H1. pose proof (laid_le _ _ _ HL). unfold hadd. rewrite uadd_small by lia.
  assert (Hkeep : b + 8 * n ≠ hd_or base S → ∃ n1 S1 m1, set_hptr b (hd_or base S) h = Ret tt (h <| hmem := m1 |>) ∧
    seg m1 ((b, n1) :: S1) base ∧ laid (b + 8 * n1) S1 hi ∧ n ≤ n1 ∧
    (∀ x, x < b ∨ b + 8 ≤ x → m1 x = hmem h x) ∧ (∀ x, cov ((b, n1) :: S1) x ↔ blk (b, n) x ∨ cov S x)).
  { intros _. exists n, S, (store32 (hmem h) b (hd_or base S)). split_and!; [done| |done|done| |].
    - apply (seg_cons_write _ _ _ _ _ hi); [by rewrite load_store32_other by lia| | | |]; try lia.
      + apply (seg_above _ _ _ _ _ _ _ HS HL). lia.
      + done.
    - intros x Hx. apply store32_other. lia.
    - intros x. apply cov_cons. }
  destruct (Z.eqb_spec (b + 8 * n) (hd_or base S)) as [Heq|Hne]; [|by apply Hkeep].
  destruct S as [|[c j] S]; cbn [hd_or] in *; [lia|]. clear Hkeep. assert (c = b + 8 * n) as -> by lia.
  destruct HS as (Hj & Hc & HS). destruct HL as (_ & Hj1 & HL). pose proof (laid_le _ _ _ HL).
  exists (n + j), S, (store32 (store32 (hmem h) (b + 4) (uadd n j)) b (hd_or base S)). split_and!.
  - rewrite (bind_run _ _ _ _ _ (hsize_run (b + 8 * n) h ltac:(lia))), Hj. rewrite (bind_run _ _ _ _ _ (set_hsize_run b _ h ltac:(lia))).
    rewrite (bind_run _ _ _ _ _ (hptr_run _ _)). sst. rewrite load_store32_other, Hp by lia.
    rewrite (bind_run _ _ _ _ _ (hptr_run _ _)). sst. rewrite load_store32_other, Hc by lia. done.
  - assert (HL' : laid (b + 8 * (n + j)) S hi) by (apply (laid_lo _ _ _ _ HL); lia). apply (seg_cons_write _ _ _ _ _ hi); try lia.
    + rewrite load_store32_other by lia. rewrite load_store32, uadd_small by lia. apply u32_small. unfold is_u32. lia.
    + do 2 (eapply seg_above; [|done|lia]). done.
    + done.
  - apply (laid_lo _ _ _ _ HL). lia.
  - lia.
  - intros x Hx. rewrite !store32_other by lia. done.
  - intros x. rewrite !cov_cons. unfold blk. cbn. split.
    + intros [?|?]; [|tauto]. destruct (Z.ltb_spec x (b + 8 * n)); [left; lia|right; left; lia].
    + intros [?|[?|?]]; [left; lia|left; lia|tauto].
Qed.

(** The nodes before the last one stay clear of it. *)
Lemma seg_before m w v P b Q p np :
  seg m Q p → (base, 0) :: P = Q ++ [(p, np)] → laid (base + 8) P b → p ≤ w → seg (store32 m w v) Q p.
Proof.
  intros HQ Heq HP Hw. destruct (last_low _ _ _ _ _ Heq HP) as (_ & _ & _ & _ & [(-> & _)|(Q' & -> & _ & HlQ)]); [done|].
  apply seg_write; [done|]. intros a k [[= -> ->]|Ha]%elem_of_cons.
  - apply laid_le in HlQ. lia.
  - destruct (laid_in _ _ _ _ _ HlQ Ha) as (? & ? & ?). lia.
Qed.

Lemma free_left P Q p np b n1 S1 h hi :
  (base, 0) :: P = Q ++ [(p, np)] → laid (base + 8) P b → seg (hmem h) Q p → load32 (hmem h) (p + 4) = np →
  seg (hmem h) ((b, n1) :: S1) base → laid (b + 8 * n1) S1 hi → 1 ≤ n1 → hi < 2 ^ 31 → 0 < base →
  ∃ L' m2,
    (if hadd p np =? b then
       n ← hsize b;
       set_hsize p (uadd np n);;
       nx ← hptr b;
       set_hptr p nx
     else set_hptr p b) h = Ret tt (h <| hmem := m2 |>) ∧
    seg m2 ((base, 0) :: L') base ∧ laid (base + 8) L' hi ∧ p ∈ ((base, 0) :: L').*1 ∧ (∃ a k, (a, k) ∈ L' ∧ n1 ≤ k) ∧
    (∀ x, x < p ∨ p + 8 ≤ x → m2 x = hmem h x) ∧ (∀ x, cov L' x ↔ cov P x ∨ cov ((b, n1) :: S1) x).
Proof.
  intros HQ HP HsQ Hnp HsS HL Hn1 Hhi Hb0. pose proof (laid_le _ _ _ HL).
  destruct (last_low _ _ _ _ _ HQ HP) as (Hpb & Hbp & Hnp0 & Hpn & HQ').
  assert (HLb : laid b ((b, n1) :: S1) hi) by (split_and!; [lia|done|done]).
  unfold hadd. rewrite uadd_small by lia. destruct (Z.eqb_spec (p + 8 * np) b) as [Heq|Hne].
  - destruct HQ' as [(_ & _ & _ & ->)|(Q' & -> & -> & HlQ)]; [lia|]. destruct HsS as (Hn & Hnx & HsS).
    exists (Q' ++ (p, np + n1) :: S1), (store32 (store32 (hmem h) (p + 4) (uadd np n1)) p (hd_or base S1)). split_and!.
    + rewrite (bind_run _ _ _ _ _ (hsize_run b h ltac:(lia))), Hn. rewrite (bind_run _ _ _ _ _ (set_hsize_run p _ h ltac:(lia))).
      rewrite (bind_run _ _ _ _ _ (hptr_run _ _)). sst. rewrite load_store32_other, Hnx by lia. done.
    + rewrite app_comm_cons. apply seg_app. split.
      * do 2 (apply (seg_before _ _ _ _ _ _ _ _) with (2 := HQ) (3 := HP); [|lia]). done.
      * apply (seg_cons_write _ _ _ _ _ hi); [| | |lia|lia].
        -- rewrite load_store32_other by lia. rewrite load_store32, uadd_small by lia. apply u32_small. unfold is_u32. lia.
        -- do 2 (eapply seg_above; [|done|lia]). done.
        -- apply (laid_lo _ _ _ _ HL). lia.
    + apply laid_app. exists p. split; [done|]. split_and!; [lia|lia|]. apply (laid_lo _ _ _ _ HL). lia.
    + rewrite app_comm_cons, fmap_app. apply elem_of_app. right. by left.
    + exists p, (np + n1). split; [apply elem_of_app; right; by left|lia].
    + intros x Hx. rewrite !store32_other by lia. done.
    + intros x. rewrite !cov_app, !cov_cons. unfold blk. cbn. pose proof (cov_nil x). split.
      * intros [?|[?|?]]; [tauto| |tauto]. destruct (Z.ltb_spec x b); [left; right; left; lia|right; left; lia].
      * intros [[?|[?|?]]|[?|?]]; [tauto|right; left; lia|tauto|right; left; lia|tauto].
  - exists (P ++ (b, n1) :: S1), (store32 (hmem h) p b). split_and!; [done| | | | | |].
    + rewrite app_comm_cons, HQ, <- app_assoc. apply seg_app. split; [by apply (seg_before _ _ _ P b _ _ np)|].
      apply (seg_cons_write _ _ _ ((b, n1) :: S1) _ hi); [by rewrite load_store32_other by lia| | |lia|lia].
      * eapply seg_above; [done|done|lia].
      * apply (laid_lo _ _ _ _ HLb). lia.
    + apply laid_app. by exists b.
    + rewrite app_comm_cons, HQ, !fmap_app. apply elem_of_app. left. apply elem_of_app. right. by left.
    + exists b, n1. split; [apply elem_of_app; right; by left|lia].
    + intros x Hx. apply store32_other. lia.
    + intros x. by rewrite cov_app.
Qed.

(** The memory of the allocator: the header [base] and the free blocks. *)
Definition owned (L : list (Z * Z)) (x : Z) : Prop := base ≤ x < base + 8 ∨ cov L x.

Lemma owned_head lo L hi a n x : laid lo L hi → (a, n) ∈ L → a ≤ x < a + 8 → owned L x.
Proof.
  intros HL Ha Hx. right. exists (a, n). split; [done|]. destruct (laid_in _ _ _ _ _ HL Ha) as (? & ? & ?). unfold blk. cbn. lia.
Qed.

Lemma free_run h L b n :
  heap_ok h L → load32 (hmem h) (b + 4) = n → base + 8 ≤ b → 1 ≤ n → b + 8 * n ≤ brk h →
  (∀ x, blk (b, n) x → ¬ cov L x) → (length L < ufuel)%nat →
  ∃ L' m' p,
    let h' := h <| hmem := m' |> <| freep := p |> in
    free (b + 8) h = Ret tt h' ∧ heap_ok h' L' ∧ (∃ a k, (a, k) ∈ L' ∧ n ≤ k) ∧ (∀ x, cov L' x ↔ cov L x ∨ blk (b, n) x) ∧
    (∀ x, ¬ owned L x → ¬ blk (b, n) x → m' x = hmem h x).
Proof.
  intros HO Hn Hb Hn1 Hhi Hd Hf. pose proof (ho_base _ _ HO) as Hb0. pose proof (ho_brk _ _ HO) as Hbrk.
  destruct (laid_split _ _ _ _ _ (ho_laid _ _ HO) Hb Hn1 Hhi Hd) as (P & S & -> & HP & HS).
  destruct (exists_last (l := (base, 0) :: P)) as (Q & [p np] & HQ); [done|].
  destruct (last_low _ _ _ _ _ HQ HP) as (Hpb & Hbp & Hnp0 & Hpn & HQ').
  pose proof (free_finds _ _ _ _ _ _ _ _ HO HP HS Hn1 Hf HQ) as Hfind.
  pose proof (ho_seg _ _ HO) as Hseg. rewrite app_comm_cons, HQ in Hseg. apply seg_app in Hseg as [HsQ HsS].
  pose proof HsQ as [HsQ' (Hnp & Hp & _)]%seg_app. cbn [hd_or] in HsQ', Hp.
  destruct (free_right p b n S h _ Hp Hn HsS HS Hbrk) as (n1 & S1 & m1 & E1 & HsS1 & HlS1 & Hn1' & Hm1 & Hc1); [lia..|].
  destruct (free_left P Q p np b n1 S1 (h <| hmem := m1 |>) (brk h) HQ HP) as (L' & m2 & E2 & Hs2 & Hl2 & Hin & (a & k & Hak & Hnk) & Hm2 & Hc2); sst; try done; try lia.
  { apply (seg_ext (hmem h)); [|done]. intros a k x Ha Hx. apply Hm1.
    destruct HQ' as [(-> & _)|(Q' & -> & _ & HlQ)]; [by apply elem_of_nil in Ha|].
    apply elem_of_cons in Ha as [[= -> ->]|Ha]; [lia|]. destruct (laid_in _ _ _ _ _ HlQ Ha) as (? & ? & ?). lia. }
  { rewrite <- Hnp. apply load32_ext. intros x Hx. apply Hm1. lia. }
  exists L', m2, p. cbv zeta. split_and!.
  - unfold free. unfold usub. replace (b + 8 - 8) with b by lia. rewrite u32_small by (unfold is_u32; lia). cbv zeta.
    rewrite (bind_run (gets freep) _ h (freep h) h eq_refl). rewrite (bind_run _ _ _ _ _ Hfind).
    rewrite (bind_run _ _ _ _ _ (hptr_run p h)), Hp, (bind_run _ _ _ _ _ (hsize_run b h ltac:(lia))), Hn.
    rewrite (bind_run _ _ _ _ _ E1). rewrite (bind_run _ _ _ _ _ (hsize_run p _ ltac:(lia))). sst.
    replace (load32 m1 (p + 4)) with np; [|rewrite <- Hnp; apply load32_ext; intros x Hx; symmetry; apply Hm1; lia].
    rewrite (bind_run _ _ _ _ _ E2). done.
  - constructor; sst; try done.
  - exists a, k. split; [done|lia].
  - intros x. rewrite Hc2, Hc1, cov_app. tauto.
  - intros x Ho Hx. rewrite Hm2, Hm1; [done|unfold blk in Hx; cbn in Hx; lia|].
    destruct (Z.ltb_spec x p); [by left|]. destruct (Z.leb_spec (p + 8) x); [by right|]. exfalso. apply Ho.
    destruct HQ' as [(_ & _ & -> & _)|(Q' & _ & -> & _)]; [left; lia|].
    eapply owned_head; [apply (ho_laid _ _ HO)| |]; [|by split]. apply elem_of_app. left. apply elem_of_app. right. by left.
Qed.

(** ** Taking a block *)

Lemma ring_next h L prev q nq :
  heap_ok h L → (q, nq) ∈ (base, 0) :: L → 1 ≤ nq → prev ∈ ((base, 0) :: L).*1 → load32 (hmem h) prev = q →
  ∃ L1 Y X np, L = L1 ++ (q, nq) :: Y ∧ (base, 0) :: L1 = X ++ [(prev, np)] ∧ laid (base + 8) L1 q ∧ laid (q + 8 * nq) Y (brk h) ∧
    seg (hmem h) X prev ∧ load32 (hmem h) (prev + 4) = np ∧ seg (hmem h) ((q, nq) :: Y) base.
Proof.
  intros HO Hq Hnq Hp Hl. apply elem_of_cons in Hq as [[= -> ->]|Hq]; [lia|].
  destruct (laid_in _ _ _ _ _ (ho_laid _ _ HO) Hq) as (Hq1 & _ & _).
  assert (Hsz : load32 (hmem h) (q + 4) = nq).
  { pose proof (ho_seg _ _ HO) as (_ & _ & Hs). apply list_elem_of_split in Hq as (A & B & ->). by apply seg_app in Hs as [_ (? & _)]. }
  apply list_elem_of_fmap in Hp as ([p np] & -> & (X & Y & HM)%list_elem_of_split). cbn [fst] in *.
  pose proof (ho_seg _ _ HO) as Hs. rewrite HM in Hs. apply seg_app in Hs as [HX (Hnp & Hnx & HY)].
  destruct Y as [|[c j] Y]; cbn [hd_or] in Hnx; [lia|]. assert (c = q) as -> by lia. pose proof HY as (Hj & _ & _).
  assert (j = nq) as -> by lia. destruct X as [|x0 L1]; cbn [app] in HM.
  - injection HM as <- <- ->. exists [], Y, [], 0. destruct (ho_laid _ _ HO) as (? & ? & ?). by split_and!.
  - injection HM as <- ->. exists (L1 ++ [(p, np)]), Y, ((base, 0) :: L1), np. rewrite <- app_assoc. split_and!; try done.
    + pose proof (ho_laid _ _ HO) as (mid & HL1 & Hmid & Hnp1 & ? & _)%laid_app. apply laid_app. exists mid. by split_and!.
    + by pose proof (ho_laid _ _ HO) as (mid & _ & _ & _ & _ & _ & ?)%laid_app.
Qed.

(** [nu] units at [b] have been taken off the free blocks. *)
Record took (h : heap) (L : list (Z * Z)) (b nu : Z) (h' : heap) (L' : list (Z * Z)) : Prop := {
  tk_ok : heap_ok h' L';
  tk_brk : brk h' = brk h;
  tk_size : load32 (hmem h') (b + 4) = nu;
  tk_range : base + 8 ≤ b ∧ b + 8 * nu ≤ brk h;
  tk_cov x : cov L x ↔ cov L' x ∨ blk (b, nu) x;
  tk_apart x : blk (b, nu) x → ¬ cov L' x;
  tk_frame x : ¬ owned L x → hmem h' x = hmem h x
}.

(** The whole block is unlinked. *)
Lemma take_exact h L prev q nq N :
  heap_ok h L → (q, nq) ∈ (base, 0) :: L → 1 ≤ nq → prev ∈ ((base, 0) :: L).*1 → load32 (hmem h) prev = q →
  ∃ h' L', malloc_loop N nq prev q h = Ret (q + 8) h' ∧ took h L q nq h' L'.
Proof.
  intros HO Hq Hnq Hp Hl.
  destruct (ring_next _ _ _ _ _ HO Hq Hnq Hp Hl) as (L1 & Y & X & np & HL & HX & HlL & HlY & HsX & Hnp & Hsz & Hnx & HsY).
  pose proof (laid_le _ _ _ HlY). pose proof (laid_le _ _ _ HlL). pose proof (ho_base _ _ HO). pose proof (ho_brk _ _ HO).
  destruct (last_low _ _ _ _ _ HX HlL) as (Hpq & Hbp & Hnp0 & Hpn & HX').
  exists (h <| hmem := store32 (hmem h) prev (hd_or base Y) |> <| freep := prev |>), (L1 ++ Y). split; [|constructor; sst].
  - destruct N; cbn [malloc_loop]; rewrite (bind_run _ _ _ _ _ (hsize_run q h ltac:(lia))), Hsz; rewrite Z.leb_refl, Z.eqb_refl;
      rewrite (bind_run _ _ h q (h <| hmem := store32 (hmem h) prev (hd_or base Y) |>));
      try (rewrite (bind_run _ _ _ _ _ (hptr_run q h)), Hnx; reflexivity); run; unfold hadd; rewrite uadd_small by lia; reflexivity.
  - constructor; sst; try done.
    + rewrite app_comm_cons, HX, <- app_assoc. apply seg_app. split; [by apply (seg_before _ _ _ L1 q _ _ np)|].
      apply (seg_cons_write _ _ _ _ _ (brk h)); [by rewrite load_store32_other by lia| | |lia|lia].
      * eapply seg_above; [done|done|lia].
      * apply (laid_lo _ _ _ _ HlY). lia.
    + apply laid_app. exists q. split; [done|]. apply (laid_lo _ _ _ _ HlY). lia.
    + rewrite app_comm_cons, HX, !fmap_app. apply elem_of_app. left. apply elem_of_app. right. by left.
  - done.
  - by rewrite load_store32_other by lia.
  - lia.
  - intros x. rewrite HL, !cov_app, cov_cons. tauto.
  - intros x Hx [Hc%(laid_cov _ _ _ _ HlL)|Hc%(laid_cov _ _ _ _ HlY)]%cov_app; unfold blk in Hx; cbn in Hx; lia.
  - intros x Ho. apply store32_other. destruct (Z.ltb_spec x prev); [by left|]. destruct (Z.leb_spec (prev + 4) x); [by right|].
    exfalso. apply Ho. destruct HX' as [(_ & _ & -> & _)|(Q' & _ & -> & _)]; [left; lia|].
    eapply (owned_head _ _ _ prev np); [apply (ho_laid _ _ HO)| |lia]. rewrite HL. apply elem_of_app. left. apply elem_of_app. right. by left.
Qed.

(** The end of the block is cut off. *)
Lemma take_split h L prev q nq nu N :
  heap_ok h L → (q, nq) ∈ (base, 0) :: L → 1 ≤ nu < nq → prev ∈ ((base, 0) :: L).*1 → load32 (hmem h) prev = q →
  ∃ h' L', malloc_loop N nu prev q h = Ret (q + 8 * (nq - nu) + 8) h' ∧ took h L (q + 8 * (nq - nu)) nu h' L'.
Proof.
  intros HO Hq Hnu Hp Hl.
  destruct (ring_next _ _ _ _ _ HO Hq ltac:(lia) Hp Hl) as (L1 & Y & X & np & HL & HX & HlL & HlY & HsX & Hnp & Hsz & Hnx & HsY).
  pose proof (laid_le _ _ _ HlY). pose proof (laid_le _ _ _ HlL). pose proof (ho_base _ _ HO). pose proof (ho_brk _ _ HO).
  set (k := nq - nu). assert (Hk : 1 ≤ k < nq) by lia. assert (Hu : u32 k = k) by (apply u32_small; unfold is_u32; lia).
  set (m' := store32 (store32 (hmem h) (q + 4) k) (q + 8 * k + 4) nu).
  assert (HlY' : laid (q + 8 * k) Y (brk h)) by (apply (laid_lo _ _ _ _ HlY); lia).
  exists (h <| hmem := m' |> <| freep := prev |>), (L1 ++ (q, k) :: Y). split; [|constructor; sst].
  - assert (E : (set_hsize q (usub nq nu);; k' ← hsize q; set_hsize (hadd q k') nu;; mret (hadd q k')) h = Ret (q + 8 * k) (h <| hmem := m' |>)).
    { unfold usub. fold k. rewrite Hu. rewrite (bind_run _ _ _ _ _ (set_hsize_run q _ h ltac:(lia))).
      rewrite (bind_run _ _ _ _ _ (hsize_run q _ ltac:(lia))). sst. rewrite load_store32, Hu. unfold hadd. rewrite uadd_small by lia.
      rewrite (bind_run _ _ _ _ _ (set_hsize_run (q + 8 * k) _ _ ltac:(lia))). done. }
    destruct N; cbn [malloc_loop]; rewrite (bind_run _ _ _ _ _ (hsize_run q h ltac:(lia))), Hsz;
      rewrite (proj2 (Z.leb_le _ _)), (proj2 (Z.eqb_neq _ _)) by lia; rewrite (bind_run _ _ _ _ _ E); run;
      unfold hadd; rewrite uadd_small by lia; done.
  - constructor; sst; try done.
    + rewrite app_comm_cons. apply seg_app. split.
      * apply seg_write; [apply seg_write|].
        { pose proof (ho_seg _ _ HO) as Hs. rewrite HL, app_comm_cons in Hs. by apply seg_app in Hs as [? _]. }
        all: intros a j [[= -> ->]|Ha]%elem_of_cons; [lia|]; destruct (laid_in _ _ _ _ _ HlL Ha) as (? & ? & ?); lia.
      * split_and!.
        -- unfold m'. rewrite load_store32_other, load_store32 by lia. done.
        -- unfold m'. rewrite !load_store32_other by lia. done.
        -- do 2 (eapply seg_above; [|exact HlY|lia]). done.
    + apply laid_app. exists q. split; [done|]. by split_and!; [lia|lia|].
    + rewrite HL, app_comm_cons, fmap_app, fmap_cons in Hp. rewrite app_comm_cons, fmap_app, fmap_cons. exact Hp.
  - done.
  - unfold m'. rewrite load_store32. apply u32_small. unfold is_u32. lia.
  - lia.
  - intros x. rewrite HL, !cov_app, !cov_cons. unfold blk. cbn [fst snd]. split.
    + intros [?|[?|?]]; [tauto| |tauto]. destruct (Z.ltb_spec x (q + 8 * k)); [left; right; left; lia|right; lia].
    + intros [[?|[?|?]]|?]; [tauto|right; left; lia|tauto|right; left; lia].
  - intros x Hx [Hc%(laid_cov _ _ _ _ HlL)|[Hc|Hc%(laid_cov _ _ _ _ HlY)]%cov_cons]%cov_app; unfold blk in *; cbn [fst snd] in *; lia.
  - intros x Ho. assert (Hq' : ¬ blk (q, nq) x).
    { intros Hx. apply Ho. right. exists (q, nq). split; [|done]. rewrite HL. apply elem_of_app. right. by left. }
    unfold blk in Hq'. cbn in Hq'. unfold m'. rewrite !store32_other by lia. done.
Qed.

Lemma take_run h L prev q nq nu N :
  heap_ok h L → (q, nq) ∈ (base, 0) :: L → 1 ≤ nu ≤ nq → prev ∈ ((base, 0) :: L).*1 → load32 (hmem h) prev = q →
  ∃ b h' L', malloc_loop N nu prev q h = Ret (b + 8) h' ∧ took h L b nu h' L'.
Proof.
  intros HO Hq Hnu Hp Hl. destruct (Z.eq_dec nu nq) as [->|Hne].
  - exists q. apply take_exact; [done|done|lia|done|done].
  - exists (q + 8 * (nq - nu)). apply take_split; [done|done|lia|done|done].
Qed.

(** ** The scan of malloc *)

Lemma loop_step N nu prev q nq h :
  0 ≤ q < 2 ^ 31 → load32 (hmem h) (q + 4) = nq → nq < nu → q ≠ freep h →
  malloc_loop (S N) nu prev q h = malloc_loop N nu q (load32 (hmem h) q) h.
Proof.
  intros Hq Hn Hnu Hf. cbn [malloc_loop]. rewrite (bind_run _ _ _ _ _ (hsize_run q h Hq)), Hn.
  rewrite (proj2 (Z.leb_gt _ _)) by lia. run. rewrite (proj2 (Z.eqb_neq _ _)) by done. run. cbn [andb].
  by rewrite (bind_run _ _ _ _ _ (hptr_run q h)).
Qed.

Lemma scan_run nu h R e : ∀ N prev,
  seg (hmem h) R e → load32 (hmem h) prev = hd_or e R → (∀ a n, (a, n) ∈ R → 0 ≤ a < 2 ^ 31 ∧ a ≠ freep h) → (length R <= N)%nat →
  (∃ q nq prev' N', (q, nq) ∈ R ∧ nu ≤ nq ∧ (prev' = prev ∨ prev' ∈ R.*1) ∧ load32 (hmem h) prev' = q ∧
     malloc_loop N nu prev (hd_or e R) h = malloc_loop N' nu prev' q h)
  ∨ ((∀ a n, (a, n) ∈ R → n < nu) ∧ ∃ prev', (prev' = prev ∨ prev' ∈ R.*1) ∧ load32 (hmem h) prev' = e ∧
     malloc_loop N nu prev (hd_or e R) h = malloc_loop (N - length R) nu prev' e h).
Proof.
  induction R as [|[a n] R IH]; intros N prev HR Hp Ha HN.
  - right. split; [by intros ? ? ?%elem_of_nil|]. exists prev. split_and!; [by left|done|]. by rewrite Nat.sub_0_r.
  - destruct HR as (Hn & Hnx & HR). cbn [hd_or length] in *. destruct (Ha a n ltac:(by left)) as [Ha1 Ha2].
    destruct (Z.leb_spec nu n) as [Hle|Hlt].
    { left. exists a, n, prev, N. split_and!; [by left|done|by left|done|done]. }
    destruct N as [|N]; [lia|]. rewrite (loop_step _ _ _ _ n) by done. rewrite Hnx.
    destruct (IH N a HR Hnx) as [(q & nq & prev' & N' & H1 & H2 & H3 & H4 & H5)|(H1 & prev' & H3 & H4 & H5)].
    + intros b k Hb. apply (Ha b k). by right.
    + lia.
    + left. exists q, nq, prev', N'. split_and!; [by right|done| |done|done]. right. destruct H3 as [->|?]; [by left|by right].
    + right. split.
      * intros b k [[= -> ->]|Hb]%elem_of_cons; [done|by apply (H1 b)].
      * exists prev'. split_and!; [|done|done]. right. destruct H3 as [->|?]; [by left|by right].
Qed.

Lemma node_bounds h L a n : heap_ok h L → (a, n) ∈ (base, 0) :: L → base ≤ a ∧ 0 ≤ n ∧ a + 8 ≤ brk h ∧ load32 (hmem h) (a + 4) = n.
Proof.
  intros HO Ha. pose proof (laid_le _ _ _ (ho_laid _ _ HO)).
  assert (load32 (hmem h) (a + 4) = n).
  { pose proof (ho_seg _ _ HO) as Hs. apply list_elem_of_split in Ha as (A & B & HM). rewrite HM in Hs. by apply seg_app in Hs as [_ (? & _)]. }
  apply elem_of_cons in Ha as [[= -> ->]|Ha]; [lia|]. destruct (laid_in _ _ _ _ _ (ho_laid _ _ HO) Ha) as (? & ? & ?). lia.
Qed.

Lemma laid_NoDup lo L hi : laid lo L hi → NoDup L.*1.
Proof.
  revert lo. induction L as [|[a n] L IH]; intros lo; [constructor|]. intros (H1 & H2 & H3). rewrite fmap_cons. constructor; [|by eapply IH].
  intros ([b k] & Hab & Hb)%list_elem_of_fmap. destruct (laid_in _ _ _ _ _ H3 Hb). cbn in *. lia.
Qed.

Lemma laid_length lo L hi : laid lo L hi → 8 * Z.of_nat (length L) ≤ hi - lo.
Proof. revert lo. induction L as [|[a n] L IH]; intros lo; cbn [laid length]; [lia|]. intros (H1 & H2 & H3%IH). lia. Qed.

Lemma heap_length h L : heap_ok h L → Z.of_nat (length L) < 2 ^ 28.
Proof. intros HO. pose proof (laid_length _ _ _ (ho_laid _ _ HO)). pose proof (ho_base _ _ HO). pose proof (ho_brk _ _ HO). lia. Qed.

(** One turn round the ring: a block that is large enough, or none is and
    the scan is back where it started. *)
Lemma ring_scan h L nu N :
  heap_ok h L → (length L <= N)%nat →
  (∃ q nq prev' N', (q, nq) ∈ (base, 0) :: L ∧ nu ≤ nq ∧ prev' ∈ ((base, 0) :: L).*1 ∧ load32 (hmem h) prev' = q ∧
     malloc_loop N nu (freep h) (load32 (hmem h) (freep h)) h = malloc_loop N' nu prev' q h)
  ∨ ((∀ a n, (a, n) ∈ (base, 0) :: L → n < nu) ∧ ∃ prev',
     malloc_loop N nu (freep h) (load32 (hmem h) (freep h)) h = malloc_loop (N - length L) nu prev' (freep h) h).
Proof.
  intros HO HN. pose proof (ho_freep _ _ HO) as Hf. apply list_elem_of_fmap in Hf as ([f k] & Hf & (X & Y & HM)%list_elem_of_split). cbn [fst] in Hf.
  pose proof (ho_seg _ _ HO) as Hs. rewrite HM in Hs. apply seg_app in Hs as [HX (Hk & Hnx & HY)]. cbn [hd_or] in HX.
  assert (HYX : seg (hmem h) (Y ++ X) f).
  { apply seg_app. split; [|done]. by destruct X as [|x0 X]; cbn [app] in HM; injection HM as <- HM. }
  assert (Hn0 : load32 (hmem h) (freep h) = hd_or f (Y ++ X)).
  { rewrite Hf, Hnx, hd_or_app. by destruct X as [|x0 X]; cbn [app] in HM; injection HM as <- HM. }
  assert (Hsub : ∀ c, c ∈ Y ++ X → c ∈ (base, 0) :: L).
  { intros c. rewrite HM, !elem_of_app, elem_of_cons. tauto. }
  assert (Hlen : length (Y ++ X) = length L).
  { apply (f_equal length) in HM. rewrite !length_app in *. cbn [length] in HM. lia. }
  assert (Hnd : NoDup ((base, 0) :: L).*1).
  { rewrite fmap_cons. constructor; [|by eapply laid_NoDup, ho_laid]. intros ([b j] & Hb & Hin)%list_elem_of_fmap.
    destruct (laid_in _ _ _ _ _ (ho_laid _ _ HO) Hin). cbn in *. lia. }
  destruct (scan_run nu h (Y ++ X) f N (freep h) HYX Hn0) as [(q & nq & prev' & N' & H1 & H2 & H3 & H4 & H5)|(H1 & prev' & H3 & H4 & H5)].
  - intros a n Ha. destruct (node_bounds _ _ _ _ HO (Hsub _ Ha)) as (? & ? & ? & ?). pose proof (ho_base _ _ HO). pose proof (ho_brk _ _ HO).
    split; [lia|]. intros ->. rewrite HM, fmap_app, fmap_cons in Hnd. apply NoDup_app in Hnd as (_ & Hd & [Hd' _]%NoDup_cons). cbn [fst] in Hd, Hd'.
    apply elem_of_app in Ha as [Ha|Ha]; rewrite Hf in Ha; apply (list_elem_of_fmap_2 fst) in Ha; [done|]. apply (Hd _ Ha). by left.
  - lia.
  - left. exists q, nq, prev', N'. rewrite Hn0. split_and!; [by apply Hsub|done| |done|done].
    destruct H3 as [->|H3]; [apply (ho_freep _ _ HO)|]. apply list_elem_of_fmap in H3 as (c & -> & Hc). by apply list_elem_of_fmap_2, Hsub.
  - assert (Hp' : prev' ∈ ((base, 0) :: L).*1).
    { destruct H3 as [->|H3]; [apply (ho_freep _ _ HO)|]. apply list_elem_of_fmap in H3 as (c & -> & Hc). by apply list_elem_of_fmap_2, Hsub. }
    destruct (Z.leb_spec nu k) as [Hle|Hlt].
    + left. exists f, k, prev', (N - length L)%nat. rewrite Hn0, H5, Hlen. split_and!; [|done|done|done|done].
      rewrite HM. apply elem_of_app. right. by left.
    + right. split; [|exists prev'; by rewrite Hn0, H5, Hlen, Hf]. intros a n Ha. rewrite HM in Ha.
      apply elem_of_app in Ha as [Ha|[[= -> ->]|Ha]%elem_of_cons]; [|done|]; apply (H1 a n); apply elem_of_app; auto.
Qed.

(** ** Asking for more memory *)

(** The memory has grown and the new part is free. *)
Record grew (h : heap) (L : list (Z * Z)) (h' : heap) (L' : list (Z * Z)) : Prop := {
  gr_ok : heap_ok h' L';
  gr_brk : brk h ≤ brk h';
  gr_cov x : cov L' x ↔ cov L x ∨ brk h ≤ x < brk h';
  gr_frame x : x < brk h → ¬ owned L x → hmem h' x = hmem h x
}.

Lemma grew_refl h L : heap_ok h L → grew h L h L.
Proof. intros HO. constructor; [done|done| |done]. intros x. split; [by left|]. intros [?|?]; [done|lia]. Qed.

Lemma owned_low h L x : heap_ok h L → owned L x → x < brk h.
Proof.
  intros HO [Hx|Hx%(laid_cov _ _ _ _ (ho_laid _ _ HO))]; [|lia]. pose proof (laid_le _ _ _ (ho_laid _ _ HO)). lia.
Qed.

(** The size of the request. *)
Definition core (nu : Z) : Z := if nu <? 4096 then 4096 else nu.

Lemma core_range nu : 1 ≤ nu < 2 ^ 28 → nu ≤ core nu < 2 ^ 28 ∧ i32 (u32 (core nu * 8)) = 8 * core nu.
Proof.
  intros Hn. assert (Hc : nu ≤ core nu < 2 ^ 28) by (unfold core; destruct (Z.ltb_spec nu 4096); lia).
  split; [done|]. rewrite u32_small by (unfold is_u32; lia). rewrite i32_small by (unfold is_i32; lia). lia.
Qed.

Lemma morecore_refused h nu : 1 ≤ nu < 2 ^ 28 → sbrk_ok (brk h) (8 * core nu) = false → morecore nu h = Ret 0 h.
Proof.
  intros Hn Hs. unfold morecore. fold (core nu). destruct (core_range nu Hn) as [_ ->]. cbv zeta.
  assert (E : sbrk (8 * core nu) h = Ret (2 ^ 32 - 1) h) by (unfold sbrk; run; by rewrite Hs). by rewrite (bind_run _ _ _ _ _ E).
Qed.

Lemma heap_ok_extend h L b n :
  heap_ok h L → brk h ≤ b < 2 ^ 31 → heap_ok (h <| brk := b |> <| hmem ::= λ m, store32 m (brk h + 4) n |>) L.
Proof.
  intros HO Hb. constructor; sst; try apply HO.
  - apply seg_write; [apply HO|]. intros a k Ha. destruct (node_bounds _ _ _ _ HO Ha) as (? & ? & ? & ?). lia.
  - apply (laid_hi _ _ (brk h)); [apply HO|lia].
  - lia.
Qed.

Context `{!ProcessOk}.

Lemma morecore_grows h L nu :
  heap_ok h L → 1 ≤ nu < 2 ^ 28 → sbrk_ok (brk h) (8 * core nu) = true →
  ∃ h' L', morecore nu h = Ret (freep h') h' ∧ grew h L h' L' ∧ ∃ a k, (a, k) ∈ L' ∧ nu ≤ k.
Proof.
  intros HO Hn Hs. destruct (core_range nu Hn) as [Hc Hi]. pose proof (sbrk_below _ _ Hs) as Hlt.
  pose proof (laid_le _ _ _ (ho_laid _ _ HO)). pose proof (ho_base _ _ HO). pose proof (ho_brk _ _ HO).
  set (h1 := h <| brk := brk h + 8 * core nu |> <| hmem ::= λ m, store32 m (brk h + 4) (core nu) |>).
  assert (HO1 : heap_ok h1 L) by (apply heap_ok_extend; [done|lia]).
  destruct (free_run h1 L (brk h) (core nu) HO1) as (L' & m' & p & E & HO' & (a & k & Hak & Hk) & Hcov & Hfr).
  - unfold h1. sst. rewrite load_store32. apply u32_small. unfold is_u32. lia.
  - lia.
  - lia.
  - unfold h1. sst. lia.
  - intros x Hx Hx'. apply (laid_cov _ _ _ _ (ho_laid _ _ HO)) in Hx'. unfold blk in Hx. cbn [fst snd] in Hx. lia.
  - pose proof (heap_length _ _ HO). pose proof ufuel_ok. lia.
  - exists (h1 <| hmem := m' |> <| freep := p |>), L'. split_and!.
    + unfold morecore. fold (core nu). rewrite Hi. cbv zeta.
      assert (Es : sbrk (8 * core nu) h = Ret (brk h) (h <| brk := brk h + 8 * core nu |>)).
      { unfold sbrk. run. rewrite Hs. rewrite uadd_small by lia. done. }
      rewrite (bind_run _ _ _ _ _ Es). rewrite (proj2 (Z.eqb_neq _ _)) by lia.
      rewrite (bind_run _ _ _ _ _ (set_hsize_run (brk h) _ _ ltac:(lia))). fold h1.
      unfold hadd. rewrite uadd_small by lia. rewrite (bind_run _ _ _ _ _ E). done.
    + constructor; [done|unfold h1; sst; lia| |].
      * intros x. rewrite Hcov. unfold blk, h1. sst. cbn [fst snd]. done.
      * intros x Hx Ho. sst. rewrite Hfr; [|done|unfold blk; cbn [fst snd]; lia]. unfold h1. sst. apply store32_other. lia.
    + exists a, k. split; [done|lia].
Qed.

Lemma fits_run h L nu N a k :
  heap_ok h L → 1 ≤ nu → (a, k) ∈ (base, 0) :: L → nu ≤ k → (length L <= N)%nat →
  ∃ b h' L', malloc_loop N nu (freep h) (load32 (hmem h) (freep h)) h = Ret (b + 8) h' ∧ took h L b nu h' L'.
Proof.
  intros HO Hnu Ha Hk HN. destruct (ring_scan h L nu N HO HN) as [(q & nq & prev & N' & H1 & H2 & H3 & H4 & ->)|[H1 _]].
  - by apply (take_run _ _ _ _ nq).
  - specialize (H1 _ _ Ha). lia.
Qed.

(** The loop of malloc ends: with a block cut off the free ones, perhaps
    after growing the memory, or with 0 when the kernel refuses. *)
Lemma loop_total h L nu :
  heap_ok h L → 1 ≤ nu < 2 ^ 28 →
  ∃ r h', malloc_loop ufuel nu (freep h) (load32 (hmem h) (freep h)) h = Ret r h' ∧
    (r = 0 ∧ h' = h ∧ sbrk_ok (brk h) (8 * core nu) = false ∨
     ∃ b h1 L1 L', r = b + 8 ∧ grew h L h1 L1 ∧ took h1 L1 b nu h' L').
Proof.
  intros HO Hnu. pose proof (heap_length _ _ HO) as Hlen. pose proof ufuel_ok as Hu.
  destruct (ring_scan h L nu ufuel HO ltac:(lia)) as [(q & nq & prev & N' & H1 & H2 & H3 & H4 & ->)|[Hsm [prev ->]]].
  { destruct (take_run h L prev q nq nu N' HO H1 ltac:(lia) H3 H4) as (b & h' & L' & -> & Ht). eexists _, _. split; [done|].
    right. exists b, h, L, L'. split_and!; [done|by apply grew_refl|done]. }
  destruct (proj1 (list_elem_of_fmap _ _ _) (ho_freep _ _ HO)) as ([f k] & Hf & Hin). cbn [fst] in Hf.
  destruct (node_bounds _ _ _ _ HO Hin) as (Hf1 & _ & Hf2 & Hsz). pose proof (Hsm _ _ Hin). pose proof (ho_base _ _ HO). pose proof (ho_brk _ _ HO).
  destruct (ufuel - length L)%nat as [|N] eqn:HN; [lia|]. cbn [malloc_loop]. rewrite Hf.
  rewrite (bind_run _ _ _ _ _ (hsize_run f h ltac:(lia))), Hsz, (proj2 (Z.leb_gt _ _)) by lia. run. rewrite Hf, Z.eqb_refl.
  destruct (sbrk_ok (brk h) (8 * core nu)) eqn:Hs.
  - destruct (morecore_grows h L nu HO Hnu Hs) as (h1 & L1 & E & Hg & a & j & Ha & Hj). rewrite (bind_run _ _ _ _ _ E).
    pose proof (gr_ok _ _ _ _ Hg) as HO1. pose proof (heap_length _ _ HO1) as Hlen1.
    destruct (proj1 (list_elem_of_fmap _ _ _) (ho_freep _ _ HO1)) as ([f1 k1] & Hf' & Hin1). cbn [fst] in Hf'.
    destruct (node_bounds _ _ _ _ HO1 Hin1) as (? & _). rewrite (proj2 (Z.eqb_neq _ _)) by lia. cbn [andb].
    rewrite (bind_run _ _ _ _ _ (hptr_run _ _)).
    destruct (fits_run h1 L1 nu N a j HO1 ltac:(lia) ltac:(by right) Hj ltac:(lia)) as (b & h' & L' & -> & Ht).
    eexists _, _. split; [done|]. right. by exists b, h1, L1, L'.
  - rewrite (bind_run _ _ _ _ _ (morecore_refused h nu Hnu Hs)). cbn. eexists _, _. split; [done|]. by left.
Qed.

(** ** The arena *)

Fixpoint apart (Bs : list (Z * Z)) : Prop :=
  match Bs with [] => True | b :: Bs' => (∀ x, blk b x → ¬ cov Bs' x) ∧ apart Bs' end.

(** An allocated block: its header still holds its size. *)
Definition given (h : heap) (b : Z * Z) : Prop :=
  base + 8 ≤ b.1 ∧ 1 ≤ b.2 ∧ b.1 + 8 * b.2 ≤ brk h ∧ load32 (hmem h) (b.1 + 4) = b.2.

(** The free bytes are those of [F], the allocated blocks those of [Bs]. *)
Definition arena (h : heap) (F : Z → Prop) (Bs : list (Z * Z)) : Prop :=
  (freep h = 0 ∧ Bs = [] ∧ (∀ x, ¬ F x) ∧ 0 < base ∧ base + 8 ≤ brk h < 2 ^ 31) ∨
  ∃ L, heap_ok h L ∧ (∀ x, F x ↔ cov L x) ∧ Forall (given h) Bs ∧ apart Bs ∧ (∀ x, cov Bs x → ¬ F x).

Lemma given_mono h h' b :
  brk h ≤ brk h' → (∀ x, blk b x → hmem h' x = hmem h x) → given h b → given h' b.
Proof.
  intros Hb Hm (H1 & H2 & H3 & H4). split_and!; [done|done|lia|]. rewrite <- H4. apply load32_ext. intros x Hx. apply Hm. unfold blk. lia.
Qed.

Lemma givens_mono h h' Bs :
  brk h ≤ brk h' → (∀ x, cov Bs x → hmem h' x = hmem h x) → Forall (given h) Bs → Forall (given h') Bs.
Proof.
  rewrite !Forall_forall. intros Hb Hm Hg b Hin. apply (given_mono h); [done| |by apply Hg]. intros x Hx. apply Hm. by exists b.
Qed.

Lemma givens_cov h Bs x : Forall (given h) Bs → cov Bs x → base + 8 ≤ x < brk h.
Proof. intros Hg ([b n] & Hin & Hx). rewrite Forall_forall in Hg. destruct (Hg _ Hin) as (? & ? & ? & _). unfold blk in Hx. cbn [fst snd] in *. lia. Qed.

Lemma apart_drop A b C : apart (A ++ b :: C) → apart (A ++ C) ∧ ∀ x, blk b x → ¬ cov (A ++ C) x.
Proof.
  induction A as [|a A IH]; [intros [? ?]; done|]. intros [H1 [H2 H3]%IH]. split; [split|].
  - intros x Hx Hc. apply (H1 x Hx). rewrite cov_app, cov_cons in *. tauto.
  - done.
  - intros x Hx [Ha|Hc]%cov_cons; [|by apply (H3 x)]. apply (H1 x Ha). rewrite cov_app, cov_cons. tauto.
Qed.

Lemma malloc_units nbytes : 0 ≤ nbytes < 2 ^ 31 - 32 →
  let nu := uadd (uadd nbytes 7 / 8) 1 in 1 ≤ nu < 2 ^ 28 ∧ nbytes ≤ 8 * (nu - 1) ≤ nbytes + 7.
Proof.
  intros Hn nu. unfold nu. rewrite (uadd_small nbytes 7) by lia.
  assert (0 ≤ (nbytes + 7) / 8 < 2 ^ 28 - 2) by (split; [apply Z.div_pos|apply Z.div_lt_upper_bound]; lia).
  pose proof (Z.div_mod (nbytes + 7) 8 ltac:(lia)). pose proof (Z.mod_pos_bound (nbytes + 7) 8 ltac:(lia)). rewrite uadd_small by lia. lia.
Qed.

(** The first call sets up an empty ring. *)
Lemma malloc_starts h F Bs nbytes :
  arena h F Bs →
  ∃ h0 L, malloc nbytes h = malloc_loop ufuel (uadd (uadd nbytes 7 / 8) 1) (freep h0) (load32 (hmem h0) (freep h0)) h0 ∧
    heap_ok h0 L ∧ (∀ x, F x ↔ cov L x) ∧ Forall (given h0) Bs ∧ apart Bs ∧ (∀ x, cov Bs x → ¬ F x) ∧ brk h0 = brk h ∧
    (∀ x, ¬ (base ≤ x < base + 8) → hmem h0 x = hmem h x).
Proof.
  intros [(Hf & -> & HF & Hb & Hk)|(L & HO & HF & Hg & Ha & Hd)]; unfold malloc; cbv zeta; run.
  - rewrite Hf, Z.eqb_refl. set (h0 := h <| hmem ::= λ m, store32 (store32 m base base) (base + 4) 0 |> <| freep := base |>).
    assert (E : (set_hptr base base;; modify (λ h, h <| freep := base |>);; set_hsize base 0;; mret base) h = Ret base h0).
    { assert (Hb' : 0 ≤ base < 2 ^ 31) by lia. run. run. by rewrite (bind_run _ _ _ _ _ (set_hsize_run base 0 _ Hb')). }
    rewrite (bind_run _ _ _ _ _ E), (bind_run _ _ _ _ _ (hptr_run base h0)). exists h0, []. split_and!; try done.
    + constructor; try done; [|by unfold h0, laid; sst; lia..|by left].
      assert (u32 base = base) by (apply u32_small; unfold is_u32; lia). split_and!; [| |done]; unfold h0; sst; cbn [hd_or]; [by rewrite load_store32|].
      by rewrite load_store32_other, load_store32 by lia.
    + intros x. split; [by intros ?%HF|by intros ?%cov_nil].
    + intros x Hx. unfold h0. sst. rewrite !store32_other by lia. done.
  - destruct (proj1 (list_elem_of_fmap _ _ _) (ho_freep _ _ HO)) as ([f k] & Hf & Hin). cbn [fst] in Hf.
    destruct (node_bounds _ _ _ _ HO Hin) as (? & _). pose proof (ho_base _ _ HO). rewrite (proj2 (Z.eqb_neq _ _)) by lia. run.
    rewrite (bind_run _ _ _ _ _ (hptr_run _ h)). by exists h, L.
Qed.

(** The free bytes [F] after a block has been cut off. *)
Lemma arena_took h L F Bs h1 L1 b nu h' L' :
  heap_ok h L → (∀ x, F x ↔ cov L x) → Forall (given h) Bs → apart Bs → (∀ x, cov Bs x → ¬ F x) → 1 ≤ nu →
  grew h L h1 L1 → took h1 L1 b nu h' L' →
  brk h ≤ brk h' ∧ arena h' (cov L') ((b, nu) :: Bs) ∧ 0 < b ∧
  (∀ x, cov L' x ∨ blk (b, nu) x ↔ F x ∨ brk h ≤ x < brk h') ∧
  (∀ x, x < brk h → ¬ (base ≤ x < base + 8) → ¬ F x → hmem h' x = hmem h x).
Proof.
  intros HO HF Hg Hap Hd Hnu Hgr Ht. pose proof (tk_brk _ _ _ _ _ _ Ht) as Hk. pose proof (gr_brk _ _ _ _ Hgr) as Hk1.
  pose proof (tk_range _ _ _ _ _ _ Ht) as Hr. pose proof (ho_base _ _ HO).
  assert (Hc1 : ∀ x, cov L1 x ↔ F x ∨ brk h ≤ x < brk h1) by (intros x; rewrite (gr_cov _ _ _ _ Hgr), HF; done).
  assert (Hm : ∀ x, x < brk h → ¬ (base ≤ x < base + 8) → ¬ F x → hmem h' x = hmem h x).
  { intros x Hx Hb HFx. rewrite (tk_frame _ _ _ _ _ _ Ht), (gr_frame _ _ _ _ Hgr); [done|done| |].
    - intros [?|?%HF]; tauto.
    - intros [?|[?|?]%Hc1]; [tauto|tauto|lia]. }
  assert (HBs : ∀ x, cov Bs x → ¬ cov L1 x).
  { intros x Hx [?|?]%Hc1; [by apply (Hd x)|]. apply (givens_cov _ _ _ Hg) in Hx. lia. }
  split_and!; [lia| |lia| |done].
  - right. exists L'. split_and!; [apply Ht|done| | |].
    + constructor; [split_and!; cbn [fst snd]; [lia|done|lia|apply Ht]|]. apply (givens_mono h); [lia| |done].
      intros x Hx. pose proof (givens_cov _ _ _ Hg Hx). apply Hm; [lia|lia|by apply Hd].
    + split; [|done]. intros x Hx Hc. apply (HBs x Hc). rewrite (tk_cov _ _ _ _ _ _ Ht). by right.
    + intros x [Hx|Hx]%cov_cons; [by apply (tk_apart _ _ _ _ _ _ Ht)|]. intros Hc. apply (HBs x Hx). rewrite (tk_cov _ _ _ _ _ _ Ht). by left.
  - intros x. rewrite <- (tk_cov _ _ _ _ _ _ Ht), Hc1, Hk. done.
Qed.

Lemma arena_free h F A b n C :
  arena h F (A ++ (b, n) :: C) →
  ∃ h', free (b + 8) h = Ret tt h' ∧ brk h' = brk h ∧ arena h' (λ x, F x ∨ blk (b, n) x) (A ++ C) ∧
    ∀ x, ¬ (base ≤ x < base + 8) → ¬ F x → ¬ blk (b, n) x → hmem h' x = hmem h x.
Proof.
  intros [(_ & Hnil & _)|(L & HO & HF & Hg & Hap & Hd)]; [by destruct A|]. pose proof (apart_drop _ _ _ Hap) as [Hap' Hb'].
  apply Forall_app in Hg as [HgA [Hgb HgC]%Forall_cons]. destruct Hgb as (H1 & H2 & H3 & H4). cbn [fst snd] in *.
  assert (Hg : Forall (given h) (A ++ C)) by by apply Forall_app.
  assert (HdAC : ∀ x, cov (A ++ C) x → ¬ F x) by (intros x Hx; apply Hd; rewrite cov_app, cov_cons in *; tauto).
  destruct (free_run h L b n HO H4 H1 H2 H3) as (L' & m' & p & E & HO' & _ & Hc & Hm).
  - intros x Hx. rewrite <- HF. apply Hd. rewrite cov_app, cov_cons. tauto.
  - pose proof (heap_length _ _ HO). pose proof ufuel_ok. lia.
  - assert (Hm' : ∀ x, ¬ (base ≤ x < base + 8) → ¬ F x → ¬ blk (b, n) x → m' x = hmem h x).
    { intros x Hx HFx. apply Hm. intros [?|?%HF]; tauto. }
    eexists. split_and!; [exact E|done| |exact Hm']. right. exists L'. split_and!; [done| | |done|].
    + intros x. rewrite Hc, HF. done.
    + apply (givens_mono h); [done| |done]. intros x Hx. sst. pose proof (givens_cov _ _ _ Hg Hx). apply Hm'; [lia|by apply HdAC|]. intros Hx'. by apply (Hb' x).
    + intros x Hx [?|?]; [by apply (HdAC x)|by apply (Hb' x)].
Qed.

(** C18: malloc and free implement an arena of disjoint blocks, from the first
    call on. For every request below 2 GB - 32 the loop of malloc ends; it
    returns 0 only when the kernel refuses to grow the memory, and otherwise a
    block of at least [nbytes] bytes after its header, taken from the free bytes
    or from new memory and disjoint from every allocated block. free of an
    allocated block ends too, and makes exactly the bytes of that block free
    again. Neither changes a byte of the program: only the header [base], the
    free blocks and the block being freed are written. *)
Theorem arena_refines h F Bs :
  arena h F Bs →
  (∀ nbytes, 0 ≤ nbytes < 2 ^ 31 - 32 →
   ∃ r h', malloc nbytes h = Ret r h' ∧ brk h ≤ brk h' ∧
     (∀ x, x < brk h → ¬ (base ≤ x < base + 8) → ¬ F x → hmem h' x = hmem h x) ∧
     (r = 0 ∧ arena h' F Bs ∧ brk h' = brk h ∧ (∃ n, nbytes ≤ n ≤ Z.max 32768 (nbytes + 15) ∧ sbrk_ok (brk h) n = false) ∨
      r ≠ 0 ∧ ∃ n F', nbytes ≤ 8 * (n - 1) ∧ arena h' F' ((r - 8, n) :: Bs) ∧
        ∀ x, F' x ∨ blk (r - 8, n) x ↔ F x ∨ brk h ≤ x < brk h')) ∧
  (∀ A r n C, Bs = A ++ (r - 8, n) :: C →
   ∃ h', free r h = Ret tt h' ∧ brk h' = brk h ∧ arena h' (λ x, F x ∨ blk (r - 8, n) x) (A ++ C) ∧
     ∀ x, ¬ (base ≤ x < base + 8) → ¬ F x → ¬ blk (r - 8, n) x → hmem h' x = hmem h x).
Proof.
  intros HA. split.
  - intros nbytes Hn. destruct (malloc_starts h F Bs nbytes HA) as (h0 & L & -> & HO & HF & Hg & Hap & Hd & Hk & Hm).
    destruct (malloc_units nbytes Hn) as [Hnu Hnb]. set (nu := uadd _ 1) in *.
    destruct (loop_total h0 L nu HO Hnu) as (r & h' & -> & [(-> & -> & Hs)|(b & h1 & L1 & L' & -> & Hgr & Ht)]).
    + exists 0, h0. rewrite Hk. split_and!; [done|done|by intros; apply Hm|left].
      destruct (core_range nu Hnu) as [Hcr _]. rewrite Hk in Hs. split_and!; [done|by right; exists L|done|].
      exists (8 * core nu). split; [|done]. unfold core in *. destruct (Z.ltb_spec nu 4096); lia.
    + destruct (arena_took _ _ _ _ _ _ _ _ _ _ HO HF Hg Hap Hd (proj1 Hnu) Hgr Ht) as (Hk' & Har & Hb & Hc & Hm').
      rewrite Hk in *. exists (b + 8), h'. replace (b + 8 - 8) with b by lia. split_and!; [done|done| |].
      * intros x Hx Hb' HFx. rewrite Hm', Hm; done.
      * right. split; [lia|]. exists nu, (cov L'). by split_and!; [lia|..].
  - intros A r n C ->. destruct (arena_free _ _ _ _ _ _ HA) as (h' & E & HE). replace (r - 8 + 8) with r in E by lia. by exists h'.
Qed.
End Umalloc.

(** ** A process *)

Definition proc0 : Process :=
  {| base := 4096; sbrk_ok b n := ((0 <=? n) && (b + n <? 2 ^ 31))%bool; ufuel := Z.to_nat (2 ^ 30) |}.

Lemma proc0_ok : @ProcessOk proc0.
Proof.
  constructor; cbn [sbrk_ok ufuel proc0]; [|by rewrite Z2Nat.id by lia].
  intros b n [_ ?%Z.ltb_lt]%andb_prop. done.
Qed.

Lemma arena_refines_witness :
  let h0 := mkHeap (λ _, 0) 0 16384 in
  ∃ r h1 h2, @malloc proc0 100 h0 = Ret r h1 ∧ r ≠ 0 ∧ @free proc0 r h1 = Ret tt h2 ∧ brk h2 = brk h1.
Proof.
  intros h0. assert (HA : @arena proc0 h0 (λ _, False) []) by (left; cbn; split_and!; [done|done|tauto|lia..]).
  destruct (proj1 (@arena_refines proc0 proc0_ok _ _ _ HA) 100 ltac:(lia)) as (r & h1 & E1 & _ & _ & [(_ & _ & _ & n & Hn & Hs)|(Hr & n & F & _ & HA1 & _)]).
  - exfalso. cbn [sbrk_ok proc0 brk h0] in Hs. apply andb_false_iff in Hs as [?%Z.leb_gt|?%Z.ltb_ge]; lia.
  - destruct (proj2 (@arena_refines proc0 proc0_ok _ _ _ HA1) [] r n [] eq_refl) as (h2 & E2 & Hk & _).
    exists r, h1, h2. split_and!; [exact E1|exact Hr|exact E2|exact Hk].
Defined.
