(* ===== verification/Sh.v ===== *)
(** The parser of the shell (sh.c): gettoken, peek, the recursive descent from
    parsecmd down to parseredirs, and nulterminate. *)

From S2P Require Import Prelude Types Printf.

(** ** State

    [line] is the buffer with the NUL that ends it, [ps] the position that the
    functions pass along as [char **ps], [err] what was printed on descriptor
    2. A pointer into the buffer is its index there. *)
Record shell := mkShell { line : list Z; ps : nat; err : list Z }.
#[export] Instance eta_shell : Settable shell := λ s, mkShell (line s) (ps s) (err s).
#[export] Instance set_line : Setter line := ltac:(build_setter).
#[export] Instance set_ps : Setter ps := ltac:(build_setter).
#[export] Instance set_err : Setter err := ltac:(build_setter).

(** Commands, over the type of their strings: for the parser a string is a pair
    of pointers, [q] and [eq], to its beginning and its end. An argument vector
    is the list of its entries before the null pointer. *)
Record redir (W : Type) := mkRedir { rfile : W; rmode : Z; rfd : Z }.
Arguments mkRedir {W}. Arguments rfile {W}. Arguments rmode {W}. Arguments rfd {W}.

Inductive cmd (W : Type) :=
  | Exec (argv : list W)
  | Redir (c : cmd W) (r : redir W)
  | Pipe (left right : cmd W)
  | List (left right : cmd W)
  | Back (c : cmd W).
Arguments Exec {W}. Arguments Redir {W}. Arguments Pipe {W}. Arguments List {W}. Arguments Back {W}.

Definition MAXARGS : nat := 10.

(** The characters of the grammar. *)
Definition LT : Z := 60.
Definition BAR : Z := 124.
Definition GT : Z := 62.
Definition AMP : Z := 38.
Definition SEMI : Z := 59.
Definition LPAR : Z := 40.
Definition RPAR : Z := 41.
(** What gettoken answers for [>>] and for a word. *)
Definition PLUS : Z := 43.
Definition WORD : Z := 97.

Definition whitespace : list Z := [32; 9; 13; 10; 11].
Definition symbols : list Z := [LT; BAR; GT; AMP; SEMI; LPAR; RPAR].

(** strchr(set, c), as a condition; the NUL is in no set. *)
Definition in_chars (set : list Z) (c : Z) : bool := existsb (Z.eqb c) set.

(** ** Tokens *)

(** [*s] *)
Definition char_at (s : nat) : M shell Z := c ← gets (λ st, line st !! s); deref c.

Fixpoint skip_ws (n : nat) (es s : nat) : M shell nat :=
  if (s <? es)%nat then
    c ← char_at s;
    if in_chars whitespace c then
      match n with O => nofuel | S n' => skip_ws n' es (S s) end
    else mret s
  else mret s.

Fixpoint skip_word (n : nat) (es s : nat) : M shell nat :=
  if (s <? es)%nat then
    c ← char_at s;
    if (negb (in_chars whitespace c) && negb (in_chars symbols c))%bool then
      match n with O => nofuel | S n' => skip_word n' es (S s) end
    else mret s
  else mret s.

(** The token, and where it begins and ends ([*q] and [*eq]). *)
Definition gettoken (es : nat) : M shell (Z * (nat * nat)) :=
  s ← gets ps;
  s ← skip_ws es es s;
  let q := s in
  c ← char_at s;
  '(ret, s) ← (
    if c =? 0 then mret (c, s) else
    if in_chars [BAR; LPAR; RPAR; SEMI; AMP; LT] c then mret (c, S s) else
    if c =? GT then
      c' ← char_at (S s);
      if c' =? GT then mret (PLUS, S (S s)) else mret (c, S s)
    else s ← skip_word es es s; mret (WORD, s));
  let eq := s in
  s ← skip_ws es es s;
  modify (λ st, st <| ps := s |>);;
  mret (ret, (q, eq)).

Definition peek (es : nat) (toks : list Z) : M shell bool :=
  s ← gets ps;
  s ← skip_ws es es s;
  modify (λ st, st <| ps := s |>);;
  c ← char_at s;
  mret (negb (c =? 0) && in_chars toks c)%bool.

(** ** The parser

    panic() prints its message and ends the process: the outcome [Panic]. *)

(** The redirections parseredirs puts around a command, the first one
    innermost. parseexec goes on filling the argument vector inside a command
    that it has wrapped already; the wrapping is therefore kept apart until the
    vector is complete. *)
Definition wrap {W} (c : cmd W) (rs : list (redir W)) : cmd W := foldl Redir c rs.

Fixpoint parseredirs (n : nat) (es : nat) : M shell (list (redir (nat * nat))) :=
  b ← peek es [LT; GT];
  if (b : bool) then
    '(tok, _) ← gettoken es;
    '(t, w) ← gettoken es;
    if negb (t =? WORD) then panic "missing file for redirection" else
    let r := if tok =? LT then [mkRedir w O_RDONLY 0]
             else if tok =? GT then [mkRedir w (Z.lor O_WRONLY O_CREATE) 1]
             else if tok =? PLUS then [mkRedir w (Z.lor O_WRONLY O_CREATE) 1]
             else [] in
    match n with
    | O => nofuel
    | S n' => rs ← parseredirs n' es; mret (r ++ rs)
    end
  else mret [].

(** The while loop of parseexec. *)
Fixpoint parseargs (n : nat) (es : nat) (argv : list (nat * nat)) (rs : list (redir (nat * nat))) : M shell (cmd (nat * nat)) :=
  b ← peek es [BAR; RPAR; AMP; SEMI];
  if (b : bool) then mret (wrap (Exec argv) rs) else
  '(tok, w) ← gettoken es;
  if tok =? 0 then mret (wrap (Exec argv) rs) else
  if negb (tok =? WORD) then panic "syntax" else
  let argv := argv ++ [w] in
  if (MAXARGS <=? length argv)%nat then panic "too many args" else
  rs' ← parseredirs es es;
  match n with
  | O => nofuel
  | S n' => parseargs n' es argv (rs ++ rs')
  end.

(** The while loop of parseline. *)
Fixpoint parseback (n : nat) (es : nat) (c : cmd (nat * nat)) : M shell (cmd (nat * nat)) :=
  b ← peek es [AMP];
  if (b : bool) then
    gettoken es;;
    match n with
    | O => nofuel
    | S n' => parseback n' es (Back c)
    end
  else mret c.

Fixpoint parseline (n : nat) (es : nat) : M shell (cmd (nat * nat)) :=
  match n with
  | O => nofuel
  | S n' =>
      c ← parsepipe n' es;
      c ← parseback es es c;
      b ← peek es [SEMI];
      if (b : bool) then
        gettoken es;;
        r ← parseline n' es;
        mret (List c r)
      else mret c
  end
with parsepipe (n : nat) (es : nat) : M shell (cmd (nat * nat)) :=
  match n with
  | O => nofuel
  | S n' =>
      c ← parseexec n' es;
      b ← peek es [BAR];
      if (b : bool) then
        gettoken es;;
        r ← parsepipe n' es;
        mret (Pipe c r)
      else mret c
  end
with parseexec (n : nat) (es : nat) : M shell (cmd (nat * nat)) :=
  match n with
  | O => nofuel
  | S n' =>
      b ← peek es [LPAR];
      if (b : bool) then parseblock n' es else
      rs ← parseredirs es es;
      parseargs es es [] rs
  end
with parseblock (n : nat) (es : nat) : M shell (cmd (nat * nat)) :=
  match n with
  | O => nofuel
  | S n' =>
      b ← peek es [LPAR];
      if negb b then panic "parseblock" else
      gettoken es;;
      c ← parseline n' es;
      b ← peek es [RPAR];
      if negb b then panic "syntax - missing )" else
      gettoken es;;
      rs ← parseredirs es es;
      mret (wrap c rs)
  end.

(** [*p = 0] *)
Definition set_nul (p : nat) : M shell unit :=
  l ← gets line;
  if (p <? length l)%nat then modify (λ st, st <| line ::= <[p := 0]> |>) else fault.

Fixpoint nulterminate (c : cmd (nat * nat)) : M shell unit :=
  match c with
  | Exec argv => for_each argv (λ w, set_nul (snd w))
  | Redir c r => nulterminate c;; set_nul (snd (rfile r))
  | Pipe l r => nulterminate l;; nulterminate r
  | List l r => nulterminate l;; nulterminate r
  | Back c => nulterminate c
  end.

(** The end of the string at [s]. *)
Fixpoint nul_from (l : list Z) : nat := match l with [] => 0 | c :: l' => if c =? 0 then 0 else S (nul_from l') end.

(** parsecmd, of the buffer from its beginning. *)
Definition parsecmd : M shell (cmd (nat * nat)) :=
  l ← gets line;
  let es := nul_from l in
  modify (λ st, st <| ps := 0%nat |>);;
  c ← parseline (4 * (es + 1)) es;
  peek es [];;
  s ← gets ps;
  if negb (s =? es)%nat then
    modify (λ st, st <| err ::= λ e, e ++ chars "leftovers: " ++ take (es - s) (drop s l) ++ [10] |>);;
    panic "syntax"
  else
    nulterminate c;;
    mret c.

(** ** The grammar *)

Inductive tok (W : Type) := Sym (c : Z) | Word (w : W).
Arguments Sym {W}. Arguments Word {W}.

Section Grammar.
Context {W : Type}.

Inductive gredirs : list (tok W) → list (redir W) → Prop :=
  | gr_nil : gredirs [] []
  | gr_in w ts rs : gredirs ts rs → gredirs (Sym LT :: Word w :: ts) (mkRedir w O_RDONLY 0 :: rs)
  | gr_out c w ts rs : c = GT ∨ c = PLUS → gredirs ts rs →
      gredirs (Sym c :: Word w :: ts) (mkRedir w (Z.lor O_WRONLY O_CREATE) 1 :: rs).

(** Words and redirections, mixed. *)
Inductive gargs : list (tok W) → list W → list (redir W) → Prop :=
  | ga_nil : gargs [] [] []
  | ga_word w tr rs ts ws rs' : gredirs tr rs → gargs ts ws rs' → gargs (Word w :: tr ++ ts) (w :: ws) (rs ++ rs').

Inductive gline : list (tok W) → cmd W → Prop :=
  | gl_pipe tp c k : gpipe tp c → gline (tp ++ replicate k (Sym AMP)) (Nat.iter k Back c)
  | gl_list tp c k ts d : gpipe tp c → gline ts d →
      gline (tp ++ replicate k (Sym AMP) ++ Sym SEMI :: ts) (List (Nat.iter k Back c) d)
with gpipe : list (tok W) → cmd W → Prop :=
  | gp_exec te c : gexec te c → gpipe te c
  | gp_pipe te c tp d : gexec te c → gpipe tp d → gpipe (te ++ Sym BAR :: tp) (Pipe c d)
with gexec : list (tok W) → cmd W → Prop :=
  | ge_block tl c tr rs : gline tl c → gredirs tr rs → gexec (Sym LPAR :: tl ++ Sym RPAR :: tr) (wrap c rs)
  | ge_exec tr rs ta ws rs' : gredirs tr rs → gargs ta ws rs' → (length ws < MAXARGS)%nat →
      gexec (tr ++ ta) (wrap (Exec ws) (rs ++ rs')).
End Grammar.

Scheme gline_mut := Minimality for gline Sort Prop
  with gpipe_mut := Minimality for gpipe Sort Prop
  with gexec_mut := Minimality for gexec Sort Prop.
Combined Scheme grammar_ind from gline_mut, gpipe_mut, gexec_mut.

(** The tokens of a string. *)
Definition is_ws (c : Z) : bool := in_chars whitespace c.
Definition is_word (c : Z) : bool := negb (is_ws c) && negb (in_chars symbols c).

(** The length of the longest prefix in [f]. *)
Fixpoint span (f : Z → bool) (l : list Z) : nat :=
  match l with c :: l' => if f c then S (span f l') else O | [] => O end.

Fixpoint lex (n : nat) (l : list Z) : list (tok (list Z)) :=
  match n with
  | O => []
  | S n' =>
      match drop (span is_ws l) l with
      | [] => []
      | c :: r =>
          if is_word c then
            let k := span is_word (c :: r) in Word (take k (c :: r)) :: lex n' (drop k (c :: r))
          else if (c =? GT) && (match r with c' :: _ => c' =? GT | [] => false end) then Sym PLUS :: lex n' (drop 1 r)
          else Sym c :: lex n' r
      end
  end.

Definition tokens (l : list Z) : list (tok (list Z)) := lex (length l) l.

(** ** Reading tokens *)

Lemma span_le f l : (span f l <= length l)%nat.
Proof. induction l as [|c l IH]; cbn; [lia|]. destruct (f c); lia. Qed.

Lemma span_stop f l c r : drop (span f l) l = c :: r → f c = false.
Proof. induction l as [|x l IH]; cbn; [done|]. destruct (f x) eqn:Hx; cbn; [done|]. by intros [= -> ->]. Qed.

Lemma span_all f l i c : (i < span f l)%nat → l !! i = Some c → f c = true.
Proof.
  revert i. induction l as [|x l IH]; intros i; cbn; [lia|]. destruct (f x) eqn:Hx; [|lia].
  destruct i as [|i]; [by intros _ [= <-]|]. intros Hi. apply IH. lia.
Qed.

Lemma span_drop f l : span f (drop (span f l) l) = O.
Proof. induction l as [|x l IH]; cbn; [done|]. destruct (f x) eqn:Hx; cbn; [done|]. by rewrite Hx. Qed.

Lemma drop_cons_S {A} p (l : list A) c r : drop p l = c :: r → l !! p = Some c ∧ drop (S p) l = r ∧ (p < length l)%nat.
Proof.
  intros Hd. assert (Hl : l !! p = Some c) by (rewrite <- (Nat.add_0_r p), <- lookup_drop, Hd; done).
  split_and!; [done| |by eapply lookup_lt_Some]. replace (S p) with (p + 1)%nat by lia. by rewrite <- drop_drop, Hd.
Qed.

Section Parser.
Context (L J : list Z) (HL : 0 ∉ L).
#[local] Abbreviation es := (length L).

(** The buffer: the line [L], its NUL, and what is left behind it. *)
Definition on_line (s : shell) : Prop := line s = L ++ 0 :: J.

Lemma char_in p c r s : on_line s → drop p L = c :: r → char_at p s = Ret c s.
Proof.
  intros Hs (Hc & _ & Hp)%drop_cons_S. unfold char_at. run. rewrite Hs, lookup_app_l, Hc by done. done.
Qed.

Lemma char_end s : on_line s → char_at es s = Ret 0 s.
Proof. intros Hs. unfold char_at. run. rewrite Hs, lookup_app_r, Nat.sub_diag by lia. done. Qed.

Lemma drop_case p : (p <= es)%nat → (p = es ∧ drop p L = []) ∨ ∃ c r, drop p L = c :: r ∧ c ≠ 0 ∧ (p < es)%nat ∧ drop (S p) L = r.
Proof.
  intros Hp. destruct (drop p L) as [|c r] eqn:Hd.
  - left. split; [|done]. apply (f_equal length) in Hd. rewrite length_drop in Hd. cbn in Hd. lia.
  - right. exists c, r. destruct (drop_cons_S _ _ _ _ Hd) as (Hc & Hr & Hlt). split_and!; [done| |done|done].
    intros ->. by apply HL, (list_elem_of_lookup_2 _ p).
Qed.

Lemma skip_ws_run s n : ∀ p, on_line s → (p <= es)%nat → (es - p <= n)%nat →
  skip_ws n es p s = Ret (p + span is_ws (drop p L))%nat s.
Proof.
  induction n as [|n IH]; intros p Hs Hp Hn; destruct (drop_case p Hp) as [[Heq Hd]|(c & r & Hd & Hc & Hlt & Hr)]; try lia;
    cbn [skip_ws]; rewrite Hd; cbn [span].
  1,2: rewrite (proj2 (Nat.ltb_ge _ _)) by lia; by rewrite Nat.add_0_r.
  rewrite (proj2 (Nat.ltb_lt _ _)) by lia. rewrite (bind_run _ _ _ _ _ (char_in _ _ _ _ Hs Hd)). fold (is_ws c).
  destruct (is_ws c) eqn:Hw; [|by rewrite Nat.add_0_r]. rewrite IH by (done || lia). rewrite Hr. f_equal. lia.
Qed.

Lemma skip_word_run s n : ∀ p, on_line s → (p <= es)%nat → (es - p <= n)%nat →
  skip_word n es p s = Ret (p + span is_word (drop p L))%nat s.
Proof.
  induction n as [|n IH]; intros p Hs Hp Hn; destruct (drop_case p Hp) as [[Heq Hd]|(c & r & Hd & Hc & Hlt & Hr)]; try lia;
    cbn [skip_word]; rewrite Hd; cbn [span].
  1,2: rewrite (proj2 (Nat.ltb_ge _ _)) by lia; by rewrite Nat.add_0_r.
  rewrite (proj2 (Nat.ltb_lt _ _)) by lia. rewrite (bind_run _ _ _ _ _ (char_in _ _ _ _ Hs Hd)). fold (is_ws c). fold (is_word c).
  destruct (is_word c) eqn:Hw; [|by rewrite Nat.add_0_r]. rewrite IH by (done || lia). rewrite Hr. f_equal. lia.
Qed.

(** The tokens from position [p] on, with the places of the words. *)
Definition ws_end (p : nat) : nat := (p + span is_ws (drop p L))%nat.

Inductive toks : nat → list (tok (nat * nat)) → Prop :=
  | toks_nil p : drop (ws_end p) L = [] → toks p []
  | toks_word p c r ts :
      let q := ws_end p in
      let e := (q + span is_word (c :: r))%nat in
      drop q L = c :: r → is_word c = true → toks e ts → toks p (Word (q, e) :: ts)
  | toks_app p r ts : let q := ws_end p in drop q L = GT :: GT :: r → toks (q + 2) ts → toks p (Sym PLUS :: ts)
  | toks_sym p c r ts :
      let q := ws_end p in
      drop q L = c :: r → is_word c = false → (c = GT → ∀ r', r ≠ GT :: r') → toks (q + 1) ts → toks p (Sym c :: ts).

Lemma ws_end_le p : (p <= es)%nat → (p <= ws_end p <= es)%nat.
Proof. intros Hp. unfold ws_end. pose proof (span_le is_ws (drop p L)) as Hs. rewrite length_drop in Hs. lia. Qed.

Lemma ws_end_drop p : drop (ws_end p) L = drop (span is_ws (drop p L)) (drop p L).
Proof. unfold ws_end. by rewrite drop_drop. Qed.

Lemma ws_end_idem p : ws_end (ws_end p) = ws_end p.
Proof. unfold ws_end at 1. rewrite ws_end_drop, span_drop. lia. Qed.

Lemma toks_skip p ts : toks p ts → toks (ws_end p) ts.
Proof.
  intros Ht. destruct Ht as [p Hd|p c r ts q e Hd Hc Ht|p r ts q Hd Ht|p c r ts q Hd Hc Hg Ht]; try subst e; try subst q.
  - apply toks_nil. by rewrite ws_end_idem.
  - pose proof (toks_word (ws_end p) c r ts) as HW. rewrite ws_end_idem in HW. by apply HW.
  - apply (toks_app _ r); by rewrite ws_end_idem.
  - apply (toks_sym _ c r); by rewrite ?ws_end_idem.
Qed.

Definition here (s : shell) (ts : list (tok (nat * nat))) : Prop := on_line s ∧ (ps s <= es)%nat ∧ toks (ps s) ts.

Lemma here_skip s p ts :
  on_line s → (p <= es)%nat → toks p ts → here (s <| ps := ws_end p |>) ts.
Proof. intros Hs Hp Ht. split_and!; [done|apply ws_end_le; done|by apply toks_skip]. Qed.

Lemma skip_run s p : on_line s → (p <= es)%nat → skip_ws es es p s = Ret (ws_end p) s.
Proof. intros. apply skip_ws_run; [done|done|lia]. Qed.

Lemma symbol_cases c : is_ws c = false → is_word c = false → c ∈ symbols.
Proof.
  intros H1 H2. unfold is_word in H2. rewrite H1 in H2. cbn [negb andb] in H2. apply negb_false_iff, existsb_exists in H2 as (x & Hx & ->%Z.eqb_eq).
  by apply list_elem_of_In.
Qed.

(** The tail of gettoken: the token [k] ends at [e]. *)
Lemma gettoken_tail s (k : Z) (w : nat * nat) e ts :
  on_line s → (e <= es)%nat → toks e ts →
  ∃ s', (s0 ← skip_ws es es e; modify (λ st, st <| ps := s0 |>);; mret (k, w)) s = Ret (k, w) s' ∧ here s' ts.
Proof.
  intros Hs He Ht. rewrite (bind_run _ _ _ _ _ (skip_run s e Hs He)). eexists. split; [reflexivity|]. by apply here_skip.
Qed.

Lemma gettoken_nil s : here s [] → ∃ w s', gettoken es s = Ret (0, w) s' ∧ here s' [].
Proof.
  intros (Hs & Hp & Ht). pose proof (ws_end_le _ Hp) as Hq. inversion Ht as [p Hd| | |]; subst.
  destruct (drop_case (ws_end (ps s)) ltac:(lia)) as [[Heq _]|(c & r & Hd' & _)]; [|by rewrite Hd in Hd'].
  destruct (gettoken_tail s 0 (es, es) es [] Hs ltac:(lia)) as (s' & E & Hs'); [by rewrite <- Heq; apply toks_skip|].
  exists (es, es), s'. split; [|done]. unfold gettoken. run. rewrite (bind_run _ _ _ _ _ (skip_run s _ Hs Hp)). rewrite Heq.
  rewrite (bind_run _ _ _ _ _ (char_end _ Hs)). cbn [Z.eqb]. exact E.
Qed.

Lemma gettoken_word s w ts : here s (Word w :: ts) → ∃ s', gettoken es s = Ret (WORD, w) s' ∧ here s' ts.
Proof.
  intros (Hs & Hp & Ht). pose proof (ws_end_le _ Hp) as Hq. inversion Ht as [|p c r ts' q e Hd Hc Ht'| |]; subst. subst e q.
  set (q := ws_end (ps s)) in *. set (e := (q + span is_word (c :: r))%nat) in *.
  assert (He : (e <= es)%nat).
  { pose proof (span_le is_word (c :: r)) as Hl. rewrite <- Hd, length_drop in Hl. unfold e. rewrite <- Hd. lia. }
  destruct (gettoken_tail s WORD (q, e) e ts Hs He Ht') as (s' & E & Hs'). exists s'. split; [|done].
  unfold gettoken. run. rewrite (bind_run _ _ _ _ _ (skip_run s _ Hs Hp)). fold q. rewrite (bind_run _ _ _ _ _ (char_in _ _ _ _ Hs Hd)).
  assert (Hn : c ≠ 0 ∧ in_chars [BAR; LPAR; RPAR; SEMI; AMP; LT] c = false ∧ c ≠ GT).
  { unfold is_word in Hc. apply andb_prop in Hc as [_ Hc]. unfold in_chars, symbols in *. cbn [existsb] in *.
    destruct (drop_case q ltac:(lia)) as [[_ Hd']|(c' & r' & Hd' & Hc' & _)]; rewrite Hd in Hd'; [done|]. injection Hd' as <- <-. split; [done|].
    destruct (Z.eqb_spec c LT), (Z.eqb_spec c BAR), (Z.eqb_spec c GT), (Z.eqb_spec c AMP), (Z.eqb_spec c SEMI), (Z.eqb_spec c LPAR), (Z.eqb_spec c RPAR); done. }
  destruct Hn as (H1 & H2 & H3). rewrite (proj2 (Z.eqb_neq _ _) H1), H2, (proj2 (Z.eqb_neq _ _) H3).
  rewrite (bind_run _ _ s (WORD, e) s); [exact E|]. rewrite (bind_run _ _ _ _ _ (skip_word_run s es q Hs ltac:(lia) ltac:(lia))). unfold e. by rewrite Hd.
Qed.

Lemma gettoken_sym s c ts : here s (Sym c :: ts) → ∃ w s', gettoken es s = Ret (c, w) s' ∧ here s' ts ∧ c ≠ 0 ∧ c ≠ WORD.
Proof.
  intros (Hs & Hp & Ht). pose proof (ws_end_le _ Hp) as Hq. inversion Ht as [| |p r ts' q Hd Ht'|p c' r ts' q Hd Hc Hg Ht']; subst; subst q; set (q := ws_end (ps s)) in *.
  - destruct (drop_cons_S _ _ _ _ Hd) as (_ & Hd1 & _). destruct (drop_cons_S _ _ _ _ Hd1) as (_ & _ & Hlt).
    destruct (gettoken_tail s PLUS (q, S (S q)) (S (S q)) ts Hs ltac:(lia)) as (s' & E & Hs'); [by replace (S (S q)) with (q + 2)%nat by lia|].
    exists (q, S (S q)), s'. split_and!; [|done|done|done]. unfold gettoken. run. rewrite (bind_run _ _ _ _ _ (skip_run s _ Hs Hp)). fold q.
    rewrite (bind_run _ _ _ _ _ (char_in _ _ _ _ Hs Hd)). change (GT =? 0) with false; change (in_chars [BAR; LPAR; RPAR; SEMI; AMP; LT] GT) with false; change (GT =? GT) with true; cbv iota.
    rewrite (bind_run _ _ s (PLUS, S (S q)) s); [exact E|].
    by rewrite (bind_run _ _ _ _ _ (char_in _ _ _ _ Hs Hd1)).
  - assert (Hw : is_ws c = false) by (pose proof Hd as Hd'; unfold q in Hd'; rewrite ws_end_drop in Hd'; by eapply span_stop).
    pose proof (symbol_cases c Hw Hc) as Hin. destruct (drop_cons_S _ _ _ _ Hd) as (_ & Hd1 & Hlt).
    destruct (gettoken_tail s c (q, S q) (S q) ts Hs ltac:(lia)) as (s' & E & Hs'); [by replace (S q) with (q + 1)%nat by lia|].
    exists (q, S q), s'. split_and!; [|done| |]; [|by intros ->; vm_compute in Hc|by intros ->; vm_compute in Hc].
    unfold gettoken. run. rewrite (bind_run _ _ _ _ _ (skip_run s _ Hs Hp)). fold q. rewrite (bind_run _ _ _ _ _ (char_in _ _ _ _ Hs Hd)).
    destruct (Z.eqb_spec c GT) as [->|Hne].
    + change (GT =? 0) with false; change (in_chars [BAR; LPAR; RPAR; SEMI; AMP; LT] GT) with false; change (GT =? GT) with true; cbv iota. rewrite (bind_run _ _ s (GT, S q) s); [exact E|].
      destruct (drop_case (S q) ltac:(lia)) as [[Heq _]|(c' & r' & Hd' & _)].
      * rewrite Heq, (bind_run _ _ _ _ _ (char_end _ Hs)). by rewrite <- Heq.
      * rewrite (bind_run _ _ _ _ _ (char_in _ _ _ _ Hs Hd')). destruct (Z.eqb_spec c' GT) as [->|Hne]; [|done].
        exfalso. rewrite Hd1 in Hd'. by apply (Hg eq_refl r').
    + unfold symbols in Hin. rewrite (bind_run _ _ s (c, S q) s); [exact E|].
      repeat (apply elem_of_cons in Hin as [->|Hin]; [try done|]). by apply elem_of_nil in Hin.
Qed.

(** What peek looks at. *)
Definition headin {W} (set : list Z) (ts : list (tok W)) : bool :=
  match ts with Sym c :: _ => in_chars set (if c =? PLUS then GT else c) | _ => false end.

Lemma in_chars_elem set c : in_chars set c = true ↔ c ∈ set.
Proof.
  unfold in_chars. rewrite existsb_exists. setoid_rewrite Z.eqb_eq. setoid_rewrite <- list_elem_of_In. split; [by intros (x & ? & ->)|eauto].
Qed.

Lemma peek_run s ts set :
  here s ts → forallb (in_chars symbols) set = true → ∃ s', peek es set s = Ret (headin set ts) s' ∧ here s' ts.
Proof.
  intros (Hs & Hp & Ht) Hset. pose proof (ws_end_le _ Hp) as Hq. set (s' := s <| ps := ws_end (ps s) |>).
  exists s'. split; [|by apply here_skip]. unfold peek. run. rewrite (bind_run _ _ _ _ _ (skip_run s _ Hs Hp)). run. fold s'.
  assert (Hs' : on_line s') by exact Hs.
  inversion Ht as [p Hd|p c r ts' q e Hd Hc Ht'|p r ts' q Hd Ht'|p c r ts' q Hd Hc Hg Ht']; subst.
  - destruct (drop_case (ws_end (ps s)) ltac:(lia)) as [[-> _]|(c & r & Hd' & _)]; [|by rewrite Hd in Hd'].
    rewrite (bind_run _ _ _ _ _ (char_end _ Hs')). done.
  - rewrite (bind_run _ _ _ _ _ (char_in _ _ _ _ Hs' Hd)). cbn [headin].
    destruct (in_chars set c) eqn:Hin; [|by rewrite andb_false_r]. exfalso. rewrite forallb_forall in Hset.
    apply in_chars_elem, list_elem_of_In, Hset in Hin. unfold is_word in Hc. rewrite Hin in Hc. by destruct (is_ws c).
  - rewrite (bind_run _ _ _ _ _ (char_in _ _ _ _ Hs' Hd)). done.
  - rewrite (bind_run _ _ _ _ _ (char_in _ _ _ _ Hs' Hd)). cbn [headin].
    assert (Hpl : c ≠ PLUS ∧ c ≠ 0) by (split; intros ->; by vm_compute in Hc).
    by rewrite !(proj2 (Z.eqb_neq _ _)) by apply Hpl.
Qed.

Lemma toks_length p ts : toks p ts → (p <= es)%nat → (length ts <= es - p)%nat.
Proof.
  intros Ht. induction Ht as [p Hd|p c r ts q e Hd Hc Ht IH|p r ts q Hd Ht IH|p c r ts q Hd Hc Hg Ht IH]; intros Hp; cbn [length]; [lia|..];
    pose proof (ws_end_le _ Hp) as Hq; fold q in Hq; pose proof (f_equal length Hd) as Hl; rewrite length_drop in Hl; cbn [length] in Hl.
  - assert (Hk : (1 <= span is_word (c :: r) <= S (length r))%nat).
    { split; [cbn; rewrite Hc; lia|apply (span_le is_word (c :: r))]. }
    unfold e in *. lia.
  - lia.
  - lia.
Qed.

Lemma here_length s ts : here s ts → (length ts <= es)%nat.
Proof. intros (_ & Hp & Ht). pose proof (toks_length _ _ Ht Hp). lia. Qed.

(** Every run of [m] reads a part [u] of the tokens with the result [a], or
    ends in a panic. *)
Definition parses {A} (P : A → list (tok (nat * nat)) → list (tok (nat * nat)) → Prop) (o : outcome shell A) (ts : list (tok (nat * nat))) : Prop :=
  (∃ a s' u rest, o = Ret a s' ∧ here s' rest ∧ ts = u ++ rest ∧ P a u rest) ∨ ∃ msg s', o = Panic msg s'.

Lemma headin_redir (ts : list (tok (nat * nat))) :
  headin [LT; GT] ts = true → ∃ c ts', ts = Sym c :: ts' ∧ (c = LT ∨ c = GT ∨ c = PLUS).
Proof.
  destruct ts as [|[c|w] ts]; [done| |done]. cbn [headin]. intros Hc%in_chars_elem. exists c, ts. split; [done|].
  destruct (Z.eqb_spec c PLUS); [tauto|]. apply elem_of_cons in Hc as [->|Hc]; [tauto|]. apply list_elem_of_singleton in Hc. tauto.
Qed.

Lemma redirs_sound n : ∀ s ts, here s ts → (length ts <= n)%nat →
  parses (λ rs u rest, gredirs u rs ∧ headin [LT; GT] rest = false) (parseredirs n es s) ts.
Proof.
  induction n as [|n IH]; intros s ts Hs Hn; destruct (peek_run s ts [LT; GT] Hs eq_refl) as (s1 & E1 & Hs1);
    cbn [parseredirs]; rewrite (bind_run _ _ _ _ _ E1); destruct (headin [LT; GT] ts) eqn:Hh.
  1: by apply headin_redir in Hh as (c & ts' & -> & _); cbn in Hn; lia.
  1,3: left; exists [], s1, [], ts; split_and!; [done|done|done|constructor|done].
  apply headin_redir in Hh as (c & ts' & -> & Hc). destruct (gettoken_sym _ _ _ Hs1) as (w0 & s2 & E2 & Hs2 & _). rewrite (bind_run _ _ _ _ _ E2).
  destruct ts' as [|[d|w] ts'].
  - destruct (gettoken_nil _ Hs2) as (w & s3 & E3 & _). rewrite (bind_run _ _ _ _ _ E3). right. by eexists _, _.
  - destruct (gettoken_sym _ _ _ Hs2) as (w & s3 & E3 & _ & _ & Hd). rewrite (bind_run _ _ _ _ _ E3). rewrite (proj2 (Z.eqb_neq _ _) Hd). right. by eexists _, _.
  - destruct (gettoken_word _ _ _ Hs2) as (s3 & E3 & Hs3). rewrite (bind_run _ _ _ _ _ E3). rewrite Z.eqb_refl. cbn [negb].
    cbn [length] in Hn. destruct (IH s3 ts' Hs3 ltac:(lia)) as [(rs & s4 & u & rest & E4 & Hs4 & -> & Hg & Hr)|(msg & s4 & E4)].
    + rewrite (bind_run _ _ _ _ _ E4). left. eexists _, s4, (Sym c :: Word w :: u), rest. split_and!; [reflexivity|done|done| |done].
      destruct Hc as [->|[->| ->]]; cbn; constructor; auto.
    + right. exists msg, s4. by rewrite (bind_panic _ _ _ _ _ E4).
Qed.

Lemma redirs_complete u rs : gredirs u rs → ∀ n s rest, here s (u ++ rest) → (length u <= n)%nat → headin [LT; GT] rest = false →
  ∃ s', parseredirs n es s = Ret rs s' ∧ here s' rest.
Proof.
  intros Hg. assert (Hstep : ∀ c w u rs n s rest r, c = LT ∨ c = GT ∨ c = PLUS → here s ((Sym c :: Word w :: u) ++ rest) → (S (S (length u)) <= n)%nat →
    r = mkRedir w (if c =? LT then O_RDONLY else Z.lor O_WRONLY O_CREATE) (if c =? LT then 0 else 1) →
    (∀ n' s', here s' (u ++ rest) → (length u <= n')%nat → ∃ s'', parseredirs n' es s' = Ret rs s'' ∧ here s'' rest) →
    ∃ s', parseredirs n es s = Ret (r :: rs) s' ∧ here s' rest).
  { intros c w u' rs' n s rest r Hc Hs Hn -> IH. destruct n as [|n]; [lia|]. destruct (peek_run _ _ [LT; GT] Hs eq_refl) as (s1 & E1 & Hs1).
    cbn [parseredirs]. rewrite (bind_run _ _ _ _ _ E1). cbn [app headin] in *.
    replace (in_chars [LT; GT] (if c =? PLUS then GT else c)) with true by by destruct Hc as [->|[->| ->]].
    destruct (gettoken_sym _ _ _ Hs1) as (w0 & s2 & E2 & Hs2 & _). rewrite (bind_run _ _ _ _ _ E2).
    destruct (gettoken_word _ _ _ Hs2) as (s3 & E3 & Hs3). rewrite (bind_run _ _ _ _ _ E3). rewrite Z.eqb_refl. cbn [negb].
    destruct (IH n s3 Hs3 ltac:(lia)) as (s4 & E4 & Hs4). rewrite (bind_run _ _ _ _ _ E4). exists s4. split; [|done].
    destruct Hc as [->|[->| ->]]; done. }
  induction Hg as [|w ts rs Hg IH|c w ts rs Hc Hg IH]; intros n s rest Hs Hn Hr.
  - destruct (peek_run _ _ [LT; GT] Hs eq_refl) as (s1 & E1 & Hs1). exists s1. split; [|done].
    destruct n; cbn [parseredirs]; rewrite (bind_run _ _ _ _ _ E1); cbn [app] in *; by rewrite Hr.
  - eapply Hstep; [by left|done|done|done|]. intros. by apply IH.
  - eapply Hstep; [|done|done| |].
    + tauto.
    + by destruct Hc as [->| ->].
    + intros. by apply IH.
Qed.

(** ** Arguments and background commands *)

Definition stopat {W} (set : list Z) (rest : list (tok W)) : Prop := rest = [] ∨ headin set rest = true.

(** The first tokens of redirections and of arguments. *)
Lemma headin_false {W} set set' (rest : list (tok W)) :
  stopat set rest → forallb (λ c, negb (in_chars set' c)) set = true → headin set' rest = false.
Proof.
  intros [->|Hh] Hf; [done|]. destruct rest as [|[c|w] rest]; [done| |done]. cbn [headin] in *. rewrite forallb_forall in Hf.
  apply in_chars_elem, list_elem_of_In, Hf, negb_true_iff in Hh. done.
Qed.

Lemma gredirs_head {W} set (tr : list (tok W)) rs rest :
  gredirs tr rs → in_chars set LT = false → in_chars set GT = false → headin set rest = false → headin set (tr ++ rest) = false.
Proof. intros Hg H1 H2 Hr. destruct Hg as [| |c w ts rs [->| ->] Hg]; done. Qed.

Lemma gargs_head {W} set (ta : list (tok W)) ws rs rest : gargs ta ws rs → headin set rest = false → headin set (ta ++ rest) = false.
Proof. by intros []. Qed.

Lemma args_sound n : ∀ s ts argv rs, here s ts → (length ts <= n)%nat →
  (length argv < MAXARGS)%nat →
  parses (λ c u rest, ∃ ws rs', gargs u ws rs' ∧ (length (argv ++ ws) < MAXARGS)%nat ∧ c = wrap (Exec (argv ++ ws)) (rs ++ rs')) (parseargs n es argv rs s) ts.
Proof.
  induction n as [|n IH]; intros s ts argv rs Hs Hn Ha; destruct (peek_run s ts [BAR; RPAR; AMP; SEMI] Hs eq_refl) as (s1 & E1 & Hs1);
    cbn [parseargs]; rewrite (bind_run _ _ _ _ _ E1);
    (destruct (headin [BAR; RPAR; AMP; SEMI] ts); [left; exists (wrap (Exec argv) rs), s1, [], ts; split_and!; [done|done|done|];
      exists [], []; rewrite !app_nil_r; split_and!; [constructor|done|done]|]);
    (destruct ts as [|[c|w] ts];
     [destruct (gettoken_nil _ Hs1) as (w & s2 & E2 & Hs2); rewrite (bind_run _ _ _ _ _ E2); left;
        exists (wrap (Exec argv) rs), s2, [], []; split_and!; [done|done|done|]; exists [], []; rewrite !app_nil_r; split_and!; [constructor|done|done]
     |destruct (gettoken_sym _ _ _ Hs1) as (w & s2 & E2 & _ & H0 & Hw); rewrite (bind_run _ _ _ _ _ E2);
        rewrite (proj2 (Z.eqb_neq _ _) H0), (proj2 (Z.eqb_neq _ _) Hw); right; by eexists _, _|]).
  1: by cbn in Hn; lia.
  destruct (gettoken_word _ _ _ Hs1) as (s2 & E2 & Hs2). rewrite (bind_run _ _ _ _ _ E2). change (WORD =? 0) with false. rewrite Z.eqb_refl. cbn [negb].
  destruct (Nat.leb_spec MAXARGS (length (argv ++ [w]))) as [Hm|Hm]; [right; by eexists _, _|].
  destruct (redirs_sound es s2 ts Hs2 (here_length _ _ Hs2)) as [(rs1 & s3 & u & rest & E3 & Hs3 & -> & Hg & _)|(msg & s3 & E3)];
    [|right; exists msg, s3; by rewrite (bind_panic _ _ _ _ _ E3)].
  rewrite (bind_run _ _ _ _ _ E3). cbn [length] in Hn. rewrite length_app in Hn.
  destruct (IH s3 rest (argv ++ [w]) (rs ++ rs1) Hs3 ltac:(lia) Hm) as [(c & s4 & u' & rest' & E4 & Hs4 & -> & ws & rs' & Hga & Hlen & ->)|Hp]; [|by right].
  left. eexists _, s4, (Word w :: u ++ u'), rest'. split_and!; [exact E4|done|by rewrite <- app_comm_cons, <- app_assoc|].
  exists (w :: ws), (rs1 ++ rs'). rewrite <- !app_assoc in *. by split_and!; [constructor|..].
Qed.

Lemma args_complete u ws rs' : gargs u ws rs' → ∀ n s rest argv rs, here s (u ++ rest) → (length u <= n)%nat → (length (argv ++ ws) < MAXARGS)%nat →
  stopat [BAR; RPAR; AMP; SEMI] rest → ∃ s', parseargs n es argv rs s = Ret (wrap (Exec (argv ++ ws)) (rs ++ rs')) s' ∧ here s' rest.
Proof.
  intros Hg. induction Hg as [|w tr rs1 ts ws rs' Hr Hg IH]; intros n s rest argv rs Hs Hn Ha Hst; destruct (peek_run _ _ [BAR; RPAR; AMP; SEMI] Hs eq_refl) as (s1 & E1 & Hs1).
  - cbn [app] in *. rewrite !app_nil_r. destruct Hst as [->|Hst].
    + destruct (gettoken_nil _ Hs1) as (w & s2 & E2 & Hs2). exists s2. split; [|done].
      by destruct n; cbn [parseargs]; rewrite (bind_run _ _ _ _ _ E1); cbn [headin]; rewrite (bind_run _ _ _ _ _ E2).
    + exists s1. split; [|done]. by destruct n; cbn [parseargs]; rewrite (bind_run _ _ _ _ _ E1), Hst.
  - cbn [app length] in *. rewrite <- app_assoc in Hs1. rewrite length_app in Hn. destruct n as [|n]; [lia|]. cbn [parseargs]. rewrite (bind_run _ _ _ _ _ E1). cbn [headin].
    destruct (gettoken_word _ _ _ Hs1) as (s2 & E2 & Hs2). rewrite (bind_run _ _ _ _ _ E2). change (WORD =? 0) with false. rewrite Z.eqb_refl. cbn [negb].
    rewrite (proj2 (Nat.leb_gt _ _)) by (rewrite !length_app in *; cbn [length] in *; lia).
    destruct (redirs_complete _ _ Hr es s2 _ Hs2) as (s3 & E3 & Hs3).
    + pose proof (here_length _ _ Hs2) as Hl. rewrite length_app in Hl. lia.
    + apply (gargs_head _ _ _ _ _ Hg). by apply (headin_false _ _ _ Hst).
    + rewrite (bind_run _ _ _ _ _ E3). destruct (IH n s3 rest (argv ++ [w]) (rs ++ rs1) Hs3 ltac:(lia)) as (s4 & E4 & Hs4).
      * by rewrite <- app_assoc.
      * done.
      * exists s4. split; [|done]. rewrite E4. by rewrite <- !app_assoc.
Qed.

Lemma headin_one {W} c (ts : list (tok W)) : c ≠ GT → headin [c] ts = true → ∃ ts', ts = Sym c :: ts'.
Proof.
  intros Hc Hh. destruct ts as [|[d|w] ts]; [done| |done]. cbn [headin] in Hh. apply in_chars_elem, list_elem_of_singleton in Hh.
  destruct (Z.eqb_spec d PLUS); [done|]. subst d. by exists ts.
Qed.

Lemma parses_ret {A} (P : A → list (tok (nat * nat)) → list (tok (nat * nat)) → Prop) a s ts : here s ts → P a [] ts → parses P (Ret a s) ts.
Proof. intros Hs HP. left. by exists a, s, [], ts. Qed.

Lemma parses_bind {A B} (P : A → list (tok (nat * nat)) → list (tok (nat * nat)) → Prop) (Q : B → list (tok (nat * nat)) → list (tok (nat * nat)) → Prop)
    (m : M shell A) (k : A → M shell B) s ts :
  parses P (m s) ts →
  (∀ a s' u rest, ts = u ++ rest → here s' rest → P a u rest → parses (λ b u' rest', Q b (u ++ u') rest') (k a s') rest) →
  parses Q ((m ≫= k) s) ts.
Proof.
  intros [(a & s' & u & rest & E & Hs & -> & HP)|(msg & s' & E)] Hk; [|right; exists msg, s'; by apply bind_panic].
  rewrite (bind_run _ _ _ _ _ E). destruct (Hk a s' u rest eq_refl Hs HP) as [(b & s2 & u2 & rest2 & E2 & Hs2 & -> & HQ)|Hp]; [|by right].
  left. exists b, s2, (u ++ u2), rest2. by rewrite app_assoc.
Qed.

Lemma parses_mono {A} (P Q : A → list (tok (nat * nat)) → list (tok (nat * nat)) → Prop) o ts :
  parses P o ts → (∀ a u rest, P a u rest → Q a u rest) → parses Q o ts.
Proof. intros [(a & s' & u & rest & E & Hs & -> & HP)|Hp] HPQ; [|by right]. left. exists a, s', u, rest. eauto. Qed.

Lemma parses_cons {A} (Q : A → list (tok (nat * nat)) → list (tok (nat * nat)) → Prop) t o ts :
  parses (λ a u rest, Q a (t :: u) rest) o ts → parses Q o (t :: ts).
Proof. intros [(a & s' & u & rest & E & Hs & -> & HQ)|Hp]; [|by right]. left. by exists a, s', (t :: u), rest. Qed.

(** Is the next token the symbol [c]? If so it is read. *)
Lemma parses_sym {A} (Q : A → list (tok (nat * nat)) → list (tok (nat * nat)) → Prop) c (k k' : M shell A) s ts :
  here s ts → in_chars symbols c = true → c ≠ GT →
  (∀ s' ts', ts = Sym c :: ts' → here s' ts' → parses (λ a u rest, Q a (Sym c :: u) rest) (k s') ts') →
  (∀ s', here s' ts → parses Q (k' s') ts) →
  parses Q ((b ← peek es [c]; if (b : bool) then gettoken es;; k else k') s) ts.
Proof.
  intros Hs Hc Hg Hk Hk'. destruct (peek_run _ _ [c] Hs) as (s1 & E1 & Hs1); [by cbn [forallb]; rewrite Hc|]. rewrite (bind_run _ _ _ _ _ E1).
  destruct (headin [c] ts) eqn:Hh; [|by apply Hk']. destruct (headin_one c ts Hg Hh) as [ts' ->].
  destruct (gettoken_sym _ _ _ Hs1) as (w & s2 & E2 & Hs2 & _). rewrite (bind_run _ _ _ _ _ E2).
  apply parses_cons. by apply Hk.
Qed.

Lemma back_sound n : ∀ s ts c, here s ts → (length ts <= n)%nat →
  parses (λ d u rest, ∃ k, u = replicate k (Sym AMP) ∧ d = Nat.iter k Back c) (parseback n es c s) ts.
Proof.
  induction n as [|n IH]; intros s ts c Hs Hn; destruct (peek_run s ts [AMP] Hs eq_refl) as (s1 & E1 & Hs1);
    cbn [parseback]; rewrite (bind_run _ _ _ _ _ E1); destruct (headin [AMP] ts) eqn:Hh; try (left; exists c, s1, [], ts; split_and!; [done|done|done|by exists O]).
  all: destruct (headin_one AMP ts ltac:(done) Hh) as [ts' ->]; cbn [length] in Hn; try lia. clear Hh. rename ts' into ts.
  destruct (gettoken_sym _ _ _ Hs1) as (w & s2 & E2 & Hs2 & _). rewrite (bind_run _ _ _ _ _ E2).
  destruct (IH s2 ts (Back c) Hs2 ltac:(lia)) as [(d & s3 & u & rest & E3 & Hs3 & -> & k & -> & ->)|Hp]; [|by right].
  left. eexists _, s3, (Sym AMP :: replicate k (Sym AMP)), rest. split_and!; [exact E3|done|done|]. exists (S k). split; [done|]. by rewrite Nat.iter_succ_r.
Qed.

Lemma back_complete k : ∀ n s rest c, here s (replicate k (Sym AMP) ++ rest) → (k <= n)%nat → headin [AMP] rest = false →
  ∃ s', parseback n es c s = Ret (Nat.iter k Back c) s' ∧ here s' rest.
Proof.
  induction k as [|k IH]; intros n s rest c Hs Hk Hr; destruct (peek_run _ _ [AMP] Hs eq_refl) as (s1 & E1 & Hs1).
  - exists s1. split; [|done]. cbn [replicate app] in *. by destruct n; cbn [parseback]; rewrite (bind_run _ _ _ _ _ E1), Hr.
  - destruct n as [|n]; [lia|]. cbn [parseback]. rewrite (bind_run _ _ _ _ _ E1). cbn [replicate app] in *. change (headin [AMP] (Sym AMP :: _)) with true. cbv iota.
    destruct (gettoken_sym _ _ _ Hs1) as (w & s2 & E2 & Hs2 & _). rewrite (bind_run _ _ _ _ _ E2).
    destruct (IH n s2 rest (Back c) Hs2 ltac:(lia) Hr) as (s3 & E3 & Hs3). exists s3. split; [|done]. by rewrite E3, <- Nat.iter_succ_r.
Qed.

(** ** The recursive descent *)

Lemma descent_sound n :
  (∀ s ts, here s ts → (4 * length ts + 4 <= n)%nat → parses (λ c u rest, gline u c) (parseline n es s) ts) ∧
  (∀ s ts, here s ts → (4 * length ts + 3 <= n)%nat → parses (λ c u rest, gpipe u c) (parsepipe n es s) ts) ∧
  (∀ s ts, here s ts → (4 * length ts + 2 <= n)%nat → parses (λ c u rest, gexec u c) (parseexec n es s) ts) ∧
  (∀ s ts, here s ts → headin [LPAR] ts = true → (4 * length ts + 1 <= n)%nat → parses (λ c u rest, gexec u c) (parseblock n es s) ts).
Proof.
  induction n as [|n (IHl & IHp & IHe & IHb)]; [split_and!; lia|]. split_and!; intros s ts Hs.
  - intros Hn. cbn [parseline]. eapply parses_bind; [apply IHp; [done|lia]|]. intros c s1 u rest -> Hs1 Hg.
    eapply parses_bind; [apply (back_sound es _ _ _ Hs1 (here_length _ _ Hs1))|]. intros d s2 u2 rest2 -> Hs2 (k & -> & ->).
    apply parses_sym; [done|done|done| |].
    + intros s4 ts' -> Hs4. rewrite !length_app in Hn. cbn [length] in Hn. eapply parses_bind; [apply IHl; [done|lia]|]. intros d s5 u5 rest5 -> Hs5 Hg5.
      apply parses_ret; [done|]. rewrite app_nil_r. by constructor.
    + intros s3 Hs3. apply parses_ret; [done|]. rewrite app_nil_r. by constructor.
  - intros Hn. cbn [parsepipe]. eapply parses_bind; [apply IHe; [done|lia]|]. intros c s1 u rest -> Hs1 Hg. apply parses_sym; [done|done|done| |].
    + intros s4 ts' -> Hs4. rewrite !length_app in Hn. cbn [length] in Hn. eapply parses_bind; [apply IHp; [done|lia]|]. intros d s5 u5 rest5 -> Hs5 Hg5.
      apply parses_ret; [done|]. rewrite app_nil_r. by constructor.
    + intros s3 Hs3. apply parses_ret; [done|]. rewrite app_nil_r. by constructor.
  - intros Hn. cbn [parseexec]. destruct (peek_run _ _ [LPAR] Hs eq_refl) as (s1 & E1 & Hs1). rewrite (bind_run _ _ _ _ _ E1).
    destruct (headin [LPAR] ts) eqn:Hh; [apply IHb; [done|done|lia]|].
    eapply parses_bind; [apply (redirs_sound es _ _ Hs1 (here_length _ _ Hs1))|]. intros rs1 s3 u rest -> Hs3 [Hg _].
    eapply parses_mono; [apply (args_sound es _ _ [] rs1 Hs3 (here_length _ _ Hs3)); unfold MAXARGS; cbn; lia|].
    intros c u' rest' (ws & rs' & Hga & Hlen & ->). by constructor.
  - intros Hh Hn. cbn [parseblock]. destruct (peek_run _ _ [LPAR] Hs eq_refl) as (s1 & E1 & Hs1). rewrite (bind_run _ _ _ _ _ E1), Hh. cbn [negb].
    destruct (headin_one LPAR ts ltac:(done) Hh) as [ts' ->]. destruct (gettoken_sym _ _ _ Hs1) as (w & s2 & E2 & Hs2 & _). rewrite (bind_run _ _ _ _ _ E2).
    cbn [length] in Hn. apply parses_cons. eapply parses_bind; [apply IHl; [done|lia]|]. intros c s3 u rest -> Hs3 Hg.
    destruct (peek_run _ _ [RPAR] Hs3 eq_refl) as (s4 & E4 & Hs4). rewrite (bind_run _ _ _ _ _ E4).
    destruct (headin [RPAR] rest) eqn:Hh'; [|right; by eexists _, _]. cbn [negb]. destruct (headin_one RPAR rest ltac:(done) Hh') as [ts' ->].
    destruct (gettoken_sym _ _ _ Hs4) as (w5 & s5 & E5 & Hs5 & _). rewrite (bind_run _ _ _ _ _ E5). apply parses_cons.
    eapply parses_bind; [apply (redirs_sound es _ _ Hs5 (here_length _ _ Hs5))|]. intros rs1 s6 u' rest' -> Hs6 [Hg6 _].
    apply parses_ret; [done|]. rewrite app_nil_r. by constructor.
Qed.

(** The symbol [c], looked at and read; something else, looked at. *)
Lemma sym_read {A} c (k k' : M shell A) s ts :
  here s (Sym c :: ts) → in_chars symbols c = true → c ≠ GT →
  ∃ s', here s' ts ∧ (b ← peek es [c]; if (b : bool) then gettoken es;; k else k') s = k s'.
Proof.
  intros Hs Hc Hg. destruct (peek_run _ _ [c] Hs) as (s1 & E1 & Hs1); [by cbn [forallb]; rewrite Hc|].
  destruct (gettoken_sym _ _ _ Hs1) as (w & s2 & E2 & Hs2 & _). exists s2. split; [done|]. rewrite (bind_run _ _ _ _ _ E1).
  assert (Hh : headin [c] (Sym c :: ts) = true).
  { cbn [headin]. apply in_chars_elem. destruct (Z.eqb_spec c PLUS) as [->|_]; [done|by left]. }
  by rewrite Hh, (bind_run _ _ _ _ _ E2).
Qed.

Lemma sym_skip {A} c set (k k' : M shell A) s ts :
  here s ts → in_chars symbols c = true → stopat set ts → in_chars set c = false →
  ∃ s', here s' ts ∧ (b ← peek es [c]; if (b : bool) then k else k') s = k' s'.
Proof.
  intros Hs Hc Hst Hn. destruct (peek_run _ _ [c] Hs) as (s1 & E1 & Hs1); [by cbn [forallb]; rewrite Hc|].
  exists s1. split; [done|]. rewrite (bind_run _ _ _ _ _ E1). rewrite (headin_false set [c]); [done|done|].
  apply forallb_forall. intros x Hx. cbn. destruct (Z.eqb_spec x c) as [->|?]; [|done].
  apply list_elem_of_In, in_chars_elem in Hx. by rewrite Hx in Hn.
Qed.

Lemma stopat_mono {W} set set' (rest : list (tok W)) : stopat set rest → forallb (in_chars set') set = true → stopat set' rest.
Proof.
  intros [->|Hh] Hf; [by left|]. right. destruct rest as [|[c|w] rest]; [done| |done]. cbn [headin] in *. rewrite forallb_forall in Hf.
  by apply in_chars_elem, list_elem_of_In, Hf in Hh.
Qed.

Definition completes (m : nat → nat → M shell (cmd (nat * nat))) (set : list Z) (k : nat) (u : list (tok (nat * nat))) (c : cmd (nat * nat)) : Prop :=
  ∀ n s rest, here s (u ++ rest) → (4 * length u + k <= n)%nat → stopat set rest → ∃ s', m n es s = Ret c s' ∧ here s' rest.

Lemma block_complete tl c tr rs :
  completes parseline [RPAR] 4 tl c → gredirs tr rs →
  completes parseexec [BAR; RPAR; AMP; SEMI] 2 (Sym LPAR :: tl ++ Sym RPAR :: tr) (wrap c rs).
Proof.
  intros IH Hr n s rest Hs Hn Hst. cbn [length] in Hn. rewrite length_app in Hn. cbn [length] in Hn. destruct n as [|[|n]]; [lia..|].
  cbn [app] in Hs. rewrite <- app_assoc in Hs. cbn [app] in Hs. cbn [parseexec parseblock].
  destruct (peek_run _ _ [LPAR] Hs eq_refl) as (s1 & E1 & Hs1). rewrite (bind_run _ _ _ _ _ E1). change (headin [LPAR] (Sym LPAR :: _)) with true. cbv iota.
  destruct (peek_run _ _ [LPAR] Hs1 eq_refl) as (s2 & E2 & Hs2). rewrite (bind_run _ _ _ _ _ E2). change (headin [LPAR] (Sym LPAR :: _)) with true. cbn [negb].
  destruct (gettoken_sym _ _ _ Hs2) as (w & s3 & E3 & Hs3 & _). rewrite (bind_run _ _ _ _ _ E3).
  destruct (IH n s3 _ Hs3 ltac:(lia) ltac:(by right)) as (s4 & E4 & Hs4). rewrite (bind_run _ _ _ _ _ E4).
  destruct (peek_run _ _ [RPAR] Hs4 eq_refl) as (s5 & E5 & Hs5). rewrite (bind_run _ _ _ _ _ E5). change (headin [RPAR] (Sym RPAR :: _)) with true. cbn [negb].
  destruct (gettoken_sym _ _ _ Hs5) as (w' & s6 & E6 & Hs6 & _). rewrite (bind_run _ _ _ _ _ E6).
  destruct (redirs_complete _ _ Hr es s6 _ Hs6) as (s7 & E7 & Hs7).
  - pose proof (here_length _ _ Hs6) as Hl. rewrite length_app in Hl. lia.
  - by apply (headin_false _ _ _ Hst).
  - rewrite (bind_run _ _ _ _ _ E7). by exists s7.
Qed.

Lemma exec_complete tr rs ta ws rs' :
  gredirs tr rs → gargs ta ws rs' → (length ws < MAXARGS)%nat →
  completes parseexec [BAR; RPAR; AMP; SEMI] 2 (tr ++ ta) (wrap (Exec ws) (rs ++ rs')).
Proof.
  intros Hr Ha Hl n s rest Hs Hn Hst. rewrite <- app_assoc in Hs. destruct n as [|n]; [lia|]. cbn [parseexec].
  destruct (peek_run _ _ [LPAR] Hs eq_refl) as (s1 & E1 & Hs1). rewrite (bind_run _ _ _ _ _ E1).
  assert (Hh : ∀ set, in_chars set LT = false → in_chars set GT = false → headin set rest = false → headin set (tr ++ ta ++ rest) = false).
  { intros set H1 H2 H3. apply (gredirs_head _ _ rs); [done|done|done|]. by apply (gargs_head _ _ ws rs'). }
  rewrite Hh by (done || by apply (headin_false _ _ _ Hst)). pose proof (here_length _ _ Hs1) as Hlen. rewrite !length_app in Hlen.
  destruct (redirs_complete _ _ Hr es s1 _ Hs1) as (s2 & E2 & Hs2); [lia|apply (gargs_head _ _ ws rs'); [done|by apply (headin_false _ _ _ Hst)]|].
  rewrite (bind_run _ _ _ _ _ E2). destruct (args_complete _ _ _ Ha es s2 rest [] rs Hs2) as (s3 & E3 & Hs3); [lia|done|done|]. by exists s3.
Qed.

Lemma descent_complete :
  (∀ u c, gline u c → completes parseline [RPAR] 4 u c) ∧
  (∀ u c, gpipe u c → completes parsepipe [RPAR; AMP; SEMI] 3 u c) ∧
  (∀ u c, gexec u c → completes parseexec [BAR; RPAR; AMP; SEMI] 2 u c).
Proof.
  apply grammar_ind.
  - intros tp c k _ IH n s rest Hs Hn Hst. rewrite <- app_assoc in Hs. rewrite length_app, length_replicate in Hn. destruct n as [|n]; [lia|]. cbn [parseline].
    destruct (IH n s _ Hs ltac:(lia)) as (s1 & E1 & Hs1).
    { destruct k; [by apply (stopat_mono _ _ _ Hst)|by right]. }
    rewrite (bind_run _ _ _ _ _ E1). pose proof (here_length _ _ Hs1) as Hl. rewrite length_app, length_replicate in Hl.
    destruct (back_complete k es s1 rest c Hs1 ltac:(lia)) as (s2 & E2 & Hs2); [by apply (headin_false _ _ _ Hst)|]. rewrite (bind_run _ _ _ _ _ E2).
    destruct (sym_skip SEMI [RPAR] (gettoken es;; r ← parseline n es; mret (List (Nat.iter k Back c) r)) (mret (Nat.iter k Back c)) s2 rest) as (s3 & Hs3 & ->); [done..|]. by exists s3.
  - intros tp c k ts d _ IH _ IHl n s rest Hs Hn Hst. rewrite <- !app_assoc in Hs. rewrite !length_app, length_replicate in Hn. cbn [length app] in Hn, Hs.
    destruct n as [|n]; [lia|]. cbn [parseline]. destruct (IH n s _ Hs ltac:(lia)) as (s1 & E1 & Hs1); [by destruct k; right|].
    rewrite (bind_run _ _ _ _ _ E1). pose proof (here_length _ _ Hs1) as Hl. rewrite length_app, length_replicate in Hl.
    destruct (back_complete k es s1 _ c Hs1 ltac:(lia) eq_refl) as (s2 & E2 & Hs2). rewrite (bind_run _ _ _ _ _ E2).
    destruct (sym_read SEMI (r ← parseline n es; mret (List (Nat.iter k Back c) r)) (mret (Nat.iter k Back c)) s2 _ Hs2) as (s3 & Hs3 & ->); [done..|].
    destruct (IHl n s3 rest Hs3 ltac:(lia) Hst) as (s4 & E4 & Hs4). rewrite (bind_run _ _ _ _ _ E4). by exists s4.
  - intros te c _ IH n s rest Hs Hn Hst. destruct n as [|n]; [lia|]. cbn [parsepipe]. destruct (IH n s rest Hs ltac:(lia)) as (s1 & E1 & Hs1); [by apply (stopat_mono _ _ _ Hst)|].
    rewrite (bind_run _ _ _ _ _ E1). destruct (sym_skip BAR [RPAR; AMP; SEMI] (gettoken es;; r ← parsepipe n es; mret (Pipe c r)) (mret c) s1 rest) as (s2 & Hs2 & ->); [done..|]. by exists s2.
  - intros te c tp d _ IH _ IHp n s rest Hs Hn Hst. rewrite <- app_assoc in Hs. rewrite length_app in Hn. cbn [length app] in Hn, Hs.
    destruct n as [|n]; [lia|]. cbn [parsepipe]. destruct (IH n s _ Hs ltac:(lia)) as (s1 & E1 & Hs1); [by right|]. rewrite (bind_run _ _ _ _ _ E1).
    destruct (sym_read BAR (r ← parsepipe n es; mret (Pipe c r)) (mret c) s1 _ Hs1) as (s2 & Hs2 & ->); [done..|].
    destruct (IHp n s2 rest Hs2 ltac:(lia) Hst) as (s3 & E3 & Hs3). rewrite (bind_run _ _ _ _ _ E3). by exists s3.
  - intros tl c tr rs _ IH Hr. by apply block_complete.
  - intros tr rs ta ws rs' Hr Ha Hl. by apply exec_complete.
Qed.

(** ** Strings *)

Definition slice (w : nat * nat) : list Z := take (w.2 - w.1) (drop w.1 L).
End Parser.

Definition tmap {W V} (f : W → V) (t : tok W) : tok V := match t with Sym c => Sym c | Word w => Word (f w) end.

Definition rmap {W V} (f : W → V) (r : redir W) : redir V := mkRedir (f (rfile r)) (rmode r) (rfd r).

Fixpoint cmap {W V} (f : W → V) (c : cmd W) : cmd V :=
  match c with
  | Exec argv => Exec (f <$> argv)
  | Redir c r => Redir (cmap f c) (rmap f r)
  | Pipe l r => Pipe (cmap f l) (cmap f r)
  | List l r => List (cmap f l) (cmap f r)
  | Back c => Back (cmap f c)
  end.

Section Map.
Context {W V : Type} (f : W → V).

Lemma cmap_wrap rs c : cmap f (wrap c rs) = wrap (cmap f c) (rmap f <$> rs).
Proof. revert c. induction rs as [|r rs IH]; intros c; [done|]. unfold wrap in *. cbn [foldl fmap list_fmap]. by rewrite IH. Qed.

Lemma cmap_back k c : cmap f (Nat.iter k Back c) = Nat.iter k Back (cmap f c).
Proof. induction k as [|k IH]; [done|]. rewrite !Nat.iter_succ. cbn [cmap]. by rewrite IH. Qed.

Lemma gredirs_map ts rs : gredirs ts rs → gredirs (tmap f <$> ts) (rmap f <$> rs).
Proof. induction 1; cbn; by constructor. Qed.

Lemma gargs_map ts ws rs : gargs ts ws rs → gargs (tmap f <$> ts) (f <$> ws) (rmap f <$> rs).
Proof. induction 1 as [|w tr rs ts ws rs' Hr Ha IH]; [constructor|]. cbn. rewrite !fmap_app. constructor; [by apply gredirs_map|done]. Qed.

Lemma grammar_map :
  (∀ ts c, gline ts c → gline (tmap f <$> ts) (cmap f c)) ∧
  (∀ ts c, gpipe ts c → gpipe (tmap f <$> ts) (cmap f c)) ∧
  (∀ ts c, gexec ts c → gexec (tmap f <$> ts) (cmap f c)).
Proof.
  apply grammar_ind; intros; cbn [fmap list_fmap cmap tmap]; rewrite ?fmap_app, ?fmap_replicate, ?cmap_wrap, ?fmap_app; cbn [fmap list_fmap tmap cmap].
  - rewrite cmap_back. by constructor.
  - rewrite cmap_back. cbn. by constructor.
  - by constructor.
  - by constructor.
  - constructor; [done|by apply gredirs_map].
  - constructor; [by apply gredirs_map|by apply gargs_map|by rewrite length_fmap].
Qed.

Lemma tmap_sym u c us : tmap f <$> u = Sym c :: us → ∃ u', u = Sym c :: u' ∧ tmap f <$> u' = us.
Proof. destruct u as [|[d|w] u]; cbn; [done| |done]. intros [= -> <-]. by exists u. Qed.

Lemma tmap_word u v us : tmap f <$> u = Word v :: us → ∃ w u', u = Word w :: u' ∧ f w = v ∧ tmap f <$> u' = us.
Proof. destruct u as [|[d|w] u]; cbn; [done|done|]. intros [= <- <-]. by exists w, u. Qed.

Lemma tmap_back k u : tmap f <$> u = replicate k (Sym AMP) → u = replicate k (Sym AMP).
Proof. revert u. induction k as [|k IH]; intros u; [by intros ->%fmap_nil_inv|]. intros (u' & -> & Hu%IH)%tmap_sym. cbn. by rewrite Hu. Qed.

Lemma gredirs_unmap ts rs : gredirs ts rs → ∀ u, tmap f <$> u = ts → ∃ rs', gredirs u rs' ∧ rmap f <$> rs' = rs.
Proof.
  induction 1 as [|v ts rs Hg IH|c v ts rs Hc Hg IH]; intros u.
  - intros ->%fmap_nil_inv. by exists []; split; [constructor|].
  - intros (u1 & -> & (w & u2 & -> & <- & (rs' & Hr & <-)%IH)%tmap_word)%tmap_sym. eexists. split; [by apply gr_in|done].
  - intros (u1 & -> & (w & u2 & -> & <- & (rs' & Hr & <-)%IH)%tmap_word)%tmap_sym. eexists. split; [by apply gr_out|done].
Qed.

Lemma gargs_unmap ts ws rs : gargs ts ws rs → ∀ u, tmap f <$> u = ts → ∃ ws' rs', gargs u ws' rs' ∧ f <$> ws' = ws ∧ rmap f <$> rs' = rs.
Proof.
  induction 1 as [|v tr rs ts ws rs' Hr Ha IH]; intros u.
  - intros ->%fmap_nil_inv. by exists [], []; split_and!; [constructor|..].
  - intros (w & u1 & -> & <- & (u2 & u3 & Hu2 & Hu3 & ->)%fmap_app_inv)%tmap_word.
    destruct (gredirs_unmap _ _ Hr u2 (eq_sym Hu2)) as (r2 & Hr2 & <-). destruct (IH u3 (eq_sym Hu3)) as (w3 & r3 & Ha3 & <- & <-).
    exists (w :: w3), (r2 ++ r3). rewrite fmap_app. by split_and!; [constructor|..].
Qed.

Lemma grammar_unmap :
  (∀ ts c, gline ts c → ∀ u, tmap f <$> u = ts → ∃ d, gline u d ∧ cmap f d = c) ∧
  (∀ ts c, gpipe ts c → ∀ u, tmap f <$> u = ts → ∃ d, gpipe u d ∧ cmap f d = c) ∧
  (∀ ts c, gexec ts c → ∀ u, tmap f <$> u = ts → ∃ d, gexec u d ∧ cmap f d = c).
Proof.
  apply grammar_ind.
  - intros tp c k _ IH u (u1 & u2 & Hu1 & Hu2 & ->)%fmap_app_inv. destruct (IH u1 (eq_sym Hu1)) as (d & Hd & <-).
    rewrite (tmap_back k u2 (eq_sym Hu2)). exists (Nat.iter k Back d). split; [by constructor|apply cmap_back].
  - intros tp c k ts d _ IH _ IHl u (u1 & u2 & Hu1 & Hu2 & ->)%fmap_app_inv. destruct (IH u1 (eq_sym Hu1)) as (c1 & Hc1 & <-).
    symmetry in Hu2. apply fmap_app_inv in Hu2 as (u3 & u4 & Hu3 & Hu4 & ->). rewrite (tmap_back k u3 (eq_sym Hu3)).
    symmetry in Hu4. apply tmap_sym in Hu4 as (u5 & -> & (d1 & Hd1 & <-)%IHl).
    exists (List (Nat.iter k Back c1) d1). split; [by constructor|]. cbn [cmap]. by rewrite cmap_back.
  - intros te c _ IH u (d & Hd & <-)%IH. exists d. split; [by constructor|done].
  - intros te c tp d _ IH _ IHp u (u1 & u2 & Hu1 & Hu2 & ->)%fmap_app_inv. destruct (IH u1 (eq_sym Hu1)) as (c1 & Hc1 & <-).
    symmetry in Hu2. apply tmap_sym in Hu2 as (u3 & -> & (d1 & Hd1 & <-)%IHp). exists (Pipe c1 d1). split; [by constructor|done].
  - intros tl c tr rs _ IH Hr u (u1 & -> & (u2 & u3 & Hu2 & Hu3 & ->)%fmap_app_inv)%tmap_sym. destruct (IH u2 (eq_sym Hu2)) as (c1 & Hc1 & <-).
    symmetry in Hu3. apply tmap_sym in Hu3 as (u4 & -> & (r1 & Hr1 & <-)%(gredirs_unmap _ _ Hr)).
    exists (wrap c1 r1). split; [by constructor|apply cmap_wrap].
  - intros tr rs ta ws rs' Hr Ha Hl u (u1 & u2 & Hu1 & Hu2 & ->)%fmap_app_inv.
    destruct (gredirs_unmap _ _ Hr u1 (eq_sym Hu1)) as (r1 & Hr1 & <-). destruct (gargs_unmap _ _ _ Ha u2 (eq_sym Hu2)) as (w2 & r2 & Ha2 & <- & <-).
    exists (wrap (Exec w2) (r1 ++ r2)). split; [constructor; [done|done|by rewrite length_fmap in Hl]|]. rewrite cmap_wrap, fmap_app. done.
Qed.
End Map.

(** ** Words and their ends *)

Section Words.
Context (L J : list Z) (HL : 0 ∉ L).
#[local] Abbreviation es := (length L).

(** A word of the line: nothing but word characters, and none behind it. *)
Definition word_ok (w : nat * nat) : Prop :=
  (w.1 <= w.2 <= es)%nat ∧ (∀ i c, (w.1 <= i < w.2)%nat → L !! i = Some c → is_word c = true) ∧
  (∀ c, L !! w.2 = Some c → is_word c = false).

Lemma word_at q c r : drop q L = c :: r → word_ok (q, (q + span is_word (c :: r))%nat) ∧ slice L (q, (q + span is_word (c :: r))%nat) = take (span is_word (c :: r)) (c :: r).
Proof.
  intros Hd. destruct (drop_cons_S _ _ _ _ Hd) as (_ & _ & Hlt). set (k := span is_word (c :: r)).
  assert (Hk : (k <= es - q)%nat) by (rewrite <- (length_drop L q), Hd; apply span_le).
  split.
  - split_and!; cbn [fst snd]; [lia|lia| |].
    + intros i x Hi Hx. apply (span_all is_word (c :: r) (i - q)); [fold k; lia|]. rewrite <- Hd, lookup_drop. by replace (q + (i - q))%nat with i by lia.
    + intros x Hx. assert (Hdk : drop k (c :: r) = x :: drop (S (q + k)) L).
      { rewrite <- Hd, drop_drop. by apply drop_S. }
      by eapply span_stop.
  - unfold slice. cbn [fst snd]. by replace (q + k - q)%nat with k by lia; rewrite Hd.
Qed.

(** Every position has its tokens; their texts are those of the lexer. *)
Lemma toks_exist n : ∀ p, (p <= es)%nat → (es - p <= n)%nat →
  ∃ ts, toks L p ts ∧ tmap (slice L) <$> ts = lex n (drop p L) ∧ (∀ w, Word w ∈ ts → word_ok w).
Proof.
  induction n as [|n IH]; intros p Hp Hn; pose proof (ws_end_le L p Hp) as Hq.
  - exists []. split_and!; [|done|by intros w ?%elem_of_nil]. apply toks_nil. apply drop_ge. lia.
  - cbn [lex]. rewrite <- (ws_end_drop L p). destruct (drop (ws_end L p) L) as [|c r] eqn:Hd.
    { exists []. split_and!; [by apply toks_nil|done|by intros w ?%elem_of_nil]. }
    destruct (drop_cons_S _ _ _ _ Hd) as (_ & Hd1 & Hlt). destruct (is_word c) eqn:Hc.
    + destruct (word_at _ _ _ Hd) as [Hok Hsl]. set (e := (ws_end L p + span is_word (c :: r))%nat) in *.
      assert (He : (ws_end L p < e <= es)%nat).
      { destruct Hok as ((_ & ?) & _). cbn [fst snd] in *. split; [|done]. unfold e. cbn [span]. rewrite Hc. lia. }
      destruct (IH e ltac:(lia) ltac:(lia)) as (ts & Ht & Hl & Hw). exists (Word (ws_end L p, e) :: ts). split_and!.
      * by apply toks_word.
      * rewrite fmap_cons, Hl. cbn [tmap]. rewrite Hsl. unfold e. by rewrite <- drop_drop, Hd.
      * intros w [[= ->]|?]%elem_of_cons; [done|by apply Hw].
    + assert (Hsym : (c = GT → ∀ r', r ≠ GT :: r') → ∃ ts, toks L p ts ∧ tmap (slice L) <$> ts = Sym c :: lex n r ∧ (∀ w, Word w ∈ ts → word_ok w)).
      { intros Hg. destruct (IH (ws_end L p + 1)%nat ltac:(lia) ltac:(lia)) as (ts & Ht & Hl & Hw). exists (Sym c :: ts). split_and!.
        - by eapply toks_sym.
        - rewrite fmap_cons, Hl. cbn [tmap]. by replace (ws_end L p + 1)%nat with (S (ws_end L p)) by lia; rewrite Hd1.
        - intros w [?|?]%elem_of_cons; [done|by apply Hw]. }
      destruct (Z.eqb_spec c GT) as [->|Hne]; cbn [andb]; [|by apply Hsym].
      destruct r as [|c' r']; [by apply Hsym|]. destruct (Z.eqb_spec c' GT) as [->|Hne]; [|by apply Hsym; intros _ r'' [= ? ?]].
      destruct (drop_cons_S _ _ _ _ Hd1) as (_ & Hd2 & Hlt2). destruct (IH (ws_end L p + 2)%nat ltac:(lia) ltac:(lia)) as (ts & Ht & Hl & Hw). exists (Sym PLUS :: ts). split_and!.
      * by eapply toks_app.
      * rewrite fmap_cons, Hl. cbn [tmap drop]. by replace (ws_end L p + 2)%nat with (S (S (ws_end L p))) by lia; rewrite Hd2.
      * intros w [?|?]%elem_of_cons; [done|by apply Hw].
Qed.

(** The words of a command. *)
Fixpoint cwords {W} (c : cmd W) : list W :=
  match c with
  | Exec argv => argv
  | Redir c r => cwords c ++ [rfile r]
  | Pipe l r | List l r => cwords l ++ cwords r
  | Back c => cwords c
  end.

Definition nuls (ws : list (nat * nat)) (l : list Z) : list Z := foldl (λ l w, <[w.2 := 0]> l) l ws.

Lemma nuls_app ws1 ws2 l : nuls (ws1 ++ ws2) l = nuls ws2 (nuls ws1 l).
Proof. apply foldl_app. Qed.

Lemma nuls_length ws l : length (nuls ws l) = length l.
Proof. revert l. induction ws as [|w ws IH]; intros l; [done|]. etrans; [apply IH|apply length_insert]. Qed.

Lemma nuls_other ws l i : i ∉ ws.*2 → nuls ws l !! i = l !! i.
Proof.
  revert l. induction ws as [|w ws IH]; intros l Hi; [done|]. rewrite fmap_cons, not_elem_of_cons in Hi. destruct Hi as [Hw Hi].
  change (nuls ws (<[w.2 := 0]> l) !! i = l !! i). rewrite IH by done. by apply list_lookup_insert_ne.
Qed.

Lemma nuls_at ws l i : i ∈ ws.*2 → (i < length l)%nat → nuls ws l !! i = Some 0.
Proof.
  revert l. induction ws as [|v ws IH]; intros l; [by intros ?%elem_of_nil|]. rewrite fmap_cons. intros Hw Hl.
  destruct (decide (i ∈ ws.*2)) as [Hin|Hn]; [apply IH; [done|by rewrite length_insert]|].
  apply elem_of_cons in Hw as [->|?]; [|done]. change (nuls ws (<[v.2 := 0]> l) !! v.2 = Some 0). rewrite nuls_other by done. by apply list_lookup_insert_eq.
Qed.

Lemma nulterminate_run c s :
  (∀ w, w ∈ cwords c → (w.2 < length (line s))%nat) → nulterminate c s = Ret tt (s <| line := nuls (cwords c) (line s) |>).
Proof.
  assert (Hset : ∀ s p, (p < length (line s))%nat → set_nul p s = Ret tt (s <| line := <[p := 0]> (line s) |>)).
  { intros s' p Hp. unfold set_nul. run. by rewrite (proj2 (Nat.ltb_lt _ _) Hp). }
  revert s. induction c as [argv|c IH r|l IHl r IHr|l IHl r IHr|c IH]; intros s Hw; cbn [nulterminate cwords] in *.
  - revert s Hw. induction argv as [|w argv IH]; intros s Hw; [by destruct s|]. cbn [for_each].
    rewrite (bind_run _ _ _ _ _ (Hset s w.2 ltac:(apply Hw; by left))). rewrite IH; [done|].
    intros v Hv. sst. rewrite length_insert. apply Hw. by right.
  - rewrite (bind_run _ _ _ _ _ (IH s ltac:(intros v Hv; apply Hw; apply elem_of_app; by left))).
    rewrite Hset; [by rewrite nuls_app|]. sst. rewrite nuls_length. apply Hw. apply elem_of_app. right. by left.
  - rewrite (bind_run _ _ _ _ _ (IHl s ltac:(intros v Hv; apply Hw; apply elem_of_app; by left))).
    rewrite IHr; [by sst; rewrite nuls_app|]. intros v Hv. sst. rewrite nuls_length. apply Hw. apply elem_of_app. by right.
  - rewrite (bind_run _ _ _ _ _ (IHl s ltac:(intros v Hv; apply Hw; apply elem_of_app; by left))).
    rewrite IHr; [by sst; rewrite nuls_app|]. intros v Hv. sst. rewrite nuls_length. apply Hw. apply elem_of_app. by right.
  - by apply IH.
Qed.

(** The C string at the beginning of a word, once its end holds a NUL. *)
Definition cstring (b : list Z) (w : nat * nat) : list Z := take (nul_from (drop w.1 b)) (drop w.1 b).

Lemma nul_from_app l r : 0 ∉ l → nul_from (l ++ 0 :: r) = length l.
Proof.
  induction l as [|c l IH]; [done|]. rewrite not_elem_of_cons. intros [Hc Hl]. cbn. rewrite (proj2 (Z.eqb_neq c 0)) by done. by rewrite IH.
Qed.

Lemma cstring_nuls ws w :
  (∀ v, v ∈ ws → word_ok v) → w ∈ ws → cstring (nuls ws (L ++ 0 :: J)) w = slice L w.
Proof.
  intros Hok Hw. destruct (Hok w Hw) as (Hr & Hin & _). set (b := nuls ws (L ++ 0 :: J)).
  assert (Hlen : (w.2 < length (L ++ 0%Z :: J))%nat) by (rewrite length_app; cbn; lia).
  assert (Hb : drop w.1 b = slice L w ++ 0 :: drop (S w.2) b).
  { rewrite <- (take_drop (w.2 - w.1) (drop w.1 b)). f_equal.
    - apply list_eq. intros i. unfold slice. destruct (decide (i < w.2 - w.1)%nat) as [Hi|Hi].
      + rewrite !lookup_take_lt, !lookup_drop by done. destruct (lookup_lt_is_Some_2 L (w.1 + i)%nat ltac:(lia)) as [c Hc].
        unfold b. rewrite nuls_other; [by rewrite lookup_app_l by lia|].
        intros (v & Heq & Hv)%list_elem_of_fmap. destruct (Hok v Hv) as (_ & _ & Hend). rewrite Heq in Hc.
        pose proof (Hend c Hc) as Hf. rewrite <- Heq in Hc. rewrite (Hin (w.1 + i)%nat c ltac:(lia) Hc) in Hf. done.
      + rewrite !lookup_take_ge by lia. done.
    - rewrite drop_drop. replace (w.1 + (w.2 - w.1))%nat with w.2 by lia. apply drop_S. apply nuls_at; [by apply list_elem_of_fmap_2|done]. }
  unfold cstring. rewrite Hb, nul_from_app; [by rewrite take_app_length|].
  intros H0. apply HL. unfold slice in H0. apply elem_of_take in H0 as (i & H0 & _). rewrite lookup_drop in H0. by eapply list_elem_of_lookup_2.
Qed.
End Words.

Section WordsOf.
Context {W V : Type}.
Implicit Types (c : cmd W).

Lemma cmap_ext (f g : W → V) c : (∀ w, w ∈ cwords c → f w = g w) → cmap f c = cmap g c.
Proof.
  induction c as [argv|c IH r|l IHl r IHr|l IHl r IHr|c IH]; cbn [cmap cwords]; intros Hw; f_equal; try (apply IH || apply IHl || apply IHr); try done;
    try (intros w Hin; apply Hw, elem_of_app; tauto).
  - apply list_fmap_ext. intros i w Hi. apply Hw. by eapply list_elem_of_lookup_2.
  - unfold rmap. f_equal. apply Hw, elem_of_app. right. by left.
Qed.

Lemma cwords_wrap c rs : cwords (wrap c rs) = cwords c ++ (rfile <$> rs).
Proof.
  revert c. induction rs as [|r rs IH]; intros c; [by rewrite app_nil_r|]. change (wrap c (r :: rs)) with (wrap (Redir c r) rs). rewrite IH. cbn [cwords fmap list_fmap].
  by rewrite <- app_assoc.
Qed.

Lemma cwords_back k c : cwords (Nat.iter k Back c) = cwords c.
Proof. induction k as [|k IH]; [done|]. by rewrite Nat.iter_succ. Qed.

Lemma gredirs_words ts rs : gredirs ts rs → ∀ w : W, w ∈ rfile <$> rs → Word w ∈ ts.
Proof.
  induction 1 as [|v ts rs Hg IH|d v ts rs Hd Hg IH]; intros w; [by intros ?%elem_of_nil|..]; rewrite fmap_cons, !elem_of_cons; cbn [rfile]; intros [->|?]; auto.
Qed.

Lemma gargs_words ts ws rs : gargs ts ws rs → ∀ w : W, w ∈ ws ∨ w ∈ rfile <$> rs → Word w ∈ ts.
Proof.
  induction 1 as [|v tr rs ts ws rs' Hr Ha IH]; intros w; [by intros [?%elem_of_nil|?%elem_of_nil]|].
  rewrite fmap_app, !elem_of_cons, !elem_of_app. intros [[->|?]|[?|?]]; [by left|..]; right; [right; auto|left; by eapply gredirs_words|right; auto].
Qed.

Lemma grammar_words :
  (∀ ts c, gline ts c → ∀ w, w ∈ cwords c → Word w ∈ ts) ∧
  (∀ ts c, gpipe ts c → ∀ w, w ∈ cwords c → Word w ∈ ts) ∧
  (∀ ts c, gexec ts c → ∀ w, w ∈ cwords c → Word w ∈ ts).
Proof.
  apply grammar_ind; intros *; cbn [cwords]; rewrite ?cwords_back, ?cwords_wrap.
  - intros _ IH w Hw. apply elem_of_app. left. auto.
  - intros _ IH _ IHl w. rewrite !elem_of_app, elem_of_cons. intros [?|?]; auto.
  - auto.
  - intros _ IH _ IHp w. rewrite !elem_of_app, elem_of_cons. intros [?|?]; auto.
  - intros _ IH Hr w. rewrite elem_of_cons, !elem_of_app, elem_of_cons. intros [?|?]; [auto|]. right; right; right. by eapply gredirs_words.
  - intros Hr Ha _ w. cbn [cwords]. rewrite fmap_app, !elem_of_app. intros [?|[?|?]]; [right; eapply gargs_words; eauto|left; by eapply gredirs_words|right; eapply gargs_words; eauto].
Qed.
End WordsOf.

(** ** The whole parser *)

Section Parsecmd.
Context (L J : list Z) (HL : 0 ∉ L).
#[local] Abbreviation es := (length L).

(** The end of parsecmd, once parseline has read [u] and left [rest]. *)
Lemma leftovers_run s rest (c : cmd (nat * nat)) l :
  here L J s rest →
  ∃ s1, on_line L J s1 ∧ (peek es [];; p ← gets ps;
    if negb (p =? es)%nat then modify (λ st, st <| err ::= λ e, e ++ chars "leftovers: " ++ take (es - p) (drop p l) ++ [10] |>);; panic "syntax"
    else nulterminate c;; mret c) s =
  match rest with
  | [] => (nulterminate c;; mret c) s1
  | _ => Panic "syntax" s1
  end.
Proof.
  intros (Hs & Hp & Ht). set (s1 := s <| ps := ws_end L (ps s) |>).
  assert (Hs1 : on_line L J s1) by exact Hs.
  assert (E : ∃ b, peek es [] s = Ret b s1).
  { unfold peek. run. rewrite (bind_run _ _ _ _ _ (skip_run L J HL s _ Hs Hp)). run. fold s1. pose proof (ws_end_le L _ Hp).
    destruct (drop_case L HL (ws_end L (ps s)) ltac:(lia)) as [[Heq _]|(c' & r & Hd & _)].
    - rewrite Heq, (bind_run _ _ _ _ _ (char_end L J _ Hs1)). by eexists.
    - rewrite (bind_run _ _ _ _ _ (char_in L J _ _ _ _ Hs1 Hd)). by eexists. }
  destruct E as [b E]. rewrite (bind_run _ _ _ _ _ E). run. change (ps s1) with (ws_end L (ps s)). pose proof (ws_end_le L _ Hp) as Hle.
  destruct rest as [|t rest].
  - exists s1. split; [exact Hs|]. inversion Ht as [p Hd| | |]; subst. apply (f_equal length) in Hd. rewrite length_drop in Hd. cbn in Hd.
    by rewrite (proj2 (Nat.eqb_eq _ _)) by lia.
  - assert (Hne : (ws_end L (ps s) < es)%nat).
    { inversion Ht as [|? ? ? ? q e Hd|? ? ? q Hd|? ? ? ? q Hd]; subst; by destruct (drop_cons_S _ _ _ _ Hd) as (_ & _ & ?). }
    rewrite (proj2 (Nat.eqb_neq _ _)) by lia. cbn [negb]. run. eexists. split; [|reflexivity]. exact Hs.
Qed.

Lemma parsecmd_here s : on_line L J s → ∃ ts, here L J (s <| ps := 0%nat |>) ts ∧ tmap (slice L) <$> ts = tokens L ∧ (∀ w, Word w ∈ ts → word_ok L w).
Proof.
  intros Hs. destruct (toks_exist L es 0%nat ltac:(lia) ltac:(lia)) as (ts & Ht & Hl & Hw). exists ts. split_and!; [|done|done]. split_and!; [exact Hs|sst; lia|exact Ht].
Qed.

(** A command that parseline has read to the end of the line. *)
Lemma nulterminate_reads s ts c :
  on_line L J s → (∀ w, Word w ∈ ts → word_ok L w) → gline ts c →
  ∃ s', (nulterminate c;; mret c) s = Ret c s' ∧ cmap (cstring (line s')) c = cmap (slice L) c.
Proof.
  intros Hs Hok Hg. assert (Hw : ∀ w, w ∈ cwords c → word_ok L w) by (intros w Hw; by apply Hok, (proj1 grammar_words _ _ Hg)).
  eexists. split.
  - rewrite (bind_run _ _ _ _ _ (nulterminate_run c s ltac:(intros w Hin; destruct (Hw w Hin) as (? & _); rewrite Hs, length_app; cbn; lia))). reflexivity.
  - sst. rewrite Hs. apply cmap_ext. intros w Hin. by apply cstring_nuls.
Qed.
End Parsecmd.

(** ** What the parser prints

    Nothing, unless it gives up. *)
Definition quiet {A} (m : M shell A) : Prop := ∀ s a s', m s = Ret a s' → err s' = err s.

Lemma quiet_bind {A B} (m : M shell A) (k : A → M shell B) : quiet m → (∀ a, quiet (k a)) → quiet (m ≫= k).
Proof.
  intros Hm Hk s b s' E. unfold mbind, M_bind in E. destruct (m s) as [a s1|?|?|?|?] eqn:E1; try done. cbn in E.
  rewrite (Hk a s1 b s' E). by apply (Hm s a).
Qed.

Lemma quiet_state {A} (f : shell → A) (g : shell → shell) : (∀ s, err (g s) = err s) → quiet (λ s, Ret (f s) (g s)).
Proof. intros Hg s a s' [= <- <-]. apply Hg. Qed.

Lemma quiet_stop {A} (m : M shell A) : (∀ s a s', m s ≠ Ret a s') → quiet m.
Proof. intros Hm s a s' E. by apply Hm in E. Qed.

Create HintDb quiet.
Ltac quiet := repeat first
  [ assumption | solve [auto with quiet nocore] | apply quiet_bind; [|intros ?] | by apply quiet_state | by apply quiet_stop | case_match ].

Lemma quiet_char p : quiet (char_at p).
Proof. unfold char_at, deref. quiet. Qed.
#[local] Hint Resolve quiet_char : quiet.
Lemma quiet_skip_ws n es : ∀ p, quiet (skip_ws n es p).
Proof. induction n as [|n IH]; intros p; cbn [skip_ws]; quiet. Qed.
Lemma quiet_skip_word n es : ∀ p, quiet (skip_word n es p).
Proof. induction n as [|n IH]; intros p; cbn [skip_word]; quiet. Qed.
#[local] Hint Resolve quiet_skip_ws quiet_skip_word : quiet.
Lemma quiet_gettoken es : quiet (gettoken es).
Proof. unfold gettoken. quiet. Qed.
Lemma quiet_peek es l : quiet (peek es l).
Proof. unfold peek. quiet. Qed.
#[local] Hint Resolve quiet_gettoken quiet_peek : quiet.
Lemma quiet_redirs n es : quiet (parseredirs n es).
Proof. induction n as [|n IH]; cbn [parseredirs]; quiet. Qed.
#[local] Hint Resolve quiet_redirs : quiet.
Lemma quiet_args n es : ∀ argv rs, quiet (parseargs n es argv rs).
Proof. induction n as [|n IH]; intros argv rs; cbn [parseargs]; quiet. Qed.
Lemma quiet_back n es : ∀ c, quiet (parseback n es c).
Proof. induction n as [|n IH]; intros c; cbn [parseback]; quiet. Qed.
#[local] Hint Resolve quiet_args quiet_back : quiet.
Lemma quiet_descent es n : quiet (parseline n es) ∧ quiet (parsepipe n es) ∧ quiet (parseexec n es) ∧ quiet (parseblock n es).
Proof. induction n as [|n (H1 & H2 & H3 & H4)]; (split_and!; cbn [parseline parsepipe parseexec parseblock]; quiet). Qed.
Lemma quiet_nulterminate c : quiet (nulterminate c).
Proof.
  assert (Hset : ∀ p, quiet (set_nul p)) by (intros p; unfold set_nul; quiet).
  induction c; cbn [nulterminate]; quiet. induction argv; cbn [for_each]; quiet.
Qed.
Lemma parsecmd_quiet : quiet parsecmd.
Proof.
  unfold parsecmd. apply quiet_bind; [quiet|intros l]. apply quiet_bind; [quiet|intros _]. apply quiet_bind; [apply quiet_descent|intros c].
  apply quiet_bind; [quiet|intros _]. apply quiet_bind; [quiet|intros p]. case_match; [by apply quiet_stop|]. apply quiet_bind; [apply quiet_nulterminate|intros _; quiet].
Qed.

(** parsecmd from the beginning of the line. *)
Lemma parsecmd_start L J p e : 0 ∉ L →
  parsecmd (mkShell (L ++ 0 :: J) p e) = (c ← parseline (4 * (length L + 1)) (length L); peek (length L) [];; q ← gets ps;
    if negb (q =? length L)%nat then modify (λ st, st <| err ::= λ e, e ++ chars "leftovers: " ++ take (length L - q) (drop q (L ++ 0 :: J)) ++ [10] |>);; panic "syntax"
    else nulterminate c;; mret c) (mkShell (L ++ 0 :: J) 0 e).
Proof. intros HL. unfold parsecmd. run. cbn [line]. rewrite (nul_from_app L J HL). cbv zeta. run. done. Qed.

Lemma parsecmd_ends L J p e : 0 ∉ L →
  let s := mkShell (L ++ 0 :: J) p e in (∃ t s', parsecmd s = Ret t s') ∨ ∃ msg s', parsecmd s = Panic msg s'.
Proof.
  intros HL s. destruct (parsecmd_here L J s eq_refl) as (ts & Hh & _ & Hok). pose proof (here_length _ _ _ _ Hh) as Hlen.
  unfold s. rewrite parsecmd_start by done.
  destruct (proj1 (descent_sound L J HL (4 * (length L + 1))) _ _ Hh ltac:(lia)) as [(c & s1 & u & rest & E & Hs1 & -> & Hg)|(msg & s1 & E)];
    [|right; exists msg, s1; by rewrite (bind_panic _ _ _ _ _ E)]. rewrite (bind_run _ _ _ _ _ E).
  destruct (leftovers_run L J HL s1 rest c (L ++ 0 :: J) Hs1) as (s2 & Hs2 & ->). destruct rest; [|right; by eexists _, _].
  left. rewrite app_nil_r in Hok. destruct (nulterminate_reads L J HL s2 u c Hs2 Hok Hg) as (s3 & -> & _). by eexists _, _.
Qed.

Lemma parsecmd_grammar L J p e c : 0 ∉ L →
  gline (tokens L) c ↔ ∃ t s', parsecmd (mkShell (L ++ 0 :: J) p e) = Ret t s' ∧ cmap (cstring (line s')) t = c.
Proof.
  intros HL. destruct (parsecmd_here L J (mkShell (L ++ 0 :: J) p e) eq_refl) as (ts & Hh & Htok & Hok). pose proof (here_length _ _ _ _ Hh) as Hlen.
  rewrite <- Htok, parsecmd_start by done. split.
  - intros Hg. destruct (proj1 (grammar_unmap (slice L)) _ _ Hg ts eq_refl) as (d & Hd & <-).
    destruct (proj1 (descent_complete L J HL) ts d Hd (4 * (length L + 1))%nat (mkShell (L ++ 0 :: J) 0 e) []) as (s1 & E & Hs1); [by rewrite app_nil_r|lia|by left|].
    rewrite (bind_run _ _ _ _ _ E). destruct (leftovers_run L J HL s1 [] d (L ++ 0 :: J) Hs1) as (s2 & Hs2 & ->).
    destruct (nulterminate_reads L J HL s2 ts d Hs2 Hok Hd) as (s3 & -> & Hc). by eexists _, _.
  - intros (t & s' & E & <-).
    destruct (proj1 (descent_sound L J HL (4 * (length L + 1))) _ _ Hh ltac:(lia)) as [(d & s1 & u & rest & E1 & Hs1 & -> & Hg)|(msg & s1 & E1)]; [|by rewrite (bind_panic _ _ _ _ _ E1) in E].
    rewrite (bind_run _ _ _ _ _ E1) in E. destruct (leftovers_run L J HL s1 rest d (L ++ 0 :: J) Hs1) as (s2 & Hs2 & E2). rewrite E2 in E. destruct rest; [|done].
    rewrite app_nil_r in *. destruct (nulterminate_reads L J HL s2 u d Hs2 Hok Hg) as (s3 & E3 & Hc). rewrite E3 in E. injection E as <- <-.
    rewrite Hc. by apply (proj1 (grammar_map (slice L))).
Qed.

(** C19: the parser of the shell decides its grammar. Of every line without
    NUL, whatever lies behind it in the buffer, parsecmd ends, with a command or
    with a panic. It returns a command exactly when the tokens of the line are
    derivable in the grammar, and then the command of that derivation: the
    strings that its pointers denote, once nulterminate has cut the buffer, are
    the words of the line. *)
Theorem parsecmd_decides L J p e :
  0 ∉ L →
  let s := mkShell (L ++ 0 :: J) p e in
  ((∃ t s', parsecmd s = Ret t s') ∨ ∃ msg s', parsecmd s = Panic msg s') ∧
  ∀ c, gline (tokens L) c ↔ ∃ t s', parsecmd s = Ret t s' ∧ cmap (cstring (line s')) t = c.
Proof. intros HL s. split; [by apply parsecmd_ends|]. intros c. by apply parsecmd_grammar. Qed.

(** [ls | wc > f] *)
Lemma parsecmd_decides_witness :
  let s := mkShell ([108; 115; 32; BAR; 32; 119; 99; GT; 102] ++ 0 :: [7; 7]) 0 [] in
  ∃ t s', parsecmd s = Ret t s' ∧
    cmap (cstring (line s')) t = Pipe (Exec [[108; 115]]) (Redir (Exec [[119; 99]]) (mkRedir [102] (Z.lor O_WRONLY O_CREATE) 1)).
Proof.
  assert (H0 : 0 ∉ [108; 115; 32; BAR; 32; 119; 99; GT; 102]) by (intros Hin; repeat (apply elem_of_cons in Hin as [?|Hin]; [done|]); by apply elem_of_nil in Hin).
  apply (proj2 (parsecmd_decides _ [7; 7] 0%nat [] H0)).
  change (tokens _) with (([Word [108; 115]] ++ Sym BAR :: [Word [119; 99]; Sym GT; Word [102]]) ++ replicate 0 (Sym AMP)).
  match goal with |- gline _ ?c => change c with (Nat.iter 0 Back c) end. apply gl_pipe, gp_pipe.
  - apply (ge_exec [] [] [Word [108; 115]] [[108; 115]] []); [constructor| |unfold MAXARGS; cbn; lia]. apply (ga_word _ [] [] [] [] []); constructor.
  - apply gp_exec. apply (ge_exec [] [] [Word [119; 99]; Sym GT; Word [102]] [[119; 99]] [mkRedir [102] (Z.lor O_WRONLY O_CREATE) 1]); [constructor| |unfold MAXARGS; cbn; lia].
    apply (ga_word _ [Sym GT; Word [102]] [mkRedir [102] (Z.lor O_WRONLY O_CREATE) 1] [] [] []); [|constructor]. apply gr_out; [by left|constructor].
Defined.
