(* ===== verification/Usys.v ===== *)
(** User programs as trees of system calls (user.h, usys.S), the functions of
    the user library that make system calls (ulib.c, printf.c), and what the
    calls do to the descriptors of a process. *)

From S2P Require Import Prelude Types Bytes Printf Sysfile.

(** ** System calls

    The calls the programs make, with the strings and bytes that their pointer
    arguments point to.  [Linkp], [Readp] and [SleepAt] are link, read and sleep
    with a pointer of the program's choice: the second path, the buffer and the
    stack pointer.  The last ones are what the test programs do to memory, with
    malloc and free, and to the ports: accesses that can end the process. *)
Inductive call :=
  | Fork | Wait | Pipe_ | Dup (fd : Z) | Close (fd : Z)
  | Exec_ (path : list Z) (argv : list (list Z))
  | Open (path : list Z) (mode : Z) | Read (fd n : Z) | Write (fd : Z) (buf : list Z)
  | Fstat (fd : Z) | Link (old new : list Z) | Unlink (path : list Z) | Mkdir (path : list Z)
  | Mknod (path : list Z) (major minor : Z) | Chdir (path : list Z)
  | Kill (pid : Z) | Chpr (pid priority : Z) | Cps | Nps | Date | Suid (uid : Z) | Sgid (gid : Z) | Sleep (n : Z)
  | Getpid | Sbrk (n : Z) | Getuid | Getgid | Getppid | Setuid (uid : Z) | Setgid (gid : Z)
  | Linkp (old : list Z) (new : Z) | Readp (fd p n : Z) | SleepAt (esp : Z)
  | Load (a n : Z) | Store (a : Z) (bs : list Z) | Malloc (n : Z) | Free (a : Z) | PortOut (port v : Z) | PortIn (port : Z).

(** A program: it ends, it exits, it makes a call and goes on with the result
    and the bytes that the kernel stored through the pointer argument, or the
    fuel of one of its loops has run out. *)
Inductive prog (A : Type) :=
  | Done (a : A)
  | Exit
  | Call (c : call) (k : Z → list Z → prog A)
  | Hang.
Arguments Done {A}. Arguments Exit {A}. Arguments Call {A}. Arguments Hang {A}.

Fixpoint prog_bind {A B} (f : A → prog B) (m : prog A) : prog B :=
  match m with
  | Done a => f a
  | Exit => Exit
  | Call c k => Call c (λ r d, prog_bind f (k r d))
  | Hang => Hang
  end.
#[export] Instance prog_mret : MRet prog := λ A a, Done a.
#[export] Instance prog_mbind : MBind prog := λ A B f m, prog_bind f m.

(** A call for its result, and for the bytes it stores. *)
Definition sys (c : call) : prog Z := Call c (λ r _, Done r).
Definition sysd (c : call) : prog (Z * list Z) := Call c (λ r d, Done (r, d)).
Definition exit {A} : prog A := Exit.

Fixpoint each {A} (l : list A) (f : A → prog unit) : prog unit :=
  match l with [] => mret tt | x :: l' => f x;; each l' f end.

(** ** The user library *)

Definition putc (fd c : Z) : prog unit := sys (Write fd [c]);; mret tt.

(** printf; a format that asks for more arguments than there are has no meaning. *)
Definition printf (fd : Z) (fmt : list Z) (args : list arg) : prog unit :=
  match uformat false fmt args with
  | Some out => each out (putc fd)
  | None => Hang
  end.

(** gets(buf, max): the characters stored before the NUL. *)
Fixpoint gets_loop (n : nat) (got : list Z) : prog (list Z) :=
  match n with
  | O => mret got
  | S n' =>
      '(cc, d) ← sysd (Read 0 1);
      if cc <? 1 then mret got else
      let c := byte_at d 0 in
      if ((c =? 10) || (c =? 13))%bool then mret (got ++ [c]) else gets_loop n' (got ++ [c])
  end.
Definition gets (max : nat) : prog (list Z) := gets_loop (max - 1) [].

(** stat(n, &st): the result and the bytes stored in [st]. *)
Definition stat_ (n : list Z) : prog (Z * list Z) :=
  fd ← sys (Open n O_RDONLY);
  if fd <? 0 then mret (-1, []) else
  '(r, st) ← sysd (Fstat fd);
  sys (Close fd);;
  mret (r, st).

(** atoi, of a string without its NUL. *)
Fixpoint atoi_loop (n : Z) (s : list Z) : Z :=
  match s with
  | c :: s' => if ((48 <=? c) && (c <=? 57))%bool then atoi_loop (i32 (n * 10 + c - 48)) s' else n
  | [] => n
  end.
Definition atoi (s : list Z) : Z := atoi_loop 0 s.

(** ** Processes

    What a process is a descriptor of: a file it has opened, an end of a pipe,
    or one it had from the start. A pipe has the name of the process that made
    it and a number. *)
Inductive desc := DFile (path : list Z) (mode : Z) | DPipeR (id : list nat * nat) | DPipeW (id : list nat * nat) | DOld (n : nat).

(** What becomes of a process: the calls that others can notice, up to its end,
    where a fork branches into the child and the parent. What is written goes
    with the descriptor it is written to. A program that returns from main
    without exit, or runs out of fuel, is stuck. *)
Inductive tree :=
  | TExit
  | TExec (path : list Z) (argv : list (list Z)) (fds : list (option desc))
  | TFork (child parent : tree)
  | TWait (t : tree)
  | TWrite (d : option desc) (buf : list Z) (t : tree)
  | TChdir (path : list Z) (t : tree)
  | TStuck.

(** A process: its descriptors, its name (the child made as event [n] of [me]
    is [me ++ [n]]), the number of its forks and pipes so far, and the
    characters that reading descriptor 0 will give it. *)
Record process := mkProcess { fds : list (option desc); me : list nat; nev : nat; inp : list Z }.
#[export] Instance eta_process : Settable process := λ s, mkProcess (fds s) (me s) (nev s) (inp s).
#[export] Instance set_fds : Setter fds := ltac:(build_setter).
#[export] Instance set_nev : Setter nev := ltac:(build_setter).
#[export] Instance set_inp : Setter inp := ltac:(build_setter).

(** What the kernel decides: whether a file can be opened, a program run, a
    directory entered, a process or a pipe made, and the numbers of processes: of
    a new one, and of the child that wait returns. *)
Class Kernel := {
  openable : list Z → Z → bool;
  execable : list Z → list (list Z) → bool;
  enterable : list Z → bool;
  forks : list nat → nat → bool;
  pipes : list nat → nat → bool;
  pid_of : list nat → Z;
  reaped : list nat → Z;
  pid_pos l : 0 < pid_of l
}.

Section Run.
Context {KN : Kernel}.

Definition fd_at (s : process) (fd : Z) : option desc := if 0 <=? fd then mjoin (fds s !! Z.to_nat fd) else None.

(** A new descriptor: the lowest one that is free, as fdalloc takes it. *)
Definition newfd (d : desc) (s : process) : option (nat * process) :=
  fd ← fd_free (fds s) 0; Some (fd, s <| fds ::= <[fd := Some d]> |>).

(** A call that only changes the process: its result, the bytes it stores. The
    calls that no program here makes of a process with descriptors fail. *)
Definition local (c : call) (s : process) : Z * list Z * process :=
  match c with
  | Open path mode =>
      if openable path mode then
        match newfd (DFile path mode) s with Some (fd, s') => (Z.of_nat fd, [], s') | None => (-1, [], s) end
      else (-1, [], s)
  | Dup fd =>
      match fd_at s fd with
      | Some d => match newfd d s with Some (fd', s') => (Z.of_nat fd', [], s') | None => (-1, [], s) end
      | None => (-1, [], s)
      end
  | Close fd =>
      match fd_at s fd with
      | Some _ => (0, [], s <| fds ::= <[Z.to_nat fd := None]> |>)
      | None => (-1, [], s)
      end
  | Pipe_ =>
      let id := (me s, nev s) in
      if pipes (me s) (nev s) then
        match newfd (DPipeR id) s with
        | Some (fd0, s1) =>
            match newfd (DPipeW id) s1 with
            | Some (fd1, s2) => (0, [Z.of_nat fd0; Z.of_nat fd1], s2 <| nev ::= S |>)
            | None => (-1, [], s <| nev ::= S |>)
            end
        | None => (-1, [], s <| nev ::= S |>)
        end
      else (-1, [], s <| nev ::= S |>)
  | Read fd n =>
      match fd_at s fd with
      | Some _ =>
          if (fd =? 0) && (0 <? n) then
            let d := take (Z.to_nat n) (inp s) in (Z.of_nat (length d), d, s <| inp ::= drop (Z.to_nat n) |>)
          else (-1, [], s)
      | None => (-1, [], s)
      end
  | _ => (-1, [], s)
  end.

Fixpoint behave {A} (m : prog A) (s : process) : tree :=
  match m with
  | Exit => TExit
  | Done _ | Hang => TStuck
  | Call Fork k =>
      let s' := s <| nev ::= S |> in
      if forks (me s) (nev s) then
        TFork (behave (k 0 []) (mkProcess (fds s) (me s ++ [nev s]) 0 (inp s))) (behave (k (pid_of (me s ++ [nev s])) []) s')
      else behave (k (-1) []) s'
  | Call Wait k => TWait (behave (k (reaped (me s)) []) s)
  | Call (Exec_ path argv) k => if execable path argv then TExec path argv (fds s) else behave (k (-1) []) s
  | Call (Write fd buf) k => TWrite (fd_at s fd) buf (behave (k (Z.of_nat (length buf)) []) s)
  | Call (Chdir path) k => TChdir path (behave (k (if enterable path then 0 else -1) []) s)
  | Call c k => let '(r, d, s') := local c s in behave (k r d) s'
  end.
End Run.
