(* ===== verification/Runcmd.v ===== *)
(** The rest of the shell (sh.c): runcmd, which turns a command into processes
    with the right descriptors, getcmd and main. *)

From S2P Require Import Prelude Types Bytes Printf Sysfile Sh Usys.

(** ** The code *)

Definition NEWLINE : Z := 10.

Definition panic {A} (s : list Z) : prog A := printf 2 (chars "%s" ++ [NEWLINE]) [AStr (Some s)];; exit.

Definition fork1 : prog Z :=
  pid ← sys Fork;
  if pid =? -1 then panic (chars "fork") else mret pid.

(** runcmd, of a command whose strings are known; parsecmd returns no null
    pointer. In the child a call of runcmd does not return. *)
Fixpoint runcmd (c : cmd (list Z)) : prog unit :=
  match c with
  | Exec argv =>
      match argv with
      | [] => exit
      | a0 :: _ => sys (Exec_ a0 argv);; printf 2 (chars "exec %s failed" ++ [NEWLINE]) [AStr (Some a0)]
      end
  | Redir c r =>
      sys (Close (rfd r));;
      fd ← sys (Open (rfile r) (rmode r));
      if fd <? 0 then printf 2 (chars "open %s failed" ++ [NEWLINE]) [AStr (Some (rfile r))];; exit
      else runcmd c
  | List l r =>
      pid ← fork1;
      (if pid =? 0 then runcmd l else mret tt);;
      sys Wait;;
      runcmd r
  | Pipe l r =>
      '(res, p) ← sysd Pipe_;
      if res <? 0 then panic (chars "pipe") else
      pid ← fork1;
      (if pid =? 0 then
         sys (Close 1);; sys (Dup (byte_at p 1));; sys (Close (byte_at p 0));; sys (Close (byte_at p 1));;
         runcmd l
       else mret tt);;
      pid ← fork1;
      (if pid =? 0 then
         sys (Close 0);; sys (Dup (byte_at p 0));; sys (Close (byte_at p 0));; sys (Close (byte_at p 1));;
         runcmd r
       else mret tt);;
      sys (Close (byte_at p 0));; sys (Close (byte_at p 1));;
      sys Wait;; sys Wait;;
      mret tt
  | Back c =>
      pid ← fork1;
      (if pid =? 0 then runcmd c else mret tt)
  end;;
  exit.

(** getcmd(buf, nbuf): the buffer, or nothing at the end of the input. *)
Definition getcmd (nbuf : nat) : prog (option (list Z)) :=
  printf 2 (chars "$ ") [];;
  got ← gets nbuf;
  let buf := got ++ replicate (nbuf - length got) 0 in
  mret (if byte_at buf 0 =? 0 then None else Some buf).

(** parsecmd of a buffer, what it prints and the strings of the command. *)
Definition parse (buf : list Z) : prog (cmd (list Z)) :=
  match parsecmd (mkShell buf 0 []) with
  | Ret c s => each (err s) (putc 2);; mret (cmap (cstring (line s)) c)
  | Panic msg s => each (err s) (putc 2);; panic (chars msg)
  | _ => Hang
  end.

(** The two loops of main. *)
Fixpoint open_console (n : nat) : prog unit :=
  fd ← sys (Open (chars "console") O_RDWR);
  if 0 <=? fd then
    if 3 <=? fd then sys (Close fd);; mret tt
    else match n with O => Hang | S n' => open_console n' end
  else mret tt.

(** The body of the second one. *)
Definition do_line (buf : list Z) : prog unit :=
  if ((byte_at buf 0 =? 99) && (byte_at buf 1 =? 100) && (byte_at buf 2 =? 32))%bool then
    let dir := cstring (<[(nul_from buf - 1)%nat := 0]> buf) (3, 0)%nat in
    r ← sys (Chdir dir);
    if r <? 0 then printf 2 (chars "cannot cd %s" ++ [NEWLINE]) [AStr (Some dir)] else mret tt
  else
    pid ← fork1;
    (if pid =? 0 then c ← parse buf; runcmd c else mret tt);;
    sys Wait;;
    mret tt.

Fixpoint command_loop (n : nat) : prog unit :=
  r ← getcmd 100;
  match r with
  | None => mret tt
  | Some buf => do_line buf;; match n with O => Hang | S n' => command_loop n' end
  end.

Definition main (n : nat) : prog unit := open_console 3;; command_loop n;; exit.

(** ** Behaviour of compound programs *)

Section Runcmd.
Context {KN : Kernel}.

Lemma behave_assoc {A B C} (m : prog A) (f : A → prog B) (g : B → prog C) : ∀ s,
  behave ((m ≫= f) ≫= g) s = behave (m ≫= λ x, f x ≫= g) s.
Proof.
  induction m as [a| |c k IH|]; intros s; [done|done| |done].
  destruct c; cbn [behave mbind prog_mbind prog_bind]; try destruct (local _ _) as [[? ?] ?]; try case_match; first [apply IH|f_equal; apply IH].
Qed.

(** What is written character by character. *)
Definition say (d : option desc) (out : list Z) (t : tree) : tree := foldr (λ c, TWrite d [c]) t out.

Lemma behave_each {B} out fd (f : unit → prog B) s :
  behave (each out (putc fd) ≫= f) s = say (fd_at s fd) out (behave (f tt) s).
Proof. induction out as [|c out IH]; [done|]. cbn [each]. rewrite behave_assoc. cbn. f_equal. exact IH. Qed.

Lemma behave_printf {B} fd fmt args out (f : unit → prog B) s :
  uformat false fmt args = Some out → behave (printf fd fmt args ≫= f) s = say (fd_at s fd) out (behave (f tt) s).
Proof. intros E. unfold printf. rewrite E. apply behave_each. Qed.

Lemma behave_panic {A B} msg (f : A → prog B) s :
  behave (panic msg ≫= f) s = say (fd_at s 2) (msg ++ [NEWLINE]) TExit.
Proof. unfold panic. rewrite behave_assoc. by apply behave_printf. Qed.

Lemma behave_fork1 {B} (f : Z → prog B) s :
  behave (fork1 ≫= f) s =
  if forks (me s) (nev s) then
    TFork (behave (f 0) (mkProcess (fds s) (me s ++ [nev s]) 0 (inp s))) (behave (f (pid_of (me s ++ [nev s]))) (s <| nev ::= S |>))
  else say (fd_at s 2) (chars "fork" ++ [NEWLINE]) TExit.
Proof.
  unfold fork1. rewrite behave_assoc. cbn. destruct (forks (me s) (nev s)).
  - rewrite (proj2 (Z.eqb_neq (pid_of _) (-1))) by (pose proof (pid_pos (me s ++ [nev s])); lia). done.
  - apply (behave_panic (A := Z)).
Qed.

(** A program that does not return. *)
Fixpoint noret {A} (m : prog A) : Prop :=
  match m with Done _ => False | Call c k => ∀ r d, noret (k r d) | Exit | Hang => True end.

Lemma noret_exit {A B} (m : prog A) : noret (m ≫= λ _, exit : prog B).
Proof. induction m as [a| |c k IH|]; cbn; try done. Qed.

Lemma behave_noret {A B} (m : prog A) (f : A → prog B) : noret m → ∀ s, behave (m ≫= f) s = behave m s.
Proof.
  induction m as [a| |c k IH|]; intros Hn s; [done|done| |done].
  destruct c; cbn [behave mbind prog_mbind prog_bind]; try destruct (local _ _) as [[? ?] ?]; try case_match; first [by apply IH|f_equal; by apply IH].
Qed.

Lemma runcmd_noret c : noret (runcmd c).
Proof. destruct c; apply noret_exit. Qed.

(** ** What a command means

    The descriptors 0, 1 and 2 of a process, and no others. *)
Definition std (i o e : desc) : list (option desc) := Some i :: Some o :: Some e :: replicate 13 None.

(** A process [p] makes a child as its event [n], or gives up. *)
Definition spawn (e : desc) (p : list nat) (n : nat) (child parent : tree) : tree :=
  if forks p n then TFork child parent else say (Some e) (chars "fork" ++ [NEWLINE]) TExit.

(** The processes of a command that has the descriptors [i], [o] and [e], run by
    process [p] after [n] events. *)
Fixpoint plan (c : cmd (list Z)) (i o e : desc) (p : list nat) (n : nat) : tree :=
  match c with
  | Exec [] => TExit
  | Exec (a0 :: argv) =>
      if execable a0 (a0 :: argv) then TExec a0 (a0 :: argv) (std i o e)
      else say (Some e) (chars "exec " ++ a0 ++ chars " failed" ++ [NEWLINE]) TExit
  | Redir c r =>
      if openable (rfile r) (rmode r) then
        let f := DFile (rfile r) (rmode r) in
        if rfd r =? 0 then plan c f o e p n else plan c i f e p n
      else say (Some e) (chars "open " ++ rfile r ++ chars " failed" ++ [NEWLINE]) TExit
  | List l r => spawn e p n (plan l i o e (p ++ [n]) 0) (TWait (plan r i o e p (S n)))
  | Pipe l r =>
      if pipes p n then
        spawn e p (S n) (plan l i (DPipeW (p, n)) e (p ++ [S n]) 0)
          (spawn e p (S (S n)) (plan r (DPipeR (p, n)) o e (p ++ [S (S n)]) 0)
             (TWait (TWait TExit)))
      else say (Some e) (chars "pipe" ++ [NEWLINE]) TExit
  | Back c => spawn e p n (plan c i o e (p ++ [n]) 0) TExit
  end.

(** The redirections of a command are of descriptors 0 and 1. *)
Fixpoint redirs01 {W} (c : cmd W) : Prop :=
  match c with
  | Exec _ => True
  | Redir c r => (rfd r = 0 ∨ rfd r = 1) ∧ redirs01 c
  | Pipe l r | List l r => redirs01 l ∧ redirs01 r
  | Back c => redirs01 c
  end.

(** Calls that only change the process. *)
Lemma behave_sys {B} (c : call) (f : Z → prog B) s :
  match c with Open _ _ | Dup _ | Close _ => True | _ => False end →
  behave (sys c ≫= f) s = let '(r, _, s') := local c s in behave (f r) s'.
Proof. by destruct c. Qed.

(** After pipe, and after the child has moved an end of it to 1 or 0. *)
Lemma pipe_ends {B} i o e p n ii (f : Z * list Z → prog B) :
  behave (sysd Pipe_ ≫= f) (mkProcess (std i o e) p n ii) =
  if pipes p n then
    behave (f (0, [3; 4])) (mkProcess (Some i :: Some o :: Some e :: Some (DPipeR (p, n)) :: Some (DPipeW (p, n)) :: replicate 11 None) p (S n) ii)
  else behave (f (-1, [])) (mkProcess (std i o e) p (S n) ii).
Proof. cbn. destruct (pipes p n); done. Qed.

Lemma left_end {B} i o e a b p n ii (f : Z → prog B) :
  behave (sys (Close 1) ≫= λ _, sys (Dup 4) ≫= λ _, sys (Close 3) ≫= λ _, sys (Close 4) ≫= f)
    (mkProcess (Some i :: Some o :: Some e :: Some a :: Some b :: replicate 11 None) p n ii)
  = behave (f 0) (mkProcess (std i b e) p n ii).
Proof. reflexivity. Qed.

Lemma right_end {B} i o e a b p n ii (f : Z → prog B) :
  behave (sys (Close 0) ≫= λ _, sys (Dup 3) ≫= λ _, sys (Close 3) ≫= λ _, sys (Close 4) ≫= f)
    (mkProcess (Some i :: Some o :: Some e :: Some a :: Some b :: replicate 11 None) p n ii)
  = behave (f 0) (mkProcess (std a o e) p n ii).
Proof. reflexivity. Qed.

Lemma runcmd_returns_not {B} c (f : unit → prog B) s : behave (runcmd c ≫= f) s = behave (runcmd c) s.
Proof. apply behave_noret, runcmd_noret. Qed.

Lemma pid_nonzero p : (pid_of p =? 0) = false.
Proof. apply Z.eqb_neq. pose proof (pid_pos p). lia. Qed.

Lemma runcmd_plan c : redirs01 c → ∀ i o e p n ii,
  behave (runcmd c) (mkProcess (std i o e) p n ii) = plan c i o e p n.
Proof.
  induction c as [argv|c IH r|l IHl r IHr|l IHl r IHr|c IH]; cbn [redirs01]; intros Hc i o e p n ii; cbn [runcmd plan].
  - destruct argv as [|a0 argv]; [done|]. rewrite behave_assoc. cbn [sys mbind prog_mbind prog_bind behave fds].
    destruct (execable a0 (a0 :: argv)); [done|].
    change (prog_bind (λ _ : unit, exit) ?m) with (m ≫= λ _ : unit, exit : prog unit).
    by rewrite (behave_printf _ _ _ (chars "exec " ++ a0 ++ chars " failed" ++ [NEWLINE])).
  - destruct Hc as [Hfd Hc]. rewrite behave_assoc, behave_sys by done.
    assert (Hclose : local (Close (rfd r)) (mkProcess (std i o e) p n ii) = (0, [], mkProcess (if rfd r =? 0 then None :: tail (std i o e) else Some i :: None :: drop 2 (std i o e)) p n ii)).
    { by destruct Hfd as [-> | ->]. }
    rewrite Hclose, behave_assoc, behave_sys by done. cbn [local]. destruct (openable (rfile r) (rmode r)).
    + assert (Hopen : newfd (DFile (rfile r) (rmode r)) (mkProcess (if rfd r =? 0 then None :: tail (std i o e) else Some i :: None :: drop 2 (std i o e)) p n ii)
        = Some (Z.to_nat (rfd r), mkProcess (if rfd r =? 0 then std (DFile (rfile r) (rmode r)) o e else std i (DFile (rfile r) (rmode r)) e) p n ii)) by (by destruct Hfd as [-> | ->]).
      rewrite Hopen. rewrite (proj2 (Z.ltb_ge _ 0)) by lia. rewrite runcmd_returns_not. destruct (rfd r =? 0); by apply IH.
    + change (-1 <? 0) with true. cbv iota. rewrite behave_assoc.
      rewrite (behave_printf _ _ _ (chars "open " ++ rfile r ++ chars " failed" ++ [NEWLINE])) by done. by destruct Hfd as [-> | ->].
  - destruct Hc as [Hl Hr]. rewrite behave_assoc, pipe_ends. destruct (pipes p n); [|apply (behave_panic (A := unit))].
    change (0 <? 0) with false. change (byte_at [3; 4] 0) with 3. change (byte_at [3; 4] 1) with 4. cbv iota beta zeta.
    rewrite behave_assoc, behave_fork1. unfold spawn. cbn [me nev fds inp]. destruct (forks p (S n)); [|done]. f_equal.
    + change (0 =? 0) with true. cbv iota. rewrite behave_assoc, behave_noret by (intros r1 d1 r2 d2 r3 d3 r4 d4; apply runcmd_noret).
      rewrite left_end. by apply IHl.
    + rewrite pid_nonzero. change (mret tt ≫= ?f) with (f tt). cbv beta.
      change ((mkProcess ?f p (S n) ii) <| nev ::= S |>) with (mkProcess f p (S (S n)) ii). rewrite behave_assoc, behave_fork1. cbn [me nev fds inp].
      destruct (forks p (S (S n))); [|done]. f_equal.
      * change (0 =? 0) with true. cbv iota. rewrite behave_assoc, behave_noret by (intros r1 d1 r2 d2 r3 d3 r4 d4; apply runcmd_noret).
        etransitivity; [apply right_end|]. by apply IHr.
      * by rewrite pid_nonzero.
  - destruct Hc as [Hl Hr]. rewrite behave_assoc, behave_fork1. unfold spawn. cbn [me nev fds inp]. destruct (forks p n); [|done]. f_equal.
    + change (0 =? 0) with true. cbv iota. rewrite behave_assoc, runcmd_returns_not. by apply IHl.
    + rewrite pid_nonzero. cbn [sys mbind mret prog_mret prog_mbind prog_bind behave]. f_equal. setoid_rewrite (runcmd_returns_not r). by apply IHr.
  - rewrite behave_assoc, behave_fork1. unfold spawn. cbn [me nev fds inp]. destruct (forks p n); [|done]. f_equal.
    + change (0 =? 0) with true. cbv iota. rewrite runcmd_returns_not. by apply IH.
    + by rewrite pid_nonzero.
Qed.

Lemma wrap_redirs01 {W} (c : cmd W) rs : redirs01 c → Forall (λ r, rfd r = 0 ∨ rfd r = 1) rs → redirs01 (wrap c rs).
Proof. intros Hc H. revert c Hc. induction H as [|r rs Hr _ IH]; intros c Hc; [done|]. by apply IH. Qed.

Lemma gredirs01 {W} ts (rs : list (redir W)) : gredirs ts rs → Forall (λ r, rfd r = 0 ∨ rfd r = 1) rs.
Proof. induction 1; constructor; [by left|done|by right|done]. Qed.

Lemma gargs01 {W} ts ws (rs : list (redir W)) : gargs ts ws rs → Forall (λ r, rfd r = 0 ∨ rfd r = 1) rs.
Proof. induction 1; [done|]. apply Forall_app. split; [by eapply gredirs01|done]. Qed.

Lemma grammar01 {W} :
  (∀ ts (c : cmd W), gline ts c → redirs01 c) ∧ (∀ ts (c : cmd W), gpipe ts c → redirs01 c) ∧ (∀ ts (c : cmd W), gexec ts c → redirs01 c).
Proof.
  assert (HB : ∀ k (c : cmd W), redirs01 c → redirs01 (Nat.iter k Back c)) by (intros k c Hc; by induction k).
  apply grammar_ind; intros *; cbn [redirs01]; auto.
  - intros _ Hc Hr. apply wrap_redirs01; [done|by eapply gredirs01].
  - intros Hr Ha _. apply wrap_redirs01; [done|]. apply Forall_app. split; [by eapply gredirs01|by eapply gargs01].
Qed.

(** ** The session *)

(** What gets takes of the input: at most [n] characters, up to the end of the
    line. *)
Fixpoint getline (n : nat) (l : list Z) : list Z * list Z :=
  match n, l with
  | S n', c :: l' =>
      if ((c =? 10) || (c =? 13))%bool then ([c], l') else let '(a, b) := getline n' l' in (c :: a, b)
  | _, _ => ([], l)
  end.

Lemma behave_gets {B} (f : list Z → prog B) i o e p k : ∀ n ii got,
  behave (gets_loop n got ≫= f) (mkProcess (std i o e) p k ii) =
  behave (f (got ++ (getline n ii).1)) (mkProcess (std i o e) p k (getline n ii).2).
Proof.
  induction n as [|n IH]; intros ii got; [by rewrite app_nil_r|]. destruct ii as [|c ii]; [by rewrite app_nil_r|].
  cbn [gets_loop getline]. rewrite behave_assoc.
  change (behave (sysd (Read 0 1) ≫= ?g) (mkProcess (std i o e) p k (c :: ii))) with (behave (g (1, [c])) (mkProcess (std i o e) p k (drop 0 ii))).
  rewrite drop_0. change (1 <? 1) with false. change (byte_at [c] 0) with c. cbv iota beta zeta.
  destruct ((c =? 10) || (c =? 13))%bool; [done|]. rewrite IH. destruct (getline n ii) as [a b]. cbn [fst snd]. by rewrite <- app_assoc.
Qed.

(** The string at the beginning of a buffer. *)
Definition cut (l : list Z) : list Z := take (nul_from l) l.

Lemma cut_spec l : (0 ∉ cut l) ∧ (cut l = l ∨ ∃ J, l = cut l ++ 0 :: J).
Proof.
  unfold cut. induction l as [|c l [H1 H2]]; [by split; [apply not_elem_of_nil|left]|]. cbn. destruct (Z.eqb_spec c 0) as [->|Hc]; cbn.
  - split; [apply not_elem_of_nil|]. right. by exists l.
  - split; [by apply not_elem_of_cons|]. destruct H2 as [H2|[J H2]]; [left|right; exists J]; f_equal; exact H2.
Qed.

(** The buffer of getcmd, with the line [line]. *)
Lemma buffer_spec line : (length line < 100)%nat → ∃ J, line ++ replicate (100 - length line) 0 = cut line ++ 0 :: J ∧ 0 ∉ cut line.
Proof.
  intros Hl. destruct (cut_spec line) as [H0 [Hc|[J Hc]]].
  - rewrite Hc in *. exists (replicate (99 - length line) 0). split; [|done]. by replace (100 - length line)%nat with (S (99 - length line)) by lia.
  - exists (J ++ replicate (100 - length line) 0). split; [|done]. rewrite Hc at 1. by rewrite <- app_assoc.
Qed.

Lemma getline_length n : ∀ l, (length (getline n l).1 ≤ n)%nat ∧ (length (getline n l).1 + length (getline n l).2 = length l)%nat.
Proof.
  induction n as [|n IH]; intros l; [done|]. destruct l as [|c l]; [cbn; lia|]. cbn [getline]. destruct ((c =? 10) || (c =? 13))%bool; [cbn; lia|].
  specialize (IH l). destruct (getline n l). cbn in *. lia.
Qed.

(** The test for [cd] on the buffer. *)
Lemma is_cd L J : 0 ∉ L →
  ((byte_at (L ++ 0 :: J) 0 =? 99) && (byte_at (L ++ 0 :: J) 1 =? 100) && (byte_at (L ++ 0 :: J) 2 =? 32))%bool = bool_decide (take 3 L = chars "cd ").
Proof.
  intros H0. symmetry. destruct (decide (take 3 L = chars "cd ")) as [Heq|Hne].
  - rewrite bool_decide_eq_true_2 by done. destruct L as [|a [|b [|c L]]]; try done. injection Heq as -> -> ->. done.
  - rewrite bool_decide_eq_false_2 by done. symmetry. apply not_true_iff_false. rewrite !andb_true_iff, !Z.eqb_eq. intros [[E1 E2] E3]. apply Hne.
    destruct L as [|a [|b [|c L]]]; unfold byte_at in E1, E2, E3; cbn in E1, E2, E3; try congruence; by subst.
Qed.

Lemma cd_dir L J : 0 ∉ L → take 3 L = chars "cd " →
  cstring (<[(nul_from (L ++ 0%Z :: J) - 1)%nat := 0]> (L ++ 0 :: J)) (3, 0)%nat = drop 3 (take (length L - 1) L).
Proof.
  intros H0 H3. rewrite nul_from_app by done. unfold cstring. cbn [fst]. destruct (last L) as [x|] eqn:Hx; [|apply last_None in Hx as ->; done].
  apply last_Some in Hx as [L' ->]. rewrite length_app. cbn [length]. rewrite Nat.add_sub, take_app_length, <- app_assoc.
  rewrite insert_app_r_alt, Nat.sub_diag by lia. cbn [app insert list_insert].
  assert (Hn : 0 ∉ L') by (intros Hin; apply H0, elem_of_app; by left). destruct (decide (3 ≤ length L')%nat) as [Hl|Hl].
  - rewrite drop_app_le by done. rewrite nul_from_app; [by rewrite take_app_length|]. intros Hin. apply Hn. by apply (subseteq_drop 3).
  - destruct L' as [|a [|b [|c L']]]; cbn in Hl, H3; try done; lia.
Qed.

(** The process that runs a line: the plan of the command that the grammar
    gives it, or a message. *)
Definition runs (i o e : desc) (p : list nat) (L : list Z) (child : tree) : Prop :=
  (∃ c, gline (tokens L) c ∧ child = plan c i o e p 0)
  ∨ (¬ ∃ c, gline (tokens L) c) ∧ ∃ msg, child = say (Some e) msg TExit.

Definition prompt (e : desc) (t : tree) : tree := say (Some e) (chars "$ ") t.

Inductive session (i o e : desc) (p : list nat) : nat → list Z → tree → Prop :=
  | se_end n ii : cut (getline 99 ii).1 = [] → session i o e p n ii (prompt e TExit)
  | se_cd n ii L dir t :
      L = cut (getline 99 ii).1 → take 3 L = chars "cd " → dir = drop 3 (take (length L - 1) L) →
      session i o e p n (getline 99 ii).2 t →
      session i o e p n ii
        (prompt e (TChdir dir (if enterable dir then t else say (Some e) (chars "cannot cd " ++ dir ++ [NEWLINE]) t)))
  | se_run n ii L child t :
      L = cut (getline 99 ii).1 → L ≠ [] → take 3 L ≠ chars "cd " → runs i o e (p ++ [n]) L child →
      session i o e p (S n) (getline 99 ii).2 t →
      session i o e p n ii (prompt e (spawn e p n child (TWait t))).

Lemma parse_runs {B} (f : unit → prog B) i o e p ii L J : 0 ∉ L →
  runs i o e p L (behave ((c ← parse (L ++ 0 :: J); runcmd c) ≫= f) (mkProcess (std i o e) p 0 ii)).
Proof.
  intros H0. rewrite behave_assoc. unfold parse. destruct (parsecmd_ends L J 0 [] H0) as [(t & s' & E)|(msg & s' & E)]; rewrite E.
  - left. exists (cmap (cstring (line s')) t). assert (Hg : gline (tokens L) (cmap (cstring (line s')) t)) by (apply (parsecmd_grammar L J 0 []); [done|by exists t, s']).
    split; [done|]. rewrite (parsecmd_quiet _ _ _ E). cbn [err each]. change (mret tt ≫= ?g) with (g tt). cbv beta.
    change (mret ?x ≫= ?g) with (g x). cbv beta. rewrite runcmd_returns_not. apply runcmd_plan. by apply (proj1 grammar01 (tokens L)).
  - right. split.
    + intros [c Hc]. apply (parsecmd_grammar L J 0 []) in Hc as (t & s2 & E2 & _); [|done]. congruence.
    + exists (err s' ++ chars msg ++ [NEWLINE]). rewrite behave_assoc, behave_each, behave_panic. symmetry. apply foldr_app.
Qed.

Lemma behave_getcmd i o e p n ii :
  let line := (getline 99 ii).1 in
  ∃ J, (0 ∉ cut line) ∧ ∀ B (f : option (list Z) → prog B),
    behave (getcmd 100 ≫= f) (mkProcess (std i o e) p n ii) =
    prompt e (behave (f (match cut line with [] => None | _ => Some (cut line ++ 0 :: J) end)) (mkProcess (std i o e) p n (getline 99 ii).2)).
Proof.
  intros line. destruct (getline_length 99 ii) as [Hl _]. fold line in Hl. destruct (buffer_spec line ltac:(lia)) as (J & HJ & H0).
  exists J. split; [done|]. intros B f. unfold getcmd. rewrite behave_assoc, (behave_printf _ _ _ (chars "$ ")) by done. unfold prompt. f_equal.
  rewrite behave_assoc. unfold Usys.gets. change (100 - 1)%nat with 99%nat. rewrite behave_gets. cbn [app]. fold line.
  change (mret ?x ≫= ?g) with (g x). cbv beta zeta. rewrite HJ. f_equal. destruct (cut line) as [|c L]; [done|]. unfold byte_at. cbn.
  rewrite (proj2 (Z.eqb_neq c 0)); [done|]. intros ->. apply H0. by left.
Qed.

Lemma loop_turn i o e p fuel n ii :
  let next := match fuel with O => Hang | S f => command_loop f end in
  let rest := (getline 99 ii).2 in
  (cut (getline 99 ii).1 ≠ [] → ∀ n', session i o e p n' rest (behave (next;; exit : prog unit) (mkProcess (std i o e) p n' rest))) →
  session i o e p n ii (behave (command_loop fuel;; exit : prog unit) (mkProcess (std i o e) p n ii)).
Proof.
  intros next rest Hrest. destruct (behave_getcmd i o e p n ii) as (J & H0 & E).
  assert (Hloop : command_loop fuel = (r ← getcmd 100; match r with None => mret tt | Some buf => do_line buf;; next end)) by (by destruct fuel).
  rewrite Hloop, behave_assoc, E. clear E Hloop. set (L := cut (getline 99 ii).1) in *.
  destruct (decide (L = [])) as [HL|HL]; [rewrite HL; by apply se_end|]. specialize (Hrest HL).
  replace (match L with [] => None | _ => _ end) with (Some (L ++ 0 :: J)) by (by destruct L). rewrite behave_assoc.
  unfold do_line. rewrite is_cd by done. case_bool_decide as Hcd.
  - rewrite cd_dir by done. rewrite behave_assoc. set (dir := drop 3 (take (length L - 1) L)).
    replace (behave _ _) with (TChdir dir (if enterable dir then behave (next;; exit : prog unit) (mkProcess (std i o e) p n rest)
       else say (Some e) (chars "cannot cd " ++ dir ++ [NEWLINE]) (behave (next;; exit : prog unit) (mkProcess (std i o e) p n rest)))); [by eapply se_cd|].
    cbn [sys mbind prog_mbind prog_bind behave]. f_equal. destruct (enterable dir); [done|]. symmetry. by apply behave_printf.
  - rewrite behave_assoc, behave_fork1. cbn [me nev fds inp]. fold rest.
    rewrite pid_nonzero. change (0 =? 0) with true. cbv iota. rewrite behave_assoc.
    match goal with |- context [TFork ?c _] => pose proof (parse_runs _ i o e (p ++ [n]) rest L J H0 : runs i o e (p ++ [n]) L c) as Hc; set (child := c) in * end.
    eapply (se_run _ _ _ _ n ii L child); [done|done|done|done|apply (Hrest (S n))].
Qed.

Lemma command_loop_session i o e p : ∀ fuel n ii, (length ii ≤ fuel)%nat →
  session i o e p n ii (behave (command_loop fuel;; exit : prog unit) (mkProcess (std i o e) p n ii)).
Proof.
  induction fuel as [|fuel IH]; intros n ii Hf; apply loop_turn; intros Hc n'; pose proof (getline_length 99 ii) as [_ Hl].
  - destruct ii; [done|cbn in Hf; lia].
  - apply IH. assert (0 < length (getline 99 ii).1)%nat by (destruct (getline 99 ii).1; [done|cbn; lia]). lia.
Qed.

Lemma console_turn {B} (f : unit → prog B) k s fd s' :
  openable (chars "console") O_RDWR = true → newfd (DFile (chars "console") O_RDWR) s = Some (fd, s') →
  behave (open_console k ≫= f) s =
  if 3 <=? Z.of_nat fd then behave ((sys (Close (Z.of_nat fd));; mret tt) ≫= f) s'
  else match k with O => TStuck | S k' => behave (open_console k' ≫= f) s' end.
Proof.
  intros Ho Hn. destruct k as [|k]; cbn [open_console]; rewrite behave_assoc, behave_sys by done; cbn [local]; rewrite Ho, Hn;
    rewrite (proj2 (Z.leb_le 0 (Z.of_nat fd))) by lia; by destruct (3 <=? Z.of_nat fd).
Qed.

Lemma console_opened {B} (f : unit → prog B) a b c p n ii :
  let con := DFile (chars "console") O_RDWR in
  openable (chars "console") O_RDWR = true ∨ (is_Some a ∧ is_Some b ∧ is_Some c) →
  behave (open_console 3 ≫= f) (mkProcess (a :: b :: c :: replicate 13 None) p n ii)
  = behave (f tt) (mkProcess (std (default con a) (default con b) (default con c)) p n ii).
Proof.
  intros con Hab. destruct (openable (chars "console") O_RDWR) eqn:Ho.
  - destruct a, b, c; repeat (erewrite console_turn by done; match goal with |- context [3 <=? ?x] => let v := eval vm_compute in (3 <=? x) in change (3 <=? x) with v end; cbv iota); done.
  - destruct Hab as [?|([da ->] & [db ->] & [dc ->])]; [done|]. cbn [open_console]. rewrite behave_assoc, behave_sys by done. cbn [local]. by rewrite Ho.
Qed.

End Runcmd.

(** A kernel in which everything succeeds. *)
#[local] Instance yes : Kernel.
Proof. refine {| openable _ _ := true; execable _ _ := true; enterable _ := true; forks _ _ := true; pipes _ _ := true; pid_of _ := 3; reaped _ := 3 |}. done. Defined.

