(* ===== verification/Boot.v ===== *)
(** Before the kernel runs: the boot loader (bootmain.c), which reads the kernel
    from the disk by programmed input and output, and the descriptor tables
    that the kernel fills for the CPU (mmu.h, seginit of vm.c, tvinit of
    trap.c). *)

From S2P Require Import Prelude Segs Types Strings Bytes Exec Sysproc.

(** ** The boot loader *)

Module Bootmain.

(** The memory, the registers of the disk controller by port, and how often its
    status has been read. *)
Record boot := mkBoot { bmem : memory; port : Z → Z; polls : nat }.
#[export] Instance eta_boot : Settable boot := λ s, mkBoot (bmem s) (port s) (polls s).
#[export] Instance set_bmem : Setter bmem := ltac:(build_setter).
#[export] Instance set_port : Setter port := ltac:(build_setter).
#[export] Instance set_polls : Setter polls := ltac:(build_setter).

(** The disk: what the status register shows each time it is read, the bytes of
    its sectors, and how often at most it is busy in a row. *)
Class BootDisk := {
  status : nat → Z;
  sector : Z → list Z;
  wait_bound : nat;
  ready n : ∃ m, (m ≤ wait_bound)%nat ∧ Z.land (u8 (status (n + m))) 192 = 64;
  sector_length k : length (sector k) = 512%nat
}.

Definition SECTSIZE : Z := 512.

Section Loader.
Context {BD : BootDisk}.

(** The only input port of the loader is the status register. *)
Definition inb : M boot Z :=
  n ← gets polls;
  modify (λ s, s <| polls ::= S |>);;
  mret (u8 (status n)).
Definition outb (p v : Z) : M boot unit := modify (λ s, s <| port ::= λ f, upd f p (u8 v) |>).

(** The sector that the address registers of the controller select. *)
Definition lba (f : Z → Z) : Z :=
  f 499 + f 500 * 2 ^ 8 + f 501 * 2 ^ 16 + Z.land (f 502) 15 * 2 ^ 24.

Definition put_bytes (m : memory) (a : Z) (l : list Z) : memory :=
  λ x, if ((a <=? x) && (x <? a + Z.of_nat (length l)))%bool then byte_at l (Z.to_nat (x - a)) else m x.

(** The data port, read into memory. *)
Definition insl (dst cnt : Z) : M boot unit :=
  modify (λ s, s <| bmem ::= λ m, put_bytes m dst (take (Z.to_nat (4 * cnt)) (sector (lba (port s)))) |>).

Fixpoint waitdisk_loop (n : nat) : M boot unit :=
  v ← inb;
  if negb (Z.land v 192 =? 64) then match n with O => nofuel | S n' => waitdisk_loop n' end
  else mret tt.
Definition waitdisk : M boot unit := waitdisk_loop wait_bound.

Definition readsect (dst offset : Z) : M boot unit :=
  waitdisk;;
  outb 498 1;;
  outb 499 offset;;
  outb 500 (Z.shiftr offset 8);;
  outb 501 (Z.shiftr offset 16);;
  outb 502 (Z.lor (Z.shiftr offset 24) 224);;
  outb 503 32;;
  waitdisk;;
  insl dst (SECTSIZE / 4).

Fixpoint readseg_loop (n : nat) (pa epa offset : Z) : M boot unit :=
  if pa <? epa then
    readsect pa offset;;
    match n with O => nofuel | S n' => readseg_loop n' (uadd pa SECTSIZE) epa (uadd offset 1) end
  else mret tt.

Definition readseg (pa count offset : Z) : M boot unit :=
  let epa := uadd pa count in
  let pa := usub pa (offset mod SECTSIZE) in
  let offset := uadd (offset / SECTSIZE) 1 in
  readseg_loop (Z.to_nat (count / SECTSIZE + 2)) pa epa offset.

Definition load16 (m : memory) (a : Z) : Z := m a + m (a + 1) * 2 ^ 8.

(** The fields of the headers in memory. *)
Definition elf : Z := 65536.
Definition paddr (m : memory) (ph : Z) : Z := load32 m (ph + 12).
Definition off (m : memory) (ph : Z) : Z := load32 m (ph + 4).
Definition filesz (m : memory) (ph : Z) : Z := load32 m (ph + 16).
Definition memsz (m : memory) (ph : Z) : Z := load32 m (ph + 20).

(** The loop over the program headers. *)
Fixpoint load_loop (n : nat) (ph eph : Z) : M boot unit :=
  if ph <? eph then
    m ← gets bmem;
    let pa := paddr m ph in
    readseg pa (filesz m ph) (off m ph);;
    m ← gets bmem;
    when (filesz m ph <? memsz m ph)
      (modify (λ s, s <| bmem := stosb (Z.to_nat (memsz m ph - filesz m ph)) m (uadd pa (filesz m ph)) 0 |>));;
    match n with O => nofuel | S n' => load_loop n' (uadd ph PROGHDRSZ) eph end
  else mret tt.

(** bootmain: the entry point it calls, or nothing if it returns. *)
Definition bootmain : M boot (option Z) :=
  readseg elf 4096 0;;
  m ← gets bmem;
  if negb (load32 m elf =? ELF_MAGIC) then mret None else
  let ph := uadd elf (load32 m (elf + 28)) in
  let eph := uadd ph (PROGHDRSZ * load16 m (elf + 44)) in
  load_loop (Z.to_nat (load16 m (elf + 44))) ph eph;;
  m ← gets bmem;
  mret (Some (load32 m (elf + 24))).

(** ** What is loaded *)

Lemma wait_run n : ∀ m s, (m ≤ n)%nat → Z.land (u8 (status (polls s + m))) 192 = 64 → ∃ k, waitdisk_loop n s = Ret tt (s <| polls := k |>).
Proof.
  induction n as [|n IH]; intros m s Hm Hr; cbn [waitdisk_loop]; unfold inb; run.
  - assert (m = 0%nat) as -> by lia. rewrite Nat.add_0_r in Hr. rewrite Hr. by eexists.
  - destruct (Z.eqb_spec (Z.land (u8 (status (polls s))) 192) 64) as [E|E]; cbn [negb]; [by eexists|]. destruct m as [|m]; [by rewrite Nat.add_0_r in Hr|].
    destruct (IH m (s <| polls ::= S |>)) as [k Hk]; [lia|sst; by rewrite Nat.add_succ_comm|]. by exists k.
Qed.

Lemma waitdisk_run s : ∃ k, waitdisk s = Ret tt (s <| polls := k |>).
Proof. destruct (ready (polls s)) as (m & Hm & Hr). by apply (wait_run _ m). Qed.

(** The address registers select the sector. *)
Lemma lba_offset f offset : 0 ≤ offset < 2 ^ 28 →
  f 499 = u8 offset → f 500 = u8 (Z.shiftr offset 8) → f 501 = u8 (Z.shiftr offset 16) → f 502 = u8 (Z.lor (Z.shiftr offset 24) 224) → lba f = offset.
Proof.
  intros Ho E1 E2 E3 E4. unfold lba. rewrite E1, E2, E3, E4. clear E1 E2 E3 E4. rewrite !Z.shiftr_div_pow2 by lia.
  assert (Hq : 0 ≤ offset / 2 ^ 24 < 16) by (split; [apply Z.div_pos; lia|apply Z.div_lt_upper_bound; lia]).
  assert (H15 : Z.land (u8 (Z.lor (offset / 2 ^ 24) 224)) 15 = offset / 2 ^ 24).
  { generalize dependent (offset / 2 ^ 24). intros q Hq. assert (Hc : q ∈ seqZ 0 16) by (apply elem_of_seqZ; lia). clear Ho Hq. revert q Hc.
    apply (proj1 (Forall_forall (λ q, Z.land (u8 (Z.lor q 224)) 15 = q) (seqZ 0 16))). vm_compute. repeat constructor. }
  rewrite H15. unfold u8. pose proof (Z.div_mod offset (2 ^ 8) ltac:(lia)) as D1. pose proof (Z.div_mod (offset / 2 ^ 8) (2 ^ 8) ltac:(lia)) as D2.
  pose proof (Z.div_mod (offset / 2 ^ 16) (2 ^ 8) ltac:(lia)) as D3.
  rewrite Z.div_div in D2 by lia. rewrite Z.div_div in D3 by lia. change (2 ^ 8 * 2 ^ 8) with (2 ^ 16) in D2. change (2 ^ 16 * 2 ^ 8) with (2 ^ 24) in D3. lia.
Qed.

Lemma readsect_run s dst offset : 0 ≤ offset < 2 ^ 28 →
  ∃ s', readsect dst offset s = Ret tt s' ∧ bmem s' = put_bytes (bmem s) dst (sector offset).
Proof.
  intros Ho. unfold readsect. destruct (waitdisk_run s) as [k1 E1]. rewrite (bind_run _ _ _ _ _ E1). unfold outb. do 6 run.
  match goal with |- context [(waitdisk ≫= _) ?st] => destruct (waitdisk_run st) as [k2 E2] end. rewrite (bind_run _ _ _ _ _ E2). clear E1 E2. unfold insl. eexists. split; [reflexivity|]. sst.
  rewrite (lba_offset _ offset) by done. change (Z.to_nat (4 * (SECTSIZE / 4))) with 512%nat. by rewrite take_ge by (rewrite sector_length; lia).
Qed.

(** The memory that reading the sectors of [len] bytes to [pa] fills. *)
Definition round (len : Z) : Z := (len + 511) / 512 * 512.

Lemma round_le len : len ≤ 0 → round len ≤ 0.
Proof. intros Hl. unfold round. pose proof (Z.div_lt_upper_bound (len + 511) 512 1). lia. Qed.
Lemma round_ge len : len ≤ round len < len + 512.
Proof. unfold round. pose proof (Z.div_mod (len + 511) 512 ltac:(lia)). pose proof (Z.mod_pos_bound (len + 511) 512). lia. Qed.

Lemma round_nonneg len : -512 < len → 0 ≤ round len.
Proof. intros Hl. unfold round. pose proof (Z.div_pos (len + 511) 512). lia. Qed.

Lemma readseg_loop_run n : ∀ s pa epa offset,
  0 ≤ pa → epa + 512 ≤ 2 ^ 32 → 0 ≤ offset → offset + Z.of_nat n < 2 ^ 28 → epa - pa ≤ 512 * Z.of_nat n →
  ∃ s', readseg_loop n pa epa offset s = Ret tt s' ∧
  ∀ x, bmem s' x = if decide (pa ≤ x < pa + round (epa - pa)) then byte_at (sector (offset + (x - pa) / 512)) (Z.to_nat ((x - pa) mod 512)) else bmem s x.
Proof.
  induction n as [|n IH]; intros s pa epa offset Hpa Hepa Ho Hon Hn; cbn [readseg_loop].
  - rewrite (proj2 (Z.ltb_ge pa epa)) by lia. exists s. split; [done|]. intros x. rewrite decide_False; [done|].
    pose proof (round_le (epa - pa)). lia.
  - destruct (Z.ltb_spec pa epa) as [Hlt|Hge]; [|exists s; split; [done|]; intros x; rewrite decide_False; [done|]; pose proof (round_le (epa - pa)); lia].
    destruct (readsect_run s pa offset ltac:(lia)) as (s1 & E1 & Hm1). rewrite (bind_run _ _ _ _ _ E1).
    unfold uadd, SECTSIZE. rewrite !u32_small by (unfold is_u32; lia).
    destruct (IH s1 (pa + 512) epa (offset + 1) ltac:(lia) Hepa ltac:(lia) ltac:(lia) ltac:(lia)) as (s2 & E2 & Hm2). exists s2. split; [done|].
    assert (Hr : round (epa - pa) = 512 + round (epa - (pa + 512))).
    { unfold round. replace (epa - pa + 511) with (epa - (pa + 512) + 511 + 1 * 512) by lia. rewrite Z.div_add by lia. lia. }
    intros x. rewrite Hm2, Hm1, Hr. unfold put_bytes. rewrite sector_length. change (Z.of_nat 512) with 512.
    pose proof (round_ge (epa - (pa + 512))) as Hg. pose proof (round_nonneg (epa - (pa + 512))) as Hz. destruct (decide (pa + 512 ≤ x < pa + 512 + round (epa - (pa + 512)))) as [Hx|Hx].
    + rewrite decide_True by lia. replace (x - pa) with (x - (pa + 512) + 1 * 512) by lia. rewrite Z.div_add, Z_mod_plus_full by lia. do 2 f_equal. lia.
    + destruct (Z.leb_spec pa x), (Z.ltb_spec x (pa + 512)); cbn [andb]; [|rewrite decide_False; [done|lia]..].
      rewrite decide_True by lia. rewrite Z.div_small, Z.mod_small by lia. by rewrite Z.add_0_r.
Qed.

(** The disk holds the image of the kernel from sector 1 on. *)
Definition on_disk (img : list Z) : Prop :=
  ∀ o, 0 ≤ o < Z.of_nat (length img) → byte_at (sector (1 + o / 512)) (Z.to_nat (o mod 512)) = byte_at img (Z.to_nat o).

Lemma readseg_run s img pa count offset :
  on_disk img → is_u32 offset → 0 ≤ count → offset mod 512 ≤ pa → pa + count + 512 ≤ 2 ^ 32 →
  ∃ s', readseg pa count offset s = Ret tt s'
  ∧ (∀ k, 0 ≤ k < count → offset + k < Z.of_nat (length img) → bmem s' (pa + k) = byte_at img (Z.to_nat (offset + k)))
  ∧ (∀ x, ¬ (pa - offset mod 512 ≤ x < pa - offset mod 512 + round (offset mod 512 + count)) → bmem s' x = bmem s x).
Proof.
  intros Hd Ho Hc Hpa Hb. unfold readseg, uadd, usub, SECTSIZE. unfold is_u32 in Ho.
  pose proof (Z.mod_pos_bound offset 512 ltac:(lia)) as Hm. pose proof (Z.div_mod offset 512 ltac:(lia)) as Hdm.
  pose proof (Z.div_mod count 512 ltac:(lia)) as Hdc. pose proof (Z.mod_pos_bound count 512 ltac:(lia)) as Hmc.
  rewrite !u32_small by (unfold is_u32; lia).
  destruct (readseg_loop_run (Z.to_nat (count / 512 + 2)) s (pa - offset mod 512) (pa + count) (offset / 512 + 1)) as (s' & E & Hx); [lia..|].
  replace (pa + count - (pa - offset mod 512)) with (offset mod 512 + count) in Hx by lia. exists s'. split; [done|]. split.
  - intros k Hk Hl. pose proof (round_ge (offset mod 512 + count)). rewrite Hx, decide_True by lia. rewrite <- Hd by lia.
    replace (pa + k - (pa - offset mod 512)) with (offset mod 512 + k) by lia.
    assert (Hq : (offset + k) / 512 = offset / 512 + (offset mod 512 + k) / 512).
    { replace (offset + k) with (offset mod 512 + k + offset / 512 * 512) by lia. rewrite Z.div_add by lia. lia. }
    rewrite Hq. f_equal; [f_equal; lia|]. f_equal. replace (offset + k) with (offset mod 512 + k + offset / 512 * 512) by lia. by rewrite Z_mod_plus_full.
  - intros x Hnx. by rewrite Hx, decide_False by done.
Qed.


(** The segments of an image. *)
Record seg := mkSeg { s_pa : Z; s_off : Z; s_filesz : Z; s_memsz : Z }.
Definition seg_at (img : list Z) (i : nat) : seg :=
  let o := (Z.to_nat (elf_phoff img) + 32 * i)%nat in
  mkSeg (get32 img (o + 12)) (get32 img (o + 4)) (get32 img (o + 16)) (get32 img (o + 20)).

(** What loading a segment may overwrite. *)
Definition lo (g : seg) : Z := s_pa g - s_off g mod 512.
Definition hi (g : seg) : Z := Z.max (lo g + round (s_off g mod 512 + s_filesz g)) (s_pa g + s_memsz g).
Definition stop (g : seg) : Z := s_pa g + Z.max (s_filesz g) (s_memsz g).

(** A kernel that the loader can load: its headers are in the first page, its
    segments in the file; none is loaded over the scratch page, nor over one
    that has been loaded before. *)
Record loadable (img : list Z) : Prop := {
  ld_bytes : bytes_ok img;
  ld_magic : elf_magic img = ELF_MAGIC;
  ld_headers : elf_phoff img + 32 * elf_phnum img ≤ 4096;
  ld_bounds i : (i < Z.to_nat (elf_phnum img))%nat → let g := seg_at img i in
    s_off g mod 512 ≤ s_pa g ∧ stop g + 512 ≤ 2 ^ 32 ∧ s_off g + s_filesz g ≤ Z.of_nat (length img);
  ld_scratch i : (i < Z.to_nat (elf_phnum img))%nat → let g := seg_at img i in hi g ≤ elf ∨ elf + 4096 ≤ lo g;
  ld_order i j : (i < j < Z.to_nat (elf_phnum img))%nat → let g := seg_at img i in let h := seg_at img j in hi h ≤ s_pa g ∨ stop g ≤ lo h
}.

(** The segment is in memory. *)
Definition loaded (img : list Z) (m : memory) (g : seg) : Prop :=
  (∀ k, 0 ≤ k < s_filesz g → m (s_pa g + k) = byte_at img (Z.to_nat (s_off g + k)))
  ∧ (∀ k, s_filesz g ≤ k < s_memsz g → m (s_pa g + k) = 0).

Section Image.
Context (img : list Z) (HD : on_disk img) (HL : loadable img).

(** The first page of the image in the scratch page. *)
Definition page1 (m : memory) : Prop := ∀ k, 0 ≤ k < 4096 → m (elf + k) = byte_at img (Z.to_nat k).

Lemma page1_load32 m o : page1 m → (o + 4 <= 4096)%nat → load32 m (elf + Z.of_nat o) = get32 img o.
Proof.
  intros Hp Ho. unfold load32, get32. rewrite <- !Z.add_assoc, !Hp by lia. rewrite !Z2Nat.inj_add, !Nat2Z.id by lia.
  change (Z.to_nat 1) with 1%nat. change (Z.to_nat 2) with 2%nat. change (Z.to_nat 3) with 3%nat. rewrite ?(Nat.add_comm o). cbn [Nat.add]. lia.
Qed.

Lemma seg_u32 i : let g := seg_at img i in is_u32 (s_pa g) ∧ is_u32 (s_off g) ∧ is_u32 (s_filesz g) ∧ is_u32 (s_memsz g).
Proof. cbn. pose proof (ld_bytes _ HL). split_and!; by apply get32_range. Qed.

Lemma seg_fields m i : page1 m → (i < Z.to_nat (elf_phnum img))%nat →
  let ph := elf + (elf_phoff img + 32 * Z.of_nat i) in
  paddr m ph = s_pa (seg_at img i) ∧ off m ph = s_off (seg_at img i) ∧ filesz m ph = s_filesz (seg_at img i) ∧ memsz m ph = s_memsz (seg_at img i).
Proof.
  intros Hp Hi ph. pose proof (ld_headers _ HL) as Hh. pose proof (get32_range img 28 (ld_bytes _ HL)) as Hu. fold (elf_phoff img) in Hu. unfold is_u32 in Hu.
  assert (E : ∀ j, (j + 4 <= 32)%nat → load32 m (ph + Z.of_nat j) = get32 img (Z.to_nat (elf_phoff img) + 32 * i + j)).
  { intros j Hj. rewrite <- (page1_load32 m) by (done || lia). f_equal. unfold ph. lia. }
  unfold paddr, off, filesz, memsz. change 12 with (Z.of_nat 12). change 4 with (Z.of_nat 4). change 16 with (Z.of_nat 16). change 20 with (Z.of_nat 20).
  rewrite !E by lia. done.
Qed.

Lemma page1_frame m m' g : page1 m → (hi g ≤ elf ∨ elf + 4096 ≤ lo g) → (∀ x, ¬ (lo g ≤ x < hi g) → m' x = m x) → page1 m'.
Proof. intros Hp Hg Hm k Hk. rewrite Hm by lia. by apply Hp. Qed.

Lemma loaded_frame m m' g : is_u32 (s_filesz g) → loaded img m g → (∀ x, s_pa g ≤ x < stop g → m' x = m x) → loaded img m' g.
Proof. intros U [H1 H2] Hm. unfold stop, is_u32 in *. split; intros k Hk; (rewrite Hm; [auto|lia]). Qed.

(** One turn of the loop over the program headers. *)
Lemma seg_run s i : page1 (bmem s) → (i < Z.to_nat (elf_phnum img))%nat →
  let ph := elf + (elf_phoff img + 32 * Z.of_nat i) in let g := seg_at img i in
  ∃ s1 s', readseg (paddr (bmem s) ph) (filesz (bmem s) ph) (off (bmem s) ph) s = Ret tt s1 ∧
    when (filesz (bmem s1) ph <? memsz (bmem s1) ph)
      (modify (λ st, st <| bmem := stosb (Z.to_nat (memsz (bmem s1) ph - filesz (bmem s1) ph)) (bmem s1) (uadd (paddr (bmem s) ph) (filesz (bmem s1) ph)) 0 |>)) s1 = Ret tt s' ∧
    loaded img (bmem s') g ∧ ∀ x, ¬ (lo g ≤ x < hi g) → bmem s' x = bmem s x.
Proof.
  intros Hp Hi ph g. destruct (seg_u32 i) as (U1 & U2 & U3 & U4). destruct (ld_bounds _ HL i Hi) as (B1 & B2 & B3). pose proof (ld_scratch _ HL i Hi) as Hsc.
  fold g in U1, U2, U3, U4, B1, B2, B3, Hsc. unfold is_u32 in *. unfold stop in B2.
  destruct (seg_fields (bmem s) i Hp Hi) as (F1 & F2 & F3 & _). fold ph g in F1, F2, F3. rewrite F1, F2, F3.
  destruct (readseg_run s img (s_pa g) (s_filesz g) (s_off g) HD ltac:(done) ltac:(lia) B1 ltac:(lia)) as (s1 & E1 & Hin & Hout).
  assert (Hp1 : page1 (bmem s1)) by (apply (page1_frame (bmem s) _ g); [done|done|intros x Hx; apply Hout; unfold hi, lo in *; lia]).
  exists s1. destruct (seg_fields (bmem s1) i Hp1 Hi) as (_ & _ & E3 & E4). fold g ph in E3, E4. rewrite E3, E4.
  unfold uadd. rewrite u32_small by (unfold is_u32; lia). destruct (Z.ltb_spec (s_filesz g) (s_memsz g)) as [Hlt|Hge]; cbn [when].
  - eexists. split; [done|]. split; [reflexivity|]. sst. split; [split|].
    + intros k Hk. rewrite stosb_spec, (proj2 (Z.leb_gt _ _)) by lia. cbn [andb]. apply Hin; lia.
    + intros k Hk. by rewrite stosb_spec, (proj2 (Z.leb_le _ _)), (proj2 (Z.ltb_lt _ _)) by lia.
    + intros x Hx. rewrite stosb_spec. unfold hi, lo in Hx. pose proof (Z.mod_pos_bound (s_off g) 512 ltac:(lia)).
      destruct (Z.leb_spec (s_pa g + s_filesz g) x), (Z.ltb_spec x (s_pa g + s_filesz g + Z.of_nat (Z.to_nat (s_memsz g - s_filesz g)))); cbn [andb]; try (apply Hout; lia). lia.
  - exists s1. split; [done|]. split; [done|]. split; [split|].
    + intros k Hk. apply Hin; lia.
    + intros k Hk. lia.
    + intros x Hx. apply Hout. unfold hi, lo in Hx. lia.
Qed.

Lemma load_loop_run n : ∀ i s, (i + n = Z.to_nat (elf_phnum img))%nat → page1 (bmem s) →
  let ph j := elf + (elf_phoff img + 32 * Z.of_nat j) in
  ∃ s', load_loop n (ph i) (ph (i + n)%nat) s = Ret tt s' ∧ page1 (bmem s')
  ∧ (∀ j, (i ≤ j < i + n)%nat → loaded img (bmem s') (seg_at img j))
  ∧ ∀ x, (∀ j, (i ≤ j < i + n)%nat → ¬ (lo (seg_at img j) ≤ x < hi (seg_at img j))) → bmem s' x = bmem s x.
Proof.
  induction n as [|n IH]; intros i s Hi Hp ph; cbn [load_loop].
  - rewrite Nat.add_0_r, Z.ltb_irrefl. exists s. split_and!; [done|done|intros; lia|done].
  - rewrite (proj2 (Z.ltb_lt (ph i) (ph (i + S n)%nat))) by (unfold ph; lia). run.
    destruct (seg_run s i Hp ltac:(lia)) as (s1 & s2 & E1 & E2 & Hld & Hout). rewrite (bind_run _ _ _ _ _ E1). run. rewrite (bind_run _ _ _ _ _ E2).
    assert (Hp2 : page1 (bmem s2)) by (apply (page1_frame (bmem s) _ (seg_at img i)); [done|apply (ld_scratch _ HL); lia|done]).
    destruct (IH (S i) s2 ltac:(lia) Hp2) as (s3 & E3 & Hp3 & Hall & Hrest). pose proof (ld_headers _ HL) as Hh. pose proof (get32_range img 28 (ld_bytes _ HL)) as Hu. fold (elf_phoff img) in Hu.
    assert (Hnext : uadd (ph i) PROGHDRSZ = ph (S i)) by (unfold uadd, ph, PROGHDRSZ, elf, is_u32 in *; rewrite u32_small by (unfold is_u32; lia); lia).
    rewrite Hnext. replace (i + S n)%nat with (S i + n)%nat by lia. exists s3. split_and!; [done|done| |].
    + intros j Hj. destruct (decide (j = i)) as [->|Hne]; [|apply Hall; lia]. apply (loaded_frame (bmem s2)); [apply seg_u32|done|].
      intros x Hx. apply Hrest. intros h Hh'. destruct (ld_order _ HL i h ltac:(lia)); lia.
    + intros x Hx. rewrite Hrest by (intros j Hj; apply Hx; lia). apply Hout, Hx. lia.
Qed.
End Image.

(** The first page. *)
Lemma header_run s img : on_disk img → 4096 ≤ Z.of_nat (length img) →
  ∃ s', readseg elf 4096 0 s = Ret tt s' ∧ page1 img (bmem s') ∧ ∀ x, ¬ (elf ≤ x < elf + 4096) → bmem s' x = bmem s x.
Proof.
  intros Hd Hl. destruct (readseg_run s img elf 4096 0 Hd) as (s' & E & Hin & Hout); [done|lia|done|done|].
  exists s'. split_and!; [done| |].
  - intros k Hk. rewrite Hin by lia. done.
  - intros x Hx. apply Hout. change (elf - 0 mod 512) with elf. change (round (0 mod 512 + 4096)) with 4096. lia.
Qed.

(** C21: the boot loader loads the kernel. With an ELF image on the disk from
    sector 1 on whose segments do not collide, bootmain ends with a call of the
    entry point of the image, and every segment is in memory at its physical
    address: the bytes of the file, and zeroes up to the size of the segment,
    although whole sectors are read. Of a disk without the magic number it
    returns, having written only the scratch page. *)
Theorem bootmain_loads s img : on_disk img → 4096 ≤ Z.of_nat (length img) →
  (loadable img → ∃ s', bootmain s = Ret (Some (elf_entry img)) s' ∧
     ∀ i, (i < Z.to_nat (elf_phnum img))%nat → loaded img (bmem s') (seg_at img i))
  ∧ (elf_magic img ≠ ELF_MAGIC → ∃ s', bootmain s = Ret None s' ∧ ∀ x, ¬ (elf ≤ x < elf + 4096) → bmem s' x = bmem s x).
Proof.
  intros Hd Hl. destruct (header_run s img Hd Hl) as (s1 & E1 & Hp & Hout). unfold bootmain. rewrite (bind_run _ _ _ _ _ E1). run.
  assert (Hw : ∀ m o, page1 img m → (o + 4 <= 4096)%nat → load32 m (elf + Z.of_nat o) = get32 img o) by (intros; by apply page1_load32).
  assert (Hmag : load32 (bmem s1) elf = elf_magic img) by (rewrite <- (Z.add_0_r elf); apply (Hw _ 0%nat); [done|lia]). rewrite Hmag. split.
  - intros HL. rewrite (ld_magic _ HL), Z.eqb_refl. cbn [negb].
    assert (Hph : load32 (bmem s1) (elf + 28) = elf_phoff img) by (apply (Hw _ 28%nat); [done|lia]).
    assert (Hnum : load16 (bmem s1) (elf + 44) = elf_phnum img).
    { unfold load16. rewrite <- Z.add_assoc, !Hp by lia. unfold elf_phnum, get16. change (Z.to_nat 44) with 44%nat. change (Z.to_nat (44 + 1)) with (1 + 44)%nat. lia. }
    rewrite Hph, Hnum. pose proof (ld_headers _ HL) as Hh. pose proof (get32_range img 28 (ld_bytes _ HL)) as Hu. pose proof (get16_range img 44 (ld_bytes _ HL)) as Hu2.
    fold (elf_phoff img) in Hu. fold (elf_phnum img) in Hu2. unfold is_u32, is_u16 in *.
    unfold uadd, PROGHDRSZ. assert (Hel : elf = 65536) by done. rewrite !u32_small by (unfold is_u32; lia).
    destruct (load_loop_run img Hd HL (Z.to_nat (elf_phnum img)) 0%nat s1 eq_refl Hp) as (s2 & E2 & Hp2 & Hall & _).
    replace (elf + (elf_phoff img + 32 * Z.of_nat 0)) with (elf + elf_phoff img) in E2 by lia.
    replace (elf + (elf_phoff img + 32 * Z.of_nat (0 + Z.to_nat (elf_phnum img)))) with (elf + elf_phoff img + 32 * elf_phnum img) in E2 by lia.
    rewrite (bind_run _ _ _ _ _ E2). run. exists s2. split; [|intros i Hi; apply Hall; lia]. f_equal. f_equal. apply (Hw _ 24%nat); [done|lia].
  - intros Hne. rewrite (proj2 (Z.eqb_neq _ _)) by done. by exists s1.
Qed.
End Loader.

(** A kernel of one segment: sixteen bytes at the end of the image, in a
    segment of a page at one megabyte. *)
Definition img1 : list Z :=
  put32 0 ELF_MAGIC (put32 24 1048588 (put32 28 52 (put16 44 1 (put32 56 4096 (put32 64 1048576 (put32 68 16 (put32 72 4096
    (replicate (Z.to_nat 4096) 0)))))))) ++ replicate 16 7.
#[local] Instance disk1 : BootDisk.
Proof.
  refine {| status _ := 64; sector k := (λ j, byte_at img1 (Z.to_nat ((k - 1) * 512 + j))) <$> seqZ 0 512; wait_bound := 0 |}.
  - intros n. by exists 0%nat.
  - intros k. by rewrite length_fmap, length_seqZ.
Defined.

Lemma img1_loadable : loadable img1.
Proof.
  assert (Hn : Z.to_nat (elf_phnum img1) = 1%nat) by by vm_compute. assert (Hs : seg_at img1 0 = mkSeg 1048576 4096 16 4096) by by vm_compute.
  assert (Hlen : length img1 = 4112%nat) by by vm_compute. split; rewrite ?Hn.
  - apply (bool_decide_eq_true_1 (Forall (λ b, 0 ≤ b < 256) img1)). by vm_compute.
  - by vm_compute.
  - by vm_compute.
  - intros i Hi. assert (i = 0%nat) as -> by lia. rewrite Hs. unfold stop. cbn [s_pa s_off s_filesz s_memsz]. change (4096 mod 512) with 0. rewrite Hlen. lia.
  - intros i Hi. assert (i = 0%nat) as -> by lia. rewrite Hs. right. unfold lo, elf. cbn [s_pa s_off]. change (4096 mod 512) with 0. lia.
  - intros i j Hij. lia.
Qed.

Lemma img1_on_disk : on_disk img1.
Proof.
  intros o Ho. cbn [sector disk1]. pose proof (Z.mod_pos_bound o 512 ltac:(lia)). pose proof (Z.div_mod o 512 ltac:(lia)).
  unfold byte_at at 1. rewrite list_lookup_fmap, lookup_seqZ_lt by lia. cbn [fmap option_fmap option_map default]. unfold id. do 2 f_equal.
  lia.
Qed.

Lemma bootmain_loads_witness :
  ∃ s', bootmain (mkBoot (λ _, 9) (λ _, 0) 0) = Ret (Some 1048588) s' ∧ bmem s' 1048576 = 7 ∧ bmem s' 1048600 = 0.
Proof.
  destruct (proj1 (bootmain_loads (mkBoot (λ _, 9) (λ _, 0) 0) img1 img1_on_disk ltac:(by vm_compute)) img1_loadable) as (s' & E & Hld).
  exists s'. split; [exact E|]. destruct (Hld 0%nat ltac:(vm_compute; lia)) as [H1 H2].
  assert (Hs : seg_at img1 0 = mkSeg 1048576 4096 16 4096) by by vm_compute. rewrite Hs in H1, H2. cbn [s_pa s_off s_filesz s_memsz] in H1, H2. split.
  - exact (H1 0 ltac:(lia)).
  - exact (H2 24 ltac:(lia)).
Defined.
End Bootmain.

(** ** Descriptor tables *)

Module Tables.
Import Descriptors.

(** The four descriptors of seginit, in the table of the CPU. *)
Definition fill_gdt (gdt : list segdesc) : list segdesc :=
  <[Z.to_nat SEG_UDATA := SEG STA_W 0 (2 ^ 32 - 1) DPL_USER]>
  (<[Z.to_nat SEG_UCODE := SEG (Z.lor STA_X STA_R) 0 (2 ^ 32 - 1) DPL_USER]>
  (<[Z.to_nat SEG_KDATA := SEG STA_W 0 (2 ^ 32 - 1) 0]>
  (<[Z.to_nat SEG_KCODE := SEG (Z.lor STA_X STA_R) 0 (2 ^ 32 - 1) 0]> gdt))).

(** The gates of tvinit, for the entry points [vectors] that vectors.S is
    generated with. *)
Definition fill_idt (vectors : nat → Z) (idt : list gatedesc) : list gatedesc :=
  <[Z.to_nat T_SYSCALL := SETGATE true (Z.shiftl SEG_KCODE 3) (vectors (Z.to_nat T_SYSCALL)) DPL_USER]>
  (foldl (λ idt i, <[i := SETGATE false (Z.shiftl SEG_KCODE 3) (vectors i) 0]> idt) idt (seq 0 256)).

(** What the CPU reads of the segments and gates. *)
Definition seg_reading (i x : Z) : Prop :=
  0 ≤ x < 2 ^ 64 ∧ seg_base x = 0 ∧ seg_limit x = 2 ^ 32 - 1
  ∧ field 40 4 x = (if (i =? SEG_KCODE) || (i =? SEG_UCODE) then Z.lor STA_X STA_R else STA_W)
  ∧ field 44 1 x = 1 ∧ field 45 2 x = (if i <=? SEG_KDATA then 0 else DPL_USER) ∧ field 47 1 x = 1.
Definition gate_reading (vectors : nat → Z) (i : nat) (x : Z) : Prop :=
  let call := bool_decide (i = Z.to_nat T_SYSCALL) in
  0 ≤ x < 2 ^ 64 ∧ gate_offset x = vectors i ∧ field 16 16 x = 8 * SEG_KCODE ∧ field 40 4 x = (if call then STS_TG32 else STS_IG32)
  ∧ field 44 1 x = 0 ∧ field 45 2 x = (if call then DPL_USER else 0) ∧ field 47 1 x = 1.

Lemma fill_gdt_reads gdt i : length gdt = 6%nat → 1 ≤ i ≤ 4 →
  ∃ d, fill_gdt gdt !! Z.to_nat i = Some d ∧ typed (seg_bits d) ∧ seg_reading i (seg_word d).
Proof.
  intros Hg Hr. assert (Hc : i = 1 ∨ i = 2 ∨ i = 3 ∨ i = 4) by lia.
  do 7 (destruct gdt as [|? gdt]; try done). destruct Hc as [-> | [-> | [-> | ->]]]; (eexists; split; [reflexivity|]; split; [apply seg_typed|]);
    (refine (seg_reads _ 0 (2 ^ 32 - 1) _ _ _ _ _); [done|done|done|done]).
Qed.

Lemma fill_idt_reads idt vectors i : length idt = 256%nat → (∀ i, is_u32 (vectors i)) → (i < 256)%nat →
  ∃ g, fill_idt vectors idt !! i = Some g ∧ typed (gate_bits g) ∧ gate_reading vectors i (gate_word g).
Proof.
  intros Hi Hv Hlt. unfold fill_idt, gate_reading. destruct (decide (i = Z.to_nat T_SYSCALL)) as [->|Hne].
  - eexists. split; [apply list_lookup_insert_eq; rewrite fill_length, Hi; cbn; lia|]. split; [apply gate_typed|]. rewrite bool_decide_eq_true_2 by done. by apply (gate_reads true (Z.shiftl SEG_KCODE 3)).
  - eexists. rewrite list_lookup_insert_ne by done. split; [rewrite fill_lookup, decide_True by lia; reflexivity|]. split; [apply gate_typed|].
    rewrite bool_decide_eq_false_2 by done. by apply (gate_reads false (Z.shiftl SEG_KCODE 3)).
Qed.

(** C33: the descriptor tables are well formed, and the CPU reads from them what
    the kernel means. After seginit each of the four segments has fields within
    their widths and is present, flat (base 0, limit 4 GB), code or data, with
    the privilege of the kernel or of the user. After tvinit each of the 256
    gates has fields within their widths, is present and leads to its entry
    point in the code segment of the kernel; the gate of the system calls, and
    no other, is a trap gate that user code may call. What lgdt and lidt load is
    the address and the last byte of the table. *)
Theorem descriptors_typed gdt idt vectors p :
  length gdt = 6%nat → length idt = 256%nat → (∀ i, is_u32 (vectors i)) → is_u32 p →
  (∀ i, 1 ≤ i ≤ 4 → ∃ d, fill_gdt gdt !! Z.to_nat i = Some d ∧ typed (seg_bits d) ∧ seg_reading i (seg_word d))
  ∧ (∀ i, (i < 256)%nat → ∃ g, fill_idt vectors idt !! i = Some g ∧ typed (gate_bits g) ∧ gate_reading vectors i (gate_word g))
  ∧ (∀ size, 0 < size ≤ 2 ^ 16 → ∀ w, w = lgdt p size ∨ w = lidt p size →
       byte_at w 0 = size - 1 ∧ byte_at w 1 + 2 ^ 16 * byte_at w 2 = p).
Proof.
  intros Hg Hi Hv Hp. split_and!.
  - intros i Hr. by apply fill_gdt_reads.
  - intros i Hlt. by apply fill_idt_reads.
  - intros size Hs w Hw. unfold is_u32 in Hp. assert (E : w = [u16 (size - 1); u16 p; u16 (Z.shiftr p 16)]) by (destruct Hw as [-> | ->]; done). rewrite E. unfold byte_at. cbn [lookup list_lookup default]. unfold id, u16.
    rewrite Z.shiftr_div_pow2 by lia. rewrite !(Z.mod_small (size - 1)) by lia. pose proof (Z.div_mod p (2 ^ 16)).
    rewrite (Z.mod_small (p / 2 ^ 16)) by (split; [apply Z.div_pos; lia|apply Z.div_lt_upper_bound; lia]). lia.
Qed.

Lemma descriptors_typed_witness :
  let z := mkSegdesc 0 0 0 0 0 0 0 0 0 0 0 0 0 in let g := mkGatedesc 0 0 0 0 0 0 0 0 0 in
  (∃ d, fill_gdt (replicate 6 z) !! 3%nat = Some d ∧ field 45 2 (seg_word d) = DPL_USER)
  ∧ (∃ d, fill_idt (λ i, 1048576 + 8 * Z.of_nat i mod 2048) (replicate 256 g) !! 64%nat = Some d ∧ gate_offset (gate_word d) = 1049088).
Proof.
  intros z g. destruct (descriptors_typed (replicate 6 z) (replicate 256 g) (λ i, 1048576 + 8 * Z.of_nat i mod 2048) 4096) as (H1 & H2 & _).
  - reflexivity.
  - reflexivity.
  - intros i. pose proof (Z.mod_pos_bound (8 * Z.of_nat i) 2048 ltac:(lia)). unfold is_u32. lia.
  - done.
  - split.
    + destruct (H1 3 ltac:(lia)) as (d & E & _ & _ & _ & _ & _ & _ & Hd & _). exists d. split; [exact E|exact Hd].
    + destruct (H2 64%nat ltac:(lia)) as (d & E & _ & _ & Hd & _). exists d. split; [exact E|exact Hd].
Defined.

End Tables.
