(* ===== verification/Utils.v ===== *)
(** The small user programs (cat.c, wc.c, cp.c, echo.c, ls.c, kill.c, ln.c, rm.c,
    mkdir.c, touch.c, nice.c, ps.c, date.c, suid.c, sgid.c, zombie.c, init.c, and main
    of grep.c) as trees of system calls.  [argv] is the argument vector with the name of the
    program in front; a loop that reads to the end of a file has fuel. *)

From S2P Require Import Prelude Types Bytes Printf Fs Sysfile Grep Sh Usys.

(** A format that ends in a newline. *)
Definition line_ (s : string) : list Z := chars s ++ [10].

(** What is in the buffer after a read that returned [r]. *)
Definition got (r : Z) (d : list Z) : list Z := take (Z.to_nat r) d.

(** ** cat.c *)

Fixpoint cat (n : nat) (fd : Z) : prog unit :=
  '(r, d) ← sysd (Read fd 512);
  if 0 <? r then
    w ← sys (Write 1 (got r d));
    if negb (w =? r) then printf 1 (line_ "cat: write error") [];; exit else
    match n with O => Hang | S n' => cat n' fd end
  else if r <? 0 then printf 1 (line_ "cat: read error") [];; exit
  else mret tt.

Fixpoint cat_files (n : nat) (files : list (list Z)) : prog unit :=
  match files with
  | [] => exit
  | f :: files' =>
      fd ← sys (Open f 0);
      if fd <? 0 then printf 1 (line_ "cat: cannot open %s") [AStr (Some f)];; exit else
      cat n fd;;
      sys (Close fd);;
      cat_files n files'
  end.
Definition cat_main (n : nat) (argv : list (list Z)) : prog unit :=
  match tail argv with [] => cat n 0;; exit | files => cat_files n files end.

(** ** wc.c *)

(** strchr(" \r\t\n\v", c) *)
Definition wc_space (c : Z) : bool := existsb (Z.eqb c) [32; 13; 9; 10; 11].

(** The counters of wc: lines, words, characters, and whether it is in a word. *)
Record counts := mkCounts { nl : Z; nw : Z; nc : Z; inword : bool }.

Definition wc_char (s : counts) (c : Z) : counts :=
  let nc' := i32 (nc s + 1) in
  let nl' := if c =? 10 then i32 (nl s + 1) else nl s in
  if wc_space c then mkCounts nl' (nw s) nc' false
  else if negb (inword s) then mkCounts nl' (i32 (nw s + 1)) nc' true
  else mkCounts nl' (nw s) nc' (inword s).

Fixpoint wc_loop (n : nat) (fd : Z) (s : counts) : prog (Z * counts) :=
  '(r, d) ← sysd (Read fd 512);
  if 0 <? r then
    let s := foldl wc_char s (got r d) in
    match n with O => Hang | S n' => wc_loop n' fd s end
  else mret (r, s).

Definition wc (n : nat) (fd : Z) (name : list Z) : prog unit :=
  '(r, s) ← wc_loop n fd (mkCounts 0 0 0 false);
  if r <? 0 then printf 1 (line_ "wc: read error") [];; exit else
  printf 1 (line_ "%d %d %d %s") [AInt (nl s); AInt (nw s); AInt (nc s); AStr (Some name)].

Fixpoint wc_files (n : nat) (files : list (list Z)) : prog unit :=
  match files with
  | [] => exit
  | f :: files' =>
      fd ← sys (Open f 0);
      if fd <? 0 then printf 1 (line_ "wc: cannot open %s") [AStr (Some f)];; exit else
      wc n fd f;;
      sys (Close fd);;
      wc_files n files'
  end.
Definition wc_main (n : nat) (argv : list (list Z)) : prog unit :=
  match tail argv with [] => wc n 0 [];; exit | files => wc_files n files end.

(** ** cp.c *)

Fixpoint cp_loop (n : nat) (fds fdd : Z) : prog unit :=
  '(r, d) ← sysd (Read fds 512);
  if 0 <? r then
    sys (Write fdd (got r d));;
    match n with O => Hang | S n' => cp_loop n' fds fdd end
  else mret tt.

Definition cp_main (n : nat) (argv : list (list Z)) : prog unit :=
  match argv with
  | [_; src; dst] =>
      fds ← sys (Open src O_RDONLY);
      if fds <? 0 then printf 1 (line_ "cp: cannot open %s") [AStr (Some src)];; exit else
      fdd ← sys (Open dst (Z.lor O_CREATE O_RDWR));
      if fdd <? 0 then printf 1 (line_ "cp: cannot open %s") [AStr (Some dst)];; exit else
      cp_loop n fds fdd;;
      sys (Close fds);;
      sys (Close fdd);;
      exit
  | _ => printf 1 (chars "cp SOURCE DEST") [];; exit
  end.

(** ** echo.c *)

Fixpoint echo_args (args : list (list Z)) : prog unit :=
  match args with
  | [] => mret tt
  | a :: args' =>
      printf 1 (chars "%s%s") [AStr (Some a); AStr (Some (match args' with [] => [10] | _ => [32] end))];;
      echo_args args'
  end.
Definition echo_main (argv : list (list Z)) : prog unit := echo_args (tail argv);; exit.

(** ** Programs that make one call for each argument *)

Definition kill_main (argv : list (list Z)) : prog unit :=
  match tail argv with
  | [] => printf 2 (line_ "usage: kill pid...") [];; exit
  | pids => each pids (λ a, sys (Kill (atoi a));; mret tt);; exit
  end.

Definition ln_main (argv : list (list Z)) : prog unit :=
  match argv with
  | [_; old; new] =>
      r ← sys (Link old new);
      (if r <? 0 then printf 2 (line_ "link %s %s: failed") [AStr (Some old); AStr (Some new)] else mret tt);;
      exit
  | _ => printf 2 (line_ "Usage: ln old new") [];; exit
  end.

(** rm and mkdir stop at the first failure. *)
Fixpoint rm_files (files : list (list Z)) : prog unit :=
  match files with
  | [] => mret tt
  | f :: files' =>
      r ← sys (Unlink f);
      if r <? 0 then printf 2 (line_ "rm: %s failed to delete") [AStr (Some f)] else rm_files files'
  end.
Definition rm_main (argv : list (list Z)) : prog unit :=
  match tail argv with
  | [] => printf 2 (line_ "Usage: rm files...") [];; exit
  | files => rm_files files;; exit
  end.

Fixpoint mkdir_files (files : list (list Z)) : prog unit :=
  match files with
  | [] => mret tt
  | f :: files' =>
      r ← sys (Mkdir f);
      if r <? 0 then printf 2 (line_ "mkdir: %s failed to create") [AStr (Some f)] else mkdir_files files'
  end.
Definition mkdir_main (argv : list (list Z)) : prog unit :=
  match tail argv with
  | [] => printf 2 (line_ "Usage: mkdir files...") [];; exit
  | files => mkdir_files files;; exit
  end.

(** touch goes over all of [argv], its own name included. *)
Definition touch_main (argv : list (list Z)) : prog unit :=
  each argv (λ a, fd ← sys (Open a O_CREATE); sys (Close fd);; mret tt);; exit.

Definition nice_main (argv : list (list Z)) : prog unit :=
  match argv with
  | _ :: a :: b :: _ =>
      let pid := atoi a in
      let priority := atoi b in
      if ((priority <? 0) || (20 <? priority))%bool then printf 2 (line_ "Invalid priority (0-20)!") [];; exit else
      sys (Chpr pid priority);;
      exit
  | _ => printf 2 (line_ "Usage: nice pid priority") [];; exit
  end.

(** ** ps.c, date.c, suid.c, sgid.c, zombie.c, init.c *)

Definition ps_main : prog unit := sys Cps;; sys Nps;; exit.

(** The fields of [struct rtcdate] in the bytes stored. *)
Definition date_main : prog unit :=
  '(r, d) ← sysd Date;
  if negb (r =? 0) then printf 2 (line_ "date failed") [];; exit else
  printf 1 (line_ "%d/%d/%d %d:%d:%d")
    [AInt (get32 d 12); AInt (get32 d 16); AInt (get32 d 20); AInt (get32 d 8); AInt (get32 d 4); AInt (get32 d 0)];;
  exit.

Definition suid_main (argv : list (list Z)) : prog unit :=
  match argv with
  | [_; a] => uid ← sys (Suid (u32 (atoi a))); printf 1 (line_ "UID is now: %d") [AInt (u32 uid)];; exit
  | _ => printf 1 (line_ "usage: suid USER_ID") [];; exit
  end.

Definition sgid_main (argv : list (list Z)) : prog unit :=
  match argv with
  | [_; a] => gid ← sys (Sgid (u32 (atoi a))); printf 1 (line_ "GID is now: %d") [AInt (u32 gid)];; exit
  | _ => printf 1 (line_ "usage: sgid USER_ID") [];; exit
  end.

Definition zombie_main : prog unit :=
  pid ← sys Fork;
  (if 0 <? pid then sys (Sleep 5);; mret tt else mret tt);;
  exit.

(** The inner loop of init, and the outer one. *)
Fixpoint reap (n : nat) (pid : Z) : prog unit :=
  wpid ← sys Wait;
  if ((0 <=? wpid) && negb (wpid =? pid))%bool then
    printf 1 (line_ "zombie!") [];;
    match n with O => Hang | S n' => reap n' pid end
  else mret tt.

Fixpoint init_loop (n : nat) : prog unit :=
  printf 1 (line_ "init: starting sh") [];;
  pid ← sys Fork;
  if pid <? 0 then printf 1 (line_ "init: fork failed") [];; exit else
  if pid =? 0 then
    sys (Exec_ (chars "sh") [chars "sh"]);;
    printf 1 (line_ "init: exec sh failed") [];;
    exit
  else
    match n with O => Hang | S n' => reap n' pid;; init_loop n' end.

Definition init_main (n : nat) : prog unit :=
  fd ← sys (Open (chars "console") O_RDWR);
  (if fd <? 0 then
     sys (Mknod (chars "console") 1 1);;
     sys (Open (chars "console") O_RDWR);;
     mret tt
   else mret tt);;
  sys (Dup 0);;
  sys (Dup 0);;
  init_loop n.

(** ** ls.c *)

(** The string at the beginning of a buffer. *)
Definition cname (l : list Z) : list Z := take (nul_from l) l.

(** fmtname: what follows the last slash, padded with blanks. *)
Fixpoint after_slash (path : list Z) : list Z :=
  match path with
  | [] => []
  | c :: path' => if existsb (Z.eqb 47) path' then after_slash path' else if c =? 47 then path' else path
  end.
Definition fmtname (path : list Z) : list Z :=
  let p := after_slash path in
  if DIRSIZ <=? Z.of_nat (length p) then p else p ++ replicate (Z.to_nat DIRSIZ - length p) 32.

(** The fields of [struct stat] in the bytes stored. *)
Definition ls_entry (name st : list Z) : prog unit :=
  printf 1 (line_ "%s %d %d %d") [AStr (Some (fmtname name)); AInt (i16 (get16 st 0)); AInt (get32 st 8); AInt (get32 st 16)].

Fixpoint ls_dir (n : nat) (fd : Z) (path : list Z) : prog unit :=
  '(r, de) ← sysd (Read fd DIRENTSZ);
  if r =? DIRENTSZ then
    (if de_inum de =? 0 then mret tt else
     let buf := path ++ [47] ++ cname (de_name de) in
     '(r, st) ← stat_ buf;
     if r <? 0 then printf 1 (line_ "ls: cannot stat %s") [AStr (Some buf)] else ls_entry buf st);;
    match n with O => Hang | S n' => ls_dir n' fd path end
  else mret tt.

Definition ls (n : nat) (path : list Z) : prog unit :=
  fd ← sys (Open path 0);
  if fd <? 0 then printf 2 (line_ "ls: cannot open %s") [AStr (Some path)] else
  '(r, st) ← sysd (Fstat fd);
  if r <? 0 then printf 2 (line_ "ls: cannot stat %s") [AStr (Some path)];; sys (Close fd);; mret tt else
  let type := i16 (get16 st 0) in
  (if type =? T_FILE then ls_entry path st
   else if type =? T_DIR then
     if 512 <? Z.of_nat (length path) + 1 + DIRSIZ + 1 then printf 1 (line_ "ls: path too long") [] else ls_dir n fd path
   else mret tt);;
  sys (Close fd);;
  mret tt.

Definition ls_main (n : nat) (argv : list (list Z)) : prog unit :=
  match tail argv with [] => ls n (chars ".");; exit | paths => each paths (ls n);; exit end.

(** ** grep.c

    The inner loop on the buffer from [p], which returns the buffer from the final
    [p]; the outer loop, with [pend] in the buffer. *)
Fixpoint grep_out (n : nat) (pattern l : list Z) : prog (list Z) :=
  match n with
  | O => mret l
  | S n' =>
      match find_nl l with
      | None => mret l
      | Some k =>
          (if match_ pattern (take k l) then sys (Write 1 (take k l ++ [NL]));; mret tt else mret tt);;
          grep_out n' pattern (drop (S k) l)
      end
  end.

Fixpoint grep_fd (n : nat) (pattern pend : list Z) (fd : Z) : prog unit :=
  '(r, d) ← sysd (Read fd (1024 - Z.of_nat (length pend) - 1));
  if 0 <? r then
    let buf := pend ++ got r d in
    rest ← grep_out (length buf) pattern buf;
    match n with
    | O => Hang
    | S n' => grep_fd n' pattern (if (length rest =? length buf)%nat then [] else rest) fd
    end
  else mret tt.

Definition grep_main (n : nat) (argv : list (list Z)) : prog unit :=
  match tail argv with
  | [] => printf 2 (line_ "usage: grep pattern [file ...]") [];; exit
  | [pattern] => grep_fd n pattern [] 0;; exit
  | pattern :: files =>
      each files (λ f,
        fd ← sys (Open f 0);
        if fd <? 0 then printf 1 (line_ "grep: cannot open %s") [AStr (Some f)];; exit else
        grep_fd n pattern [] fd;;
        sys (Close fd);;
        mret tt);;
      exit
  end.

(** ** Running a program against given answers

    The calls a program makes when they are answered one after the other by
    [rs], and how it ends; it blocks when the answers run out. *)
Inductive final (A : Type) := Returned (a : A) | Exited | Blocked | Hung.
Arguments Returned {A}. Arguments Exited {A}. Arguments Blocked {A}. Arguments Hung {A}.

Fixpoint play {A} (m : prog A) (rs : list (Z * list Z)) : list call * final A :=
  match m with
  | Done a => ([], Returned a)
  | Exit => ([], Exited)
  | Hang => ([], Hung)
  | Call c k =>
      match rs with
      | [] => ([c], Blocked)
      | (r, d) :: rs' => let '(t, f) := play (k r d) rs' in (c :: t, f)
      end
  end.

(** The answers to reading a file in the pieces [cs], each cut off by the end of
    the buffer at the latest, up to the end of the file. *)
Definition pieces (cs : list (list Z)) : Prop := Forall (λ c, 0 < Z.of_nat (length c) ≤ 512) cs.
Definition reads (cs : list (list Z)) : list (Z * list Z) := ((λ c, (Z.of_nat (length c), c)) <$> cs) ++ [(0, [])].

(** The answers to writing [out] one character at a time. *)
Definition written (out : list Z) : list (Z * list Z) := replicate (length out) (1, []).

Lemma play_bind {A B} (m : prog A) (f : A → prog B) : ∀ rs1 rs2 t a,
  play m rs1 = (t, Returned a) → length t = length rs1 →
  play (m ≫= f) (rs1 ++ rs2) = let '(t2, f2) := play (f a) rs2 in (t ++ t2, f2).
Proof.
  induction m as [x| |c k IH|]; intros rs1 rs2 t a E Hl; cbn [play] in E; try done.
  - injection E as <- <-. destruct rs1; [|done]. change (Done x ≫= f) with (f x). cbn [app]. by destruct (play (f x) rs2).
  - destruct rs1 as [|[r d] rs1]; [done|]. destruct (play (k r d) rs1) as [t' f'] eqn:E'. injection E as <- ->. cbn [length] in Hl.
    change (Call c k ≫= f) with (Call c (λ r d, k r d ≫= f)). cbn [app play]. rewrite (IH r d rs1 rs2 t' a E') by lia. by destruct (play (f a) rs2).
Qed.

Lemma play_each out fd : play (each out (putc fd)) (written out) = ((λ c, Write fd [c]) <$> out, Returned tt).
Proof.
  induction out as [|c out IH]; [done|]. cbn [each]. change (written (c :: out)) with ([(1, @nil Z)] ++ written out).
  rewrite (play_bind (putc fd c) _ [(1, [])] _ [Write fd [c]] tt) by done. by rewrite IH.
Qed.

Lemma play_printf fd fmt args out : uformat false fmt args = Some out →
  play (printf fd fmt args) (written out) = ((λ c, Write fd [c]) <$> out, Returned tt).
Proof. intros E. unfold printf. rewrite E. apply play_each. Qed.

(** ** wc *)

(** The characters that begin a word. *)
Definition is_letter (l : list Z) (i : nat) : bool := match l !! i with Some c => negb (wc_space c) | None => false end.
Definition begins (l : list Z) (i : nat) : bool := is_letter l i && (match i with O => true | S j => negb (is_letter l j) end).
Definition count_if (f : nat → bool) (n : nat) : nat := length (filter (λ i, f i = true) (seq 0 n)).

Lemma count_if_S f n : count_if f (S n) = (count_if f n + (if f n then 1 else 0))%nat.
Proof.
  unfold count_if. rewrite seq_S, filter_app, length_app. cbn [Nat.add]. f_equal. rewrite filter_cons. destruct (f n) eqn:E; [by rewrite decide_True|by rewrite decide_False].
Qed.

Lemma count_if_ext f g n : (∀ i, (i < n)%nat → f i = g i) → count_if f n = count_if g n.
Proof. induction n as [|n IH]; intros H; [done|]. rewrite !count_if_S, IH by (intros; apply H; lia). by rewrite H by lia. Qed.

Lemma count_if_le f n : (count_if f n <= n)%nat.
Proof. induction n as [|n IH]; [done|]. rewrite count_if_S. destruct (f n); lia. Qed.

Definition lines (l : list Z) : Z := Z.of_nat (length (filter (λ c, c = 10) l)).
Definition words (l : list Z) : Z := Z.of_nat (count_if (begins l) (length l)).

Lemma words_snoc l c : words (l ++ [c]) = words l + (if begins (l ++ [c]) (length l) then 1 else 0).
Proof.
  unfold words. rewrite length_app. cbn [length]. rewrite Nat.add_1_r, count_if_S.
  rewrite (count_if_ext (begins (l ++ [c])) (begins l)); [destruct (begins (l ++ [c]) (length l)); lia|].
  intros i Hi. unfold begins, is_letter. destruct i as [|i]; rewrite !lookup_app_l by lia; done.
Qed.

(** The counters after reading [l]. *)
Lemma wc_chars l : Z.of_nat (length l) < 2 ^ 31 →
  foldl wc_char (mkCounts 0 0 0 false) l
  = mkCounts (lines l) (words l) (Z.of_nat (length l)) (match length l with O => false | S j => is_letter l j end).
Proof.
  induction l as [|c l IH] using rev_ind; intros Hl; [done|]. rewrite length_app in Hl. cbn [length] in Hl. rewrite foldl_app, IH by lia. cbn [foldl].
  assert (Hc : is_letter (l ++ [c]) (length l) = negb (wc_space c)) by (unfold is_letter; by rewrite lookup_app_r, Nat.sub_diag by lia).
  assert (Hin : match length l with O => true | S j => negb (is_letter (l ++ [c]) j) end = negb (match length l with O => false | S j => is_letter l j end)).
  { destruct (length l) as [|j] eqn:E; [done|]. unfold is_letter. by rewrite lookup_app_l by lia. }
  pose proof (count_if_le (begins l) (length l)) as Hw. assert (Hln : lines (l ++ [c]) = lines l + (if c =? 10 then 1 else 0)).
  { unfold lines. rewrite filter_app, length_app, filter_cons. destruct (Z.eqb_spec c 10); [rewrite decide_True by done|rewrite decide_False by done]; cbn; lia. }
  assert (Hlb : 0 ≤ lines l ≤ Z.of_nat (length l)) by (unfold lines; pose proof (length_filter (λ c, c = 10) l); lia).
  assert (Hi : ∀ x, 0 ≤ x < 2 ^ 31 → i32 x = x) by (intros x Hx; apply i32_small; unfold is_i32; lia).
  rewrite words_snoc, length_app, Nat.add_1_r, Hc, Hln. cbn [length]. unfold wc_char, begins. cbn [nl nw nc inword]. rewrite Hc, Hin. unfold words in *.
  destruct (wc_space c), (c =? 10), (match length l with O => false | S j => is_letter l j end); cbn [negb andb]; rewrite ?Hi by lia; f_equal; lia.
Qed.

Lemma wc_loop_run fd cs : pieces cs → ∀ n s, (length cs <= n)%nat →
  play (wc_loop n fd s) (reads cs) = (replicate (S (length cs)) (Read fd 512), Returned (0, foldl wc_char s (concat cs))).
Proof.
  induction 1 as [|c cs Hc _ IH]; intros n s Hn; [by destruct n|]. destruct n as [|n]; [cbn in Hn; lia|]. cbn [length] in Hn. cbn [wc_loop].
  change (reads (c :: cs)) with ([(Z.of_nat (length c), c)] ++ reads cs).
  rewrite (play_bind (sysd (Read fd 512)) _ [(Z.of_nat (length c), c)] _ [Read fd 512] (Z.of_nat (length c), c)) by done. cbv beta iota zeta.
  rewrite (proj2 (Z.ltb_lt 0 _)) by lia. unfold got. rewrite Nat2Z.id, firstn_all, IH by lia. cbn [concat]. by rewrite foldl_app.
Qed.

Definition decimal (x : Z) : list Z := uprintint x 10 true.

Lemma wc_format a b c s : uformat false (line_ "%d %d %d %s") [AInt a; AInt b; AInt c; AStr (Some s)]
  = Some (decimal (i32 a) ++ [32] ++ decimal (i32 b) ++ [32] ++ decimal (i32 c) ++ [32] ++ s ++ [10]).
Proof. reflexivity. Qed.

(** Wc counts. However the kernel cuts the file into pieces, wc reads it to
    the end and prints, followed by the name, the number of newlines, the number
    of words, that is of characters other than white space at the beginning or
    after white space, and the number of characters. *)
Theorem wc_counts fd name cs n :
  let l := concat cs in
  let out := decimal (lines l) ++ [32] ++ decimal (words l) ++ [32] ++ decimal (Z.of_nat (length l)) ++ [32] ++ name ++ [10] in
  pieces cs → (length cs <= n)%nat → Z.of_nat (length l) < 2 ^ 31 →
  play (wc n fd name) (reads cs ++ written out)
  = (replicate (S (length cs)) (Read fd 512) ++ ((λ c, Write 1 [c]) <$> out), Returned tt).
Proof.
  intros l out Hp Hn Hl. unfold wc. rewrite (play_bind _ _ _ _ _ _ (wc_loop_run fd cs Hp n (mkCounts 0 0 0 false) Hn)) by (unfold reads; rewrite length_replicate, length_app, length_fmap; cbn; lia).
  cbv beta iota. change (0 <? 0) with false. cbv iota. fold l. rewrite wc_chars by done. cbn [nl nw nc]. rewrite (play_printf _ _ _ out); [done|].
  pose proof (count_if_le (begins l) (length l)). pose proof (length_filter (λ c, c = 10) l).
  rewrite wc_format. unfold out, lines, words. by rewrite !i32_small by (unfold is_i32; lia).
Qed.

(** [wc x] on a file that is read in two pieces. *)
Lemma wc_counts_witness :
  play (wc 2 3 [120]) (reads [[104; 105; 32; 104]; [111; 10]] ++ written [49; 32; 50; 32; 54; 32; 120; 10])
  = (replicate 3 (Read 3 512) ++ ((λ c, Write 1 [c]) <$> [49; 32; 50; 32; 54; 32; 120; 10]), Returned tt).
Proof.
  apply (wc_counts 3 [120] [[104; 105; 32; 104]; [111; 10]] 2).
  - repeat constructor; cbn; lia.
  - cbn. lia.
  - cbn. lia.
Defined.

(** ** cat and cp *)

(** The answers to reading the pieces [cs] and writing each of them. *)
Definition copied (cs : list (list Z)) : list (Z * list Z) :=
  concat ((λ c, [(Z.of_nat (length c), c); (Z.of_nat (length c), [])]) <$> cs) ++ [(0, [])].
Definition copying (fd fd' : Z) (cs : list (list Z)) : list call :=
  concat ((λ c, [Read fd 512; Write fd' c]) <$> cs) ++ [Read fd 512].

Lemma copied_length fd fd' cs : length (copying fd fd' cs) = length (copied cs).
Proof. unfold copying, copied. induction cs as [|c cs IH]; [done|]. cbn in *. by f_equal; f_equal. Qed.

(** cat writes what it reads, piece by piece, to descriptor 1. *)
Lemma cat_copies fd cs : pieces cs → ∀ n, (length cs <= n)%nat → play (cat n fd) (copied cs) = (copying fd 1 cs, Returned tt).
Proof.
  induction 1 as [|c cs Hc _ IH]; intros n Hn; [by destruct n|]. destruct n as [|n]; cbn [length] in Hn; [lia|]. specialize (IH n ltac:(lia)).
  unfold copied, copying in *. cbn [fmap list_fmap concat app] in *. cbn [cat]. cbn [sysd mbind prog_mbind prog_bind play].
  rewrite (proj2 (Z.ltb_lt 0 _)) by lia. cbn [sys mbind prog_mbind prog_bind play]. rewrite Z.eqb_refl. cbn [negb]. setoid_rewrite IH. unfold got. by rewrite Nat2Z.id, firstn_all.
Qed.

Lemma cp_loop_copies fds fdd cs : pieces cs → ∀ n, (length cs <= n)%nat → play (cp_loop n fds fdd) (copied cs) = (copying fds fdd cs, Returned tt).
Proof.
  induction 1 as [|c cs Hc _ IH]; intros n Hn; [by destruct n|]. destruct n as [|n]; cbn [length] in Hn; [lia|]. specialize (IH n ltac:(lia)).
  unfold copied, copying in *. cbn [fmap list_fmap concat app] in *. cbn [cp_loop]. cbn [sysd mbind prog_mbind prog_bind play].
  rewrite (proj2 (Z.ltb_lt 0 _)) by lia. cbn [sys mbind prog_mbind prog_bind play]. setoid_rewrite IH. unfold got. by rewrite Nat2Z.id, firstn_all.
Qed.

(** cp opens both files, copies and closes them. *)
Lemma cp_main_copies prg src dst fds fdd cs n : pieces cs → (length cs <= n)%nat → 0 ≤ fds → 0 ≤ fdd →
  play (cp_main n [prg; src; dst]) ([(fds, []); (fdd, [])] ++ copied cs ++ [(0, []); (0, [])])
  = ([Open src O_RDONLY; Open dst (Z.lor O_CREATE O_RDWR)] ++ copying fds fdd cs ++ [Close fds; Close fdd], Exited).
Proof.
  intros Hp Hn H1 H2. cbn [cp_main app]. cbn [sys mbind prog_mbind prog_bind play]. rewrite (proj2 (Z.ltb_ge fds 0)) by done. cbn [sys mbind prog_mbind prog_bind play].
  rewrite (proj2 (Z.ltb_ge fdd 0)) by done. pose proof (cp_loop_copies fds fdd cs Hp n Hn) as E.
  setoid_rewrite (play_bind _ _ _ _ _ _ E (copied_length _ _ _)). done.
Qed.

(** ** grep *)

(** What a program writes to descriptor 1 when its reads return the pieces [cs]
    and then the end of the file, and every call succeeds. *)
Fixpoint prints {A} (m : prog A) (cs : list (list Z)) : list Z :=
  match m with
  | Call (Read _ _) k =>
      match cs with
      | [] => prints (k 0 []) []
      | c :: cs' => prints (k (Z.of_nat (length c)) c) cs'
      end
  | Call (Write fd b) k => (if fd =? 1 then b else []) ++ prints (k (Z.of_nat (length b)) []) cs
  | Call _ k => prints (k 0 []) cs
  | _ => []
  end.

Lemma grep_out_prints {A} pattern (f : list Z → prog A) cs n : ∀ l,
  prints (grep_out n pattern l ≫= f) cs = (grep_lines n pattern l).1 ++ prints (f (grep_lines n pattern l).2) cs.
Proof.
  induction n as [|n IH]; intros l; [done|]. cbn [grep_out grep_lines]. destruct (find_nl l) as [k|]; [|done].
  specialize (IH (drop (S k) l)). destruct (grep_lines n pattern (drop (S k) l)) as [out rest]. cbn [fst snd] in *.
  destruct (match_ pattern (take k l)); cbn in *.
  - rewrite <- (app_assoc _ out). f_equal. exact IH.
  - exact IH.
Qed.

(** The program prints what the function [grep] gives for its input. *)
Lemma grep_fd_prints pattern fd cs : Forall (λ c, c ≠ []) cs → ∀ pend n, (length cs <= n)%nat →
  prints (grep_fd n pattern pend fd) cs = grep pattern pend cs.
Proof.
  induction 1 as [|c cs Hc _ IH]; intros pend n Hn; [by destruct n|]. destruct n as [|n]; cbn [length] in Hn; [lia|].
  cbn [grep]. rewrite bool_decide_false by done. cbn [grep_fd]. cbn [sysd mbind prog_mbind prog_bind prints].
  rewrite (proj2 (Z.ltb_lt 0 _)) by (destruct c; [done|cbn; lia]).
  unfold got. rewrite Nat2Z.id, firstn_all. cbv zeta.
  etransitivity; [apply (grep_out_prints pattern _ cs)|]. destruct (grep_lines _ pattern (pend ++ c)) as [out rest].
  cbn [fst snd]. f_equal. apply IH. lia.
Qed.
