(* ===== verification/Usertests.v ===== *)
(** The test programs (usertests.c, stressfs.c, forktest.c, foo.c, vid.c) as trees
    of system calls, and that they keep their processes and descriptors in order.

    A test gets the bytes of the global array [buf] where it uses them and
    returns what it leaves there.  What the compiler leaves in an array that is
    not initialised is an argument.  A loop without a bound of its own has the
    fuel [gas]. *)

From S2P Require Import Prelude Types Bytes Printf Fs Sysfile Sh Usys Utils.

(** [d] stored at the start of an array. *)
Definition into (buf d : list Z) : list Z := d ++ drop (length d) buf.

(** printf and exit when something is wrong. *)
Definition fail {A} (fmt : list Z) (args : list arg) : prog A := printf 1 fmt args;; exit.
Definition check (bad : bool) (fmt : list Z) : prog unit := if bad then fail fmt [] else mret tt.

(** [for(;;) ;] *)
Definition forever {A} : prog A := Hang.

Definition rdwr_create : Z := Z.lor O_CREATE O_RDWR.
Definition digit (k : Z) : Z := u8 (48 + k).

(** A loop over the values [ks] of its counter, and one without a bound; the body
    goes on with [inl] and breaks with [inr]. *)
Fixpoint for_ {T} (ks : list Z) (body : Z → T → prog (T + T)) (t : T) : prog T :=
  match ks with
  | [] => mret t
  | k :: ks' =>
      r ← body k t;
      match r with inl t' => for_ ks' body t' | inr t' => mret t' end
  end.

Fixpoint loop {T B} (g : nat) (body : T → prog (T + B)) (t : T) : prog B :=
  match g with
  | O => Hang
  | S g' =>
      r ← body t;
      match r with inl t' => loop g' body t' | inr b => mret b end
  end.

Section Usertests.
Context (gas : nat).

Definition iputtest : prog unit :=
  printf 1 (line_ "iput test") [];;
  r ← sys (Mkdir (chars "iputdir")); check (r <? 0) (line_ "mkdir failed");;
  r ← sys (Chdir (chars "iputdir")); check (r <? 0) (line_ "chdir iputdir failed");;
  r ← sys (Unlink (chars "../iputdir")); check (r <? 0) (line_ "unlink ../iputdir failed");;
  r ← sys (Chdir (chars "/")); check (r <? 0) (line_ "chdir / failed");;
  printf 1 (line_ "iput test ok") [].

Definition exitiputtest : prog unit :=
  printf 1 (line_ "exitiput test") [];;
  pid ← sys Fork;
  check (pid <? 0) (line_ "fork failed");;
  (if pid =? 0 then
     r ← sys (Mkdir (chars "iputdir")); check (r <? 0) (line_ "mkdir failed");;
     r ← sys (Chdir (chars "iputdir")); check (r <? 0) (line_ "child chdir failed");;
     r ← sys (Unlink (chars "../iputdir")); check (r <? 0) (line_ "unlink ../iputdir failed");;
     exit
   else mret tt);;
  sys Wait;;
  printf 1 (line_ "exitiput test ok") [].

Definition openiputtest : prog unit :=
  printf 1 (line_ "openiput test") [];;
  r ← sys (Mkdir (chars "oidir")); check (r <? 0) (line_ "mkdir oidir failed");;
  pid ← sys Fork;
  check (pid <? 0) (line_ "fork failed");;
  (if pid =? 0 then
     fd ← sys (Open (chars "oidir") O_RDWR);
     check (0 <=? fd) (line_ "open directory for write succeeded");;
     exit
   else mret tt);;
  sys (Sleep 1);;
  r ← sys (Unlink (chars "oidir")); check (negb (r =? 0)) (line_ "unlink failed");;
  sys Wait;;
  printf 1 (line_ "openiput test ok") [].

Definition opentest : prog unit :=
  printf 1 (line_ "open test") [];;
  fd ← sys (Open (chars "echo") 0);
  check (fd <? 0) (line_ "open echo failed!");;
  sys (Close fd);;
  fd ← sys (Open (chars "doesnotexist") 0);
  check (0 <=? fd) (line_ "open doesnotexist succeeded!");;
  printf 1 (line_ "open test ok") [].

Definition writetest (buf : list Z) : prog (list Z) :=
  printf 1 (line_ "small file test") [];;
  fd ← sys (Open (chars "small") rdwr_create);
  (if 0 <=? fd then printf 1 (line_ "creat small succeeded; ok") []
   else fail (line_ "error: creat small failed!") []);;
  each (seqZ 0 100) (λ i,
    r ← sys (Write fd (chars "aaaaaaaaaa"));
    (if negb (r =? 10) then fail (line_ "error: write aa %d new file failed") [AInt i] else mret tt);;
    r ← sys (Write fd (chars "bbbbbbbbbb"));
    if negb (r =? 10) then fail (line_ "error: write bb %d new file failed") [AInt i] else mret tt);;
  printf 1 (line_ "writes ok") [];;
  sys (Close fd);;
  fd ← sys (Open (chars "small") O_RDONLY);
  (if 0 <=? fd then printf 1 (line_ "open small succeeded ok") []
   else fail (line_ "error: open small failed!") []);;
  '(i, d) ← sysd (Read fd 2000);
  (if i =? 2000 then printf 1 (line_ "read succeeded ok") [] else fail (line_ "read failed") []);;
  sys (Close fd);;
  r ← sys (Unlink (chars "small")); check (r <? 0) (line_ "unlink small failed");;
  printf 1 (line_ "small file test ok") [];;
  mret (into buf d).

(** [((int* )buf)[0]] *)
Definition int_of (buf : list Z) : Z :=
  i32 (byte_at buf 0 + 256 * byte_at buf 1 + 65536 * byte_at buf 2 + 16777216 * byte_at buf 3).
Definition int_bytes (i : Z) : list Z := [u8 i; u8 (Z.shiftr i 8); u8 (Z.shiftr i 16); u8 (Z.shiftr i 24)].

Definition writetest1 (buf : list Z) : prog (list Z) :=
  printf 1 (line_ "big files test") [];;
  fd ← sys (Open (chars "big") rdwr_create);
  check (fd <? 0) (line_ "error: creat big failed!");;
  buf ← for_ (seqZ 0 MAXFILE) (λ i buf,
    let buf := into buf (int_bytes i) in
    r ← sys (Write fd (take 512 buf));
    if negb (r =? 512) then fail (line_ "error: write big file failed") [AInt i] else mret (inl buf)) buf;
  sys (Close fd);;
  fd ← sys (Open (chars "big") O_RDONLY);
  check (fd <? 0) (line_ "error: open big failed!");;
  buf ← loop gas (λ '(n, buf),
    '(i, d) ← sysd (Read fd 512);
    let buf := into buf d in
    if i =? 0 then
      if n =? MAXFILE - 1 then fail (chars "read only %d blocks from big") [AInt n] else mret (inr buf)
    else if negb (i =? 512) then fail (line_ "read failed %d") [AInt i]
    else if negb (int_of buf =? n) then fail (line_ "read content of block %d is %d") [AInt n; AInt (int_of buf)]
    else mret (inl (n + 1, buf))) (0, buf);
  sys (Close fd);;
  r ← sys (Unlink (chars "big")); check (r <? 0) (line_ "unlink big failed");;
  printf 1 (line_ "big files ok") [];;
  mret buf.

Definition createtest : prog unit :=
  printf 1 (line_ "many creates, followed by unlink test") [];;
  each (seqZ 0 52) (λ i, fd ← sys (Open [97; digit i] rdwr_create); sys (Close fd);; mret tt);;
  each (seqZ 0 52) (λ i, sys (Unlink [97; digit i]);; mret tt);;
  printf 1 (line_ "many creates, followed by unlink; ok") [].

Definition dirtest : prog unit :=
  printf 1 (line_ "mkdir test") [];;
  r ← sys (Mkdir (chars "dir0")); check (r <? 0) (line_ "mkdir failed");;
  r ← sys (Chdir (chars "dir0")); check (r <? 0) (line_ "chdir dir0 failed");;
  r ← sys (Chdir (chars "..")); check (r <? 0) (line_ "chdir .. failed");;
  r ← sys (Unlink (chars "dir0")); check (r <? 0) (line_ "unlink dir0 failed");;
  printf 1 (line_ "mkdir test ok") [].

Definition echoargv : list (list Z) := [chars "echo"; chars "ALL"; chars "TESTS"; chars "PASSED"].

Definition exectest : prog unit :=
  printf 1 (line_ "exec test") [];;
  r ← sys (Exec_ (chars "echo") echoargv);
  check (r <? 0) (line_ "exec echo failed").

(** [n] bytes that count up from [seq]. *)
Definition counting (seq n : Z) : list Z := (λ i, u8 (seq + i)) <$> seqZ 0 n.

Definition pipe1 (buf : list Z) : prog (list Z) :=
  '(r, fds) ← sysd Pipe_;
  check (negb (r =? 0)) (line_ "pipe() failed");;
  pid ← sys Fork;
  if pid =? 0 then
    sys (Close (byte_at fds 0));;
    for_ (seqZ 0 5) (λ n buf,
      let buf := into buf (counting (n * 1033) 1033) in
      r ← sys (Write (byte_at fds 1) (take 1033 buf));
      if negb (r =? 1033) then fail (line_ "pipe1 oops 1") [] else mret (inl buf)) buf;;
    exit
  else if 0 <? pid then
    sys (Close (byte_at fds 1));;
    '(total, buf) ← loop gas (λ '(cc, seq, total, buf),
      '(n, d) ← sysd (Read (byte_at fds 0) cc);
      let buf := into buf d in
      if 0 <? n then
        if negb (bool_decide (take (Z.to_nat n) buf = counting seq n)) then
          printf 1 (line_ "pipe1 oops 2") [];; mret (inr (None, buf))
        else mret (inl (Z.min (cc * 2) 8192, seq + n, total + n, buf))
      else mret (inr (Some total, buf))) (1, 0, 0, buf);
    match total with
    | None => mret buf
    | Some total =>
        (if negb (total =? 5 * 1033) then fail (line_ "pipe1 oops 3 total %d") [AInt total] else mret tt);;
        sys (Close (byte_at fds 0));;
        sys Wait;;
        printf 1 (line_ "pipe1 ok") [];;
        mret buf
    end
  else fail (line_ "fork() failed") [].

Definition preempt (pfds buf : list Z) : prog (list Z) :=
  printf 1 (chars "preempt: ") [];;
  pid1 ← sys Fork;
  (if pid1 =? 0 then forever else mret tt);;
  pid2 ← sys Fork;
  (if pid2 =? 0 then forever else mret tt);;
  '(_, d) ← sysd Pipe_;
  let pfds := into pfds d in
  pid3 ← sys Fork;
  (if pid3 =? 0 then
     sys (Close (byte_at pfds 0));;
     r ← sys (Write (byte_at pfds 1) (chars "x"));
     (if negb (r =? 1) then printf 1 (chars "preempt write error") [] else mret tt);;
     sys (Close (byte_at pfds 1));;
     forever
   else mret tt);;
  sys (Close (byte_at pfds 1));;
  '(r, d) ← sysd (Read (byte_at pfds 0) 8192);
  let buf := into buf d in
  if negb (r =? 1) then printf 1 (chars "preempt read error") [];; mret buf else
  sys (Close (byte_at pfds 0));;
  printf 1 (chars "kill... ") [];;
  sys (Kill pid1);; sys (Kill pid2);; sys (Kill pid3);;
  printf 1 (chars "wait... ") [];;
  sys Wait;; sys Wait;; sys Wait;;
  printf 1 (line_ "preempt ok") [];;
  mret buf.

Definition exitwait : prog unit :=
  ok ← for_ (seqZ 0 100) (λ _ ok,
    pid ← sys Fork;
    if pid <? 0 then printf 1 (line_ "fork failed") [];; mret (inr false) else
    if negb (pid =? 0) then
      w ← sys Wait;
      if negb (w =? pid) then printf 1 (line_ "wait wrong pid") [];; mret (inr false) else mret (inl ok)
    else exit) true;
  if ok : bool then printf 1 (line_ "exitwait ok") [] else mret tt.

(** The blocks are linked through their first four bytes. *)
Definition mem : prog unit :=
  printf 1 (line_ "mem test") [];;
  ppid ← sys Getpid;
  pid ← sys Fork;
  if pid =? 0 then
    m1 ← loop gas (λ m1,
      m2 ← sys (Malloc 10001);
      if negb (m2 =? 0) then sys (Store m2 (int_bytes m1));; mret (inl m2) else mret (inr m1)) 0;
    loop gas (λ m1,
      if negb (m1 =? 0) then
        '(_, d) ← sysd (Load m1 4);
        sys (Free m1);;
        mret (inl (u32 (int_of d)))
      else mret (inr tt)) m1;;
    m1 ← sys (Malloc (1024 * 20));
    (if m1 =? 0 then
       printf 1 (line_ "couldn't allocate mem?!!") [];;
       sys (Kill ppid);;
       exit
     else mret tt);;
    sys (Free m1);;
    printf 1 (line_ "mem ok") [];;
    exit
  else sys Wait;; mret tt.

Definition count (c : Z) (buf : list Z) : Z := Z.of_nat (length (filter (λ b, b = c) buf)).

Definition sharedfd : prog unit :=
  printf 1 (line_ "sharedfd test") [];;
  sys (Unlink (chars "sharedfd"));;
  fd ← sys (Open (chars "sharedfd") rdwr_create);
  if fd <? 0 then printf 1 (chars "fstests: cannot open sharedfd for writing") [] else
  pid ← sys Fork;
  let buf := replicate 10 (if pid =? 0 then 99 else 112) in
  for_ (seqZ 0 1000) (λ _ _,
    r ← sys (Write fd buf);
    if negb (r =? 10) then printf 1 (line_ "fstests: write sharedfd failed") [];; mret (inr tt) else mret (inl tt)) tt;;
  (if pid =? 0 then exit else sys Wait;; mret tt);;
  sys (Close fd);;
  fd ← sys (Open (chars "sharedfd") 0);
  if fd <? 0 then printf 1 (line_ "fstests: cannot open sharedfd for reading") [] else
  '(nc, np) ← loop gas (λ '(nc, np, buf),
    '(n, d) ← sysd (Read fd 10);
    let buf := into buf d in
    if 0 <? n then mret (inl (nc + count 99 buf, np + count 112 buf, buf)) else mret (inr (nc, np))) (0, 0, buf);
  sys (Close fd);;
  sys (Unlink (chars "sharedfd"));;
  if (nc =? 10000) && (np =? 10000) then printf 1 (line_ "sharedfd ok") []
  else fail (line_ "sharedfd oops %d %d") [AInt nc; AInt np].

Definition fourfiles (buf : list Z) : prog (list Z) :=
  printf 1 (line_ "fourfiles test") [];;
  each (seqZ 0 4) (λ pi,
    sys (Unlink [102; digit pi]);;
    pid ← sys Fork;
    check (pid <? 0) (line_ "fork failed");;
    if pid =? 0 then
      fd ← sys (Open [102; digit pi] rdwr_create);
      check (fd <? 0) (line_ "create failed");;
      let buf := into buf (replicate 512 (digit pi)) in
      each (seqZ 0 12) (λ _,
        n ← sys (Write fd (take 500 buf));
        if negb (n =? 500) then fail (line_ "write failed %d") [AInt n] else mret tt);;
      exit
    else mret tt);;
  each (seqZ 0 4) (λ _, sys Wait;; mret tt);;
  buf ← for_ (seqZ 0 2) (λ i buf,
    fd ← sys (Open [102; digit i] 0);
    '(total, buf) ← loop gas (λ '(total, buf),
      '(n, d) ← sysd (Read fd 8192);
      let buf := into buf d in
      if 0 <? n then
        check (negb (forallb (Z.eqb (digit i)) (take (Z.to_nat n) buf))) (line_ "wrong char");;
        mret (inl (total + n, buf))
      else mret (inr (total, buf))) (0, buf);
    sys (Close fd);;
    (if negb (total =? 12 * 500) then fail (line_ "wrong length %d") [AInt total] else mret tt);;
    sys (Unlink [102; digit i]);;
    mret (inl buf)) buf;
  printf 1 (line_ "fourfiles ok") [];;
  mret buf.

Definition createdelete : prog unit :=
  let N := 20 in
  printf 1 (line_ "createdelete test") [];;
  each (seqZ 0 4) (λ pi,
    pid ← sys Fork;
    check (pid <? 0) (line_ "fork failed");;
    if pid =? 0 then
      each (seqZ 0 N) (λ i,
        fd ← sys (Open [112 + pi; digit i] rdwr_create);
        check (fd <? 0) (line_ "create failed");;
        sys (Close fd);;
        if (0 <? i) && (i mod 2 =? 0) then
          r ← sys (Unlink [112 + pi; digit (i / 2)]);
          check (r <? 0) (line_ "unlink failed")
        else mret tt);;
      exit
    else mret tt);;
  each (seqZ 0 4) (λ _, sys Wait;; mret tt);;
  each (seqZ 0 N) (λ i, each (seqZ 0 4) (λ pi,
    let name := [112 + pi; digit i] in
    fd ← sys (Open name 0);
    if ((i =? 0) || (N / 2 <=? i)) && (fd <? 0) then
      fail (line_ "oops createdelete %s didn't exist") [AStr (Some name)]
    else if ((1 <=? i) && (i <? N / 2)) && (0 <=? fd) then
      fail (line_ "oops createdelete %s did exist") [AStr (Some name)]
    else if 0 <=? fd then sys (Close fd);; mret tt else mret tt));;
  each (seqZ 0 N) (λ i, each (seqZ 0 4) (λ _, sys (Unlink [112 + i; digit i]);; mret tt));;
  printf 1 (line_ "createdelete ok") [].

Definition unlinkread (buf : list Z) : prog (list Z) :=
  printf 1 (line_ "unlinkread test") [];;
  fd ← sys (Open (chars "unlinkread") rdwr_create);
  check (fd <? 0) (line_ "create unlinkread failed");;
  sys (Write fd (chars "hello"));;
  sys (Close fd);;
  fd ← sys (Open (chars "unlinkread") O_RDWR);
  check (fd <? 0) (line_ "open unlinkread failed");;
  r ← sys (Unlink (chars "unlinkread")); check (negb (r =? 0)) (line_ "unlink unlinkread failed");;
  fd1 ← sys (Open (chars "unlinkread") rdwr_create);
  sys (Write fd1 (chars "yyy"));;
  sys (Close fd1);;
  '(r, d) ← sysd (Read fd 8192);
  let buf := into buf d in
  check (negb (r =? 5)) (chars "unlinkread read failed");;
  check (negb (byte_at buf 0 =? 104)) (line_ "unlinkread wrong data");;
  r ← sys (Write fd (take 10 buf)); check (negb (r =? 10)) (line_ "unlinkread write failed");;
  sys (Close fd);;
  sys (Unlink (chars "unlinkread"));;
  printf 1 (line_ "unlinkread ok") [];;
  mret buf.

Definition linktest (buf : list Z) : prog (list Z) :=
  printf 1 (line_ "linktest") [];;
  sys (Unlink (chars "lf1"));;
  sys (Unlink (chars "lf2"));;
  fd ← sys (Open (chars "lf1") rdwr_create);
  check (fd <? 0) (line_ "create lf1 failed");;
  r ← sys (Write fd (chars "hello")); check (negb (r =? 5)) (line_ "write lf1 failed");;
  sys (Close fd);;
  r ← sys (Link (chars "lf1") (chars "lf2")); check (r <? 0) (line_ "link lf1 lf2 failed");;
  sys (Unlink (chars "lf1"));;
  r ← sys (Open (chars "lf1") 0); check (0 <=? r) (line_ "unlinked lf1 but it is still there!");;
  fd ← sys (Open (chars "lf2") 0);
  check (fd <? 0) (line_ "open lf2 failed");;
  '(r, d) ← sysd (Read fd 8192);
  check (negb (r =? 5)) (line_ "read lf2 failed");;
  sys (Close fd);;
  r ← sys (Link (chars "lf2") (chars "lf2")); check (0 <=? r) (line_ "link lf2 lf2 succeeded! oops");;
  sys (Unlink (chars "lf2"));;
  r ← sys (Link (chars "lf2") (chars "lf1")); check (0 <=? r) (line_ "link non-existant succeeded! oops");;
  r ← sys (Link (chars ".") (chars "lf1")); check (0 <=? r) (line_ "link . lf1 succeeded! oops");;
  printf 1 (line_ "linktest ok") [];;
  mret (into buf d).

(** [de] is the last directory entry read, [fa] says which files have been seen. *)
Definition concreate (de : list Z) : prog unit :=
  printf 1 (line_ "concreate test") [];;
  each (seqZ 0 40) (λ i,
    let file := [67; digit i] in
    sys (Unlink file);;
    pid ← sys Fork;
    (if negb (pid =? 0) && (i mod 3 =? 1) then sys (Link (chars "C0") file);; mret tt
     else if (pid =? 0) && (i mod 5 =? 1) then sys (Link (chars "C0") file);; mret tt
     else
       fd ← sys (Open file rdwr_create);
       (if fd <? 0 then fail (line_ "concreate create %s failed") [AStr (Some file)] else mret tt);;
       sys (Close fd);; mret tt);;
    if pid =? 0 then exit else sys Wait;; mret tt);;
  fd ← sys (Open (chars ".") 0);
  n ← loop gas (λ '(de, fa, n),
    '(r, d) ← sysd (Read fd 16);
    let de := into de d in
    let name := drop 2 de in
    if 0 <? r then
      if byte_at de 0 + 256 * byte_at de 1 =? 0 then mret (inl (de, fa, n)) else
      if (byte_at name 0 =? 67) && (byte_at name 2 =? 0) then
        let i := i8 (byte_at name 1) - 48 in
        if (i <? 0) || (40 <=? i) then fail (line_ "concreate weird file %s") [AStr (Some (cname name))] else
        if default false (fa !! Z.to_nat i) then fail (line_ "concreate duplicate file %s") [AStr (Some (cname name))] else
        mret (inl (de, <[Z.to_nat i := true]> fa, n + 1))
      else mret (inl (de, fa, n))
    else mret (inr n)) (de, replicate 40 false, 0);
  sys (Close fd);;
  check (negb (n =? 40)) (line_ "concreate not enough files in directory listing");;
  each (seqZ 0 40) (λ i,
    let file := [67; digit i] in
    pid ← sys Fork;
    check (pid <? 0) (line_ "fork failed");;
    (if ((i mod 3 =? 0) && (pid =? 0)) || ((i mod 3 =? 1) && negb (pid =? 0)) then
       each (seqZ 0 4) (λ _, fd ← sys (Open file 0); sys (Close fd);; mret tt)
     else each (seqZ 0 4) (λ _, sys (Unlink file);; mret tt));;
    if pid =? 0 then exit else sys Wait;; mret tt);;
  printf 1 (line_ "concreate ok") [].

Definition linkunlink : prog unit :=
  printf 1 (line_ "linkunlink test") [];;
  sys (Unlink (chars "x"));;
  pid ← sys Fork;
  check (pid <? 0) (line_ "fork failed");;
  for_ (seqZ 0 100) (λ _ x,
    let x := u32 (x * 1103515245 + 12345) in
    (if x mod 3 =? 0 then fd ← sys (Open (chars "x") rdwr_create); sys (Close fd);; mret tt
     else if x mod 3 =? 1 then sys (Link (chars "cat") (chars "x"));; mret tt
     else sys (Unlink (chars "x"));; mret tt);;
    mret (inl x)) (if negb (pid =? 0) then 1 else 97);;
  (if negb (pid =? 0) then sys Wait;; mret tt else exit);;
  printf 1 (line_ "linkunlink ok") [].

Definition bigdir : prog unit :=
  let name i := [120; digit (i / 64); digit (i mod 64)] in
  printf 1 (line_ "bigdir test") [];;
  sys (Unlink (chars "bd"));;
  fd ← sys (Open (chars "bd") O_CREATE);
  check (fd <? 0) (line_ "bigdir create failed");;
  sys (Close fd);;
  each (seqZ 0 500) (λ i, r ← sys (Link (chars "bd") (name i)); check (negb (r =? 0)) (line_ "bigdir link failed"));;
  sys (Unlink (chars "bd"));;
  each (seqZ 0 500) (λ i, r ← sys (Unlink (name i)); check (negb (r =? 0)) (chars "bigdir unlink failed"));;
  printf 1 (line_ "bigdir ok") [].

Definition subdir (buf : list Z) : prog (list Z) :=
  printf 1 (line_ "subdir test") [];;
  sys (Unlink (chars "ff"));;
  r ← sys (Mkdir (chars "dd")); check (negb (r =? 0)) (line_ "subdir mkdir dd failed");;
  fd ← sys (Open (chars "dd/ff") rdwr_create); check (fd <? 0) (line_ "create dd/ff failed");;
  sys (Write fd (chars "ff"));;
  sys (Close fd);;
  r ← sys (Unlink (chars "dd")); check (0 <=? r) (line_ "unlink dd (non-empty dir) succeeded!");;
  r ← sys (Mkdir (chars "/dd/dd")); check (negb (r =? 0)) (line_ "subdir mkdir dd/dd failed");;
  fd ← sys (Open (chars "dd/dd/ff") rdwr_create); check (fd <? 0) (line_ "create dd/dd/ff failed");;
  sys (Write fd (chars "FF"));;
  sys (Close fd);;
  fd ← sys (Open (chars "dd/dd/../ff") 0); check (fd <? 0) (line_ "open dd/dd/../ff failed");;
  '(cc, d) ← sysd (Read fd 8192);
  let buf := into buf d in
  check (negb (cc =? 2) || negb (byte_at buf 0 =? 102)) (line_ "dd/dd/../ff wrong content");;
  sys (Close fd);;
  r ← sys (Link (chars "dd/dd/ff") (chars "dd/dd/ffff")); check (negb (r =? 0)) (line_ "link dd/dd/ff dd/dd/ffff failed");;
  r ← sys (Unlink (chars "dd/dd/ff")); check (negb (r =? 0)) (line_ "unlink dd/dd/ff failed");;
  r ← sys (Open (chars "dd/dd/ff") O_RDONLY); check (0 <=? r) (line_ "open (unlinked) dd/dd/ff succeeded");;
  r ← sys (Chdir (chars "dd")); check (negb (r =? 0)) (line_ "chdir dd failed");;
  r ← sys (Chdir (chars "dd/../../dd")); check (negb (r =? 0)) (line_ "chdir dd/../../dd failed");;
  r ← sys (Chdir (chars "dd/../../../dd")); check (negb (r =? 0)) (line_ "chdir dd/../../dd failed");;
  r ← sys (Chdir (chars "./..")); check (negb (r =? 0)) (line_ "chdir ./.. failed");;
  fd ← sys (Open (chars "dd/dd/ffff") 0); check (fd <? 0) (line_ "open dd/dd/ffff failed");;
  '(r, d) ← sysd (Read fd 8192);
  let buf := into buf d in
  check (negb (r =? 2)) (line_ "read dd/dd/ffff wrong len");;
  sys (Close fd);;
  r ← sys (Open (chars "dd/dd/ff") O_RDONLY); check (0 <=? r) (line_ "open (unlinked) dd/dd/ff succeeded!");;
  r ← sys (Open (chars "dd/ff/ff") rdwr_create); check (0 <=? r) (line_ "create dd/ff/ff succeeded!");;
  r ← sys (Open (chars "dd/xx/ff") rdwr_create); check (0 <=? r) (line_ "create dd/xx/ff succeeded!");;
  r ← sys (Open (chars "dd") O_CREATE); check (0 <=? r) (line_ "create dd succeeded!");;
  r ← sys (Open (chars "dd") O_RDWR); check (0 <=? r) (line_ "open dd rdwr succeeded!");;
  r ← sys (Open (chars "dd") O_WRONLY); check (0 <=? r) (line_ "open dd wronly succeeded!");;
  r ← sys (Link (chars "dd/ff/ff") (chars "dd/dd/xx")); check (r =? 0) (line_ "link dd/ff/ff dd/dd/xx succeeded!");;
  r ← sys (Link (chars "dd/xx/ff") (chars "dd/dd/xx")); check (r =? 0) (line_ "link dd/xx/ff dd/dd/xx succeeded!");;
  r ← sys (Link (chars "dd/ff") (chars "dd/dd/ffff")); check (r =? 0) (line_ "link dd/ff dd/dd/ffff succeeded!");;
  r ← sys (Mkdir (chars "dd/ff/ff")); check (r =? 0) (line_ "mkdir dd/ff/ff succeeded!");;
  r ← sys (Mkdir (chars "dd/xx/ff")); check (r =? 0) (line_ "mkdir dd/xx/ff succeeded!");;
  r ← sys (Mkdir (chars "dd/dd/ffff")); check (r =? 0) (line_ "mkdir dd/dd/ffff succeeded!");;
  r ← sys (Unlink (chars "dd/xx/ff")); check (r =? 0) (line_ "unlink dd/xx/ff succeeded!");;
  r ← sys (Unlink (chars "dd/ff/ff")); check (r =? 0) (line_ "unlink dd/ff/ff succeeded!");;
  r ← sys (Chdir (chars "dd/ff")); check (r =? 0) (line_ "chdir dd/ff succeeded!");;
  r ← sys (Chdir (chars "dd/xx")); check (r =? 0) (line_ "chdir dd/xx succeeded!");;
  r ← sys (Unlink (chars "dd/dd/ffff")); check (negb (r =? 0)) (line_ "unlink dd/dd/ff failed");;
  r ← sys (Unlink (chars "dd/ff")); check (negb (r =? 0)) (line_ "unlink dd/ff failed");;
  r ← sys (Unlink (chars "dd")); check (r =? 0) (line_ "unlink non-empty dd succeeded!");;
  r ← sys (Unlink (chars "dd/dd")); check (r <? 0) (line_ "unlink dd/dd failed");;
  r ← sys (Unlink (chars "dd")); check (r <? 0) (line_ "unlink dd failed");;
  printf 1 (line_ "subdir ok") [];;
  mret buf.

(** The sizes 499, 970, ... below 12*512. *)
Definition bigwrite (buf : list Z) : prog unit :=
  printf 1 (line_ "bigwrite test") [];;
  sys (Unlink (chars "bigwrite"));;
  each ((λ k, 499 + 471 * k) <$> seqZ 0 12) (λ sz,
    fd ← sys (Open (chars "bigwrite") rdwr_create);
    check (fd <? 0) (line_ "cannot create bigwrite");;
    each (seqZ 0 2) (λ _,
      cc ← sys (Write fd (take (Z.to_nat sz) buf));
      if negb (cc =? sz) then fail (line_ "write(%d) ret %d") [AInt sz; AInt cc] else mret tt);;
    sys (Close fd);;
    sys (Unlink (chars "bigwrite"));;
    mret tt);;
  printf 1 (line_ "bigwrite ok") [].

Definition bigfile (buf : list Z) : prog (list Z) :=
  printf 1 (line_ "bigfile test") [];;
  sys (Unlink (chars "bigfile"));;
  fd ← sys (Open (chars "bigfile") rdwr_create);
  check (fd <? 0) (chars "cannot create bigfile");;
  buf ← for_ (seqZ 0 20) (λ i buf,
    let buf := into buf (replicate 600 i) in
    r ← sys (Write fd (take 600 buf));
    check (negb (r =? 600)) (line_ "write bigfile failed");;
    mret (inl buf)) buf;
  sys (Close fd);;
  fd ← sys (Open (chars "bigfile") 0);
  check (fd <? 0) (line_ "cannot open bigfile");;
  '(total, buf) ← loop gas (λ '(i, total, buf),
    '(cc, d) ← sysd (Read fd 300);
    let buf := into buf d in
    check (cc <? 0) (line_ "read bigfile failed");;
    if cc =? 0 then mret (inr (total, buf)) else
    check (negb (cc =? 300)) (line_ "short read bigfile");;
    check (negb (i8 (byte_at buf 0) =? i / 2) || negb (i8 (byte_at buf 299) =? i / 2)) (line_ "read bigfile wrong data");;
    mret (inl (i + 1, total + cc, buf))) (0, 0, buf);
  sys (Close fd);;
  check (negb (total =? 20 * 600)) (line_ "read bigfile wrong total");;
  sys (Unlink (chars "bigfile"));;
  printf 1 (line_ "bigfile test ok") [];;
  mret buf.

Definition fourteen : prog unit :=
  printf 1 (line_ "fourteen test") [];;
  r ← sys (Mkdir (chars "12345678901234")); check (negb (r =? 0)) (line_ "mkdir 12345678901234 failed");;
  r ← sys (Mkdir (chars "12345678901234/123456789012345"));
  check (negb (r =? 0)) (line_ "mkdir 12345678901234/123456789012345 failed");;
  fd ← sys (Open (chars "123456789012345/123456789012345/123456789012345") O_CREATE);
  check (fd <? 0) (line_ "create 123456789012345/123456789012345/123456789012345 failed");;
  sys (Close fd);;
  fd ← sys (Open (chars "12345678901234/12345678901234/12345678901234") 0);
  check (fd <? 0) (line_ "open 12345678901234/12345678901234/12345678901234 failed");;
  sys (Close fd);;
  r ← sys (Mkdir (chars "12345678901234/12345678901234"));
  check (r =? 0) (line_ "mkdir 12345678901234/12345678901234 succeeded!");;
  r ← sys (Mkdir (chars "123456789012345/12345678901234"));
  check (r =? 0) (line_ "mkdir 12345678901234/123456789012345 succeeded!");;
  printf 1 (line_ "fourteen ok") [].

Definition rmdot : prog unit :=
  printf 1 (line_ "rmdot test") [];;
  r ← sys (Mkdir (chars "dots")); check (negb (r =? 0)) (line_ "mkdir dots failed");;
  r ← sys (Chdir (chars "dots")); check (negb (r =? 0)) (line_ "chdir dots failed");;
  r ← sys (Unlink (chars ".")); check (r =? 0) (line_ "rm . worked!");;
  r ← sys (Unlink (chars "..")); check (r =? 0) (line_ "rm .. worked!");;
  r ← sys (Chdir (chars "/")); check (negb (r =? 0)) (line_ "chdir / failed");;
  r ← sys (Unlink (chars "dots/.")); check (r =? 0) (line_ "unlink dots/. worked!");;
  r ← sys (Unlink (chars "dots/..")); check (r =? 0) (line_ "unlink dots/.. worked!");;
  r ← sys (Unlink (chars "dots")); check (negb (r =? 0)) (line_ "unlink dots failed!");;
  printf 1 (line_ "rmdot ok") [].

Definition dirfile : prog unit :=
  printf 1 (line_ "dir vs file") [];;
  fd ← sys (Open (chars "dirfile") O_CREATE); check (fd <? 0) (line_ "create dirfile failed");;
  sys (Close fd);;
  r ← sys (Chdir (chars "dirfile")); check (r =? 0) (line_ "chdir dirfile succeeded!");;
  fd ← sys (Open (chars "dirfile/xx") 0); check (0 <=? fd) (line_ "create dirfile/xx succeeded!");;
  fd ← sys (Open (chars "dirfile/xx") O_CREATE); check (0 <=? fd) (line_ "create dirfile/xx succeeded!");;
  r ← sys (Mkdir (chars "dirfile/xx")); check (r =? 0) (line_ "mkdir dirfile/xx succeeded!");;
  r ← sys (Unlink (chars "dirfile/xx")); check (r =? 0) (line_ "unlink dirfile/xx succeeded!");;
  r ← sys (Link (chars "README") (chars "dirfile/xx")); check (r =? 0) (line_ "link to dirfile/xx succeeded!");;
  r ← sys (Unlink (chars "dirfile")); check (negb (r =? 0)) (line_ "unlink dirfile failed!");;
  fd ← sys (Open (chars ".") O_RDWR); check (0 <=? fd) (line_ "open . for writing succeeded!");;
  fd ← sys (Open (chars ".") 0);
  r ← sys (Write fd (chars "x")); check (0 <? r) (line_ "write . succeeded!");;
  sys (Close fd);;
  printf 1 (line_ "dir vs file OK") [].

Definition iref : prog unit :=
  printf 1 (line_ "empty file name") [];;
  each (seqZ 0 (50 + 1)) (λ _,
    r ← sys (Mkdir (chars "irefd")); check (negb (r =? 0)) (line_ "mkdir irefd failed");;
    r ← sys (Chdir (chars "irefd")); check (negb (r =? 0)) (line_ "chdir irefd failed");;
    sys (Mkdir []);;
    sys (Link (chars "README") []);;
    fd ← sys (Open [] O_CREATE);
    (if 0 <=? fd then sys (Close fd);; mret tt else mret tt);;
    fd ← sys (Open (chars "xx") O_CREATE);
    (if 0 <=? fd then sys (Close fd);; mret tt else mret tt);;
    sys (Unlink (chars "xx"));;
    mret tt);;
  sys (Chdir (chars "/"));;
  printf 1 (line_ "empty file name OK") [].

Definition forktest : prog unit :=
  printf 1 (line_ "fork test") [];;
  n ← for_ (seqZ 0 1000) (λ n _,
    pid ← sys Fork;
    if pid <? 0 then mret (inr n) else
    if pid =? 0 then exit else mret (inl (n + 1))) 0;
  check (n =? 1000) (line_ "fork claimed to work 1000 times!");;
  each (seqZ 0 n) (λ _, r ← sys Wait; check (r <? 0) (line_ "wait stopped early"));;
  r ← sys Wait; check (negb (r =? -1)) (line_ "wait got too many");;
  printf 1 (line_ "fork test OK") [].

(** The break as an address. *)
Definition sbrk (n : Z) : prog Z := r ← sys (Sbrk (i32 n)); mret (u32 r).
Definition BIG : Z := 100 * 1024 * 1024.

Definition sbrktest : prog unit :=
  printf 1 (line_ "sbrk test") [];;
  oldbrk ← sbrk 0;
  a ← sbrk 0;
  a ← for_ (seqZ 0 5000) (λ i a,
    b ← sbrk 1;
    if negb (b =? a) then fail (line_ "sbrk test failed %d %x %x") [AInt i; AInt a; AInt b] else
    sys (Store b [1]);;
    mret (inl (u32 (b + 1)))) a;
  pid ← sys Fork;
  check (pid <? 0) (line_ "sbrk test fork failed");;
  sbrk 1;;
  c ← sbrk 1;
  check (negb (c =? u32 (a + 1))) (line_ "sbrk test failed post-fork");;
  (if pid =? 0 then exit else mret tt);;
  sys Wait;;
  a ← sbrk 0;
  p ← sbrk (BIG - a);
  check (negb (p =? a)) (line_ "sbrk test failed to grow big address space; enough phys mem?");;
  sys (Store (BIG - 1) [99]);;
  a ← sbrk 0;
  c ← sbrk (-4096);
  check (c =? 0xffffffff) (line_ "sbrk could not deallocate");;
  c ← sbrk 0;
  (if negb (c =? u32 (a - 4096)) then fail (line_ "sbrk deallocation produced wrong address, a %x c %x") [AInt a; AInt c] else mret tt);;
  a ← sbrk 0;
  c ← sbrk 4096;
  bad ← (if negb (c =? a) then mret true else b ← sbrk 0; mret (negb (b =? u32 (a + 4096))));
  (if bad : bool then fail (line_ "sbrk re-allocation failed, a %x c %x") [AInt a; AInt c] else mret tt);;
  '(_, d) ← sysd (Load (BIG - 1) 1);
  check (byte_at d 0 =? 99) (line_ "sbrk de-allocation didn't really deallocate");;
  a ← sbrk 0;
  b ← sbrk 0;
  c ← sbrk (- (b - oldbrk));
  (if negb (c =? a) then fail (line_ "sbrk downsize failed, a %x c %x") [AInt a; AInt c] else mret tt);;
  each ((λ k, KERNBASE + 50000 * k) <$> seqZ 0 40) (λ a,
    ppid ← sys Getpid;
    pid ← sys Fork;
    check (pid <? 0) (line_ "fork failed");;
    (if pid =? 0 then
       '(_, d) ← sysd (Load a 1);
       printf 1 (line_ "oops could read %x = %x") [AInt a; AInt (i8 (byte_at d 0))];;
       sys (Kill ppid);;
       exit
     else mret tt);;
    sys Wait;; mret tt);;
  '(r, fds) ← sysd Pipe_;
  check (negb (r =? 0)) (line_ "pipe() failed");;
  pids ← for_ (seqZ 0 10) (λ _ pids,
    pid ← sys Fork;
    (if pid =? 0 then
       b ← sbrk 0;
       sbrk (BIG - b);;
       sys (Write (byte_at fds 1) (chars "x"));;
       loop gas (λ _, sys (Sleep 1000);; mret (inl tt)) tt
     else mret tt);;
    (if negb (pid =? -1) then sys (Read (byte_at fds 0) 1);; mret tt else mret tt);;
    mret (inl (pids ++ [pid]))) [];
  c ← sbrk 4096;
  each pids (λ pid, if pid =? -1 then mret tt else sys (Kill pid);; sys Wait;; mret tt);;
  check (c =? 0xffffffff) (line_ "failed sbrk leaked memory");;
  b ← sbrk 0;
  (if oldbrk <? b then b ← sbrk 0; sbrk (- (b - oldbrk));; mret tt else mret tt);;
  printf 1 (line_ "sbrk test OK") [].

(** sleep with the stack pointer at [p], where its argument is fetched. *)
Definition validateint (p : Z) : prog unit := sys (SleepAt p);; mret tt.

(** The pages up to and including the one at 1100*1024. *)
Definition validatetest : prog unit :=
  printf 1 (line_ "validate test") [];;
  each ((λ k, 4096 * k) <$> seqZ 0 276) (λ p,
    pid ← sys Fork;
    (if pid =? 0 then validateint p;; exit else mret tt);;
    sys (Sleep 0);;
    sys (Sleep 0);;
    sys (Kill pid);;
    sys Wait;;
    r ← sys (Linkp (chars "nosuchfile") p); check (negb (r =? -1)) (line_ "link should not succeed"));;
  printf 1 (line_ "validate ok") [].

Definition bsstest (uninit : list Z) : prog unit :=
  printf 1 (line_ "bss test") [];;
  check (negb (forallb (Z.eqb 0) uninit)) (line_ "bss test failed");;
  printf 1 (line_ "bss test ok") [].

Definition bigargtest : prog unit :=
  sys (Unlink (chars "bigarg-ok"));;
  pid ← sys Fork;
  (if pid =? 0 then
     let args := replicate (Z.to_nat (MAXARG - 1)) (line_ "bigargs test: failed" ++ replicate 199 32) in
     printf 1 (line_ "bigarg test") [];;
     sys (Exec_ (chars "echo") args);;
     printf 1 (line_ "bigarg test ok") [];;
     fd ← sys (Open (chars "bigarg-ok") O_CREATE);
     sys (Close fd);;
     exit
   else check (pid <? 0) (line_ "bigargtest: fork failed"));;
  sys Wait;;
  fd ← sys (Open (chars "bigarg-ok") 0);
  check (fd <? 0) (line_ "bigarg test failed!");;
  sys (Close fd);;
  sys (Unlink (chars "bigarg-ok"));;
  mret tt.

Definition fsfull (buf : list Z) : prog unit :=
  let name n := [102; digit (n / 1000); digit (n mod 1000 / 100); digit (n mod 100 / 10); digit (n mod 10)] in
  printf 1 (line_ "fsfull test") [];;
  nfiles ← loop gas (λ nfiles,
    printf 1 (line_ "writing %s") [AStr (Some (name nfiles))];;
    fd ← sys (Open (name nfiles) rdwr_create);
    if fd <? 0 then printf 1 (line_ "open %s failed") [AStr (Some (name nfiles))];; mret (inr nfiles) else
    total ← loop gas (λ total,
      cc ← sys (Write fd (take 512 buf));
      mret (if cc <? 512 then inr total else inl (total + cc))) 0;
    printf 1 (line_ "wrote %d bytes") [AInt total];;
    sys (Close fd);;
    mret (if total =? 0 then inr nfiles else inl (nfiles + 1))) 0;
  each ((λ k, nfiles - k) <$> seqZ 0 (nfiles + 1)) (λ n, sys (Unlink (name n));; mret tt);;
  printf 1 (line_ "fsfull test finished") [].

Definition uio : prog unit :=
  printf 1 (line_ "uio test") [];;
  pid ← sys Fork;
  (if pid =? 0 then
     sys (PortOut 0x70 9);;
     sys (PortIn 0x71);;
     printf 1 (line_ "uio: uio succeeded; test FAILED") [];;
     exit
   else check (pid <? 0) (line_ "fork failed"));;
  sys Wait;;
  printf 1 (line_ "uio test done") [].

Definition argptest : prog unit :=
  fd ← sys (Open (chars "init") O_RDONLY);
  (if fd <? 0 then printf 2 (line_ "open failed") [];; exit else mret tt);;
  b ← sbrk 0;
  sys (Readp fd (u32 (b - 1)) (-1));;
  sys (Close fd);;
  printf 1 (line_ "arg test passed") [].

(** The next value of randstate, which is also the result. *)
Definition rand (randstate : Z) : Z := u32 (randstate * 1664525 + 1013904223).

Definition main (de pfds : list Z) : prog unit :=
  let buf := replicate 8192 0 in
  printf 1 (line_ "usertests starting") [];;
  r ← sys (Open (chars "usertests.ran") 0);
  check (0 <=? r) (line_ "already ran user tests -- rebuild fs.img");;
  fd ← sys (Open (chars "usertests.ran") O_CREATE);
  sys (Close fd);;
  argptest;; createdelete;; linkunlink;; concreate de;;
  buf ← fourfiles buf;
  sharedfd;;
  bigargtest;; bigwrite buf;; bigargtest;; bsstest (replicate 10000 0);; sbrktest;; validatetest;;
  opentest;;
  buf ← writetest buf;
  buf ← writetest1 buf;
  createtest;;
  openiputtest;; exitiputtest;; iputtest;;
  mem;;
  buf ← pipe1 buf;
  buf ← preempt pfds buf;
  exitwait;;
  rmdot;; fourteen;;
  buf ← bigfile buf;
  buf ← subdir buf;
  buf ← linktest buf;
  unlinkread buf;;
  dirfile;; iref;; forktest;; bigdir;; uio;; exectest;;
  exit.
End Usertests.

(** ** stressfs.c *)
Module Stressfs.
Definition main : prog unit :=
  printf 1 (line_ "stressfs starting") [];;
  let data := replicate 512 97 in
  i ← for_ (seqZ 0 4) (λ i _, pid ← sys Fork; mret (if 0 <? pid then inr i else inl (i + 1))) 0;
  printf 1 (line_ "write %d") [AInt i];;
  let path := chars "stressfs" ++ [digit i] in
  fd ← sys (Open path rdwr_create);
  each (seqZ 0 20) (λ _, sys (Write fd data);; mret tt);;
  sys (Close fd);;
  printf 1 (line_ "read") [];;
  fd ← sys (Open path O_RDONLY);
  each (seqZ 0 20) (λ _, sys (Read fd 512);; mret tt);;
  sys (Close fd);;
  sys Wait;;
  exit.
End Stressfs.

(** ** forktest.c, which has a printf that writes its format as it is *)
Module Forktest.
Definition printf (fd : Z) (s : list Z) : prog unit := sys (Write fd s);; mret tt.

Definition forktest : prog unit :=
  printf 1 (line_ "fork test");;
  n ← for_ (seqZ 0 1000) (λ n _,
    pid ← sys Fork;
    if pid <? 0 then mret (inr n) else
    if pid =? 0 then exit else mret (inl (n + 1))) 0;
  (if n =? 1000 then printf 1 (line_ "fork claimed to work N times!");; exit else mret tt);;
  each (seqZ 0 n) (λ _, r ← sys Wait; if r <? 0 then printf 1 (line_ "wait stopped early");; exit else mret tt);;
  r ← sys Wait;
  (if negb (r =? -1) then printf 1 (line_ "wait got too many");; exit else mret tt);;
  printf 1 (line_ "fork test OK").

Definition main : prog unit := forktest;; exit.
End Forktest.

(** ** foo.c, without the floating-point loop that only takes time *)
Module Foo.
Definition main (argv : list (list Z)) : prog unit :=
  let n := match tail argv with [] => 1 | a :: _ => atoi a end in
  let n := if (n <? 0) || (20 <? n) then 2 else n in
  for_ (seqZ 0 n) (λ _ _,
    id ← sys Fork;
    if id <? 0 then
      me ← sys Getpid; Usys.printf 1 (line_ "%d failed in fork!") [AInt me];; mret (inl tt)
    else if 0 <? id then
      me ← sys Getpid; Usys.printf 1 (line_ "Parent %d creating child  %d") [AInt me; AInt id];;
      sys Wait;; mret (inl tt)
    else
      me ← sys Getpid; Usys.printf 1 (line_ "Child %d created") [AInt me];; mret (inr tt)) tt;;
  exit.
End Foo.

(** ** vid.c *)
Module Vid.
Definition report (r : Z) : prog unit :=
  printf 1 (line_ "Function returned %d") [AInt r];;
  if r =? -1 then printf 2 (line_ "Error was encountered. Continuing tests.") [] else mret tt.

Definition main : prog unit :=
  uid ← sys Getuid;
  printf 1 (line_ "Current UID is: %d") [AInt uid];;
  printf 1 (line_ "Setting UID to 100") [];;
  r ← sys (Setuid 100);
  report r;;
  uid ← sys Getuid;
  printf 1 (line_ "Current UID is: %d") [AInt uid];;
  gid ← sys Getgid;
  printf 1 (line_ "Current GID is: %d") [AInt gid];;
  printf 1 (line_ "Setting GID to 100") [];;
  r ← sys (Setgid 100);
  report r;;
  gid ← sys Getgid;
  printf 1 (line_ "Current GID is: %d") [AInt gid];;
  ppid ← sys Getppid;
  printf 1 (line_ "My parent process is: %d") [AInt ppid];;
  printf 1 (line_ "Setting UID to -42") [];;
  r ← sys (Setuid (-42));
  report r;;
  uid ← sys Getuid;
  printf 1 (line_ "Current UID is: %d") [AInt uid];;
  printf 1 (line_ "Setting GID to 90001") [];;
  r ← sys (Setgid 90001);
  report r;;
  gid ← sys Getgid;
  printf 1 (line_ "Current GID is: %d") [AInt gid];;
  printf 1 (line_ "Done!") [];;
  exit.
End Vid.

(** ** Processes and descriptors of the tests

    What the kernel can answer to a call of a process with the descriptors [o]
    open: a new descriptor is not one of them. Everything else is left open. *)
Definition fresh (o : gset Z) (r : Z) : Prop := 0 ≤ r ∧ r ∉ o.

Definition answers (c : call) (o : gset Z) (r : Z) (d : list Z) : Prop :=
  match c with
  | Open _ _ | Dup _ => r < 0 ∨ fresh o r
  | Pipe_ => r ≠ 0 ∨ (r = 0 ∧ ∃ a b, d = [a; b] ∧ fresh o a ∧ fresh o b ∧ a ≠ b)
  | _ => True
  end.

(** The descriptors after the call, and whether the process that goes on is a
    new one. *)
Definition after (c : call) (r : Z) (d : list Z) (o : gset Z) : gset Z :=
  match c with
  | Open _ _ | Dup _ => if 0 <=? r then {[r]} ∪ o else o
  | Pipe_ => if r =? 0 then {[byte_at d 0]} ∪ ({[byte_at d 1]} ∪ o) else o
  | Close fd => if 0 <=? fd then o ∖ {[fd]} else o
  | _ => o
  end.
Definition forked (c : call) (r : Z) : bool := match c with Fork => r =? 0 | _ => false end.

(** Whatever the kernel answers, the process that starts with [o] open, and
    each process that it forks, ends or returns from [m] with [Q]; [ch] says
    whether it has been forked. With [h = False] none of them runs out of fuel. *)
Fixpoint obeys {A} (h : Prop) (m : prog A) (Q : A → bool → gset Z → Prop) (ch : bool) (o : gset Z) : Prop :=
  match m with
  | Done a => Q a ch o
  | Exit => True
  | Hang => h
  | Call c k => ∀ r d, answers c o r d → obeys h (k r d) Q (ch || forked c r) (after c r d o)
  end.

(** Only the process that entered [m] returns from it, with the descriptors that
    it had. *)
Definition tidy {A} (h : Prop) (m : prog A) : Prop :=
  ∀ ch o, obeys h m (λ _ ch' o', ch' = ch ∧ o' = o) ch o.

Section Rules.
Context {h : Prop}.

Lemma obeys_bind {A B} (m : prog A) (f : A → prog B) Q ch o :
  obeys h m (λ a, obeys h (f a) Q) ch o → obeys h (m ≫= f) Q ch o.
Proof. revert ch o. induction m as [a| |c k IH|]; intros ch o Hm; cbn in *; eauto. Qed.

Lemma obeys_mono {A} (m : prog A) (Q Q' : A → bool → gset Z → Prop) ch o :
  (∀ a ch' o', Q a ch' o' → Q' a ch' o') → obeys h m Q ch o → obeys h m Q' ch o.
Proof. intros HQ. revert ch o. induction m as [a| |c k IH|]; intros ch o Hm; cbn in *; eauto. Qed.

Lemma obeys_tidy {A} (m : prog A) (Q : A → bool → gset Z → Prop) ch o :
  tidy h m → (∀ a, Q a ch o) → obeys h m Q ch o.
Proof. intros Hm HQ. eapply obeys_mono, Hm. intros a ? ? [-> ->]. apply HQ. Qed.

Lemma obeys_putc out fd Q ch o : Q tt ch o → obeys h (each out (putc fd)) Q ch o.
Proof.
  revert Q. induction out as [|c out IH]; intros Q HQ; [done|]. cbn [each].
  apply obeys_bind. cbn. intros _ _ _. rewrite orb_false_r. by apply IH.
Qed.

Lemma obeys_printf fd fmt args Q ch o :
  is_Some (uformat false fmt args) → Q tt ch o → obeys h (printf fd fmt args) Q ch o.
Proof. intros [out E] HQ. unfold printf. rewrite E. by apply obeys_putc. Qed.

Lemma obeys_fail {A} fmt args (Q : A → bool → gset Z → Prop) ch o :
  is_Some (uformat false fmt args) → obeys h (fail fmt args) Q ch o.
Proof. intros E. apply obeys_bind, obeys_printf; done. Qed.

Lemma obeys_check b fmt Q ch o :
  is_Some (uformat false fmt []) → (b = false → Q tt ch o) → obeys h (check b fmt) Q ch o.
Proof. intros E HQ. destruct b; [by apply obeys_fail|by apply HQ]. Qed.

Lemma obeys_each {A} (l : list A) f Q ch o : (∀ x, tidy h (f x)) → Q tt ch o → obeys h (each l f) Q ch o.
Proof.
  intros Hf. revert Q. induction l as [|x l IH]; intros Q HQ; [done|]. cbn [each].
  apply obeys_bind, obeys_tidy; [apply Hf|]. intros _. by apply IH.
Qed.

Lemma obeys_for {T} ks (body : Z → T → prog (T + T)) t (Q : T → bool → gset Z → Prop) ch o :
  (∀ k t', obeys h (body k t') (λ _ ch' o', ch' = ch ∧ o' = o) ch o) → (∀ t', Q t' ch o) → obeys h (for_ ks body t) Q ch o.
Proof.
  intros Hb HQ. revert t. induction ks as [|k ks IH]; intros t; [apply HQ|]. cbn [for_].
  apply obeys_bind. eapply obeys_mono, Hb. intros [t'|t'] ? ? [-> ->]; [apply IH|apply HQ].
Qed.

(** The same where forked processes stay in the loop. *)
Lemma obeys_for_all {T} ks (body : Z → T → prog (T + T)) t (Q : T → bool → gset Z → Prop) ch o :
  (∀ k t' ch', obeys h (body k t') (λ _ _ o', o' = o) ch' o) → (∀ t' ch', Q t' ch' o) → obeys h (for_ ks body t) Q ch o.
Proof.
  intros Hb HQ. revert t ch. induction ks as [|k ks IH]; intros t ch; [apply HQ|]. cbn [for_].
  apply obeys_bind. eapply obeys_mono, Hb. intros [t'|t'] ? ? ->; [apply IH|apply HQ].
Qed.

Lemma obeys_loop {T B} g (body : T → prog (T + B)) t (Q : B → bool → gset Z → Prop) ch o :
  h → (∀ t', obeys h (body t') (λ _ ch' o', ch' = ch ∧ o' = o) ch o) → (∀ b, Q b ch o) → obeys h (loop g body t) Q ch o.
Proof.
  intros Hh Hb HQ. revert t. induction g as [|g IH]; intros t; [exact Hh|]. cbn [loop].
  apply obeys_bind. eapply obeys_mono, Hb. intros [t'|b] ? ? [-> ->]; [apply IH|apply HQ].
Qed.
Lemma obeys_open p md Q ch o :
  (∀ r, r < 0 → Q r ch o) → (∀ r, fresh o r → Q r ch ({[r]} ∪ o)) → obeys h (sys (Open p md)) Q ch o.
Proof.
  intros Hbad Hok r d Ha. cbn. rewrite orb_false_r. destruct Ha as [Hr|Hr].
  - rewrite (proj2 (Z.leb_gt 0 r)) by lia. by apply Hbad.
  - rewrite (proj2 (Z.leb_le 0 r)) by apply Hr. by apply Hok.
Qed.

Lemma fresh_weaken o b a : fresh ({[b]} ∪ o) a → fresh o a.
Proof. intros [? ?]. split; [done|set_solver]. Qed.

Lemma obeys_close fd (Q : Z → bool → gset Z → Prop) ch o :
  fresh o fd → (∀ r, Q r ch o) → obeys h (sys (Close fd)) Q ch ({[fd]} ∪ o).
Proof.
  intros [H0 Hfd] HQ r d _. cbn. rewrite orb_false_r, (proj2 (Z.leb_le 0 fd) H0).
  replace (({[fd]} ∪ o) ∖ {[fd]}) with o by set_solver. apply HQ.
Qed.

Lemma obeys_close_second a fd (Q : Z → bool → gset Z → Prop) ch o :
  fresh o fd → fresh ({[fd]} ∪ o) a → (∀ r, Q r ch ({[a]} ∪ o)) → obeys h (sys (Close fd)) Q ch ({[a]} ∪ ({[fd]} ∪ o)).
Proof.
  intros Ff [Ha Hna] HQ. replace ({[a]} ∪ ({[fd]} ∪ o)) with ({[fd]} ∪ ({[a]} ∪ o)) by set_solver.
  apply obeys_close; [|done]. destruct Ff. split; [done|set_solver].
Qed.

(** Close, of any descriptor. *)
Lemma obeys_close_any fd (Q : Z → bool → gset Z → Prop) ch o : (∀ r o', Q r ch o') → obeys h (sys (Close fd)) Q ch o.
Proof. intros HQ r d _. cbn. rewrite orb_false_r. apply HQ. Qed.

Lemma obeys_close_bad fd (Q : Z → bool → gset Z → Prop) ch o :
  fd < 0 → (∀ r, Q r ch o) → obeys h (sys (Close fd)) Q ch o.
Proof. intros Hfd HQ r d _. cbn. rewrite orb_false_r, (proj2 (Z.leb_gt 0 fd) Hfd). apply HQ. Qed.

Lemma obeys_pipe (Q : Z * list Z → bool → gset Z → Prop) ch o :
  (∀ r d, r ≠ 0 → Q (r, d) ch o) →
  (∀ a b, fresh o b → fresh ({[b]} ∪ o) a → Q (0, [a; b]) ch ({[a]} ∪ ({[b]} ∪ o))) → obeys h (sysd Pipe_) Q ch o.
Proof.
  intros Hbad Hok r d Ha. cbn. rewrite orb_false_r. destruct Ha as [Hr|(-> & a & b & -> & Fa & Fb & Hab)].
  - rewrite (proj2 (Z.eqb_neq r 0) Hr). by apply Hbad.
  - apply Hok; [done|]. split; [apply Fa|]. destruct Fa. set_solver.
Qed.

Lemma obeys_fork Q ch o : (∀ r, r ≠ 0 → Q r ch o) → Q 0 true o → obeys h (sys Fork) Q ch o.
Proof.
  intros Hp Hc r d _. cbn. destruct (Z.eqb_spec r 0) as [->|Hr].
  - by rewrite orb_true_r.
  - rewrite orb_false_r. by apply Hp.
Qed.

(** The other calls leave processes and descriptors as they are. *)
Definition plain (c : call) : bool :=
  match c with Open _ _ | Dup _ | Pipe_ | Close _ | Fork => false | _ => true end.

Lemma obeys_plain c (Q : Z * list Z → bool → gset Z → Prop) ch o :
  plain c = true → (∀ x, Q x ch o) → obeys h (sysd c) Q ch o.
Proof. intros Hc HQ r d _. destruct c; try discriminate Hc; cbn; rewrite orb_false_r; apply HQ. Qed.

Lemma obeys_sys_plain c (Q : Z → bool → gset Z → Prop) ch o :
  plain c = true → (∀ r, Q r ch o) → obeys h (sys c) Q ch o.
Proof. intros Hc HQ r d _. destruct c; try discriminate Hc; cbn; rewrite orb_false_r; apply HQ. Qed.

Lemma obeys_ret {A} (a : A) (Q : A → bool → gset Z → Prop) ch o : Q a ch o → obeys h (mret a) Q ch o.
Proof. done. Qed.

Lemma obeys_sbrk n (Q : Z → bool → gset Z → Prop) ch o : (∀ r, Q r ch o) → obeys h (sbrk n) Q ch o.
Proof. intros HQ. apply obeys_bind, obeys_sys_plain; [done|]. intros r. apply HQ. Qed.

(** A loop that makes one call for ever. *)
Lemma obeys_sit {B} g c t (Q : B → bool → gset Z → Prop) ch o :
  h → plain c = true → obeys h (loop g (λ _ : unit, sys c;; mret (inl tt)) t) Q ch o.
Proof.
  intros Hh Hc. revert t. induction g as [|g IH]; intros t; [exact Hh|]. cbn [loop].
  apply obeys_bind, obeys_bind, obeys_sys_plain; [done|]. intros _. apply IH.
Qed.
End Rules.

(** A format with its arguments. *)
Ltac formats := lazymatch goal with |- is_Some (uformat _ _ _) => eexists; lazy -[i32 uprintint str_chars u8 app]; reflexivity end.

(** One step of a test: the rule for its first statement. *)
Ltac obeys_step :=
  cbv beta iota zeta;
  lazymatch goal with
  | |- obeys _ (_ ≫= _) _ _ _ => apply obeys_bind
  | |- obeys _ (mret _) _ _ _ => apply obeys_ret
  | |- obeys _ exit _ _ _ => exact I
  | |- obeys _ forever _ _ _ => exact I
  | |- obeys _ (printf _ _ _) _ _ _ => apply obeys_printf; [formats|]
  | |- obeys _ (fail _ _) _ _ _ => apply obeys_fail; formats
  | |- obeys _ (check _ _) _ _ _ => apply obeys_check; [formats|let E := fresh "E" in intros E; try (exfalso; unfold fresh in *; lia)]
  | |- obeys _ (sys (Open _ _)) _ _ _ => apply obeys_open; intros ? ?
  | |- obeys _ (sys (Close _)) _ _ _ => 
      first [apply obeys_close; [first [assumption|eapply fresh_weaken; eassumption]|intros ?]
            |apply obeys_close_bad; [assumption|intros ?]|apply obeys_close_second; [assumption..|intros ?]
            |apply obeys_close_any; intros ? ?]
  | |- obeys _ (sysd Pipe_) _ _ _ =>
      apply obeys_pipe; [intros ? ? ?|let a := fresh "a" in let b := fresh "b" in intros a b ? ?;
        change (byte_at [a; b] 0) with a; change (byte_at [a; b] 1) with b]
  | |- obeys _ (sys Fork) _ _ _ => apply obeys_fork; [intros ? ?|]
  | |- obeys _ (sys _) _ _ _ => apply obeys_sys_plain; [reflexivity|intros ?]
  | |- obeys _ (sysd _) _ _ _ => apply obeys_plain; [reflexivity|intros [? ?]]
  | |- obeys _ (sbrk _) _ _ _ => apply obeys_sbrk; intros ?
  | |- obeys _ (each _ _) _ _ _ => apply obeys_each; [intros ? ? ?|]
  | |- obeys _ (for_ _ _ _) _ _ _ => apply obeys_for; intros
  | |- obeys _ (loop _ (λ _, sys _;; mret (inl tt)) _) _ _ _ => apply obeys_sit; [exact I|reflexivity]
  | |- obeys _ (loop _ _ _) _ _ _ => apply obeys_loop; [exact I|intros ?|intros ?]
  | |- obeys _ (match ?b with true => _ | false => _ end) _ _ _ =>
      let E := fresh "E" in destruct b eqn:E; try (exfalso; unfold fresh in *; lia)
  | |- obeys _ (match ?x with (_, _) => _ end) _ _ _ => destruct x
  | |- obeys _ (match ?x with Some _ => _ | None => _ end) _ _ _ => destruct x
  | |- ∀ _, _ => intro
  | |- _ ∧ _ => split; reflexivity
  | |- _ = _ => reflexivity
  end.
Ltac obeys_run := repeat obeys_step.

Section Tidy.
Context (gas : nat).

Lemma iputtest_tidy : tidy False iputtest.
Proof. intros ch o. unfold iputtest, validateint. obeys_run. Qed.

Lemma exitiputtest_tidy : tidy False exitiputtest.
Proof. intros ch o. unfold exitiputtest, validateint. obeys_run. Qed.

Lemma openiputtest_tidy : tidy False openiputtest.
Proof. intros ch o. unfold openiputtest, validateint. obeys_run. Qed.

Lemma opentest_tidy : tidy False opentest.
Proof. intros ch o. unfold opentest, validateint. obeys_run. Qed.

Lemma writetest_tidy buf : tidy False (writetest buf).
Proof. intros ch o. unfold writetest, validateint. obeys_run. Qed.

Lemma createtest_tidy : tidy False createtest.
Proof. intros ch o. unfold createtest, validateint. obeys_run. Qed.

Lemma dirtest_tidy : tidy False dirtest.
Proof. intros ch o. unfold dirtest, validateint. obeys_run. Qed.

Lemma exectest_tidy : tidy False exectest.
Proof. intros ch o. unfold exectest, validateint. obeys_run. Qed.

Lemma exitwait_tidy : tidy False exitwait.
Proof. intros ch o. unfold exitwait, validateint. obeys_run. Qed.

Lemma createdelete_tidy : tidy False createdelete.
Proof. intros ch o. unfold createdelete, validateint. obeys_run. Qed.

Lemma unlinkread_tidy buf : tidy False (unlinkread buf).
Proof. intros ch o. unfold unlinkread, validateint. obeys_run. Qed.

Lemma linktest_tidy buf : tidy False (linktest buf).
Proof. intros ch o. unfold linktest, validateint. obeys_run. Qed.

Lemma linkunlink_tidy : tidy False linkunlink.
Proof. intros ch o. unfold linkunlink, validateint. obeys_run. Qed.

Lemma bigdir_tidy : tidy False bigdir.
Proof. intros ch o. unfold bigdir, validateint. obeys_run. Qed.

Lemma subdir_tidy buf : tidy False (subdir buf).
Proof. intros ch o. unfold subdir, validateint. obeys_run. Qed.

Lemma bigwrite_tidy buf : tidy False (bigwrite buf).
Proof. intros ch o. unfold bigwrite, validateint. obeys_run. Qed.

Lemma fourteen_tidy : tidy False fourteen.
Proof. intros ch o. unfold fourteen, validateint. obeys_run. Qed.

Lemma rmdot_tidy : tidy False rmdot.
Proof. intros ch o. unfold rmdot, validateint. obeys_run. Qed.

Lemma dirfile_tidy : tidy False dirfile.
Proof. intros ch o. unfold dirfile, validateint. obeys_run. Qed.

Lemma iref_tidy : tidy False iref.
Proof. intros ch o. unfold iref, validateint. obeys_run. Qed.

Lemma forktest_tidy : tidy False forktest.
Proof. intros ch o. unfold forktest, validateint. obeys_run. Qed.

Lemma validatetest_tidy : tidy False validatetest.
Proof. intros ch o. unfold validatetest, validateint. obeys_run. Qed.

Lemma bsstest_tidy uninit : tidy False (bsstest uninit).
Proof. intros ch o. unfold bsstest, validateint. obeys_run. Qed.

Lemma bigargtest_tidy : tidy False bigargtest.
Proof. intros ch o. unfold bigargtest, validateint. obeys_run. Qed.

Lemma uio_tidy : tidy False uio.
Proof. intros ch o. unfold uio, validateint. obeys_run. Qed.

Lemma argptest_tidy : tidy False argptest.
Proof. intros ch o. unfold argptest, validateint. obeys_run. Qed.

Lemma writetest1_tidy buf : tidy True (writetest1 gas buf).
Proof. intros ch o. unfold writetest1. obeys_run. Qed.

Lemma mem_tidy : tidy True (mem gas).
Proof. intros ch o. unfold mem. obeys_run. Qed.

Lemma sharedfd_tidy : tidy True (sharedfd gas).
Proof. intros ch o. unfold sharedfd. obeys_run. Qed.

Lemma fourfiles_tidy buf : tidy True (fourfiles gas buf).
Proof. intros ch o. unfold fourfiles. obeys_run. Qed.

Lemma concreate_tidy de : tidy True (concreate gas de).
Proof. intros ch o. unfold concreate. obeys_run. Qed.

Lemma bigfile_tidy buf : tidy True (bigfile gas buf).
Proof. intros ch o. unfold bigfile. obeys_run. Qed.

Lemma fsfull_tidy buf : tidy True (fsfull gas buf).
Proof. intros ch o. unfold fsfull. obeys_run. Qed.

Lemma pipe1_contained buf ch o :
  obeys True (pipe1 gas buf) (λ _ ch' o', ch' = ch ∧ (o' = o ∨ ∃ fd, fresh o fd ∧ o' = {[fd]} ∪ o)) ch o.
Proof. unfold pipe1. obeys_run; eauto 8 using fresh_weaken. Qed.

Lemma preempt_contained pfds buf ch o : obeys True (preempt pfds buf) (λ _ ch' _, ch' = ch) ch o.
Proof. unfold preempt. obeys_run. Qed.

Lemma sbrktest_contained ch o :
  obeys True (sbrktest gas)
    (λ _ ch' o', ch' = ch ∧ ∃ a b, fresh o b ∧ fresh ({[b]} ∪ o) a ∧ o' = {[a]} ∪ ({[b]} ∪ o)) ch o.
Proof. unfold sbrktest. obeys_run; eauto 8. Qed.
End Tidy.

(** A program that ends, in each of its processes, whatever the kernel answers. *)
Definition ends {A} (m : prog A) : Prop := ∀ ch o, obeys False m (λ _ _ _, False) ch o.

Lemma stressfs_ends : ends Stressfs.main.
Proof.
  intros ch o. unfold Stressfs.main. apply obeys_bind, obeys_printf; [formats|]. cbv beta zeta. apply obeys_bind, obeys_for_all.
  - intros k t ch'. obeys_run.
  - intros t ch'. obeys_run.
Qed.

Lemma forktest_ends : ends Forktest.main.
Proof. intros ch o. unfold Forktest.main, Forktest.forktest, Forktest.printf. obeys_run. Qed.

Lemma foo_ends argv : ends (Foo.main argv).
Proof.
  intros ch o. unfold Foo.main. cbv zeta. apply obeys_bind, obeys_for_all.
  - intros k t ch'. obeys_run.
  - intros t ch'. obeys_run.
Qed.

Lemma vid_ends : ends Vid.main.
Proof. intros ch o. unfold Vid.main, Vid.report. obeys_run. Qed.

(** A test for what it does, without the bytes it leaves in [buf]. *)
Definition void {A} (m : prog A) : prog unit := m;; mret tt.

Lemma void_tidy {A} h (m : prog A) : tidy h m → tidy h (void m).
Proof. intros Hm ch o. apply obeys_bind, obeys_tidy; [done|]. intros a. by split. Qed.

Create HintDb tests discriminated.
#[export] Hint Constants Opaque : tests.
#[export] Hint Resolve void_tidy iputtest_tidy exitiputtest_tidy openiputtest_tidy opentest_tidy writetest_tidy
  createtest_tidy dirtest_tidy exectest_tidy exitwait_tidy createdelete_tidy unlinkread_tidy linktest_tidy
  linkunlink_tidy bigdir_tidy subdir_tidy bigwrite_tidy fourteen_tidy rmdot_tidy dirfile_tidy iref_tidy
  forktest_tidy validatetest_tidy bsstest_tidy bigargtest_tidy uio_tidy argptest_tidy writetest1_tidy mem_tidy
  sharedfd_tidy fourfiles_tidy concreate_tidy bigfile_tidy fsfull_tidy : tests.

(** C37: the tests keep their processes and descriptors in order, whatever the
    kernel answers to their calls. No process that a test forks gets past the
    test, so that only the first one goes on to the next test, and it does so
    with the descriptors it had. All processes of the tests in the first list
    end or return after finitely many calls; those of the second list, which
    read or write until the kernel says stop, may go on for ever. Three tests
    do not clean up: pipe1 may return with an end of its pipe open, sbrktest
    always leaves both ends of one open, and preempt closes what its
    array held before if there is no pipe. All processes of stressfs, forktest,
    foo and vid exit. *)
Theorem usertests_contained gas de pfds buf uninit argv :
  Forall (tidy False)
    [argptest; createdelete; linkunlink; bigargtest; bigwrite buf; bsstest uninit; validatetest; opentest;
     void (writetest buf); createtest; dirtest; openiputtest; exitiputtest; iputtest; exitwait; rmdot; fourteen;
     void (subdir buf); void (linktest buf); void (unlinkread buf); dirfile; iref; forktest; bigdir; uio; exectest]
  ∧ Forall (tidy True)
      [concreate gas de; void (fourfiles gas buf); sharedfd gas; void (writetest1 gas buf); mem gas;
       void (bigfile gas buf); fsfull gas buf]
  ∧ (∀ ch o, obeys True (pipe1 gas buf) (λ _ ch' o', ch' = ch ∧ (o' = o ∨ ∃ fd, fresh o fd ∧ o' = {[fd]} ∪ o)) ch o)
  ∧ (∀ ch o, obeys True (sbrktest gas)
       (λ _ ch' o', ch' = ch ∧ ∃ a b, fresh o b ∧ fresh ({[b]} ∪ o) a ∧ o' = {[a]} ∪ ({[b]} ∪ o)) ch o)
  ∧ (∀ ch o, obeys True (preempt pfds buf) (λ _ ch' _, ch' = ch) ch o)
  ∧ ends Stressfs.main ∧ ends Forktest.main ∧ ends (Foo.main argv) ∧ ends Vid.main.
Proof.
  split; [|split; [|split; [|split; [|split; [|split; [|split; [|split]]]]]]].
  - repeat (apply Forall_cons_2; [solve [eauto with tests nocore]|]). apply Forall_nil_2.
  - repeat (apply Forall_cons_2; [solve [eauto with tests nocore]|]). apply Forall_nil_2.
  - intros ch o. apply pipe1_contained.
  - intros ch o. apply sbrktest_contained.
  - intros ch o. apply preempt_contained.
  - apply stressfs_ends.
  - apply forktest_ends.
  - apply foo_ends.
  - apply vid_ends.
Qed.
