(* ===== verification/X86.v ===== *)
(** The instructions of the 80386 that the assembly files use, as a function
    from a machine state to the next one. [None] is a fault: nothing here goes on
    after one. Segments have a base and a privilege; their limits are those of
    the flat segments of the kernel and are not checked. *)

From S2P Require Import Prelude Segs Types Strings Apic.

Module X86.
Import Descriptors.

(** ** Registers *)

(** In the order of their numbers, which pushal follows. *)
Inductive reg := EAX | ECX | EDX | EBX | ESP | EBP | ESI | EDI.
Inductive sreg := ES | CS | SS | DS | FS | GS.
Inductive creg := CR0 | CR3 | CR4.

Definition reg_eqb (a b : reg) : bool :=
  match a, b with
  | EAX, EAX | ECX, ECX | EDX, EDX | EBX, EBX | ESP, ESP | EBP, EBP | ESI, ESI | EDI, EDI => true
  | _, _ => false
  end.
Definition sreg_eqb (a b : sreg) : bool :=
  match a, b with ES, ES | CS, CS | SS, SS | DS, DS | FS, FS | GS, GS => true | _, _ => false end.
Definition creg_eqb (a b : creg) : bool :=
  match a, b with CR0, CR0 | CR3, CR3 | CR4, CR4 => true | _, _ => false end.

Definition put (r : reg) (v : Z) (f : reg → Z) : reg → Z := λ x, if reg_eqb x r then v else f x.
Definition putc {A} (r : creg) (v : A) (f : creg → A) : creg → A := λ x, if creg_eqb x r then v else f x.
Definition puts {A} (r : sreg) (v : A) (f : sreg → A) : sreg → A := λ x, if sreg_eqb x r then v else f x.

(** A segment register: the selector, and what the CPU has read of its
    descriptor. *)
Record segment := mkSegment { sel : Z; sbase : Z; sdpl : Z }.

(** [gdtr] and [idtr] are the base and the limit of the descriptor tables, [tss]
    the base of the task segment, [ram] the memory and [ports] the history of
    the port accesses. *)
Record state := mkState {
  gpr : reg → Z; seg : sreg → segment; eip : Z; eflags : Z; cr : creg → Z;
  gdtr : Z * Z; idtr : Z * Z; tss : Z; ram : memory; ports : list ioev }.
#[export] Instance eta_state : Settable state :=
  λ s, mkState (gpr s) (seg s) (eip s) (eflags s) (cr s) (gdtr s) (idtr s) (tss s) (ram s) (ports s).
#[export] Instance set_gpr : Setter gpr := ltac:(build_setter).
#[export] Instance set_seg : Setter seg := ltac:(build_setter).
#[export] Instance set_eip : Setter eip := ltac:(build_setter).
#[export] Instance set_eflags : Setter eflags := ltac:(build_setter).
#[export] Instance set_cr : Setter cr := ltac:(build_setter).
#[export] Instance set_gdtr : Setter gdtr := ltac:(build_setter).
#[export] Instance set_ram : Setter ram := ltac:(build_setter).
#[export] Instance set_ports : Setter ports := ltac:(build_setter).

Definition CR0_PE : Z := 1.
Definition CR0_WP : Z := 65536.
Definition CR0_PG : Z := 2147483648.
Definition CR4_PSE : Z := 16.

Definition protected (s : state) : bool := Z.testbit (cr s CR0) 0.

(** The current privilege level. *)
Definition cpl (s : state) : Z := if protected s then Z.land (sel (seg s CS)) 3 else 0.

(** ** Instructions *)

Inductive operand :=
  | R (r : reg) | Sr (r : sreg) | Cr (r : creg)
  | Imm (v : Z)
  | Mem (disp : Z) (r : reg)
  | Abs (a : Z).

(** In the order of operands of the assembler: the destination is last. The
    operand of call and jmp is the address itself, that of calli and jmpi holds
    it. [lgdt] is the one of 16-bit code. *)
Inductive instr :=
  | movl (src dst : operand) | movw (src dst : operand) | movb (src dst : operand)
  | orl (src dst : operand) | addl (src dst : operand) | xorw (src dst : operand) | testb (src dst : operand)
  | pushl (src : operand) | popl (dst : operand) | pushal | popal
  | call (a : Z) | calli (o : operand) | jmp (a : Z) | jmpi (o : operand) | jnz (a : Z) | ljmp (sl a : Z) | ret | iret | int (n : Z)
  | cli | inb (port : Z) | outb (port : Z) | outw | lgdt (a : Z).

(** What translates a linear address; the first argument says whether the access
    is a write, the second whether it is one of user code. *)
Class Mmu := { xlat : state → bool → bool → Z → option Z }.

Section Machine.
Context {H : Hardware} {MM : Mmu}.

(** ** Memory *)

Definition rd8 (u : bool) (s : state) (a : Z) : option Z := p ← xlat s false u a; Some (ram s p).
Definition rd16 (u : bool) (s : state) (a : Z) : option Z :=
  x ← rd8 u s a; y ← rd8 u s (u32 (a + 1)); Some (x + y * 2 ^ 8).
Definition rd32 (u : bool) (s : state) (a : Z) : option Z :=
  x ← rd8 u s a; y ← rd8 u s (u32 (a + 1)); z ← rd8 u s (u32 (a + 2)); w ← rd8 u s (u32 (a + 3));
  Some (x + y * 2 ^ 8 + z * 2 ^ 16 + w * 2 ^ 24).
Definition rd64 (u : bool) (s : state) (a : Z) : option Z :=
  x ← rd32 u s a; y ← rd32 u s (u32 (a + 4)); Some (x + y * 2 ^ 32).

Definition wr8 (u : bool) (a v : Z) (s : state) : option state :=
  p ← xlat s true u a; Some (s <| ram ::= λ m, upd m p (u8 v) |>).
Definition wr32 (u : bool) (a v : Z) (s : state) : option state :=
  s ← wr8 u a v s; s ← wr8 u (u32 (a + 1)) (v / 2 ^ 8) s;
  s ← wr8 u (u32 (a + 2)) (v / 2 ^ 16) s; wr8 u (u32 (a + 3)) (v / 2 ^ 24) s.

Definition user (s : state) : bool := cpl s =? 3.

(** The linear address of an offset in a segment. *)
Definition lin (s : state) (r : sreg) (off : Z) : Z := u32 (sbase (seg s r) + u32 off).

Definition push (v : Z) (s : state) : option state :=
  let sp := u32 (gpr s ESP - 4) in
  s ← wr32 (user s) (lin s SS sp) v s;
  Some (s <| gpr ::= put ESP sp |>).
Definition pop (s : state) : option (Z * state) :=
  v ← rd32 (user s) s (lin s SS (gpr s ESP));
  Some (v, s <| gpr ::= put ESP (u32 (gpr s ESP + 4)) |>).

Definition push_list (l : list Z) (s : state) : option state := foldl (λ o v, s' ← o; push v s') (Some s) l.

(** ** Segments *)

(** The descriptor that a selector selects; there is no local table. *)
Definition desc (s : state) (v : Z) : option Z :=
  let o := Z.land v 65528 in
  if Z.testbit v 2 || (snd (gdtr s) <? o + 7) then None else rd64 false s (u32 (fst (gdtr s) + o)).

(** Whether the descriptor [d] may be loaded with the selector [v]. *)
Definition loadable (s : state) (r : sreg) (v d : Z) : bool :=
  let type := field 40 4 d in let dpl := field 45 2 d in let rpl := Z.land v 3 in
  (field 47 1 d =? 1) && (field 44 1 d =? 1) &&
  match r with
  | CS => Z.testbit type 3 && negb (Z.testbit type 2) && (dpl =? rpl)
  | SS => negb (Z.testbit type 3) && Z.testbit type 1 && (dpl =? cpl s) && (rpl =? cpl s)
  | _ => (negb (Z.testbit type 3) || Z.testbit type 1) && (Z.max (cpl s) rpl <=? dpl)
  end.

Definition load_seg (r : sreg) (v : Z) (s : state) : option state :=
  let v := u16 v in
  if negb (protected s) then Some (s <| seg ::= puts r (mkSegment v (16 * v) 0) |>)
  else if Z.land v 65532 =? 0 then
    match r with CS | SS => None | _ => Some (s <| seg ::= puts r (mkSegment v 0 3) |>) end
  else
    d ← desc s v;
    if loadable s r v d then Some (s <| seg ::= puts r (mkSegment v (seg_base d) (field 45 2 d)) |>) else None.

(** ** Interrupts *)

Definition FL_CF : Z := 1.
Definition FL_PF : Z := 4.
Definition FL_AF : Z := 16.
Definition FL_ZF : Z := 64.
Definition FL_SF : Z := 128.
Definition FL_TF : Z := 256.
Definition FL_OF : Z := 2048.
Definition FL_NT : Z := 16384.
Definition FL_RF : Z := 65536.
Definition FL_VM : Z := 131072.

Definition clear (mask fl : Z) : Z := Z.land fl (Z.lnot mask).
Definition flag (mask : Z) (b : bool) (fl : Z) : Z := if b then Z.lor fl mask else clear mask fl.

(** Vector [n], by the instruction int ([soft]) or by the hardware, with the
    error code that some exceptions push. Coming from a lower privilege the CPU
    takes the stack of the task segment and saves the old one there. *)
Definition interrupt (soft : bool) (n : Z) (err : option Z) (s : state) : option state :=
  if snd (idtr s) <? 8 * n + 7 then None else
  g ← rd64 false s (u32 (fst (idtr s) + 8 * n));
  let type := field 40 4 g in
  if negb (field 47 1 g =? 1) || negb ((type =? STS_IG32) || (type =? STS_TG32)) || (soft && (field 45 2 g <? cpl s))
  then None else
  d ← desc s (field 16 16 g);
  let dpl := field 45 2 d in
  if cpl s <? dpl then None else
  s1 ← load_seg CS (Z.land (field 16 16 g) 65532 + dpl) s;
  s1 ← (if dpl <? cpl s then
          esp0 ← rd32 false s (u32 (tss s + 4));
          ss0 ← rd16 false s (u32 (tss s + 8));
          s1 ← load_seg SS ss0 s1;
          push_list [sel (seg s SS); gpr s ESP] (s1 <| gpr ::= put ESP esp0 |>)
        else Some s1);
  s1 ← push_list ([eflags s; sel (seg s CS); eip s] ++ match err with Some e => [e] | None => [] end) s1;
  Some (s1 <| eip := gate_offset g |>
           <| eflags := clear (Z.lor FL_TF (Z.lor FL_NT (Z.lor FL_RF FL_VM)))
                          (if type =? STS_IG32 then clear FL_IF (eflags s) else eflags s) |>).

(** A data segment that the new privilege level may not use is taken away. *)
Definition revoke (s : state) : state :=
  s <| seg ::= λ f r, match r with CS | SS => f r | _ => if sdpl (f r) <? cpl s then mkSegment 0 0 3 else f r end |>.

(** The return from an interrupt, of kernel code. *)
Definition do_iret (s : state) : option state :=
  if negb (cpl s =? 0) then None else
  '(ip, s1) ← pop s;
  '(c, s1) ← pop s1;
  '(fl, s1) ← pop s1;
  if Z.land c 3 =? 0 then
    s1 ← load_seg CS c s1;
    Some (s1 <| eip := ip |> <| eflags := fl |>)
  else
    '(sp, s1) ← pop s1;
    '(sg, s1) ← pop s1;
    s1 ← load_seg CS c s1;
    s1 ← load_seg SS sg s1;
    Some (revoke (s1 <| gpr ::= put ESP sp |> <| eip := ip |> <| eflags := fl |>)).

(** ** Operands *)

(** The address of an operand in memory; an address made from the stack
    pointer or the frame pointer is in the stack segment. *)
Definition addr (s : state) (o : operand) : option Z :=
  match o with
  | Mem d ESP => Some (lin s SS (gpr s ESP + d))
  | Mem d EBP => Some (lin s SS (gpr s EBP + d))
  | Mem d r => Some (lin s DS (gpr s r + d))
  | Abs a => Some (lin s DS a)
  | _ => None
  end.

(** An operand of 32 bits, and assignment to it. *)
Definition get (o : operand) (s : state) : option Z :=
  match o with
  | R r => Some (gpr s r)
  | Sr r => Some (sel (seg s r))
  | Cr r => Some (cr s r)
  | Imm v => Some (u32 v)
  | Mem _ _ | Abs _ => a ← addr s o; rd32 (user s) s a
  end.
Definition assign (o : operand) (v : Z) (s : state) : option state :=
  match o with
  | R r => Some (s <| gpr ::= put r v |>)
  | Sr CS => None
  | Sr r => load_seg r v s
  | Cr r => if cpl s =? 0 then Some (s <| cr ::= putc r v |>) else None
  | Imm _ => None
  | Mem _ _ | Abs _ => a ← addr s o; wr32 (user s) a v s
  end.

(** Assignment to the low [n] bits of a register; other operands of that width
    are segment registers. *)
Definition assign_low (n : Z) (o : operand) (v : Z) (s : state) : option state :=
  match o with
  | R r => Some (s <| gpr ::= put r (gpr s r / 2 ^ n * 2 ^ n + v mod 2 ^ n) |>)
  | Sr r => assign (Sr r) v s
  | _ => None
  end.

(** The flags of a result [v] of [n] bits; a logical operation clears carry and
    overflow and leaves the auxiliary carry open, which here stays. *)
Definition result_flags (n v fl : Z) : Z :=
  flag FL_ZF (v mod 2 ^ n =? 0) (flag FL_SF (Z.testbit v (n - 1))
    (flag FL_PF (negb (foldl xorb false (map (λ i, Z.testbit v (Z.of_nat i)) (seq 0 8)))) fl)).
Definition logic_flags (n v fl : Z) : Z := clear (Z.lor FL_CF FL_OF) (result_flags n v fl).
Definition add_flags (x y fl : Z) : Z :=
  flag FL_CF (2 ^ 32 <=? x + y)
    (flag FL_OF (eqb (Z.testbit x 31) (Z.testbit y 31) && negb (eqb (Z.testbit x 31) (Z.testbit (x + y) 31)))
      (flag FL_AF (16 <=? x mod 16 + y mod 16) (result_flags 32 (u32 (x + y)) fl))).

Definition pops (l : list reg) (s : state) : option state :=
  foldl (λ o r, s ← o; '(v, s') ← pop s; Some (if reg_eqb r ESP then s' else s' <| gpr ::= put r v |>)) (Some s) l.

(** ** Execution *)

(** An instruction, in the state whose [eip] is past it. *)
Definition exec (i : instr) (s : state) : option state :=
  match i with
  | movl src dst => v ← get src s; assign dst v s
  | movw src dst => v ← get src s; assign_low 16 dst (u16 v) s
  | movb src dst => v ← get src s; assign_low 8 dst (u8 v) s
  | orl src dst =>
      x ← get src s; y ← get dst s; let v := Z.lor x y in
      assign dst v (s <| eflags ::= logic_flags 32 v |>)
  | addl src dst =>
      x ← get src s; y ← get dst s;
      assign dst (u32 (x + y)) (s <| eflags ::= add_flags y x |>)
  | xorw src dst =>
      x ← get src s; y ← get dst s; let v := Z.lxor (u16 x) (u16 y) in
      assign_low 16 dst v (s <| eflags ::= logic_flags 16 v |>)
  | testb src dst =>
      x ← get src s; y ← get dst s;
      Some (s <| eflags ::= logic_flags 8 (Z.land (u8 x) (u8 y)) |>)
  | pushl src => v ← get src s; push v s
  | popl dst => '(v, s') ← pop s; assign dst v s'
  | pushal => push_list (map (gpr s) [EAX; ECX; EDX; EBX; ESP; EBP; ESI; EDI]) s
  | popal => pops [EDI; ESI; EBP; ESP; EBX; EDX; ECX; EAX] s
  | call a => s' ← push (eip s) s; Some (s' <| eip := a |>)
  | calli o => a ← get o s; s' ← push (eip s) s; Some (s' <| eip := a |>)
  | jmp a => Some (s <| eip := a |>)
  | jmpi o => a ← get o s; Some (s <| eip := a |>)
  | jnz a => Some (if Z.land (eflags s) FL_ZF =? 0 then s <| eip := a |> else s)
  | ljmp sl a => s' ← load_seg CS sl s; Some (s' <| eip := a |>)
  | ret => '(a, s') ← pop s; Some (s' <| eip := a |>)
  | iret => do_iret s
  | int n => interrupt true n None s
  | cli => Some (s <| eflags ::= clear FL_IF |>)
  | inb port => let v := u8 (hw_inb (ports s) port) in
      assign_low 8 (R EAX) v (s <| ports ::= λ l, l ++ [InB port v] |>)
  | outb port => Some (s <| ports ::= λ l, l ++ [OutB port (u8 (gpr s EAX))] |>)
  | outw => Some (s <| ports ::= λ l, l ++ [OutW (u16 (gpr s EDX)) (u16 (gpr s EAX))] |>)
  | lgdt a =>
      lim ← rd16 (user s) s (lin s DS a); b ← rd32 (user s) s (lin s DS (a + 2));
      Some (s <| gdtr := (b mod 2 ^ 24, lim) |>)
  end.

(** The instruction at a physical address and its length, as the assembler laid
    it out. *)
Context (fetch : Z → option (instr * Z)).

Definition step (s : state) : option state :=
  p ← xlat s false (user s) (lin s CS (eip s));
  '(i, n) ← fetch p;
  exec i (s <| eip := u32 (eip s + n) |>).

Fixpoint steps (n : nat) (s : state) : option state :=
  match n with O => Some s | S n' => s' ← step s; steps n' s' end.

Definition reaches (s s' : state) : Prop := ∃ n, steps n s = Some s'.

Lemma reaches_refl s : reaches s s.
Proof. by exists O. Qed.

Lemma reaches_trans s1 s2 s3 : reaches s1 s2 → reaches s2 s3 → reaches s1 s3.
Proof.
  intros [n Hn] [k Hk]. exists (n + k)%nat. revert s1 Hn. induction n as [|n IH]; cbn [steps Nat.add]; intros s1 Hn; [by injection Hn as ->|].
  destruct (step s1) as [s|]; [|done]. cbn in *. by apply IH.
Qed.

End Machine.

#[global] Arguments step {_ _} _ _ : simpl never.
#[global] Arguments push {_} _ _ : simpl never.
#[global] Arguments pop {_} _ : simpl never.
#[global] Arguments rd32 {_} _ _ _ : simpl never.
#[global] Arguments wr32 {_} _ _ _ _ : simpl never.
#[global] Arguments load_seg {_} _ _ _ : simpl never.
#[global] Arguments lin _ _ _ : simpl never.
End X86.
