(* ===== verification/Asm.v ===== *)
(** Assembly text, what it takes to run it, and the context switch (swtch.S). *)

From S2P Require Import Prelude Segs Types Strings Apic X86.
Import Descriptors X86.

(** ** Assembly text

    A line is a label with its address, an instruction, or data. *)
Inductive line := Label (a : Z) | I (i : instr) | Long (v : Z) | Word (v : Z) | Byte (v : Z) | Align4.

(** The text lies in the memory from [a] to [e]: instructions as the assembler
    encoded them, data as bytes. *)
Fixpoint text_at (fetch : Z → option (instr * Z)) (m : memory) (a : Z) (l : list line) (e : Z) : Prop :=
  match l with
  | [] => a = e
  | Label x :: l' => x = a ∧ text_at fetch m a l' e
  | I i :: l' => ∃ n, 0 < n ∧ a + n < 2 ^ 32 ∧ fetch a = Some (i, n) ∧ text_at fetch m (a + n) l' e
  | Long v :: l' => load32 m a = u32 v ∧ text_at fetch m (a + 4) l' e
  | Word v :: l' => m a + m (a + 1) * 2 ^ 8 = u16 v ∧ text_at fetch m (a + 2) l' e
  | Byte v :: l' => m a = u8 v ∧ text_at fetch m (a + 1) l' e
  | Align4 :: l' => text_at fetch m ((a + 3) / 4 * 4) l' e
  end.

Section Text.
Context (sym : string → Z).

Definition swtch : list line := [
  Label (sym "swtch");
  I (movl (Mem 4 ESP) (R EAX));
  I (movl (Mem 8 ESP) (R EDX));
  I (pushl (R EBP));
  I (pushl (R EBX));
  I (pushl (R ESI));
  I (pushl (R EDI));
  I (movl (R ESP) (Mem 0 EAX));
  I (movl (R EDX) (R ESP));
  I (popl (R EDI));
  I (popl (R ESI));
  I (popl (R EBX));
  I (popl (R EBP));
  I ret ].

End Text.

(** ** Words in memory *)

Definition load64 (m : memory) (a : Z) : Z := load32 m a + load32 m (a + 4) * 2 ^ 32.

Definition words_at (m : memory) (a : Z) (l : list Z) : Prop :=
  ∀ i v, l !! i = Some v → load32 m (a + 4 * Z.of_nat i) = v.

(** The words [l] pushed, the last one first. *)
Fixpoint store_words (m : memory) (a : Z) (l : list Z) : memory :=
  match l with [] => m | v :: l' => store32 (store_words m (a + 4) l') a v end.

Lemma store_words_other m l : ∀ a x, x < a ∨ a + 4 * Z.of_nat (length l) ≤ x → store_words m a l x = m x.
Proof.
  induction l as [|v l IH]; intros a x Hx; [done|]. cbn [store_words length] in *.
  rewrite store32_other, IH by lia. done.
Qed.

Lemma store_words_at m l : ∀ a, Forall is_u32 l → words_at (store_words m a l) a l.
Proof.
  induction l as [|v l IH]; intros a HF i w Hi; [done|]. inversion_clear HF as [|? ? Hv HF'].
  cbn [store_words]. destruct i as [|i]; cbn in Hi.
  - injection Hi as ->. rewrite Z.mul_0_r, Z.add_0_r, load_store32. by apply u32_small.
  - rewrite load_store32_other by lia. rewrite <- (IH (a + 4) HF' i w Hi). f_equal. lia.
Qed.

Lemma store_words_push m a b v l : b + 4 = a → store32 (store_words m a l) b v = store_words m b (v :: l).
Proof. by intros <-. Qed.

Lemma store_words_app m l1 l2 : ∀ a b, b = a + 4 * Z.of_nat (length l1) →
  store_words (store_words m b l2) a l1 = store_words m a (l1 ++ l2).
Proof.
  induction l1 as [|v l1 IH]; intros a b ->; cbn [length app store_words]; [by rewrite Z.mul_0_r, Z.add_0_r|].
  by rewrite (IH (a + 4)) by lia.
Qed.

Lemma words_at_frame m m' a l : words_at m a l → (∀ x, a ≤ x < a + 4 * Z.of_nat (length l) → m' x = m x) → words_at m' a l.
Proof.
  intros H Hf i v Hi. rewrite <- (H i v Hi). apply lookup_lt_Some in Hi. apply load32_ext. intros x Hx. apply Hf. lia.
Qed.

Lemma words_at_cons m a v l : words_at m a (v :: l) ↔ load32 m a = v ∧ words_at m (a + 4) l.
Proof.
  split.
  - intros H. split; [rewrite <- (H 0%nat v eq_refl); f_equal; lia|].
    intros i w Hi. rewrite <- (H (S i) w Hi). f_equal. lia.
  - intros [H0 H] [|i] w Hi; cbn in Hi; [injection Hi as <-; rewrite <- H0; f_equal; lia|].
    rewrite <- (H i w Hi). f_equal. lia.
Qed.

(** ** Operands without memory *)

Section Registers.
Context {H : Hardware} {MM : Mmu} (fetch : Z → option (instr * Z)).

Lemma assign_reg_mk r v g sg ip fl c gd id ts m io :
  assign (R r) v (mkState g sg ip fl c gd id ts m io) = Some (mkState (put r v g) sg ip fl c gd id ts m io).
Proof. done. Qed.

Lemma set_eip_mk a g sg ip fl c gd id ts m io :
  (mkState g sg ip fl c gd id ts m io) <| eip := a |> = mkState g sg a fl c gd id ts m io.
Proof. done. Qed.

Lemma set_gpr_mk f g sg ip fl c gd id ts m io :
  (mkState g sg ip fl c gd id ts m io) <| gpr ::= f |> = mkState (f g) sg ip fl c gd id ts m io.
Proof. done. Qed.

Lemma set_seg_mk f g sg ip fl c gd id ts m io :
  (mkState g sg ip fl c gd id ts m io) <| seg ::= f |> = mkState g (f sg) ip fl c gd id ts m io.
Proof. done. Qed.

Lemma assign_low_reg_mk w r v g sg ip fl c gd id ts m io :
  assign_low w (R r) v (mkState g sg ip fl c gd id ts m io) = Some (mkState (put r (g r / 2 ^ w * 2 ^ w + v mod 2 ^ w) g) sg ip fl c gd id ts m io).
Proof. done. Qed.

Lemma get_reg_mk r g sg ip fl c gd id ts m io : get (R r) (mkState g sg ip fl c gd id ts m io) = Some (g r).
Proof. done. Qed.

Lemma get_sr_mk r g sg ip fl c gd id ts m io : get (Sr r) (mkState g sg ip fl c gd id ts m io) = Some (sel (sg r)).
Proof. done. Qed.

Lemma get_imm_mk v g sg ip fl c gd id ts m io : is_u32 v → get (Imm v) (mkState g sg ip fl c gd id ts m io) = Some v.
Proof. intros Hv. unfold get. by rewrite u32_small. Qed.
End Registers.

(** ** Linear memory

    The memory as kernel code sees it: the kernel is mapped alike in every page
    table. *)
#[export] Instance linear : Mmu := {| xlat _ _ _ a := Some a |}.

Section Linear.
Context {H : Hardware} (fetch : Z → option (instr * Z)).

Lemma rd32_linear u s a : 0 ≤ a → a + 4 ≤ 2 ^ 32 → rd32 u s a = Some (load32 (ram s) a).
Proof. intros H1 H2. unfold rd32, rd8. cbn. unfold u32. by rewrite !Z.mod_small by lia. Qed.

Lemma rd16_linear u s a : 0 ≤ a → a + 2 ≤ 2 ^ 32 → rd16 u s a = Some (ram s a + ram s (a + 1) * 2 ^ 8).
Proof. intros H1 H2. unfold rd16, rd8. cbn. unfold u32. by rewrite !Z.mod_small by lia. Qed.

Lemma wr32_linear u a v s : 0 ≤ a → a + 4 ≤ 2 ^ 32 → wr32 u a v s = Some (s <| ram ::= λ m, store32 m a v |>).
Proof. intros H1 H2. unfold wr32, wr8. cbn. unfold u32. by rewrite !Z.mod_small by lia. Qed.

Lemma lin_flat s r off : sbase (seg s r) = 0 → is_u32 off → lin s r off = off.
Proof. intros Hb Ho. unfold lin. rewrite Hb, (u32_small off Ho). cbn. by apply u32_small. Qed.

Lemma push_linear v s : sbase (seg s SS) = 0 → 4 ≤ gpr s ESP < 2 ^ 32 →
  push v s = Some (s <| ram ::= λ m, store32 m (gpr s ESP - 4) v |> <| gpr ::= put ESP (gpr s ESP - 4) |>).
Proof.
  intros Hb Hs. unfold push. rewrite (u32_small (_ - 4)) by (unfold is_u32; lia).
  rewrite lin_flat by (done || unfold is_u32; lia). by rewrite wr32_linear by lia.
Qed.

Lemma pop_linear s : sbase (seg s SS) = 0 → 0 ≤ gpr s ESP → gpr s ESP + 4 < 2 ^ 32 →
  pop s = Some (load32 (ram s) (gpr s ESP), s <| gpr ::= put ESP (gpr s ESP + 4) |>).
Proof.
  intros Hb H1 H2. unfold pop. rewrite lin_flat by (done || unfold is_u32; lia). rewrite rd32_linear by lia. cbn.
  by rewrite u32_small by (unfold is_u32; lia).
Qed.

Lemma step_linear s i n : sbase (seg s CS) = 0 → 0 ≤ eip s → 0 < n → eip s + n < 2 ^ 32 → fetch (eip s) = Some (i, n) →
  step fetch s = exec i (s <| eip := eip s + n |>).
Proof.
  intros Hb H1 H2 H3 Hf. unfold step. rewrite lin_flat by (done || unfold is_u32; lia). cbn. rewrite Hf. cbn.
  by rewrite u32_small by (unfold is_u32; lia).
Qed.

(** The instruction at the head of a text, after a run to it. *)
Lemma reaches_head s0 g sg a fl c gd id ts m io m0 i l e : reaches fetch s0 (mkState g sg a fl c gd id ts m io) →
  0 ≤ a → text_at fetch m0 a (I i :: l) e → sbase (sg CS) = 0 →
  ∃ n, 0 ≤ n ∧ n < 2 ^ 32 ∧ text_at fetch m0 n l e ∧ ∀ s1, exec i (mkState g sg n fl c gd id ts m io) = Some s1 → reaches fetch s0 s1.
Proof.
  intros Hr H1 (n & H2 & H3 & Hf & Ht) Hb. exists (a + n). split_and!; [lia|lia|done|]. intros s1 He.
  assert (Hst : step fetch (mkState g sg a fl c gd id ts m io) = Some s1).
  { rewrite (step_linear _ i n); done. }
  eapply reaches_trans; [exact Hr|]. exists 1%nat. cbn [steps]. by rewrite Hst.
Qed.

Lemma push_mk v g sg ip fl c gd id ts m io : sbase (sg SS) = 0 → 4 ≤ g ESP < 2 ^ 32 →
  push v (mkState g sg ip fl c gd id ts m io) = Some (mkState (put ESP (g ESP - 4) g) sg ip fl c gd id ts (store32 m (g ESP - 4) v) io).
Proof. intros. by rewrite push_linear. Qed.

Lemma pop_mk g sg ip fl c gd id ts m io : sbase (sg SS) = 0 → 0 ≤ g ESP → g ESP + 4 < 2 ^ 32 →
  pop (mkState g sg ip fl c gd id ts m io) = Some (load32 m (g ESP), mkState (put ESP (g ESP + 4) g) sg ip fl c gd id ts m io).
Proof. intros. by rewrite pop_linear. Qed.

(** A memory operand through a register. *)
Definition seg_of (r : reg) : sreg := match r with ESP | EBP => SS | _ => DS end.

Lemma get_mem_mk d r g sg ip fl c gd id ts m io : sbase (sg (seg_of r)) = 0 → 0 ≤ g r + d → g r + d + 4 ≤ 2 ^ 32 →
  get (Mem d r) (mkState g sg ip fl c gd id ts m io) = Some (load32 m (g r + d)).
Proof.
  intros Hb H1 H2. unfold get. destruct r; cbn [addr mbind option_bind seg_of gpr] in *;
    (rewrite lin_flat by (done || unfold is_u32; lia); by rewrite rd32_linear by lia).
Qed.

Lemma assign_mem_mk d r v g sg ip fl c gd id ts m io : sbase (sg (seg_of r)) = 0 → 0 ≤ g r + d → g r + d + 4 ≤ 2 ^ 32 →
  assign (Mem d r) v (mkState g sg ip fl c gd id ts m io) = Some (mkState g sg ip fl c gd id ts (store32 m (g r + d) v) io).
Proof.
  intros Hb H1 H2. unfold assign. destruct r; cbn [addr mbind option_bind seg_of gpr] in *;
    (rewrite lin_flat by (done || unfold is_u32; lia); by rewrite wr32_linear by lia).
Qed.

End Linear.

#[global] Opaque push pop rd32 wr32.

(** Extend the run [Hr] by the instruction at the head of the text [Ht]: its
    effect is computed with the equations above. *)
Ltac regs := cbn [put reg_eqb puts sreg_eqb seg_of].
Ltac side := regs; first [assumption | unfold is_u32; lia | by vm_compute].
Ltac operand :=
  first [ rewrite get_reg_mk | rewrite get_sr_mk | rewrite get_imm_mk by side | rewrite get_mem_mk by side
        | rewrite assign_mem_mk by side | rewrite push_mk by side | rewrite pop_mk by side | rewrite assign_reg_mk | rewrite assign_low_reg_mk ];
  cbn [mbind option_bind].
Ltac to_head Hr Ht :=
  eapply reaches_head in Hr; [|assumption|exact Ht|regs; assumption];
  let n := fresh "ip" in let Hn := fresh "Hip" in let Hn' := fresh "Hip" in clear Ht; destruct Hr as (n & Hn & Hn' & Ht & Hr).
Ltac head Hr Ht :=
  to_head Hr Ht;
  lazymatch type of Hr with
  | ∀ s1, exec ?i ?s = Some s1 → _ =>
      let E := fresh "E" in
      eassert (E : exec i s = Some _); [unfold exec; repeat operand; regs; rewrite ?set_eip_mk; reflexivity|];
      apply Hr in E; clear Hr; rename E into Hr
  end.

(** The words pushed on the stack from [sp] down, as one block. *)
Ltac stacked Hr m sp := change (store32 m) with (store32 (store_words m sp [])) in Hr; rewrite !store_words_push in Hr by lia.

(** ** A layout

    Text from [base] on, with one byte for each instruction. *)
Definition code_at (base : Z) (l : list line) (a : Z) : option (instr * Z) :=
  if a <? base then None else
  match omap (λ x, match x with I i => Some i | _ => None end) l !! Z.to_nat (a - base) with Some i => Some (i, 1) | None => None end.

Ltac lay_out := repeat (first [split; [done|] | eexists 1; split; [done|]; split; [done|]]); try done.

(** ** The context switch *)

Section Swtch.
Context {H : Hardware} (fetch : Z → option (instr * Z)) (sym : string → Z).

Definition flat (s : state) : Prop := sbase (seg s CS) = 0 ∧ sbase (seg s SS) = 0 ∧ sbase (seg s DS) = 0.

(** A call swtch(old, new): the stack with the return address and the arguments,
    and room for the registers, apart from [old] and the context at [new]. *)
Record swtch_call (s : state) (ra old new : Z) : Prop := {
  sc_eip : eip s = sym "swtch";
  sc_flat : flat s;
  sc_sp : 16 ≤ gpr s ESP ∧ gpr s ESP + 12 ≤ 2 ^ 32;
  sc_args : words_at (ram s) (gpr s ESP) [ra; old; new];
  sc_old : 0 ≤ old ≤ 2 ^ 32 - 4;
  sc_new : 0 ≤ new < 2 ^ 32 - 20;
  sc_new_stack : new + 20 ≤ gpr s ESP - 16 ∨ gpr s ESP ≤ new;
  sc_new_old : new + 20 ≤ old ∨ old + 4 ≤ new;
  sc_old_stack : old + 4 ≤ gpr s ESP - 16 ∨ gpr s ESP + 4 ≤ old
}.

(** [struct context] in memory. *)
Definition ctx_words (c : context) : list Z := [c_edi c; c_esi c; c_ebx c; c_ebp c; c_eip c].

(** The registers that a call preserves, with the address to return to. *)
Definition callee_saved (s : state) (ra : Z) : context := mkContext (gpr s EDI) (gpr s ESI) (gpr s EBX) (gpr s EBP) ra.

Lemma swtch_run s e ra old new ctx :
  0 ≤ sym "swtch" → text_at fetch (λ _, 0) (sym "swtch") (swtch sym) e → swtch_call s ra old new → words_at (ram s) new (ctx_words ctx) →
  let M := store_words (ram s) (gpr s ESP - 16) [gpr s EDI; gpr s ESI; gpr s EBX; gpr s EBP] in
  ∃ g, reaches fetch s (s <| gpr := g |> <| eip := c_eip ctx |> <| ram := store32 M old (gpr s ESP - 16) |>)
    ∧ g ESP = new + 20 ∧ g EDI = c_edi ctx ∧ g ESI = c_esi ctx ∧ g EBX = c_ebx ctx ∧ g EBP = c_ebp ctx.
Proof.
  intros Hs Ht [Hip [Hcs [Hss Hds]] [Hsp Hsp2] Hargs Hold Hnew Hd1 Hd2 _] Hctx M. unfold ctx_words in Hctx.
  rewrite !words_at_cons in Hargs. rewrite !words_at_cons in Hctx. destruct Hargs as (A1 & A2 & A3 & _). destruct Hctx as (C1 & C2 & C3 & C4 & C5 & _).
  destruct s as [g sg ip0 fl cc gd id ts m io]. cbn in Hip. subst ip0. cbn [gpr seg ram eip] in *.
  destruct Ht as [_ Ht]. replace (g ESP + 4 + 4) with (g ESP + 8) in A3 by lia.
  assert (HM : ∀ a, new ≤ a ≤ new + 16 → load32 (store32 M old (g ESP - 16)) a = load32 m a).
  { intros a Ha. rewrite load_store32_other by lia. apply load32_ext. intros x Hx. apply store_words_other. cbn [length]. lia. }
  pose proof (reaches_refl fetch (mkState g sg (sym "swtch") fl cc gd id ts m io)) as Hr.
  do 2 head Hr Ht. rewrite A2, A3 in Hr. do 4 head Hr Ht. stacked Hr m (g ESP).
  replace (g ESP - 4 - 4 - 4 - 4) with (g ESP - 16) in Hr by lia. fold M in Hr. head Hr Ht. rewrite Z.add_0_r in Hr.
  do 6 head Hr Ht. rewrite !HM, C5 in Hr by lia. eexists. split; [exact Hr|]. cbn. split_and!; lia || done.
Qed.

(** What swtch saved of its caller. *)
Lemma swtch_saved s ra old new : swtch_call s ra old new → (∀ r, is_u32 (gpr s r)) →
  let saved := gpr s ESP - 16 in
  let m := store32 (store_words (ram s) saved [gpr s EDI; gpr s ESI; gpr s EBX; gpr s EBP]) old saved in
  load32 m old = saved ∧ words_at m saved (ctx_words (callee_saved s ra))
  ∧ (∀ x, ¬ (saved ≤ x < gpr s ESP) → ¬ (old ≤ x < old + 4) → m x = ram s x).
Proof.
  intros [_ _ Hsp Hargs Hold _ _ _ Hd] Hg saved m. split_and!.
  - unfold m. rewrite load_store32. apply u32_small. specialize (Hg ESP). unfold is_u32, saved in *. lia.
  - apply (words_at_frame (store_words (ram s) saved [gpr s EDI; gpr s ESI; gpr s EBX; gpr s EBP])).
    2:{ intros x Hx. cbn [length ctx_words] in Hx. apply store32_other. unfold saved in *. lia. }
    intros i v Hi. destruct (decide (i = 4%nat)) as [->|Hne].
    + injection Hi as <-. rewrite (load32_ext _ (ram s)) by (intros x Hx; apply store_words_other; cbn [length]; lia).
      replace (saved + 4 * Z.of_nat 4) with (gpr s ESP) by (unfold saved; lia). by apply words_at_cons in Hargs as [-> _].
    + apply store_words_at; [rewrite !Forall_cons; split_and!; try apply Hg; done|]. do 4 (destruct i as [|i]; [exact Hi|]). by destruct i.
  - intros x H1 H2. unfold m. rewrite store32_other by lia. apply store_words_other. cbn [length]. unfold saved in *. lia.
Qed.

(** C8: swtch is a suspension of its caller. A call swtch(old, new) leaves in the
    context at [new]: its registers, its stack, its address to return to. It
    stores in [*old] the address of a context of the caller, and changes no other
    memory. Whenever some later call of swtch, on whatever stack and CPU state,
    is given that address and finds those 20 bytes as they were left, the caller
    continues after its call with the registers that a call preserves and with
    its stack pointer. *)
Theorem swtch_resumes s e ra old new ctx :
  0 ≤ sym "swtch" → text_at fetch (λ _, 0) (sym "swtch") (swtch sym) e →
  swtch_call s ra old new → words_at (ram s) new (ctx_words ctx) → (∀ r, is_u32 (gpr s r)) →
  ∃ s1, reaches fetch s s1
    ∧ eip s1 = c_eip ctx ∧ gpr s1 ESP = new + 20 ∧ callee_saved s1 (c_eip ctx) = ctx
    ∧ (let saved := load32 (ram s1) old in
       (∀ x, ¬ (saved ≤ x < gpr s ESP) → ¬ (old ≤ x < old + 4) → ram s1 x = ram s x)
       ∧ ∀ s2 ra2 old2, swtch_call s2 ra2 old2 saved → (∀ x, saved ≤ x < saved + 20 → ram s2 x = ram s1 x) →
         ∃ s3, reaches fetch s2 s3 ∧ eip s3 = ra ∧ gpr s3 ESP = gpr s ESP + 4 ∧ callee_saved s3 ra = callee_saved s ra).
Proof.
  intros Hs Ht Hc Hctx Hg. destruct (swtch_run s e ra old new ctx Hs Ht Hc Hctx) as (g & Hr & E1 & E2 & E3 & E4 & E5).
  destruct (swtch_saved s ra old new Hc Hg) as (Hold & Hsaved & Hmem).
  eexists. split; [exact Hr|]. cbn [gpr eip ram set set_gpr set_eip set_ram] in *. rewrite Hold.
  split_and!; [done|done|unfold callee_saved; cbn; destruct ctx; cbn in *; congruence|exact Hmem|].
  intros s2 ra2 old2 Hc2 Hkeep. destruct (swtch_run s2 e ra2 old2 _ (callee_saved s ra) Hs Ht Hc2) as (g3 & Hr3 & F1 & F2 & F3 & F4 & F5).
  { eapply words_at_frame; [exact Hsaved|]. intros x Hx. cbn [length ctx_words] in Hx. apply Hkeep. lia. }
  eexists. split; [exact Hr3|]. cbn in F1, F2, F3, F4, F5 |- *. split_and!; [done|lia|]. unfold callee_saved. cbn. congruence.
Qed.
End Swtch.

(** Hardware whose ports and registers read 0. *)
Definition idle : Hardware := {| hw_inb _ _ := 0; hw_reg _ _ := 0 |}.

(** A kernel thread at 8192 that gives the CPU to the one whose context is at
    12288. *)
Definition swtch_memory : memory :=
  store_words (store_words (λ _, 0) 12288 [1; 2; 3; 4; 5000]) 8192 [7000; 16384; 12288].
Definition swtch_state : state :=
  mkState (λ r, match r with ESP => 8192 | EBX => 77 | _ => 0 end) (λ _, mkSegment 16 0 0) 4096 2 (λ _, 1) (0, 0) (0, 0) 0 swtch_memory [].

Lemma swtch_resumes_witness : ∃ s1, reaches (H := idle) (code_at 4096 (swtch (λ _, 4096))) swtch_state s1 ∧ eip s1 = 5000 ∧ gpr s1 EBX = 3
  ∧ gpr s1 ESP = 12308.
Proof.
  destruct (swtch_resumes (H := idle) (code_at 4096 (swtch (λ _, 4096))) (λ _, 4096) swtch_state 4109 7000 16384 12288 (mkContext 1 2 3 4 5000))
    as (s1 & Hr & E1 & E2 & E3 & _).
  - done.
  - lay_out.
  - split; cbn [swtch_state eip seg gpr ram flat sbase]; try lia; try done.
    apply store_words_at. by rewrite !Forall_cons.
  - change (ctx_words _) with [1; 2; 3; 4; 5000]. apply (words_at_frame (store_words (λ _, 0) 12288 [1; 2; 3; 4; 5000])); [apply store_words_at; by rewrite !Forall_cons|].
    intros x Hx. apply store_words_other. cbn [length ctx_words] in *. lia.
  - intros []; done.
  - exists s1. split_and!; try done. by injection E3 as _ _ -> _.
Defined.
