(* ===== verification/Trapasm.v ===== *)
(** The way in and out of the kernel: the entry points that vectors.pl generates,
    alltraps and trapret (trapasm.S). *)

From S2P Require Import Prelude Segs Types Strings Apic Boot X86 Asm.
Import Descriptors Tables X86.

Section Text.
Context (sym : string → Z) (vectors : nat → Z).

(** The exceptions for which the CPU pushes an error code. *)
Definition has_err (i : nat) : bool :=
  (i =? 8)%nat || ((10 <=? i)%nat && (i <=? 14)%nat) || (i =? 17)%nat.

(** What vectors.pl prints for vector [i]. *)
Definition vector (i : nat) : list line :=
  Label (vectors i) :: (if negb (has_err i) then [I (pushl (Imm 0))] else []) ++
  [ I (pushl (Imm (Z.of_nat i))); I (jmp (sym "alltraps")) ].

Definition alltraps : list line := [
  Label (sym "alltraps");
  I (pushl (Sr DS));
  I (pushl (Sr ES));
  I (pushl (Sr FS));
  I (pushl (Sr GS));
  I pushal;
  I (movw (Imm (Z.shiftl SEG_KDATA 3)) (R EAX));
  I (movw (R EAX) (Sr DS));
  I (movw (R EAX) (Sr ES));
  I (pushl (R ESP));
  I (call (sym "trap"));
  I (addl (Imm 4) (R ESP)) ].

Definition trapret : list line := [
  Label (sym "trapret");
  I popal;
  I (popl (Sr GS));
  I (popl (Sr FS));
  I (popl (Sr ES));
  I (popl (Sr DS));
  I (addl (Imm 8) (R ESP));
  I iret ].
End Text.

(** [struct trapframe] (x86.h), and its words in memory; the last two are there
    only when the trap comes from user code. *)
Record frame := mkFrame {
  t_edi : Z; t_esi : Z; t_ebp : Z; t_oesp : Z; t_ebx : Z; t_edx : Z; t_ecx : Z; t_eax : Z;
  t_gs : Z; t_fs : Z; t_es : Z; t_ds : Z; t_trapno : Z; t_err : Z; t_eip : Z; t_cs : Z; t_eflags : Z; t_esp : Z; t_ss : Z }.

Definition frame_words (user : bool) (f : frame) : list Z :=
  [t_edi f; t_esi f; t_ebp f; t_oesp f; t_ebx f; t_edx f; t_ecx f; t_eax f] ++ [t_gs f; t_fs f; t_es f; t_ds f] ++
  [t_trapno f; t_err f] ++ [t_eip f; t_cs f; t_eflags f] ++ (if user then [t_esp f; t_ss f] else []).

(** ** Loading segment registers *)

(** A selector of one of the four flat segments, or the null selector. *)
Definition segval (v : Z) : segment := mkSegment v 0 (if (0 <? v) && (v <? 24) then 0 else 3).

(** The tables of the kernel in memory: as seginit and tvinit fill them, and the
    stack of the task segment. *)
Record tables (vectors : nat → Z) (gd id : Z * Z) (ts esp0 : Z) (m : memory) : Prop := {
  tb_gdt : ∀ i, 1 ≤ i ≤ 4 → seg_reading i (load64 m (fst gd + 8 * i));
  tb_gdt_at : snd gd = 47 ∧ 0 ≤ fst gd ∧ fst gd + 48 ≤ 2 ^ 32;
  tb_idt : ∀ n, (n < 256)%nat → gate_reading vectors n (load64 m (fst id + 8 * Z.of_nat n));
  tb_idt_at : snd id = 2047 ∧ 0 ≤ fst id ∧ fst id + 2048 ≤ 2 ^ 32;
  tb_tss_at : 0 ≤ ts ∧ ts + 104 ≤ 2 ^ 32;
  tb_esp0 : load32 m (ts + 4) = esp0;
  tb_ss0 : m (ts + 8) + m (ts + 9) * 2 ^ 8 = Z.shiftl SEG_KDATA 3
}.

(** A range of memory apart from the tables. *)
Definition apart (gd id : Z * Z) (ts lo hi : Z) : Prop :=
  (hi ≤ fst gd ∨ fst gd + 48 ≤ lo) ∧ (hi ≤ fst id ∨ fst id + 2048 ≤ lo) ∧ (hi ≤ ts ∨ ts + 104 ≤ lo).

Lemma tables_frame vectors gd id ts esp0 m m' lo hi :
  tables vectors gd id ts esp0 m → apart gd id ts lo hi → (∀ x, ¬ (lo ≤ x < hi) → m' x = m x) → tables vectors gd id ts esp0 m'.
Proof.
  intros [G Ga I Ia T E S] (A1 & A2 & A3) Hm.
  assert (H64 : ∀ a, (a + 8 ≤ lo ∨ hi ≤ a) → load64 m' a = load64 m a).
  { intros a Ha. unfold load64. rewrite !(load32_ext m' m) by (intros; apply Hm; lia). done. }
  split; try done.
  - intros i Hi. rewrite H64 by lia. by apply G.
  - intros n Hn. rewrite H64 by lia. by apply I.
  - rewrite (load32_ext m' m); [done|]. intros; apply Hm; lia.
  - rewrite !Hm by lia. done.
Qed.

Lemma rd64_linear u s a : 0 ≤ a → a + 8 ≤ 2 ^ 32 → rd64 u s a = Some (load64 (ram s) a).
Proof.
  intros H1 H2. unfold rd64. rewrite (rd32_linear u s a) by lia. cbn [mbind option_bind].
  rewrite u32_small by (unfold is_u32; lia). by rewrite rd32_linear by lia.
Qed.

Section Segments.
Context (vectors : nat → Z).

Lemma desc_linear s esp0 i v : tables vectors (gdtr s) (idtr s) (tss s) esp0 (ram s) → 1 ≤ i ≤ 4 →
  Z.land v 65528 = 8 * i → Z.testbit v 2 = false → desc s v = Some (load64 (ram s) (fst (gdtr s) + 8 * i)).
Proof.
  intros T Hi Ho Hb. destruct (tb_gdt_at _ _ _ _ _ _ T) as (L1 & L2 & L3). unfold desc. rewrite Ho, Hb, L1.
  destruct (Z.ltb_spec 47 (8 * i + 7)); [lia|]. cbn [orb]. rewrite u32_small by (unfold is_u32; lia). apply rd64_linear; lia.
Qed.

Lemma load_desc s esp0 r i v : tables vectors (gdtr s) (idtr s) (tss s) esp0 (ram s) → protected s = true →
  1 ≤ i ≤ 4 → u16 v = v → Z.land v 65528 = 8 * i → Z.testbit v 2 = false → Z.land v 65532 ≠ 0 →
  (∀ d, field 47 1 d = 1 → field 44 1 d = 1 → field 45 2 d = (if i <=? SEG_KDATA then 0 else DPL_USER) →
     field 40 4 d = (if (i =? SEG_KCODE) || (i =? SEG_UCODE) then Z.lor STA_X STA_R else STA_W) → loadable s r v d = true) →
  load_seg r v s = Some (s <| seg ::= puts r (mkSegment v 0 (if i <=? SEG_KDATA then 0 else DPL_USER)) |>).
Proof.
  intros T Hp Hi Hu Ho Hb Hz Hl. unfold load_seg. rewrite Hp, Hu, (proj2 (Z.eqb_neq _ _) Hz). cbn [negb].
  rewrite (desc_linear s esp0 i v T Hi Ho Hb). cbn [mbind option_bind].
  destruct (tb_gdt _ _ _ _ _ _ T i Hi) as (_ & Eb & _ & E1 & E2 & E3 & E4). by rewrite Hl, Eb, E3.
Qed.

(** The loads that the kernel makes: of code, of a stack at its own privilege, of
    data. *)
Lemma load_flat s esp0 r v : tables vectors (gdtr s) (idtr s) (tss s) esp0 (ram s) → protected s = true →
  match r with
  | CS => v = 8 ∨ v = 27
  | SS => v = 16 ∧ cpl s = 0 ∨ v = 35 ∧ cpl s = 3
  | _ => (v = 0 ∨ v = 16 ∨ v = 35) ∧ cpl s = 0
  end →
  load_seg r v s = Some (s <| seg ::= puts r (segval v) |>).
Proof.
  intros T Hp Hr.
  assert (H0 : cpl s = 0 → r ≠ CS → r ≠ SS → load_seg r 0 s = Some (s <| seg ::= puts r (segval 0) |>)).
  { intros _ H1 H2. unfold load_seg. rewrite Hp. by destruct r. }
  destruct r; destruct_or?; destruct_and?; destruct_or?; subst v; try (by apply H0);
    match goal with |- load_seg _ ?v _ = _ => apply (load_desc s esp0 _ (v / 8) v T Hp) end; try done;
    intros d E1 E2 E3 E4; unfold loadable; rewrite E1, E2, E3, E4; cbn -[cpl];
    try match goal with E : cpl s = _ |- _ => rewrite E end; done.
Qed.
End Segments.

#[global] Opaque load_seg.

(** ** In *)

Section Trap.
Context {H : Hardware} (fetch : Z → option (instr * Z)) (sym : string → Z) (vectors : nat → Z).

(** The text of the entry points and of trapasm.S. *)
Record trap_text (e : Z) : Prop := {
  tt_vector : ∀ i, (i < 256)%nat → ∃ e', text_at fetch (λ _, 0) (vectors i) (vector sym vectors i) e';
  tt_vectors : ∀ i, (i < 256)%nat → 0 ≤ vectors i;
  tt_trapasm : text_at fetch (λ _, 0) (sym "alltraps") (alltraps sym ++ trapret sym) e;
  tt_alltraps : 0 ≤ sym "alltraps"
}.

Definition vector_words (n : nat) : list Z := Z.of_nat n :: (if has_err n then [] else [0]).

Lemma vector_run e g sg fl c gd id ts m io n : trap_text e → (n < 256)%nat → sbase (sg CS) = 0 → sbase (sg SS) = 0 →
  8 ≤ g ESP < 2 ^ 32 → let sp := g ESP - 4 * Z.of_nat (length (vector_words n)) in
  ∃ g', reaches fetch (mkState g sg (vectors n) fl c gd id ts m io)
          (mkState g' sg (sym "alltraps") fl c gd id ts (store_words m sp (vector_words n)) io)
    ∧ g' ESP = sp ∧ ∀ r, r ≠ ESP → g' r = g r.
Proof.
  intros T Hn Hcs Hss Hsp sp. destruct (tt_vector _ T n Hn) as [e' Ht]. pose proof (tt_vectors _ T n Hn) as Hv.
  destruct Ht as [_ Ht]. unfold sp, vector_words. pose proof (reaches_refl fetch (mkState g sg (vectors n) fl c gd id ts m io)) as Hr.
  destruct (has_err n); cbn [negb app length] in *.
  - do 2 head Hr Ht. stacked Hr m (g ESP). eexists. split; [exact Hr|]. split; [cbn; lia|]. by intros [].
  - do 3 head Hr Ht. stacked Hr m (g ESP). replace (g ESP - 4 - 4) with (g ESP - 4 * Z.of_nat 2) in Hr by lia.
    eexists. split; [exact Hr|]. split; [cbn; lia|]. by intros [].
Qed.

Lemma push_list_mk l : ∀ g sg ip fl c gd id ts m io, sbase (sg SS) = 0 → 4 * Z.of_nat (length l) ≤ g ESP < 2 ^ 32 →
  let sp := g ESP - 4 * Z.of_nat (length l) in
  ∃ g', push_list l (mkState g sg ip fl c gd id ts m io) = Some (mkState g' sg ip fl c gd id ts (store_words m sp (rev l)) io)
    ∧ g' ESP = sp ∧ ∀ r, r ≠ ESP → g' r = g r.
Proof.
  induction l as [|v l IH]; intros g sg ip fl c gd id ts m io Hss Hsp sp.
  - exists g. unfold sp. cbn [length]. rewrite Z.mul_0_r, Z.sub_0_r. done.
  - cbn [length] in Hsp, sp. unfold push_list. cbn [foldl mbind option_bind]. rewrite push_mk by (done || lia).
    destruct (IH (put ESP (g ESP - 4) g) sg ip fl c gd id ts (store32 m (g ESP - 4) v) io Hss) as (g1 & E & E1 & E2); [cbn; lia|].
    unfold push_list in E. cbn [put reg_eqb] in E, E1. rewrite E. exists g1. split; [|split; [unfold sp; lia|]].
    + cbn [rev]. do 2 f_equal. change (store32 m (g ESP - 4) v) with (store_words m (g ESP - 4) [v]).
      rewrite store_words_app by (rewrite length_rev; lia). f_equal. unfold sp. lia.
    + intros r Hr. rewrite E2 by done. by destruct r.
Qed.

Lemma pushal_mk g sg ip fl c gd id ts m io : sbase (sg SS) = 0 → 32 ≤ g ESP < 2 ^ 32 →
  ∃ g', exec pushal (mkState g sg ip fl c gd id ts m io) =
    Some (mkState g' sg ip fl c gd id ts (store_words m (g ESP - 32) [g EDI; g ESI; g EBP; g ESP; g EBX; g EDX; g ECX; g EAX]) io)
    ∧ g' ESP = g ESP - 32 ∧ ∀ r, r ≠ ESP → g' r = g r.
Proof. intros Hss Hsp. by apply (push_list_mk [g EAX; g ECX; g EDX; g EBX; g ESP; g EBP; g ESI; g EDI]). Qed.

(** Loading a segment register from %ax or from the stack. *)
Lemma load_mk g sg ip fl c gd id ts m io esp0 r v : tables vectors gd id ts esp0 m → Z.testbit (c CR0) 0 = true →
  sel (sg CS) = 8 → r ≠ CS → r ≠ SS → v = 0 ∨ v = 16 ∨ v = 35 →
  load_seg r v (mkState g sg ip fl c gd id ts m io) = Some (mkState g (puts r (segval v) sg) ip fl c gd id ts m io).
Proof.
  intros T Hp Hcs H1 H2 Hv. rewrite (load_flat vectors _ esp0); [done|exact T|exact Hp|].
  unfold cpl, protected. cbn [cr seg]. rewrite Hp, Hcs. by destruct r.
Qed.

Lemma load_cs_mk g sg ip fl c gd id ts m io esp0 v : tables vectors gd id ts esp0 m → Z.testbit (c CR0) 0 = true → v = 8 ∨ v = 27 →
  load_seg CS v (mkState g sg ip fl c gd id ts m io) = Some (mkState g (puts CS (segval v) sg) ip fl c gd id ts m io).
Proof. intros T Hp Hv. by rewrite (load_flat vectors _ esp0). Qed.

Lemma load_ss_mk g sg ip fl c gd id ts m io esp0 v : tables vectors gd id ts esp0 m → Z.testbit (c CR0) 0 = true →
  v = 16 ∧ sel (sg CS) = 8 ∨ v = 35 ∧ sel (sg CS) = 27 →
  load_seg SS v (mkState g sg ip fl c gd id ts m io) = Some (mkState g (puts SS (segval v) sg) ip fl c gd id ts m io).
Proof.
  intros T Hp Hv. rewrite (load_flat vectors _ esp0); [done|exact T|exact Hp|].
  unfold cpl, protected. cbn [cr seg]. rewrite Hp. destruct Hv as [[-> ->]|[-> ->]]; auto.
Qed.

Lemma movw_ax_mk g sg ip fl c gd id ts m io esp0 r : tables vectors gd id ts esp0 m → Z.testbit (c CR0) 0 = true →
  sel (sg CS) = 8 → r ≠ CS → r ≠ SS → u16 (g EAX) = 16 →
  exec (movw (R EAX) (Sr r)) (mkState g sg ip fl c gd id ts m io) = Some (mkState g (puts r (segval 16) sg) ip fl c gd id ts m io).
Proof.
  intros T Hp Hcs H1 H2 Hv. unfold exec. rewrite get_reg_mk. cbn [mbind option_bind assign_low assign]. rewrite Hv.
  destruct r; try done; by apply (load_mk _ _ _ _ _ _ _ _ _ _ esp0); auto.
Qed.

(** The registers that alltraps saves, from the address of the frame up: those of
    pushal, where [osp] is the stack pointer before it, and the segments. *)
Definition saved_words (g : reg → Z) (sg : sreg → segment) (osp : Z) : list Z :=
  [g EDI; g ESI; g EBP; osp; g EBX; g EDX; g ECX; g EAX; sel (sg GS); sel (sg FS); sel (sg ES); sel (sg DS)].

Lemma alltraps_run e g sg fl c gd id ts m io esp0 : trap_text e → tables vectors gd id ts esp0 m →
  Z.testbit (c CR0) 0 = true → sg CS = segval 8 → sbase (sg SS) = 0 → 56 ≤ g ESP < 2 ^ 32 → apart gd id ts (g ESP - 56) (g ESP) →
  let tf := g ESP - 48 in
  ∃ g' ra, reaches fetch (mkState g sg (sym "alltraps") fl c gd id ts m io)
      (mkState g' (puts ES (segval 16) (puts DS (segval 16) sg)) (sym "trap") fl c gd id ts
         (store_words m (tf - 8) (ra :: tf :: saved_words g sg (g ESP - 16))) io)
    ∧ g' ESP = tf - 8 ∧ 0 ≤ ra ∧ text_at fetch (λ _, 0) ra (I (addl (Imm 4) (R ESP)) :: trapret sym) e.
Proof.
  intros T Tb Hpe Hcs Hss Hsp Hap tf. pose proof (tt_trapasm _ T) as Ht. pose proof (tt_alltraps _ T) as Ha.
  cbn [app alltraps] in Ht. destruct Ht as [_ Ht]. assert (Hc0 : sbase (sg CS) = 0) by (by rewrite Hcs).
  assert (Hc8 : sel (sg CS) = 8) by (by rewrite Hcs).
  pose proof (reaches_refl fetch (mkState g sg (sym "alltraps") fl c gd id ts m io)) as Hr.
  do 4 head Hr Ht. stacked Hr m (g ESP). replace (g ESP - 4 - 4 - 4 - 4) with (g ESP - 16) in Hr by lia.
  to_head Hr Ht. edestruct pushal_mk as (g1 & E1 & Esp1 & Eg1); [| |apply Hr in E1; clear Hr; rename E1 into Hr]; [done|regs; lia|].
  cbn [put reg_eqb] in Esp1, Hr. rewrite store_words_app in Hr by (cbn [length]; lia). cbn [app] in Hr.
  head Hr Ht. change (u16 (Z.shiftl SEG_KDATA 3) mod 2 ^ 16) with 16 in Hr.
  fold (saved_words g sg (g ESP - 16)) in Hr. set (m1 := store_words m _ (saved_words _ _ _)) in Hr.
  assert (Tb1 : tables vectors gd id ts esp0 m1).
  { eapply tables_frame; [exact Tb|exact Hap|]. intros x Hx. apply store_words_other. cbn [saved_words length]. lia. }
  assert (Hax : u16 (put EAX (g1 EAX / 2 ^ 16 * 2 ^ 16 + 16) g1 EAX) = 16).
  { cbn [put reg_eqb]. unfold u16. rewrite Z.add_comm, Z_mod_plus_full. done. }
  to_head Hr Ht. specialize (Hr _ (movw_ax_mk _ _ _ _ _ _ _ _ _ _ esp0 DS Tb1 Hpe Hc8 ltac:(done) ltac:(done) Hax)).
  to_head Hr Ht. specialize (Hr _ (movw_ax_mk _ _ _ _ _ _ _ _ _ _ esp0 ES Tb1 Hpe Hc8 ltac:(done) ltac:(done) Hax)).
  do 2 head Hr Ht. cbn [eip] in Hr. rewrite !Esp1 in Hr. unfold m1 in Hr. rewrite !store_words_push in Hr by lia.
  replace (g ESP - 16 - 32 - 4 - 4) with (tf - 8) in Hr by (unfold tf; lia).
  replace (g ESP - 16 - 32) with tf in Hr by (unfold tf; lia).
  eexists _, _. split; [exact Hr|]. split; [done|]. split; [|exact Ht]. done.
Qed.

(** The flags in the handler: interrupts stay on for a system call only. *)
Definition entry_flags (n : nat) (fl : Z) : Z :=
  clear (Z.lor FL_TF (Z.lor FL_NT (Z.lor FL_RF FL_VM))) (if bool_decide (n = 64%nat) then fl else clear FL_IF fl).

Definition err_words (err : option Z) : list Z := match err with Some e => [e] | None => [] end.

Lemma gate_mk g sg ip fl c gd id ts m io esp0 n : tables vectors gd id ts esp0 m → (n < 256)%nat →
  ∃ x, rd64 false (mkState g sg ip fl c gd id ts m io) (u32 (fst id + 8 * Z.of_nat n)) = Some x ∧ gate_reading vectors n x.
Proof.
  intros T Hn. destruct (tb_idt_at _ _ _ _ _ _ T) as (L1 & L2 & L3). eexists.
  rewrite u32_small by (unfold is_u32; lia). rewrite rd64_linear by lia. split; [done|]. by apply (tb_idt _ _ _ _ _ _ T).
Qed.

Lemma kcode_mk g sg ip fl c gd id ts m io esp0 : tables vectors gd id ts esp0 m →
  ∃ d, desc (mkState g sg ip fl c gd id ts m io) (8 * SEG_KCODE) = Some d ∧ field 45 2 d = 0.
Proof.
  intros T. exists (load64 m (fst gd + 8 * 1)). split.
  - by apply (desc_linear vectors (mkState g sg ip fl c gd id ts m io) esp0 1).
  - by destruct (tb_gdt _ _ _ _ _ _ T 1) as (_ & _ & _ & _ & _ & -> & _).
Qed.

(** What the CPU does with a gate of tvinit: it enters the code segment of the
    kernel, saves what it needs to come back, and goes to the vector. *)
Lemma interrupt_gate g sg ip fl c gd id ts m io esp0 soft n err : tables vectors gd id ts esp0 m → (n < 256)%nat →
  Z.testbit (c CR0) 0 = true → (soft = true → n = 64%nat) →
  let s := mkState g sg ip fl c gd id ts m io in let s1 := mkState g (puts CS (segval 8) sg) ip fl c gd id ts m io in
  interrupt soft (Z.of_nat n) err s =
    (s2 ← (if 0 <? cpl s then s1 ← load_seg SS 16 s1; push_list [sel (sg SS); g ESP] (s1 <| gpr ::= put ESP esp0 |>) else Some s1);
     s2 ← push_list ([fl; sel (sg CS); ip] ++ err_words err) s2;
     Some (s2 <| eip := vectors n |> <| eflags := entry_flags n fl |>)).
Proof.
  intros T Hn Hpe Hsoft s s1. destruct (gate_mk g sg ip fl c gd id ts m io esp0 n T Hn) as (x & Ex & _ & Eo & Ec & Ey & _ & Ed & Ep).
  destruct (kcode_mk g sg ip fl c gd id ts m io esp0 T) as (d & Edesc & Edpl).
  destruct (tb_idt_at _ _ _ _ _ _ T) as (L1 & _). destruct (tb_tss_at _ _ _ _ _ _ T) as (L2 & L3). fold s in Ex, Edesc.
  assert (Hcpl : 0 ≤ cpl s ≤ 3).
  { unfold cpl. destruct (protected s); [|lia]. change 3 with (Z.ones 2). rewrite Z.land_ones by lia.
    pose proof (Z.mod_pos_bound (sel (seg s CS)) (2 ^ 2) ltac:(lia)). change (Z.ones 2) with 3. lia. }
  assert (Hdpl : (soft && (field 45 2 x <? cpl s))%bool = false).
  { destruct soft; [|done]. rewrite Ed, bool_decide_eq_true_2 by (by apply Hsoft). apply Z.ltb_ge. unfold DPL_USER. lia. }
  unfold interrupt. change (idtr s) with id. rewrite L1. destruct (Z.ltb_spec 2047 (8 * Z.of_nat n + 7)); [lia|].
  rewrite Ex. cbn [mbind option_bind]. rewrite Hdpl, Ep, Ey, Ec, Edesc. cbn [mbind option_bind]. rewrite Edpl.
  destruct (Z.ltb_spec (cpl s) 0); [lia|].
  replace (Z.land (8 * SEG_KCODE) 65532 + 0) with 8 by done. rewrite (load_flat vectors s esp0 CS 8 T Hpe ltac:(by left)).
  cbn [mbind option_bind].
  change (tss s) with ts. change (seg s) with sg. change (gpr s) with g. change (eip s) with ip. change (eflags s) with fl.
  rewrite (u32_small (ts + 4)), (u32_small (ts + 8)) by (unfold is_u32; lia). rewrite rd32_linear, rd16_linear by lia.
  cbn [mbind option_bind]. change (ram s) with m. replace (ts + 8 + 1) with (ts + 9) by lia.
  rewrite (tb_esp0 _ _ _ _ _ _ T), (tb_ss0 _ _ _ _ _ _ T), Eo.
  change (Z.shiftl SEG_KDATA 3) with 16. change (s <| seg ::= puts CS (segval 8) |>) with s1. unfold entry_flags.
  change (Z.to_nat Sysproc.T_SYSCALL) with 64%nat. by destruct (bool_decide (n = 64%nat)).
Qed.

(** An interrupt of kernel code: the frame goes on its own stack. *)
Lemma interrupt_kernel g sg ip fl c gd id ts m io esp0 n err : tables vectors gd id ts esp0 m → (n < 256)%nat →
  Z.testbit (c CR0) 0 = true → sel (sg CS) = 8 → sbase (sg SS) = 0 → 16 ≤ g ESP < 2 ^ 32 →
  let ws := err_words err ++ [ip; 8; fl] in let sp := g ESP - 4 * Z.of_nat (length ws) in
  ∃ g', interrupt false (Z.of_nat n) err (mkState g sg ip fl c gd id ts m io) =
      Some (mkState g' (puts CS (segval 8) sg) (vectors n) (entry_flags n fl) c gd id ts (store_words m sp ws) io)
    ∧ g' ESP = sp ∧ (∀ r, r ≠ ESP → g' r = g r).
Proof.
  intros T Hn Hpe Hcs Hss Hsp ws sp. rewrite (interrupt_gate g sg ip fl c gd id ts m io esp0) by done.
  unfold cpl, protected. cbn [cr seg]. rewrite Hpe, Hcs. change (0 <? Z.land 8 3) with false. cbv iota.
  destruct (push_list_mk ([fl; 8; ip] ++ err_words err) g (puts CS (segval 8) sg) ip fl c gd id ts m io Hss) as (g' & E & E1 & E2).
  { destruct err; cbn; lia. }
  exists g'. cbn [mbind option_bind]. rewrite E. unfold sp, ws. destruct err; done.
Qed.

(** An interrupt of user code, and a system call: the frame goes on the kernel
    stack of the process. *)
Lemma interrupt_user g sg ip fl c gd id ts m io esp0 soft n err : tables vectors gd id ts esp0 m → (n < 256)%nat →
  Z.testbit (c CR0) 0 = true → (soft = true → n = 64%nat) → sel (sg CS) = 27 → 24 ≤ esp0 < 2 ^ 32 →
  let ws := err_words err ++ [ip; 27; fl; g ESP; sel (sg SS)] in let sp := esp0 - 4 * Z.of_nat (length ws) in
  ∃ g', interrupt soft (Z.of_nat n) err (mkState g sg ip fl c gd id ts m io) =
      Some (mkState g' (puts SS (segval 16) (puts CS (segval 8) sg)) (vectors n) (entry_flags n fl) c gd id ts (store_words m sp ws) io)
    ∧ g' ESP = sp ∧ (∀ r, r ≠ ESP → g' r = g r).
Proof.
  intros T Hn Hpe Hsoft Hcs Hsp ws sp. rewrite (interrupt_gate g sg ip fl c gd id ts m io esp0) by done.
  unfold cpl, protected. cbn [cr seg]. rewrite Hpe, Hcs. change (0 <? Z.land 27 3) with true. cbv iota.
  rewrite (load_flat vectors (mkState g (puts CS (segval 8) sg) ip fl c gd id ts m io) esp0 SS 16 T Hpe)
    by (left; split; [done|]; unfold cpl, protected; cbn [cr seg]; by rewrite Hpe).
  cbn [mbind option_bind]. rewrite set_seg_mk, set_gpr_mk.
  set (sg1 := puts SS (segval 16) (puts CS (segval 8) sg)).
  destruct (push_list_mk [sel (sg SS); g ESP] (put ESP esp0 g) sg1 ip fl c gd id ts m io eq_refl) as (g1 & E & E1 & E2); [cbn; lia|].
  rewrite E. cbn [mbind option_bind length put reg_eqb] in *. set (L := [fl; 27; ip] ++ err_words err).
  assert (HL : rev L ++ [g ESP; sel (sg SS)] = ws) by (by destruct err).
  assert (HLn : Z.of_nat (length L) + 2 = Z.of_nat (length ws) ∧ Z.of_nat (length L) ≤ 4) by (unfold L, ws; destruct err; cbn; lia).
  destruct (push_list_mk L g1 sg1 ip fl c gd id ts (store_words m (esp0 - 4 * Z.of_nat 2) (rev [sel (sg SS); g ESP])) io eq_refl)
    as (g' & F & F1 & F2); [rewrite E1; lia|].
  exists g'. rewrite F, E1 in *. cbn [mbind option_bind]. rewrite store_words_app by (rewrite length_rev; lia).
  change (rev [sel (sg SS); g ESP]) with [g ESP; sel (sg SS)]. rewrite HL. replace (esp0 - 4 * Z.of_nat 2 - 4 * Z.of_nat (length L)) with sp in * by (unfold sp; lia).
  split_and!; [done|done|]. intros r Hr. rewrite F2, E2 by done. by destruct r.
Qed.

(** ** Out *)

Lemma popal_mk g sg ip fl c gd id ts m io edi esi ebp osp ebx edx ecx eax : sbase (sg SS) = 0 → 0 ≤ g ESP → g ESP + 32 < 2 ^ 32 →
  words_at m (g ESP) [edi; esi; ebp; osp; ebx; edx; ecx; eax] →
  ∃ g', exec popal (mkState g sg ip fl c gd id ts m io) = Some (mkState g' sg ip fl c gd id ts m io)
    ∧ g' EDI = edi ∧ g' ESI = esi ∧ g' EBP = ebp ∧ g' EBX = ebx ∧ g' EDX = edx ∧ g' ECX = ecx ∧ g' EAX = eax ∧ g' ESP = g ESP + 32.
Proof.
  intros Hss H1 H2 Hw. rewrite !words_at_cons in Hw. destruct Hw as (W1 & W2 & W3 & W4 & W5 & W6 & W7 & W8 & _).
  eexists. split.
  - unfold exec, pops. cbn [foldl mbind option_bind reg_eqb]. do 8 (operand; rewrite ?set_gpr_mk; regs).
    rewrite W1, W2, W3, W5, W6, W7, W8. reflexivity.
  - cbn. split_and!; lia || done.
Qed.

Lemma addl_esp_mk v g sg ip fl c gd id ts m io : 0 ≤ v → 0 ≤ g ESP → g ESP + v < 2 ^ 32 →
  ∃ fl', exec (addl (Imm v) (R ESP)) (mkState g sg ip fl c gd id ts m io) = Some (mkState (put ESP (g ESP + v) g) sg ip fl' c gd id ts m io).
Proof.
  intros H1 H2 H3. eexists. unfold exec. operand. operand. cbn [assign]. rewrite u32_small by (unfold is_u32; lia).
  by rewrite Z.add_comm.
Qed.

(** The return to user code, and to kernel code. *)
Lemma iret_user g sg ip0 fl0 c gd id ts m io esp0 ip fl sp : tables vectors gd id ts esp0 m → Z.testbit (c CR0) 0 = true →
  sel (sg CS) = 8 → sbase (sg SS) = 0 → (∀ r, r ≠ CS → r ≠ SS → sdpl (sg r) = 3) → 0 ≤ g ESP → g ESP + 20 < 2 ^ 32 →
  words_at m (g ESP) [ip; 27; fl; sp; 35] →
  ∃ g' sg', exec iret (mkState g sg ip0 fl0 c gd id ts m io) = Some (mkState g' sg' ip fl c gd id ts m io)
    ∧ g' ESP = sp ∧ (∀ r, r ≠ ESP → g' r = g r)
    ∧ sg' CS = segval 27 ∧ sg' SS = segval 35 ∧ (∀ r, r ≠ CS → r ≠ SS → sg' r = sg r).
Proof.
  intros T Hpe Hcs Hss Hdpl H1 H2 Hw. rewrite !words_at_cons in Hw. destruct Hw as (W1 & W2 & W3 & W4 & W5 & _).
  unfold exec, do_iret. unfold cpl at 1, protected. cbn [cr seg]. rewrite Hpe, Hcs. change (Z.land 8 3 =? 0) with true. cbn [negb].
  do 5 (operand; regs). rewrite W1, W2, W3, W4, W5. change (Z.land 27 3 =? 0) with false. cbv iota.
  rewrite (load_cs_mk _ _ _ _ _ _ _ _ _ _ esp0) by auto. cbn [mbind option_bind].
  rewrite (load_ss_mk _ _ _ _ _ _ _ _ _ _ esp0) by auto. cbn [mbind option_bind].
  eexists _, _. split; [reflexivity|]. unfold cpl, protected. cbn -[Z.testbit Z.land].
  split; [done|]. split; [by intros []|]. split; [done|]. split; [done|]. intros r Hr1 Hr2. specialize (Hdpl r Hr1 Hr2). rewrite Hpe.
  destruct r; try done; cbn -[Z.land]; rewrite Hdpl; done.
Qed.

Lemma iret_kernel g sg ip0 fl0 c gd id ts m io esp0 ip fl : tables vectors gd id ts esp0 m → Z.testbit (c CR0) 0 = true →
  sel (sg CS) = 8 → sbase (sg SS) = 0 → 0 ≤ g ESP → g ESP + 12 < 2 ^ 32 → words_at m (g ESP) [ip; 8; fl] →
  ∃ g', exec iret (mkState g sg ip0 fl0 c gd id ts m io) = Some (mkState g' (puts CS (segval 8) sg) ip fl c gd id ts m io)
    ∧ g' ESP = g ESP + 12 ∧ (∀ r, r ≠ ESP → g' r = g r).
Proof.
  intros T Hpe Hcs Hss H1 H2 Hw. rewrite !words_at_cons in Hw. destruct Hw as (W1 & W2 & W3 & _).
  unfold exec, do_iret. unfold cpl at 1, protected. cbn [cr seg]. rewrite Hpe, Hcs. change (Z.land 8 3 =? 0) with true. cbn [negb].
  do 3 (operand; regs). rewrite W1, W2, W3. change (Z.land 8 3 =? 0) with true. cbv iota.
  rewrite (load_cs_mk _ _ _ _ _ _ _ _ _ _ esp0) by auto. cbn [mbind option_bind].
  eexists. split; [reflexivity|]. split; [cbn; lia|]. by intros [].
Qed.

(** The registers of a frame. *)
Definition regs_of (g : reg → Z) (f : frame) : Prop :=
  g EDI = t_edi f ∧ g ESI = t_esi f ∧ g EBP = t_ebp f ∧ g EBX = t_ebx f ∧ g EDX = t_edx f ∧ g ECX = t_ecx f ∧ g EAX = t_eax f.
Definition segs_of (sg : sreg → segment) (f : frame) : Prop :=
  sg GS = segval (t_gs f) ∧ sg FS = segval (t_fs f) ∧ sg ES = segval (t_es f) ∧ sg DS = segval (t_ds f).

(** The selectors that a frame may hold. *)
Definition frame_ok (user : bool) (f : frame) : Prop :=
  Forall (λ v, v = 0 ∨ v = 35 ∨ user = false ∧ v = 16) [t_gs f; t_fs f; t_es f; t_ds f]
  ∧ if user then t_cs f = 27 ∧ t_ss f = 35 else t_cs f = 8.

Lemma words_at_app m a l1 l2 : words_at m a (l1 ++ l2) ↔ words_at m a l1 ∧ words_at m (a + 4 * Z.of_nat (length l1)) l2.
Proof.
  revert a. induction l1 as [|v l1 IH]; intros a; cbn [app length].
  - rewrite Z.mul_0_r, Z.add_0_r. split; [|tauto]. by intros H1.
  - rewrite !words_at_cons, IH. replace (a + 4 + 4 * Z.of_nat (length l1)) with (a + 4 * Z.of_nat (S (length l1))) by lia. tauto.
Qed.

Lemma pop_seg_mk g sg fl c gd id ts m io esp0 r v : tables vectors gd id ts esp0 m → Z.testbit (c CR0) 0 = true →
  sbase (sg SS) = 0 → sel (sg CS) = 8 → 0 ≤ g ESP → g ESP + 4 < 2 ^ 32 → load32 m (g ESP) = v → r ≠ CS → r ≠ SS → v = 0 ∨ v = 16 ∨ v = 35 → ∀ ip,
  exec (popl (Sr r)) (mkState g sg ip fl c gd id ts m io) = Some (mkState (put ESP (g ESP + 4) g) (puts r (segval v) sg) ip fl c gd id ts m io).
Proof.
  intros T Hp Hss Hcs H1 H2 <- H3 H4 Hv ip. unfold exec. operand. rewrite <- (load_mk _ _ _ _ _ _ _ _ _ _ esp0 r (load32 m (g ESP)) T Hp Hcs H3 H4 Hv).
  by destruct r.
Qed.

Ltac pop_seg Hr Ht lem :=
  to_head Hr Ht;
  let E := fresh "E" in
  pose proof lem as E; do 6 (let F := fresh in lazymatch type of E with ?P → _ => assert (F : P) by (cbn in *; (lia || done || tauto)); specialize (E F); clear F end);
  specialize (Hr _ (E _)); clear E.

(** trapret up to iret. *)
Lemma trapret_pops e a g sg fl c gd id ts m io esp0 f user :
  text_at fetch (λ _, 0) a (trapret sym) e → 0 ≤ a → tables vectors gd id ts esp0 m → Z.testbit (c CR0) 0 = true →
  sg CS = segval 8 → sbase (sg SS) = 0 → 0 ≤ g ESP → g ESP + 76 < 2 ^ 32 → words_at m (g ESP) (frame_words user f) → frame_ok user f →
  ∃ n g' sg' fl', reaches fetch (mkState g sg a fl c gd id ts m io) (mkState g' sg' n fl' c gd id ts m io)
    ∧ 0 ≤ n ∧ text_at fetch (λ _, 0) n [I iret] e ∧ regs_of g' f ∧ g' ESP = g ESP + 56
    ∧ segs_of sg' f ∧ sg' CS = sg CS ∧ sg' SS = sg SS.
Proof.
  intros Ht Ha Tb Hpe Hcs Hss H1 H2 Hw [Hok _]. destruct Ht as [_ Ht]. assert (Hc0 : sbase (sg CS) = 0) by (by rewrite Hcs).
  assert (Hc8 : sel (sg CS) = 8) by (by rewrite Hcs). unfold frame_words in Hw.
  apply words_at_app in Hw as [Wr Hw]. apply words_at_app in Hw as [Ws _].
  cbn [length] in Ws. rewrite !words_at_cons in Ws. destruct Ws as (S1 & S2 & S3 & S4 & _).
  pose proof (reaches_refl fetch (mkState g sg a fl c gd id ts m io)) as Hr. to_head Hr Ht.
  edestruct popal_mk as (g1 & E1 & R1 & R2 & R3 & R4 & R5 & R6 & R7 & Esp); [| | |exact Wr|apply Hr in E1; clear Hr; rename E1 into Hr]; [done|done|lia|].
  rewrite !Forall_cons in Hok. destruct Hok as (O1 & O2 & O3 & O4 & _).
  replace (g ESP + 4 * Z.of_nat 8) with (g1 ESP) in S1, S2, S3, S4 by lia.
  assert (B : 0 ≤ g1 ESP ∧ g1 ESP + 24 < 2 ^ 32) by lia. clear Wr H1 H2.
  pop_seg Hr Ht (pop_seg_mk g1 sg fl c gd id ts m io esp0 GS (t_gs f) Tb Hpe Hss Hc8).
  set (g2 := put ESP (g1 ESP + 4) g1) in Hr. set (sg2 := puts GS (segval (t_gs f)) sg) in Hr.
  pop_seg Hr Ht (pop_seg_mk g2 sg2 fl c gd id ts m io esp0 FS (t_fs f) Tb Hpe Hss Hc8).
  set (g3 := put ESP (g2 ESP + 4) g2) in Hr. set (sg3 := puts FS (segval (t_fs f)) sg2) in Hr.
  pop_seg Hr Ht (pop_seg_mk g3 sg3 fl c gd id ts m io esp0 ES (t_es f) Tb Hpe Hss Hc8).
  set (g4 := put ESP (g3 ESP + 4) g3) in Hr. set (sg4 := puts ES (segval (t_es f)) sg3) in Hr.
  pop_seg Hr Ht (pop_seg_mk g4 sg4 fl c gd id ts m io esp0 DS (t_ds f) Tb Hpe Hss Hc8).
  set (g5 := put ESP (g4 ESP + 4) g4) in Hr. to_head Hr Ht.
  destruct (addl_esp_mk 8 g5 (puts DS (segval (t_ds f)) sg4) ip4 fl c gd id ts m io) as [fl' E]; [done|cbn; lia|cbn; lia|].
  apply Hr in E. eexists _, _, _, _. split; [exact E|]. split; [done|]. split; [exact Ht|].
  unfold regs_of, segs_of. cbn. split_and!; lia || done.
Qed.

(** ** There and back *)

(** The code a trap may interrupt: user code, or kernel code. *)
Record interrupted (user : bool) (s : state) : Prop := {
  it_pe : protected s = true;
  it_cs : seg s CS = segval (if user then 27 else 8);
  it_ss : seg s SS = segval (if user then 35 else 16);
  it_data : ∀ r, r ≠ CS → r ≠ SS → ∃ v, seg s r = segval v ∧ (v = 0 ∨ v = 35 ∨ user = false ∧ v = 16);
  it_u32 : is_u32 (eip s) ∧ is_u32 (eflags s) ∧ ∀ r, is_u32 (gpr s r)
}.

(** What its frame holds: [osp] is what pushal saves as the stack pointer. *)
Definition frame_of (s : state) (n : nat) (er osp : Z) : frame :=
  mkFrame (gpr s EDI) (gpr s ESI) (gpr s EBP) osp (gpr s EBX) (gpr s EDX) (gpr s ECX) (gpr s EAX)
    (sel (seg s GS)) (sel (seg s FS)) (sel (seg s ES)) (sel (seg s DS)) (Z.of_nat n) (if has_err n then er else 0)
    (eip s) (sel (seg s CS)) (eflags s) (gpr s ESP) (sel (seg s SS)).

(** The top of the stack that the frame goes on, and its size. *)
Definition frame_top (user : bool) (s : state) (esp0 : Z) : Z := if user then esp0 else gpr s ESP.
Definition frame_size (user : bool) : Z := if user then 76 else 68.

Lemma frame_of_words user s n er osp : frame_words user (frame_of s n er osp) =
  saved_words (gpr s) (seg s) osp ++ vector_words n ++ err_words (if has_err n then Some er else None)
  ++ [eip s; sel (seg s CS); eflags s] ++ (if user then [gpr s ESP; sel (seg s SS)] else []).
Proof. unfold frame_words, vector_words. cbn. by destruct (has_err n). Qed.

(** The CPU and the vector: the words of the frame from the trap number up. *)
Lemma trap_enter user e s soft n er esp0 : trap_text e → tables vectors (gdtr s) (idtr s) (tss s) esp0 (ram s) → (n < 256)%nat →
  (soft = true → user = true ∧ n = 64%nat) → interrupted user s → 96 ≤ frame_top user s esp0 < 2 ^ 32 →
  let err := if has_err n then Some er else None in
  let ws := vector_words n ++ err_words err ++ [eip s; sel (seg s CS); eflags s] ++ (if user then [gpr s ESP; sel (seg s SS)] else []) in
  let sp := frame_top user s esp0 - 4 * Z.of_nat (length ws) in
  ∃ s0 g sg, interrupt soft (Z.of_nat n) err s = Some s0
    ∧ reaches fetch s0 (mkState g sg (sym "alltraps") (entry_flags n (eflags s)) (cr s) (gdtr s) (idtr s) (tss s) (store_words (ram s) sp ws) (ports s))
    ∧ g ESP = sp ∧ (∀ r, r ≠ ESP → g r = gpr s r) ∧ sg CS = segval 8 ∧ sg SS = segval 16 ∧ (∀ r, r ≠ CS → r ≠ SS → sg r = seg s r).
Proof.
  intros T Tb Hn Hsoft [Hpe Hcs Hss _ _] Htop err ws sp. destruct s as [g sg ip fl c gd id ts m io].
  unfold frame_top in *. cbn [gpr seg eip eflags cr gdtr idtr tss ram ports] in *. set (ws1 := err_words err ++ [ip; sel (sg CS); fl] ++ (if user then [g ESP; sel (sg SS)] else [])).
  set (top := if user then esp0 else g ESP) in *.
  assert (Hin : ∃ g' sg', interrupt soft (Z.of_nat n) err (mkState g sg ip fl c gd id ts m io) =
      Some (mkState g' sg' (vectors n) (entry_flags n fl) c gd id ts (store_words m (top - 4 * Z.of_nat (length ws1)) ws1) io)
    ∧ g' ESP = top - 4 * Z.of_nat (length ws1) ∧ (∀ r, r ≠ ESP → g' r = g r)
    ∧ sg' CS = segval 8 ∧ sg' SS = segval 16 ∧ (∀ r, r ≠ CS → r ≠ SS → sg' r = sg r)).
  { unfold ws1, top in *. destruct user; cbv iota in *.
    - destruct (interrupt_user g sg ip fl c gd id ts m io esp0 soft n err Tb Hn Hpe) as (g' & E & E1 & E2);
        [by intros ?; apply Hsoft|by rewrite Hcs|lia|].
      exists g', (puts SS (segval 16) (puts CS (segval 8) sg)). rewrite E, Hcs in *. split_and!; try done. by intros [].
    - assert (soft = false) as -> by (destruct soft; [by destruct Hsoft|done]).
      destruct (interrupt_kernel g sg ip fl c gd id ts m io esp0 n err Tb Hn Hpe) as (g' & E & E1 & E2);
        [by rewrite Hcs|by rewrite Hss|lia|].
      exists g', (puts CS (segval 8) sg). rewrite E, Hcs, app_nil_r in *. split_and!; try done. by intros []. }
  destruct Hin as (g1 & sg1 & E & E1 & E2 & C1 & C2 & C3).
  assert (Hlen : 4 * Z.of_nat (length ws1) ≤ 24) by (unfold ws1; destruct user, (has_err n); cbn; lia).
  destruct (vector_run e g1 sg1 (entry_flags n fl) c gd id ts (store_words m (top - 4 * Z.of_nat (length ws1)) ws1) io n T Hn) as (g2 & Hr & F1 & F2);
    [by rewrite C1|by rewrite C2|lia|].
  assert (Hws : ws = vector_words n ++ ws1) by done. assert (Hwl : length ws = (length (vector_words n) + length ws1)%nat) by (by rewrite Hws, length_app).
  eexists _, g2, sg1. split; [exact E|]. rewrite E1, store_words_app, <- Hws in Hr by lia.
  replace (top - 4 * Z.of_nat (length ws1) - 4 * Z.of_nat (length (vector_words n))) with sp in * by (unfold sp; lia).
  split; [exact Hr|]. split_and!; [lia| |done|done|done]. intros r Hr'. by rewrite F2, E2.
Qed.

(** Up to the call of trap. *)
Lemma trap_in user e s soft n er esp0 : trap_text e → tables vectors (gdtr s) (idtr s) (tss s) esp0 (ram s) → (n < 256)%nat →
  (soft = true → user = true ∧ n = 64%nat) → interrupted user s →
  let top := frame_top user s esp0 in let tf := top - frame_size user in
  96 ≤ top < 2 ^ 32 → apart (gdtr s) (idtr s) (tss s) (tf - 8) top →
  let f := frame_of s n er (tf + 32) in
  ∃ s0 g sg ra, interrupt soft (Z.of_nat n) (if has_err n then Some er else None) s = Some s0
    ∧ reaches fetch s0 (mkState g sg (sym "trap") (entry_flags n (eflags s)) (cr s) (gdtr s) (idtr s) (tss s)
                          (store_words (ram s) (tf - 8) (ra :: tf :: frame_words user f)) (ports s))
    ∧ g ESP = tf - 8 ∧ sg CS = segval 8 ∧ sg SS = segval 16 ∧ sg DS = segval 16 ∧ sg ES = segval 16
    ∧ 0 ≤ ra ∧ text_at fetch (λ _, 0) ra (I (addl (Imm 4) (R ESP)) :: trapret sym) e.
Proof.
  intros T Tb Hn Hsoft Hit top tf Htop Hap f.
  destruct (trap_enter user e s soft n er esp0 T Tb Hn Hsoft Hit Htop) as (s0 & g & sg & E & Hr & E1 & E2 & C1 & C2 & C3). fold top in Hr, E1.
  set (ws := vector_words n ++ _) in *.
  assert (Hlen : 4 * Z.of_nat (length ws) = frame_size user - 48).
  { unfold ws, vector_words, frame_size. destruct user, (has_err n); done. }
  set (m1 := store_words (ram s) (top - 4 * Z.of_nat (length ws)) ws) in *.
  assert (Hsp : g ESP = tf + 48) by (unfold tf; lia). assert (Hsz : 68 ≤ frame_size user ≤ 76) by (by destruct user).
  destruct (alltraps_run e g sg (entry_flags n (eflags s)) (cr s) (gdtr s) (idtr s) (tss s) m1 (ports s) esp0 T) as (g' & ra & Hr' & F1 & F2 & F3).
  - eapply tables_frame; [exact Tb|exact Hap|]. intros x Hx. apply store_words_other. unfold tf in *. lia.
  - exact (it_pe _ _ Hit).
  - done.
  - by rewrite C2.
  - unfold tf in *. lia.
  - unfold apart in *. unfold tf in *. lia.
  - replace (g ESP - 48) with tf in * by lia. replace (g ESP - 16) with (tf + 32) in Hr' by lia.
    exists s0, g', (puts ES (segval 16) (puts DS (segval 16) sg)), ra. split; [exact E|]. split; [|split_and!; try done].
    eapply reaches_trans; [exact Hr|].
    assert (Hm : store_words m1 (tf - 8) (ra :: tf :: saved_words g sg (tf + 32)) = store_words (ram s) (tf - 8) (ra :: tf :: frame_words user f)).
    { unfold m1. rewrite store_words_app by (cbn [length saved_words]; unfold tf; lia).
      assert (Hs : saved_words g sg (tf + 32) = saved_words (gpr s) (seg s) (tf + 32)) by (unfold saved_words; by rewrite !E2, !C3 by done).
      rewrite Hs. unfold f. rewrite frame_of_words. reflexivity. }
    rewrite <- Hm. exact Hr'.
Qed.

(** What of the machine is not part of a frame. *)
Definition sys_regs (s : state) : (creg → Z) * (Z * Z) * (Z * Z) * Z := (cr s, gdtr s, idtr s, tss s).

(** From the return of trap, on any CPU with the tables of the kernel. *)
Lemma trap_out user e s ra f esp0 : text_at fetch (λ _, 0) ra (I (addl (Imm 4) (R ESP)) :: trapret sym) e → 0 ≤ ra →
  tables vectors (gdtr s) (idtr s) (tss s) esp0 (ram s) → protected s = true → eip s = ra → seg s CS = segval 8 → seg s SS = segval 16 →
  0 ≤ gpr s ESP → gpr s ESP + 80 < 2 ^ 32 → words_at (ram s) (gpr s ESP + 4) (frame_words user f) → frame_ok user f →
  ∃ s', reaches fetch s s' ∧ regs_of (gpr s') f ∧ segs_of (seg s') f ∧ eip s' = t_eip f ∧ eflags s' = t_eflags f ∧ ram s' = ram s ∧ sys_regs s' = sys_regs s
    ∧ (if user then gpr s' ESP = t_esp f ∧ seg s' CS = segval 27 ∧ seg s' SS = segval 35
       else gpr s' ESP = gpr s ESP + 4 + frame_size user ∧ seg s' CS = segval 8 ∧ seg s' SS = segval 16).
Proof.
  intros Ht Hra Tb Hpe Hip Hcs Hss H1 H2 Hw Hok. destruct s as [g sg ip fl c gd id ts m io].
  cbn [gpr seg eip eflags cr gdtr idtr tss ram ports] in *. subst ip.
  pose proof (reaches_refl fetch (mkState g sg ra fl c gd id ts m io)) as Hr. assert (Hc0 : sbase (sg CS) = 0) by (by rewrite Hcs).
  to_head Hr Ht. destruct (addl_esp_mk 4 g sg ip fl c gd id ts m io) as [fl1 E]; [done|done|lia|]. apply Hr in E. clear Hr; rename E into Hr.
  destruct (trapret_pops e ip (put ESP (g ESP + 4) g) sg fl1 c gd id ts m io esp0 f user Ht) as (n & g2 & sg2 & fl2 & Hr2 & Hn & Ht2 & Hregs & Hsp & Hsegs & C1 & C2);
    [done|done|done|done|by rewrite Hss|cbn; lia|cbn; lia|done|done|].
  cbn [put reg_eqb] in Hsp. apply (reaches_trans _ _ _ _ Hr) in Hr2. clear Hr; rename Hr2 into Hr. assert (Hc2 : sbase (sg2 CS) = 0) by (by rewrite C1).
  to_head Hr Ht2. destruct Hsegs as (S1 & S2 & S3 & S4). destruct Hok as [Hd Hok].
  unfold frame_words in Hw. do 3 apply words_at_app in Hw as [_ Hw]. cbn [length] in Hw.
  replace (g ESP + 4 + 4 * Z.of_nat 8 + 4 * Z.of_nat 4 + 4 * Z.of_nat 2) with (g2 ESP) in Hw by lia.
  assert (Hdpl : user = true → ∀ r, r ≠ CS → r ≠ SS → sdpl (sg2 r) = 3).
  { intros -> r R1 R2. rewrite !Forall_cons in Hd. destruct Hd as (D1 & D2 & D3 & D4 & _).
    assert (Hv : ∀ v, v = 0 ∨ v = 35 ∨ true = false ∧ v = 16 → sdpl (segval v) = 3) by (by intros v [-> | [-> | [? ->]]]).
    destruct r; try done; rewrite ?S1, ?S2, ?S3, ?S4; by apply Hv. }
  destruct user; cbn [app] in Hw.
  - destruct Hok as [K1 K2]. rewrite K1, K2 in Hw.
    destruct (iret_user g2 sg2 ip0 fl2 c gd id ts m io esp0 (t_eip f) (t_eflags f) (t_esp f) Tb Hpe) as (g3 & sg3 & E & G1 & G2 & G3 & G4 & G5);
      [by rewrite C1, Hcs|by rewrite C2, Hss|by apply Hdpl|lia|lia|done|].
    apply Hr in E. eexists. split; [exact E|]. cbn [gpr seg eip eflags ram]. unfold regs_of, segs_of in *. rewrite !G2, !G5 by done. done.
  - rewrite Hok in Hw.
    destruct (iret_kernel g2 sg2 ip0 fl2 c gd id ts m io esp0 (t_eip f) (t_eflags f) Tb Hpe) as (g3 & E & G1 & G2);
      [by rewrite C1, Hcs|by rewrite C2, Hss|lia|lia|done|].
    apply Hr in E. eexists. split; [exact E|]. cbn [gpr seg eip eflags ram puts sreg_eqb]. unfold regs_of, segs_of in *. rewrite !G2 by done.
    split_and!; try tauto; [unfold frame_size; lia|by rewrite C2].
Qed.

Lemma interrupted_sel user s r : interrupted user s → seg s r = segval (sel (seg s r)) ∧ is_u32 (sel (seg s r)).
Proof.
  intros [_ Hcs Hss Hd _].
  assert (Hv : ∀ r, r ≠ CS → r ≠ SS → seg s r = segval (sel (seg s r)) ∧ is_u32 (sel (seg s r))).
  { intros r' R1 R2. destruct (Hd r' R1 R2) as (v & -> & Hv). split; [done|]. unfold is_u32. cbn. lia. }
  destruct r; try (by apply Hv); rewrite ?Hcs, ?Hss; by destruct user.
Qed.

Lemma frame_of_u32 user s n er osp : interrupted user s → (n < 256)%nat → is_u32 er → is_u32 osp →
  Forall is_u32 (frame_words user (frame_of s n er osp)).
Proof.
  intros Hit Hn Her Hosp. assert (Hs := λ r, proj2 (interrupted_sel user s r Hit)). destruct (it_u32 _ _ Hit) as (H1 & H2 & H3).
  unfold frame_words, frame_of. cbn. rewrite !Forall_cons. split_and!; try apply Hs; try apply H3; try done.
  - unfold is_u32. lia.
  - by destruct (has_err n).
  - destruct user; [|done]. rewrite !Forall_cons. split_and!; [apply H3|apply Hs|done].
Qed.

Lemma frame_of_ok user s n er osp : interrupted user s → frame_ok user (frame_of s n er osp).
Proof.
  intros [_ Hcs Hss Hd _].
  assert (Hv : ∀ r, r ≠ CS → r ≠ SS → sel (seg s r) = 0 ∨ sel (seg s r) = 35 ∨ user = false ∧ sel (seg s r) = 16).
  { intros r R1 R2. by destruct (Hd r R1 R2) as (v & -> & Hv). }
  split; [rewrite !Forall_cons; split_and!; try done; by apply Hv|]. unfold frame_of. cbn [t_cs t_ss]. rewrite Hcs, Hss. by destruct user.
Qed.

Lemma frame_segs user s s' n er osp : interrupted user s → segs_of (seg s') (frame_of s n er osp) →
  seg s' CS = segval (if user then 27 else 8) → seg s' SS = segval (if user then 35 else 16) → ∀ r, seg s' r = seg s r.
Proof.
  intros Hit (S1 & S2 & S3 & S4) Hcs Hss. assert (Hsel := λ r, proj1 (interrupted_sel user s r Hit)). intros [].
  - by rewrite S3, (Hsel ES).
  - by rewrite Hcs, (it_cs _ _ Hit).
  - by rewrite Hss, (it_ss _ _ Hit).
  - by rewrite S4, (Hsel DS).
  - by rewrite S2, (Hsel FS).
  - by rewrite S1, (Hsel GS).
Qed.

Lemma frame_restores user s s' n er osp : interrupted user s →
  regs_of (gpr s') (frame_of s n er osp) → segs_of (seg s') (frame_of s n er osp) → gpr s' ESP = gpr s ESP →
  seg s' CS = segval (if user then 27 else 8) → seg s' SS = segval (if user then 35 else 16) →
  (∀ r, gpr s' r = gpr s r) ∧ ∀ r, seg s' r = seg s r.
Proof.
  intros Hit (R1 & R2 & R3 & R4 & R5 & R6 & R7) Hs Hsp Hcs Hss. split; [by intros []|by apply (frame_segs user s s' n er osp)].
Qed.

Lemma trap_called user e s soft n er esp0 : trap_text e → tables vectors (gdtr s) (idtr s) (tss s) esp0 (ram s) → (n < 256)%nat →
  (soft = true → user = true ∧ n = 64%nat) → interrupted user s → is_u32 er →
  let top := frame_top user s esp0 in let tf := top - frame_size user in
  96 ≤ top < 2 ^ 32 → apart (gdtr s) (idtr s) (tss s) (tf - 8) top →
  let f := frame_of s n er (tf + 32) in
  ∃ s0 s1 ra, interrupt soft (Z.of_nat n) (if has_err n then Some er else None) s = Some s0 ∧ reaches fetch s0 s1
    ∧ eip s1 = sym "trap" ∧ cpl s1 = 0 ∧ gpr s1 ESP = tf - 8 ∧ words_at (ram s1) (tf - 8) (ra :: tf :: frame_words user f)
    ∧ (∀ x, ¬ (tf - 8 ≤ x < top) → ram s1 x = ram s x)
    ∧ 0 ≤ ra ∧ text_at fetch (λ _, 0) ra (I (addl (Imm 4) (R ESP)) :: trapret sym) e.
Proof.
  intros T Tb Hn Hsoft Hit Her top tf Htop Hap f.
  destruct (trap_in user e s soft n er esp0 T Tb Hn Hsoft Hit) as (s0 & g & sg & ra & E & Hr & E1 & C1 & C2 & C3 & C4 & Hra & Ht);
    [fold top; lia|done|]. fold top tf f in Hr, E1.
  assert (Hsz : 68 ≤ frame_size user ≤ 76) by (by destruct user).
  eexists s0, _, ra. split; [exact E|]. split; [exact Hr|]. cbn [eip gpr ram]. split; [done|]. split.
  { unfold cpl, protected. cbn [cr seg]. by rewrite (it_pe _ _ Hit : Z.testbit (cr s CR0) 0 = true), C1. }
  split; [done|]. split; [|split; [|done]].
  - apply store_words_at. rewrite !Forall_cons. split_and!.
    + destruct Ht as (k & Hk & Hk2 & _). unfold is_u32. lia.
    + unfold is_u32, tf. lia.
    + apply frame_of_u32; [done..|]. unfold is_u32, tf. lia.
  - intros x Hx. assert (Hl : Z.of_nat (length (frame_words user f)) * 4 = frame_size user) by (unfold frame_size; by destruct user).
    apply store_words_other. change (length (ra :: tf :: frame_words user f)) with (S (S (length (frame_words user f)))). unfold tf in *. lia.
Qed.

(** C7: a trap comes back to the code it interrupted. With the tables of seginit
    and tvinit in memory, an interrupt or exception [n] of user code or of kernel
    code, or a system call, reaches a call of trap with the address of a frame on
    the kernel stack. The frame holds every register of the interrupted code, the
    number of the trap and its error code or 0; no other memory changes but the
    two words of the call. When trap has returned, on this or another CPU, trapret
    loads what the frame then holds; so if trap has left the frame as it was, the
    code goes on with all its registers, segments and flags. *)
Theorem trap_returns user e s soft n er esp0 : trap_text e → tables vectors (gdtr s) (idtr s) (tss s) esp0 (ram s) → (n < 256)%nat →
  (soft = true → user = true ∧ n = 64%nat) → interrupted user s → is_u32 er →
  let top := frame_top user s esp0 in let tf := top - frame_size user in
  96 ≤ top < 2 ^ 32 - 8 → apart (gdtr s) (idtr s) (tss s) (tf - 8) top →
  let f := frame_of s n er (tf + 32) in
  ∃ s0 s1 ra, interrupt soft (Z.of_nat n) (if has_err n then Some er else None) s = Some s0 ∧ reaches fetch s0 s1
    ∧ eip s1 = sym "trap" ∧ cpl s1 = 0 ∧ gpr s1 ESP = tf - 8 ∧ words_at (ram s1) (tf - 8) (ra :: tf :: frame_words user f)
    ∧ (∀ x, ¬ (tf - 8 ≤ x < top) → ram s1 x = ram s x)
    ∧ (∀ s2 f' esp0', eip s2 = ra → gpr s2 ESP = tf - 4 → seg s2 CS = segval 8 → seg s2 SS = segval 16 → protected s2 = true →
        tables vectors (gdtr s2) (idtr s2) (tss s2) esp0' (ram s2) → words_at (ram s2) tf (frame_words user f') → frame_ok user f' →
        ∃ s3, reaches fetch s2 s3 ∧ ram s3 = ram s2 ∧ regs_of (gpr s3) f' ∧ segs_of (seg s3) f' ∧ eip s3 = t_eip f' ∧ eflags s3 = t_eflags f'
          ∧ (f' = f → (∀ r, gpr s3 r = gpr s r) ∧ ∀ r, seg s3 r = seg s r)).
Proof.
  intros T Tb Hn Hsoft Hit Her top tf Htop Hap f.
  destruct (trap_called user e s soft n er esp0 T Tb Hn Hsoft Hit Her) as (s0 & s1 & ra & E & Hr & E1 & E2 & E3 & E4 & E5 & Hra & Ht);
    [fold top; lia|done|]. fold top tf f in E3, E4, E5.
  assert (Hsz : 68 ≤ frame_size user ≤ 76) by (by destruct user).
  exists s0, s1, ra. split_and!; try done. intros s2 f' esp0' I1 I2 I3 I4 I5 Tb2 Hw Hok.
  destruct (trap_out user e s2 ra f' esp0' Ht Hra Tb2 I5 I1 I3 I4) as (s3 & Hr3 & Hg & Hs & K1 & K2 & K3 & _ & K4);
    [unfold tf in *; lia|unfold tf in *; lia|by replace (gpr s2 ESP + 4) with tf by lia|done|].
  exists s3. split_and!; try done. intros ->. apply (frame_restores user s s3 n er (tf + 32) Hit Hg Hs); destruct user; try apply K4.
  destruct K4 as [-> _]. unfold tf, top, frame_top, frame_size in *. lia.
Qed.
End Trap.

(** The tables as seginit and tvinit leave them, once they are in memory. *)
Lemma tables_init vectors gdt idt gd id ts esp0 m : length gdt = 6%nat → length idt = 256%nat → (∀ i, is_u32 (vectors i)) →
  (∀ i d, fill_gdt gdt !! i = Some d → load64 m (fst gd + 8 * Z.of_nat i) = seg_word d) →
  (∀ i g, fill_idt vectors idt !! i = Some g → load64 m (fst id + 8 * Z.of_nat i) = gate_word g) →
  snd gd = 47 ∧ 0 ≤ fst gd ∧ fst gd + 48 ≤ 2 ^ 32 → snd id = 2047 ∧ 0 ≤ fst id ∧ fst id + 2048 ≤ 2 ^ 32 → 0 ≤ ts ∧ ts + 104 ≤ 2 ^ 32 →
  load32 m (ts + 4) = esp0 → m (ts + 8) + m (ts + 9) * 2 ^ 8 = Z.shiftl SEG_KDATA 3 → tables vectors gd id ts esp0 m.
Proof.
  intros Hg Hi Hv Mg Mi. split; try done.
  - intros i Hr. destruct (fill_gdt_reads gdt i Hg Hr) as (d & E & _ & R). apply Mg in E. by rewrite Z2Nat.id in E by lia; rewrite E.
  - intros n Hn. destruct (fill_idt_reads idt vectors n Hi Hv Hn) as (g & E & _ & R). apply Mi in E. by rewrite E.
Qed.

(** ** A machine

    The tables at 4096, 8192 and 12288 with the stack of the kernel below 32768,
    and user code [ucode] below 65536, which runs at 20480 with its stack below
    24576. *)
Module Machine.
Definition sym (x : string) : Z := if String.eqb x "alltraps" then 69632 else if String.eqb x "trapret" then 69643 else 73728.
Definition vectors (i : nat) : Z := 65536 + 4 * (Z.of_nat i mod 256).
Definition gdt : list segdesc := fill_gdt (replicate 6 (mkSegdesc 0 0 0 0 0 0 0 0 0 0 0 0 0)).
Definition idt : list gatedesc := fill_idt vectors (replicate 256 (mkGatedesc 0 0 0 0 0 0 0 0 0)).

Definition le (n : nat) (w : Z) : list Z := map (λ i, w / 2 ^ (8 * Z.of_nat i) mod 256) (seq 0 n).
Definition gdt_bytes : list Z := Eval vm_compute in concat (map (le 8 ∘ seg_word) gdt).
Definition idt_bytes : list Z := Eval vm_compute in concat (map (le 8 ∘ gate_word) idt).
Definition image : memory := λ a,
  if a <? 8192 then mem_of 4096 gdt_bytes a
  else if a <? 12288 then mem_of 8192 idt_bytes a
  else mem_of 12288 ([0; 0; 0; 0] ++ le 4 32768 ++ le 2 16) a.

Definition fetch (ucode : Z → option (instr * Z)) (a : Z) : option (instr * Z) :=
  if a <? 65536 then ucode a
  else if a <? 69632 then let i := Z.to_nat ((a - 65536) / 4) in code_at (vectors i) (vector sym vectors i) a
  else code_at 69632 (alltraps sym ++ trapret sym) a.

Definition user : state :=
  mkState (λ r, match r with ESP => 24576 | EAX => 5 | _ => 3 end) (λ r, segval match r with CS => 27 | GS | FS => 0 | _ => 35 end)
    20480 514 (λ _, 1) (4096, 47) (8192, 2047) 12288 image [].

Lemma image_tables : tables vectors (4096, 47) (8192, 2047) 12288 32768 image.
Proof.
  apply (tables_init _ (replicate 6 (mkSegdesc 0 0 0 0 0 0 0 0 0 0 0 0 0)) (replicate 256 (mkGatedesc 0 0 0 0 0 0 0 0 0))); try done.
  - intros i. unfold vectors. pose proof (Z.mod_pos_bound (Z.of_nat i) 256 ltac:(lia)). unfold is_u32. lia.
  - intros i d Hd. fold gdt in Hd. assert (A : map (λ i, load64 image (4096 + 8 * Z.of_nat i)) (seq 0 6) = map seg_word gdt) by by vm_compute.
    assert (Hi : (i < 6)%nat) by (apply lookup_lt_Some in Hd; exact Hd).
    apply (f_equal (.!! i)) in A. rewrite !list_lookup_fmap, Hd, lookup_seq_lt in A by done. by injection A.
  - intros i d Hd. fold idt in Hd. assert (A : map (λ i, load64 image (8192 + 8 * Z.of_nat i)) (seq 0 256) = map gate_word idt) by by vm_compute.
    assert (Hi : (i < 256)%nat). { apply lookup_lt_Some in Hd. unfold idt, fill_idt in Hd. by rewrite length_insert, fill_length, length_replicate in Hd. }
    apply (f_equal (.!! i)) in A. rewrite !list_lookup_fmap, Hd, lookup_seq_lt in A by done. by injection A.
Qed.

Lemma fetch_vector u i k : (i < 256)%nat → 0 ≤ k < 4 → fetch u (vectors i + k) = code_at 0 (vector sym vectors i) k.
Proof.
  intros Hi Hk. assert (Hv : vectors i = 65536 + 4 * Z.of_nat i) by (unfold vectors; rewrite Z.mod_small; lia).
  unfold fetch. destruct (Z.ltb_spec (vectors i + k) 65536); [lia|]. destruct (Z.ltb_spec (vectors i + k) 69632); [|lia].
  replace (vectors i + k - 65536) with (k + Z.of_nat i * 4) by lia. rewrite Z.div_add, (Z.div_small k) by lia. rewrite Z.add_0_l, Nat2Z.id.
  unfold code_at. rewrite !(proj2 (Z.ltb_ge _ _)) by lia. by replace (vectors i + k - vectors i) with (k - 0) by lia.
Qed.

Lemma text u : trap_text (fetch u) sym vectors 69650.
Proof.
  assert (Hv : ∀ i, (i < 256)%nat → vectors i = 65536 + 4 * Z.of_nat i) by (intros i Hi; unfold vectors; rewrite Z.mod_small; lia).
  split; [|intros i Hi; rewrite Hv; lia|lay_out|done].
  intros i Hi. specialize (Hv i Hi). assert (F := λ k, fetch_vector u i k Hi). unfold vector in F |- *.
  destruct (has_err i); cbn [negb app] in F |- *; eexists; (split; [done|]).
  all: repeat match goal with |- text_at _ _ ?a (I _ :: _) _ =>
      eexists 1; split; [done|]; split; [lia|]; split; [replace a with (vectors i + (a - vectors i)) by lia; rewrite F by lia;
      first [replace (a - vectors i) with 0 by lia; reflexivity | replace (a - vectors i) with 1 by lia; reflexivity | replace (a - vectors i) with 2 by lia; reflexivity]|] end.
  all: reflexivity.
Qed.

Lemma user_interrupted : interrupted true user.
Proof.
  split; try done; [|by split_and!; try done; intros []]. intros [] ? ?; try done; (eexists; split; [reflexivity|]; lia).
Qed.

(** A page fault of the user code. *)
Lemma trap_returns_witness : ∃ s0 s1 ra, interrupt false 14 (Some 6) user = Some s0 ∧ reaches (H := idle) (fetch (λ _, None)) s0 s1 ∧ eip s1 = 73728
  ∧ words_at (ram s1) 32684 (ra :: 32692 :: frame_words true (frame_of user 14 6 32724)).
Proof.
  destruct (trap_returns (H := idle) (fetch (λ _, None)) sym vectors true 69650 user false 14 6 32768 (text _) image_tables) as (s0 & s1 & ra & E & Hr & E1 & _ & _ & Hw & _).
  - lia.
  - done.
  - exact user_interrupted.
  - done.
  - cbn. lia.
  - cbn. unfold apart. cbn. lia.
  - exists s0, s1, ra. exact (conj E (conj Hr (conj E1 Hw))).
Defined.
End Machine.
