(* ===== verification/Stubs.v ===== *)
(** The stubs of the system calls (usys.S, syscall.h) and the first user program
    (initcode.S), as user code on the way through the kernel of Trapasm.v. *)

From S2P Require Import Prelude Segs Types Strings Apic Sysproc Boot X86 Asm Trapasm.
Import Descriptors Tables X86.

(** The numbers of syscall.h. *)
Definition sysnos : list (string * Z) :=
  [("fork", 1); ("exit", 2); ("wait", 3); ("pipe", 4); ("read", 5); ("kill", 6); ("exec", 7); ("fstat", 8); ("chdir", 9);
   ("dup", 10); ("getpid", 11); ("sbrk", 12); ("sleep", 13); ("uptime", 14); ("open", 15); ("write", 16); ("mknod", 17);
   ("unlink", 18); ("link", 19); ("mkdir", 20); ("close", 21); ("cps", 22); ("nps", 23); ("chpr", 24); ("date", 25);
   ("getuid", 26); ("getgid", 27); ("getppid", 28); ("setuid", 29); ("setgid", 30); ("suid", 31); ("sgid", 32);
   ("chmod", 33); ("chown", 34); ("chgrp", 35)]%string.

Fixpoint sysno_in (l : list (string * Z)) (name : string) : Z :=
  match l with [] => 0 | (x, n) :: l' => if String.eqb x name then n else sysno_in l' name end.
Definition SYS (name : string) : Z := sysno_in sysnos name.

Section Text.
Context (sym : string → Z).

(** The macro of usys.S, and the file. *)
Definition SYSCALL (name : string) : list line := [
  Label (sym name);
  I (movl (Imm (SYS name)) (R EAX));
  I (int T_SYSCALL);
  I ret ].

Definition usys : list line :=
  concat (map SYSCALL
    ["fork"; "exit"; "wait"; "pipe"; "read"; "write"; "close"; "kill"; "exec"; "open"; "mknod"; "unlink"; "fstat"; "link";
     "mkdir"; "chdir"; "dup"; "getpid"; "sbrk"; "sleep"; "uptime"; "cps"; "nps"; "chpr"; "date"; "getuid"; "getgid"; "getppid";
     "setuid"; "setgid"; "suid"; "sgid"; "chmod"; "chown"; "chgrp"]%string).

Definition initcode : list line := [
  Label (sym "start");
  I (pushl (Imm (sym "argv")));
  I (pushl (Imm (sym "init")));
  I (pushl (Imm 0));
  I (movl (Imm (SYS "exec")) (R EAX));
  I (int T_SYSCALL);
  Label (sym "exit");
  I (movl (Imm (SYS "exit")) (R EAX));
  I (int T_SYSCALL);
  I (jmp (sym "exit"));
  Label (sym "init");
  Byte 47; Byte 105; Byte 110; Byte 105; Byte 116; Byte 0; Byte 0;
  Align4;
  Label (sym "argv");
  Long (sym "init");
  Long 0 ].
End Text.

(** ** Stubs *)

Section Stubs.
Context {H : Hardware} (fetch : Z → option (instr * Z)) (sym usym : string → Z) (vectors : nat → Z).

(** A frame with another %eax, as syscall leaves it. *)
Definition set_frame_eax (v : Z) (f : frame) : frame :=
  mkFrame (t_edi f) (t_esi f) (t_ebp f) (t_oesp f) (t_ebx f) (t_edx f) (t_ecx f) v (t_gs f) (t_fs f) (t_es f) (t_ds f)
    (t_trapno f) (t_err f) (t_eip f) (t_cs f) (t_eflags f) (t_esp f) (t_ss f).

Lemma SYS_u32 name : is_u32 (SYS name).
Proof.
  unfold SYS, sysnos. cbn [sysno_in]. repeat match goal with |- is_u32 (if ?b then _ else _) => destruct b; [unfold is_u32; lia|] end. unfold is_u32; lia.
Qed.

(** The state of user code at the call of [name], about to go on at [n]. *)
Definition called (s : state) (name : string) (n : Z) : state := s <| gpr ::= put EAX (SYS name) |> <| eip := n |>.

Lemma called_interrupted s name n : interrupted true s → is_u32 n → interrupted true (called s name n).
Proof.
  intros [H1 H2 H3 H4 (H5 & H6 & H7)] Hn. split; try done. split; [done|]. split; [done|].
  intros r. destruct r; try apply H7. apply SYS_u32.
Qed.

(** The two instructions of a system call, up to the call of trap. *)
Lemma sys_in m0 e e' s name rest esp0 : trap_text fetch sym vectors e →
  text_at fetch m0 (eip s) (I (movl (Imm (SYS name)) (R EAX)) :: I (int T_SYSCALL) :: rest) e' → 0 ≤ eip s →
  tables vectors (gdtr s) (idtr s) (tss s) esp0 (ram s) → interrupted true s →
  96 ≤ esp0 < 2 ^ 32 - 8 → apart (gdtr s) (idtr s) (tss s) (esp0 - 84) esp0 →
  ∃ n s1 k, let f := frame_of (called s name n) 64 0 (esp0 - 44) in
    reaches fetch s s1 ∧ eip s1 = sym "trap" ∧ words_at (ram s1) (gpr s1 ESP) (k :: esp0 - 76 :: frame_words true f)
    ∧ (∀ x, ¬ (esp0 - 84 ≤ x < esp0) → ram s1 x = ram s x)
    ∧ is_u32 n ∧ text_at fetch m0 n rest e'
    ∧ 0 ≤ k ∧ text_at fetch (λ _, 0) k (I (addl (Imm 4) (R ESP)) :: trapret sym) e.
Proof.
  intros T Ht Hn Tb Hit Htop Hap. assert (HS := SYS_u32 name).
  assert (Hc0 : sbase (seg s CS) = 0) by (by rewrite (it_cs _ _ Hit)).
  pose proof (reaches_refl fetch s) as Hr. destruct s as [g sg ip fl c gd id ts m io].
  cbn [gpr seg eip eflags cr gdtr idtr tss ram ports] in Hn, Ht, Tb, Hap, Hc0.
  head Hr Ht. to_head Hr Ht. assert (Hn2 : is_u32 ip1) by (unfold is_u32; lia).
  pose proof (called_interrupted _ name ip1 Hit Hn2) as Hit2. set (s := called _ name ip1) in Hit2.
  destruct (trap_called fetch sym vectors true e s true 64 0 esp0 T Tb ltac:(lia) ltac:(done) Hit2 ltac:(done))
    as (s0 & s1 & k & E & Hr1 & E1 & _ & E3 & E4 & E5 & Hk & Htk); unfold frame_top, frame_size in *.
  { lia. }
  { by replace (esp0 - 76 - 8) with (esp0 - 84) by lia. }
  replace (esp0 - 76 - 8) with (esp0 - 84) in * by lia. replace (esp0 - 76 + 32) with (esp0 - 44) in * by lia.
  apply Hr in E. exists ip1, s1, k. cbv zeta. rewrite E3. split_and!; try done. exact (reaches_trans _ _ _ _ E Hr1).
Qed.

(** The way back: [s] was the user state before the call of [name], which goes on
    at [n] with the result [v]. *)
Definition resumed (s : state) (n v : Z) (s3 : state) : Prop :=
  eip s3 = n ∧ gpr s3 EAX = v ∧ eflags s3 = eflags s ∧ (∀ r, r ≠ EAX → gpr s3 r = gpr s r) ∧ ∀ r, seg s3 r = seg s r.

Lemma sys_out e s name n k v s2 esp0 esp0' : interrupted true s → is_u32 n →
  text_at fetch (λ _, 0) k (I (addl (Imm 4) (R ESP)) :: trapret sym) e → 0 ≤ k → 96 ≤ esp0 < 2 ^ 32 - 8 →
  eip s2 = k → gpr s2 ESP = esp0 - 80 → seg s2 CS = segval 8 → seg s2 SS = segval 16 → protected s2 = true →
  tables vectors (gdtr s2) (idtr s2) (tss s2) esp0' (ram s2) →
  words_at (ram s2) (esp0 - 76) (frame_words true (set_frame_eax v (frame_of (called s name n) 64 0 (esp0 - 44)))) →
  ∃ s3, reaches fetch s2 s3 ∧ resumed s n v s3 ∧ ram s3 = ram s2 ∧ sys_regs s3 = sys_regs s2.
Proof.
  intros Hit Hn Htk Hk He J1 J2 J3 J4 J5 Tb2 Hw. pose proof (called_interrupted s name n Hit Hn) as Hit2.
  set (f := frame_of _ _ _ _) in Hw.
  destruct (trap_out fetch sym vectors true e s2 k (set_frame_eax v f) esp0' Htk Hk Tb2 J5 J1 J3 J4) as (s3 & Hr3 & Hg & Hs & K1 & K2 & K3 & K0 & K4);
    [lia|lia|by replace (gpr s2 ESP + 4) with (esp0 - 76) by lia|by apply (frame_of_ok true)|].
  destruct Hg as (G1 & G2 & G3 & G4 & G5 & G6 & G7), K4 as (K4 & K5 & K6).
  exists s3. unfold resumed. split_and!; try done; [by intros [] ?|]. exact (frame_segs true _ s3 64 0 (esp0 - 44) Hit2 Hs K5 K6).
Qed.

(** C30: a stub makes its system call and returns its result. Called by user code
    with its return address on the stack, the stub of usys.S for [name] reaches a
    call of trap whose frame has the number of [name] in %eax, the number of
    system calls as its trap, and the stack of the user, where the arguments lie
    above the return address. When trap has returned with [v] in %eax of the frame
    and the frame otherwise the same, the caller goes on after its call with [v]
    in %eax, and with all other registers, the flags and the stack as they were. *)
Theorem stub_calls e e' s name ra esp0 : trap_text fetch sym vectors e → text_at fetch (λ _, 0) (usym name) (SYSCALL usym name) e' → 0 ≤ usym name →
  tables vectors (gdtr s) (idtr s) (tss s) esp0 (ram s) → interrupted true s → eip s = usym name →
  gpr s ESP + 4 < 2 ^ 32 → words_at (ram s) (gpr s ESP) [ra] → 96 ≤ esp0 < 2 ^ 32 - 8 → apart (gdtr s) (idtr s) (tss s) (esp0 - 84) esp0 →
  ∃ s1 f k, reaches fetch s s1 ∧ eip s1 = sym "trap" ∧ words_at (ram s1) (gpr s1 ESP) (k :: esp0 - 76 :: frame_words true f)
    ∧ t_eax f = SYS name ∧ t_trapno f = T_SYSCALL ∧ t_esp f = gpr s ESP ∧ (∀ x, ¬ (esp0 - 84 ≤ x < esp0) → ram s1 x = ram s x)
    ∧ ∀ s2 v esp0', eip s2 = k → gpr s2 ESP = esp0 - 80 → seg s2 CS = segval 8 → seg s2 SS = segval 16 → protected s2 = true →
        tables vectors (gdtr s2) (idtr s2) (tss s2) esp0' (ram s2) → words_at (ram s2) (esp0 - 76) (frame_words true (set_frame_eax v f)) →
        words_at (ram s2) (gpr s ESP) [ra] →
        ∃ s3, reaches fetch s2 s3 ∧ eip s3 = ra ∧ gpr s3 EAX = v ∧ gpr s3 ESP = gpr s ESP + 4 ∧ eflags s3 = eflags s
          ∧ (∀ r, r ≠ EAX → r ≠ ESP → gpr s3 r = gpr s r) ∧ (∀ r, seg s3 r = seg s r) ∧ ram s3 = ram s2.
Proof.
  intros T Ht Hn Tb Hit Hip Hsp Hra Htop Hap.
  destruct Ht as [_ Ht]. rewrite <- Hip in Ht, Hn.
  destruct (sys_in _ e e' s name _ esp0 T Ht Hn Tb Hit Htop Hap) as (n & s1 & k & Hr & I1 & I2 & I3 & Hn2 & Ht2 & Hk & Htk).
  exists s1, (frame_of (called s name n) 64 0 (esp0 - 44)), k. split_and!; try done. intros s2 v esp0' J1 J2 J3 J4 J5 Tb2 Hw Hra2.
  destruct (sys_out e s name n k v s2 esp0 esp0' Hit Hn2 Htk Hk Htop J1 J2 J3 J4 J5 Tb2 Hw) as (s3 & Hr3 & (K1 & K2 & K3 & K4 & K5) & Hm & _).
  assert (Hc0 : sbase (seg s3 CS) = 0) by (by rewrite K5, (it_cs _ _ Hit)). assert (Hs0 : sbase (seg s3 SS) = 0) by (by rewrite K5, (it_ss _ _ Hit)).
  assert (0 ≤ gpr s ESP) by (destruct (it_u32 _ _ Hit) as (_ & _ & U); apply U). apply words_at_cons in Hra2 as [Hra2 _].
  assert (Hsp3 := K4 ESP ltac:(done)). destruct Hn2 as [Hn2 _].
  destruct s3 as [g sg ip fl c gd id ts m io]. cbn [gpr seg eip eflags cr gdtr idtr tss ram ports] in *. subst ip m.
  head Hr3 Ht2. rewrite Hsp3, Hra2 in Hr3. eexists. split; [exact Hr3|]. cbn. split_and!; try done.
  intros r R1 R2. rewrite <- (K4 r R1). by destruct r.
Qed.

(** ** The first program *)

(** [s1] is a call of trap for the system call [name] of the user state [s], with
    the stack pointer [sp]: [f] is its frame and [k] where trap returns to. *)
Definition sys_call (s1 : state) (name : string) (sp esp0 k : Z) (f : frame) : Prop :=
  eip s1 = sym "trap" ∧ words_at (ram s1) (gpr s1 ESP) (k :: esp0 - 76 :: frame_words true f)
  ∧ t_eax f = SYS name ∧ t_trapno f = T_SYSCALL ∧ t_esp f = sp.

(** [s2] is the return of trap with [v] in %eax of the frame [f], on a CPU whose
    tables serve the kernel stack below [esp0]. *)
Definition sys_back (s2 : state) (v esp0 k : Z) (f : frame) : Prop :=
  eip s2 = k ∧ gpr s2 ESP = esp0 - 80 ∧ seg s2 CS = segval 8 ∧ seg s2 SS = segval 16 ∧ protected s2 = true
  ∧ tables vectors (gdtr s2) (idtr s2) (tss s2) esp0 (ram s2) ∧ apart (gdtr s2) (idtr s2) (tss s2) (esp0 - 84) esp0
  ∧ is_u32 v ∧ words_at (ram s2) (esp0 - 76) (frame_words true (set_frame_eax v f)).

(** The user state [s] makes the system call exit, and again whenever that
    returns, for [n] times. *)
Fixpoint exits (n : nat) (s : state) (esp0 : Z) : Prop :=
  match n with
  | O => True
  | S n' => ∃ s1 f k, reaches fetch s s1 ∧ sys_call s1 "exit" (gpr s ESP) esp0 k f
      ∧ ∀ s2 v, sys_back s2 v esp0 k f → ∃ s3, reaches fetch s2 s3 ∧ exits n' s3 esp0
  end.

Lemma resumed_interrupted s s2 s3 n v : interrupted true s → is_u32 n → is_u32 v → protected s2 = true →
  resumed s n v s3 → sys_regs s3 = sys_regs s2 → interrupted true s3.
Proof.
  intros [_ Hcs Hss Hd (_ & Hf & Hg)] Hn Hv Hpe (K1 & K2 & K3 & K4 & K5) K6. injection K6 as K6 _ _ _. split.
  - unfold protected in *. by rewrite K6.
  - by rewrite K5.
  - by rewrite K5.
  - intros r. rewrite K5. apply Hd.
  - rewrite K1, K3. split_and!; [done..|]. intros r. destruct r; try (rewrite K4 by done; apply Hg). by rewrite K2.
Qed.

(** One system call in user code with [rest] after it. *)
Lemma sys_round m0 e e' s name rest esp0 : trap_text fetch sym vectors e →
  text_at fetch m0 (eip s) (I (movl (Imm (SYS name)) (R EAX)) :: I (int T_SYSCALL) :: rest) e' → 0 ≤ eip s →
  tables vectors (gdtr s) (idtr s) (tss s) esp0 (ram s) → interrupted true s →
  96 ≤ esp0 < 2 ^ 32 - 8 → apart (gdtr s) (idtr s) (tss s) (esp0 - 84) esp0 →
  ∃ s1 f k, reaches fetch s s1 ∧ sys_call s1 name (gpr s ESP) esp0 k f ∧ (∀ x, ¬ (esp0 - 84 ≤ x < esp0) → ram s1 x = ram s x)
    ∧ ∀ s2 v, sys_back s2 v esp0 k f → ∃ s3, reaches fetch s2 s3 ∧ 0 ≤ eip s3 ∧ text_at fetch m0 (eip s3) rest e'
        ∧ tables vectors (gdtr s3) (idtr s3) (tss s3) esp0 (ram s3) ∧ interrupted true s3
        ∧ apart (gdtr s3) (idtr s3) (tss s3) (esp0 - 84) esp0 ∧ gpr s3 ESP = gpr s ESP.
Proof.
  intros T Ht Hn Tb Hit Htop Hap.
  destruct (sys_in _ e e' s name _ esp0 T Ht Hn Tb Hit Htop Hap) as (n & s1 & k & Hr & I1 & I2 & I3 & Hn2 & Ht2 & Hk & Htk).
  exists s1, (frame_of (called s name n) 64 0 (esp0 - 44)), k. split; [done|]. split; [by split_and!|]. split; [done|].
  intros s2 v (J1 & J2 & J3 & J4 & J5 & Tb2 & Hap2 & Hv & Hw).
  destruct (sys_out e s name n k v s2 esp0 esp0 Hit Hn2 Htk Hk Htop J1 J2 J3 J4 J5 Tb2 Hw) as (s3 & Hr3 & K & Hm & K0).
  exists s3. pose proof (resumed_interrupted s s2 s3 n v Hit Hn2 Hv J5 K K0) as Hit3. injection K0 as _ -> -> ->.
  destruct K as (-> & _ & _ & K4 & _). rewrite Hm. split_and!; try done; [apply Hn2|by apply K4].
Qed.

Lemma exit_loop m0 e e' rest esp0 n : trap_text fetch sym vectors e → 96 ≤ esp0 < 2 ^ 32 - 8 → 0 ≤ usym "exit" →
  text_at fetch m0 (usym "exit") (I (movl (Imm (SYS "exit")) (R EAX)) :: I (int T_SYSCALL) :: I (jmp (usym "exit")) :: rest) e' →
  ∀ s, eip s = usym "exit" → tables vectors (gdtr s) (idtr s) (tss s) esp0 (ram s) → interrupted true s →
  apart (gdtr s) (idtr s) (tss s) (esp0 - 84) esp0 → exits n s esp0.
Proof.
  intros T Htop Hx Ht. induction n as [|n IH]; [done|]. intros s Hip Tb Hit Hap. rewrite <- Hip in Ht, Hx.
  destruct (sys_round _ e e' s "exit" _ esp0 T Ht Hx Tb Hit Htop Hap) as (s1 & f & k & Hr & Hc & _ & Hb).
  exists s1, f, k. split_and!; [done|done|]. intros s2 v H2. destruct (Hb s2 v H2) as (s3 & Hr3 & Hn3 & Ht3 & Tb3 & Hit3 & Hap3 & _).
  assert (Hc0 : sbase (seg s3 CS) = 0) by (by rewrite (it_cs _ _ Hit3)). clear Ht Hx.
  assert (Hu : is_u32 (usym "exit")) by (rewrite <- Hip; apply (it_u32 _ _ Hit)).
  destruct s3 as [g sg ip fl c gd id ts m io]. cbn [gpr seg eip eflags cr gdtr idtr tss ram ports] in *.
  to_head Hr3 Ht3. specialize (Hr3 _ eq_refl). eexists. split; [exact Hr3|]. cbn [set set_eip eip]. apply IH; cbn; try done.
  destruct Hit3 as [P1 P2 P3 P4 (P5 & P6 & P7)]. split; try done. split_and!; [cbn; by rewrite Hip|done..].
Qed.

Lemma initcode_data m e : text_at fetch m (usym "start") (initcode usym) e →
  ∃ ip, 0 < ip ∧ usym "exit" = usym "start" + ip
  ∧ usym "exit" < usym "init" ∧ usym "init" + 7 ≤ usym "argv" ∧ usym "argv" + 8 = e
  ∧ cstr m (usym "init") [47; 105; 110; 105; 116] ∧ load32 m (usym "argv") = u32 (usym "init") ∧ load32 m (usym "argv" + 4) = 0
  ∧ text_at fetch m (usym "exit") (drop 7 (initcode usym)) e.
Proof.
  intros (_ & n1 & P1 & _ & _ & n2 & P2 & _ & _ & n3 & P3 & _ & _ & n4 & P4 & _ & _ & n5 & P5 & _ & _ & Ex & Ht).
  exists (n1 + n2 + n3 + n4 + n5). rewrite <- Ex in Ht. pose proof Ht as Ht'.
  destruct Ht as (n6 & P6 & _ & _ & n7 & P7 & _ & _ & n8 & P8 & _ & _ & Ei & B0 & B1 & B2 & B3 & B4 & B5 & B6 & Ea & L1 & L2 & Ee).
  rewrite <- Ei in *. rewrite <- Ea in *. pose proof (Z.div_mod (usym "init" + 1 + 1 + 1 + 1 + 1 + 1 + 1 + 3) 4 ltac:(done)) as D.
  pose proof (Z.mod_pos_bound (usym "init" + 1 + 1 + 1 + 1 + 1 + 1 + 1 + 3) 4 ltac:(done)) as D'.
  assert (C : cstr m (usym "init") [47; 105; 110; 105; 116]) by (rewrite !cstr_cons, cstr_nil; by split_and!).
  cbn [text_at] in Ee. repeat (split; [done || lia|]). done.
Qed.

(** The three pushes of initcode. *)
Lemma initcode_pushes m0 e s : text_at fetch m0 (usym "start") (initcode usym) e → 0 ≤ usym "start" → interrupted true s → eip s = usym "start" →
  12 ≤ gpr s ESP → is_u32 (usym "init") → is_u32 (usym "argv") →
  ∃ s1, reaches fetch s s1 ∧ text_at fetch m0 (eip s1) (drop 4 (initcode usym)) e ∧ 0 ≤ eip s1 ∧ interrupted true s1
    ∧ gpr s1 ESP = gpr s ESP - 12 ∧ ram s1 = store_words (ram s) (gpr s ESP - 12) [0; usym "init"; usym "argv"]
    ∧ sys_regs s1 = sys_regs s.
Proof.
  intros [_ Ht] Hs [P1 P2 P3 P4 (P5 & P6 & P7)] Hip Hsp Hi Ha.
  assert (Hc0 : sbase (seg s CS) = 0) by (by rewrite P2). assert (Hs0 : sbase (seg s SS) = 0) by (by rewrite P3).
  assert (Husp := P7 ESP). unfold is_u32 in Husp.
  pose proof (reaches_refl fetch s) as Hr. destruct s as [g sg ip fl c gd id ts m io]. cbn [gpr seg eip ram eflags] in *. subst ip.
  do 3 head Hr Ht. stacked Hr m (g ESP). replace (g ESP - 4 - 4 - 4) with (g ESP - 12) in Hr by lia.
  eexists. split; [exact Hr|]. cbn [gpr seg eip ram]. split_and!; try done. split; try done. cbn. split_and!; [unfold is_u32; lia|done|].
  intros []; try apply P7. cbn. unfold is_u32; lia.
Qed.

(** C31: the first program runs /init. Loaded below the kernel stack and started
    with its stack above its text, initcode.S makes the system call exec with the
    stack of a call exec(init, argv): a return address, the address of the bytes
    of /init with a zero after them, and that of an array with the former and a
    zero. If exec comes back it calls exit, and calls it again however often
    exit comes back. *)
Theorem initcode_execs e e' s esp0 : trap_text fetch sym vectors e → 0 ≤ usym "start" →
  text_at fetch (ram s) (usym "start") (initcode usym) e' → eip s = usym "start" → interrupted true s →
  e' ≤ gpr s ESP - 12 → gpr s ESP ≤ esp0 - 84 → 96 ≤ esp0 < 2 ^ 32 - 8 →
  tables vectors (gdtr s) (idtr s) (tss s) esp0 (ram s) →
  apart (gdtr s) (idtr s) (tss s) (gpr s ESP - 12) (gpr s ESP) → apart (gdtr s) (idtr s) (tss s) (esp0 - 84) esp0 →
  ∃ s1 f k, reaches fetch s s1 ∧ sys_call s1 "exec" (gpr s ESP - 12) esp0 k f
    ∧ words_at (ram s1) (gpr s ESP - 12) [0; usym "init"; usym "argv"]
    ∧ cstr (ram s1) (usym "init") [47; 105; 110; 105; 116]
    ∧ words_at (ram s1) (usym "argv") [usym "init"; 0]
    ∧ ∀ s2 v, sys_back s2 v esp0 k f → ∃ s3, reaches fetch s2 s3 ∧ ∀ n, exits n s3 esp0.
Proof.
  intros T Hs Ht Hip Hit He Hsp Htop Tb Hap1 Hap2.
  destruct (initcode_data _ _ Ht) as (n & Hn & X0 & X1 & X2 & X3 & D1 & D2 & D3 & Htx).
  destruct (it_u32 _ _ Hit) as (_ & _ & Hu). pose proof (Hu ESP) as Husp. unfold is_u32 in Husp.
  assert (Hi : is_u32 (usym "init")) by (unfold is_u32; lia). assert (Ha : is_u32 (usym "argv")) by (unfold is_u32; lia).
  destruct (initcode_pushes _ _ s Ht Hs Hit Hip ltac:(lia) Hi Ha) as (s1 & Hr & Ht1 & Hn1 & Hit1 & Hsp1 & Hm1 & Hm2). injection Hm2 as _ E1 E2 E3.
  assert (Hfr : ∀ x, ¬ (gpr s ESP - 12 ≤ x < gpr s ESP) → ram s1 x = ram s x).
  { intros x Hx. rewrite Hm1. apply store_words_other. cbn [length]. lia. }
  destruct (sys_round _ e e' s1 "exec" _ esp0 T Ht1 Hn1) as (s2 & f & k & Hr2 & Hc & Hf2 & Hb); rewrite ?E1, ?E2, ?E3; try done.
  { by apply (tables_frame _ _ _ _ _ (ram s) _ (gpr s ESP - 12) (gpr s ESP)). }
  assert (Hlow : ∀ x, x < gpr s ESP - 12 → ram s2 x = ram s x) by (intros x Hx; rewrite Hf2, Hfr by lia; done).
  exists s2, f, k. rewrite Hsp1 in Hc. split; [by eapply reaches_trans|]. split; [done|]. split_and!.
  - apply (words_at_frame (ram s1)); [rewrite Hm1; apply store_words_at; rewrite !Forall_cons; split_and!; done|].
    intros x Hx. cbn [length] in Hx. apply Hf2. lia.
  - rewrite !cstr_cons, cstr_nil in *. by rewrite !Hlow by lia.
  - rewrite (u32_small _ Hi) in D2. apply (words_at_frame (ram s)); [by rewrite !words_at_cons|]. intros x Hx. cbn [length] in Hx. apply Hlow. lia.
  - intros s3 v H3. destruct (Hb s3 v H3) as (s4 & Hr4 & Hn4 & (Ex & Ht4) & Tb4 & Hit4 & Hap4 & _). exists s4. split; [done|]. intros j.
    exact (exit_loop _ e e' _ esp0 j T Htop ltac:(lia) Htx s4 (eq_sym Ex) Tb4 Hit4 Hap4).
Qed.
End Stubs.

(** ** Programs on the machine of Trapasm.v *)
Module Programs.
Import Machine.

(** The stub of write at 20480, called from 0. *)
Definition write_stub : list line := SYSCALL (λ _, 20480) "write".

Lemma stub_calls_witness : ∃ s1 f k, reaches (H := idle) (fetch (code_at 20480 write_stub)) user s1 ∧ eip s1 = 73728
  ∧ words_at (ram s1) (gpr s1 ESP) (k :: 32692 :: frame_words true f) ∧ t_eax f = 16 ∧ t_esp f = 24576.
Proof.
  destruct (stub_calls (H := idle) (fetch (code_at 20480 write_stub)) sym (λ _, 20480) vectors 69650 20483 user "write" 0 32768 (text _))
    as (s1 & f & k & Hr & E1 & Hw & E2 & _ & E3 & _).
  - lay_out.
  - done.
  - exact image_tables.
  - exact user_interrupted.
  - done.
  - done.
  - intros [|i] v Hv; [by injection Hv as <-|done].
  - lia.
  - unfold apart. cbn. lia.
  - exists s1, f, k. done.
Defined.

(** initcode at 20480. *)
Definition init_sym (x : string) : Z :=
  if String.eqb x "start" then 20480 else if String.eqb x "exit" then 20485 else if String.eqb x "init" then 20488 else 20496.
Definition init_image : memory := λ a,
  if (20480 <=? a) && (a <? 20504) then mem_of 20488 ([47; 105; 110; 105; 116; 0; 0; 0] ++ le 4 20488 ++ [0; 0; 0; 0]) a else image a.

Lemma initcode_execs_witness : ∃ s1 f k, reaches (H := idle) (fetch (code_at 20480 (initcode init_sym))) (user <| ram := init_image |>) s1
  ∧ sys_call sym s1 "exec" 24564 32768 k f ∧ cstr (ram s1) 20488 [47; 105; 110; 105; 116].
Proof.
  destruct (initcode_execs (H := idle) (fetch (code_at 20480 (initcode init_sym))) sym init_sym vectors 69650 20504 (user <| ram := init_image |>) 32768 (text _))
    as (s1 & f & k & Hr & Hc & _ & Hi & _).
  - done.
  - lay_out.
  - done.
  - destruct user_interrupted. by split.
  - cbn. lia.
  - cbn. lia.
  - lia.
  - apply (tables_frame _ _ _ _ _ image _ 20480 20504); [exact image_tables|unfold apart; cbn; lia|].
    intros x Hx. cbn. unfold init_image. destruct (Z.leb_spec 20480 x), (Z.ltb_spec x 20504); try done. lia.
  - unfold apart. cbn. lia.
  - unfold apart. cbn. lia.
  - exists s1, f, k. exact (conj Hr (conj Hc Hi)).
Defined.
End Programs.
