(* ===== verification/Mmu.v ===== *)
(** The memory management unit: the translation of the 80386 with pages of 4 KB
    and of 4 MB, over the page tables that vm.c builds and over the one of the
    boot (main.c). The translation is that of the tables in memory: what the CPU
    caches of them, and the accessed and dirty bits, which the kernel never reads,
    are left out. *)

From S2P Require Import Prelude Segs Types Strings Kalloc Vm Uvm Kvm Apic X86.
Import X86.

Definition PTE_PS : Z := 128.

(** Whether an entry lets an access pass. *)
Definition grants (s : state) (w u : bool) (e : Z) : bool :=
  has e PTE_P && (negb u || has e PTE_U) && (negb w || has e PTE_W || negb (u || Z.testbit (cr s CR0) 16)).

Definition translate (s : state) (w u : bool) (a : Z) : option Z :=
  if negb (Z.testbit (cr s CR0) 31) then Some a else
  let pde := load32 (ram s) (PTE_ADDR (cr s CR3) + 4 * PDX a) in
  if negb (grants s w u pde) then None else
  if has pde PTE_PS && Z.testbit (cr s CR4) 4 then Some (Z.land pde (2 ^ 32 - 2 ^ 22) + a mod 2 ^ 22) else
  let pte := load32 (ram s) (PTE_ADDR pde + 4 * PTX a) in
  if grants s w u pte then Some (PTE_ADDR pte + a mod PGSIZE) else None.

Definition paged : Mmu := {| xlat := translate |}.

Section Mmu.
Context {P : Platform} {PO : PlatformOk P}.

(** The CPU with the page directory [pgdir] loaded, on the memory of the kernel,
    which sees physical memory from KERNBASE on. *)
Record on_cpu (k : kernel) (pgdir : Z) (h : state) : Prop := {
  oc_pg : Z.testbit (cr h CR0) 31 = true;
  oc_wp : Z.testbit (cr h CR0) 16 = true;
  oc_cr3 : cr h CR3 = V2P pgdir;
  oc_ram : ∀ p, 0 ≤ p < PHYSTOP → ram h p = mem k (KERNBASE + p)
}.

Lemma grants_entry h pa fl w u : pa mod PGSIZE = 0 → 0 ≤ fl < PGSIZE →
  grants h w u (pa + fl) = grants h w u fl.
Proof. intros Hp Hf. unfold grants. by rewrite !has_flags. Qed.

(** The walk of the hardware is that of walkpgdir. *)
Lemma translate_entry k pgdir tabs h w u va : on_cpu k pgdir h → pt_rep (mem k) pgdir tabs → is_u32 va →
  let e := entry (mem k) tabs va in
  translate h w u va = if grants h w u e then Some (PTE_ADDR e + va mod PGSIZE) else None.
Proof.
  intros [Hpg Hwp Hcr Hram] Hpt Hva e. unfold translate. rewrite Hpg, Hcr. cbn [negb].
  pose proof (PDX_range va Hva) as Hi. pose proof (PTX_range va Hva) as Hk.
  assert (Hld : ∀ p j, page_ok p → 0 ≤ j < 1024 → load32 (ram h) (V2P p + 4 * j) = load32 (mem k) (p + 4 * j)).
  { intros p j Hp Hj. destruct (V2P_page p Hp) as (E & Ha & Hr). destruct Hp as (Hp & _ & _).
    pose proof (Z.div_mod (V2P p) PGSIZE ltac:(done)). unfold load32. rewrite !Hram by (unfold PHYSTOP, PGSIZE in *; lia).
    assert (A : ∀ i, KERNBASE + (V2P p + 4 * j + i) = p + 4 * j + i) by lia. rewrite !A. by replace (KERNBASE + (V2P p + 4 * j)) with (p + 4 * j) by lia. }
  destruct (V2P_page _ (pt_root _ _ _ Hpt)) as (_ & Hra & Hrr). pose proof (PTE_ADDR_flags (V2P pgdir) 0) as Er. rewrite Z.add_0_r in Er.
  rewrite Er, Hld, (pt_pde _ _ _ Hpt) by (done || apply Hpt || (unfold is_u32, PHYSTOP in *; lia)). unfold e, entry.
  destruct (tabs !! PDX va) as [t|] eqn:E.
  - destruct (pt_tab _ _ _ Hpt _ _ E) as (_ & Ht & _). destruct (V2P_page t Ht) as (_ & Hta & Htr).
    rewrite grants_entry, has_flags, PTE_ADDR_flags by (done || (unfold is_u32, PHYSTOP in *; lia)).
    rewrite Hld by done. replace (grants h w u 7) with true by (by destruct w, u). done.
  - by destruct w, u.
Qed.

(** The flags of the regions of the kernel, and where they lead. *)
Lemma region_entry r va : r ∈ kmap → is_u32 va → in_region r va →
  let '(virt, ps, pe, perm) := r in
  PTE_ADDR (region_pte r va) + va mod PGSIZE = ps + (va - virt) ∧ (perm = 0 ∨ perm = PTE_W)
  ∧ ∀ h w u, grants h w u (region_pte r va) = grants h w u (Z.lor perm PTE_P).
Proof.
  intros Hr Hva Hin. destruct kmap_ok as (Hok & _ & _). rewrite Forall_forall in Hok. specialize (Hok r Hr).
  assert (Hperm : r.2 = 0 ∨ r.2 = PTE_W).
  { unfold kmap in Hr. rewrite !elem_of_cons, elem_of_nil in Hr. repeat (destruct Hr as [->|Hr]); try done; cbn; auto. }
  destruct r as [[[virt ps] pe] perm], Hok as [[Hv Hva'] [Hp Hpa] [Hs Hsa] [He Hpe] _]. cbn [fst snd region_size] in *.
  unfold region_pte, in_region, page_of in *. cbn [region_size] in Hin.
  assert (Hfl : 0 ≤ Z.lor perm PTE_P < PGSIZE) by (by destruct Hperm as [-> | ->]).
  assert (Hal : (ps + (va - va mod PGSIZE - virt)) mod PGSIZE = 0).
  { replace (ps + (va - va mod PGSIZE - virt)) with (ps - virt + va / PGSIZE * PGSIZE) by (pose proof (Z_div_mod_eq_full va PGSIZE); lia).
    rewrite Z_mod_plus_full, Zminus_mod, Hpa, Hva'. done. }
  pose proof (Z.mod_pos_bound va PGSIZE ltac:(done)).
  split_and!; [|done|].
  - rewrite PTE_ADDR_flags; [lia| |done|done]. pose proof (Z_div_mod_eq_full va PGSIZE).
    pose proof (Z_div_mod_eq_full (ps + (va - va mod PGSIZE - virt)) PGSIZE). pose proof (Z_div_mod_eq_full virt PGSIZE). unfold is_u32, PGSIZE in *. lia.
  - intros h w u. by apply grants_entry.
Qed.

Lemma region_cases va (ks : list (Z * Z * Z * Z)) : (∃ r, r ∈ ks ∧ in_region r va) ∨ (∀ r, r ∈ ks → ¬ in_region r va).
Proof.
  induction ks as [|r ks [(r' & Hr & Hi)|IH]]; [right; by intros r ?%elem_of_nil|left; exists r'; split; [by right|done]|].
  assert (Hd : in_region r va ∨ ¬ in_region r va) by (destruct r as [[[virt p0] pe] perm]; unfold in_region; lia).
  destruct Hd as [Hd|Hd]; [left; exists r; split; [by left|done]|right]. intros r' [->|Hr']%elem_of_cons; auto.
Qed.

Lemma user_translate k pgdir tabs ps um h va w : as_inv k pgdir tabs ps um → kernel_half (mem k) tabs → on_cpu k pgdir h → is_u32 va →
  translate h w true va =
    match um !! vpn va with
    | Some (f, fl) => if has fl PTE_U && (negb w || has fl PTE_W) then Some (V2P f + va mod PGSIZE) else None
    | None => None
    end.
Proof.
  intros Has [Hin Hout] Hcpu Hva. destruct (as_vm _ _ _ _ _ Has) as (_ & _ & Hpt & _).
  rewrite (translate_entry k pgdir tabs h w true va Hcpu Hpt Hva). destruct (Z.ltb_spec va KERNBASE) as [Hlo|Hhi].
  - rewrite (as_entry _ _ _ _ _ Has) by (unfold is_u32 in Hva; lia). destruct (um !! vpn va) as [[f fl]|] eqn:E; [|by destruct w].
    destruct (as_frame _ _ _ _ _ Has _ _ _ E) as (_ & Hf & Hfl & Hp & _). destruct (V2P_page f Hf) as (_ & Ha & Hr).
    rewrite grants_entry, PTE_ADDR_flags; [|unfold is_u32, PHYSTOP, PGSIZE in *; lia|done..].
    unfold grants. rewrite Hp. by destruct w, (has fl PTE_U), (has fl PTE_W).
  - assert (E : um !! vpn va = None).
    { destruct (um !! vpn va) as [[f fl]|] eqn:E; [|done]. destruct (as_frame _ _ _ _ _ Has _ _ _ E) as (Hn & _).
      apply NUPAGES_vpn in Hn. lia. }
    rewrite E. destruct (region_cases va kmap) as [(r & Hr & Hi)|Hn].
    + rewrite (Hin va r Hva Hr Hi). pose proof (region_entry r va Hr Hva Hi) as Hre. destruct r as [[[virt p0] pe] perm].
      destruct Hre as (_ & [-> | ->] & ->); by destruct w.
    + rewrite (Hout va Hva Hhi Hn). by destruct w.
Qed.

End Mmu.

#[local] Existing Instance plat0.

(** The CPU with the page directory at the physical address [cr3], on the memory
    of [k]. *)
Definition cpu_on (k : kernel) (cr3 : Z) : state :=
  mkState (λ _, 0) (λ _, mkSegment 0 0 0) 0 2 (λ r, match r with CR0 => 2147549185 | CR3 => cr3 | CR4 => 16 end) (0, 0) (0, 0) 0
    (λ p, mem k (KERNBASE + p)) [].

