(* ===== verification/Entry.v ===== *)
(** From the BIOS to C: the boot block (bootasm.S), the entry of the kernel
    (entry.S) and that of the other CPUs (entryother.S), with the macros of asm.h
    and the page directory that they run on (main.c). *)

From S2P Require Import Prelude Segs Types Strings Kalloc Vm Apic X86 Asm Mmu.
Import Descriptors X86.

(** ** Text *)

Definition SEG_NULLASM : list line := [Word 0; Word 0; Byte 0; Byte 0; Byte 0; Byte 0].

Definition SEG_ASM (type base lim : Z) : list line := [
  Word (Z.land (Z.shiftr lim 12) 65535); Word (Z.land base 65535);
  Byte (Z.land (Z.shiftr base 16) 255); Byte (Z.lor 144 type);
  Byte (Z.lor 192 (Z.land (Z.shiftr lim 28) 15)); Byte (Z.land (Z.shiftr base 24) 255) ].

Section Text.
Context (sym : string → Z).

(** The table after the code of the boot block and of entryother.S. *)
Definition boot_gdt : list line :=
  [Align4; Label (sym "gdt")] ++ SEG_NULLASM ++ SEG_ASM (Z.lor STA_X STA_R) 0 (2 ^ 32 - 1) ++ SEG_ASM STA_W 0 (2 ^ 32 - 1) ++
  [Label (sym "gdtdesc"); Word (sym "gdtdesc" - sym "gdt" - 1); Long (sym "gdt")].

(** What the two have in common: *)
Definition zero_segments : list line := [
  I cli;
  I (xorw (R EAX) (R EAX));
  I (movw (R EAX) (Sr DS));
  I (movw (R EAX) (Sr ES));
  I (movw (R EAX) (Sr SS)) ].

Definition to_protected : list line := [
  I (lgdt (sym "gdtdesc"));
  I (movl (Cr CR0) (R EAX));
  I (orl (Imm CR0_PE) (R EAX));
  I (movl (R EAX) (Cr CR0));
  I (ljmp (Z.shiftl SEG_KCODE 3) (sym "start32"));
  Label (sym "start32");
  I (movw (Imm (Z.shiftl SEG_KDATA 3)) (R EAX));
  I (movw (R EAX) (Sr DS));
  I (movw (R EAX) (Sr ES));
  I (movw (R EAX) (Sr SS));
  I (movw (Imm 0) (R EAX));
  I (movw (R EAX) (Sr FS));
  I (movw (R EAX) (Sr GS)) ].

Definition bochs_break : list line := [
  I (movw (Imm 35328) (R EAX));
  I (movw (R EAX) (R EDX));
  I outw;
  I (movw (Imm 35552) (R EAX));
  I outw;
  Label (sym "spin");
  I (jmp (sym "spin")) ].

Definition bootasm : list line :=
  [Label (sym "start")] ++ zero_segments ++ [
  Label (sym "seta20.1");
  I (inb 100);
  I (testb (Imm 2) (R EAX));
  I (jnz (sym "seta20.1"));
  I (movb (Imm 209) (R EAX));
  I (outb 100);
  Label (sym "seta20.2");
  I (inb 100);
  I (testb (Imm 2) (R EAX));
  I (jnz (sym "seta20.2"));
  I (movb (Imm 223) (R EAX));
  I (outb 96) ] ++ to_protected ++ [
  I (movl (Imm (sym "start")) (R ESP));
  I (call (sym "bootmain")) ] ++ bochs_break ++ boot_gdt.

Definition entryother : list line :=
  [Label (sym "start")] ++ zero_segments ++ to_protected ++ [
  I (movl (Cr CR4) (R EAX));
  I (orl (Imm CR4_PSE) (R EAX));
  I (movl (R EAX) (Cr CR4));
  I (movl (Abs (sym "start" - 12)) (R EAX));
  I (movl (R EAX) (Cr CR3));
  I (movl (Cr CR0) (R EAX));
  I (orl (Imm (Z.lor CR0_PE (Z.lor CR0_PG CR0_WP))) (R EAX));
  I (movl (R EAX) (Cr CR0));
  I (movl (Abs (sym "start" - 4)) (R ESP));
  I (calli (Abs (sym "start" - 8))) ] ++ bochs_break ++ boot_gdt.

(** Linked at a high address, run at the physical one. *)
Definition V2P_WO (a : Z) : Z := a - KERNBASE.

Definition entry_text : list line := [
  Label (V2P_WO (sym "entry"));
  I (movl (Cr CR4) (R EAX));
  I (orl (Imm CR4_PSE) (R EAX));
  I (movl (R EAX) (Cr CR4));
  I (movl (Imm (V2P_WO (sym "entrypgdir"))) (R EAX));
  I (movl (R EAX) (Cr CR3));
  I (movl (Cr CR0) (R EAX));
  I (orl (Imm (Z.lor CR0_PG CR0_WP)) (R EAX));
  I (movl (R EAX) (Cr CR0));
  I (movl (Imm (sym "stack" + KSTACKSIZE)) (R ESP));
  I (movl (Imm (sym "main")) (R EAX));
  I (jmpi (R EAX)) ].
End Text.

(** The page directory of the boot. *)
Definition entrypgdir : list Z :=
  <[Z.to_nat (Z.shiftr KERNBASE PDXSHIFT) := Z.lor (Z.lor (Z.lor 0 PTE_P) PTE_W) PTE_PS]>
  (<[0%nat := Z.lor (Z.lor (Z.lor 0 PTE_P) PTE_W) PTE_PS]> (replicate (Z.to_nat NPDENTRIES) 0)).

Definition SUPER : Z := 4 * 1024 * 1024.

(** What it maps: the first 4 MB, twice, for the kernel only. *)
Definition boot_map (u : bool) (a : Z) : option Z :=
  if u then None else if a <? SUPER then Some a
  else if (KERNBASE <=? a) && (a <? KERNBASE + SUPER) then Some (a - KERNBASE) else None.

Lemma entrypgdir_lookup i : 0 ≤ i < 1024 → entrypgdir !! Z.to_nat i = Some (if (i =? 0) || (i =? 512) then 131 else 0).
Proof.
  intros Hi. unfold entrypgdir. change (Z.to_nat (Z.shiftr KERNBASE PDXSHIFT)) with 512%nat.
  destruct (Z.eqb_spec i 512) as [->|H1]; [by vm_compute|]. rewrite list_lookup_insert_ne by lia.
  destruct (Z.eqb_spec i 0) as [->|H2]; [by vm_compute|]. rewrite list_lookup_insert_ne by lia.
  apply lookup_replicate_2. unfold NPDENTRIES. lia.
Qed.

Lemma boot_translate h pd : words_at (ram h) pd entrypgdir → PTE_ADDR (cr h CR3) = pd → Z.testbit (cr h CR0) 31 = true → Z.testbit (cr h CR4) 4 = true →
  ∀ w u a, is_u32 a → translate h w u a = boot_map u a.
Proof.
  intros Hw Hcr Hpg Hpse w u a Ha. unfold translate. rewrite Hpg, Hcr. cbn [negb].
  pose proof (PDX_range a Ha) as Hi. specialize (Hw _ _ (entrypgdir_lookup _ Hi)). rewrite Z2Nat.id in Hw by lia. rewrite Hw, Hpse. clear Hw.
  rewrite PDX_div in * by done. unfold boot_map, SUPER, KERNBASE. pose proof (Z.div_mod a (2 ^ 22) ltac:(done)). pose proof (Z.mod_pos_bound a (2 ^ 22) ltac:(done)).
  destruct u; [by destruct ((a / 2 ^ 22 =? 0) || (a / 2 ^ 22 =? 512)), w|].
  destruct (Z.eqb_spec (a / 2 ^ 22) 0) as [E|E]; [|destruct (Z.eqb_spec (a / 2 ^ 22) 512) as [E2|E2]]; cbn [orb].
  - replace (negb (grants h w false 131)) with false by (by destruct w). change (has 131 PTE_PS) with true. change (Z.land 131 _) with 0. cbn [andb]. rewrite (proj2 (Z.ltb_lt _ _)) by lia. f_equal. lia.
  - replace (negb (grants h w false 131)) with false by (by destruct w). change (has 131 PTE_PS) with true. change (Z.land 131 _) with 0. cbn [andb]. rewrite (proj2 (Z.ltb_ge _ _)) by lia.
    rewrite (proj2 (Z.leb_le _ _)), (proj2 (Z.ltb_lt _ _)) by lia. cbn [andb]. f_equal. lia.
  - replace (negb (grants h w false 0)) with true by (by destruct w). rewrite (proj2 (Z.ltb_ge _ _)) by lia.
    destruct (Z.leb_spec 2147483648 a), (Z.ltb_spec a (2147483648 + 4 * 1024 * 1024)); cbn [andb]; try done. lia.
Qed.

(** ** Running it *)

Section Run.
Context {H : Hardware} (fetch : Z → option (instr * Z)) (sym : string → Z).
#[local] Existing Instance paged.

(** The instruction at the head of a text that lies at its physical address. *)
Lemma step_code g sg ip fl c gd id ts m io cb m0 i l e :
  sbase (sg CS) = cb → 0 ≤ ip → 0 ≤ cb → text_at fetch m0 (cb + ip) (I i :: l) e →
  (let s := mkState g sg ip fl c gd id ts m io in translate s false (user s) (cb + ip) = Some (cb + ip)) →
  ∃ n, 0 ≤ n ∧ cb + n < 2 ^ 32 ∧ text_at fetch m0 (cb + n) l e
    ∧ step fetch (mkState g sg ip fl c gd id ts m io) = exec i (mkState g sg n fl c gd id ts m io).
Proof.
  intros Hcb H1 H2 (n & H3 & H4 & Hf & Ht) Hx. exists (ip + n). split; [lia|]. split; [lia|]. split; [by rewrite Z.add_assoc|]. unfold step.
  assert (El : lin (mkState g sg ip fl c gd id ts m io) CS ip = cb + ip).
  { unfold lin. cbn [seg]. rewrite Hcb, !u32_small by (unfold is_u32; rewrite ?u32_small; unfold is_u32; lia). done. }
  cbn [eip]. rewrite El. cbn [xlat paged]. rewrite Hx. cbn [mbind option_bind]. rewrite Hf. cbn [mbind option_bind].
  rewrite u32_small by (unfold is_u32; lia). by rewrite set_eip_mk.
Qed.

Lemma reaches_code s0 g sg ip fl c gd id ts m io cb m0 i l e : reaches fetch s0 (mkState g sg ip fl c gd id ts m io) →
  sbase (sg CS) = cb → 0 ≤ ip → 0 ≤ cb → text_at fetch m0 (cb + ip) (I i :: l) e →
  (let s := mkState g sg ip fl c gd id ts m io in translate s false (user s) (cb + ip) = Some (cb + ip)) →
  ∃ n, 0 ≤ n ∧ cb + n < 2 ^ 32 ∧ text_at fetch m0 (cb + n) l e ∧ ∀ s1, exec i (mkState g sg n fl c gd id ts m io) = Some s1 → reaches fetch s0 s1.
Proof.
  intros Hr Hcb H1 H2 Ht Hx. destruct (step_code g sg ip fl c gd id ts m io cb m0 i l e Hcb H1 H2 Ht Hx) as (n & Hn & Hn2 & Ht' & Hst).
  exists n. split_and!; [done|done|done|]. intros s1 He. eapply reaches_trans; [exact Hr|]. exists 1%nat. cbn [steps]. by rewrite Hst, He.
Qed.

Lemma text_le m0 l : ∀ a e, text_at fetch m0 a l e → a ≤ e.
Proof.
  induction l as [|x l IH]; cbn [text_at]; intros a e Ht; [lia|]. destruct x.
  - destruct Ht as [-> Ht]. by apply IH.
  - destruct Ht as (n & ? & _ & _ & Ht). apply IH in Ht. lia.
  - destruct Ht as [_ Ht]. apply IH in Ht. lia.
  - destruct Ht as [_ Ht]. apply IH in Ht. lia.
  - destruct Ht as [_ Ht]. apply IH in Ht. lia.
  - apply IH in Ht. pose proof (Z.div_mod (a + 3) 4 ltac:(done)). pose proof (Z.mod_pos_bound (a + 3) 4 ltac:(done)). lia.
Qed.

(** Paging is off, or the one of the boot. *)
Lemma translate_off h w u a : Z.testbit (cr h CR0) 31 = false → translate h w u a = Some a.
Proof. intros E. unfold translate. by rewrite E. Qed.

(** ** Instructions on a state in parts *)

Lemma get_cr_mk r g sg ip fl c gd id ts m io : get (Cr r) (mkState g sg ip fl c gd id ts m io) = Some (c r).
Proof. done. Qed.

Lemma assign_cr_mk r v g sg ip fl c gd id ts m io : cpl (mkState g sg ip fl c gd id ts m io) = 0 →
  assign (Cr r) v (mkState g sg ip fl c gd id ts m io) = Some (mkState g sg ip fl (putc r v c) gd id ts m io).
Proof. intros E. unfold assign. by rewrite E. Qed.

Lemma set_eflags_mk f g sg ip fl c gd id ts m io :
  (mkState g sg ip fl c gd id ts m io) <| eflags ::= f |> = mkState g sg ip (f fl) c gd id ts m io.
Proof. done. Qed.

Lemma cpl_mk g sg ip fl c gd id ts m io : Z.land (sel (sg CS)) 3 = 0 → cpl (mkState g sg ip fl c gd id ts m io) = 0.
Proof. intros E. unfold cpl. destruct (protected _); [exact E|done]. Qed.

Lemma user_mk g sg ip fl c gd id ts m io : Z.land (sel (sg CS)) 3 = 0 → user (mkState g sg ip fl c gd id ts m io) = false.
Proof. intros E. unfold user. by rewrite cpl_mk. Qed.

Lemma text_lt m0 a i l e : text_at fetch m0 a (I i :: l) e → a < e.
Proof. intros (n & Hn & _ & _ & Ht). apply text_le in Ht. lia. Qed.

(** The page directory of the boot, loaded. *)
Definition boot_paged (s : state) (pd : Z) : Prop :=
  words_at (ram s) pd entrypgdir ∧ PTE_ADDR (cr s CR3) = pd ∧ Z.testbit (cr s CR0) 31 = true ∧ Z.testbit (cr s CR4) 4 = true
  ∧ Z.land (sel (seg s CS)) 3 = 0.

Lemma boot_fetch s pd a : boot_paged s pd → 0 ≤ a < SUPER → translate s false (user s) a = Some a.
Proof.
  intros (H1 & H2 & H3 & H4 & H5) Ha. rewrite (boot_translate s pd); [|done..|unfold is_u32, SUPER in *; lia].
  unfold user, cpl. unfold boot_map. destruct (protected s); [rewrite H5|]; cbn [Z.eqb]; by rewrite (proj2 (Z.ltb_lt _ _)) by lia.
Qed.

Lemma page_addr p : is_u32 p → p mod PGSIZE = 0 → PTE_ADDR p = p.
Proof. intros Hp Ha. pose proof (PTE_ADDR_flags p 0) as E. rewrite Z.add_0_r in E. by apply E. Qed.

(** What reaches_code asks of the translation. *)
Ltac fetched Ht := regs; first [apply translate_off; cbn [cr putc creg_eqb]; rewrite ?Z.lor_spec; solve [assumption] 
    | eapply boot_fetch; [solve [eauto]|split; [lia|apply text_lt in Ht; lia]]
    | match goal with Hf : ∀ s' a, seg s' = _ → _ |- _ => apply Hf; [done|done|done|split; [lia|apply text_lt in Ht; lia]] end].
Ltac code_head Hr Ht :=
  eapply reaches_code in Hr; [|regs; cbn [sbase]; first [eassumption|reflexivity]|assumption|assumption|exact Ht|cbv zeta; fetched Ht];
  let n := fresh "ip" in let Hn := fresh "Hip" in let Hm := fresh "Hip" in clear Ht; destruct Hr as (n & Hn & Hm & Ht & Hr).
Ltac cpu_operand :=
  first [ rewrite get_cr_mk | rewrite get_reg_mk | rewrite get_imm_mk by side | rewrite set_eflags_mk
        | rewrite assign_cr_mk by (apply cpl_mk; regs; assumption) | rewrite assign_reg_mk ]; cbn [mbind option_bind].
Ltac code Hr Ht :=
  code_head Hr Ht;
  lazymatch type of Hr with
  | ∀ s1, exec ?i ?s = Some s1 → _ =>
      let E := fresh "E" in
      eassert (E : exec i s = Some _); [unfold exec; repeat cpu_operand; regs; rewrite ?set_eip_mk; reflexivity|];
      apply Hr in E; clear Hr; rename E into Hr
  end.

(** C22: the kernel enters main. Started in protected mode without paging at the
    physical address of its entry point, with entrypgdir in memory, entry.S gets
    to main with paging on: the first 4 MB are where they were and from KERNBASE
    on, for the kernel only, and nothing else is mapped. The stack is the one of
    entry.S and no memory has changed. *)
Theorem entry_enters_main e s : text_at fetch (ram s) (V2P_WO (sym "entry")) (entry_text sym) e → e ≤ SUPER →
  KERNBASE ≤ sym "entry" → KERNBASE ≤ sym "entrypgdir" < KERNBASE + SUPER → sym "entrypgdir" mod PGSIZE = 0 →
  is_u32 (sym "main") → is_u32 (sym "stack" + KSTACKSIZE) →
  words_at (ram s) (V2P_WO (sym "entrypgdir")) entrypgdir →
  eip s = V2P_WO (sym "entry") → protected s = true → Z.testbit (cr s CR0) 31 = false → sbase (seg s CS) = 0 → cpl s = 0 →
  ∃ s', reaches fetch s s' ∧ eip s' = sym "main" ∧ gpr s' ESP = sym "stack" + KSTACKSIZE
    ∧ (∀ w u a, is_u32 a → translate s' w u a = boot_map u a) ∧ ram s' = ram s ∧ seg s' = seg s ∧ protected s' = true.
Proof.
  intros Ht He H1 H2 Hal Hm Hst Hpd Hip Hpe Hpg Hcs Hcpl. unfold V2P_WO in *.
  assert (Hrpl : Z.land (sel (seg s CS)) 3 = 0) by (unfold cpl in Hcpl; by rewrite Hpe in Hcpl).
  pose proof (reaches_refl fetch s) as Hr. destruct s as [g sg ip fl c gd id ts m io]. unfold protected in *. cbn [eip seg cr ram gpr] in *. subst ip.
  destruct Ht as [_ Ht]. set (p := sym "entry" - KERNBASE) in *. assert (Hp : 0 ≤ p) by (unfold p; lia). clearbody p. pose (cb := 0).
  assert (Hcb : 0 ≤ cb) by (unfold cb; lia). change p with (cb + p) in Ht. change (sbase (sg CS) = cb) in Hcs.
  clearbody cb.
  set (pd := sym "entrypgdir" - KERNBASE) in *. assert (Hpdu : is_u32 pd) by (unfold pd, is_u32, SUPER, KERNBASE in *; lia).
  assert (Hpda : PTE_ADDR pd = pd) by (apply page_addr; [done|]; unfold pd; by rewrite Zminus_mod, Hal).
  do 8 code Hr Ht.
  match type of Hr with reaches _ _ (mkState _ _ _ _ ?c' _ _ _ _ _) => set (c2 := c') in * end.
  assert (Hb : ∀ g ip fl, boot_paged (mkState g sg ip fl c2 gd id ts m io) pd).
  { intros. unfold boot_paged. cbn [ram cr seg c2 putc creg_eqb]. rewrite !Z.lor_spec. change (PTE_ADDR (V2P_WO _)) with (PTE_ADDR pd). by rewrite Hpda. }
  assert (Hpe2 : Z.testbit (c2 CR0) 0 = true) by (unfold c2; cbn [putc creg_eqb]; by rewrite Z.lor_spec, Hpe, orb_true_r).
  clearbody c2. do 3 code Hr Ht. eexists. split; [exact Hr|]. split_and!; try done.
  intros w u a Ha. destruct (Hb g 0 0) as (B1 & B2 & B3 & B4 & _). by apply (boot_translate _ pd).
Qed.

(** ** Flags and low halves *)

Lemma flag_bit mask b fl i : 0 ≤ i → Z.testbit (flag mask b fl) i = if Z.testbit mask i then b else Z.testbit fl i.
Proof.
  intros Hi. unfold flag, clear. destruct b; [rewrite Z.lor_spec|rewrite Z.land_spec, Z.lnot_spec by done];
    destruct (Z.testbit mask i), (Z.testbit fl i); done.
Qed.

Lemma logic_flags_bit n v fl i : 0 ≤ i → Z.testbit (logic_flags n v fl) i =
  if Z.testbit (Z.lor FL_CF FL_OF) i then false else
  if Z.testbit FL_ZF i then v mod 2 ^ n =? 0 else
  if Z.testbit FL_SF i then Z.testbit v (n - 1) else
  if Z.testbit FL_PF i then negb (foldl xorb false (map (λ i, Z.testbit v (Z.of_nat i)) (seq 0 8))) else Z.testbit fl i.
Proof.
  intros Hi. unfold logic_flags, result_flags. change (clear ?m ?f) with (flag m false f). by rewrite !flag_bit by done.
Qed.

Lemma low_half n x v : 0 ≤ n → (x / 2 ^ n * 2 ^ n + v mod 2 ^ n) mod 2 ^ n = v mod 2 ^ n.
Proof. intros Hn. rewrite Z.add_comm, Z_mod_plus_full. apply Z.mod_mod. apply Z.pow_nonzero; lia. Qed.

(** ** The steps of the two boot blocks *)

Lemma load_real_mk r v g sg ip fl c gd id ts m io : Z.testbit (c CR0) 0 = false →
  load_seg r v (mkState g sg ip fl c gd id ts m io) = Some (mkState g (puts r (mkSegment (u16 v) (16 * u16 v) 0) sg) ip fl c gd id ts m io).
Proof. intros E. unfold load_seg, protected. cbn [cr]. by rewrite E. Qed.

Lemma movw_sr_real_mk r v g sg ip fl c gd id ts m io : Z.testbit (c CR0) 0 = false → r ≠ CS → u16 (g EAX) = v →
  exec (movw (R EAX) (Sr r)) (mkState g sg ip fl c gd id ts m io) = Some (mkState g (puts r (mkSegment v (16 * v) 0) sg) ip fl c gd id ts m io).
Proof.
  intros E Hr Hv. unfold exec. rewrite get_reg_mk. cbn [mbind option_bind]. unfold assign_low, assign.
  assert (Hu : u16 (u16 (g EAX)) = v) by (rewrite Hv in *; rewrite <- Hv; unfold u16; by rewrite Z.mod_mod).
  destruct r; try done; rewrite load_real_mk by done; by rewrite Hu.
Qed.

Lemma zero_run s0 g sg ip fl c gd id ts m io cb m0 l e : reaches fetch s0 (mkState g sg ip fl c gd id ts m io) →
  Z.testbit (c CR0) 0 = false → Z.testbit (c CR0) 31 = false → sbase (sg CS) = cb → 0 ≤ ip → 0 ≤ cb →
  text_at fetch m0 (cb + ip) (zero_segments ++ l) e →
  let z := mkSegment 0 0 0 in
  ∃ g' ip' fl', 0 ≤ ip' ∧ text_at fetch m0 (cb + ip') l e ∧ Z.testbit fl' 9 = false
    ∧ reaches fetch s0 (mkState g' (puts SS z (puts ES z (puts DS z sg))) ip' fl' c gd id ts m io).
Proof.
  intros Hr Hpe Hpg Hcs Hip Hcb Ht z. cbn [app zero_segments] in Ht.
  code_head Hr Ht. specialize (Hr _ eq_refl). rewrite set_eflags_mk in Hr.
  code_head Hr Ht. unfold exec in Hr. rewrite get_reg_mk in Hr. cbn [mbind option_bind] in Hr. rewrite set_eflags_mk, assign_low_reg_mk in Hr.
  specialize (Hr _ eq_refl). rewrite Z.lxor_nilpotent in Hr.
  assert (E0 : u16 (put EAX (g EAX / 2 ^ 16 * 2 ^ 16 + 0 mod 2 ^ 16) g EAX) = 0) by (cbn [put reg_eqb]; unfold u16; by rewrite low_half).
  code_head Hr Ht. specialize (Hr _ (movw_sr_real_mk DS _ _ _ _ _ _ _ _ _ _ _ Hpe ltac:(discriminate) E0)).
  code_head Hr Ht. specialize (Hr _ (movw_sr_real_mk ES _ _ _ _ _ _ _ _ _ _ _ Hpe ltac:(discriminate) E0)).
  code_head Hr Ht. specialize (Hr _ (movw_sr_real_mk SS _ _ _ _ _ _ _ _ _ _ _ Hpe ltac:(discriminate) E0)).
  eexists _, _, _. split; [|split; [exact Ht|split; [|exact Hr]]]; [done|].
  rewrite logic_flags_bit by done. change (Z.testbit (clear FL_IF fl) 9 = false). unfold clear. rewrite Z.land_spec. apply andb_false_r.
Qed.

#[local] Transparent rd32 wr32 push.

Lemma rd32_off u s a : Z.testbit (cr s CR0) 31 = false → 0 ≤ a → a + 4 ≤ 2 ^ 32 → rd32 u s a = Some (load32 (ram s) a).
Proof.
  intros E H1 H2. unfold rd32, rd8. cbn [xlat paged]. rewrite !translate_off by done. cbn [mbind option_bind]. unfold u32.
  by rewrite !Z.mod_small by lia.
Qed.

Lemma rd16_off u s a : Z.testbit (cr s CR0) 31 = false → 0 ≤ a → a + 2 ≤ 2 ^ 32 → rd16 u s a = Some (ram s a + ram s (a + 1) * 2 ^ 8).
Proof.
  intros E H1 H2. unfold rd16, rd8. cbn [xlat paged]. rewrite !translate_off by done. cbn [mbind option_bind]. unfold u32.
  by rewrite !Z.mod_small by lia.
Qed.

(** What boot_gdt leaves in memory. *)
Record gdt_at (m : memory) (gdt : Z) : Prop := {
  ga_range : 0 ≤ gdt < 2 ^ 16;
  ga_code : load64 m (gdt + 8) = 58434644969848831;
  ga_data : load64 m (gdt + 16) = 58425848876826623;
  ga_limit : m (gdt + 24) + m (gdt + 24 + 1) * 2 ^ 8 = 23;
  ga_base : load32 m (gdt + 24 + 2) = gdt
}.

Lemma gdt_data m a e : text_at fetch m a (boot_gdt sym) e → 0 ≤ a → e ≤ 2 ^ 16 → gdt_at m (sym "gdt") ∧ sym "gdtdesc" = sym "gdt" + 24 ∧ a ≤ sym "gdt" ∧ sym "gdt" + 30 = e.
Proof.
  intros Ht Ha He. cbn [boot_gdt SEG_NULLASM SEG_ASM app text_at] in Ht.
  destruct Ht as (Eg & _ & _ & _ & _ & _ & _ & W1 & W2 & B1 & B2 & B3 & B4 & X1 & X2 & Y1 & Y2 & Y3 & Y4 & Ed & D1 & D2 & Ee).
  pose proof (Z.div_mod (a + 3) 4 ltac:(done)). pose proof (Z.mod_pos_bound (a + 3) 4 ltac:(done)).
  rewrite <- Eg in *. set (gdt := sym "gdt") in *. assert (Hd : sym "gdtdesc" = gdt + 24) by lia. rewrite Hd in *.
  replace (gdt + 24 - gdt - 1) with 23 in D1 by lia. rewrite u32_small in D2 by (unfold is_u32; lia).
  split; [|lia]. unfold load32 in D2. rewrite <- !Z.add_assoc in *.
  repeat match goal with H : context [gdt + (?x + ?y)] |- _ => let c := eval vm_compute in (x + y) in change (gdt + (x + y)) with (gdt + c) in H end.
  split; [lia| | | |]; unfold load64, load32; rewrite <- ?Z.add_assoc;
    repeat match goal with |- context [gdt + (?x + ?y)] => let c := eval vm_compute in (x + y) in change (gdt + (x + y)) with (gdt + c) end.
  - change (u16 _) with 65535 in W1. change (u16 _) with 0 in W2. change (u8 _) with 0 in B1, B4. change (u8 _) with 154 in B2. change (u8 _) with 207 in B3. lia.
  - change (u16 _) with 65535 in X1. change (u16 _) with 0 in X2. change (u8 _) with 0 in Y1, Y4. change (u8 _) with 146 in Y2. change (u8 _) with 207 in Y3. lia.
  - exact D1.
  - exact D2.
Qed.

(** The loads from that table. *)
Lemma load_boot_mk r v g sg ip fl c id ts m io gdt : Z.testbit (c CR0) 0 = true → Z.testbit (c CR0) 31 = false → gdt_at m gdt →
  Z.land (sel (sg CS)) 3 = 0 → match r with CS => v = 8 | FS | GS => v = 0 | _ => v = 16 end →
  load_seg r v (mkState g sg ip fl c (gdt, 23) id ts m io)
  = Some (mkState g (puts r (mkSegment v 0 (if v =? 0 then 3 else 0)) sg) ip fl c (gdt, 23) id ts m io).
Proof.
  intros Hpe Hpg [Hg Hcode Hdata _ _] Hcpl Hv. set (s := mkState g sg ip fl c (gdt, 23) id ts m io).
  assert (Hd : ∀ o, 0 ≤ o ≤ 16 → rd64 false s (u32 (gdt + o)) = Some (load64 m (gdt + o))).
  { intros o Ho. rewrite (u32_small (gdt + o)) by (unfold is_u32; lia). unfold rd64. rewrite (rd32_off _ s (gdt + o)) by (done || lia). cbn [mbind option_bind].
    rewrite (u32_small (gdt + o + 4)) by (unfold is_u32; lia). by rewrite (rd32_off _ s) by (done || lia). }
  assert (Hc : cpl s = 0) by (by apply cpl_mk). assert (Hp : protected s = true) by done.
  assert (D8 : desc s 8 = Some (load64 m (gdt + 8))) by exact (Hd 8 ltac:(lia)).
  assert (D16 : desc s 16 = Some (load64 m (gdt + 16))) by exact (Hd 16 ltac:(lia)).
  rewrite Hcode in D8. rewrite Hdata in D16. unfold load_seg. rewrite Hp. cbn [negb]. destruct r; subst v; try done.
  all: change (u16 ?v) with v; first [rewrite D8|rewrite D16]; cbn [mbind option_bind]; unfold loadable; rewrite ?Hc; done.
Qed.

Lemma movw_sr_boot_mk r v g sg ip fl c id ts m io gdt : Z.testbit (c CR0) 0 = true → Z.testbit (c CR0) 31 = false → gdt_at m gdt →
  Z.land (sel (sg CS)) 3 = 0 → u16 (g EAX) = v → match r with CS => False | FS | GS => v = 0 | _ => v = 16 end →
  exec (movw (R EAX) (Sr r)) (mkState g sg ip fl c (gdt, 23) id ts m io)
  = Some (mkState g (puts r (mkSegment v 0 (if v =? 0 then 3 else 0)) sg) ip fl c (gdt, 23) id ts m io).
Proof.
  intros Hpe Hpg Hg Hcpl Hv Hr. unfold exec. rewrite get_reg_mk. cbn [mbind option_bind]. rewrite Hv. unfold assign_low, assign.
  destruct r; try done; by apply load_boot_mk.
Qed.

Lemma movw_imm_mk v g sg ip fl c gd id ts m io : 0 ≤ v < 2 ^ 16 →
  exec (movw (Imm v) (R EAX)) (mkState g sg ip fl c gd id ts m io) = Some (mkState (put EAX (g EAX / 2 ^ 16 * 2 ^ 16 + v) g) sg ip fl c gd id ts m io).
Proof.
  intros Hv. unfold exec. rewrite get_imm_mk by (unfold is_u32; lia). cbn [mbind option_bind]. rewrite assign_low_reg_mk.
  unfold u16. by rewrite Z.mod_mod, Z.mod_small by lia.
Qed.

Lemma movw_imm_low x v : 0 ≤ v < 2 ^ 16 → u16 (x / 2 ^ 16 * 2 ^ 16 + v) = v.
Proof. intros Hv. pose proof (low_half 16 x v ltac:(lia)) as E. rewrite !(Z.mod_small v) in E by lia. exact E. Qed.

(** The segments after the boot. *)
Definition boot_seg (r : sreg) : segment :=
  match r with CS => mkSegment 8 0 0 | FS | GS => mkSegment 0 0 3 | _ => mkSegment 16 0 0 end.

Lemma lgdt_mk g sg ip fl c gd id ts m io gdt : Z.testbit (c CR0) 31 = false → gdt_at m gdt → sbase (sg DS) = 0 →
  exec (lgdt (gdt + 24)) (mkState g sg ip fl c gd id ts m io) = Some (mkState g sg ip fl c (gdt, 23) id ts m io).
Proof.
  intros Hpg [Hg _ _ Hl Hb] Hds. unfold exec. rewrite !lin_flat by (done || (unfold is_u32; lia)).
  rewrite (rd16_off _ _ (gdt + 24)) by (done || lia). cbn [mbind option_bind]. rewrite (rd32_off _ _ (gdt + 24 + 2)) by (done || lia). cbn [mbind option_bind ram].
  rewrite Hl, Hb, Z.mod_small by lia. done.
Qed.

(** A segment register loaded with [v] from %ax. *)
Ltac load_next Hr Ht v :=
  code_head Hr Ht;
  lazymatch type of Hr with
  | ∀ s1, exec (movw _ (Sr ?r)) (mkState ?g ?sg ?ip ?fl ?c (?gdt, _) ?id ?ts ?m ?io) = Some s1 → _ =>
      let E := fresh "E" in
      assert (E := movw_sr_boot_mk r v g sg ip fl c id ts m io gdt ltac:(assumption) ltac:(assumption) ltac:(assumption) eq_refl
                     (movw_imm_low _ v ltac:(lia)) eq_refl);
      apply Hr in E; clear Hr; rename E into Hr
  end.

Lemma protected_run s0 g sg ip fl c gd id ts m io cb m0 l e : reaches fetch s0 (mkState g sg ip fl c gd id ts m io) →
  Z.testbit (c CR0) 0 = false → Z.testbit (c CR0) 31 = false → sbase (sg CS) = cb → Z.land (sel (sg CS)) 3 = 0 → sbase (sg DS) = 0 → 0 ≤ ip → 0 ≤ cb →
  gdt_at m (sym "gdt") → sym "gdtdesc" = sym "gdt" + 24 → text_at fetch m0 (cb + ip) (to_protected sym ++ l) e →
  ∃ g' sg' ip' fl', 0 ≤ ip' ∧ text_at fetch m0 ip' l e ∧ Z.testbit fl' 9 = Z.testbit fl 9 ∧ (∀ r, r ≠ EAX → g' r = g r) ∧ (∀ r, sg' r = boot_seg r)
    ∧ reaches fetch s0 (mkState g' sg' ip' fl' (putc CR0 (Z.lor CR0_PE (c CR0)) c) (sym "gdt", 23) id ts m io).
Proof.
  intros Hr Hpe Hpg Hcs Hrpl Hds Hip Hcb Hg Hd Ht. cbn [app to_protected] in Ht. rewrite Hd in Ht.
  code_head Hr Ht. specialize (Hr _ (lgdt_mk _ _ _ _ _ _ _ _ _ _ _ Hpg Hg Hds)). do 3 code Hr Ht.
  match type of Hr with reaches _ _ (mkState _ _ _ ?f ?c' _ _ _ _ _) => set (c2 := c') in *; set (fl2 := f) in * end.
  assert (Hpe2 : Z.testbit (c2 CR0) 0 = true) by (unfold c2; cbn [putc creg_eqb]; by rewrite Z.lor_spec).
  assert (Hpg2 : Z.testbit (c2 CR0) 31 = false) by (unfold c2; cbn [putc creg_eqb]; by rewrite Z.lor_spec, Hpg).
  assert (Hif : Z.testbit fl2 9 = Z.testbit fl 9) by (unfold fl2; by rewrite logic_flags_bit).
  change (putc CR0 (Z.lor CR0_PE (c CR0)) c) with c2. clearbody c2 fl2.
  code_head Hr Ht. destruct Ht as [Es Ht]. unfold exec in Hr.
  change (Z.shiftl SEG_KCODE 3) with 8 in Hr. rewrite (load_boot_mk CS 8) with (gdt := sym "gdt") in Hr by done. cbn [mbind option_bind] in Hr.
  specialize (Hr _ eq_refl). rewrite set_eip_mk in Hr. rewrite Es in Hr.
  match type of Hr with reaches _ _ (mkState _ _ ?q' _ _ _ _ _ _ _) => set (q := q') in *; assert (Hq : 0 ≤ q) by (unfold q; lia) end. clearbody q.
  change q with (0 + q) in Ht. assert (H0 : 0 ≤ 0) by done.
  code_head Hr Ht. specialize (Hr _ (movw_imm_mk 16 _ _ _ _ _ _ _ _ _ _ ltac:(lia))).
  do 3 load_next Hr Ht 16.
  code_head Hr Ht. specialize (Hr _ (movw_imm_mk 0 _ _ _ _ _ _ _ _ _ _ ltac:(lia))). do 2 load_next Hr Ht 0.
  eexists _, _, _, fl2. split; [|split; [exact Ht|split; [done|split; [|split; [|exact Hr]]]]]; [done|by intros []|by intros []].
Qed.

(** ** The keyboard controller *)

Definition busy (io : list ioev) : bool := Z.testbit (hw_inb io 100) 1.

(** The history after [n] reads of its status. *)
Fixpoint polled (n : nat) (io : list ioev) : list ioev :=
  match n with O => io | S n' => polled n' (io ++ [InB 100 (u8 (hw_inb io 100))]) end.

Lemma land_2 v : Z.land 2 v = if Z.testbit v 1 then 2 else 0.
Proof.
  apply Z.bits_inj'. intros i Hi. rewrite Z.land_spec. change 2 with (2 ^ 1) at 1. rewrite Z.pow2_bits_eqb by lia.
  destruct (Z.eqb_spec 1 i) as [<-|Hn]; [by destruct (Z.testbit v 1)|]. destruct (Z.testbit v 1); [|by rewrite Z.bits_0].
  change 2 with (2 ^ 1). rewrite Z.pow2_bits_eqb by lia. by destruct (Z.eqb_spec 1 i).
Qed.

Lemma jnz_mk a g sg ip fl c gd id ts m io :
  exec (jnz a) (mkState g sg ip fl c gd id ts m io) = Some (mkState g sg (if Z.testbit fl 6 then ip else a) fl c gd id ts m io).
Proof.
  unfold exec. cbn [eflags]. assert (E : (Z.land fl FL_ZF =? 0) = negb (Z.testbit fl 6)).
  { change FL_ZF with (2 ^ 6). apply eq_true_iff_eq. rewrite Z.eqb_eq, negb_true_iff. split; intros E.
    - rewrite <- (Z.bits_0 6), <- E, Z.land_spec. by rewrite andb_true_r.
    - apply Z.bits_inj'. intros i Hi. rewrite Z.land_spec, Z.bits_0, Z.pow2_bits_eqb by lia.
      destruct (Z.eqb_spec 6 i) as [<-|]; [by rewrite E|apply andb_false_r]. }
  rewrite E. by destruct (Z.testbit fl 6).
Qed.

Lemma inb_mk port g sg ip fl c gd id ts m io : let v := u8 (hw_inb io port) in
  exec (inb port) (mkState g sg ip fl c gd id ts m io)
  = Some (mkState (put EAX (g EAX / 2 ^ 8 * 2 ^ 8 + v mod 2 ^ 8) g) sg ip fl c gd id ts m (io ++ [InB port v])).
Proof. done. Qed.

Lemma testb_mk v g sg ip fl c gd id ts m io : is_u32 v →
  exec (testb (Imm v) (R EAX)) (mkState g sg ip fl c gd id ts m io)
  = Some (mkState g sg ip (logic_flags 8 (Z.land (u8 v) (u8 (g EAX))) fl) c gd id ts m io).
Proof. intros Hv. unfold exec. by rewrite get_imm_mk, get_reg_mk by done. Qed.

(** One round of the loop. *)
Lemma a20_round s0 top g sg fl c gd id ts m io m0 l e : reaches fetch s0 (mkState g sg top fl c gd id ts m io) →
  Z.testbit (c CR0) 31 = false → sbase (sg CS) = 0 → 0 ≤ top →
  text_at fetch m0 top (I (inb 100) :: I (testb (Imm 2) (R EAX)) :: I (jnz top) :: l) e →
  ∃ g' ip' fl', 0 ≤ ip' ∧ text_at fetch m0 ip' l e ∧ Z.testbit fl' 9 = Z.testbit fl 9
    ∧ reaches fetch s0 (mkState g' sg (if busy io then top else ip') fl' c gd id ts m (polled 1 io)).
Proof.
  intros Hr Hpg Hcs Htop Ht. change top with (0 + top) in Ht at 1. assert (H0 : 0 ≤ 0) by done.
  code_head Hr Ht. specialize (Hr _ (inb_mk _ _ _ _ _ _ _ _ _ _ _)).
  code_head Hr Ht. specialize (Hr _ (testb_mk 2 _ _ _ _ _ _ _ _ _ _ ltac:(done))).
  code_head Hr Ht. specialize (Hr _ (jnz_mk _ _ _ _ _ _ _ _ _ _ _)).
  cbn [put reg_eqb] in Hr. assert (E8 : ∀ x, u8 (g EAX / 2 ^ 8 * 2 ^ 8 + u8 x mod 2 ^ 8) = u8 x).
  { intros x. unfold u8. rewrite low_half by lia. by rewrite Z.mod_mod. }
  rewrite E8 in Hr. match type of Hr with reaches _ _ (mkState _ _ _ ?f _ _ _ _ _ _) => set (fl2 := f) in * end.
  assert (Ez : Z.testbit fl2 6 = negb (busy io)).
  { unfold fl2. rewrite logic_flags_bit by done. change (u8 2) with 2. rewrite land_2. unfold u8.
    rewrite Z.mod_pow2_bits_low by lia. unfold busy. by destruct (Z.testbit (hw_inb io 100) 1). }
  assert (Ei : Z.testbit fl2 9 = Z.testbit fl 9) by (unfold fl2; by rewrite logic_flags_bit).
  rewrite Ez in Hr. eexists _, _, fl2. split; [|split; [exact Ht|split; [done|]]]; [done|]. by destruct (busy io).
Qed.

(** The loop ends at the first read of a status that is not busy. *)
Lemma a20_wait s0 top sg c gd id ts m m0 l e n : Z.testbit (c CR0) 31 = false → sbase (sg CS) = 0 → 0 ≤ top →
  text_at fetch m0 top (I (inb 100) :: I (testb (Imm 2) (R EAX)) :: I (jnz top) :: l) e →
  ∀ g fl io, reaches fetch s0 (mkState g sg top fl c gd id ts m io) → busy (polled n io) = false →
  ∃ k g' ip' fl', busy (polled k io) = false ∧ 0 ≤ ip' ∧ text_at fetch m0 ip' l e ∧ Z.testbit fl' 9 = Z.testbit fl 9
    ∧ reaches fetch s0 (mkState g' sg ip' fl' c gd id ts m (polled (S k) io)).
Proof.
  intros Hpg Hcs Htop Ht. induction n as [|n IH]; intros g fl io Hr Hb;
    destruct (a20_round s0 top g sg fl c gd id ts m io m0 l e Hr Hpg Hcs Htop Ht) as (g' & ip' & fl' & Hip & Ht' & Hif & Hr').
  - cbn [polled] in Hb. rewrite Hb in Hr'. exists O, g', ip', fl'. done.
  - destruct (busy io) eqn:E; [|exists O, g', ip', fl'; done].
    destruct (IH g' fl' _ Hr' Hb) as (k & g2 & ip2 & fl2 & Hk & Hip2 & Ht2 & Hif2 & Hr2). exists (S k), g2, ip2, fl2. split_and!; try done. congruence.
Qed.

Lemma movb_out_run s0 v port g sg ip fl c gd id ts m io m0 l e : reaches fetch s0 (mkState g sg ip fl c gd id ts m io) →
  Z.testbit (c CR0) 31 = false → sbase (sg CS) = 0 → 0 ≤ ip → 0 ≤ v < 256 →
  text_at fetch m0 ip (I (movb (Imm v) (R EAX)) :: I (outb port) :: l) e →
  ∃ g' ip', 0 ≤ ip' ∧ text_at fetch m0 ip' l e ∧ reaches fetch s0 (mkState g' sg ip' fl c gd id ts m (io ++ [OutB port v])).
Proof.
  intros Hr Hpg Hcs Hip Hv Ht. change ip with (0 + ip) in Ht. assert (H0 : 0 ≤ 0) by done.
  code_head Hr Ht. unfold exec in Hr. rewrite get_imm_mk in Hr by (unfold is_u32; lia). cbn [mbind option_bind] in Hr. rewrite assign_low_reg_mk in Hr.
  specialize (Hr _ eq_refl). code_head Hr Ht. specialize (Hr _ eq_refl). eexists _, _. split; [|split; [exact Ht|]]; [done|].
  cbn [gpr put reg_eqb] in Hr. replace (u8 _) with v in Hr; [exact Hr|].
  unfold u8. rewrite low_half by lia. rewrite Z.mod_mod, Z.mod_small by lia. done.
Qed.

Lemma text_suffix m0 l1 l2 : ∀ a e, text_at fetch m0 a (l1 ++ l2) e → ∃ b, a ≤ b ∧ text_at fetch m0 b l2 e.
Proof.
  induction l1 as [|x l1 IH]; intros a e Ht; [by exists a|]. cbn [app text_at] in Ht. destruct x.
  - destruct Ht as [_ Ht]. by apply IH.
  - destruct Ht as (n & Hn & _ & _ & Ht). apply IH in Ht as (b & Hb & Ht). exists b. split; [lia|done].
  - destruct Ht as [_ Ht]. apply IH in Ht as (b & Hb & Ht). exists b. split; [lia|done].
  - destruct Ht as [_ Ht]. apply IH in Ht as (b & Hb & Ht). exists b. split; [lia|done].
  - destruct Ht as [_ Ht]. apply IH in Ht as (b & Hb & Ht). exists b. split; [lia|done].
  - apply IH in Ht as (b & Hb & Ht). exists b. split; [|done].
    pose proof (Z.div_mod (a + 3) 4 ltac:(done)). pose proof (Z.mod_pos_bound (a + 3) 4 ltac:(done)). lia.
Qed.

Lemma movw_reg_mk r r' g sg ip fl c gd id ts m io :
  exec (movw (R r) (R r')) (mkState g sg ip fl c gd id ts m io)
  = Some (mkState (put r' (g r' / 2 ^ 16 * 2 ^ 16 + u16 (g r) mod 2 ^ 16) g) sg ip fl c gd id ts m io).
Proof. done. Qed.

Lemma outw_mk g sg ip fl c gd id ts m io :
  exec outw (mkState g sg ip fl c gd id ts m io) = Some (mkState g sg ip fl c gd id ts m (io ++ [OutW (u16 (g EDX)) (u16 (g EAX))])).
Proof. done. Qed.

(** After a return from C: the breakpoint, and then nothing. *)
Lemma break_run m0 l e s : text_at fetch m0 (eip s) (bochs_break sym ++ l) e → 0 ≤ eip s → sbase (seg s CS) = 0 →
  (∀ s' a, seg s' = seg s → cr s' = cr s → ram s' = ram s → 0 ≤ a < e → translate s' false (user s') a = Some a) →
  ∃ s', reaches fetch s s' ∧ ports s' = ports s ++ [OutW 35328 35328; OutW 35328 35552] ∧ step fetch s' = Some s'.
Proof.
  intros Ht Hip Hcs Hf. cbn [app bochs_break] in Ht. assert (H0 : 0 ≤ 0) by done. pose proof (reaches_refl fetch s) as Hr.
  destruct s as [g sg ip fl c gd id ts m io]. cbn [eip seg cr ram ports] in *. change ip with (0 + ip) in Ht.
  code_head Hr Ht. specialize (Hr _ (movw_imm_mk 35328 _ _ _ _ _ _ _ _ _ _ ltac:(lia))).
  code_head Hr Ht. specialize (Hr _ (movw_reg_mk _ _ _ _ _ _ _ _ _ _ _ _)).
  code_head Hr Ht. specialize (Hr _ (outw_mk _ _ _ _ _ _ _ _ _ _)).
  code_head Hr Ht. specialize (Hr _ (movw_imm_mk 35552 _ _ _ _ _ _ _ _ _ _ ltac:(lia))).
  code_head Hr Ht. specialize (Hr _ (outw_mk _ _ _ _ _ _ _ _ _ _)). destruct Ht as [Es Ht].
  cbn [put reg_eqb] in Hr. rewrite (movw_imm_low _ 35328), (movw_imm_low _ 35552) in Hr by lia.
  assert (Ed : ∀ x, u16 (x / 2 ^ 16 * 2 ^ 16 + 35328 mod 2 ^ 16) = 35328) by (intros x; unfold u16; by rewrite low_half).
  rewrite !Ed, <- app_assoc in Hr. eexists. split; [exact Hr|]. split; [done|].
  match goal with |- step _ (mkState ?g ?sg ?ip ?fl ?c ?gd ?id ?ts ?m ?io) = _ =>
    destruct (step_code g sg ip fl c gd id ts m io 0 m0 _ _ _ Hcs ltac:(done) ltac:(done) Ht) as (n & _ & _ & _ & ->) end.
  { apply Hf; [done|done|done|]. apply text_lt in Ht. lia. }
  unfold exec. rewrite set_eip_mk. by rewrite Es.
Qed.

Lemma push_off v g sg ip fl c gd id ts m io : Z.testbit (c CR0) 31 = false → sbase (sg SS) = 0 → 4 ≤ g ESP < 2 ^ 32 →
  push v (mkState g sg ip fl c gd id ts m io) = Some (mkState (put ESP (g ESP - 4) g) sg ip fl c gd id ts (store32 m (g ESP - 4) v) io).
Proof.
  intros Hpg Hss Hsp. unfold push. cbn [gpr]. rewrite (u32_small (g ESP - 4)) by (unfold is_u32; lia).
  rewrite lin_flat by (done || (unfold is_u32; lia)). unfold wr32, wr8. cbn [xlat paged].
  do 4 (rewrite translate_off by exact Hpg; cbn [mbind option_bind]). unfold u32. rewrite !Z.mod_small by lia. done.
Qed.

(** The part of the boot block before its call of bootmain. *)
Lemma boot_protected e s : text_at fetch (ram s) 31744 (bootasm sym) e → e ≤ 2 ^ 16 →
  eip s = 31744 → seg s CS = mkSegment 0 0 0 → protected s = false → Z.testbit (cr s CR0) 31 = false →
  (∀ io, ∃ n, busy (polled n io) = false) →
  ∃ g sg ip fl c k1 k2, let io1 := polled (S k1) (ports s) ++ [OutB 100 209] in
    busy (polled k1 (ports s)) = false ∧ busy (polled k2 io1) = false ∧ 0 ≤ ip ∧ Z.testbit fl 9 = false ∧ (∀ r, sg r = boot_seg r)
    ∧ Z.testbit (c CR0) 0 = true ∧ Z.testbit (c CR0) 31 = false
    ∧ text_at fetch (ram s) ip ([I (movl (Imm (sym "start")) (R ESP)); I (call (sym "bootmain"))] ++ bochs_break sym ++ boot_gdt sym) e
    ∧ reaches fetch s (mkState g sg ip fl c (sym "gdt", 23) (idtr s) (tss s) (ram s) (polled (S k2) io1 ++ [OutB 96 223])).
Proof.
  intros Ht He Hip Hcs Hpe Hpg Hready.
  assert (Hd : ∃ b, 31744 ≤ b ∧ text_at fetch (ram s) b (boot_gdt sym) e).
  { unfold bootasm in Ht. rewrite !app_assoc in Ht. apply text_suffix in Ht as (b & Hb & Ht). by exists b. }
  destruct Hd as (b & Hb & Hd). destruct (gdt_data _ b e Hd ltac:(lia) He) as (Hg & Hgd & Hgb & Hge).
  destruct Ht as [Es Ht]. pose proof (reaches_refl fetch s) as Hr. destruct s as [g sg ip fl c gd id ts m io]. unfold protected in *.
  cbn [eip seg cr ram ports app] in *. subst ip. pose proof (f_equal sbase Hcs) as Hcb. cbn [sbase] in Hcb.
  destruct (zero_run _ _ _ _ _ _ _ _ _ _ _ 0 _ _ _ Hr Hpe Hpg Hcb ltac:(lia) ltac:(lia) Ht) as (g1 & ip1 & fl1 & Hip1 & Ht1 & Hif1 & Hr1).
  destruct Ht1 as [E1 Ht1]. rewrite Z.add_0_l in Ht1, E1. rewrite <- E1 in Hr1, Ht1, Hip1.
  destruct (Hready io) as [n1 Hn1].
  destruct (a20_wait _ _ _ _ _ _ _ _ _ _ _ n1 Hpg Hcb Hip1 Ht1 _ _ _ Hr1 Hn1) as (k1 & g2 & ip2 & fl2 & Hk1 & Hip2 & Ht2 & Hif2 & Hr2).
  destruct (movb_out_run _ 209 _ _ _ _ _ _ _ _ _ _ _ _ _ _ Hr2 Hpg Hcb Hip2 ltac:(lia) Ht2) as (g3 & ip3 & Hip3 & Ht3 & Hr3).
  destruct Ht3 as [E3 Ht3]. rewrite <- E3 in Hr3, Ht3, Hip3.
  destruct (Hready (polled (S k1) io ++ [OutB 100 209])) as [n2 Hn2].
  destruct (a20_wait _ _ _ _ _ _ _ _ _ _ _ n2 Hpg Hcb Hip3 Ht3 _ _ _ Hr3 Hn2) as (k2 & g4 & ip4 & fl4 & Hk2 & Hip4 & Ht4 & Hif4 & Hr4).
  destruct (movb_out_run _ 223 _ _ _ _ _ _ _ _ _ _ _ _ _ _ Hr4 Hpg Hcb Hip4 ltac:(lia) Ht4) as (g5 & ip5 & Hip5 & Ht5 & Hr5).
  destruct (protected_run _ _ _ _ _ _ _ _ _ _ _ 0 _ _ _ Hr5 Hpe Hpg Hcb ltac:(by cbn [puts sreg_eqb]; rewrite Hcs) eq_refl Hip5 ltac:(lia) Hg Hgd Ht5)
    as (g6 & sg6 & ip6 & fl6 & Hip6 & Ht6 & Hif6 & _ & Hsg & Hr6).
  exists g6, sg6, ip6, fl6, (putc CR0 (Z.lor CR0_PE (c CR0)) c), k1, k2. cbv zeta. split_and!; try done; [by rewrite Hif6, Hif4, Hif2|by cbn [putc creg_eqb]; rewrite Z.lor_spec|by cbn [putc creg_eqb]; rewrite Z.lor_spec, Hpg].
Qed.

(** C23: the boot block brings the CPU from real mode to bootmain. Started by the
    BIOS at 0x7c00, it disables interrupts, waits until the keyboard controller
    is ready (which it becomes at some time) before each of the two writes that
    open the address line A20, loads its table and enters protected mode: code,
    data and stack segments are flat, FS and GS are null, the stack begins below
    the boot block, where the return address lies. No other memory has changed.
    If bootmain returns, it triggers the breakpoint of the emulator and stops. *)
Theorem bootasm_enters_bootmain e s : text_at fetch (ram s) 31744 (bootasm sym) e → e ≤ 2 ^ 16 →
  eip s = 31744 → seg s CS = mkSegment 0 0 0 → protected s = false → Z.testbit (cr s CR0) 31 = false →
  (∀ io, ∃ n, busy (polled n io) = false) →
  ∃ s1 ra k1 k2, reaches fetch s s1 ∧ eip s1 = sym "bootmain" ∧ protected s1 = true ∧ (∀ r, seg s1 r = boot_seg r)
    ∧ gpr s1 ESP = 31740 ∧ load32 (ram s1) 31740 = ra ∧ (∀ x, ¬ (31740 ≤ x < 31744) → ram s1 x = ram s x) ∧ Z.testbit (eflags s1) 9 = false
    ∧ (let io1 := polled (S k1) (ports s) ++ [OutB 100 209] in
       busy (polled k1 (ports s)) = false ∧ busy (polled k2 io1) = false ∧ ports s1 = polled (S k2) io1 ++ [OutB 96 223])
    ∧ ∀ s2, eip s2 = ra → sbase (seg s2 CS) = 0 → Z.testbit (cr s2 CR0) 31 = false →
        ∃ s3, reaches fetch s2 s3 ∧ ports s3 = ports s2 ++ [OutW 35328 35328; OutW 35328 35552] ∧ step fetch s3 = Some s3.
Proof.
  intros Ht He Hip Hcs Hpe Hpg Hready.
  destruct (boot_protected e s Ht He Hip Hcs Hpe Hpg Hready) as (g & sg & ip & fl & c & k1 & k2 & Hk1 & Hk2 & Hip0 & Hif & Hsg & Hpe1 & Hpg1 & Ht1 & Hr).
  destruct Ht as [Es _]. cbn [app] in Ht1. rewrite Es in Ht1. change ip with (0 + ip) in Ht1. assert (H0 : 0 ≤ 0) by done.
  assert (Hcs1 : sbase (sg CS) = 0) by (by rewrite Hsg). assert (Hss1 : sbase (sg SS) = 0) by (by rewrite Hsg).
  code Hr Ht1. code_head Hr Ht1. unfold exec in Hr. rewrite push_off in Hr by (done || (regs; lia)). cbn [mbind option_bind] in Hr.
  specialize (Hr _ eq_refl). rewrite set_eip_mk in Hr. cbn [put reg_eqb eip] in Hr.
  eexists _, ip1, k1, k2. split; [exact Hr|]. unfold protected. cbn [eip seg cr ram gpr eflags ports put reg_eqb]. split_and!; try done.
  - rewrite load_store32. apply u32_small. unfold is_u32. lia.
  - intros x Hx. apply store32_other. lia.
  - intros s2 E2 C2 P2. rewrite Z.add_0_l, <- E2 in Ht1. apply (break_run _ _ _ _ Ht1); [lia|done|].
    intros s' a _ Hc _ _. apply translate_off. by rewrite Hc.
Qed.

(** ** Memory through the page directory of the boot *)

Lemma get_abs_off a g sg ip fl c gd id ts m io : Z.testbit (c CR0) 31 = false → sbase (sg DS) = 0 → 0 ≤ a → a + 4 ≤ 2 ^ 32 →
  get (Abs a) (mkState g sg ip fl c gd id ts m io) = Some (load32 m a).
Proof.
  intros Hpg Hds H1 H2. unfold get, addr. cbn [mbind option_bind]. rewrite lin_flat by (done || (unfold is_u32; lia)). by rewrite rd32_off.
Qed.

Lemma boot_rd32 s pd a p : boot_paged s pd → (∀ i, 0 ≤ i < 4 → boot_map false (a + i) = Some (p + i)) → 0 ≤ a → a + 4 ≤ 2 ^ 32 →
  rd32 false s a = Some (load32 (ram s) p).
Proof.
  intros (B1 & B2 & B3 & B4 & _) Hp H1 H2. assert (Ht : ∀ i, 0 ≤ i < 4 → translate s false false (a + i) = Some (p + i)).
  { intros i Hi. rewrite (boot_translate s pd) by (done || (unfold is_u32; lia)). by apply Hp. }
  unfold rd32, rd8. cbn [xlat paged]. unfold u32. rewrite !Z.mod_small by lia.
  rewrite <- (Z.add_0_r a) at 1. rewrite !Ht by lia. cbn [mbind option_bind]. by rewrite Z.add_0_r.
Qed.

Lemma low_map a i : 0 ≤ a → a + 4 ≤ SUPER → 0 ≤ i < 4 → boot_map false (a + i) = Some (a + i).
Proof. intros H1 H2 Hi. unfold boot_map. by rewrite (proj2 (Z.ltb_lt _ _)) by lia. Qed.

Lemma high_map a i : KERNBASE ≤ a → a + 4 ≤ KERNBASE + SUPER → 0 ≤ i < 4 → boot_map false (a + i) = Some (a - KERNBASE + i).
Proof.
  intros H1 H2 Hi. unfold boot_map, SUPER, KERNBASE in *. rewrite (proj2 (Z.ltb_ge _ _)) by lia.
  rewrite (proj2 (Z.leb_le _ _)), (proj2 (Z.ltb_lt _ _)) by lia. cbn [andb]. f_equal. lia.
Qed.

Lemma get_abs_boot a g sg ip fl c gd id ts m io pd : let s := mkState g sg ip fl c gd id ts m io in
  boot_paged s pd → sbase (sg DS) = 0 → 0 ≤ a → a + 4 ≤ SUPER → get (Abs a) s = Some (load32 m a).
Proof.
  intros s Hb Hds H1 H2. unfold get, addr, s. cbn [mbind option_bind]. rewrite lin_flat by (done || (unfold is_u32, SUPER in *; lia)).
  rewrite user_mk by apply Hb. apply (boot_rd32 s pd a a Hb); [|done|unfold SUPER in *; lia]. intros i. by apply low_map.
Qed.

Lemma boot_wr8 s pd a p v : boot_paged s pd → boot_map false a = Some p → is_u32 a → (p < pd ∨ pd + PGSIZE ≤ p) →
  wr8 false a v s = Some (s <| ram ::= λ m, Strings.upd m p (u8 v) |>) ∧ boot_paged (s <| ram ::= λ m, Strings.upd m p (u8 v) |>) pd.
Proof.
  intros Hb Hp Ha Hd. destruct Hb as (B1 & B2 & B3 & B4 & B5). split.
  - unfold wr8. cbn [xlat paged]. rewrite (boot_translate s pd) by done. by rewrite Hp.
  - split; [|done]. apply (words_at_frame _ _ _ _ B1). intros x Hx. cbn. unfold Strings.upd.
    assert (length entrypgdir = 1024%nat) as El by (by vm_compute). rewrite El in Hx. unfold PGSIZE in Hd. destruct (Z.eqb_spec x p); [lia|done].
Qed.

Lemma push_boot v g sg ip fl c gd id ts m io pd : boot_paged (mkState g sg ip fl c gd id ts m io) pd → sbase (sg SS) = 0 →
  KERNBASE + 4 ≤ g ESP ≤ KERNBASE + SUPER → (let p := g ESP - 4 - KERNBASE in p + 4 ≤ pd ∨ pd + PGSIZE ≤ p) →
  push v (mkState g sg ip fl c gd id ts m io)
  = Some (mkState (put ESP (g ESP - 4) g) sg ip fl c gd id ts (store32 m (g ESP - 4 - KERNBASE) v) io).
Proof.
  intros Hb Hss Hsp Hap. cbv zeta in Hap. unfold push. cbn [gpr]. assert (Hu : is_u32 (g ESP - 4)) by (unfold is_u32, KERNBASE, SUPER in *; lia).
  rewrite (u32_small (g ESP - 4)), lin_flat, user_mk by (done || apply Hb).
  assert (Hm : ∀ i, 0 ≤ i < 4 → boot_map false (g ESP - 4 + i) = Some (g ESP - 4 - KERNBASE + i)) by (intros i Hi; apply high_map; lia).
  unfold wr32. unfold is_u32 in Hu. set (a := g ESP - 4) in *. set (p := a - KERNBASE) in *.
  assert (Ha : ∀ i, 0 ≤ i < 4 → is_u32 (a + i)) by (unfold is_u32, KERNBASE, SUPER in *; lia).
  rewrite (u32_small (a + 1)), (u32_small (a + 2)), (u32_small (a + 3)) by (apply Ha; lia).
  assert (Hm0 := Hm 0 ltac:(lia)). rewrite !Z.add_0_r in Hm0.
  destruct (boot_wr8 _ pd a p v Hb Hm0 ltac:(unfold is_u32; lia) ltac:(lia)) as [-> Hb1]. cbn [mbind option_bind].
  destruct (boot_wr8 _ pd (a + 1) (p + 1) (v / 2 ^ 8) Hb1 (Hm 1 ltac:(lia)) (Ha 1 ltac:(lia)) ltac:(unfold PGSIZE in *; lia)) as [-> Hb2]. cbn [mbind option_bind].
  destruct (boot_wr8 _ pd (a + 2) (p + 2) (v / 2 ^ 16) Hb2 (Hm 2 ltac:(lia)) (Ha 2 ltac:(lia)) ltac:(unfold PGSIZE in *; lia)) as [-> Hb3]. cbn [mbind option_bind].
  destruct (boot_wr8 _ pd (a + 3) (p + 3) (v / 2 ^ 24) Hb3 (Hm 3 ltac:(lia)) (Ha 3 ltac:(lia)) ltac:(unfold PGSIZE in *; lia)) as [-> Hb4]. cbn [mbind option_bind].
  done.
Qed.

(** Another CPU, up to protected mode. *)
Lemma other_protected e s : text_at fetch (ram s) 28672 (entryother sym) e → e ≤ 2 ^ 16 →
  eip s = 0 → seg s CS = mkSegment 1792 28672 0 → protected s = false → Z.testbit (cr s CR0) 31 = false →
  ∃ g sg ip fl, 0 ≤ ip ∧ Z.testbit fl 9 = false ∧ (∀ r, sg r = boot_seg r)
    ∧ text_at fetch (ram s) ip (skipn 19 (entryother sym)) e
    ∧ reaches fetch s (mkState g sg ip fl (putc CR0 (Z.lor CR0_PE (cr s CR0)) (cr s)) (sym "gdt", 23) (idtr s) (tss s) (ram s) (ports s)).
Proof.
  intros Ht He Hip Hcs Hpe Hpg.
  assert (Hd : ∃ b, 28672 ≤ b ∧ text_at fetch (ram s) b (boot_gdt sym) e).
  { unfold entryother in Ht. rewrite !app_assoc in Ht. apply text_suffix in Ht as (b & Hb & Ht). by exists b. }
  destruct Hd as (b & Hb & Hd). destruct (gdt_data _ b e Hd ltac:(lia) He) as (Hg & Hgd & Hgb & Hge).
  destruct Ht as [Es Ht]. pose proof (reaches_refl fetch s) as Hr. destruct s as [g sg ip fl c gd id ts m io]. unfold protected in *.
  cbn [eip seg cr ram ports app] in *. subst ip. pose proof (f_equal sbase Hcs) as Hcb. cbn [sbase] in Hcb.
  change 28672 with (28672 + 0) in Ht.
  destruct (zero_run _ _ _ _ _ _ _ _ _ _ _ _ _ _ _ Hr Hpe Hpg Hcb ltac:(lia) ltac:(lia) Ht) as (g1 & ip1 & fl1 & Hip1 & Ht1 & Hif1 & Hr1).
  destruct (protected_run _ _ _ _ _ _ _ _ _ _ _ _ _ _ _ Hr1 Hpe Hpg Hcb ltac:(by cbn [puts sreg_eqb]; rewrite Hcs) eq_refl Hip1 ltac:(lia) Hg Hgd Ht1)
    as (g6 & sg6 & ip6 & fl6 & Hip6 & Ht6 & Hif6 & _ & Hsg & Hr6).
  exists g6, sg6, ip6, fl6. split_and!; try done. by rewrite Hif6.
Qed.

(** C24: another CPU enters the kernel. Started at 0x7000 in real mode, with the
    three words below that startothers has stored (the page directory of the
    boot, the function to enter and the top of a stack in the first 4 MB),
    entryother.S reaches that function on that stack, in protected mode with flat
    segments, interrupts disabled and paging on: it sees the first 4 MB at their
    addresses and from KERNBASE on. No memory but the word of the return address
    has changed. If the function returns, the CPU stops. *)
Theorem entryother_enters e s pd fn sp : text_at fetch (ram s) 28672 (entryother sym) e → e ≤ 2 ^ 16 →
  eip s = 0 → seg s CS = mkSegment 1792 28672 0 → protected s = false → Z.testbit (cr s CR0) 31 = false →
  words_at (ram s) 28660 [pd; fn; sp] → is_u32 pd → pd mod PGSIZE = 0 → words_at (ram s) pd entrypgdir →
  KERNBASE + 4 ≤ sp ≤ KERNBASE + SUPER → (let p := sp - 4 - KERNBASE in p + 4 ≤ pd ∨ pd + PGSIZE ≤ p) →
  let p := sp - 4 - KERNBASE in
  ∃ s1 ra, reaches fetch s s1 ∧ eip s1 = fn ∧ protected s1 = true ∧ (∀ r, seg s1 r = boot_seg r) ∧ Z.testbit (eflags s1) 9 = false
    ∧ gpr s1 ESP = sp - 4 ∧ load32 (ram s1) p = ra ∧ (∀ x, ¬ (p ≤ x < p + 4) → ram s1 x = ram s x)
    ∧ (∀ w u a, is_u32 a → translate s1 w u a = boot_map u a) ∧ ports s1 = ports s
    ∧ ∀ s2, eip s2 = ra → sbase (seg s2 CS) = 0 → boot_paged s2 pd →
        ∃ s3, reaches fetch s2 s3 ∧ ports s3 = ports s2 ++ [OutW 35328 35328; OutW 35328 35552] ∧ step fetch s3 = Some s3.
Proof.
  intros Ht He Hip Hcs Hpe Hpg Hw Hpdu Hpda Hpd Hsp Hap p.
  destruct (other_protected e s Ht He Hip Hcs Hpe Hpg) as (g & sg & ip & fl & Hip0 & Hif & Hsg & Ht1 & Hr).
  destruct Ht as [Es _]. rewrite !words_at_cons in Hw. destruct Hw as (W1 & W2 & W3 & _).
  cbn [entryother skipn app zero_segments to_protected] in Ht1. rewrite Es in Ht1. change (28672 - 12) with 28660 in Ht1.
  change (28672 - 4) with 28668 in Ht1. change (28672 - 8) with 28664 in Ht1. change ip with (0 + ip) in Ht1. assert (H0 : 0 ≤ 0) by done.
  assert (Hcs1 : sbase (sg CS) = 0) by (by rewrite Hsg). assert (Hss1 : sbase (sg SS) = 0) by (by rewrite Hsg).
  assert (Hds1 : sbase (sg DS) = 0) by (by rewrite Hsg). assert (Hrpl : Z.land (sel (sg CS)) 3 = 0) by (by rewrite Hsg).
  set (c := putc CR0 _ _) in *. assert (Hpg1 : Z.testbit (c CR0) 31 = false) by (unfold c; cbn [putc creg_eqb]; by rewrite Z.lor_spec, Hpg).
  assert (Hpe1 : Z.testbit (c CR0) 0 = true) by (unfold c; cbn [putc creg_eqb]; by rewrite Z.lor_spec).
  clearbody c. do 3 code Hr Ht1. code_head Hr Ht1. unfold exec in Hr. rewrite get_abs_off in Hr by (done || lia). cbn [mbind option_bind] in Hr.
  rewrite assign_reg_mk, W1 in Hr. specialize (Hr _ eq_refl). do 4 code Hr Ht1.
  match type of Hr with reaches _ _ (mkState _ _ _ ?f ?c' _ _ _ _ _) => set (c2 := c') in *; set (fl2 := f) in * end.
  assert (Hb : ∀ g ip fl, boot_paged (mkState g sg ip fl c2 (sym "gdt", 23) (idtr s) (tss s) (ram s) (ports s)) pd).
  { intros. unfold boot_paged. cbn [ram cr seg c2 putc creg_eqb]. rewrite !Z.lor_spec. cbn [put reg_eqb]. by rewrite page_addr. }
  assert (Hpe2 : Z.testbit (c2 CR0) 0 = true) by (unfold c2; cbn [putc creg_eqb]; by rewrite Z.lor_spec).
  assert (Hif2 : Z.testbit fl2 9 = false) by (unfold fl2; by rewrite !logic_flags_bit by done). clearbody c2 fl2.
  assert (HeS : e ≤ SUPER) by (unfold SUPER; lia).
  code_head Hr Ht1. unfold exec in Hr. rewrite (get_abs_boot _ _ _ _ _ _ _ _ _ _ _ pd) in Hr by (done || (unfold SUPER; lia)). cbn [mbind option_bind] in Hr.
  rewrite assign_reg_mk in Hr. change (28660 + 4 + 4) with 28668 in W3. rewrite W3 in Hr. specialize (Hr _ eq_refl).
  code_head Hr Ht1. unfold exec in Hr. rewrite (get_abs_boot _ _ _ _ _ _ _ _ _ _ _ pd) in Hr by (done || (unfold SUPER; lia)). cbn [mbind option_bind] in Hr.
  change (28660 + 4) with 28664 in W2. rewrite (push_boot _ _ _ _ _ _ _ _ _ _ _ pd), W2 in Hr by done. cbn [mbind option_bind] in Hr.
  specialize (Hr _ eq_refl). rewrite set_eip_mk in Hr. cbn [put reg_eqb eip] in Hr. fold p in Hr.
  eexists _, ip9. split; [exact Hr|]. unfold protected. cbn [eip seg cr ram gpr eflags ports put reg_eqb].
  assert (Hmem : ∀ x, ¬ (p ≤ x < p + 4) → store32 (ram s) p ip9 x = ram s x) by (intros x Hx; apply store32_other; lia).
  split_and!; try done.
  - rewrite load_store32. apply u32_small. unfold is_u32. lia.
  - destruct (Hb g 0 0) as (B1 & B2 & B3 & B4 & _). apply (boot_translate _ pd); [|done..].
    apply (words_at_frame _ _ _ _ B1). intros x Hx. apply Hmem. change (length entrypgdir) with 1024%nat in Hx. unfold p, PGSIZE in *. lia.
  - intros s2 E2 C2 P2. rewrite Z.add_0_l, <- E2 in Ht1. apply (break_run _ _ _ _ Ht1); [lia|done|].
    intros s' x H1 H2 H3 Hx. apply (boot_fetch s' pd); [|lia]. unfold boot_paged. by rewrite H1, H2, H3.
Qed.
End Run.

(** ** A machine for each of them *)
Module Layouts.
(** The boot page directory at 4096, the words of startothers below 0x7000, the
    table of the boot blocks at [gdt]. *)
Definition gdt_bytes (gdt : Z) : list Z :=
  [0; 0; 0; 0; 0; 0; 0; 0; 255; 255; 0; 0; 0; 154; 207; 0; 255; 255; 0; 0; 0; 146; 207; 0; 23; 0; gdt mod 256; gdt / 256; 0; 0].
Definition image (gdt : Z) : memory := λ a,
  if (a =? 4096) || (a =? 6144) then 131
  else if a <? 28672 then mem_of 28660 [0; 16; 0; 0; 0; 1; 16; 128; 0; 0; 32; 128] a
  else mem_of gdt (gdt_bytes gdt) a.

Lemma image_pgdir gdt : words_at (image gdt) 4096 entrypgdir.
Proof.
  assert (E : (λ i, load32 (image 0) (4096 + 4 * Z.of_nat i)) <$> seq 0 1024 = entrypgdir) by by vm_compute.
  intros i v Hi. assert (Hl : (i < 1024)%nat) by (apply lookup_lt_Some in Hi; exact Hi).
  pose proof (f_equal (.!! i) E) as Ei. rewrite list_lookup_fmap, lookup_seq_lt, Hi in Ei by done. injection Ei as <-.
  apply load32_ext. intros x Hx. unfold image. destruct ((x =? 4096) || (x =? 6144)); [done|]. destruct (Z.ltb_spec x 28672); [done|lia].
Qed.

Definition at_start (ip : Z) (cs : segment) (cr0 : Z) (m : memory) : state :=
  mkState (λ _, 0) (λ _, cs) ip 514 (λ r, match r with CR0 => cr0 | _ => 0 end) (0, 0) (0, 0) 0 m [].

Fixpoint symbol (l : list (string * Z)) (x : string) : Z :=
  match l with [] => 32768 | (y, a) :: l' => if String.eqb x y then a else symbol l' x end.
Definition boot_sym : string → Z :=
  symbol [("start", 31744); ("seta20.1", 31749); ("seta20.2", 31754); ("start32", 31764); ("spin", 31778); ("gdt", 31780); ("gdtdesc", 31804)]%string.
Definition other_sym : string → Z :=
  symbol [("start", 28672); ("start32", 28682); ("spin", 28704); ("gdt", 28708); ("gdtdesc", 28732)]%string.
Definition kernel_sym : string → Z :=
  symbol [("entry", 2148532236); ("entrypgdir", 2147487744); ("stack", 2148593664); ("main", 2148544512)]%string.

Lemma bootasm_enters_bootmain_witness : let s := at_start 31744 (mkSegment 0 0 0) 0 (image 31780) in
  ∃ s1, reaches (H := idle) (MM := paged) (code_at 31744 (bootasm boot_sym)) s s1 ∧ eip s1 = 32768 ∧ protected s1 = true ∧ gpr s1 ESP = 31740.
Proof.
  intros s. destruct (bootasm_enters_bootmain (H := idle) (code_at 31744 (bootasm boot_sym)) boot_sym 31810 s)
    as (s1 & ra & k1 & k2 & Hr & E1 & E2 & _ & E3 & _).
  - lay_out.
  - lia.
  - done.
  - done.
  - done.
  - done.
  - intros io. by exists O.
  - exists s1. done.
Defined.

Lemma entryother_enters_witness : let s := at_start 0 (mkSegment 1792 28672 0) 0 (image 28708) in
  ∃ s1, reaches (H := idle) (MM := paged) (code_at 28672 (entryother other_sym)) s s1 ∧ eip s1 = 2148532480 ∧ protected s1 = true ∧ gpr s1 ESP = 2149580796.
Proof.
  intros s. destruct (entryother_enters (H := idle) (code_at 28672 (entryother other_sym)) other_sym 28738 s 4096 2148532480 2149580800)
    as (s1 & ra & Hr & E1 & E2 & _ & _ & E3 & _).
  - lay_out.
  - lia.
  - done.
  - done.
  - done.
  - done.
  - rewrite !words_at_cons. refine (conj eq_refl (conj eq_refl (conj eq_refl _))). by intros i v.
  - done.
  - done.
  - apply image_pgdir.
  - unfold KERNBASE, SUPER. lia.
  - cbv zeta. unfold KERNBASE, PGSIZE. lia.
  - exists s1. done.
Defined.

Lemma entry_enters_main_witness : let s := at_start 1048588 (mkSegment 8 0 0) 1 (image 65536) in
  ∃ s1, reaches (H := idle) (MM := paged) (code_at 1048588 (entry_text kernel_sym)) s s1 ∧ eip s1 = 2148544512 ∧ gpr s1 ESP = 2148597760.
Proof.
  intros s. destruct (entry_enters_main (H := idle) (code_at 1048588 (entry_text kernel_sym)) kernel_sym 1048599 s) as (s1 & Hr & E1 & E2 & _).
  - lay_out.
  - unfold SUPER. lia.
  - by vm_compute.
  - by vm_compute.
  - done.
  - by vm_compute.
  - by vm_compute.
  - apply image_pgdir.
  - done.
  - done.
  - done.
  - done.
  - done.
  - exists s1. done.
Defined.
End Layouts.
