(* ===== verification/Main.v ===== *)
(** Start-up in C: main, mpenter, mpmain and startothers (main.c) with the
    initialisers of trap.c, vm.c, ide.c, proc.c and file.c that only they call.

    The calls that set up a spin lock leave it unlocked. While a CPU polls
    [started], the others run: the wait is a point where the state may change. *)

From S2P Require Import Prelude Segs Types Strings Spinlock Printf Kalloc Sched Console Vm Apic Uvm Kvm Ide Bio Blocks Fs Proc Boot.

Section Main.
Context {P : Platform} {H : Hardware} {D : DiskDriver} {V : Devsw}.

Definition initlock (l : lockid) : K unit := modify (λ s, s <| held ::= remove_lock l |>).
Definition pinit : K unit := initlock LPtable.
Definition fileinit : K unit := initlock LFtable.

(** mycpu with interrupts disabled, as the index in [cpus], and cpuid. *)
Definition cpuid : K nat :=
  apicid ← lapicid;
  ids ← gets apicids;
  match list_find (λ x, x = apicid) ids with
  | Some (i, _) => mret i
  | None => panic "unknown apicid"
  end.

Definition seginit : K unit :=
  i ← cpuid;
  modify (λ s, s <| ktab ::= λ t, t <| cpu_gdt ::= Tables.fill_gdt |> <| cpu_gdtr := Descriptors.lgdt (gdt_addr i) (8 * Z.of_nat NSEGS) |> |>).

Definition tvinit : K unit :=
  modify (λ s, s <| ktab ::= λ t, t <| k_idt ::= Tables.fill_idt sym_vectors |> |>);;
  initlock LTicks.

Definition idtinit : K unit :=
  modify (λ s, s <| ktab ::= λ t, t <| cpu_idtr := Descriptors.lidt sym_idt (8 * 256) |> |>).

(** [while(((r = inb(0x1f7)) & (IDE_BSY|IDE_DRDY)) != IDE_DRDY)], polled [n]
    times at most. *)
Fixpoint ide_ready (n : nat) : K unit :=
  r ← inb 503;
  if Z.land r 192 =? 64 then mret tt else
  match n with O => nofuel | S n' => ide_ready n' end.

(** The search for disk 1, [n] tries left. *)
Fixpoint ide_probe (n : nat) : K unit :=
  match n with
  | O => mret tt
  | S n' =>
      r ← inb 503;
      if r =? 0 then ide_probe n' else modify (λ s, s <| havedisk1 := true |>)
  end.

Definition ideinit : K unit :=
  initlock LIde;;
  ids ← gets apicids;
  ioapicenable IRQ_IDE (Z.of_nat (length ids) - 1);;
  ide_ready fuel;;
  outb 502 (Z.lor 224 (Z.shiftl 1 4));;
  ide_probe 1000;;
  outb 502 (Z.lor 224 (Z.shiftl 0 4)).

(** [while(c->started == 0)]: the other CPUs act between two reads. *)
Definition others : K unit := λ s, Switch s (λ s', Ret tt s').
Fixpoint wait_started (n : nat) (i : nat) : K unit :=
  st ← gets (λ s, started (ktab s) !!! i);
  if (st : bool) then mret tt else
  match n with O => nofuel | S n' => others;; wait_started n' i end.

Definition CODE : Z := P2V 28672.

Definition startothers : K unit :=
  modify (λ s, s <| mem ::= λ m, Vm.put_bytes m CODE entryother_img |>);;
  ids ← gets apicids;
  for_each (imap pair ids) (λ '(i, apicid),
    me ← cpuid;
    if (i =? me)%nat then mret tt else
    stack ← kalloc;
    store (usub CODE 4) (uadd stack KSTACKSIZE);;
    store (usub CODE 8) sym_mpenter;;
    store (usub CODE 12) (V2P sym_entrypgdir);;
    lapicstartap apicid (V2P CODE);;
    wait_started fuel i).

Definition mpmain : K unit :=
  a ← cpuid;
  b ← cpuid;
  cprintf (Some (chars "cpu%d: starting %d" ++ [10])) [AInt (Z.of_nat a); AInt (Z.of_nat b)];;
  idtinit;;
  i ← cpuid;
  modify (λ s, s <| ktab ::= λ t, t <| started ::= <[i := true]> |> |>);;
  scheduler.

Definition mpenter : K unit :=
  switchkvm;;
  seginit;;
  lapicinit;;
  mpmain.

Context (initcode : list Z).

Definition main : K unit :=
  kinit1 sym_end (P2V (4 * 1024 * 1024));;
  kvmalloc;;
  mpinit fuel;;
  lapicinit;;
  seginit;;
  picinit;;
  ioapicinit;;
  consoleinit;;
  uartinit;;
  pinit;;
  tvinit;;
  binit;;
  fileinit;;
  ideinit;;
  startothers;;
  kinit2 (P2V (4 * 1024 * 1024)) (P2V PHYSTOP);;
  userinit initcode;;
  mpmain.
End Main.

(** ** Operations that only talk to devices *)

(** [s] with another history of the devices and another console. *)
Definition with_dev (s : kernel) (l : list ioev) (k : console) : kernel := s <| iolog := l |> <| kcons := k |>.

(** [m] run in [s], whatever the history of the devices and the console: it
    returns, and only these differ. *)
Definition quiet {A} (s : kernel) (m : K A) (Q : A → Prop) : Prop :=
  ∀ l k, cons_ok k → ∃ a l' k', m (with_dev s l k) = Ret a (with_dev s l' k') ∧ cons_ok k' ∧ cs_locking k' = cs_locking k ∧ Q a.

Section Quiet.
Context {P : Platform} {H : Hardware}.
Implicit Types s : kernel.

Lemma quiet_chain {A B} s (m : K A) (k : A → K B) Q R :
  quiet s m Q → (∀ a, Q a → quiet s (k a) R) → quiet s (m ≫= k) R.
Proof.
  intros Hm Hk l c Hc. destruct (Hm l c Hc) as (a & l1 & c1 & E1 & Hc1 & Hl1 & Ha). destruct (Hk a Ha l1 c1 Hc1) as (b & l2 & c2 & E2 & Hc2 & Hl2 & Hb).
  exists b, l2, c2. rewrite (bind_run _ _ _ _ _ E1). split_and!; try done. congruence.
Qed.

Lemma quiet_seq {A B} s (m : K A) (k : K B) R : quiet s m (λ _, True) → quiet s k R → quiet s (m;; k) R.
Proof. intros Hm Hk. eapply quiet_chain; [exact Hm|]. auto. Qed.

Lemma quiet_ret {A} s (a : A) (Q : A → Prop) : Q a → quiet s (mret a) Q.
Proof. intros Ha l k Hk. by exists a, l, k. Qed.

Lemma quiet_weaken {A} s (m : K A) (Q R : A → Prop) : quiet s m Q → (∀ a, Q a → R a) → quiet s m R.
Proof. intros Hm Hr l k Hk. destruct (Hm l k Hk) as (a & l1 & c1 & E1 & Hc1 & Hl1 & Ha). exists a, l1, c1. auto. Qed.

Lemma quiet_gets {A} s (f : kernel → A) : (∀ l k, f (with_dev s l k) = f s) → quiet s (gets f) (λ a, a = f s).
Proof. intros Hf l k Hk. exists (f s), l, k. unfold gets. by rewrite Hf. Qed.

(** A quiet operation before another. *)
Lemma quiet_then {A B} s (m : K A) (k : A → K B) Q l c : quiet s m Q → cons_ok c →
  ∃ a l' c', (m ≫= k) (with_dev s l c) = k a (with_dev s l' c') ∧ cons_ok c' ∧ cs_locking c' = cs_locking c ∧ Q a.
Proof.
  intros Hm Hc. destruct (Hm l c Hc) as (a & l1 & c1 & E1 & Hc1 & Hl1 & Ha). exists a, l1, c1. by rewrite (bind_run _ _ _ _ _ E1).
Qed.

Lemma quiet_when s (b : bool) (m : K unit) : (b = true → quiet s m (λ _, True)) → quiet s (when b m) (λ _, True).
Proof. intros Hm. destruct b; [by apply Hm|by apply quiet_ret]. Qed.

Lemma quiet_each {A} s (xs : list A) (body : A → K unit) :
  (∀ x, x ∈ xs → quiet s (body x) (λ _, True)) → quiet s (for_each xs body) (λ _, True).
Proof.
  induction xs as [|x xs IH]; intros Hb; cbn [for_each]; [by apply quiet_ret|].
  apply quiet_seq; [apply Hb; by left|]. apply IH. intros y Hy. apply Hb. by right.
Qed.

Lemma quiet_io s e : quiet s (io e) (λ _, True).
Proof. intros l k Hk. by exists tt, (l ++ [e]), k. Qed.

Lemma quiet_outb s p v : quiet s (outb p v) (λ _, True).
Proof. apply quiet_io. Qed.
Lemma quiet_outm s a v : quiet s (outm a v) (λ _, True).
Proof. apply quiet_io. Qed.

Lemma quiet_inb s p : quiet s (inb p) (λ v, ∃ l, v = u8 (hw_inb l p)).
Proof. intros l k Hk. exists (u8 (hw_inb l p)), (l ++ [InB p (u8 (hw_inb l p))]), k. split; [reflexivity|]. split_and!; try done. by exists l. Qed.
Lemma quiet_inm s a : quiet s (inm a) (λ v, ∃ l, v = u32 (hw_reg l a)).
Proof. intros l k Hk. exists (u32 (hw_reg l a)), (l ++ [InM a (u32 (hw_reg l a))]), k. split; [reflexivity|]. split_and!; try done. by exists l. Qed.

Lemma quiet_lapicr s i : quiet s (lapicr i) (λ v, ∃ l, v = u32 (hw_reg l (uadd (lapic s) (4 * i)))).
Proof.
  unfold lapicr, lapic_reg. eapply quiet_chain; [eapply quiet_chain; [by apply (quiet_gets s lapic)|intros a ->; by apply (quiet_ret _ _ (λ x, x = uadd (lapic s) (4 * i)))]|].
  intros a ->. apply quiet_inm.
Qed.

Lemma quiet_lapicw s i v : quiet s (lapicw i v) (λ _, True).
Proof.
  unfold lapicw, lapic_reg. eapply quiet_chain; [eapply quiet_chain; [by apply (quiet_gets s lapic)|intros a ->; by apply (quiet_ret _ _ (λ x, x = uadd (lapic s) (4 * i)))]|].
  intros a ->. apply quiet_seq; [apply quiet_outm|]. apply quiet_seq; [|by apply quiet_ret].
  eapply quiet_weaken; [apply quiet_lapicr|done].
Qed.

Lemma quiet_ioapicwrite s r v : quiet s (ioapicwrite r v) (λ _, True).
Proof. apply quiet_seq; apply quiet_outm. Qed.

Lemma quiet_cprintf s fmt args out : LCons ∉ held s → kformat fmt args = Some out → quiet s (cprintf (Some fmt) args) (λ _, True).
Proof.
  intros Hh Hf l k Hk. destruct (cprintf_run fmt args out (with_dev s l k)) as (k' & Hr & Hok & Ho & _); [done|intros _; exact Hh|done|].
  exists tt, l, k'. split; [exact Hr|]. split_and!; try done. by rewrite Ho.
Qed.

Lemma quiet_uartputc s c : quiet s (uartputc c) (λ _, True).
Proof.
  intros l k Hk. destruct (has_uart k) eqn:E.
  - exists tt, l, (k <| uart_out ::= λ o, o ++ [u8 c] |>). split; [|done]. unfold uartputc, with_dev. run. cbn [kcons set set_kcons]. by rewrite E.
  - exists tt, l, k. split; [|done]. unfold uartputc, with_dev. run. cbn [kcons set set_kcons]. by rewrite E.
Qed.

(** ** The machine answers *)

(** The local APIC at [base] of the CPU [id] has delivered what it is asked about
    and the IDE controller is ready. *)
Record devices_ready (base id : Z) : Prop := {
  dv_delivered : ∀ l, Z.land (u32 (hw_reg l (uadd base (4 * ICRLO)))) DELIVS = 0;
  dv_id : ∀ l, Z.shiftr (u32 (hw_reg l (uadd base (4 * LID)))) 24 = id;
  dv_ide : ∀ l, Z.land (u8 (hw_inb l 503)) 192 = 64
}.

Context (base id : Z) (Hdev : devices_ready base id).

Lemma quiet_delivered s n : lapic s = base → quiet s (wait_delivered n) (λ _, True).
Proof.
  intros Hb. destruct n; cbn [wait_delivered]; (eapply quiet_chain; [apply quiet_lapicr|]); intros v (l & ->); rewrite Hb, (dv_delivered _ _ Hdev);
    by apply quiet_ret.
Qed.

Ltac quietly := repeat lazymatch goal with
  | |- quiet _ (lapicw _ _) _ => apply quiet_lapicw
  | |- quiet _ (outb _ _) _ => apply quiet_outb
  | |- quiet _ (ioapicwrite _ _) _ => apply quiet_ioapicwrite
  | |- quiet _ (lapicw _ _ ≫= _) _ => apply quiet_seq; [apply quiet_lapicw|]
  | |- quiet _ (outb _ _ ≫= _) _ => apply quiet_seq; [apply quiet_outb|]
  | |- quiet _ (ioapicwrite _ _ ≫= _) _ => apply quiet_seq; [apply quiet_ioapicwrite|]
  end.

Lemma quiet_lapicinit s : lapic s = base → quiet s lapicinit (λ _, True).
Proof.
  intros Hb. unfold lapicinit. eapply quiet_chain; [by apply (quiet_gets s lapic)|]. intros a ->. destruct (lapic s =? 0); [by apply quiet_ret|].
  quietly. eapply quiet_chain; [apply quiet_lapicr|]. intros v _. apply quiet_seq; [apply quiet_when; intros _; apply quiet_lapicw|].
  quietly. apply quiet_seq; [by apply quiet_delivered|apply quiet_lapicw].
Qed.

Lemma quiet_lapicid s : lapic s = base → base ≠ 0 → quiet s lapicid (λ v, v = id).
Proof.
  intros Hb Hn. unfold lapicid. eapply quiet_chain; [by apply (quiet_gets s lapic)|]. intros a ->.
  destruct (Z.eqb_spec (lapic s) 0); [congruence|]. eapply quiet_chain; [apply quiet_lapicr|]. intros v (l & ->). apply quiet_ret. rewrite Hb. apply Hdev.
Qed.

Lemma quiet_cpuid s i : lapic s = base → base ≠ 0 → list_find (λ x, x = id) (apicids s) = Some (i, id) → quiet s cpuid (λ j, j = i).
Proof.
  intros Hb Hn Hi. unfold cpuid. eapply quiet_chain; [by apply quiet_lapicid|]. intros a ->.
  eapply quiet_chain; [by apply (quiet_gets s apicids)|]. intros ids ->. rewrite Hi. by apply quiet_ret.
Qed.

Lemma quiet_ioapicenable s irq n : quiet s (ioapicenable irq n) (λ _, True).
Proof. unfold ioapicenable. quietly. Qed.

Lemma quiet_ioapicread s r : quiet s (ioapicread r) (λ _, True).
Proof. unfold ioapicread. apply quiet_seq; [apply quiet_outm|]. eapply quiet_weaken; [apply quiet_inm|done]. Qed.

Lemma quiet_ioapicinit s : LCons ∉ held s → quiet s ioapicinit (λ _, True).
Proof.
  intros Hh. unfold ioapicinit. eapply quiet_chain; [apply quiet_ioapicread|]. intros v _. eapply quiet_chain; [apply quiet_ioapicread|]. intros r _.
  eapply quiet_chain; [by apply (quiet_gets s ioapicid)|]. intros w ->. apply quiet_seq.
  - apply quiet_when. intros _. eapply quiet_cprintf; [done|]. by vm_compute.
  - apply quiet_each. intros x _. quietly.
Qed.

Lemma quiet_ready s n : quiet s (ide_ready n) (λ _, True).
Proof.
  destruct n; cbn [ide_ready]; (eapply quiet_chain; [apply quiet_inb|]); intros v (l & ->); rewrite (dv_ide _ _ Hdev); by apply quiet_ret.
Qed.

Lemma quiet_upd_cons s (f : console → console) : (∀ k, cons_ok k → cons_ok (f k) ∧ cs_locking (f k) = cs_locking k) → quiet s (upd_cons f) (λ _, True).
Proof. intros Hf l k Hk. destruct (Hf k Hk). by exists tt, l, (f k). Qed.

Lemma quiet_uartinit s : quiet s uartinit (λ _, True).
Proof.
  unfold uartinit. quietly. eapply quiet_chain; [apply quiet_inb|]. intros v _. destruct (v =? 255); [by apply quiet_ret|].
  apply quiet_seq; [by apply quiet_upd_cons|].
  apply quiet_seq; [eapply quiet_weaken; [apply quiet_inb|done]|]. apply quiet_seq; [eapply quiet_weaken; [apply quiet_inb|done]|].
  apply quiet_seq; [apply quiet_ioapicenable|]. apply quiet_each. intros x _. apply quiet_uartputc.
Qed.

Lemma quiet_picinit s : quiet s picinit (λ _, True).
Proof. unfold picinit. quietly. Qed.

(** Whether there is a disk 1 depends on the machine. *)
Lemma ide_probe_run n : ∀ s l c, cons_ok c →
  ∃ d l' c', ide_probe n (with_dev s l c) = Ret tt (with_dev (s <| havedisk1 := d |>) l' c') ∧ cons_ok c' ∧ cs_locking c' = cs_locking c.
Proof.
  induction n as [|n IH]; intros s l c Hc; cbn [ide_probe]; [exists (havedisk1 s), l, c; split; [by destruct s|done]|].
  destruct (quiet_then s (inb 503) (λ r, if r =? 0 then ide_probe n else modify (λ s, s <| havedisk1 := true |>)) _ l c (quiet_inb s 503) Hc)
    as (v & l1 & c1 & -> & Hc1 & Hl1 & _). rewrite <- Hl1. destruct (v =? 0); [by apply IH|]. by exists true, l1, c1.
Qed.
End Quiet.
