(* ===== verification/Startup.v ===== *)
(** What start-up establishes: the boot processor running main (main.c) reaches
    the scheduler with the tables loaded, the memory handed out and the first
    process ready, and the other processors running mpenter reach it too. *)

From S2P Require Import Prelude Segs Types Strings Spinlock Printf Kalloc Sched Console Vm Apic Uvm Kvm Ide Bio Blocks Bytes Fs Dir Proc Boot Main.

(** ** Runs that reach a call *)

(** The run gets to [k], in a state that satisfies [Q], when what happens at
    the points where it gives way is in [R], and something can happen there. *)
Inductive runs_to {S} (R : S → S → Prop) (k : M S unit) (Q : S → Prop) : outcome S unit → Prop :=
| rt_here s : Q s → runs_to R k Q (k s)
| rt_switch s c : (∃ s', R s s') → (∀ s', R s s' → runs_to R k Q (c s')) → runs_to R k Q (Switch s c).

(** The run returns, likewise. *)
Fixpoint total {S A} (R : S → S → Prop) (Q : A → S → Prop) (o : outcome S A) : Prop :=
  match o with
  | Ret a s => Q a s
  | Switch s k => (∃ s', R s s') ∧ ∀ s', R s s' → total R Q (k s')
  | NoFuel | Panic _ _ | Fault => False
  end.

Lemma total_bind {S A B} R (Q : B → S → Prop) (o : outcome S A) (k : A → M S B) :
  total R (λ a s, total R Q (k a s)) o → total R Q (obind o k).
Proof. induction o; cbn; naive_solver. Qed.

Lemma total_runs {S A} R (k : M S unit) (Q : S → Prop) (o : outcome S A) (n : A → M S unit) :
  total R (λ a s, runs_to R k Q (n a s)) o → runs_to R k Q (obind o n).
Proof. induction o; cbn; [naive_solver..|]. intros [Hs Ht]. apply rt_switch; naive_solver. Qed.

Lemma total_mono {S A} R (Q Q' : A → S → Prop) (o : outcome S A) : (∀ a s, Q a s → Q' a s) → total R Q o → total R Q' o.
Proof. intros HQ. induction o; cbn; naive_solver. Qed.

(** ** The tables of a CPU *)

(** The first operation only talks to devices. *)
Ltac quiet_first Hq := lazymatch goal with
  | Hc : cons_ok ?c |- context [ (?m ≫= ?k) (with_dev ?s ?l ?c) ] =>
      let l' := fresh "l" in let c' := fresh "c" in let Hc' := fresh "Hc" in let Hl := fresh "Hlk" in let E := fresh "E" in
      destruct (quiet_then s m k _ l c Hq Hc) as (? & l' & c' & E & Hc' & Hl & ?); setoid_rewrite E; clear E
  end.

Section Cpu.
Context {P : Platform} {H : Hardware} {D : DiskDriver} {V : Devsw}.
Context (base id : Z) (Hdev : devices_ready base id) (Hbase : base ≠ 0).
Implicit Types s : kernel.

(** The descriptor table of CPU [i] is filled and loaded. *)
Definition seg_tab (i : nat) (t : cputab) : cputab :=
  t <| cpu_gdt ::= Tables.fill_gdt |> <| cpu_gdtr := Descriptors.lgdt (gdt_addr i) (8 * Z.of_nat NSEGS) |>.

(** The machine identifies the CPU as the [i]th. *)
Definition is_cpu (i : nat) s : Prop := lapic s = base ∧ list_find (λ x, x = id) (apicids s) = Some (i, id).

Lemma seginit_run i s l c : is_cpu i s → cons_ok c →
  ∃ l' c', seginit (with_dev s l c) = Ret tt (with_dev (s <| ktab ::= seg_tab i |>) l' c') ∧ cons_ok c' ∧ cs_locking c' = cs_locking c.
Proof.
  intros [Hl Hi] Hc. unfold seginit.
  destruct (quiet_then s cpuid (λ i, modify (λ s, s <| ktab ::= seg_tab i |>)) _ l c (quiet_cpuid base id Hdev s i Hl Hbase Hi) Hc)
    as (j & l1 & c1 & E & Hc1 & Hl1 & ->).
  exists l1, c1. split; [|done]. etransitivity; [exact E|]. reflexivity.
Qed.

Lemma initlock_idle lk s l c : held s = [] → initlock lk (with_dev s l c) = Ret tt (with_dev s l c).
Proof. intros Hh. destruct s. cbn in Hh. subst. reflexivity. Qed.

Lemma ideinit_run s l c : held s = [] → cons_ok c →
  ∃ d l' c', ideinit (with_dev s l c) = Ret tt (with_dev (s <| havedisk1 := d |>) l' c') ∧ cons_ok c' ∧ cs_locking c' = cs_locking c.
Proof.
  intros Hh Hc. unfold ideinit. run_by (by apply initlock_idle). run.
  quiet_first (quiet_ioapicenable s IRQ_IDE (Z.of_nat (length (apicids s)) - 1)). quiet_first (quiet_ready base id Hdev s fuel). quiet_first (quiet_outb s 502 (Z.lor 224 (Z.shiftl 1 4))).
  destruct (ide_probe_run 1000 s l2 c2 Hc2) as (d & l4 & c4 & E & Hc4 & Hl4). rewrite (bind_run _ _ _ _ _ E).
  destruct (quiet_outb (s <| havedisk1 := d |>) 502 (Z.lor 224 (Z.shiftl 0 4)) l4 c4 Hc4) as ([] & l5 & c5 & E5 & Hc5 & Hl5 & _).
  exists d, l5, c5. split; [exact E5|]. split; [done|congruence].
Qed.

Lemma consoleinit_run s l c : cons_ok c →
  ∃ l' c', consoleinit (with_dev s l c) = Ret tt (with_dev s l' c') ∧ cons_ok c' ∧ cs_locking c' = true.
Proof.
  intros Hc. set (c1 := c <| cs_locking := true |>). destruct (quiet_ioapicenable s IRQ_KBD 0 l c1 Hc) as ([] & l' & c' & E & Hc' & Hl & _).
  exists l', c'. split; [exact E|done].
Qed.

(** The tables and devices of the boot processor, as main sets them up. *)
Definition trap_tab (t : cputab) : cputab := t <| k_idt ::= Tables.fill_idt sym_vectors |>.

Lemma devices_run {B} (k : K B) i s l c :
  is_cpu i s → held s = [] → bcache s = replicate (S NBUF) buf_zero → cons_ok c →
  ∃ d l' c',
    (lapicinit;; seginit;; picinit;; ioapicinit;; consoleinit;; uartinit;; pinit;; tvinit;; binit;; fileinit;; ideinit;; k) (with_dev s l c)
    = k (with_dev (s <| ktab ::= trap_tab ∘ seg_tab i |> <| bcache := fresh_cache |> <| havedisk1 := d |>) l' c')
    ∧ cons_ok c' ∧ cs_locking c' = true.
Proof.
  intros Hi Hh Hb Hc. quiet_first (quiet_lapicinit base id Hdev s (proj1 Hi)).
  destruct (seginit_run i s l0 c0 Hi Hc0) as (l1 & c1 & E & Hc1 & _). rewrite (bind_run _ _ _ _ _ E). clear E. set (s1 := s <| ktab ::= seg_tab i |>).
  quiet_first (quiet_picinit s1). quiet_first (quiet_ioapicinit s1 ltac:(change (LCons ∉ held s); rewrite Hh; apply not_elem_of_nil)).
  destruct (consoleinit_run s1 l3 c3 Hc3) as (l4 & c4 & E & Hc4 & Hl4). rewrite (bind_run _ _ _ _ _ E). clear E.
  quiet_first (quiet_uartinit s1). unfold pinit. rewrite (bind_run _ _ _ _ _ (initlock_idle LPtable s1 _ _ Hh)).
  set (s2 := s1 <| ktab ::= trap_tab |>).
  assert (Et : tvinit (with_dev s1 l5 c5) = Ret tt (with_dev s2 l5 c5)) by exact (initlock_idle LTicks s2 l5 c5 Hh). rewrite (bind_run _ _ _ _ _ Et).
  rewrite (bind_run _ _ _ _ _ (binit_fresh (with_dev s2 l5 c5) Hb)). set (s3 := s2 <| bcache := fresh_cache |>).
  change ((with_dev s2 l5 c5) <| bcache := fresh_cache |>) with (with_dev s3 l5 c5).
  unfold fileinit. rewrite (bind_run _ _ _ _ _ (initlock_idle LFtable s3 l5 c5 Hh)).
  destruct (ideinit_run s3 l5 c5 Hh Hc5) as (d & l6 & c6 & E & Hc6 & Hl6). rewrite (bind_run _ _ _ _ _ E). clear E.
  exists d, l6, c6. split; [reflexivity|]. split; [done|congruence].
Qed.
(** The interrupt table is loaded and the CPU counts as started. *)
Definition up_tab (i : nat) (t : cputab) : cputab :=
  t <| cpu_idtr := Descriptors.lidt sym_idt (8 * 256) |> <| started ::= <[i := true]> |>.

Lemma mpmain_run i s l c : is_cpu i s → LCons ∉ held s → cons_ok c →
  ∃ l' c', mpmain (with_dev s l c) = scheduler (with_dev (s <| ktab ::= up_tab i |>) l' c') ∧ cons_ok c' ∧ cs_locking c' = cs_locking c.
Proof.
  intros [Hl Hi] Hh Hc. unfold mpmain. pose proof (quiet_cpuid base id Hdev s i Hl Hbase Hi) as Hq.
  quiet_first Hq. subst x. quiet_first Hq. subst x.
  assert (∃ out, kformat (chars "cpu%d: starting %d" ++ [10]) [AInt (Z.of_nat i); AInt (Z.of_nat i)] = Some out) as [out Ho] by (eexists; reflexivity).
  quiet_first (quiet_cprintf s _ _ out Hh Ho). set (s1 := s <| ktab ::= λ t, t <| cpu_idtr := Descriptors.lidt sym_idt (8 * 256) |> |>).
  run_by (instantiate (1 := with_dev s1 l2 c2); instantiate (1 := tt); reflexivity).
  quiet_first (quiet_cpuid base id Hdev s1 i Hl Hbase Hi). subst. exists l3, c3. split; [reflexivity|]. split; [done|congruence].
Qed.

(** C25: the other processors.  A CPU that enters the kernel at mpenter, once the
    kernel's page table exists, gets to the scheduler without a panic or an
    endless wait: the kernel's page table is loaded, its descriptor table is
    filled and loaded, the interrupt table is loaded, and it is marked as
    started, which is what startothers waits for.  Only the devices and the
    console change besides. *)
Theorem mpenter_joins i s l c : is_cpu i s → LCons ∉ held s → cons_ok c →
  ∃ l' c', mpenter (with_dev s l c)
    = scheduler (with_dev (s <| cr3 := V2P (kpgdir s) |> <| ktab ::= up_tab i ∘ seg_tab i |>) l' c') ∧ cons_ok c' ∧ cs_locking c' = cs_locking c.
Proof.
  intros Hi Hh Hc. unfold mpenter. set (s1 := s <| cr3 := V2P (kpgdir s) |>).
  run_by (instantiate (1 := with_dev s1 l c); instantiate (1 := tt); reflexivity).
  destruct (seginit_run i s1 l c Hi Hc) as (l1 & c1 & E & Hc1 & Hl1). rewrite (bind_run _ _ _ _ _ E). clear E.
  set (s2 := s1 <| ktab ::= seg_tab i |>). quiet_first (quiet_lapicinit base id Hdev s2 (proj1 Hi)).
  destruct (mpmain_run i s2 l0 c0 Hi Hh Hc0) as (l2 & c2 & E & Hc2 & Hl2). exists l2, c2. split; [exact E|]. split; [done|congruence].
Qed.
End Cpu.

(** ** The memory *)

Section Memory.
Context {P : Platform} {PO : PlatformOk P}.
Implicit Types s : kernel.

(** The page directory [d] maps the kernel and nothing else, and [ps] is free. *)
Record kernel_dir s (d : Z) (tabs : gmap Z Z) (ps : list Z) : Prop := {
  kd_as : as_inv s d tabs ps ∅;
  kd_half : kernel_half (mem s) tabs
}.

Lemma kernel_dir_ext s s' d tabs ps ps' :
  kernel_dir s d tabs ps → kmem_ok s' → free_inv s' ps' → (∀ p, p ∈ ps' → ¬ owns d tabs p) →
  (∀ x, owns d tabs (page_of x) → mem s' x = mem s x) → kernel_dir s' d tabs ps'.
Proof.
  intros [Has Hh] Hk Hf Hown Hm.
  assert (Hp : ∀ p, pages_of d tabs ∅ p → owns d tabs p) by (intros p [?|(v & fl & ?%lookup_empty_Some)]; done).
  split; [by apply (as_keep s s' d tabs ps ps' ∅ Has Hk Hf); [intros p Ho%Hp Hi; by eapply Hown|auto]|].
  eapply kernel_half_keep; [exact Hh|]. intros va Hva _. destruct (as_vm _ _ _ _ _ Has) as (_ & _ & Hpt & _). by eapply entry_ext.
Qed.

(** What is free is not part of it, and its pages lie above the kernel's start. *)
Lemma kernel_dir_apart s d tabs ps p : kernel_dir s d tabs ps → owns d tabs p → p ∉ ps ∧ KERNLINK < p.
Proof.
  intros [Has _] Ho. destruct (as_vm _ _ _ _ _ Has) as (_ & _ & Hpt & Hown). split; [intros Hp; by apply (Hown p)|].
  apply page_ok_range. by eapply owns_ok.
Qed.

Lemma pages_many lo n ps : (∀ i, 0 ≤ i < n → lo + PGSIZE * i ∈ ps) → n ≤ Z.of_nat (length ps).
Proof.
  intros Hin. destruct (decide (n < 0)); [lia|].
  assert (Hs : (λ i, lo + PGSIZE * i) <$> seqZ 0 n ⊆+ ps).
  { apply NoDup_submseteq.
    - apply NoDup_fmap_2_strong; [|apply NoDup_seqZ]. unfold PGSIZE. intros. lia.
    - intros p (i & -> & Hi%elem_of_seqZ)%list_elem_of_fmap. apply Hin. lia. }
  apply submseteq_length in Hs. rewrite length_fmap, length_seqZ in Hs. lia.
Qed.

(** The pages from [vstart] to [vend]. *)
Definition page_range (vstart vend p : Z) : Prop := p mod PGSIZE = 0 ∧ vstart ≤ p ∧ p + PGSIZE ≤ vend.

(** kinit1 and kvmalloc: the pages below 4 MB are free or hold the kernel's page
    table, which is loaded. *)
Lemma kvm_run {B} (k : K B) s :
  held s = [] → freelist s = 0 → sym_end ≤ KERNBASE + 3 * 1024 * 1024 →
  ∃ s' tabs ps, (kinit1 sym_end (P2V (4 * 1024 * 1024));; kvmalloc;; k) s = k s'
    ∧ s' = s <| use_lock := false |> <| mem := mem s' |> <| freelist := freelist s' |> <| kpgdir := kpgdir s' |> <| cr3 := V2P (kpgdir s') |>
    ∧ kernel_dir s' (kpgdir s') tabs ps ∧ 190 ≤ Z.of_nat (length ps)
    ∧ (∀ x, x < sym_end → mem s' x = mem s x)
    ∧ ∀ p, page_range sym_end (KERNBASE + 4 * 1024 * 1024) p ↔ p ∈ ps ∨ owns (kpgdir s') tabs p.
Proof.
  intros Hh Hf He. pose proof link_data. pose proof data_end. set (s0 := s <| use_lock := false |>).
  destruct (freerange_run sym_end (KERNBASE + 4 * 1024 * 1024) s0 []) as (s1 & qs & Hr & Hinv & Hs1 & Hm1 & Hqs);
    [done|by split_and!; [done|constructor|constructor]|lia|unfold PHYSTOP; lia|by intros q ?%elem_of_nil|].
  rewrite app_nil_r in Hinv.
  assert (E1 : kinit1 sym_end (P2V (4 * 1024 * 1024)) s = Ret tt s1) by exact Hr. rewrite (bind_run _ _ _ _ _ E1). clear E1 Hr.
  assert (Hlen : 256 ≤ Z.of_nat (length qs)).
  { apply (pages_many (KERNBASE + 3 * 1024 * 1024)). intros i Hi. apply Hqs. split_and!; [|unfold PGSIZE; lia..].
    change (KERNBASE + 3 * 1024 * 1024) with (525056 * PGSIZE). rewrite Z.mul_comm, <- Z.mul_add_distr_l, Z.mul_comm. by apply Z.mod_mul. }
  destruct (setupkvm_run s1 qs) as (d & s2 & ps & Hr & Hres); [by rewrite Hs1|done|]. destruct (decide (d = 0)); [lia|].
  destruct Hres as [tabs [N1 N2 N3 N4 N5 N6]]. set (s3 := s2 <| kpgdir := d |> <| cr3 := V2P d |>).
  assert (E2 : kvmalloc s1 = Ret tt s3) by (unfold kvmalloc; rewrite (bind_run _ _ _ _ _ Hr); reflexivity). rewrite (bind_run _ _ _ _ _ E2). clear E2.
  exists s3, tabs, ps. split; [done|]. split; [|split; [|split; [|split]]].
  - unfold s3. rewrite N5, Hs1. by destruct s.
  - split; [|done]. by destruct N1; split.
  - pose proof (pages_bound qs ps d tabs ∅ (proj1 (proj2 Hinv))) as Hb. rewrite map_size_empty in Hb.
    enough (length qs ≤ length ps + 1 + size tabs + 0)%nat by lia. apply Hb. intros p Hp%N3. destruct Hp; [by left|right; by left].
  - intros x Hx. change (mem s2 x = mem s x). rewrite N4, Hm1; [done|by left|].
    intros (Hp & Hp' & _)%Hqs. unfold page_of in Hp'. pose proof (Z.mod_pos_bound x PGSIZE ltac:(done)). lia.
  - intros p. change (kpgdir s3) with d. rewrite <- N3. symmetry. apply Hqs.
Qed.
End Memory.

(** ** The MP tables *)

Inductive mpent := MpProc (id : Z) | MpIoapic (id : Z) | MpOther (t : Z).

Definition ent_size (e : mpent) : Z := match e with MpProc _ => MPPROCSIZE | MpIoapic _ => MPIOAPICSIZE | MpOther _ => 8 end.
Definition ent_len (es : list mpent) : Z := foldr (λ e n, ent_size e + n) 0 es.

Definition ent_at (m : memory) (p : Z) (e : mpent) : Prop :=
  match e with
  | MpProc id => m p = 0 ∧ m (p + 1) = id
  | MpIoapic id => m p = 2 ∧ m (p + 1) = id
  | MpOther t => m p = t ∧ (t = 1 ∨ t = 3 ∨ t = 4)
  end.

Fixpoint ents_at (m : memory) (p : Z) (es : list mpent) : Prop :=
  match es with
  | [] => True
  | e :: es => ent_at m p e ∧ ents_at m (p + ent_size e) es
  end.

Definition proc_ids (es : list mpent) : list Z := omap (λ e, match e with MpProc id => Some id | _ => None end) es.
Definition last_ioapic (es : list mpent) (z : Z) : Z := foldl (λ z e, match e with MpIoapic id => id | _ => z end) z es.

Lemma ent_size_pos e : 8 ≤ ent_size e.
Proof. by destruct e. Qed.
Lemma ent_len_pos es : 0 ≤ ent_len es.
Proof. induction es as [|e es IH]; cbn; [lia|]. pose proof (ent_size_pos e). unfold ent_len in IH. lia. Qed.

Lemma ent_at_ext m m' p e : (∀ x, p ≤ x < p + ent_size e → m' x = m x) → ent_at m p e → ent_at m' p e.
Proof. intros Hm. pose proof (ent_size_pos e). destruct e; cbn; rewrite !Hm by lia; done. Qed.

Lemma ents_at_ext m m' es : ∀ p, (∀ x, p ≤ x < p + ent_len es → m' x = m x) → ents_at m p es → ents_at m' p es.
Proof.
  induction es as [|e es IH]; intros p Hm; [done|]. cbn [ents_at ent_len foldr] in *. fold (ent_len es) in *.
  pose proof (ent_len_pos es). pose proof (ent_size_pos e). intros [He Hes].
  split; [eapply ent_at_ext; [|exact He]; intros; apply Hm; lia|apply IH; [intros; apply Hm; lia|done]].
Qed.

Lemma take_take_app {A} n (a b : list A) : take n (take n a ++ b) = take n (a ++ b).
Proof.
  destruct (decide (n ≤ length a)%nat).
  - by rewrite !take_app_le, take_take, Nat.min_id by (rewrite ?length_take; lia).
  - by rewrite (take_ge a) by lia.
Qed.

Lemma record_proc id (s : kernel) : (length (apicids s) ≤ NCPU)%nat →
  (if (length (apicids s) <? NCPU)%nat then s <| apicids ::= λ l, l ++ [id] |> else s) = s <| apicids ::= λ l, take NCPU (l ++ [id]) |>.
Proof.
  intros Hl. destruct (Nat.ltb_spec (length (apicids s)) NCPU); kext.
  - rewrite take_ge; [done|]. rewrite length_app. cbn. lia.
  - rewrite take_app_le, take_ge by lia. done.
Qed.

(** The loop records the processors, up to [NCPU] of them, and the I/O APIC. *)
Lemma mpinit_loop_run es : ∀ n p s,
  (length es ≤ n)%nat → ents_at (mem s) p es → (length (apicids s) ≤ NCPU)%nat →
  mpinit_loop n p (p + ent_len es) true s
  = Ret true (s <| apicids ::= λ l, take NCPU (l ++ proc_ids es) |> <| ioapicid ::= last_ioapic es |>).
Proof.
  induction es as [|e es IH]; intros n p s Hn Hat Hl.
  - cbn [ent_len foldr]. rewrite Z.add_0_r. assert (Hlt : (p <? p) = false) by (apply Z.ltb_ge; lia).
    assert (E : s = s <| apicids ::= λ l, take NCPU (l ++ proc_ids []) |> <| ioapicid ::= last_ioapic [] |>).
    { destruct s. unfold set, set_apicids, set_ioapicid. cbn in *. by rewrite app_nil_r, take_ge. }
    rewrite <- E. destruct n; cbn [mpinit_loop]; by rewrite Hlt.
  - destruct n as [|n]; [cbn in Hn; lia|]. cbn [length] in Hn. cbn [ents_at] in Hat. destruct Hat as [He Hes].
    pose proof (ent_len_pos es). pose proof (ent_size_pos e). change (ent_len (e :: es)) with (ent_size e + ent_len es). rewrite Z.add_assoc.
    cbn [mpinit_loop]. destruct (Z.ltb_spec p (p + ent_size e + ent_len es)); [|lia]. run.
    destruct e as [id|id|t]; cbn in He; destruct He as [E1 E2].
    + rewrite E1, E2. cbn [Z.eqb]. run. rewrite record_proc by done. rewrite IH; [|lia|done|change (length (take NCPU (apicids s ++ [id])) ≤ NCPU)%nat; rewrite length_take; lia].
      f_equal. kext. by rewrite take_take_app, <- app_assoc.
    + rewrite E1, E2. cbn [Z.eqb Pos.eqb]. run. rewrite IH; [done|lia|done|done].
    + rewrite E1. destruct E2 as [-> | [-> | ->]]; cbn [Z.eqb Pos.eqb orb]; (rewrite IH; [done|lia|done|done]).
Qed.

(** The memory below the kernel is unchanged. *)
Definition same_low (m m' : memory) : Prop := ∀ x, KERNBASE ≤ x < KERNLINK → m' x = m x.

Lemma sum_ext m m' p n : same_low m m' → KERNBASE ≤ p → p + Z.of_nat n ≤ KERNLINK → sum m' p n = sum m p n.
Proof. intros Hm Hp Hn. unfold sum. f_equal. f_equal. apply bytes_at_ext. intros i Hi. apply Hm. lia. Qed.

Lemma mpsearch1_loop_ext m m' n : same_low m m' → ∀ p, KERNBASE ≤ p → p + MPSIZE * Z.of_nat n ≤ KERNLINK →
  mpsearch1_loop n m' p = mpsearch1_loop n m p.
Proof.
  intros Hm. change MPSIZE with 16. induction n as [|n IH]; intros p Hp He; [done|]. cbn [mpsearch1_loop]. change MPSIZE with 16.
  rewrite (sum_ext m m') by (done || lia). rewrite (bytes_at_ext m' m p p 4) by (intros; apply Hm; lia). by rewrite IH by lia.
Qed.

Lemma mpsearch1_loop_in n m : ∀ p q, mpsearch1_loop n m p = Some q → p ≤ q ∧ q + MPSIZE ≤ p + MPSIZE * Z.of_nat n.
Proof.
  change MPSIZE with 16. induction n as [|n IH]; intros p q; [done|]. cbn [mpsearch1_loop]. destruct (_ && _)%bool; [intros [= <-]; lia|].
  intros Hq%IH. change MPSIZE with 16 in Hq. lia.
Qed.

(** The address of the extended BIOS data area. *)
Definition ebda (m : memory) : Z := Z.shiftl (Z.lor (Z.shiftl (m (P2V 1024 + 15)) 8) (m (P2V 1024 + 14))) 4.

Lemma mpsearch_low m m' : same_low m m' → 0 < ebda m ≤ EXTMEM - 1024 →
  mpsearch m' = mpsearch m ∧ ∀ mp, mpsearch m = Some mp → KERNBASE ≤ mp ∧ mp + MPSIZE ≤ KERNLINK.
Proof.
  intros Hm He. unfold mpsearch. change (Z.shiftl (Z.lor (Z.shiftl (m (P2V 1024 + 15)) 8) (m (P2V 1024 + 14))) 4) with (ebda m).
  assert (E : ebda m' = ebda m) by (unfold ebda; rewrite !Hm by (by vm_compute); done).
  change (Z.shiftl (Z.lor (Z.shiftl (m' (P2V 1024 + 15)) 8) (m' (P2V 1024 + 14))) 4) with (ebda m'). rewrite E.
  destruct (Z.eqb_spec (ebda m) 0); [lia|]. cbn [negb]. unfold mpsearch1.
  change (Z.to_nat ((1024 + MPSIZE - 1) / MPSIZE)) with 64%nat. change (Z.to_nat ((65536 + MPSIZE - 1) / MPSIZE)) with 4096%nat.
  assert (HP : P2V (ebda m) = KERNBASE + ebda m).
  { unfold P2V, uadd. rewrite u32_small; [lia|]. unfold is_u32, EXTMEM, KERNBASE in *. lia. }
  assert (Hk : KERNLINK = KERNBASE + EXTMEM) by reflexivity. rewrite HP. change (P2V 983040) with (KERNBASE + 983040). change EXTMEM with 1048576 in *.
  rewrite !(mpsearch1_loop_ext m m') by (done || (change MPSIZE with 16; lia)). split; [done|].
  intros mp. destruct (mpsearch1_loop 64 m (KERNBASE + ebda m)) as [q|] eqn:Eq; [intros [= <-]; rename Eq into Hq|intros Hq];
    apply mpsearch1_loop_in in Hq; change MPSIZE with 16 in *; lia.
Qed.

(** The machine has an MP configuration table below the kernel, at [conf], with
    the local APICs at [base] and the entries [es]. *)
Record firmware (m : memory) (conf base : Z) (es : list mpent) : Prop := {
  fw_ebda : 0 < ebda m ≤ EXTMEM - 1024;
  fw_conf : ∃ mp, mpconfig m = Some (conf, mp);
  fw_low : KERNBASE ≤ conf ∧ conf + MPCONFSIZE + ent_len es ≤ KERNLINK;
  fw_length : conf_length m conf = MPCONFSIZE + ent_len es;
  fw_lapic : conf_lapicaddr m conf = base;
  fw_entries : ents_at m (conf + MPCONFSIZE) es
}.

Lemma firmware_low m m' conf base es : same_low m m' → firmware m conf base es → firmware m' conf base es.
Proof.
  intros Hm [F1 [mp F2] F3 F4 F5 F6]. destruct (mpsearch_low m m' Hm F1) as [E Hin]. pose proof (ent_len_pos es).
  change MPCONFSIZE with 44 in *.
  assert (El : conf_length m' conf = conf_length m conf) by (unfold conf_length; by rewrite !Hm by lia).
  split.
  - assert (Ee : ebda m' = ebda m) by (unfold ebda; rewrite !Hm by (by vm_compute); done). by rewrite Ee.
  - exists mp. revert F2. unfold mpconfig. rewrite E. destruct (mpsearch m) as [q|]; [|done]. destruct (Hin q eq_refl). change MPSIZE with 16 in *.
    assert (Ep : mp_physaddr m' q = mp_physaddr m q) by (apply load32_ext; intros; apply Hm; lia). rewrite Ep.
    destruct (mp_physaddr m q =? 0); [done|]. cbv zeta. intros F2.
    assert (Ec : P2V (mp_physaddr m q) = conf).
    { revert F2. repeat case_match; by intros [= ->]. }
    rewrite Ec in *. unfold conf_version in *. rewrite El, (Hm (conf + 6)), (bytes_at_ext m' m conf conf 4), (sum_ext m m') by (done || lia || (intros; apply Hm; lia)).
    exact F2.
  - done.
  - by rewrite El.
  - rewrite <- F5. apply load32_ext. intros. apply Hm. lia.
  - eapply ents_at_ext; [|exact F6]. intros x Hx. apply Hm. change MPCONFSIZE with 44 in Hx. lia.
Qed.

Section Mpinit.
Context {P : Platform} {H : Hardware}.

(** mpinit finds the processors the table lists. *)
Lemma mpinit_run s l c conf base es :
  firmware (mem s) conf base es → (length es ≤ fuel)%nat → apicids s = [] → cons_ok c →
  ∃ l' c', mpinit fuel (with_dev s l c)
    = Ret tt (with_dev (s <| lapic := base |> <| apicids := take NCPU (proc_ids es) |> <| ioapicid ::= last_ioapic es |>) l' c')
    ∧ cons_ok c' ∧ cs_locking c' = cs_locking c.
Proof.
  intros [F1 [mp F2] F3 F4 F5 F6] Hf Ha Hc. unfold mpinit. run. change (mem (with_dev s l c)) with (mem s). rewrite F2. run. rewrite F4, F5, Z.add_assoc.
  set (s1 := s <| lapic := base |>).
  assert (E : mpinit_loop fuel (conf + MPCONFSIZE) (conf + MPCONFSIZE + ent_len es) true (with_dev s1 l c)
    = Ret true (with_dev (s <| lapic := base |> <| apicids := take NCPU (proc_ids es) |> <| ioapicid ::= last_ioapic es |>) l c)).
  { rewrite mpinit_loop_run by (done || (change (apicids (with_dev s1 l c)) with (apicids s); rewrite Ha; cbn; lia)).
    f_equal. destruct s. cbn in Ha. subst. reflexivity. }
  run_by (exact E). cbn [negb]. set (s2 := s <| lapic := base |> <| apicids := take NCPU (proc_ids es) |> <| ioapicid ::= last_ioapic es |>).
  assert (Hq : quiet s2 (when (negb (mp_imcrp (mem s) mp =? 0)) (outb 34 112;; v ← inb 35; outb 35 (Z.lor v 1))) (λ _, True)).
  { apply quiet_when. intros _. apply quiet_seq; [apply quiet_outb|]. eapply quiet_chain; [apply quiet_inb|]. intros. apply quiet_outb. }
  destruct (Hq l c Hc) as ([] & l' & c' & Er & Hc' & Hl & _). exists l', c'. split; [exact Er|done].
Qed.
End Mpinit.

(** ** The other processors *)

Section Others.
Context {P : Platform} {PO : PlatformOk P} {H : Hardware} {D : DiskDriver} {V : Devsw}.
Context (base id : Z) (Hdev : devices_ready base id) (Hbase : base ≠ 0) (me : nat).
Implicit Types s : kernel.

(** CPU [i] is the first that has not started, the one that runs main apart. *)
Definition starting (t : cputab) (n i : nat) : Prop :=
  (i < n)%nat ∧ i ≠ cpu_no t ∧ started t !!! i = false ∧ ∀ j, (j < i)%nat → j ≠ cpu_no t → started t !!! j = true.

(** While startothers waits, the CPU it has woken up gets to the scheduler. *)
Definition joins s s' : Prop :=
  ∃ i l c, starting (ktab s) (length (apicids s)) i ∧ cons_ok c ∧ cs_locking c = cs_locking (kcons s)
    ∧ s' = with_dev (s <| ktab ::= λ t, t <| started ::= <[i := true]> |> |>) l c.

(** The CPUs below [i] have started. *)
Definition up_to (i : nat) : list bool := (λ j, bool_decide (j < i ∧ j ≠ me)%nat) <$> seq 0 NCPU.

Lemma up_to_lookup i j : up_to i !! j = if decide (j < NCPU)%nat then Some (bool_decide (j < i ∧ j ≠ me)%nat) else None.
Proof.
  unfold up_to. rewrite list_lookup_fmap. case_decide; [by rewrite lookup_seq_lt|]. by rewrite lookup_seq_ge by lia.
Qed.

Lemma up_to_total i j : (j < NCPU)%nat → up_to i !!! j = bool_decide (j < i ∧ j ≠ me)%nat.
Proof. intros Hj. rewrite list_lookup_total_alt, up_to_lookup. by rewrite decide_True. Qed.

Lemma up_to_S i : (i < NCPU)%nat → i ≠ me → <[i := true]> (up_to i) = up_to (S i).
Proof.
  intros Hi Hm. apply list_eq. intros j. destruct (decide (j = i)) as [->|Hne].
  - rewrite list_lookup_insert_eq by (unfold up_to; by rewrite length_fmap, length_seq). rewrite up_to_lookup, decide_True by done.
    f_equal. symmetry. apply bool_decide_eq_true. lia.
  - rewrite list_lookup_insert_ne by done. rewrite !up_to_lookup. case_decide; [|done]. f_equal. apply bool_decide_ext. lia.
Qed.

Lemma up_to_0 : up_to 0 = replicate NCPU false.
Proof.
  apply list_eq. intros j. rewrite up_to_lookup. case_decide.
  - by rewrite lookup_replicate_2.
  - symmetry. apply lookup_replicate_None. lia.
Qed.

Lemma up_to_me : up_to me = up_to (S me).
Proof. apply list_eq. intros j. rewrite !up_to_lookup. case_decide; [|done]. f_equal. apply bool_decide_ext. lia. Qed.

Lemma starting_up_to t n i j : started t = up_to i → cpu_no t = me → (n ≤ NCPU)%nat → (i < n)%nat → i ≠ me → starting t n j → j = i.
Proof.
  intros Ht Hm Hn Hi Hne (Hj & Hjm & Hf & Hall). rewrite Ht in *. rewrite Hm in *. rewrite up_to_total in Hf by lia. apply bool_decide_eq_false in Hf.
  destruct (decide (i < j)%nat) as [Hlt|]; [|lia]. specialize (Hall i Hlt Hne). rewrite up_to_total in Hall by lia. apply bool_decide_eq_true in Hall. lia.
Qed.

(** Only memory below the kernel is written. *)
Definition same_high (m m' : memory) : Prop := ∀ x, KERNLINK ≤ x → m' x = m x.

Lemma store_low m a v : a + 4 ≤ KERNLINK → same_high m (store32 m a v).
Proof. intros Ha x Hx. apply store32_other. lia. Qed.

Lemma put_low m a bs : a + Z.of_nat (length bs) ≤ KERNLINK → same_high m (Vm.put_bytes m a bs).
Proof. intros Ha x Hx. rewrite put_bytes_lookup. bool_cases; cbn; (done || lia). Qed.

Lemma lapicstartap_run apicid addr s l c : cons_ok c →
  ∃ m' l' c', lapicstartap apicid addr (with_dev s l c) = Ret tt (with_dev (s <| mem := m' |>) l' c')
    ∧ same_high (mem s) m' ∧ cons_ok c' ∧ cs_locking c' = cs_locking c.
Proof.
  intros Hc. unfold lapicstartap. quiet_first (quiet_outb s CMOS_PORT 15). quiet_first (quiet_outb s (CMOS_PORT + 1) 10). cbv zeta.
  set (m' := Vm.put_bytes (mem s) (P2V (Z.lor (Z.shiftl 64 4) 103)) [0; 0; u8 (Z.shiftr addr 4); u8 (Z.shiftr addr 12)]).
  run_by (instantiate (1 := with_dev (s <| mem := m' |>) l1 c1); instantiate (1 := tt); reflexivity). set (s1 := s <| mem := m' |>).
  quiet_first (quiet_lapicw s1 ICRHI (Z.shiftl apicid 24)). quiet_first (quiet_lapicw s1 ICRLO (Z.lor (Z.lor LINIT LEVEL) ASSERT)). quiet_first (quiet_lapicw s1 ICRLO (Z.lor LINIT LEVEL)).
  assert (Hq : quiet s1 (for_each [0; 1] (λ _, lapicw ICRHI (Z.shiftl apicid 24);; lapicw ICRLO (Z.lor STARTUP (Z.shiftr addr 12)))) (λ _, True)).
  { apply quiet_each. intros x' _. apply quiet_seq; apply quiet_lapicw. }
  destruct (Hq l4 c4 Hc4) as ([] & l5 & c5 & E & Hc5 & Hl5 & _). exists m', l5, c5. split; [exact E|].
  split; [by apply put_low|]. split; [done|congruence].
Qed.
(** startothers has started the CPUs below [i]; [ps] is free. *)
Record awaiting s (ps : list Z) (i : nat) : Prop := {
  aw_cpu : is_cpu base id me s;
  aw_no : cpu_no (ktab s) = me;
  aw_num : (length (apicids s) ≤ NCPU)%nat;
  aw_up : started (ktab s) = up_to i;
  aw_lock : kmem_ok s;
  aw_free : free_inv s ps
}.

(** What a round of startothers leaves. *)
Definition awaited s (i : nat) (fl : Z) (m' : memory) : kernel :=
  s <| mem := m' |> <| freelist := fl |> <| ktab ::= λ t, t <| started := up_to i |> |>.

Lemma awaited_ok s p ps i m' : awaiting s (p :: ps) i → same_high (mem s) m' → awaiting (awaited s (S i) (load32 (mem s) p) m') ps (S i).
Proof.
  intros [A1 A2 A3 A4 A5 A6] Hm. split; try done. apply kalloc_pop in A6 as (Hp & Hn & Hf). eapply free_inv_ext; [exact Hf|done|].
  intros q x Hq Hx. symmetry. apply Hm. destruct Hf as (_ & _ & Hok). rewrite Forall_forall in Hok. destruct (page_ok_range q (Hok q Hq)). lia.
Qed.

Lemma wait_started_run n s l c i : started (ktab s) = up_to i → cpu_no (ktab s) = me → (length (apicids s) ≤ NCPU)%nat →
  (i < length (apicids s))%nat → i ≠ me → (0 < n)%nat → cons_ok c →
  total joins (λ _ s', ∃ l' c', s' = with_dev (s <| ktab ::= λ t, t <| started := up_to (S i) |> |>) l' c' ∧ cons_ok c' ∧ cs_locking c' = cs_locking c)
    (wait_started n i (with_dev s l c)).
Proof.
  intros Hs Hno Hn Hi Hm Hf Hc. destruct n as [|n]; [lia|]. cbn [wait_started]. run.
  change (ktab (with_dev s l c)) with (ktab s). rewrite Hs, up_to_total, bool_decide_eq_false_2 by lia. cbn match.
  change (total joins (λ _ s', ∃ l' c', s' = with_dev (s <| ktab ::= λ t, t <| started := up_to (S i) |> |>) l' c' ∧ cons_ok c' ∧ cs_locking c' = cs_locking c)
    (Switch (with_dev s l c) (λ s', wait_started n i s'))).
  cbn [total]. split.
  { eexists. exists i, l, c. split; [|done]. change (starting (ktab s) (length (apicids s)) i). split; [done|]. rewrite Hno, Hs. split; [done|].
    split; [rewrite up_to_total by lia; apply bool_decide_eq_false; lia|]. intros j Hj Hjm. rewrite up_to_total by lia. apply bool_decide_eq_true. lia. }
  intros s' (j & l' & c' & Hj & Hc' & Hl & ->).
  change (ktab (with_dev s l c)) with (ktab s) in Hj. change (apicids (with_dev s l c)) with (apicids s) in Hj.
  apply (starting_up_to _ _ i) in Hj; [subst j|done..].
  set (s1 := s <| ktab ::= λ t, t <| started ::= <[i := true]> |> |>).
  assert (E1 : started (ktab s1) = up_to (S i)) by (change (<[i := true]> (started (ktab s)) = up_to (S i)); rewrite Hs; apply up_to_S; lia).
  assert (E : wait_started n i (with_dev s1 l' c') = Ret tt (with_dev s1 l' c')).
  { destruct n; cbn [wait_started]; run; change (ktab (with_dev s1 l' c')) with (ktab s1); by rewrite E1, up_to_total, bool_decide_eq_true_2 by lia. }
  change (total joins (λ _ s', ∃ l' c', s' = with_dev (s <| ktab ::= λ t, t <| started := up_to (S i) |> |>) l' c' ∧ cons_ok c' ∧ cs_locking c' = cs_locking c)
    (wait_started n i (with_dev s1 l' c'))).
  rewrite E. cbn [total]. exists l', c'. split; [|done]. rewrite <- E1. by destruct s as [? ? ? ? ? ? ? ? ? ? ? ? ? ? ? ? ? ? ? ? ? ? ? ? ? ? ? ? ? ? []].
Qed.

(** A round: the CPU gets a stack and is started. *)
Definition start_one (i : nat) (apicid : Z) : K unit :=
  stack ← kalloc;
  Kalloc.store (usub CODE 4) (uadd stack KSTACKSIZE);;
  Kalloc.store (usub CODE 8) sym_mpenter;;
  Kalloc.store (usub CODE 12) (V2P sym_entrypgdir);;
  lapicstartap apicid (V2P CODE);;
  wait_started fuel i.

Lemma start_one_run i apicid s l c p ps :
  awaiting s (p :: ps) i → (i < length (apicids s))%nat → i ≠ me → (0 < fuel)%nat → cons_ok c →
  total joins (λ _ s', ∃ m' l' c', s' = with_dev (awaited s (S i) (load32 (mem s) p) m') l' c' ∧ same_high (mem s) m'
      ∧ cons_ok c' ∧ cs_locking c' = cs_locking c)
    (start_one i apicid (with_dev s l c)).
Proof.
  intros [A1 A2 A3 A4 A5 A6] Hi Hm Hf Hc. unfold start_one. run_by (exact (kalloc_run (with_dev s l c) (p :: ps) A5 A6)).
  set (m1 := store32 (store32 (store32 (mem s) (usub CODE 4) (uadd p KSTACKSIZE)) (usub CODE 8) sym_mpenter) (usub CODE 12) (V2P sym_entrypgdir)).
  assert (Hm1 : same_high (mem s) m1) by (intros x Hx; unfold m1; rewrite !store_low by (done || by vm_compute); done).
  unfold Kalloc.store. run. run. run. set (s1 := s <| freelist := load32 (mem s) p |> <| mem := m1 |>).
  destruct (lapicstartap_run apicid (V2P CODE) s1 l c Hc) as (m2 & l2 & c2 & E & Hm2 & Hc2 & Hl2).
  change (total joins (λ _ s', ∃ m' l' c', s' = with_dev (awaited s (S i) (load32 (mem s) p) m') l' c' ∧ same_high (mem s) m'
      ∧ cons_ok c' ∧ cs_locking c' = cs_locking c) ((lapicstartap apicid (V2P CODE);; wait_started fuel i) (with_dev s1 l c))).
  rewrite (bind_run _ _ _ _ _ E). cbv beta. eapply total_mono; [|apply (wait_started_run fuel (s1 <| mem := m2 |>) l2 c2 i); done].
  intros _ s' (l' & c' & -> & Hc' & Hl'). exists m2, l', c'. split; [done|]. split; [intros x Hx; rewrite Hm2 by done; by apply Hm1|]. split; [done|congruence].
Qed.
Definition start_round : nat * Z → K unit := λ '(i, apicid),
  me ← cpuid;
  if (i =? me)%nat then mret tt else start_one i apicid.

(** The other CPUs from [i] on, of [n]. *)
Definition other_cpus (i n : nat) : list nat := filter (λ j, j ≠ me) (seq i (n - i)).

(** What startothers leaves when it is at CPU [i] with [ps] free. *)
Definition others_up s (i : nat) (ps : list Z) (lk : bool) s' : Prop :=
  ∃ fl m' l' c' stacks ps', s' = with_dev (awaited s (length (apicids s)) fl m') l' c' ∧ same_high (mem s) m'
    ∧ cons_ok c' ∧ cs_locking c' = lk ∧ ps = stacks ++ ps' ∧ length stacks = length (other_cpus i (length (apicids s))) ∧ free_inv s' ps'.

Lemma other_cpus_S i n : (i < n)%nat → other_cpus i n = if decide (i ≠ me) then i :: other_cpus (S i) n else other_cpus (S i) n.
Proof.
  intros Hi. unfold other_cpus. replace (n - i)%nat with (S (n - S i)) by lia. cbn [seq]. rewrite filter_cons. by repeat case_decide.
Qed.

Lemma start_loop_run ids : ∀ i s l c ps,
  awaiting s ps i → (i + length ids = length (apicids s))%nat → (length ids ≤ length ps)%nat → (0 < fuel)%nat → cons_ok c →
  total joins (λ _ s', others_up s i ps (cs_locking c) s') (for_each (imap (λ j, pair (i + j)%nat) ids) start_round (with_dev s l c)).
Proof.
  induction ids as [|a ids IH]; intros i s l c ps Haw Hi Hps Hf Hc; cbn [length] in *.
  - cbn [imap for_each]. exists (freelist s), (mem s), l, c, [], ps.
    rewrite Nat.add_0_r in Hi. subst i. split; [|split; [done|]; do 3 (split; [done|]); split; [unfold other_cpus; by rewrite Nat.sub_diag|by destruct Haw]]. pose proof (aw_up _ _ _ Haw) as E.
    unfold awaited. rewrite <- E. by destruct s as [? ? ? ? ? ? ? ? ? ? ? ? ? ? ? ? ? ? ? ? ? ? ? ? ? ? ? ? ? ? []].
  - rewrite imap_cons, Nat.add_0_r. cbn [for_each].
    rewrite (imap_ext _ (λ j, pair (S i + j)%nat)) by (intros j x _; cbn; by rewrite Nat.add_succ_r).
    apply total_bind. change (start_round (i, a)) with (cpuid ≫= λ me0, if (i =? me0)%nat then mret tt else start_one i a). destruct (aw_cpu _ _ _ Haw) as [Hl Hid].
    quiet_first (quiet_cpuid base id Hdev s me Hl Hbase Hid). subst. destruct (Nat.eqb_spec i me) as [->|Hne].
    + cbn [total mret M_ret]. rewrite <- Hlk. unfold others_up. rewrite other_cpus_S, decide_False by (tauto || lia).
      apply IH; [|lia|lia|done|done]. destruct Haw as [A1 A2 A3 A4 A5 A6]. split; try done. by rewrite <- up_to_me.
    + destruct ps as [|p ps]; [cbn in Hps; lia|]. cbn [length] in Hps.
      eapply total_mono; [|apply (start_one_run i a s l0 c0 p ps); (done || lia)].
      intros _ s' (m' & l' & c' & -> & Hm & Hc' & Hl'). pose proof (awaited_ok s p ps i m' Haw Hm) as Haw'.
      eapply total_mono; [|apply (IH (S i) _ l' c' ps Haw'); [cbn [Nat.add]; change (apicids (awaited _ _ _ _)) with (apicids s); lia|lia|done|done]].
      intros _ s'' (fl & m2 & l2 & c2 & st & ps' & -> & Hm2 & Hc2 & Hl2 & -> & Hst & Hf2). exists fl, m2, l2, c2, (p :: st), ps'.
      split; [done|]. split; [intros x Hx; rewrite Hm2 by done; by apply Hm|]. split; [done|]. split; [congruence|]. split; [done|].
      split; [|done]. rewrite other_cpus_S, decide_True by (done || lia). cbn [length]. by rewrite Hst.
Qed.

(** startothers starts every CPU, each with a page for its stack. *)
Lemma startothers_run s l c ps :
  awaiting s ps 0 → (length (apicids s) ≤ length ps)%nat → (0 < fuel)%nat → cons_ok c → Z.of_nat (length entryother_img) ≤ PGSIZE →
  total joins (λ _ s', others_up s 0 ps (cs_locking c) s') (startothers (with_dev s l c)).
Proof.
  intros [A1 A2 A3 A4 A5 A6] Hn Hf Hc He. unfold startothers. run. set (m1 := Vm.put_bytes (mem s) CODE entryother_img).
  assert (Hm1 : same_high (mem s) m1) by (apply put_low; change CODE with (KERNBASE + 28672); change KERNLINK with (KERNBASE + 1048576); unfold PGSIZE in He; lia).
  set (s1 := s <| mem := m1 |>). run.
  assert (Haw : awaiting s1 ps 0).
  { split; try done. eapply free_inv_ext; [exact A6|done|]. intros q x Hq Hx. symmetry. apply Hm1.
    destruct A6 as (_ & _ & Hok). rewrite Forall_forall in Hok. destruct (page_ok_range q (Hok q Hq)). lia. }
  eapply total_mono; [|exact (start_loop_run (apicids s) 0 s1 l c ps Haw eq_refl Hn Hf Hc)].
  intros _ s'' (fl & m2 & l2 & c2 & st & ps' & -> & Hm2 & Hr). exists fl, m2, l2, c2, st, ps'. split; [done|].
  split; [intros x Hx; rewrite Hm2 by done; by apply Hm1|done].
Qed.
End Others.

(** ** The first process *)

Section First.
Context {P : Platform} {PO : PlatformOk P} {H : Hardware} {D : DiskDriver} {V : Devsw}.
Implicit Types s : kernel.

(** kinit2 frees the rest of the memory. *)
Lemma kinit2_run s d tabs ps :
  held s = [] → kernel_dir s d tabs ps → (∀ q, q ∈ ps → q + PGSIZE ≤ KERNBASE + 4 * 1024 * 1024) → sym_end ≤ KERNBASE + 3 * 1024 * 1024 →
  (∀ q, owns d tabs q → q + PGSIZE ≤ KERNBASE + 4 * 1024 * 1024) →
  ∃ s' qs, kinit2 (P2V (4 * 1024 * 1024)) (P2V PHYSTOP) s = Ret tt s'
    ∧ s' = s <| mem := mem s' |> <| freelist := freelist s' |> <| use_lock := true |>
    ∧ kernel_dir s' d tabs (qs ++ ps) ∧ (∀ q, q ∈ qs ↔ page_range (KERNBASE + 4 * 1024 * 1024) (KERNBASE + PHYSTOP) q)
    ∧ 1000 ≤ Z.of_nat (length qs).
Proof.
  intros Hh Hd Hps He Hown. destruct (kd_as _ _ _ _ Hd) as [(Hk & Hf & _) _ _ _]. pose proof link_data. pose proof data_end.
  destruct (freerange_run (KERNBASE + 4 * 1024 * 1024) (KERNBASE + PHYSTOP) s ps Hk Hf) as (s1 & qs & Hr & Hinv & Hs1 & Hm1 & Hqs);
    [unfold PHYSTOP; lia|lia|by left; auto|].
  set (s2 := s1 <| use_lock := true |>). exists s2, qs.
  assert (E : kinit2 (P2V (4 * 1024 * 1024)) (P2V PHYSTOP) s = Ret tt s2).
  { unfold kinit2. change (P2V (4 * 1024 * 1024)) with (KERNBASE + 4 * 1024 * 1024). change (P2V PHYSTOP) with (KERNBASE + PHYSTOP).
    by rewrite (bind_run _ _ _ _ _ Hr). }
  split; [exact E|]. split; [unfold s2; rewrite Hs1; by destruct s|]. split_and!; [|done|].
  - apply (kernel_dir_ext s s2 d tabs ps (qs ++ ps) Hd); [|exact Hinv| |].
    + intros _. change (LKmem ∉ held s1). rewrite Hs1. change (LKmem ∉ held s). rewrite Hh. apply not_elem_of_nil.
    + intros p [Hq|Hq]%elem_of_app Ho; [|by apply (kernel_dir_apart _ _ _ _ p Hd)].
      apply Hown in Ho. apply Hqs in Hq as (_ & Hq & _). unfold PGSIZE in Ho. lia.
    + intros x Ho. apply Hm1. left. apply Hown in Ho. unfold page_of in Ho. pose proof (Z.mod_pos_bound x PGSIZE ltac:(done)). lia.
  - apply (pages_many (KERNBASE + 4 * 1024 * 1024)). intros i Hi. apply Hqs. split_and!; [|unfold PGSIZE, PHYSTOP; lia..].
    change (KERNBASE + 4 * 1024 * 1024) with (525312 * PGSIZE). rewrite Z.mul_comm, <- Z.mul_add_distr_l, Z.mul_comm. by apply Z.mod_mul.
Qed.

(** The entry of the first process, from what allocproc made of it. *)
Definition first_proc (ip : nat) (p : proc) : proc :=
  p <| sz := PGSIZE |> <| tf := user_tf |> <| name ::= λ n, safestrcpy_list n (chars "initcode") 16 |>
    <| cwd := Some ip |> <| uid := 0 |> <| gid := 0 |> <| state := RUNNABLE |>.

Definition set_dir (d : Z) (p : proc) : proc := p <| pgdir := d |>.

Lemma namei_root s : held s = [] → icache s = replicate NINODE inode_zero →
  ∃ ip n ic, namei [SLASH] s = Ret (Some ip) (s <| icache := ic |>) ∧ ic !! ip = Some n ∧ i_dev n = ROOTDEV ∧ i_inum n = ROOTINO ∧ 1 ≤ i_ref n.
Proof.
  intros Hh Hi. destruct (iget_run s ROOTDEV ROOTINO Hh) as (ip & n & ic & Hr & Hn).
  { exists 0%nat, inode_zero. rewrite Hi. split; [done|by left]. }
  exists ip, n, ic. split; [|done]. unfold namei.
  assert (E : namex [SLASH] false s = Ret (Some (ip, [])) (s <| icache := ic |>)).
  { unfold namex. change (byte_at [SLASH] 0 =? SLASH) with true. cbn match. by rewrite (bind_run _ _ _ _ _ Hr). }
  by rewrite (bind_run _ _ _ _ _ E).
Qed.

Lemma userinit_steps code s s1 d s2 s3 :
  allocproc s = Ret (Some 0%nat) s1 → setupkvm (s1 <| initproc := Some 0%nat |>) = Ret d s2 → d ≠ 0 →
  inituvm d code (s2 <| ptable ::= alter (set_dir d) 0%nat |>) = Ret tt s3 → held s3 = [] → icache s3 = replicate NINODE inode_zero →
  ∃ ip n ic, userinit code s = Ret tt (s3 <| icache := ic |> <| ptable ::= alter (first_proc ip) 0%nat |>)
    ∧ ic !! ip = Some n ∧ i_dev n = ROOTDEV ∧ i_inum n = ROOTINO ∧ 1 ≤ i_ref n.
Proof.
  intros H1 H2 Hd H3 Hh Hi. unfold userinit. rewrite (bind_run _ _ _ _ _ H1). cbv beta. run. rewrite (bind_run _ _ _ _ _ H2). cbv beta. run.
  destruct (Z.eqb_spec d 0) as [|_]; [done|]. run. rewrite (bind_run _ _ _ _ _ H3). cbv beta. run.
  match goal with |- context [ (namei [SLASH] ≫= ?k) ?s4 ] => destruct (namei_root s4 Hh Hi) as (ip & n & ic & E & Hn) end.
  exists ip, n, ic. split; [|done]. rewrite (bind_run _ _ _ _ _ E). cbv beta. run. run_by (apply acquire_run; sst; rewrite Hh; apply not_elem_of_nil). run.
  rewrite release_run by (sst; by left). f_equal. kext.
  by rewrite !list_alter_alter_eq.
Qed.
(** The user memory of the first process: one page, which it may write. *)
Definition one_page (f : Z) : gmap Z (Z * Z) := {[0 := (f, Z.lor (Z.lor PTE_W PTE_U) PTE_P)]}.

(** userinit has made the first process [p], with text [code], from [s] and the
    free pages [ps], of which [ps'] are left. *)
Record first_process s s' (ps ps' : list Z) (code : list Z) (p : proc) (f : Z) (ip : nat) (tabs : gmap Z Z) : Prop := {
  fp_table : ptable s' = <[0%nat := p]> (ptable s);
  fp_proc : state p = RUNNABLE ∧ pid p = nextpid s ∧ sz p = PGSIZE ∧ tf p = user_tf ∧ cwd p = Some ip
    ∧ p_context p = mkContext 0 0 0 0 sym_forkret ∧ c_string (name p) = chars "initcode" ∧ killed p = false;
  fp_stack : load32 (mem s') (kstack p + KSTACKSIZE - TFSIZE - 4) = u32 sym_trapret;
  fp_space : as_inv s' (pgdir p) tabs ps' (one_page f);
  fp_half : kernel_half (mem s') tabs;
  fp_text : ∀ va, 0 ≤ va < PGSIZE → ubyte (mem s') (one_page f) va = Some (default 0 (code !! Z.to_nat va));
  fp_cwd : ∃ n, icache s' !! ip = Some n ∧ i_dev n = ROOTDEV ∧ i_inum n = ROOTINO ∧ 1 ≤ i_ref n;
  fp_pages : ∀ q, q ∈ ps ↔ q ∈ ps' ∨ q = kstack p ∨ pages_of (pgdir p) tabs (one_page f) q;
  fp_apart : kstack p ∉ ps' ∧ ¬ pages_of (pgdir p) tabs (one_page f) (kstack p);
  fp_cons : cons_ok (kcons s) → cons_ok (kcons s') ∧ cs_locking (kcons s') = cs_locking (kcons s);
  fp_rest : s' = s <| ptable := ptable s' |> <| nextpid ::= λ n, n + 1 |> <| initproc := Some 0%nat |> <| mem := mem s' |>
    <| freelist := freelist s' |> <| kcons := kcons s' |> <| icache := icache s' |>
}.

Lemma allocproc_ok_page s ks ps : free_inv s (ks :: ps) →
  page_ok ks ∧ ∀ x, ks + KSTACKSIZE - TFSIZE - 4 ≤ x < ks + KSTACKSIZE - TFSIZE - 4 + 4 → page_of x = ks.
Proof.
  intros (Hks & _ & _)%kalloc_pop. split; [done|]. intros x Hx. apply page_of_in; [done|]. unfold KSTACKSIZE, TFSIZE, PGSIZE in *. lia.
Qed.

Lemma userinit_run code s kd ktabs ps :
  held s = [] → ptable s = replicate NPROC proc_zero → icache s = replicate NINODE inode_zero →
  kernel_dir s kd ktabs ps → 80 ≤ Z.of_nat (length ps) → Z.of_nat (length code) < PGSIZE →
  ∃ s' ps' p f ip tabs, userinit code s = Ret tt s' ∧ kernel_dir s' kd ktabs ps' ∧ first_process s s' ps ps' code p f ip tabs.
Proof.
  intros Hh Hpt Hic Hkd Hlen Hcode. destruct (as_vm _ _ _ _ _ (kd_as _ _ _ _ Hkd)) as (Hk & Hf & _).
  destruct ps as [|ks ps1]; [cbn in Hlen; lia|]. cbn [length] in Hlen.
  destruct (allocproc_ok_free s 0 ks ps1 Hf) as (Hks & Hst & Hf1 & Hm1). set (s1 := (allocproc_ok s 0 ks) <| initproc := Some 0%nat |>).
  destruct (setupkvm_run s1 ps1 Hk Hf1) as (d & s2 & ps2 & E2 & Hres). destruct (decide (d = 0)) as [|Hd]; [lia|]. destruct Hres as [tabs [N1 N2 N3 N4 N5 N6]].
  assert (Hl2 : (3 ≤ length ps2)%nat).
  { pose proof (pages_bound ps1 ps2 d tabs ∅ (proj1 (proj2 Hf1))) as Hb. rewrite map_size_empty in Hb.
    enough (length ps1 ≤ length ps2 + 1 + size tabs + 0)%nat by lia. apply Hb. intros p Hp%N3. destruct Hp; [by left|right; by left]. }
  set (s2' := s2 <| ptable ::= alter (set_dir d) 0%nat |>).
  assert (Has : as_inv s2' d tabs ps2 ∅) by (by destruct N1; split).
  destruct (inituvm_run s2' d tabs ps2 code Has Hcode Hl2) as (s3 & f & tabs3 & ps3 & E3 & G & Htext). fold (one_page f) in *.
  assert (R3 : s3 = s <| nextpid ::= λ n, n + 1 |> <| ptable ::= alter (set_dir d ∘ embryo s ks) 0%nat |> <| initproc := Some 0%nat |>
    <| mem := mem s3 |> <| freelist := freelist s3 |> <| kcons := kcons s3 |>).
  { rewrite (gr_rest _ _ _ _ _ _ _ _ _ _ G) at 1. unfold s2'. rewrite N5. kext. by rewrite <- list_alter_alter_eq. }
  destruct (userinit_steps code s (allocproc_ok s 0 ks) d s2 s3) as (ip & n & ic & E & Hn); try done.
  { rewrite (allocproc_run s (ks :: ps1)) by (done || (rewrite Hh; apply not_elem_of_nil)). by rewrite Hpt. }
  { by rewrite R3. } { by rewrite R3. }
  assert (Hm13 : ∀ x, page_of x ∉ ps1 → mem s3 x = mem s1 x).
  { intros x Hx. rewrite N3 in Hx. rewrite (gr_mem _ _ _ _ _ _ _ _ _ _ G) by tauto. apply N4. rewrite N3. tauto. }
  set (s' := s3 <| icache := ic |> <| ptable ::= alter (first_proc ip) 0%nat |>) in *.
  set (p := first_proc ip (set_dir d (embryo s ks proc_zero))).
  pose proof (gr_inv _ _ _ _ _ _ _ _ _ _ G) as Has3. destruct (as_vm _ _ _ _ _ Has3) as (K3 & I3 & _).
  pose proof (grow_pages _ _ _ _ _ _ _ _ _ _ G) as Hpg.
  assert (Hall : ∀ q, q ∈ ks :: ps1 ↔ q ∈ ps3 ∨ q = ks ∨ pages_of d tabs3 (one_page f) q).
  { intros q. rewrite elem_of_cons, N3. specialize (Hpg q). rewrite elem_of_nil in Hpg.
    assert (pages_of d tabs ∅ q ↔ owns d tabs q) as Ho.
    { split; [|by left]. intros [?|(v & fl & ?%lookup_empty_Some)]; done. }
    rewrite Ho in Hpg. tauto. }
  assert (Hms : ∀ x, page_of x ∉ ks :: ps1 → mem s' x = mem s x).
  { intros x [Hx1 Hx2]%not_elem_of_cons. change (mem s3 x = mem s x). rewrite Hm13 by done. by apply Hm1. }
  exists s', ps3, p, f, ip, tabs3. split; [exact E|]. split.
  { apply (kernel_dir_ext s s' kd ktabs (ks :: ps1) ps3 Hkd K3 I3).
    - intros q Hq Ho. apply (kernel_dir_apart _ _ _ _ q Hkd Ho), Hall. by left.
    - intros x Ho. apply Hms. by apply (kernel_dir_apart _ _ _ _ _ Hkd Ho). }
  destruct (allocproc_ok_page s ks ps1 Hf) as [Hkp Hin].
  split; try done.
  - unfold s'. rewrite R3. sst. rewrite Hpt. reflexivity.
  - etransitivity; [|exact Hst]. apply load32_ext. intros x Hx. apply Hm13. rewrite (Hin x Hx). done.
  - by destruct Has3; split.
  - eapply kernel_half_keep; [exact N2|]. intros va Hva Hkb. by rewrite <- (gr_kern _ _ _ _ _ _ _ _ _ _ G).
  - exists n. exact Hn.
  - change (ks ∉ ps3 ∧ ¬ pages_of d tabs3 (one_page f) ks). specialize (Hpg ks). rewrite N3 in Hks.
    assert (owns d tabs ks → pages_of d tabs ∅ ks) by (by left). assert (pages_of d tabs ∅ ks → owns d tabs ks) by (intros [?|(v & fl & ?%lookup_empty_Some)]; done).
    tauto.
  - intros Hc. assert (Ec : kcons s2' = kcons s) by (unfold s2'; by rewrite N5). change (kcons s') with (kcons s3).
    rewrite (gr_lock _ _ _ _ _ _ _ _ _ _ G), Ec. split; [|done]. apply (gr_cons _ _ _ _ _ _ _ _ _ _ G). by rewrite Ec.
  - unfold s'. rewrite R3. kext.
Qed.
End First.

(** ** main *)

Section Boots.
Context {P : Platform} {PO : PlatformOk P} {H : Hardware} {D : DiskDriver} {V : Devsw}.
Context (base id : Z) (Hdev : devices_ready base id) (Hbase : base ≠ 0) (me : nat).
Implicit Types s : kernel.

(** The kernel as it is loaded, on CPU [me], with the memory and the screen as
    the firmware and the boot loader leave them. *)
Definition boot_state (m : memory) (c : console) : kernel :=
  kernel_zero <| mem := m |> <| kcons := c |> <| ktab := cputab_zero <| cpu_no := me |> |>.

(** The state before startothers. *)
Record prepared (m : memory) (ids : list Z) (tabs : gmap Z Z) (ps : list Z) s : Prop := {
  pr_dir : kernel_dir s (kpgdir s) tabs ps;
  pr_num : 190 ≤ Z.of_nat (length ps);
  pr_pages : ∀ p, page_range sym_end (KERNBASE + 4 * 1024 * 1024) p ↔ p ∈ ps ∨ owns (kpgdir s) tabs p;
  pr_rest : ∃ io d l c, s = (boot_state m c) <| mem := mem s |> <| freelist := freelist s |> <| kpgdir := kpgdir s |> <| cr3 := V2P (kpgdir s) |>
    <| lapic := base |> <| apicids := ids |> <| ioapicid := io |> <| ktab ::= trap_tab ∘ seg_tab me |> <| bcache := fresh_cache |>
    <| havedisk1 := d |> <| iolog := l |>
}.

Lemma main_prepares code m c conf es :
  firmware m conf base es → (length es ≤ fuel)%nat → list_find (λ x, x = id) (take NCPU (proc_ids es)) = Some (me, id) →
  cons_ok c → sym_end ≤ KERNBASE + 3 * 1024 * 1024 →
  ∃ tabs ps s, main code (boot_state m c)
      = (startothers;; kinit2 (P2V (4 * 1024 * 1024)) (P2V PHYSTOP);; userinit code;; mpmain) s
    ∧ prepared m (take NCPU (proc_ids es)) tabs ps s ∧ cons_ok (kcons s) ∧ cs_locking (kcons s) = true.
Proof.
  intros Hfw Hfuel Hid Hc He. unfold main.
  lazymatch goal with |- context [kvmalloc ≫= λ _, ?k] => destruct (kvm_run k (boot_state m c)) as (s1 & tabs & ps & E & R1 & Hkd & Hlen & Hlow & Hpg); [done|done|done|] end.
  setoid_rewrite E. clear E.
  assert (Es : s1 = with_dev s1 (iolog s1) (kcons s1)) by (by destruct s1). pose proof link_data. pose proof data_end.
  assert (Hfw1 : firmware (mem s1) conf base es) by (eapply firmware_low; [|exact Hfw]; intros x Hx; apply Hlow; lia).
  destruct (mpinit_run s1 (iolog s1) (kcons s1) conf base es Hfw1 Hfuel) as (l2 & c2 & E & Hc2 & _); [by rewrite R1|by rewrite R1|]. rewrite <- Es in E.
  setoid_rewrite (bind_run _ _ _ _ _ E). clear E.
  set (s2 := s1 <| lapic := base |> <| apicids := take NCPU (proc_ids es) |> <| ioapicid ::= last_ioapic es |>).
  lazymatch goal with |- context [ideinit ≫= λ _, ?k] => destruct (devices_run base id Hdev Hbase k me s2 l2 c2) as (d & l3 & c3 & E & Hc3 & Hl3) end;
    [done|unfold s2; by rewrite R1|unfold s2; by rewrite R1|done|].
  setoid_rewrite E. clear E.
  exists tabs, ps, (with_dev (s2 <| ktab ::= trap_tab ∘ seg_tab me |> <| bcache := fresh_cache |> <| havedisk1 := d |>) l3 c3).
  split; [done|]. split; [|done]. split; [by destruct Hkd as [[] ?]; split|done|done|].
  exists (last_ioapic es 0), d, l3, c3. unfold s2. rewrite R1. reflexivity.
Qed.
(** The tables of the boot processor when [n] CPUs have started. *)
Definition boot_tab (n : nat) : cputab :=
  up_tab me ((trap_tab (seg_tab me (cputab_zero <| cpu_no := me |>))) <| started := up_to me n |>).

(** The kernel is up with [n] CPUs: [ps] is free, [stacks] are the stacks of the
    other CPUs, [p] is the first process, whose text [code] is in the page [f]. *)
Record booted (n : nat) (code : list Z) (tabs utabs : gmap Z Z) (ps stacks : list Z) (p : proc) (f : Z) (ip : nat) s : Prop := {
  bt_idle : held s = [] ∧ curproc s = None ∧ use_lock s = true ∧ cs_locking (kcons s) = true ∧ bcache s = fresh_cache;
  bt_cpu : ktab s = boot_tab n ∧ cr3 s = V2P (kpgdir s);
  bt_kernel : kernel_dir s (kpgdir s) tabs ps;
  bt_procs : ptable s = <[0%nat := p]> (replicate NPROC proc_zero) ∧ initproc s = Some 0%nat;
  bt_first : state p = RUNNABLE ∧ pid p = 1 ∧ sz p = PGSIZE ∧ tf p = user_tf ∧ cwd p = Some ip
    ∧ p_context p = mkContext 0 0 0 0 sym_forkret ∧ c_string (name p) = chars "initcode" ∧ killed p = false;
  bt_ret : load32 (mem s) (kstack p + KSTACKSIZE - TFSIZE - 4) = u32 sym_trapret;
  bt_space : as_inv s (pgdir p) utabs ps (one_page f) ∧ kernel_half (mem s) utabs;
  bt_text : ∀ va, 0 ≤ va < PGSIZE → ubyte (mem s) (one_page f) va = Some (default 0 (code !! Z.to_nat va));
  bt_cwd : ∃ i, icache s !! ip = Some i ∧ i_dev i = ROOTDEV ∧ i_inum i = ROOTINO ∧ 1 ≤ i_ref i;
  bt_stacks : NoDup stacks ∧ length stacks = length (other_cpus me 0 n)
    ∧ ∀ q, q ∈ stacks → q ∉ ps ∧ ¬ owns (kpgdir s) tabs q ∧ q ≠ kstack p ∧ ¬ pages_of (pgdir p) utabs (one_page f) q;
  bt_apart : (kstack p ∉ ps ∧ ¬ pages_of (pgdir p) utabs (one_page f) (kstack p))
    ∧ ∀ q, owns (kpgdir s) tabs q → q ≠ kstack p ∧ ¬ pages_of (pgdir p) utabs (one_page f) q;
  bt_pages : ∀ q, page_range sym_end (KERNBASE + PHYSTOP) q
    ↔ q ∈ ps ∨ owns (kpgdir s) tabs q ∨ q ∈ stacks ∨ q = kstack p ∨ pages_of (pgdir p) utabs (one_page f) q
}.

Lemma page_range_split q :
  sym_end ≤ KERNBASE + 4 * 1024 * 1024 →
  page_range sym_end (KERNBASE + PHYSTOP) q
  ↔ page_range sym_end (KERNBASE + 4 * 1024 * 1024) q ∨ page_range (KERNBASE + 4 * 1024 * 1024) (KERNBASE + PHYSTOP) q.
Proof.
  intros He. unfold page_range, PGSIZE, PHYSTOP. pose proof (Z_div_mod_eq_full q 4096).
  change (KERNBASE + 4 * 1024 * 1024) with (4096 * 525312) in *. change (KERNBASE + 234881024) with (4096 * 581632). lia.
Qed.

(** kinit2 and userinit, when the other CPUs are up. *)
Lemma main_memory code m ids tabs ps s s4 :
  prepared m ids tabs ps s → others_up me s 0 ps true s4 → sym_end ≤ KERNBASE + 3 * 1024 * 1024 → Z.of_nat (length code) < PGSIZE →
  ∃ s5 s6 l4 c4 stacks ps4 qs ps6 p f ip utabs,
    kinit2 (P2V (4 * 1024 * 1024)) (P2V PHYSTOP) s4 = Ret tt s5 ∧ userinit code s5 = Ret tt s6
    ∧ s5 = s <| ktab ::= λ t, t <| started := up_to me (length ids) |> |> <| use_lock := true |>
             <| mem := mem s5 |> <| freelist := freelist s5 |> <| iolog := l4 |> <| kcons := c4 |>
    ∧ cons_ok c4 ∧ cs_locking c4 = true ∧ ps = stacks ++ ps4 ∧ length stacks = length (other_cpus me 0 (length ids))
    ∧ (∀ q, q ∈ qs ↔ page_range (KERNBASE + 4 * 1024 * 1024) (KERNBASE + PHYSTOP) q)
    ∧ kernel_dir s5 (kpgdir s) tabs (qs ++ ps4) ∧ kernel_dir s6 (kpgdir s) tabs ps6 ∧ first_process s5 s6 (qs ++ ps4) ps6 code p f ip utabs.
Proof.
  intros [Hkd Hlen Hpg (io & dk & l & c & R)] (fl & m4 & l4 & c4 & stacks & ps4 & E4 & Hm4 & Hc4 & Hl4 & Hps & Hst & Hf4) He Hcode.
  assert (Hn : apicids s = ids) by (by rewrite R). rewrite Hn in *.
  assert (Hd4 : kernel_dir s4 (kpgdir s) tabs ps4).
  { apply (kernel_dir_ext s s4 _ _ ps); [done|rewrite E4, R; done|done| |].
    - intros p Hp Ho. apply (kernel_dir_apart _ _ _ _ p Hkd Ho). rewrite Hps. apply elem_of_app. by right.
    - intros x Ho. rewrite E4. apply Hm4. apply (kernel_dir_apart _ _ _ _ _ Hkd) in Ho as [_ Ho]. unfold page_of in Ho.
      pose proof (Z.mod_pos_bound x PGSIZE ltac:(done)). lia. }
  destruct (kinit2_run s4 (kpgdir s) tabs ps4) as (s5 & qs & E5 & R5 & Hd5 & Hqs & Hlen5); [by rewrite E4, R|done| |done| |].
  { intros q Hq. apply Hpg. left. rewrite Hps. apply elem_of_app. by right. } { intros q Hq. apply Hpg. by right. }
  destruct (userinit_run code s5 (kpgdir s) tabs (qs ++ ps4)) as (s6 & ps6 & p & f & ip & utabs & E6 & Hd6 & F);
    [by rewrite R5, E4, R|by rewrite R5, E4, R|by rewrite R5, E4, R|done|rewrite length_app; lia|done|].
  exists s5, s6, l4, c4, stacks, ps4, qs, ps6, p, f, ip, utabs. do 2 (split; [done|]). split; [rewrite R5 at 1; rewrite E4 at 1; kext|].
  do 6 (split; [assumption|]). split; assumption.
Qed.

(** What main does when the other CPUs are up. *)
Lemma main_finishes code m ids tabs ps s s4 :
  prepared m ids tabs ps s → list_find (λ x, x = id) ids = Some (me, id) → others_up me s 0 ps true s4 →
  sym_end ≤ KERNBASE + 3 * 1024 * 1024 → Z.of_nat (length code) < PGSIZE →
  ∃ s7 utabs ps' stacks p f ip,
    (kinit2 (P2V (4 * 1024 * 1024)) (P2V PHYSTOP);; userinit code;; mpmain) s4 = scheduler s7
    ∧ booted (length ids) code tabs utabs ps' stacks p f ip s7.
Proof.
  intros Hpr Hid Hup He Hcode.
  destruct (main_memory code m ids tabs ps s s4 Hpr Hup He Hcode) as (s5 & s6 & l4 & c4 & stacks & ps4 & qs & ps6 & p & f & ip & utabs & E5 & E6 & R5 & Hc4 & Hl4 & Hps & Hst & Hqs & Hd5 & Hd6 & F).
  rewrite (bind_run _ _ _ _ _ E5). cbv beta. rewrite (bind_run _ _ _ _ _ E6). cbv beta.
  destruct Hpr as [Hkd Hlen Hpg (io & dk & l & c & R)]. destruct F as [F1 F2 F3 F4 F5 F6 F7 F8 Fa F9 F10].
  assert (Hin : ∀ q, q ∈ stacks ∨ q ∈ ps4 ∨ owns (kpgdir s) tabs q ↔ page_range sym_end (KERNBASE + 4 * 1024 * 1024) q).
  { intros q. rewrite Hpg, Hps, elem_of_app. tauto. }
  assert (Es : s6 = with_dev s6 (iolog s6) (kcons s6)) by (by destruct s6).
  destruct F9 as [Hc6 Hl6]; [by rewrite R5|].
  destruct (mpmain_run base id Hdev Hbase me s6 (iolog s6) (kcons s6)) as (l7 & c7 & E7 & Hc7 & Hl7); [| |done|].
  { by rewrite F10, R5, R. } { rewrite F10, R5, R. apply not_elem_of_nil. }
  rewrite <- Es in E7. exists (with_dev (s6 <| ktab ::= up_tab me |>) l7 c7), utabs, ps6, stacks, p, f, ip. split; [exact E7|].
  assert (Hkp : kpgdir s6 = kpgdir s) by (by rewrite F10, R5).
  assert (Ht : ktab s6 = (ktab s) <| started := up_to me (length ids) |>) by (by rewrite F10, R5).
  assert (Hnd : NoDup (stacks ++ ps4)) by (rewrite <- Hps; destruct (as_vm _ _ _ _ _ (kd_as _ _ _ _ Hkd)) as (_ & (_ & ? & _) & _); done).
  apply NoDup_app in Hnd as (Hnd & Hdisj & _).
  split.
  - change (held s6 = [] ∧ curproc s6 = None ∧ use_lock s6 = true ∧ cs_locking c7 = true ∧ bcache s6 = fresh_cache).
    rewrite Hl7, Hl6. rewrite F10, R5, R. by split_and!.
  - change (up_tab me (ktab s6) = boot_tab (length ids) ∧ cr3 s6 = V2P (kpgdir s6)). rewrite Ht, Hkp. split; [by rewrite R|]. by rewrite F10, R5, R.
  - change (kpgdir (with_dev (s6 <| ktab ::= up_tab me |>) l7 c7)) with (kpgdir s6). rewrite Hkp. by destruct Hd6 as [[] ?]; split.
  - change (ptable s6 = <[0%nat := p]> (replicate NPROC proc_zero) ∧ initproc s6 = Some 0%nat). rewrite F1. split; [by rewrite R5, R|by rewrite F10].
  - destruct F2 as (? & Hpid & ?). split; [done|]. split; [|done]. rewrite Hpid. by rewrite R5, R.
  - exact F3.
  - split; [by destruct F4; split|exact F5].
  - exact F6.
  - exact F7.
  - change (kpgdir (with_dev (s6 <| ktab ::= up_tab me |>) l7 c7)) with (kpgdir s6). rewrite Hkp. split; [done|]. split; [done|].
    intros q Hq. assert (Hq' : q ∉ qs ++ ps4).
    { intros [Hi%Hqs|Hi]%elem_of_app; [|by apply (Hdisj q)]. assert (Hr : page_range sym_end (KERNBASE + 4 * 1024 * 1024) q) by (apply Hin; by left).
      destruct Hi as (_ & Hi & _), Hr as (_ & _ & Hr). unfold PGSIZE in Hr. lia. }
    rewrite F8 in Hq'. split; [tauto|]. split; [|split; [intros ->; tauto|tauto]].
    intros Ho. apply (kernel_dir_apart _ _ _ _ q Hkd Ho). rewrite Hps. apply elem_of_app. by left.
  - change (kpgdir (with_dev (s6 <| ktab ::= up_tab me |>) l7 c7)) with (kpgdir s6). rewrite Hkp. split; [exact Fa|].
    intros q Ho. assert (Hq : q ∉ qs ++ ps4) by (by apply (kernel_dir_apart _ _ _ _ q Hd5)). rewrite F8 in Hq. split; [intros ->|]; tauto.
  - intros q. change (kpgdir (with_dev (s6 <| ktab ::= up_tab me |>) l7 c7)) with (kpgdir s6). rewrite Hkp, page_range_split by lia.
    rewrite <- Hin, <- Hqs. specialize (F8 q). rewrite elem_of_app in F8. tauto.
Qed.

(** C5: main boots the machine.  On hardware with an MP table and devices that
    answer, main, run by the boot processor in the kernel as it is loaded,
    neither panics nor faults nor waits forever: it gets to the scheduler.
    There no lock is held, and the allocator and the console use theirs; the
    descriptor and interrupt tables are filled and loaded and every CPU has
    started; the kernel's page table is loaded and maps the kernel; the first
    process is ready to run its text at user address 0 in an address space of
    its own, with the root directory; and every page of memory is free, or in
    exactly one of these uses. *)
Theorem main_boots code m c conf es :
  firmware m conf base es → (0 < length es ≤ fuel)%nat → list_find (λ x, x = id) (take NCPU (proc_ids es)) = Some (me, id) →
  cons_ok c → sym_end ≤ KERNBASE + 3 * 1024 * 1024 → Z.of_nat (length code) < PGSIZE → Z.of_nat (length entryother_img) ≤ PGSIZE →
  runs_to joins scheduler
    (λ s, ∃ tabs utabs ps stacks p f ip, booted (length (take NCPU (proc_ids es))) code tabs utabs ps stacks p f ip s)
    (main code (boot_state m c)).
Proof.
  intros Hfw Hfuel Hid Hc He Hcode Hao.
  destruct (main_prepares code m c conf es Hfw ltac:(lia) Hid Hc He) as (tabs & ps & s & E & Hpr & Hcs & Hlk). rewrite E. clear E.
  apply total_runs.
  assert (Es : s = with_dev s (iolog s) (kcons s)) by (by destruct s).
  pose proof Hpr as [Hkd Hlen Hpg (io & dk & l & c1 & R)].
  assert (Hids : apicids s = take NCPU (proc_ids es)) by (by rewrite R).
  assert (Hnum : (length (apicids s) ≤ NCPU)%nat) by (rewrite Hids, length_take; lia).
  assert (Haw : awaiting base id me s ps 0).
  { destruct (as_vm _ _ _ _ _ (kd_as _ _ _ _ Hkd)) as (Hk & Hf & _). split; try done; [split; [by rewrite R|by rewrite Hids]|by rewrite R|].
    rewrite up_to_0. by rewrite R. }
  pose proof (startothers_run base id Hdev Hbase me s (iolog s) (kcons s) ps Haw ltac:(unfold NCPU in *; lia) ltac:(lia) Hcs Hao) as Ht. rewrite <- Es, Hlk in Ht.
  eapply total_mono; [|exact Ht]. intros a s4 H4.
  destruct (main_finishes code m _ tabs ps s s4 Hpr Hid H4 He Hcode) as (s7 & utabs & ps' & stacks & p & f & ip & E7 & Hb).
  rewrite E7. apply rt_here. by exists tabs, utabs, ps', stacks, p, f, ip.
Qed.
End Boots.

(** ** A machine *)

Module Pc.
(** Two processors and an I/O APIC, with the MP tables in the extended BIOS data
    area at [0x9fc00]. *)
Definition lapic_base : Z := 4276092928.
Definition entries : list mpent := [MpProc 0; MpProc 1; MpIoapic 2].
Definition floating : list Z := [95; 77; 80; 95; 16; 252; 9; 0; 1; 4; 139; 0; 0; 0; 0; 0].
Definition config : list Z :=
  [80; 67; 77; 80; 92; 0; 4; 141] ++ replicate 28 0 ++ [0; 0; 224; 254; 0; 0; 0; 0]
  ++ (0 :: 0 :: replicate 18 0) ++ (0 :: 1 :: replicate 18 0) ++ (2 :: 2 :: replicate 6 0).
Definition memory0 : memory := λ x,
  let o := x - KERNBASE in
  if o =? 1024 + 14 then 192 else if o =? 1024 + 15 then 159 else
  if ((654336 <=? o) && (o <? 654336 + 108))%bool then default 0 ((floating ++ config) !! Z.to_nat (o - 654336)) else 0.

(** The devices as CPU [id] sees them. *)
Definition devices (id : Z) : Hardware :=
  {| hw_inb := λ _ _, 64; hw_reg := λ _ a, if a =? lapic_base + 32 then Z.shiftl id 24 else 0 |}.
Definition nodev : Devsw := {| dev_read := λ _, None; dev_write := λ _, None |}.

Lemma devices_ok id : 0 ≤ id < 256 → devices_ready (H := devices id) lapic_base id.
Proof.
  intros Hid. split; intros l; [by vm_compute| |by vm_compute]. unfold devices, hw_reg.
  change (uadd lapic_base (4 * LID) =? lapic_base + 32) with true. cbn match. rewrite u32_small by (unfold is_u32; rewrite Z.shiftl_mul_pow2 by lia; lia).
  rewrite Z.shiftr_shiftl_r by lia. apply Z.shiftr_0_r.
Qed.

Lemma tables_ok : firmware memory0 (KERNBASE + 654352) lapic_base entries.
Proof.
  split.
  - by vm_compute.
  - exists (KERNBASE + 654336). by vm_compute.
  - by vm_compute.
  - by vm_compute.
  - by vm_compute.
  - vm_compute. by repeat split.
Qed.

Lemma main_boots_witness :
  runs_to joins (scheduler (P := plat0))
    (λ s, ∃ tabs utabs ps stacks p f ip, booted (P := plat0) 0 2 (replicate 50 144) tabs utabs ps stacks p f ip s)
    (main (P := plat0) (H := devices 0) (D := Ide.driver (P := plat0)) (V := nodev) (replicate 50 144) (boot_state 0 memory0 console_zero)).
Proof.
  apply (main_boots (P := plat0) (H := devices 0) (D := Ide.driver (P := plat0)) (V := nodev) lapic_base 0 (devices_ok 0 ltac:(lia)) ltac:(done) 0
    (replicate 50 144) memory0 console_zero (KERNBASE + 654352) entries tables_ok); try (by vm_compute). cbn. lia.
Defined.

(** CPU 1 of the machine, when CPU 0 has set up the page table at 0x80200000. *)
Definition ap : kernel := kernel_zero <| kpgdir := KERNBASE + 2097152 |> <| lapic := lapic_base |> <| apicids := [0; 1] |>.

Lemma mpenter_joins_witness :
  ∃ l c, mpenter (P := plat0) (H := devices 1) (with_dev ap [] console_zero)
    = scheduler (P := plat0) (with_dev (ap <| cr3 := 2097152 |> <| ktab ::= up_tab (P := plat0) 1 ∘ seg_tab (P := plat0) 1 |>) l c).
Proof.
  destruct (mpenter_joins (P := plat0) (H := devices 1) lapic_base 1 (devices_ok 1 ltac:(lia)) ltac:(done) 1 ap [] console_zero)
    as (l & c & E & _); [done|apply not_elem_of_nil|done|]. exists l, c. exact E.
Defined.
End Pc.
